(* ===== verification/_CoqProject ===== *)
-Q . S2P
Prelude.v
Safe.v
Names.v
Asset.v
Uint128.v
Double.v
Version.v
Config.v
AssetText.v
Json.v
Authority.v
Utf8.v
Raw.v
KeyText.v
Operations.v
Validate.v
Objects.v
State.v
Frame.v
Economics.v
Votes.v
Money.v
Balance.v
EvalWitness.v
EvalAccount.v
EvalTransfer.v
EvalEscrow.v
EvalVote.v
EvalContent.v
Evaluators.v
Block.v
SignState.v
Transactions.v
WitnessSchedule.v
Periodic.v
Hardforks.v
Blocks.v
Supply.v
Genesis.v
Chainbase.v
ForkDb.v
BlockLog.v
Node.v
NodeFacts.v
Pending.v
Examples.v
NodeTheorems.v
ChainPlugin.v
WitnessPlugin.v
P2pPlugin.v
Gossip.v
Sync.v
SyncFacts.v
AccountByKey.v
AccountHistory.v
PluginState.v
Messages.v
GroupMessaging.v
GroupApi.v
MessageFacts.v
GroupFacts.v
GroupSafety.v
JsonRpc.v
TrackAndTrace.v
CustomTokens.v
PluginTheorems.v
HistoryTheorems.v
TextTheorems.v
TokenTheorems.v
CustodyTheorems.v
GossipTheorems.v
SyncTheorems.v
RpcTheorems.v
MessagingTheorems.v
EconomicsTheorems.v
EscrowTheorems.v
ConsensusTheorems.v
ProtocolTheorems.v
SupplyTheorems.v
UndoTheorems.v
