(* ===== verification/Prelude.v ===== *)
(** * SophiaTX: a verified model of the blockchain node

    SophiaTX is a delegated-proof-of-stake chain derived from Steem.  A node keeps the state
    of the chain in object tables with an undo history (chainbase), applies transactions and
    blocks to it (chain), keeps recent blocks in a tree of forks and irreversible ones in a
    log, and runs plugins around it: one queues all writes, one produces blocks, one
    exchanges blocks and transactions with peers, others index what happens or interpret
    custom operations.  This development translates that program into executable
    definitions and proves what makes its parts correct.

    ** The parts and their files

    Paths are relative to [src/libraries/] unless they start with [src/].  A definition has
    the name of the function it translates where that is possible; the doc comment of each
    file names its sources.

    - The prelude ([Prelude]): the C++ exceptions as values ([exn], with [crash] for
      undefined behaviour), the error monad [res], the state monad [ST], record updates,
      machine widths ([u32], [u64], [i64], ...), loops, and the lemmas, tactics and hints
      the other files share.

    - The protocol library ([protocol/], [fc/]): checked integers ([Safe]), 128-bit
      integers ([Uint128]), doubles ([Double]), names ([Names]), assets and prices ([Asset],
      [AssetText]), versions and constants ([Version], [Config]), JSON ([Json]), UTF-8
      ([Utf8]), packing ([Raw]), texts of keys ([KeyText]), authorities ([Authority]), the
      operations and their validation ([Operations], [Validate]), transactions and blocks
      ([Block]) and the check of signatures ([SignState]).

    - The state of the chain ([chain/]): the objects ([Objects]) and the database of tables
      ([State]), whose handlers run in the monad [DB]; what a handler leaves alone
      ([Frame], [Money]); reward pools ([Economics]), witness votes ([Votes]), balances and
      fees ([Balance]).

    - The evaluators ([chain/sophiatx_evaluator.cpp]): [EvalWitness], [EvalAccount],
      [EvalTransfer], [EvalEscrow], [EvalVote], [EvalContent], composed by [Evaluators] as
      [database::apply_operation] does.

    - Blocks ([chain/database.cpp], [chain/witness_schedule.cpp]): [Transactions] applies a
      transaction, [WitnessSchedule] chooses the witnesses of a round, [Periodic] does the
      work of every block, [Hardforks] changes the protocol, [Blocks] puts a block together
      out of them and [Genesis] makes the first state.  [Supply] follows the coins
      and the head of the chain through all of it.

    - Storage: [Chainbase] is the undo history of one table, [ForkDb] the tree of recent
      blocks on a heap with weak pointers, [BlockLog] the two files of irreversible blocks.

    - The node ([Node], with [NodeFacts], [Pending]): pushing and popping blocks,
      switching forks, pending transactions, production and reindexing
      ([database::push_block] and its callees).  It uses the three storage components; the
      undo history is there as the stack of states that [Chainbase] proves it to be.

    - Plugins ([plugins/], [src/external_plugins/]): the write queue ([ChainPlugin]), block
      production ([WitnessPlugin]), the answers about the chain ([P2pPlugin]) that the
      network asks for ([net/node.cpp]: [Gossip] when peers are in sync, [Sync] while a node
      catches up), the calls over JSON-RPC ([JsonRpc]), the key lookup ([AccountByKey]), the
      account history ([AccountHistory]), and three interpreters of custom operations over
      the tables of [PluginState]: tokens ([CustomTokens]), custody of items
      ([TrackAndTrace]), and groups that exchange encrypted messages ([Messages],
      [GroupMessaging], [GroupApi]).

    - [Examples] has concrete instances of the parameters and concrete states, at which the
      theorems are applied.

    ** How the code is modelled

    A C++ reference to an object of a table is its key, read again at every use.  A throwing
    function returns the exception beside the state as far as it got, wherever something
    catches it: [Node] and [PluginState] keep that state, [DB] drops it because the session
    around every transaction and block is undone ([Chainbase], [Node]).  [crash] is never
    caught, so that a theorem that an operation returns [Ok] says also that nothing undefined
    happens on the way.  Integers are in [Z] with their wrap-around, or their overflow check,
    written out.  Threads and tasks appear where the code has them as events in any order
    ([ChainPlugin], [Gossip], [Sync]).

    Type classes carry what is not in the repository, with the documented behaviour of that
    code as a second class of laws where theorems need it: hashes and signatures ([crypto],
    [externals], [sha256_function]), the cipher of OpenSSL and the curve of libsecp256k1
    ([ciphers]), [boost::lexical_cast], [boost::lockfree::queue], the interpreters plugins
    register ([interpreters]), the packed form of whole blocks and transactions
    ([block_packing], [block_store], [transaction_packing]), the client of the
    network ([node_client]) and the configuration a genesis file gives ([sophiatx_config]).

    ** What the theorems show

    - [SupplyTheorems], [EconomicsTheorems]: operations, blocks and every chain of blocks
      from the state of genesis neither create nor destroy coins unaccounted for, and
      [validate_invariants] checks exactly that; withdrawals of vesting pay what was asked
      for.
    - [EscrowTheorems]: the escrow handlers implement a state machine; from its opening on
      they pay out exactly what was put into an escrow, to those entitled.
    - [ProtocolTheorems], [Uint128]: accepted signatures reach the thresholds of the
      authorities; the two-limb integers compute modulo 2^128.
    - [ConsensusTheorems]: the schedule of a round, the irreversible block (by its distance
      from the head at first, by a quorum once witnesses vote), hardforks in order.
    - [NodeTheorems], [UndoTheorems]: sessions refine a stack of snapshots, the block log a
      list; a fork switch replays the branch, a failed one puts the old branch back; a
      block that fails leaves no trace, unless it made itself irreversible before;
      reindexing replays the log, pending transactions are those that apply to the head.
    - [PluginTheorems]: the write queue serves every request once and in order, and answers
      all of them; the witness plugin produces exactly when it should.
    - [GossipTheorems]: items are requested from one peer at a time and told once to each.
    - [SyncTheorems] (with [SyncFacts]): blocks are requested from one peer at a time and
      handed over in the order of the chain, up to the block at which the loop stops;
      synopses are seamless; what makes a node that catches up wait for ever.
    - [RpcTheorems]: every request of the API without null characters is answered, and which
      ones run a method; the answers to the requests of the unit tests are the expected ones.
    - [HistoryTheorems]: the key lookup is the inverse of the authorities but for two
      operations that escape it, histories are complete up to pruning.
    - [TextTheorems]: assets, JSON values without doubles and control characters, and keys
      read back; exactly which texts are read as keys; which texts the parser never ends on.
    - [TokenTheorems], [CustodyTheorems], [MessagingTheorems]: what the three interpreters
      guarantee (tokens add up but for an issue that wraps around, items pass by claims and
      by accepted offers of their holders, messages reach the group and only its admin
      changes it), and where they fail.

    ** Fuel and bounds

    Loops whose end is not structural take fuel: text loops one unit per character or byte
    ([label_loop], [find_invalid], [index_loop]; digits and packed varints the number of
    digits that their width allows), loops over tables one per object ([interests_loop],
    [withdrawals_loop]), loops along the chain one per block ([descend], [pop_until],
    [replay], [synopsis_loop]), [backlog_loop] one per block received, [complete_synopsis]
    the 33 halvings of a distance of 32 bits, [process_hardforks_loop] one per hardfork,
    [proxy_loop] the depth the protocol allows, [divide_scale] one per bit. Where the fuel
    is an argument a theorem says how much is enough ([json_parser_terminates],
    [reindex_replays], [hardforks_in_order]); the JSON parser alone has texts on which no
    fuel is enough, and says so in its result.

    ** What is not modelled

    - The rest of the network: handshakes, the peer database, requests that time out, rate
      limits, sockets and threads.
    - The methods of the remote API, which copy objects of the chain into results (methods
      are a parameter of [JsonRpc]), the web server, and the wallet, a client of them.
    - The calls of plugin APIs that only read tables; options, logging, signals, locks, the
      memory-mapped file.
    - The reflection that packs whole operations and blocks: what the program relies on is a
      parameter of the model.  The unused parts of [fc] and its cryptography.
    - The test network ([IS_TEST_NET]) and the low-memory build. *)
From Stdlib Require Export ZArith Lia List Bool.
From stdpp Require Export base tactics option list gmap fin_maps sorting.

#[global] Set Default Goal Selector "!".

(** ** Exceptions and the error monad

    [exn] lists the C++ exception classes the modelled code throws.  [crash]
    stands for behaviour the C++ standard leaves undefined (native division by
    zero, vector access out of range): a theorem that an operation returns
    [Ok] therefore also says that it is free of such behaviour. *)
Inductive exn : Set :=
  | assert_exception
  | overflow_exception
  | underflow_exception
  | divide_by_zero_exception
  | out_of_range
  | logic_error
  | parse_error_exception
  | transaction_tapos_exception
  | transaction_expiration_exception
  | tx_missing_active_auth
  | tx_missing_owner_auth
  | tx_missing_other_auth
  | tx_irrelevant_sig
  | tx_duplicate_sig
  | tx_exceeded_bandwidth
  | undo_database_exception
  | unlinkable_block_exception
  | pop_empty_chain
  | unknown_hardfork_exception
  | block_log_exception
  | ios_failure
  | plugin_exception
  | fc_exception
  | block_older_than_undo_history
  | peer_is_on_an_unreachable_fork
  | key_not_found_exception
  | eof_exception
  | bad_cast_exception
  | invalid_argument
  | crash.

#[export] Instance exn_eq_dec : EqDecision exn.
Proof. solve_decision. Defined.

Inductive res (A : Type) : Type :=
  | Ok (a : A)
  | Throw (e : exn).
Arguments Ok {A} _.
Arguments Throw {A} _.

#[export] Instance res_ret : MRet res := fun A a => Ok a.
#[export] Instance res_bind : MBind res := fun A B f r =>
  match r with Ok a => f a | Throw e => Throw e end.
#[export] Instance res_throw : MThrow exn res := fun A e => Throw e.

Definition is_ok {A} (r : res A) : bool :=
  match r with Ok _ => true | Throw _ => false end.

(** ** State and error: a handler that threads a state and may throw.

    A thrown exception carries no state: in the program the partial changes
    made before it are discarded by the undo session of the caller (see
    [Chainbase]). *)
Definition ST (S A : Type) : Type := S -> res (A * S).

#[export] Instance ST_ret {S} : MRet (ST S) := fun A a s => Ok (a, s).
#[export] Instance ST_bind {S} : MBind (ST S) := fun A B f m s =>
  match m s with Ok (a, s1) => f a s1 | Throw e => Throw e end.
#[export] Instance ST_throw {S} : MThrow exn (ST S) := fun A e s => Throw e.

Definition lift {S A} (r : res A) : ST S A := fun s =>
  match r with Ok a => Ok (a, s) | Throw e => Throw e end.
Definition gets {S A} (f : S -> A) : ST S A := fun s => Ok (f s, s).
Definition puts {S} (f : S -> S) : ST S unit := fun s => Ok (tt, f s).

(** [FC_ASSERT] and [SOPHIATX_ASSERT]. *)
Definition sophiatx_assert {M} `{MRet M} `{MThrow exn M} (b : bool) (e : exn) : M unit :=
  if b then mret tt else mthrow e.
Definition fc_assert {M} `{MRet M} `{MThrow exn M} (b : bool) : M unit :=
  sophiatx_assert b assert_exception.

Declare Scope chain_scope.
Delimit Scope chain_scope with chain.
Notation "⌈ r ⌉" := (lift r) (at level 0, format "⌈ r ⌉") : chain_scope.
(** [whenM b m]: the statement [if( b ) m;]. *)
Definition whenM {M} `{MRet M} (b : bool) (m : M unit) : M unit :=
  if b then m else mret tt.

Fixpoint forM {M} `{MRet M} `{MBind M} {A} (l : list A) (f : A -> M unit) : M unit :=
  match l with
  | [] => mret tt
  | x :: xs => f x ;; forM xs f
  end.

Fixpoint foldM {M} `{MRet M} `{MBind M} {A B} (f : B -> A -> M B) (b : B) (l : list A) : M B :=
  match l with
  | [] => mret b
  | x :: xs => b' ← f b x; foldM f b' xs
  end.

Section inversion.
  Context {S : Type}.
  Implicit Types s : S.

Lemma bind_Ok {A B} (m : ST S A) (f : A -> ST S B) s r :
    mbind f m s = Ok r <-> exists a s1, m s = Ok (a, s1) /\ f a s1 = Ok r.
  Proof.
    unfold mbind, ST_bind. destruct (m s) as [[a s1]|e]; naive_solver.
  Qed.

Lemma rbind_Ok {A B} (m : res A) (f : A -> res B) r :
    mbind f m = Ok r <-> exists a, m = Ok a /\ f a = Ok r.
  Proof. unfold mbind, res_bind. destruct m; naive_solver. Qed.

Lemma ret_Ok {A} (a : A) s r : (mret a : ST S A) s = Ok r <-> r = (a, s).
  Proof. unfold mret, ST_ret. naive_solver. Qed.

Lemma lift_Ok {A} (x : res A) s a s1 :
    (lift x : ST S A) s = Ok (a, s1) <-> x = Ok a /\ s1 = s.
  Proof. unfold lift. destruct x; naive_solver. Qed.

Lemma gets_Ok {A} (f : S -> A) s a s1 :
    gets f s = Ok (a, s1) <-> a = f s /\ s1 = s.
  Proof. unfold gets. naive_solver. Qed.

Lemma puts_Ok (f : S -> S) s a s1 : puts f s = Ok (a, s1) <-> a = tt /\ s1 = f s.
  Proof. unfold puts. destruct a. naive_solver. Qed.

Lemma assert_Ok (b : bool) (e : exn) s a s1 :
    (sophiatx_assert b e : ST S unit) s = Ok (a, s1) <-> b = true /\ a = tt /\ s1 = s.
  Proof.
    unfold sophiatx_assert, mret, ST_ret, mthrow, ST_throw. destruct b, a; naive_solver.
  Qed.

Lemma throw_Ok {A} (e : exn) s r : (mthrow e : ST S A) s = Ok r <-> False.
  Proof. unfold mthrow, ST_throw. naive_solver. Qed.

Lemma forM_nil {A} (f : A -> ST S unit) s : forM [] f s = Ok (tt, s).
  Proof. done. Qed.
End inversion.

Lemma rassert_Ok (b : bool) (e : exn) a :
  (sophiatx_assert b e : res unit) = Ok a <-> b = true /\ a = tt.
Proof. unfold sophiatx_assert, mret, res_ret, mthrow, res_throw. destruct b, a; naive_solver. Qed.

(** [minv]: decompose a hypothesis that a monadic program returned. *)
Ltac minv1 :=
  match goal with
  | H : mbind _ _ _ = Ok _ |- _ => apply bind_Ok in H as (? & ? & ? & ?)
  | H : mbind _ _ = Ok _ |- _ => apply rbind_Ok in H as (? & ? & ?)
  | H : mret _ _ = Ok _ |- _ => apply ret_Ok in H
  | H : lift _ _ = Ok _ |- _ => apply lift_Ok in H as [? ?]
  | H : gets _ _ = Ok _ |- _ => apply gets_Ok in H as [? ?]
  | H : puts _ _ = Ok _ |- _ => apply puts_Ok in H as [? ?]
  | H : fc_assert _ _ = Ok _ |- _ => unfold fc_assert in H
  | H : fc_assert _ = Ok _ |- _ => unfold fc_assert in H
  | H : sophiatx_assert _ _ _ = Ok _ |- _ => apply assert_Ok in H as (? & ? & ?)
  | H : sophiatx_assert _ _ = Ok _ |- _ => apply rassert_Ok in H as (? & ?)
  | H : mthrow _ _ = Ok _ |- _ => apply throw_Ok in H; destruct H
  | H : whenM ?b _ _ = Ok _ |- _ => unfold whenM in H; destruct b eqn:?
  | H : Throw _ = Ok _ |- _ => discriminate H
  | H : Ok _ = Ok _ |- _ => injection H; clear H; intros
  | H : (_, _) = (_, _) |- _ => injection H; clear H; intros
  | H : tt = _ |- _ => clear H
  | x : unit |- _ => destruct x
  end.
Ltac minv := repeat (minv1; subst; cbv beta iota in * ).

Ltac bool_simpl := repeat match goal with
  | H : andb _ _ = true |- _ => apply andb_prop in H as [? ?]
  | H : negb _ = true |- _ => apply negb_true_iff in H
  | H : (_ <=? _)%Z = true |- _ => apply Z.leb_le in H
  | H : (_ <? _)%Z = true |- _ => apply Z.ltb_lt in H
  | H : (_ =? _)%Z = true |- _ => apply Z.eqb_eq in H
  | H : (_ >=? _)%Z = true |- _ => rewrite Z.geb_leb in H; apply Z.leb_le in H
  | H : (_ >? _)%Z = true |- _ => rewrite Z.gtb_ltb in H; apply Z.ltb_lt in H
  | H : (_ <=? _)%Z = false |- _ => apply Z.leb_gt in H
  | H : (_ <? _)%Z = false |- _ => apply Z.ltb_ge in H
  | H : (_ =? _)%Z = false |- _ => apply Z.eqb_neq in H
  | H : (_ >=? _)%Z = false |- _ => rewrite Z.geb_leb in H; apply Z.leb_gt in H
  | H : (_ >? _)%Z = false |- _ => rewrite Z.gtb_ltb in H; apply Z.ltb_ge in H
  end.

(** ** Record update

    [r <| f := v |>] is the record [r] with field [f] set to [v] and
    [r <| f ::= g |>] applies [g] to the field: the assignment [r.f = v] inside
    a [modify] lambda.  A record type provides [Eta], its eta expansion, and
    the setter of a field is computed from it. *)
Class Eta (R : Type) := eta_expand : R -> R.
Class Settable {R T : Type} (proj : R -> T) := upd : (T -> T) -> R -> R.
Arguments upd {R T} proj {_} _ _ / : simpl nomatch.

Ltac build_setter :=
  lazymatch goal with
  | |- @Settable ?R ?T ?proj =>
      let inst := constr:(_ : Eta R) in
      let i := eval hnf in (inst : R -> R) in
      let g := eval pattern proj in i in
      lazymatch g with
      | ?k _ => let t := eval cbv beta in (fun (h : T -> T) (r : R) => k (fun x => h (proj x)) r)
                in exact t
      end
  end.
#[export] Hint Extern 1 (Settable _) => build_setter : typeclass_instances.

Notation "r <| f := v |>" := (upd f (fun _ => v) r)
  (at level 1, left associativity, format "r  <| f  :=  v |>") : chain_scope.
Notation "r <| f ::= g |>" := (upd f g r)
  (at level 1, left associativity, format "r  <| f  ::=  g |>") : chain_scope.
Open Scope chain_scope.

(** ** Fixed-width integers: the wrap-around of native C++ arithmetic. *)
Definition u8 (x : Z) : Z := (x mod 2^8)%Z.
Definition u16 (x : Z) : Z := (x mod 2^16)%Z.
Definition u32 (x : Z) : Z := (x mod 2^32)%Z.
Definition u64 (x : Z) : Z := (x mod 2^64)%Z.
Definition u128 (x : Z) : Z := (x mod 2^128)%Z.
Definition i64 (x : Z) : Z := ((x + 2^63) mod 2^64 - 2^63)%Z.
Definition INT64_MAX : Z := (2^63 - 1)%Z.
Definition INT64_MIN : Z := (- 2^63)%Z.

Lemma u_small n x : (0 <= x < 2^n)%Z -> (x mod 2^n = x)%Z.
Proof. intros. by apply Z.mod_small. Qed.

Lemma u32_range x : (0 <= u32 x < 2^32)%Z.
Proof. apply Z.mod_pos_bound. lia. Qed.
Lemma u64_range x : (0 <= u64 x < 2^64)%Z.
Proof. apply Z.mod_pos_bound. lia. Qed.
Lemma u128_range x : (0 <= u128 x < 2^128)%Z.
Proof. apply Z.mod_pos_bound. lia. Qed.

(** Bits that do not overlap are added by [Z.lor]. *)
Lemma lor_disjoint a b n : (0 <= n)%Z -> (0 <= b < 2^n)%Z -> (Z.lor (a * 2^n) b = a * 2^n + b)%Z.
Proof.
  intros Hn Hb. pose proof (Z.add_lor_land (a * 2^n) b) as Hs.
  enough (Z.land (a * 2^n) b = 0)%Z by lia.
  rewrite <- (Z.mod_small b (2^n)) by done. rewrite <- Z.land_ones, <- Z.shiftl_mul_pow2 by done.
  apply Z.bits_inj'. intros i Hi. rewrite !Z.land_spec, Z.bits_0.
  destruct (Z.lt_ge_cases i n); [by rewrite Z.shiftl_spec_low|].
  rewrite Z.ones_spec_high by lia. by rewrite !andb_false_r.
Qed.

Lemma elem_of_filter_bool {A} (p : A -> bool) (l : list A) x :
  x ∈ List.filter p l <-> x ∈ l /\ p x = true.
Proof. rewrite !list_elem_of_In. apply filter_In. Qed.

(** ** Sums over the values of a finite map *)
Section map_sum.
  Context {K : Type} `{Countable K} {A : Type}.
  Implicit Types (m : gmap K A) (f : A -> Z).
  Local Open Scope Z_scope.

Definition map_sum (f : A -> Z) (m : gmap K A) : Z := map_fold (fun _ a acc => f a + acc) 0 m.

Lemma map_sum_empty f : map_sum f (empty : gmap K A) = 0.
  Proof. apply map_fold_empty. Qed.

Lemma map_sum_insert_new f m k a :
    m !! k = None -> map_sum f (<[k:=a]> m) = f a + map_sum f m.
  Proof.
    intros Hk. unfold map_sum.
    rewrite (map_fold_insert_L _ _ _ _ _ ); [done| |done].
    intros. lia.
  Qed.

Lemma map_sum_delete f m k a :
    m !! k = Some a -> map_sum f (delete k m) = map_sum f m - f a.
  Proof.
    intros Hk. rewrite <- (insert_delete_id m k a Hk) at 2.
    rewrite map_sum_insert_new by apply lookup_delete_eq. lia.
  Qed.

Lemma map_sum_insert f m k a b :
    m !! k = Some a -> map_sum f (<[k:=b]> m) = map_sum f m - f a + f b.
  Proof.
    intros Hk. rewrite <- insert_delete_eq.
    rewrite map_sum_insert_new by apply lookup_delete_eq.
    rewrite (map_sum_delete f m k a Hk). lia.
  Qed.

Lemma map_sum_ext f g m :
    (forall k a, m !! k = Some a -> f a = g a) -> map_sum f m = map_sum g m.
  Proof.
    induction m as [|k a m Hk IH] using map_ind; intros Hfg.
    { by rewrite !map_sum_empty. }
    rewrite !map_sum_insert_new by done.
    rewrite (Hfg k a) by apply lookup_insert_eq. f_equal. apply IH.
    intros k' a' Hk'. apply (Hfg k'). rewrite lookup_insert_ne; [done|congruence].
  Qed.

Lemma map_sum_le f g m :
    (forall k a, m !! k = Some a -> f a <= g a) -> map_sum f m <= map_sum g m.
  Proof.
    induction m as [|k a m Hk IH] using map_ind; intros Hfg.
    { by rewrite !map_sum_empty. }
    rewrite !map_sum_insert_new by done.
    assert (f a <= g a) by (apply (Hfg k); apply lookup_insert_eq).
    enough (map_sum f m <= map_sum g m) by lia. apply IH.
    intros k' a' Hk'. apply (Hfg k'). rewrite lookup_insert_ne; [done|congruence].
  Qed.

Lemma map_sum_zero m : map_sum (fun _ => 0) m = 0.
  Proof.
    induction m as [|k a m Hk IH] using map_ind; [apply map_sum_empty|].
    rewrite map_sum_insert_new by done. lia.
  Qed.

Lemma map_sum_nonneg f m :
    (forall k a, m !! k = Some a -> 0 <= f a) -> 0 <= map_sum f m.
  Proof. intros Hf. rewrite <- (map_sum_zero m). by apply map_sum_le. Qed.

  (** One value is at most the sum when the others are not negative. *)
Lemma map_sum_lookup_le f m k a :
    (forall k a, m !! k = Some a -> 0 <= f a) -> m !! k = Some a -> f a <= map_sum f m.
  Proof.
    intros Hf Hk. enough (0 <= map_sum f (delete k m)) by (rewrite (map_sum_delete f m k a Hk) in *; lia).
    apply map_sum_nonneg. intros k' a' [_ Hk']%lookup_delete_Some. eauto.
  Qed.

Lemma map_sum_fmap f (g : A -> A) m : map_sum f (g <$> m) = map_sum (fun a => f (g a)) m.
  Proof.
    induction m as [|k a m Hk IH] using map_ind.
    { by rewrite fmap_empty, !map_sum_empty. }
    rewrite fmap_insert, !map_sum_insert_new; [lia|done|].
    by rewrite lookup_fmap, Hk.
  Qed.
End map_sum.
