(* ===== verification/Safe.v ===== *)
(** * Safe: [fc::safe<int64_t>], the overflow-checked integer of the chain.

    [share_type] is [safe<int64_t>]: every amount, vote count and pool of the
    chain state is one.  The operations follow [fc/safe.hpp] test by test; the
    lemmas show that each one returns the exact integer result when it fits in
    64 bits and throws otherwise, with no intermediate overflow. *)
From S2P Require Import Prelude.
Local Open Scope Z_scope.

Definition in_i64 (a : Z) : Prop := INT64_MIN <= a <= INT64_MAX.

Definition safe_add (a b : Z) : res Z :=
  if (b >? 0) && (a >? INT64_MAX - b) then Throw overflow_exception
  else if (b <? 0) && (a <? INT64_MIN - b) then Throw underflow_exception
  else Ok (a + b).

Definition safe_sub (a b : Z) : res Z :=
  if (b >? 0) && (a <? INT64_MIN + b) then Throw underflow_exception
  else if (b <? 0) && (a >? INT64_MAX + b) then Throw overflow_exception
  else Ok (a - b).

Definition safe_mul (a b : Z) : res Z :=
  if a >? 0 then
    if b >? 0 then
      if a >? Z.quot INT64_MAX b then Throw overflow_exception else Ok (a * b)
    else if b <? Z.quot INT64_MIN a then Throw underflow_exception else Ok (a * b)
  else if b >? 0 then
    if a <? Z.quot INT64_MIN b then Throw underflow_exception else Ok (a * b)
  else if negb (a =? 0) && (b <? Z.quot INT64_MAX a) then Throw overflow_exception
  else Ok (a * b).

Definition safe_div (a b : Z) : res Z :=
  if b =? 0 then Throw divide_by_zero_exception
  else if (a =? INT64_MIN) && (b =? -1) then Throw overflow_exception
  else Ok (Z.quot a b).

Definition safe_mod (a b : Z) : res Z :=
  if b =? 0 then Throw divide_by_zero_exception
  else if (a =? INT64_MIN) && (b =? -1) then Throw overflow_exception
  else Ok (Z.rem a b).

Definition safe_neg (a : Z) : res Z :=
  if a =? INT64_MIN then Throw overflow_exception else Ok (- a).

Notation "a +! b" := (safe_add a b) (at level 50) : chain_scope.
Notation "a -! b" := (safe_sub a b) (at level 50) : chain_scope.
Notation "a *! b" := (safe_mul a b) (at level 40) : chain_scope.
Notation "a /! b" := (safe_div a b) (at level 40) : chain_scope.

(** ** Exactness *)
Ltac safe_tac :=
  repeat case_match; bool_simpl;
  repeat match goal with
  | H : andb _ _ = false |- _ => apply andb_false_iff in H; destruct H
  end; bool_simpl; split; intros; minv; unfold in_i64, INT64_MIN, INT64_MAX in *; try lia;
  try (f_equal; lia); try (split; [done|lia]).

Lemma safe_add_Ok a b c : in_i64 a -> in_i64 b ->
  safe_add a b = Ok c <-> c = a + b /\ in_i64 c.
Proof. intros Ha Hb. unfold safe_add. safe_tac. Qed.

Lemma safe_sub_Ok a b c : in_i64 a -> in_i64 b ->
  safe_sub a b = Ok c <-> c = a - b /\ in_i64 c.
Proof. intros Ha Hb. unfold safe_sub. safe_tac. Qed.

Lemma safe_neg_Ok a c : in_i64 a -> safe_neg a = Ok c <-> c = - a /\ in_i64 c.
Proof. intros Ha. unfold safe_neg. safe_tac. Qed.

(** The value of a returned sum, difference or product, without range hypotheses. *)
Lemma safe_add_val a b c : safe_add a b = Ok c -> c = a + b.
Proof. unfold safe_add. repeat case_match; naive_solver. Qed.
Lemma safe_sub_val a b c : safe_sub a b = Ok c -> c = a - b.
Proof. unfold safe_sub. repeat case_match; naive_solver. Qed.
Lemma safe_mul_val a b c : safe_mul a b = Ok c -> c = a * b.
Proof. unfold safe_mul. repeat case_match; naive_solver. Qed.
Lemma safe_neg_val a c : safe_neg a = Ok c -> c = - a.
Proof. unfold safe_neg. repeat case_match; naive_solver. Qed.
Lemma safe_div_val a b c : safe_div a b = Ok c -> b <> 0 /\ c = Z.quot a b.
Proof. unfold safe_div. repeat case_match; bool_simpl; naive_solver. Qed.
Lemma safe_mod_val a b c : safe_mod a b = Ok c -> b <> 0 /\ c = Z.rem a b.
Proof. unfold safe_mod. repeat case_match; bool_simpl; naive_solver. Qed.

(** A sum or difference never exceeds the range its first operand is in. *)
Lemma safe_add_le a b c : safe_add a b = Ok c -> a <= INT64_MAX -> c <= INT64_MAX.
Proof.
  unfold safe_add. destruct (b >? 0) eqn:E, (a >? _) eqn:E2; cbn [andb]; repeat case_match;
    intros; minv; bool_simpl; lia.
Qed.
Lemma safe_sub_le a b c : safe_sub a b = Ok c -> a <= INT64_MAX -> c <= INT64_MAX.
Proof.
  unfold safe_sub. destruct (b <? 0) eqn:E, (a >? _) eqn:E2; cbn [andb]; repeat case_match;
    intros; minv; bool_simpl; lia.
Qed.

(** Natural amounts whose sum fits are added. *)
Lemma safe_add_nonneg a b : 0 <= a -> 0 <= b -> a + b <= INT64_MAX -> safe_add a b = Ok (a + b).
Proof.
  intros Ha Hb Hs. unfold safe_add. unfold INT64_MAX, INT64_MIN in *.
  destruct (b >? 0) eqn:E, (a >? _) eqn:E2; cbn [andb]; repeat case_match; bool_simpl; done || lia.
Qed.

Ltac safe_vals := repeat match goal with
  | H : safe_add _ _ = Ok _ |- _ => apply safe_add_val in H
  | H : safe_sub _ _ = Ok _ |- _ => apply safe_sub_val in H
  | H : safe_mul _ _ = Ok _ |- _ => apply safe_mul_val in H
  | H : safe_neg _ = Ok _ |- _ => apply safe_neg_val in H
  | H : safe_div _ _ = Ok _ |- _ => apply safe_div_val in H as [? H]
  | H : safe_mod _ _ = Ok _ |- _ => apply safe_mod_val in H as [? H]
  end.

(** The quotient bounds the products that fit, for each pair of signs. *)
Lemma quot_upper m a b : 0 < b -> 0 <= m -> a <= Z.quot m b <-> a * b <= m.
Proof.
  intros Hb Hm. rewrite Z.quot_div_nonneg by lia.
  pose proof (Z.div_mod m b ltac:(lia)). pose proof (Z.mod_pos_bound m b Hb). nia.
Qed.

Lemma quot_lower m a b : 0 < b -> 0 <= m -> Z.quot (- m) b <= a <-> - m <= a * b.
Proof.
  intros Hb Hm. rewrite Z.quot_opp_l by lia. rewrite Z.quot_div_nonneg by lia.
  pose proof (Z.div_mod m b ltac:(lia)). pose proof (Z.mod_pos_bound m b Hb). nia.
Qed.

Lemma safe_mul_Ok a b c : in_i64 a -> in_i64 b ->
  safe_mul a b = Ok c <-> c = a * b /\ in_i64 c.
Proof.
  intros Ha Hb. unfold safe_mul, in_i64, INT64_MAX, INT64_MIN in *.
  destruct (a >? 0) eqn:Ea; [destruct (b >? 0) eqn:Eb|destruct (b >? 0) eqn:Eb]; bool_simpl.
  - pose proof (quot_upper (2^63-1) a b Eb ltac:(lia)).
    destruct (a >? _) eqn:E; bool_simpl; split; intros; minv; try split; try f_equal; try nia.
  - pose proof (quot_lower (2^63) b a Ea ltac:(lia)). change (- 2^63) with (-(2^63)) in *.
    destruct (b <? _) eqn:E; bool_simpl; split; intros; minv; try split; try f_equal; try nia.
  - pose proof (quot_lower (2^63) a b Eb ltac:(lia)). change (- 2^63) with (-(2^63)) in *.
    destruct (a <? _) eqn:E; bool_simpl; split; intros; minv; try split; try f_equal; try nia.
  - destruct (Z.eq_dec a 0) as [->|Hn].
    { cbn [Z.eqb negb andb]. split; [intros [= <-]; split; [done|lia]|]. by intros [-> _]. }
    pose proof (quot_upper (2^63-1) (- b) (- a) ltac:(lia) ltac:(lia)) as Hq.
    rewrite Z.quot_opp_r in Hq by lia.
    destruct (negb _ && _) eqn:E; [bool_simpl|apply andb_false_iff in E as [E|E]; bool_simpl];
      try (apply negb_false_iff in E; bool_simpl);
      split; intros; minv; try split; try f_equal; try nia.
Qed.

Lemma safe_div_Ok a b c : in_i64 a -> in_i64 b -> b <> 0 ->
  safe_div a b = Ok c <-> c = Z.quot a b /\ in_i64 c.
Proof.
  intros Ha Hb Hn. unfold safe_div, in_i64, INT64_MAX, INT64_MIN in *.
  destruct (b =? 0) eqn:E0; bool_simpl; [lia|].
  destruct ((a =? _) && (b =? _)) eqn:E; bool_simpl; subst.
  - split; [done|]. intros [-> H]. vm_compute in H. destruct H. done.
  - split; intros; minv; [|f_equal; lia]. split; [done|].
    assert (Z.abs (Z.quot a b) <= Z.abs a).
    { rewrite <- Z.quot_abs by done. apply Z.quot_le_upper_bound; nia. }
    assert (a = - 2^63 -> Z.quot a b <> 2^63); [|lia].
    intros -> Hq. apply andb_false_iff in E as [E|E]; bool_simpl; [lia|].
    pose proof (Z.quot_rem' (-2^63) b). pose proof (Z.rem_bound_abs (-2^63) b Hn). nia.
Qed.
