(* ===== verification/Names.v ===== *)
(** * Names: [fc::base64m] and [fixed_string<24>], the account name type.

    An account name is not the text of an operation but its base64m decoding,
    kept as a 192-bit big-endian number [data] and the number [_size] of decoded
    bytes.  Comparison looks at [data] only, [size()] and [length()] at [_size].
    Bytes and characters are numbers below 256. *)
From Stdlib Require Import String Ascii.
From S2P Require Import Prelude.
Local Open Scope Z_scope.
Local Open Scope list_scope.

Definition bytes_of_string (s : string) : list Z :=
  map (fun c => Z.of_N (N_of_ascii c)) (list_ascii_of_string s).

(** ** base64m.cpp *)

(** [base64m_chars().find(c)], for the characters of the alphabet. *)
Definition base64m_find (c : Z) : Z :=
  if (65 <=? c) && (c <=? 90) then c - 65
  else if (97 <=? c) && (c <=? 122) then c - 97 + 26
  else if (48 <=? c) && (c <=? 57) then c - 48 + 52
  else if c =? 45 then 62
  else if c =? 95 then 63
  else 255.

(** [base64m_chars()[i]] *)
Definition base64m_char (i : Z) : Z :=
  if i <? 26 then i + 65
  else if i <? 52 then i - 26 + 97
  else if i <? 62 then i - 52 + 48
  else if i =? 62 then 45
  else 95.

Definition is_base64m (c : Z) : bool :=
  ((65 <=? c) && (c <=? 90)) || ((97 <=? c) && (c <=? 122)) || ((48 <=? c) && (c <=? 57))
  || (c =? 45) || (c =? 95).

(** Four sextets from three bytes and back. *)
Definition sextets (b0 b1 b2 : Z) : list Z :=
  [ Z.shiftr (Z.land b0 252) 2;
    Z.shiftl (Z.land b0 3) 4 + Z.shiftr (Z.land b1 240) 4;
    Z.shiftl (Z.land b1 15) 2 + Z.shiftr (Z.land b2 192) 6;
    Z.land b2 63 ].

Definition octets (c0 c1 c2 c3 : Z) : list Z :=
  [ u8 (Z.shiftl c0 2 + Z.shiftr (Z.land c1 48) 4);
    u8 (Z.shiftl (Z.land c1 15) 4 + Z.shiftr (Z.land c2 60) 2);
    u8 (Z.shiftl (Z.land c2 3) 6 + c3) ].

Fixpoint base64m_encode (bs : list Z) : list Z :=
  match bs with
  | b0 :: b1 :: b2 :: rest => map base64m_char (sextets b0 b1 b2) ++ base64m_encode rest
  | [b0; b1] => map base64m_char (take 3 (sextets b0 b1 0)) ++ [61]
  | [b0] => map base64m_char (take 2 (sextets b0 0 0)) ++ [61; 61]
  | [] => []
  end.

(** The input up to the first character that is not of the alphabet. *)
Fixpoint take_base64m (cs : list Z) : list Z :=
  match cs with
  | c :: cs' => if negb (c =? 61) && is_base64m c then c :: take_base64m cs' else []
  | [] => []
  end.

Fixpoint decode_groups (cs : list Z) : list Z :=
  match cs with
  | c0 :: c1 :: c2 :: c3 :: rest => octets c0 c1 c2 c3 ++ decode_groups rest
  | [c0; c1; c2] => take 2 (octets c0 c1 c2 255)
  | [c0; c1] => take 1 (octets c0 c1 255 255)
  | _ => []
  end.

Definition base64m_decode (s : list Z) : list Z :=
  decode_groups (map base64m_find (take_base64m s)).

Definition normalize_to_base64m (s : list Z) : list Z :=
  map (fun c => if c =? 43 then 45 else if c =? 47 then 95 else c) s.

(** ** fixed_string.hpp *)
Record account_name_type := Name { data : Z; _size : Z }.
#[export] Instance account_name_eq_dec : EqDecision account_name_type.
Proof. solve_decision. Defined.

Definition name_eqb (a b : account_name_type) : bool := data a =? data b.
Definition name_ltb (a b : account_name_type) : bool := data a <? data b.
Definition name_size (a : account_name_type) : Z := _size a.

(** [erpair<uint128,uint64>] of the bytes, in big-endian order. *)
Definition be_value (bs : list Z) : Z := fold_left (fun acc b => acc * 256 + b) bs 0.
Fixpoint be_bytes (n : nat) (v : Z) : list Z :=
  match n with
  | O => []
  | S n' => be_bytes n' (v / 256) ++ [v mod 256]
  end.

Definition STORAGE_SIZE : Z := 24.
Definition pad_storage (bs : list Z) : list Z :=
  bs ++ repeat 0 (Z.to_nat STORAGE_SIZE - length bs).

Fixpoint pad4_fuel (n : nat) (s : list Z) : list Z :=
  match n with
  | O => s
  | S n' => if Z.of_nat (length s) mod 4 =? 0 then s else pad4_fuel n' (s ++ [65])
  end.
(** [while(tmp_str.size() % 4) tmp_str +='A';] runs at most three times. *)
Definition pad4 (s : list Z) : list Z := pad4_fuel 3 s.

Definition fixed_string (str : list Z) : account_name_type :=
  let s := base64m_decode (normalize_to_base64m (pad4 str)) in
  let count := Z.of_nat (length s) in
  let size := if count <=? STORAGE_SIZE then count else STORAGE_SIZE in
  Name (be_value (pad_storage (take (Z.to_nat size) s))) size.

(** [while( s.at(s.size()-1) == 'A') s.erase(s.size()-1);] on the reversed
    string: erasing the last character throws [out_of_range] at the next test. *)
Fixpoint strip_rev (s : list Z) : res (list Z) :=
  match s with
  | [] => Throw out_of_range
  | c :: s' => if c =? 65 then strip_rev s' else Ok s
  end.

Definition string_of_name (a : account_name_type) : res (list Z) :=
  let d := be_bytes 24 (data a) in
  let n := if _size a mod 3 =? 1 then _size a + 2
           else if _size a mod 3 =? 2 then _size a + 1 else _size a in
  let s := base64m_encode (take (Z.to_nat n) d) in
  match s with
  | [] => Ok []
  | _ => r ← strip_rev (rev s); Ok (rev r)
  end.

Definition name_of (s : string) : account_name_type := fixed_string (bytes_of_string s).

(** [validate_account_name] of validation.hpp. *)
Definition validate_account_name (name : account_name_type) : res unit :=
  s ← string_of_name name;
  let hash := base64m_decode (normalize_to_base64m s) in
  fc_assert (Z.of_nat (length hash) <=? STORAGE_SIZE).

(** ** Reserved account names (config.hpp) *)
Definition SOPHIATX_INIT_MINER_NAME : account_name_type := Eval vm_compute in name_of "initminer".
Definition SOPHIATX_MINER_ACCOUNT : account_name_type := Eval vm_compute in name_of "miners".
Definition SOPHIATX_NULL_ACCOUNT : account_name_type := Eval vm_compute in name_of "none".
Definition SOPHIATX_TEMP_ACCOUNT : account_name_type := Eval vm_compute in name_of "temp".
Definition SOPHIATX_PROXY_TO_SELF_ACCOUNT : account_name_type := Eval vm_compute in name_of "".

(** ** Lemmas *)
Lemma name_eqb_eq a b : name_eqb a b = true <-> data a = data b.
Proof. apply Z.eqb_eq. Qed.

Lemma name_eqb_refl a : name_eqb a a = true.
Proof. apply Z.eqb_refl. Qed.

Example name_initminer : string_of_name SOPHIATX_INIT_MINER_NAME = Ok (bytes_of_string "initminer").
Proof. vm_compute. reflexivity. Qed.

(** A name that is only letters A has an empty text and cannot be converted back. *)
Example name_all_A : string_of_name (name_of "AAAA") = Throw out_of_range.
Proof. vm_compute. reflexivity. Qed.
