(* ===== verification/Asset.v ===== *)
(** * Asset: asset symbols, assets and prices ([protocol/asset*.{hpp,cpp}]). *)
From Stdlib Require Import String Ascii.
From stdpp Require Import pretty.
From S2P Require Import Prelude Safe Names.
Local Open Scope Z_scope.
Local Open Scope list_scope.

(** ** asset_symbol_type: up to eight characters packed in a [uint64_t], the
    first one in the low byte. *)
(** [uint64_t(c)] of a (signed) [char] sign-extends. *)
Definition char_to_u64 (c : Z) : Z := if c >=? 128 then 2^64 - 256 + c else c.

Fixpoint pack_symbol (cs : list Z) : Z :=
  match cs with
  | [] => 0
  | c :: cs' => Z.lor (u64 (Z.shiftl (pack_symbol cs') 8)) (char_to_u64 c)
  end.

Definition symbol_from_string (str : list Z) : res Z :=
  fc_assert ((3 <=? Z.of_nat (length str)) && (Z.of_nat (length str) <=? 6)) ;;
  Ok (pack_symbol str).

Fixpoint symbol_to_string_fuel (n : nat) (symbol : Z) : list Z :=
  match n with
  | O => []
  | S n' => if symbol =? 0 then []
            else Z.land symbol 255 :: symbol_to_string_fuel n' (Z.shiftr symbol 8)
  end.
(** The loop shifts a 64-bit value by 8: eight rounds empty it. *)
Definition symbol_to_string (value : Z) : list Z := symbol_to_string_fuel 8 value.

(** Reserved symbols (config.hpp) *)
Definition VESTS_SYMBOL : Z := Eval vm_compute in pack_symbol (bytes_of_string "VESTS").
Definition SOPHIATX_SYMBOL_U64 : Z := Eval vm_compute in pack_symbol (bytes_of_string "SPHTX").
Definition SBD1_SYMBOL : Z := Eval vm_compute in pack_symbol (bytes_of_string "USD").
Definition SBD2_SYMBOL : Z := Eval vm_compute in pack_symbol (bytes_of_string "EUR").
Definition SBD3_SYMBOL : Z := Eval vm_compute in pack_symbol (bytes_of_string "CHF").
Definition SBD4_SYMBOL : Z := Eval vm_compute in pack_symbol (bytes_of_string "CNY").
Definition SBD5_SYMBOL : Z := Eval vm_compute in pack_symbol (bytes_of_string "GBP").

Definition SOPHIATX_SATOSHIS : Z := 1000000.
Definition SOPHIATX_MAX_SATOSHIS : Z := 4611686018427387903.

(** ** asset *)
Record asset := Asset { amount : Z; symbol : Z }.
#[export] Instance asset_eq_dec : EqDecision asset.
Proof. solve_decision. Defined.
#[export] Instance asset_eta : Eta asset := fun a => Asset (amount a) (symbol a).

Definition asset_add (a b : asset) : res asset :=
  fc_assert (symbol a =? symbol b) ;; n ← amount a +! amount b; Ok (Asset n (symbol a)).
Definition asset_sub (a b : asset) : res asset :=
  fc_assert (symbol a =? symbol b) ;; n ← amount a -! amount b; Ok (Asset n (symbol a)).
Definition asset_neg (a : asset) : res asset :=
  n ← safe_neg (amount a); Ok (Asset n (symbol a)).
Definition asset_eqb (a b : asset) : bool := (symbol a =? symbol b) && (amount a =? amount b).
(** The comparisons assert that the symbols agree. *)
Definition asset_cmp (cmp : Z -> Z -> bool) (a b : asset) : res bool :=
  fc_assert (symbol a =? symbol b) ;; Ok (cmp (amount a) (amount b)).
Definition asset_ltb := asset_cmp Z.ltb.
Definition asset_leb := asset_cmp Z.leb.
Definition asset_neqb := asset_cmp (fun x y => negb (x =? y)).
Definition asset_gtb := asset_cmp Z.gtb.
Definition asset_geb := asset_cmp Z.geb.
Definition asset_mul_share (a : asset) (b : Z) : res asset :=
  n ← amount a *! b; Ok (Asset n (symbol a)).

(** [asset::to_string]: the division by the unsigned [SOPHIATX_SATOSHIS]
    converts the amount to [uint64_t]. *)
Definition dec_string (n : Z) : list Z := bytes_of_string (pretty (Z.to_N n)).
Definition asset_to_string (a : asset) : list Z :=
  let v := u64 (amount a) in
  dec_string (v / SOPHIATX_SATOSHIS) ++ [46]
  ++ tail (dec_string (SOPHIATX_SATOSHIS + v mod SOPHIATX_SATOSHIS))
  ++ [32] ++ symbol_to_string (symbol a).

(** ** price *)
Record price := Price { base : asset; quote : asset }.
#[export] Instance price_eq_dec : EqDecision price.
Proof. solve_decision. Defined.
#[export] Instance price_eta : Eta price := fun p => Price (base p) (quote p).

Definition price_validate (p : price) : res unit :=
  fc_assert (amount (base p) >? 0) ;;
  fc_assert (amount (quote p) >? 0) ;;
  fc_assert (negb (symbol (base p) =? symbol (quote p))).

(** The explicit constructor validates; the default one does not. *)
Definition mk_price (b q : asset) : res price := price_validate (Price b q) ;; Ok (Price b q).
Definition null_asset : asset := Asset 0 SOPHIATX_SYMBOL_U64.
Definition null_price : price := Price null_asset null_asset.

Definition same_bq (a b : price) : bool :=
  (symbol (base a) =? symbol (base b)) && (symbol (quote a) =? symbol (quote b)).

(** [DEFINE_PRICE_COMPARISON_OPERATOR]: the inverted price is built first,
    whatever the symbols are; the recursive call [a_ op b] builds the inverse
    of [a_] in turn. *)
Definition price_cmp (cmp : Z -> Z -> bool) (a b : price) : res bool :=
  let mult x y := u128 (u128 (amount (quote y)) * u128 (amount (base x))) in
  a_ ← mk_price (quote a) (base a);
  if negb (same_bq a b) then
    if negb (same_bq a_ b) then Ok false
    else
      _ ← mk_price (quote a_) (base a_);
      Ok (cmp (mult a_ b) (mult b a_))
  else Ok (cmp (mult a b) (mult b a)).

Definition price_eqb := price_cmp Z.eqb.
Definition price_ltb := price_cmp Z.ltb.
Definition price_is_null (p : price) : res bool := price_eqb p null_price.

(** [asset * price]: conversion at a rate, through 128-bit arithmetic. *)
Definition asset_mul_price (a : asset) (b : price) : res asset :=
  let convert num den sym :=
    fc_assert (den >? 0) ;;
    let result := u128 (u128 (amount a) * u128 num) / u128 den in
    fc_assert (result <? 2^64) ;;
    Ok (Asset (i64 result) sym) in
  if symbol a =? symbol (base b) then
    convert (amount (quote b)) (amount (base b)) (symbol (quote b))
  else if symbol a =? symbol (quote b) then
    convert (amount (base b)) (amount (quote b)) (symbol (base b))
  else Throw assert_exception.

Definition price_max (b q : Z) : res price := mk_price (Asset SOPHIATX_MAX_SATOSHIS b) (Asset 1 q).
Definition price_min (b q : Z) : res price := mk_price (Asset 1 b) (Asset SOPHIATX_MAX_SATOSHIS q).

(** chain/util/asset.hpp; [sphtx] is the configured main symbol. *)
Definition is_sbd (s : Z) : bool :=
  (s =? SBD1_SYMBOL) || (s =? SBD2_SYMBOL) || (s =? SBD3_SYMBOL) || (s =? SBD4_SYMBOL)
  || (s =? SBD5_SYMBOL).
Definition to_sbd (sphtx : Z) (p : price) (sophiatx : asset) : res asset :=
  fc_assert (symbol sophiatx =? sphtx) ;;
  fc_assert ((symbol (quote p) =? sphtx) || (symbol (base p) =? sphtx)) ;;
  asset_mul_price sophiatx p.
Definition to_sophiatx (sphtx : Z) (p : price) (sbd : asset) : res asset :=
  fc_assert (is_sbd (symbol sbd)) ;;
  fc_assert ((symbol (quote p) =? sphtx) || (symbol (base p) =? sphtx)) ;;
  fc_assert ((symbol (quote p) =? symbol sbd) || (symbol (base p) =? symbol sbd)) ;;
  asset_mul_price sbd p.

(** ** Lemmas *)
Definition valid_char (c : Z) : Prop := 0 < c < 128.

Lemma char_to_u64_id c : valid_char c -> char_to_u64 c = c.
Proof. intros []. unfold char_to_u64. destruct (c >=? 128) eqn:E; bool_simpl; lia. Qed.

Lemma pack_symbol_val cs : Forall valid_char cs -> (length cs <= 7)%nat ->
  0 <= pack_symbol cs < 2 ^ (8 * Z.of_nat (length cs)) /\
  forall c, valid_char c -> pack_symbol (c :: cs) = pack_symbol cs * 256 + c.
Proof.
  induction cs as [|c cs IH]; intros Hcs Hl.
  { split; [simpl; lia|]. intros c Hc. simpl. rewrite char_to_u64_id by done. unfold u64. by rewrite Z.mod_0_l. }
  inversion_clear Hcs as [|? ? Hc Hcs']. simpl in Hl.
  destruct (IH Hcs' ltac:(lia)) as [Hb Hstep].
  assert (Hbnd : 0 <= pack_symbol (c :: cs) < 2 ^ (8 * Z.of_nat (length (c :: cs)))).
  { rewrite (Hstep c Hc). rewrite length_cons, Nat2Z.inj_succ.
    replace (8 * Z.succ _) with (8 * Z.of_nat (length cs) + 8) by lia.
    rewrite Z.pow_add_r by lia. destruct Hc. nia. }
  split; [done|]. intros c' Hc'. set (v := pack_symbol (c :: cs)) in *.
  change (pack_symbol (c' :: c :: cs)) with (Z.lor (u64 (Z.shiftl v 8)) (char_to_u64 c')).
  rewrite char_to_u64_id by done.
  assert (v < 2^56).
  { eapply Z.lt_le_trans; [apply Hbnd|]. apply Z.pow_le_mono_r; [lia|]. rewrite length_cons. lia. }
  unfold u64. rewrite Z.shiftl_mul_pow2 by lia. rewrite Z.mod_small by lia.
  rewrite <- Z.shiftl_mul_pow2 by lia. destruct Hc'.
  assert (Z.land (Z.shiftl v 8) c' = 0) as Hd.
  2:{ pose proof (Z.add_lor_land (Z.shiftl v 8) c') as Hs. rewrite Hd in Hs.
      rewrite Z.shiftl_mul_pow2 in * by lia. lia. }
  apply Z.bits_inj'. intros n Hn. rewrite Z.land_spec, Z.bits_0.
  destruct (Z.lt_ge_cases n 8).
  - rewrite Z.shiftl_spec_low by lia. done.
  - rewrite (Z.bits_above_log2 c'); [apply andb_false_r|lia|].
    apply Z.log2_lt_pow2; [lia|]. apply Z.lt_le_trans with (2^8); [lia|].
    apply Z.pow_le_mono_r; lia.
Qed.

Lemma symbol_to_string_pack n cs : Forall valid_char cs -> (length cs <= n)%nat -> (n <= 8)%nat ->
  symbol_to_string_fuel n (pack_symbol cs) = cs.
Proof.
  revert n. induction cs as [|c cs IH]; intros n Hcs Hl Hn; [by destruct n|].
  inversion_clear Hcs as [|? ? Hc Hcs']. destruct n as [|n]; simpl in Hl; [lia|].
  destruct (pack_symbol_val cs Hcs' ltac:(lia)) as [Hb Hstep].
  cbn [symbol_to_string_fuel]. rewrite (Hstep c Hc). destruct Hc.
  rewrite (proj2 (Z.eqb_neq _ 0)) by lia.
  change 255 with (Z.ones 8). rewrite Z.land_ones, Z.shiftr_div_pow2 by lia. f_equal.
  - change (2^8) with 256. rewrite Z.add_comm, Z.mod_add by lia. apply Z.mod_small. lia.
  - change (2^8) with 256. rewrite Z.div_add_l by lia. rewrite Z.div_small by lia.
    rewrite Z.add_0_r. apply IH; [done|lia|lia].
Qed.
