(* ===== verification/Uint128.v ===== *)
(** * Uint128: [fc::uint128], the 128-bit unsigned integer of the chain.

    Prices, interests and curation convert through this class.  It is written
    with two 64-bit limbs and native 64-bit arithmetic, and the model follows
    the limbs: carries, 32-bit partial products, masks and shifts.  The lemmas
    show that each operation computes modulo [2^128] on the value of the limbs,
    which is how the other files write it ([u128] of [Prelude]).  The only
    foreign code is the division of [boost::multiprecision] used by
    [operator /=], a parameter of the section [boost]. *)
From stdpp Require Import strings.
From S2P Require Import Prelude Names Asset.
Local Open Scope Z_scope.
Local Open Scope list_scope.

Record uint128 := Uint128 { hi : Z; lo : Z }.

#[export] Instance uint128_eq_dec : EqDecision uint128.
Proof. solve_decision. Defined.

(** The number the limbs stand for, and the limbs of a number. *)
Definition val (u : uint128) : Z := hi u * 2^64 + lo u.
Definition of_Z (x : Z) : uint128 := Uint128 (u64 (x / 2^64)) (u64 x).
Definition wf (u : uint128) : Prop := 0 <= hi u < 2^64 /\ 0 <= lo u < 2^64.

(** ** Construction and conversion *)
Definition UINT64_MAX : Z := 2^64 - 1.
Definition from_uint32 (l : Z) : uint128 := Uint128 0 l.
Definition from_int32 (l : Z) : uint128 := Uint128 (u64 (- Z.b2z (l <? 0))) (u64 l).
Definition from_int64 (l : Z) : uint128 := Uint128 (u64 (- Z.b2z (l <? 0))) (u64 l).
Definition from_uint64 (l : Z) : uint128 := Uint128 0 l.
Definition max_value : uint128 := Uint128 UINT64_MAX UINT64_MAX.

Definition low_32_bits (u : uint128) : Z := u32 (lo u).
Definition low_bits (u : uint128) : Z := lo u.
Definition high_bits (u : uint128) : Z := hi u.

Definition to_integer (u : uint128) : res Z :=
  fc_assert (hi u =? 0) ;;
  let lo32 := u32 (lo u) in
  fc_assert (lo u =? lo32) ;;
  Ok lo32.
Definition to_uint64 (u : uint128) : res Z := fc_assert (hi u =? 0) ;; Ok (lo u).

(** ** Comparison *)
Definition eqb (a b : uint128) : bool := (hi a =? hi b) && (lo a =? lo b).
Definition neqb (a b : uint128) : bool := negb (hi a =? hi b) || negb (lo a =? lo b).
Definition ltb (a b : uint128) : bool := if hi a =? hi b then lo a <? lo b else hi a <? hi b.
Definition gtb (l r : uint128) : bool := ltb r l.
Definition geb (l r : uint128) : bool := eqb l r || gtb l r.
Definition leb (l r : uint128) : bool := eqb l r || ltb l r.
Definition is_zero (u : uint128) : bool := negb (negb (hi u =? 0) || negb (lo u =? 0)).

(** ** Addition and bit operations *)
Definition incr (u : uint128) : uint128 :=
  let lo' := u64 (lo u + 1) in Uint128 (u64 (hi u + Z.b2z (lo' =? 0))) lo'.
Definition decr (u : uint128) : uint128 :=
  Uint128 (u64 (hi u - Z.b2z (lo u =? 0))) (u64 (lo u - 1)).
Definition compl (u : uint128) : uint128 := Uint128 (u64 (Z.lnot (hi u))) (u64 (Z.lnot (lo u))).
Definition opp (u : uint128) : uint128 := incr (compl u).
Definition add (a u : uint128) : uint128 :=
  let old := lo a in
  let lo' := u64 (lo a + lo u) in
  Uint128 (u64 (hi a + u64 (hi u + Z.b2z (lo' <? old)))) lo'.
Definition sub (a u : uint128) : uint128 := add a (opp u).
Definition bor (a u : uint128) : uint128 := Uint128 (Z.lor (hi a) (hi u)) (Z.lor (lo a) (lo u)).
Definition band (a u : uint128) : uint128 := Uint128 (Z.land (hi a) (hi u)) (Z.land (lo a) (lo u)).
Definition bxor (a u : uint128) : uint128 := Uint128 (Z.lxor (hi a) (hi u)) (Z.lxor (lo a) (lo u)).

(** ** Shifts *)
Definition shl_half (n : Z) (u : uint128) : uint128 :=
  if n =? 0 then u else
  let mask := u64 (Z.lnot (Z.shiftr UINT64_MAX n)) in
  Uint128 (Z.lor (u64 (Z.shiftl (hi u) n)) (Z.shiftr (Z.land (lo u) mask) (64 - n)))
          (u64 (Z.shiftl (lo u) n)).
Definition shl (u rhs : uint128) : res uint128 :=
  if geb rhs (from_int64 128) then Ok (Uint128 0 0)
  else
    n ← to_integer rhs;
    Ok (if n >=? 64 then shl_half (n - 64) (Uint128 (lo u) 0) else shl_half n u).

Definition shr_half (n : Z) (u : uint128) : uint128 :=
  if n =? 0 then u else
  let mask := u64 (Z.lnot (u64 (Z.shiftl UINT64_MAX n))) in
  Uint128 (Z.shiftr (hi u) n)
          (Z.lor (Z.shiftr (lo u) n) (u64 (Z.shiftl (Z.land (hi u) mask) (64 - n)))).
Definition shr (u rhs : uint128) : res uint128 :=
  if geb rhs (from_int64 128) then Ok (Uint128 0 0)
  else
    n ← to_integer rhs;
    Ok (if n >=? 64 then shr_half (n - 64) (Uint128 0 (hi u)) else shr_half n u).

(** ** Products *)
Definition mul64 (a b : Z) : uint128 := from_uint64 (u64 (a * b)).
Definition mul (a b : uint128) : res uint128 :=
  let a0 := u32 (lo a) in let a1 := u32 (Z.shiftr (lo a) 32) in
  let a2 := u32 (hi a) in let a3 := u32 (Z.shiftr (hi a) 32) in
  let b0 := u32 (lo b) in let b1 := u32 (Z.shiftr (lo b) 32) in
  let b2 := u32 (hi b) in let b3 := u32 (Z.shiftr (hi b) 32) in
  t ← shl (add (add (add (mul64 a3 b0) (mul64 a2 b1)) (mul64 a1 b2)) (mul64 a0 b3)) (from_int32 32);
  t ← shl (add (add (add t (mul64 a2 b0)) (mul64 a1 b1)) (mul64 a0 b2)) (from_int32 32);
  t ← shl (add (add t (mul64 a1 b0)) (mul64 a0 b1)) (from_int32 32);
  Ok (add t (mul64 a0 b0)).

(** [full_product]: the high and the low half of the 256-bit product. *)
Definition full_product (a b : uint128) : res (uint128 * uint128) :=
  s ← mul (from_uint64 (lo a)) (from_uint64 (lo b));
  r ← mul (from_uint64 (hi a)) (from_uint64 (lo b));
  q ← mul (from_uint64 (lo a)) (from_uint64 (hi b));
  p ← mul (from_uint64 (hi a)) (from_uint64 (hi b));
  let acc := from_uint64 (hi s) in
  let acc := add acc (from_uint64 (lo q)) in
  let acc := add acc (from_uint64 (lo r)) in
  let y1 := lo acc in
  let acc := from_uint64 (hi acc) in
  let acc := add acc (from_uint64 (hi q)) in
  let acc := add acc (from_uint64 (hi r)) in
  let acc := add acc (from_uint64 (lo p)) in
  Ok (Uint128 (u64 (hi acc + hi p)) (lo acc), Uint128 y1 (lo s)).

(** ** Division *)

(** [while( (n >= d) && (((d >> (bits - 1)) & 1) == 0) ) { x <<= 1; d <<= 1; }];
    an exhausted fuel is excluded by [divide_correct]. *)
Fixpoint divide_scale (fuel : nat) (n d x : uint128) : res (uint128 * uint128) :=
  match fuel with
  | O => Throw crash
  | S fuel =>
      top ← shr d (from_int32 127);
      if geb n d && eqb (band top (from_int32 1)) (from_int32 0) then
        x' ← shl x (from_int32 1);
        d' ← shl d (from_int32 1);
        divide_scale fuel n d' x'
      else Ok (d, x)
  end.

(** [while( x != 0 )]: subtract and shift back. *)
Fixpoint divide_subtract (fuel : nat) (n d x answer : uint128) : res (uint128 * uint128) :=
  match fuel with
  | O => Throw crash
  | S fuel =>
      if neqb x (from_int32 0) then
        let '(n, answer) := if geb n d then (sub n d, bor answer x) else (n, answer) in
        x' ← shr x (from_int32 1);
        d' ← shr d (from_int32 1);
        divide_subtract fuel n d' x' answer
      else Ok (answer, n)
  end.

(** The quotient and the remainder; [std::domain_error] is a [logic_error]. *)
Definition divide (numerator denominator : uint128) : res (uint128 * uint128) :=
  if eqb denominator (from_int32 0) then Throw logic_error
  else
    '(d, x) ← divide_scale 129 numerator denominator (from_int32 1);
    divide_subtract 129 numerator d x (from_int32 0).

Definition rem (a b : uint128) : res uint128 := '(_, r) ← divide a b; Ok r.

Section boost.
  (** [m128 /= m128]; the class throws on a zero divisor. *)
  Variable m128_div : Z -> Z -> res Z.

Definition div (a b : uint128) : res uint128 :=
    q ← m128_div (val a) (val b);
    Ok (Uint128 (u64 (Z.shiftr q 64)) (u64 (Z.shiftr (u128 (Z.shiftl q 64)) 64))).
End boost.

(** ** Text *)

(** The value of a digit in [radix], or [None] where the loop breaks. *)
Definition digit_value (radix ch : Z) : option Z :=
  if (65 <=? ch) && (ch <=? 90) then
    if ch - 65 + 10 <? radix then Some (ch - 65 + 10) else None
  else if (97 <=? ch) && (ch <=? 122) then
    if ch - 97 + 10 <? radix then Some (ch - 97 + 10) else None
  else if (48 <=? ch) && (ch <=? 57) then
    if ch - 48 <? radix then Some (ch - 48) else None
  else None.

Fixpoint read_digits (radix : Z) (s : list Z) (u : uint128) : res uint128 :=
  match s with
  | [] => Ok u
  | ch :: s =>
      match digit_value radix ch with
      | None => Ok u
      | Some n =>
          t ← mul u (from_int32 radix);
          read_digits radix s (add t (from_uint32 n))
      end
  end.

Definition read_radix (s : list Z) : res uint128 :=
  match s with
  | 48 :: 120 :: s => read_digits 16 s (Uint128 0 0)
  | 48 :: s => read_digits 8 s (Uint128 0 0)
  | _ => read_digits 10 s (Uint128 0 0)
  end.

Definition of_string (sz : list Z) : res uint128 :=
  match sz with
  | 45 :: s => u ← read_radix s; Ok (opp u)
  | _ => read_radix sz
  end.

Definition digit_char (n : Z) : res Z :=
  match bytes_of_string "0123456789abcdefghijklmnopqrstuvwxyz"%string !! Z.to_nat n with
  | Some c => Ok c
  | None => Throw crash
  end.

(** [while( ii != 0 && i )]: digits are written from the end of the buffer. *)
Fixpoint write_digits (i : nat) (ii : uint128) (sz : list Z) : res (list Z) :=
  match i with
  | O => Ok sz
  | S i =>
      if neqb ii (from_int32 0) then
        '(quotient, remainder) ← divide ii (from_int32 10);
        r ← to_integer remainder;
        c ← digit_char r;
        write_digits i quotient (c :: sz)
      else Ok sz
  end.
Definition to_string (u : uint128) : res (list Z) :=
  if eqb u (from_int32 0) then Ok (bytes_of_string "0"%string)
  else write_digits 127 u [].

(** ** Population count *)
Definition popcount_masks : list Z :=
  [0x5555555555555555; 0x3333333333333333; 0x0F0F0F0F0F0F0F0F;
   0x00FF00FF00FF00FF; 0x0000FFFF0000FFFF; 0x00000000FFFFFFFF].
Fixpoint popcount_loop (w : Z) (m : list Z) (x : Z) : Z :=
  match m with
  | [] => x
  | mi :: m => popcount_loop (w + w) m (u64 (Z.land x mi + Z.land (Z.shiftr x w) mi))
  end.
Definition _popcount_64 (x : Z) : Z := u8 (popcount_loop 1 popcount_masks x).
Definition popcount (u : uint128) : Z := u8 (_popcount_64 (lo u) + _popcount_64 (hi u)).

(** ** The limbs and their value *)
Lemma wf_of_Z x : wf (of_Z x).
Proof. split; apply u64_range. Qed.

Lemma val_of_Z x : val (of_Z x) = u128 x.
Proof.
  unfold val, of_Z, u64, u128. cbn [hi lo].
  change (2^128) with (2^64 * 2^64). rewrite Z.rem_mul_r by lia. lia.
Qed.

Lemma of_Z_intro u x : wf u -> val u = u128 x -> u = of_Z x.
Proof.
  destruct u as [h l]. intros [Hh Hl] Hv. unfold val in Hv. cbn [hi lo] in *. unfold of_Z, u64.
  assert (Hx : x = x / 2^128 * 2^128 + (h * 2^64 + l)).
  { rewrite Hv. unfold u128. pose proof (Z.div_mod x (2^128)). lia. }
  assert (E1 : x / 2^64 = x / 2^128 * 2^64 + h).
  { symmetry. apply Z.div_unique with l; lia. }
  f_equal.
  - rewrite E1. symmetry. rewrite Z.add_comm, Z.mod_add by lia. by apply Z.mod_small.
  - apply Z.mod_unique with (x / 2^64); lia.
Qed.

Lemma of_Z_val u : wf u -> of_Z (val u) = u.
Proof.
  intros Hw. symmetry. apply of_Z_intro; [done|]. symmetry. apply Z.mod_small.
  destruct Hw. unfold val. lia.
Qed.

Lemma val_range u : wf u -> 0 <= val u < 2^128.
Proof. intros []. unfold val. lia. Qed.

Lemma val_of_Z_small x : 0 <= x < 2^128 -> val (of_Z x) = x.
Proof. intros. rewrite val_of_Z. by apply Z.mod_small. Qed.

Lemma of_Z_u128 x : of_Z (u128 x) = of_Z x.
Proof.
  symmetry. apply of_Z_intro; [apply wf_of_Z|]. rewrite val_of_Z. unfold u128.
  by rewrite Z.mod_mod by lia.
Qed.

Lemma from_uint64_spec l : 0 <= l < 2^64 -> from_uint64 l = of_Z l.
Proof.
  intros Hl. apply of_Z_intro; [split; cbn; lia|]. unfold val. cbn.
  symmetry. apply Z.mod_small. lia.
Qed.
Lemma from_uint32_spec l : 0 <= l < 2^64 -> from_uint32 l = of_Z l.
Proof. apply from_uint64_spec. Qed.
Lemma from_int64_spec l : - 2^63 <= l < 2^63 -> from_int64 l = of_Z l.
Proof.
  intros Hl. unfold from_int64, of_Z. f_equal. f_equal.
  destruct (Z.ltb_spec l 0); cbn [Z.b2z].
  - apply Z.div_unique with (l + 2^64); lia.
  - apply Z.div_unique with l; lia.
Qed.
Lemma from_int32_spec l : - 2^31 <= l < 2^31 -> from_int32 l = of_Z l.
Proof. intros. apply from_int64_spec. lia. Qed.

(** ** Comparison *)
Lemma eqb_spec a b : wf a -> wf b -> eqb a b = (val a =? val b).
Proof.
  intros [] []. unfold eqb, val. apply eq_true_iff_eq.
  rewrite andb_true_iff, !Z.eqb_eq. split; lia.
Qed.
Lemma neqb_spec a b : wf a -> wf b -> neqb a b = negb (val a =? val b).
Proof. intros. rewrite <- eqb_spec by done. unfold neqb, eqb. by rewrite negb_andb. Qed.
Lemma ltb_spec a b : wf a -> wf b -> ltb a b = (val a <? val b).
Proof.
  intros [] []. unfold ltb, val. destruct (Z.eqb_spec (hi a) (hi b));
    apply eq_true_iff_eq; rewrite !Z.ltb_lt; lia.
Qed.
Lemma geb_spec a b : wf a -> wf b -> geb a b = (val b <=? val a).
Proof.
  intros. unfold geb, gtb. rewrite eqb_spec, ltb_spec by done. apply eq_true_iff_eq.
  rewrite orb_true_iff, Z.eqb_eq, Z.ltb_lt, Z.leb_le. lia.
Qed.
Lemma leb_spec a b : wf a -> wf b -> leb a b = (val a <=? val b).
Proof.
  intros. unfold leb. rewrite eqb_spec, ltb_spec by done. apply eq_true_iff_eq.
  rewrite orb_true_iff, Z.eqb_eq, Z.ltb_lt, Z.leb_le. lia.
Qed.
Lemma is_zero_spec u : wf u -> is_zero u = (val u =? 0).
Proof.
  intros []. unfold is_zero, val. rewrite negb_orb, !negb_involutive. apply eq_true_iff_eq.
  rewrite andb_true_iff, !Z.eqb_eq. lia.
Qed.

Lemma to_integer_spec u : wf u ->
  to_integer u = if val u <? 2^32 then Ok (val u) else Throw assert_exception.
Proof.
  intros [Hh Hl]. unfold to_integer, fc_assert, sophiatx_assert, val.
  destruct (Z.eqb_spec (hi u) 0) as [->|]; cbn -[Z.pow].
  - rewrite Z.add_0_l. destruct (Z.ltb_spec (lo u) (2^32)).
    + unfold u32. rewrite Z.mod_small by lia. by rewrite Z.eqb_refl.
    + destruct (Z.eqb_spec (lo u) (u32 (lo u))) as [E|]; [|done].
      pose proof (u32_range (lo u)). lia.
  - destruct (Z.ltb_spec (hi u * 2^64 + lo u) (2^32)); [lia|done].
Qed.

(** ** Addition and negation *)
Lemma u64_eq x k y : x = k * 2^64 + y -> 0 <= y < 2^64 -> u64 x = y.
Proof. intros -> Hy. unfold u64. rewrite Z.add_comm, Z.mod_add by lia. by apply Z.mod_small. Qed.

Lemma u64_cases x : -2^64 <= x < 2 * 2^64 ->
  u64 x = x /\ 0 <= x < 2^64 \/ u64 x = x - 2^64 /\ 2^64 <= x \/ u64 x = x + 2^64 /\ x < 0.
Proof.
  intros. destruct (Z.lt_ge_cases x 0); [right; right|destruct (Z.lt_ge_cases x (2^64)); [left|right; left]].
  - split; [apply u64_eq with (-1); lia|done].
  - split; [apply u64_eq with 0; lia|done].
  - split; [apply u64_eq with 1; lia|done].
Qed.

Lemma u128_eq x k y : x = k * 2^128 + y -> 0 <= y < 2^128 -> y = u128 x.
Proof. intros -> Hy. unfold u128. rewrite Z.add_comm, Z.mod_add by lia. by rewrite Z.mod_small. Qed.

Lemma incr_spec u : wf u -> incr u = of_Z (val u + 1).
Proof.
  destruct u as [h l]. intros [Hh Hl]. cbn [hi lo] in *. apply of_Z_intro.
  { split; apply u64_range. }
  unfold incr, val. cbn [hi lo].
  destruct (u64_cases (l + 1)) as [[-> ?]|[[-> ?]|[-> ?]]]; [lia| | |lia].
  - destruct (Z.eqb_spec (l + 1) 0); cbn [Z.b2z]; [lia|].
    rewrite Z.add_0_r. unfold u64. rewrite (Z.mod_small h) by lia. apply u128_eq with 0; lia.
  - destruct (Z.eqb_spec (l + 1 - 2^64) 0); cbn [Z.b2z]; [|lia].
    destruct (u64_cases (h + 1)) as [[-> ?]|[[-> ?]|[-> ?]]]; [lia| | |lia].
    + apply u128_eq with 0; lia.
    + apply u128_eq with 1; lia.
Qed.

Lemma decr_spec u : wf u -> decr u = of_Z (val u - 1).
Proof.
  destruct u as [h l]. intros [Hh Hl]. cbn [hi lo] in *. apply of_Z_intro.
  { split; apply u64_range. }
  unfold decr, val. cbn [hi lo].
  destruct (Z.eqb_spec l 0); cbn [Z.b2z];
  destruct (u64_cases (l - 1)) as [[-> ?]|[[-> ?]|[-> ?]]]; try lia.
  - destruct (u64_cases (h - 1)) as [[-> ?]|[[-> ?]|[-> ?]]]; try lia.
    + apply u128_eq with 0; lia.
    + apply u128_eq with (-1); lia.
  - rewrite Z.sub_0_r. unfold u64. rewrite (Z.mod_small h) by lia. apply u128_eq with 0; lia.
Qed.

Lemma lnot_u64 x : 0 <= x < 2^64 -> u64 (Z.lnot x) = 2^64 - 1 - x.
Proof. intros. apply u64_eq with (-1); [unfold Z.lnot; lia|lia]. Qed.

Lemma compl_spec u : wf u -> compl u = of_Z (- val u - 1).
Proof.
  destruct u as [h l]. intros [Hh Hl]. cbn [hi lo] in *. apply of_Z_intro.
  { split; apply u64_range. }
  unfold compl, val. cbn [hi lo]. rewrite !lnot_u64 by lia. apply u128_eq with (-1); lia.
Qed.

Lemma wf_compl u : wf u -> wf (compl u).
Proof. intros. rewrite compl_spec by done. apply wf_of_Z. Qed.

Lemma val_mod u x : u = of_Z x -> val u = u128 x.
Proof. intros ->. apply val_of_Z. Qed.

(** Arguments may be reduced before a sum or a product. *)
Lemma of_Z_add_l x y : of_Z (u128 x + y) = of_Z (x + y).
Proof. rewrite <- of_Z_u128. unfold u128. rewrite Z.add_mod_idemp_l by lia. apply of_Z_u128. Qed.
Lemma of_Z_add_r x y : of_Z (x + u128 y) = of_Z (x + y).
Proof. rewrite Z.add_comm, of_Z_add_l. f_equal. lia. Qed.
Lemma of_Z_mul_l x y : of_Z (u128 x * y) = of_Z (x * y).
Proof. rewrite <- of_Z_u128. unfold u128. rewrite Z.mul_mod_idemp_l by lia. apply of_Z_u128. Qed.
Lemma of_Z_mul_r x y : of_Z (x * u128 y) = of_Z (x * y).
Proof. rewrite Z.mul_comm, of_Z_mul_l. f_equal. lia. Qed.

Lemma opp_spec u : wf u -> opp u = of_Z (- val u).
Proof.
  intros. unfold opp. rewrite incr_spec by by apply wf_compl.
  rewrite (val_mod _ _ (compl_spec u H)), of_Z_add_l. f_equal. lia.
Qed.

Lemma add_spec a b : wf a -> wf b -> add a b = of_Z (val a + val b).
Proof.
  destruct a as [h l], b as [h' l']. intros [Hh Hl] [Hh' Hl']. cbn [hi lo] in *. apply of_Z_intro.
  { split; apply u64_range. }
  assert (Hs : u64 (h + u64 (h' + Z.b2z (u64 (l + l') <? l)))
              = u64 (h + h' + Z.b2z (u64 (l + l') <? l))).
  { unfold u64 at 1 2. rewrite Z.add_mod_idemp_r by lia. unfold u64. f_equal. lia. }
  unfold add, val. cbn [hi lo]. rewrite Hs. clear Hs.
  destruct (u64_cases (l + l')) as [[-> ?]|[[-> ?]|[-> ?]]]; [lia| | |lia].
  - destruct (Z.ltb_spec (l + l') l) as [|_]; cbn [Z.b2z]; [lia|].
    destruct (u64_cases (h + h' + 0)) as [[-> ?]|[[-> ?]|[-> ?]]]; [lia| | |lia].
    + apply u128_eq with 0; lia.
    + apply u128_eq with 1; lia.
  - destruct (Z.ltb_spec (l + l' - 2^64) l) as [_|]; cbn [Z.b2z]; [|lia].
    destruct (u64_cases (h + h' + 1)) as [[-> ?]|[[-> ?]|[-> ?]]]; [lia| | |lia].
    + apply u128_eq with 0; lia.
    + apply u128_eq with 1; lia.
Qed.

Lemma sub_spec a b : wf a -> wf b -> sub a b = of_Z (val a - val b).
Proof.
  intros Ha Hb. unfold sub. rewrite opp_spec by done.
  rewrite add_spec by (done || apply wf_of_Z). by rewrite val_of_Z, of_Z_add_r.
Qed.

(** ** Shifts *)
Lemma pow_split n : 0 <= n <= 64 -> 2^64 = 2^n * 2^(64 - n).
Proof. intros. rewrite <- Z.pow_add_r by lia. f_equal. lia. Qed.

Lemma ones_64 : UINT64_MAX = Z.ones 64.
Proof. reflexivity. Qed.

(** Multiplication by [2^n] drops the high bits of a limb. *)
Lemma shiftl_u64 x n : 0 <= n <= 64 -> 0 <= x < 2^64 ->
  u64 (Z.shiftl x n) = (x mod 2^(64 - n)) * 2^n.
Proof.
  intros Hn Hx. unfold u64. rewrite Z.shiftl_mul_pow2 by lia. rewrite (pow_split n Hn).
  rewrite (Z.mul_comm (2^n)), Z.mul_mod_distr_r; lia.
Qed.

Lemma shl_mask x n : 0 <= n <= 64 -> 0 <= x < 2^64 ->
  Z.shiftr (Z.land x (u64 (Z.lnot (Z.shiftr UINT64_MAX n)))) (64 - n) = x / 2^(64 - n).
Proof.
  intros Hn Hx. rewrite <- Z.shiftr_div_pow2 by lia. apply Z.bits_inj'. intros i Hi.
  rewrite !Z.shiftr_spec, Z.land_spec by lia. unfold u64.
  destruct (Z.testbit x (i + (64 - n))) eqn:Hb; [|done]. cbn [andb].
  assert (Hlt : i + (64 - n) < 64).
  { destruct (Z.lt_ge_cases (i + (64 - n)) 64); [done|].
    rewrite <- (Z.mod_small x (2^64)), Z.mod_pow2_bits_high in Hb by lia. done. }
  rewrite Z.mod_pow2_bits_low, Z.lnot_spec, ones_64, Z.shiftr_spec by lia.
  by rewrite Z.ones_spec_high by lia.
Qed.

Lemma shl_half_spec n u : 0 <= n < 64 -> wf u -> shl_half n u = of_Z (val u * 2^n).
Proof.
  destruct u as [h l]. intros Hn [Hh Hl]. cbn [hi lo] in *. unfold shl_half. cbn [hi lo].
  destruct (Z.eqb_spec n 0) as [->|].
  { rewrite Z.pow_0_r, Z.mul_1_r. symmetry. by apply of_Z_val. }
  rewrite !shiftl_u64, shl_mask by lia.
  pose proof (pow_split n ltac:(lia)) as Hp.
  set (p := 2^n) in *. set (q := 2^(64 - n)) in *.
  assert (0 < p) by (subst p; lia). assert (0 < q) by (subst q; lia).
  pose proof (Z.div_mod h q ltac:(lia)). pose proof (Z.mod_pos_bound h q ltac:(lia)).
  pose proof (Z.div_mod l q ltac:(lia)). pose proof (Z.mod_pos_bound l q ltac:(lia)).
  assert (0 <= l / q < p) by (split; [apply Z.div_pos; lia|apply Z.div_lt_upper_bound; lia]).
  unfold p. rewrite lor_disjoint by (try lia; done). fold p.
  apply of_Z_intro.
  - split; cbn [hi lo]; rewrite Hp; nia.
  - unfold val. cbn [hi lo]. apply u128_eq with (h / q).
    + change (2^128) with (2^64 * 2^64). rewrite Hp. nia.
    + change (2^128) with (2^64 * 2^64). rewrite Hp. nia.
Qed.

Lemma geb_128 rhs : wf rhs -> geb rhs (from_int64 128) = (128 <=? val rhs).
Proof.
  intros. rewrite from_int64_spec by lia. rewrite geb_spec by (done || apply wf_of_Z).
  by rewrite val_of_Z_small by lia.
Qed.

Lemma of_Z_mul_128 x k : of_Z (x * 2^128 * k) = Uint128 0 0.
Proof.
  rewrite <- of_Z_u128. unfold u128. replace (x * 2^128 * k) with (x * k * 2^128) by lia.
  by rewrite Z.mod_mul.
Qed.

Lemma shl_spec u rhs : wf u -> wf rhs -> shl u rhs = Ok (of_Z (val u * 2^(val rhs))).
Proof.
  intros Hu Hr. unfold shl. rewrite geb_128 by done. pose proof (val_range _ Hr).
  destruct (Z.leb_spec 128 (val rhs)) as [Hge|Hlt].
  { f_equal. replace (val rhs) with (128 + (val rhs - 128)) by lia.
    rewrite Z.pow_add_r, Z.mul_assoc by lia. by rewrite of_Z_mul_128. }
  rewrite to_integer_spec by done. destruct (Z.ltb_spec (val rhs) (2^32)); [|lia].
  cbn [mbind res_bind]. f_equal. rewrite Z.geb_leb. destruct (Z.leb_spec 64 (val rhs)).
  - destruct Hu as [Hh Hl].
    rewrite shl_half_spec; [|lia|split; cbn; lia]. unfold val at 1. cbn [hi lo].
    replace (2^val rhs) with (2^64 * 2^(val rhs - 64)) by (rewrite <- Z.pow_add_r by lia; f_equal; lia).
    symmetry. unfold val at 1. rewrite Z.mul_add_distr_r.
    replace (hi u * 2 ^ 64 * (2 ^ 64 * 2 ^ (val rhs - 64))) with (hi u * 2^(val rhs - 64) * 2^128) by lia.
    rewrite <- of_Z_u128. unfold u128. rewrite Z.add_comm, Z.mod_add by lia.
    change (of_Z (u128 (lo u * (2 ^ 64 * 2 ^ (val rhs - 64))))
      = of_Z ((lo u * 2 ^ 64 + 0) * 2 ^ (val rhs - 64))).
    rewrite of_Z_u128. f_equal. lia.
  - by apply shl_half_spec; [lia|].
Qed.

Lemma shr_mask n : 0 <= n < 64 -> u64 (Z.lnot (u64 (Z.shiftl UINT64_MAX n))) = Z.ones n.
Proof.
  intros Hn. rewrite shiftl_u64 by (unfold UINT64_MAX; lia). rewrite ones_64.
  assert (Hm : Z.ones 64 mod 2^(64 - n) = 2^(64 - n) - 1).
  { rewrite Z.ones_equiv. symmetry. apply Z.mod_unique with (2^n - 1).
    - pose proof (Z.pow_pos_nonneg 2 (64 - n)). lia.
    - rewrite (pow_split n) by lia. lia. }
  pose proof (pow_split n ltac:(lia)). pose proof (Z.pow_pos_nonneg 2 n).
  assert (E : (2^(64 - n) - 1) * 2^n = 2^64 - 2^n) by lia.
  assert (2^n <= 2^64) by (apply Z.pow_le_mono_r; lia).
  rewrite Hm, E, lnot_u64, Z.ones_equiv by lia. lia.
Qed.

Lemma shr_half_spec n u : 0 <= n < 64 -> wf u -> shr_half n u = of_Z (val u / 2^n).
Proof.
  destruct u as [h l]. intros Hn [Hh Hl]. cbn [hi lo] in *. unfold shr_half. cbn [hi lo].
  destruct (Z.eqb_spec n 0) as [->|].
  { rewrite Z.pow_0_r, Z.div_1_r. symmetry. by apply of_Z_val. }
  rewrite shr_mask, Z.land_ones, !Z.shiftr_div_pow2 by lia.
  pose proof (pow_split n ltac:(lia)) as Hp.
  assert (0 < 2^n) by lia. assert (0 < 2^(64 - n)) by lia. assert (2^n <= 2^64) by (apply Z.pow_le_mono_r; lia).
  pose proof (Z.div_mod h (2^n) ltac:(lia)). pose proof (Z.mod_pos_bound h (2^n) ltac:(lia)).
  rewrite shiftl_u64 by lia. replace (64 - (64 - n)) with n by lia.
  rewrite Z.mod_mod by lia.
  assert (0 <= l / 2^n < 2^(64 - n)).
  { split; [apply Z.div_pos; lia|apply Z.div_lt_upper_bound; lia]. }
  rewrite Z.lor_comm, lor_disjoint by lia.
  assert (Hdiv : (h * 2^64 + l) / 2^n = h / 2^n * 2^64 + (h mod 2^n * 2^(64 - n) + l / 2^n)).
  { replace (h * 2^64 + l) with (l + (h * 2^(64 - n)) * 2^n) by (rewrite Hp; ring).
    rewrite Z.div_add by lia. rewrite Hp. rewrite (Z.div_mod h (2^n)) at 1 by lia. ring. }
  apply of_Z_intro.
  - split; cbn [hi lo]; [|nia]. split; [apply Z.div_pos; lia|].
    apply Z.div_lt_upper_bound; nia.
  - unfold val. cbn [hi lo]. rewrite Hdiv. symmetry. apply Z.mod_small.
    assert (0 <= h / 2^n < 2^64) by (split; [apply Z.div_pos; lia|apply Z.div_lt_upper_bound; nia]).
    nia.
Qed.

Lemma shr_spec u rhs : wf u -> wf rhs -> shr u rhs = Ok (of_Z (val u / 2^(val rhs))).
Proof.
  intros Hu Hr. unfold shr. rewrite geb_128 by done. pose proof (val_range _ Hr).
  pose proof (val_range _ Hu).
  destruct (Z.leb_spec 128 (val rhs)) as [Hge|Hlt].
  { f_equal. rewrite Z.div_small; [done|]. split; [lia|].
    apply Z.lt_le_trans with (2^128); [lia|]. apply Z.pow_le_mono_r; lia. }
  rewrite to_integer_spec by done. destruct (Z.ltb_spec (val rhs) (2^32)); [|lia].
  cbn [mbind res_bind]. f_equal. rewrite Z.geb_leb. destruct (Z.leb_spec 64 (val rhs)).
  - destruct Hu as [Hh Hl].
    rewrite shr_half_spec; [|lia|split; cbn; lia]. unfold val at 1. cbn [hi lo].
    replace (2^val rhs) with (2^64 * 2^(val rhs - 64)) by (rewrite <- Z.pow_add_r by lia; f_equal; lia).
    rewrite <- Z.div_div by lia. f_equal. f_equal. unfold val.
    rewrite (Z.add_comm (hi u * 2^64)), Z.div_add, (Z.div_small (lo u)) by lia. done.
  - by apply shr_half_spec; [lia|].
Qed.

(** ** Products *)
Lemma limb_split x : 0 <= x < 2^64 ->
  exists x0 x1, u32 x = x0 /\ u32 (Z.shiftr x 32) = x1 /\ x = x1 * 2^32 + x0
    /\ 0 <= x0 < 2^32 /\ 0 <= x1 < 2^32.
Proof.
  intros Hx. exists (x mod 2^32), (x / 2^32).
  assert (0 <= x / 2^32 < 2^32) by (split; [apply Z.div_pos; lia|apply Z.div_lt_upper_bound; lia]).
  pose proof (Z.div_mod x (2^32)). pose proof (Z.mod_pos_bound x (2^32)).
  split_and!; [done| |lia..]. unfold u32. rewrite Z.shiftr_div_pow2 by lia. apply Z.mod_small. lia.
Qed.

Lemma mul64_spec a b : 0 <= a < 2^32 -> 0 <= b < 2^32 -> mul64 a b = of_Z (a * b).
Proof.
  intros. unfold mul64. assert (0 <= a * b < 2^64) by nia.
  unfold u64. rewrite Z.mod_small by done. by apply from_uint64_spec.
Qed.

Lemma add_of_Z x y : add (of_Z x) (of_Z y) = of_Z (x + y).
Proof. rewrite add_spec by apply wf_of_Z. by rewrite !val_of_Z, of_Z_add_l, of_Z_add_r. Qed.

Lemma shl_32_of_Z x : shl (of_Z x) (from_int32 32) = Ok (of_Z (x * 2^32)).
Proof.
  rewrite from_int32_spec by lia. rewrite shl_spec by apply wf_of_Z.
  rewrite (val_of_Z_small 32) by lia. by rewrite val_of_Z, of_Z_mul_l.
Qed.

Lemma mul_spec a b : wf a -> wf b -> mul a b = Ok (of_Z (val a * val b)).
Proof.
  destruct a as [ah al], b as [bh bl]. intros [Hah Hal] [Hbh Hbl]. cbn [hi lo] in *.
  unfold mul, val. cbn [hi lo].
  destruct (limb_split al Hal) as (a0 & a1 & -> & -> & -> & ? & ?).
  destruct (limb_split ah Hah) as (a2 & a3 & -> & -> & -> & ? & ?).
  destruct (limb_split bl Hbl) as (b0 & b1 & -> & -> & -> & ? & ?).
  destruct (limb_split bh Hbh) as (b2 & b3 & -> & -> & -> & ? & ?).
  rewrite !mul64_spec by done. rewrite !add_of_Z.
  rewrite shl_32_of_Z. cbn [mbind res_bind]. rewrite !add_of_Z.
  rewrite shl_32_of_Z. cbn [mbind res_bind]. rewrite !add_of_Z.
  rewrite shl_32_of_Z. cbn [mbind res_bind]. rewrite add_of_Z. f_equal.
  rewrite <- of_Z_u128. symmetry. rewrite <- of_Z_u128. f_equal. unfold u128.
  match goal with |- ?x mod _ = ?y mod _ =>
    replace x with (y + (a3 * b1 + a2 * b2 + a1 * b3 + (a3 * b2 + a2 * b3) * 2^32 + a3 * b3 * 2^64) * 2^128) by ring
  end.
  apply Z.mod_add. lia.
Qed.

Lemma low_high_bits u : wf u -> lo u = val u mod 2^64 /\ hi u = val u / 2^64.
Proof.
  destruct u as [h l]. intros [Hh Hl]. cbn [hi lo] in *. unfold val. cbn [hi lo]. split.
  - rewrite Z.add_comm, Z.mod_add by lia. symmetry. by apply Z.mod_small.
  - rewrite Z.add_comm, Z.div_add, Z.div_small by lia. done.
Qed.

Lemma mul_words x y : 0 <= x < 2^64 -> 0 <= y < 2^64 ->
  exists p, mul (from_uint64 x) (from_uint64 y) = Ok p /\ wf p /\ hi p * 2^64 + lo p = x * y
    /\ hi p <= 2^64 - 2.
Proof.
  intros. rewrite !from_uint64_spec by lia. rewrite mul_spec by apply wf_of_Z.
  rewrite !val_of_Z_small by lia. exists (of_Z (x * y)). assert (0 <= x * y <= (2^64 - 1) * (2^64 - 1)) by nia.
  pose proof (wf_of_Z (x * y)) as Hw. pose proof (val_of_Z_small (x * y) ltac:(lia)) as Hv. unfold val in Hv.
  split_and!; [done|done|done|]. destruct Hw. lia.
Qed.

Lemma full_product_spec a b : wf a -> wf b ->
  exists h l, full_product a b = Ok (h, l) /\ wf h /\ wf l
    /\ val h * 2^128 + val l = val a * val b.
Proof.
  destruct a as [ah al], b as [bh bl]. intros [Hah Hal] [Hbh Hbl]. cbn [hi lo] in *.
  unfold full_product. cbn [hi lo].
  destruct (mul_words al bl) as ([sh sl] & -> & [? ?] & Es & ?); [done..|].
  destruct (mul_words ah bl) as ([rh rl] & -> & [? ?] & Er & ?); [done..|].
  destruct (mul_words al bh) as ([qh ql] & -> & [? ?] & Eq & ?); [done..|].
  destruct (mul_words ah bh) as ([ph pl] & -> & [? ?] & Ep & ?); [done..|].
  cbn [mbind res_bind]. cbv zeta. cbn [hi lo] in *.
  rewrite (from_uint64_spec sh), (from_uint64_spec ql), (from_uint64_spec rl), !add_of_Z by lia.
  destruct (low_high_bits (of_Z (sh + ql + rl)) (wf_of_Z _)) as [-> ->].
  rewrite val_of_Z_small by lia.
  pose proof (Z.div_mod (sh + ql + rl) (2^64) ltac:(lia)) as E1.
  pose proof (Z.mod_pos_bound (sh + ql + rl) (2^64) ltac:(lia)).
  set (c1 := (sh + ql + rl) / 2^64) in *. set (y1 := (sh + ql + rl) mod 2^64) in *. clearbody c1 y1.
  rewrite (from_uint64_spec c1), (from_uint64_spec qh), (from_uint64_spec rh), (from_uint64_spec pl),
    !add_of_Z by lia.
  destruct (low_high_bits (of_Z (c1 + qh + rh + pl)) (wf_of_Z _)) as [-> ->].
  rewrite val_of_Z_small by lia.
  pose proof (Z.div_mod (c1 + qh + rh + pl) (2^64) ltac:(lia)) as E2.
  pose proof (Z.mod_pos_bound (c1 + qh + rh + pl) (2^64) ltac:(lia)).
  set (c2 := (c1 + qh + rh + pl) / 2^64) in *. set (y2 := (c1 + qh + rh + pl) mod 2^64) in *.
  clearbody c2 y2.
  assert (Htotal : (c2 + ph) * 2^192 + y2 * 2^128 + y1 * 2^64 + sl = (ah * 2^64 + al) * (bh * 2^64 + bl)).
  { nia. }
  assert (c2 + ph < 2^64) by nia.
  unfold u64. rewrite (Z.mod_small (c2 + ph)) by lia.
  eexists _, _. split; [reflexivity|]. unfold wf, val. cbn [hi lo].
  split_and!; lia.
Qed.

(** ** Bit operations *)
Lemma u64_ones x : u64 x = Z.land x (Z.ones 64).
Proof. by rewrite Z.land_ones. Qed.
Lemma high_shiftr x : x / 2^64 = Z.shiftr x 64.
Proof. by rewrite Z.shiftr_div_pow2. Qed.

Lemma bor_of_Z x y : bor (of_Z x) (of_Z y) = of_Z (Z.lor x y).
Proof.
  unfold bor, of_Z. cbn [hi lo]. rewrite !high_shiftr, !u64_ones, Z.shiftr_lor.
  by rewrite !Z.land_lor_distr_l.
Qed.
Lemma land_common a b m : Z.land (Z.land a m) (Z.land b m) = Z.land (Z.land a b) m.
Proof.
  rewrite <- (Z.land_diag m) at 3. rewrite <- !Z.land_assoc. f_equal.
  rewrite !Z.land_assoc. f_equal. apply Z.land_comm.
Qed.
Lemma band_of_Z x y : band (of_Z x) (of_Z y) = of_Z (Z.land x y).
Proof.
  unfold band, of_Z. cbn [hi lo]. rewrite !high_shiftr, !u64_ones, Z.shiftr_land. by rewrite !land_common.
Qed.
Lemma lxor_common a b m : Z.lxor (Z.land a m) (Z.land b m) = Z.land (Z.lxor a b) m.
Proof.
  apply Z.bits_inj'. intros i Hi. rewrite Z.lxor_spec, !Z.land_spec, Z.lxor_spec.
  by destruct (Z.testbit a i), (Z.testbit b i), (Z.testbit m i).
Qed.
Lemma bxor_of_Z x y : bxor (of_Z x) (of_Z y) = of_Z (Z.lxor x y).
Proof.
  unfold bxor, of_Z. cbn [hi lo]. rewrite !high_shiftr, !u64_ones, Z.shiftr_lxor. by rewrite !lxor_common.
Qed.

(** ** Division *)
Lemma shr_of_Z x k : 0 <= x < 2^128 -> 0 <= k < 2^31 ->
  shr (of_Z x) (from_int32 k) = Ok (of_Z (x / 2^k)).
Proof.
  intros. rewrite from_int32_spec by lia. rewrite shr_spec by apply wf_of_Z.
  by rewrite !val_of_Z_small by lia.
Qed.
Lemma shl_of_Z x k : 0 <= k < 2^31 -> shl (of_Z x) (from_int32 k) = Ok (of_Z (x * 2^k)).
Proof.
  intros. rewrite from_int32_spec by lia. rewrite shl_spec by apply wf_of_Z.
  rewrite (val_of_Z_small k) by lia. by rewrite val_of_Z, of_Z_mul_l.
Qed.
Lemma geb_of_Z x y : 0 <= x < 2^128 -> 0 <= y < 2^128 -> geb (of_Z x) (of_Z y) = (y <=? x).
Proof. intros. rewrite geb_spec by apply wf_of_Z. by rewrite !val_of_Z_small. Qed.
Lemma neqb_zero x : 0 <= x < 2^128 -> neqb (of_Z x) (from_int32 0) = negb (x =? 0).
Proof.
  intros. rewrite from_int32_spec, neqb_spec by (lia || apply wf_of_Z).
  by rewrite !val_of_Z_small by lia.
Qed.

(** The top bit, as the scaling loop tests it. *)
Lemma top_bit_clear d : 0 <= d < 2^128 ->
  eqb (band (of_Z (d / 2^127)) (from_int32 1)) (from_int32 0) = (d <? 2^127).
Proof.
  intros Hd. destruct (Z.ltb_spec d (2^127)).
  - by rewrite Z.div_small by lia.
  - replace (d / 2^127) with 1 by (apply Z.div_unique with (d - 2^127); lia). done.
Qed.

Lemma divide_scale_spec fuel N D k :
  0 <= N < 2^128 -> 0 < D -> 0 <= k -> D * 2^k < 2^128 -> 127 - k < Z.of_nat fuel ->
  exists j, 0 <= j <= 127 /\ D * 2^j < 2^128 /\ N < 2 * (D * 2^j) /\
    divide_scale fuel (of_Z N) (of_Z (D * 2^k)) (of_Z (2^k)) = Ok (of_Z (D * 2^j), of_Z (2^j)).
Proof.
  intros HN HD. revert k. induction fuel as [|fuel IH]; intros k Hk Hlt Hfuel.
  { exfalso. assert (2^128 <= 2^k) by (apply Z.pow_le_mono_r; lia). nia. }
  cbn [divide_scale]. assert (0 < 2^k) by lia. rewrite shr_of_Z by (lia || nia). cbn [mbind res_bind].
  rewrite geb_of_Z, top_bit_clear by (lia || nia).
  assert (k <= 127).
  { destruct (Z.le_gt_cases k 127); [done|]. assert (2^128 <= 2^k) by (apply Z.pow_le_mono_r; lia). nia. }
  destruct (Z.leb_spec (D * 2^k) N), (Z.ltb_spec (D * 2^k) (2^127)); cbn [andb];
    try (exists k; split_and!; [lia|lia|done|lia|done]).
  rewrite !shl_of_Z by lia. cbn [mbind res_bind].
  replace (D * 2^k * 2^1) with (D * 2^(k + 1)) by (rewrite Z.pow_add_r by lia; lia).
  rewrite <- Z.pow_add_r by lia. apply IH; [lia| |lia]. rewrite Z.pow_add_r by lia. lia.
Qed.

Lemma lor_next A k : 0 <= k -> Z.lor (A * 2^(k + 1)) (2^k) = (2 * A + 1) * 2^k.
Proof.
  intros. rewrite lor_disjoint; rewrite ?Z.pow_add_r by lia; lia.
Qed.

Lemma divide_subtract_end fuel n d answer :
  divide_subtract (S fuel) n d (of_Z 0) answer = Ok (answer, n).
Proof. done. Qed.

Lemma sub_of_Z x y : sub (of_Z x) (of_Z y) = of_Z (x - y).
Proof.
  rewrite sub_spec by apply wf_of_Z. rewrite !val_of_Z, <- Z.add_opp_r, of_Z_add_l.
  rewrite <- of_Z_u128. symmetry. rewrite <- of_Z_u128. f_equal. unfold u128.
  by rewrite Z.add_opp_r, Zminus_mod_idemp_r.
Qed.

(** One round of the subtraction decides one bit of the quotient. *)
Lemma subtract_bit N D A r k :
  0 < D -> 0 <= k -> D * 2^k < 2^128 -> 0 <= A -> 0 <= r < 2 * (D * 2^k) ->
  N = A * 2^(k + 1) * D + r -> N < 2^128 ->
  exists A' r', 0 <= A' /\ 0 <= r' < D * 2^k /\ N = A' * 2^k * D + r' /\
    (if geb (of_Z r) (of_Z (D * 2^k))
     then (sub (of_Z r) (of_Z (D * 2^k)), bor (of_Z (A * 2^(k + 1))) (of_Z (2^k)))
     else (of_Z r, of_Z (A * 2^(k + 1)))) = (of_Z r', of_Z (A' * 2^k)).
Proof.
  intros HD Hk Hlt HA Hr HN HN'. assert (0 < 2^k) by lia.
  rewrite Z.pow_add_r in HN by lia. assert (r < 2^128) by nia.
  rewrite geb_of_Z by nia. destruct (Z.leb_spec (D * 2^k) r).
  - exists (2 * A + 1), (r - D * 2^k). rewrite sub_of_Z, bor_of_Z, lor_next by done.
    split_and!; [lia|lia|lia| |done]. lia.
  - exists (2 * A), r. split_and!; [lia|lia|lia| |]; [lia|].
    rewrite Z.pow_add_r by lia. do 2 f_equal. lia.
Qed.

Lemma divide_subtract_spec k : forall fuel N D A r,
  0 < D -> D * 2^(Z.of_nat k) < 2^128 -> 0 <= A -> 0 <= r < 2 * (D * 2^(Z.of_nat k)) ->
  N = A * 2^(Z.of_nat k + 1) * D + r -> N < 2^128 -> (S (S k) <= fuel)%nat ->
  divide_subtract fuel (of_Z r) (of_Z (D * 2^(Z.of_nat k))) (of_Z (2^(Z.of_nat k)))
    (of_Z (A * 2^(Z.of_nat k + 1))) = Ok (of_Z (N / D), of_Z (N mod D)).
Proof.
  induction k as [|k IH]; intros fuel N D A r HD Hlt HA Hr HN HN' Hfuel;
    (destruct fuel as [|fuel]; [lia|]); cbn [divide_subtract].
  all: match goal with Hlt : _ * 2^(Z.of_nat ?e) < 2^128 |- _ =>
      assert (Hp : 0 < 2^(Z.of_nat e)) by (apply Z.pow_pos_nonneg; lia);
      destruct (subtract_bit N D A r (Z.of_nat e) HD ltac:(lia) Hlt HA Hr HN HN')
        as (A' & r' & HA' & Hr' & HN2 & ->);
      rewrite neqb_zero by nia; destruct (Z.eqb_spec (2^(Z.of_nat e)) 0); [lia|]; cbn [negb]
    end.
  all: rewrite !shr_of_Z by nia; cbn [mbind res_bind].
  - cbn [Z.of_nat] in *. rewrite Z.pow_0_r, Z.mul_1_r in *. destruct fuel as [|fuel]; [lia|].
    change (1 / 2^1) with 0. rewrite divide_subtract_end. rewrite Z.mul_1_r.
    f_equal. f_equal; f_equal; [apply Z.div_unique with r'|apply Z.mod_unique with A']; lia.
  - assert (E : 2^(Z.of_nat (S k)) = 2 * 2^(Z.of_nat k)) by (rewrite <- Z.pow_succ_r by lia; f_equal; lia).
    rewrite E in *. rewrite Z.pow_1_r.
    replace (D * (2 * 2^(Z.of_nat k)) / 2) with (D * 2^(Z.of_nat k)) by (apply Z.div_unique with 0; lia).
    replace (2 * 2^(Z.of_nat k) / 2) with (2^(Z.of_nat k)) by (apply Z.div_unique with 0; lia).
    replace (A' * (2 * 2^(Z.of_nat k))) with (A' * 2^(Z.of_nat k + 1)) in * by (rewrite Z.pow_add_r by lia; lia).
    apply IH; [done|lia|done|lia|done|done|lia].
Qed.

(** The loops of [divide] end within the fuel and give the quotient and the
    remainder; the only failure is a zero divisor. *)
Lemma divide_spec n d : wf n -> wf d -> val d <> 0 ->
  divide n d = Ok (of_Z (val n / val d), of_Z (val n mod val d)).
Proof.
  intros Hn Hd Hd0. pose proof (val_range _ Hn). pose proof (val_range _ Hd).
  rewrite <- (of_Z_val n), <- (of_Z_val d) by done. set (N := val n) in *. set (D := val d) in *.
  clearbody N D. rewrite !val_of_Z_small by done. unfold divide.
  rewrite from_int32_spec, eqb_spec, !val_of_Z_small by (lia || apply wf_of_Z).
  destruct (Z.eqb_spec D 0); [lia|]. rewrite from_int32_spec by lia.
  pose proof (divide_scale_spec 129 N D 0) as Hs. rewrite Z.pow_0_r, Z.mul_1_r in Hs.
  destruct Hs as (j & Hj & Hlt & HN & ->); [lia..|]. cbn [mbind res_bind].
  rewrite <- (Z2Nat.id j) by lia. rewrite <- (Z2Nat.id j) in Hlt, HN by lia.
  change (of_Z 0) with (of_Z (0 * 2^(Z.of_nat (Z.to_nat j) + 1))).
  apply divide_subtract_spec; lia.
Qed.

Lemma divide_by_zero n d : wf d -> val d = 0 -> divide n d = Throw logic_error.
Proof.
  intros Hd Hd0. unfold divide. rewrite <- (of_Z_val d), Hd0 by done. done.
Qed.

Lemma rem_spec a b : wf a -> wf b -> val b <> 0 -> rem a b = Ok (of_Z (val a mod val b)).
Proof. intros. unfold rem. by rewrite divide_spec. Qed.

Section boost_laws.
  Context (m128_div : Z -> Z -> res Z).
  Hypothesis m128_div_ok : forall x y, 0 <= x < 2^128 -> 0 < y < 2^128 -> m128_div x y = Ok (x / y).

Lemma div_spec a b : wf a -> wf b -> val b <> 0 -> div m128_div a b = Ok (of_Z (val a / val b)).
  Proof.
    intros Ha Hb Hb0. pose proof (val_range _ Ha). pose proof (val_range _ Hb). unfold div.
    rewrite m128_div_ok by lia. cbn [mbind res_bind]. unfold of_Z. do 2 f_equal.
    - by rewrite high_shiftr.
    - assert (0 <= val a / val b < 2^128).
      { split; [apply Z.div_pos; lia|apply Z.div_lt_upper_bound; nia]. }
      unfold u128, u64. rewrite Z.shiftl_mul_pow2, Z.shiftr_div_pow2 by lia.
      change (2^128) with (2^64 * 2^64). rewrite Z.mul_mod_distr_r, Z.div_mul by lia.
      by rewrite Z.mod_mod.
  Qed.
End boost_laws.

(** ** Text *)

(** The number decimal digits stand for, read after a prefix worth [a]. *)
Definition decimal (a : Z) (s : list Z) : Z := foldl (fun a c => a * 10 + (c - 48)) a s.
Definition is_digit (c : Z) : Prop := 48 <= c <= 57.

Lemma digit_char_spec r : 0 <= r < 10 -> digit_char r = Ok (48 + r).
Proof.
  intros. unfold digit_char.
  assert (r = 0 \/ r = 1 \/ r = 2 \/ r = 3 \/ r = 4 \/ r = 5 \/ r = 6 \/ r = 7 \/ r = 8 \/ r = 9) as Hr by lia.
  by destruct_or! Hr; subst r.
Qed.

Lemma digit_value_10 c : is_digit c -> digit_value 10 c = Some (c - 48).
Proof.
  unfold is_digit, digit_value. intros.
  rewrite (proj2 (Z.leb_gt 65 c)), (proj2 (Z.leb_gt 97 c)) by lia. cbn [andb].
  rewrite (proj2 (Z.leb_le 48 c)), (proj2 (Z.leb_le c 57)), (proj2 (Z.ltb_lt (c - 48) 10)) by lia. done.
Qed.

Lemma read_digits_10 s a : Forall is_digit s ->
  read_digits 10 s (of_Z a) = Ok (of_Z (decimal a s)).
Proof.
  intros Hs. revert a. induction Hs as [|c s Hc Hs IH]; intros a; [done|].
  cbn [read_digits]. rewrite digit_value_10 by done.
  rewrite from_int32_spec, mul_spec by (lia || apply wf_of_Z). cbn [mbind res_bind].
  rewrite val_of_Z, (val_of_Z_small 10), of_Z_mul_l by lia.
  red in Hc. rewrite from_uint32_spec, add_of_Z by lia. apply IH.
Qed.

Lemma write_digits_spec i : forall N sz, 0 <= N < 2^128 -> N < 10^(Z.of_nat i) ->
  exists s, write_digits i (of_Z N) sz = Ok (s ++ sz) /\ Forall is_digit s /\ decimal 0 s = N
    /\ (if N =? 0 then s = [] else exists c s', s = c :: s' /\ c <> 48).
Proof.
  induction i as [|i IH]; intros N sz HN Hi.
  { cbn in Hi. replace N with 0 by lia. by exists []. }
  cbn [write_digits]. rewrite neqb_zero by done.
  destruct (Z.eqb_spec N 0) as [->|HN0]; cbn [negb].
  { by exists []. }
  rewrite from_int32_spec, divide_spec by (lia || apply wf_of_Z || (rewrite val_of_Z_small; lia)).
  rewrite !val_of_Z_small by lia. cbn [mbind res_bind].
  pose proof (Z.mod_pos_bound N 10). pose proof (Z.div_mod N 10).
  rewrite to_integer_spec by apply wf_of_Z. rewrite val_of_Z_small by lia.
  destruct (Z.ltb_spec (N mod 10) (2^32)); [|lia]. cbn [mbind res_bind].
  rewrite digit_char_spec by lia. cbn [mbind res_bind].
  rewrite Nat2Z.inj_succ, Z.pow_succ_r in Hi by lia.
  destruct (IH (N / 10) ((48 + N mod 10) :: sz)) as (s & -> & Hs & Hv & Hh); [lia|lia|].
  exists (s ++ [48 + N mod 10]). split_and!.
  - by rewrite <- app_assoc.
  - apply Forall_app. split; [done|]. constructor; [|done]. red. lia.
  - unfold decimal in *. rewrite foldl_app, Hv. cbn [foldl]. lia.
  - destruct (Z.eqb_spec (N / 10) 0) as [E|E].
    + subst s. eexists _, _. split; [done|lia].
    + destruct Hh as (c & s' & -> & Hc). by eexists _, _.
Qed.

Lemma decimal_dec_digits c s : Forall is_digit (c :: s) -> c <> 48 -> of_string (c :: s) = Ok (of_Z (decimal 0 (c :: s))).
Proof.
  intros Hs Hc. pose proof (read_digits_10 (c :: s) 0 Hs) as Hr. change (of_Z 0) with (Uint128 0 0) in Hr.
  rewrite <- Hr. apply Forall_cons in Hs as [[H1 H2] _].
  assert (c = 49 \/ c = 50 \/ c = 51 \/ c = 52 \/ c = 53 \/ c = 54 \/ c = 55 \/ c = 56 \/ c = 57) by lia.
  clear - H. by destruct_or! H; subst c.
Qed.

(** ** Population count *)

(** The digits of [x] in base [2^w]. *)
Fixpoint fields (w : Z) (n : nat) (x : Z) : list Z :=
  match n with
  | O => []
  | S n => x mod 2^w :: fields w n (x / 2^w)
  end.
(** The mask that keeps every other digit: [2^w - 1] in base [2^(2w)]. *)
Fixpoint mask (w : Z) (n : nat) : Z :=
  match n with
  | O => 0
  | S n => mask w n * 2^(2 * w) + Z.ones w
  end.
Fixpoint sum_Z (l : list Z) : Z := match l with [] => 0 | x :: l => x + sum_Z l end.
Fixpoint pair_sums (l : list Z) : list Z :=
  match l with
  | a :: b :: l => a + b :: pair_sums l
  | _ => []
  end.

Lemma fields_length w n x : length (fields w n x) = n.
Proof. revert x. induction n; intros x; cbn; [done|]. by rewrite IHn. Qed.

Lemma sum_pair_sums l : Nat.Even (length l) -> sum_Z (pair_sums l) = sum_Z l.
Proof.
  remember (length l) as n. revert l Heqn. induction n as [n IH] using lt_wf_ind. intros l Hn Hev.
  destruct l as [|a [|b l]]; [done| |].
  - cbn in Hn. subst n. by destruct Hev as [k ?]; lia.
  - cbn in *. rewrite (IH (length l)); [lia|lia|done|]. destruct Hev as [k ?]. exists (k - 1)%nat. lia.
Qed.

Lemma testbit_concat r a m i : 0 <= m -> 0 <= a < 2^m -> 0 <= i ->
  Z.testbit (r * 2^m + a) i = if i <? m then Z.testbit a i else Z.testbit r (i - m).
Proof.
  intros Hm Ha Hi. rewrite <- lor_disjoint, Z.lor_spec, <- Z.shiftl_mul_pow2, Z.shiftl_spec by lia.
  destruct (Z.ltb_spec i m).
  - by rewrite (Z.testbit_neg_r r) by lia.
  - rewrite <- (Z.mod_small a (2^m)), (Z.mod_pow2_bits_high a) by lia. apply orb_false_r.
Qed.

Lemma land_concat r a s b m : 0 <= m -> 0 <= a < 2^m -> 0 <= b < 2^m ->
  Z.land (r * 2^m + a) (s * 2^m + b) = Z.land r s * 2^m + Z.land a b.
Proof.
  intros Hm Ha Hb.
  assert (0 <= Z.land a b < 2^m).
  { rewrite <- (Z.mod_small b (2^m)), <- Z.land_ones, Z.land_assoc, Z.land_ones by lia.
    apply Z.mod_pos_bound. lia. }
  apply Z.bits_inj'. intros i Hi. rewrite Z.land_spec, !testbit_concat by lia.
  destruct (i <? m); by rewrite Z.land_spec.
Qed.

(** One round of the count: every other field added to its neighbour. *)
Definition pair_up (w m x : Z) : Z := Z.land x m + Z.land (Z.shiftr x w) m.

Lemma pair_up_step w n x : 0 < w -> 0 <= x ->
  pair_up w (mask w (S n)) x
  = pair_up w (mask w n) (x / 2^w / 2^w) * 2^(2 * w) + (x mod 2^w + (x / 2^w) mod 2^w).
Proof.
  intros Hw Hx. assert (H0 : 0 < 2^w) by lia.
  assert (H2 : 2^(2 * w) = 2^w * 2^w) by (rewrite <- Z.pow_add_r by lia; f_equal; lia).
  unfold pair_up. rewrite !Z.shiftr_div_pow2 by lia. cbn [mask].
  assert (Hm : forall y, 0 <= y -> Z.land y (mask w n * 2^(2 * w) + Z.ones w)
    = Z.land (y / 2^w / 2^w) (mask w n) * 2^(2 * w) + y mod 2^w).
  { intros y Hy. pose proof (Z.div_mod y (2^w)). pose proof (Z.div_mod (y / 2^w) (2^w)).
    pose proof (Z.mod_pos_bound y (2^w)). pose proof (Z.mod_pos_bound (y / 2^w) (2^w)).
    replace y with (y / 2^w / 2^w * 2^(2 * w) + ((y / 2^w) mod 2^w * 2^w + y mod 2^w)) at 1 by nia.
    rewrite land_concat by (rewrite ?Z.ones_equiv; nia). f_equal.
    rewrite Z.land_ones by lia. rewrite Z.add_comm, Z.mod_add by lia. by apply Z.mod_mod; lia. }
  rewrite !Hm by (done || (apply Z.div_pos; lia)). lia.
Qed.

Lemma pair_up_fields w n : forall x, 0 < w -> 0 <= x ->
  fields (2 * w) n (pair_up w (mask w n) x) = pair_sums (fields w (2 * n) x)
  /\ 0 <= pair_up w (mask w n) x < 2^(2 * w * Z.of_nat n).
Proof.
  induction n as [|n IH]; intros x Hw Hx.
  { unfold pair_up. cbn [mask]. rewrite !Z.land_0_r. split; [done|]. by rewrite Z.mul_0_r. }
  rewrite pair_up_step by done. replace (2 * S n)%nat with (S (S (2 * n))) by lia.
  assert (Hp : 0 < 2^w) by lia.
  assert (Hx2 : 0 <= x / 2^w / 2^w) by (repeat apply Z.div_pos; lia).
  destruct (IH _ Hw Hx2) as [IH1 IH2].
  pose proof (Z.mod_pos_bound x (2^w) Hp). pose proof (Z.mod_pos_bound (x / 2^w) (2^w) Hp).
  assert (H2 : 2^(2 * w) = 2^w * 2^w) by (rewrite <- Z.pow_add_r by lia; f_equal; lia).
  assert (2 <= 2^w) by (change 2 with (2^1) at 1; apply Z.pow_le_mono_r; lia).
  set (y := pair_up w (mask w n) (x / 2^w / 2^w)) in *. clearbody y. cbn [fields pair_sums].
  set (d := x mod 2^w + (x / 2^w) mod 2^w) in *. assert (0 <= d < 2^(2 * w)) by nia. split.
  - f_equal.
    + rewrite Z.add_comm, Z.mod_add by lia. by apply Z.mod_small.
    + rewrite <- IH1. f_equal. rewrite Z.add_comm, Z.div_add, Z.div_small by lia. done.
  - rewrite Nat2Z.inj_succ. replace (2 * w * Z.succ (Z.of_nat n)) with (2 * w * Z.of_nat n + 2 * w) by lia.
    rewrite Z.pow_add_r by lia. nia.
Qed.

Lemma sum_fields_pair_up w n x : 0 < w -> 0 <= x ->
  sum_Z (fields (2 * w) n (pair_up w (mask w n) x)) = sum_Z (fields w (2 * n) x).
Proof.
  intros Hw Hx. destruct (pair_up_fields w n x Hw Hx) as [-> _]. apply sum_pair_sums.
  rewrite fields_length. by exists n.
Qed.

(** The rounds [ms] add up [n] fields of width [w]. *)
Definition counts (w : Z) (n : nat) (ms : list Z) : Prop :=
  forall x, 0 <= x < 2^64 -> popcount_loop w ms x = sum_Z (fields w n x).

Lemma counts_end : counts 64 1 [].
Proof. intros x Hx. cbn [popcount_loop fields sum_Z]. rewrite Z.mod_small by lia. lia. Qed.

Lemma counts_round w n ms : 0 < w -> 2 * w * Z.of_nat n = 64 ->
  counts (w + w) n ms -> counts w (2 * n) (mask w n :: ms).
Proof.
  intros Hw Hn IH x Hx. cbn [popcount_loop].
  change (Z.land x (mask w n) + Z.land (Z.shiftr x w) (mask w n)) with (pair_up w (mask w n) x).
  rewrite IH by apply u64_range. replace (w + w) with (2 * w) by lia.
  destruct (pair_up_fields w n x) as [_ Hr]; [done|lia|]. rewrite Hn in Hr.
  unfold u64. rewrite Z.mod_small by lia. apply sum_fields_pair_up; lia.
Qed.

Lemma popcount_masks_counts : counts 1 64 popcount_masks.
Proof.
  change popcount_masks with [mask 1 32; mask 2 16; mask 4 8; mask 8 4; mask 16 2; mask 32 1].
  repeat (apply counts_round; [done|done|]; cbn [Z.add Pos.add]). apply counts_end.
Qed.

(** The number of ones among the low [n] bits. *)
Fixpoint ones_below (n : nat) (x : Z) : Z :=
  match n with
  | O => 0
  | S n => ones_below n x + Z.b2z (Z.testbit x (Z.of_nat n))
  end.

Lemma ones_below_shift n x :
  ones_below (S n) x = Z.b2z (Z.testbit x 0) + ones_below n (x / 2).
Proof.
  induction n as [|n IH]; [cbn [ones_below]; change (Z.of_nat 0) with 0; lia|]. cbn [ones_below] in *. rewrite IH.
  rewrite <- Z.div2_div, Z.div2_spec, Z.shiftr_spec by lia.
  replace (Z.of_nat n + 1) with (Z.of_nat (S n)) by lia. lia.
Qed.

Lemma sum_fields_1 n x : sum_Z (fields 1 n x) = ones_below n x.
Proof.
  revert x. induction n as [|n IH]; intros x; [done|].
  rewrite ones_below_shift. cbn [fields sum_Z]. rewrite IH, Z.pow_1_r. f_equal.
  by rewrite Z.bit0_mod.
Qed.

Lemma ones_below_range n x : 0 <= ones_below n x <= Z.of_nat n.
Proof.
  induction n as [|n IH]; [done|]. cbn [ones_below]. destruct (Z.testbit _ _); cbn [Z.b2z]; lia.
Qed.

Lemma _popcount_64_spec x : 0 <= x < 2^64 -> _popcount_64 x = ones_below 64 x.
Proof.
  intros Hx. unfold _popcount_64. rewrite popcount_masks_counts, sum_fields_1 by done.
  apply Z.mod_small. pose proof (ones_below_range 64 x). lia.
Qed.

Lemma ones_below_concat n m r a : 0 <= a < 2^(Z.of_nat m) ->
  ones_below (n + m) (r * 2^(Z.of_nat m) + a) = ones_below n r + ones_below m a.
Proof.
  intros Ha. induction n as [|n IH]; cbn [ones_below Nat.add].
  - rewrite Z.add_0_l. clear -Ha.
    assert (H : forall k, (k <= m)%nat -> ones_below k (r * 2 ^ Z.of_nat m + a) = ones_below k a).
    { induction k as [|k IH]; intros; cbn [ones_below]; [done|]. rewrite IH by lia.
      rewrite testbit_concat by lia. by destruct (Z.ltb_spec (Z.of_nat k) (Z.of_nat m)); [|lia]. }
    by apply H.
  - rewrite IH, testbit_concat by lia. destruct (Z.ltb_spec (Z.of_nat (n + m)) (Z.of_nat m)); [lia|].
    replace (Z.of_nat (n + m) - Z.of_nat m) with (Z.of_nat n) by lia. lia.
Qed.

Lemma popcount_spec u : wf u -> popcount u = ones_below 128 (val u).
Proof.
  intros [Hh Hl]. unfold popcount. rewrite !_popcount_64_spec by done.
  pose proof (ones_below_concat 64 64 (hi u) (lo u) Hl) as Hc.
  change (ones_below 128 (val u)) with (ones_below (64 + 64) (hi u * 2^(Z.of_nat 64) + lo u)).
  rewrite Hc, Z.add_comm. apply Z.mod_small.
  pose proof (ones_below_range 64 (hi u)). pose proof (ones_below_range 64 (lo u)). lia.
Qed.

(** ** What the class computes *)

(** C38: the two-limb class refines arithmetic modulo 2^128: on well-formed
    arguments every operator returns a well-formed value (the products and
    shifts, whose counts go through a checked conversion, never throw), and the
    number its limbs stand for is the sum, difference, negation, product,
    bitwise combination or shift of the arguments' numbers modulo 2^128;
    comparisons compare those numbers. *)
Theorem uint128_refines_Z a b : wf a -> wf b ->
  (wf (add a b) /\ val (add a b) = (val a + val b) mod 2^128) /\
  (wf (sub a b) /\ val (sub a b) = (val a - val b) mod 2^128) /\
  (wf (opp a) /\ val (opp a) = (- val a) mod 2^128) /\
  (exists p, mul a b = Ok p /\ wf p /\ val p = (val a * val b) mod 2^128) /\
  (exists p, shl a b = Ok p /\ wf p /\ val p = (val a * 2^(val b)) mod 2^128) /\
  (exists p, shr a b = Ok p /\ wf p /\ val p = val a / 2^(val b)) /\
  val (incr a) = (val a + 1) mod 2^128 /\ val (decr a) = (val a - 1) mod 2^128 /\
  val (compl a) = 2^128 - 1 - val a /\
  val (bor a b) = Z.lor (val a) (val b) mod 2^128 /\
  val (band a b) = Z.land (val a) (val b) mod 2^128 /\
  val (bxor a b) = Z.lxor (val a) (val b) mod 2^128 /\
  eqb a b = (val a =? val b) /\ ltb a b = (val a <? val b) /\
  leb a b = (val a <=? val b) /\ geb a b = (val b <=? val a).
Proof.
  intros Ha Hb. pose proof (val_range _ Ha). pose proof (val_range _ Hb).
  assert (Hv : forall x, wf (of_Z x) /\ val (of_Z x) = x mod 2^128).
  { intros x. split; [apply wf_of_Z|apply val_of_Z]. }
  rewrite add_spec, sub_spec, opp_spec, mul_spec, shl_spec, shr_spec, incr_spec, decr_spec, compl_spec by done.
  rewrite eqb_spec, ltb_spec, leb_spec, geb_spec by done.
  rewrite <- (of_Z_val a), <- (of_Z_val b), bor_of_Z, band_of_Z, bxor_of_Z by done.
  rewrite !(proj2 (Hv _)). rewrite !(Z.mod_small (val a)), !(Z.mod_small (val b)) by done.
  split_and!; try apply Hv; try done; try (eexists; split; [reflexivity|]; try apply Hv).
  - split; [apply Hv|]. rewrite (proj2 (Hv _)). apply Z.mod_small.
    split; [apply Z.div_pos; lia|]. apply Z.div_lt_upper_bound; [lia|].
    assert (1 <= 2^(val b)) by (pose proof (Z.pow_pos_nonneg 2 (val b)); lia). nia.
  - symmetry. apply Z.mod_unique with (-1); lia.
Qed.

Lemma uint128_refines_Z_witness :
  let a := Uint128 3 (2^64 - 1) in let b := Uint128 0 70 in
  (wf a /\ wf b) /\ wf (add a b) /\ val (add a b) = 2^66 + 69.
Proof.
  assert (Ha : wf (Uint128 3 (2^64 - 1))) by (split; cbn; lia).
  assert (Hb : wf (Uint128 0 70)) by (split; cbn; lia).
  split; [done|]. exact (proj1 (uint128_refines_Z _ _ Ha Hb)).
Defined.

(** The shift-and-subtract division ends and is exact: on well-formed
    arguments both loops finish within their 129 rounds and the result is the
    quotient and the remainder of the numbers, which fit; the only failure is
    the domain error for a zero divisor. *)
Theorem divide_correct n d : wf n -> wf d ->
  if val d =? 0 then divide n d = Throw logic_error
  else exists q r, divide n d = Ok (q, r) /\ wf q /\ wf r
    /\ val n = val d * val q + val r /\ 0 <= val r < val d.
Proof.
  intros Hn Hd. pose proof (val_range _ Hn). pose proof (val_range _ Hd).
  destruct (Z.eqb_spec (val d) 0) as [E|E]; [by apply divide_by_zero|].
  assert (0 < val d) by lia. rewrite divide_spec by done. eexists _, _. split; [reflexivity|].
  split_and!; [apply wf_of_Z..| | |].
  all: pose proof (Z.mod_pos_bound (val n) (val d) ltac:(lia)).
  all: rewrite ?(val_of_Z_small (val n mod val d)) by lia; try lia.
  rewrite val_of_Z_small; [apply Z.div_mod; lia|].
  split; [apply Z.div_pos; lia|apply Z.div_lt_upper_bound; nia].
Qed.

Lemma divide_correct_witness :
  divide (Uint128 5 1) (Uint128 0 10) = Ok (Uint128 0 9223372036854775808, Uint128 0 1)
  /\ exists q r, divide (Uint128 5 1) (Uint128 0 10) = Ok (q, r) /\ wf q /\ wf r
    /\ val (Uint128 5 1) = val (Uint128 0 10) * val q + val r /\ 0 <= val r < val (Uint128 0 10).
Proof.
  assert (Hn : wf (Uint128 5 1)) by (split; cbn; lia).
  assert (Hd : wf (Uint128 0 10)) by (split; cbn; lia).
  split; [vm_compute; reflexivity|]. exact (divide_correct _ _ Hn Hd).
Defined.

(** The text of a value reads back: [to_string] never fails, writes the
    decimal digits of the number without a leading zero, and the string
    constructor, which takes a leading zero for octal, returns the same
    limbs. *)
Theorem uint128_text_roundtrip u : wf u ->
  exists s, to_string u = Ok s /\ of_string s = Ok u
    /\ Forall is_digit s /\ decimal 0 s = val u /\ (val u <> 0 -> head s <> Some 48).
Proof.
  intros Hu. pose proof (val_range _ Hu). rewrite <- (of_Z_val u) by done.
  set (N := val u) in *. clearbody N. clear u Hu. rewrite val_of_Z_small by done.
  unfold to_string. rewrite from_int32_spec, eqb_spec, !val_of_Z_small by (lia || apply wf_of_Z).
  destruct (Z.eqb_spec N 0) as [->|HN].
  { exists [48]. split_and!; try done. by repeat constructor. }
  destruct (write_digits_spec 127 N []) as (s & -> & Hs & Hv & Hh); [done| |].
  { apply Z.lt_trans with (2^128); [lia|]. by vm_compute. }
  destruct (Z.eqb_spec N 0); [done|]. destruct Hh as (c & s' & -> & Hc).
  rewrite app_nil_r. eexists. split; [done|]. rewrite decimal_dec_digits, Hv by done.
  split_and!; try done. cbn. congruence.
Qed.

Lemma uint128_text_roundtrip_witness :
  wf (Uint128 1 0) /\ exists s, to_string (Uint128 1 0) = Ok s /\ of_string s = Ok (Uint128 1 0)
    /\ Forall is_digit s /\ decimal 0 s = 18446744073709551616 /\ (val (Uint128 1 0) <> 0 -> head s <> Some 48).
Proof.
  assert (Hu : wf (Uint128 1 0)) by (split; cbn; lia).
  split; [done|]. exact (uint128_text_roundtrip _ Hu).
Defined.

(** The parallel bit count of [popcount], six rounds of masked sums per
    limb, equals the number of ones counted bit by bit, and so never
    overflows its 8-bit result. *)
Theorem popcount_counts u : wf u -> popcount u = ones_below 128 (val u) /\ 0 <= popcount u <= 128.
Proof. intros. rewrite popcount_spec by done. split; [done|apply (ones_below_range 128)]. Qed.

Lemma popcount_counts_witness :
  wf (Uint128 5 255) /\ popcount (Uint128 5 255) = ones_below 128 (val (Uint128 5 255))
  /\ 0 <= popcount (Uint128 5 255) <= 128.
Proof.
  assert (Hu : wf (Uint128 5 255)) by (split; cbn; lia).
  split; [done|]. exact (popcount_counts _ Hu).
Defined.

(** [full_product] loses nothing: the two results are the halves of the
    exact 256-bit product. *)
Theorem full_product_exact a b : wf a -> wf b ->
  exists h l, full_product a b = Ok (h, l) /\ wf h /\ wf l
    /\ val h * 2^128 + val l = val a * val b.
Proof. apply full_product_spec. Qed.

Lemma full_product_exact_witness :
  exists h l, full_product max_value max_value = Ok (h, l) /\ wf h /\ wf l
    /\ val h * 2^128 + val l = val max_value * val max_value.
Proof.
  assert (Hm : wf max_value) by (split; vm_compute; split; congruence).
  exact (full_product_exact _ _ Hm Hm).
Defined.
