(* ===== verification/Double.v ===== *)
(** * Double: the binary64 numbers of the language, as far as text is turned into
    them and they are turned into integers: [std::stod], [std::to_string], the
    product with an integer, [round] and the conversions to 64-bit integers.

    A finite double is a sign and [mant * 2^expo]; results are rounded to the
    nearest representable value, ties to the even mantissa. *)
From S2P Require Import Prelude Asset.
Local Open Scope Z_scope.
Local Open Scope list_scope.

Record double := Double { dneg : bool; mant : Z; expo : Z }.
#[export] Instance double_eq_dec : EqDecision double.
Proof. solve_decision. Defined.

(** [n / d] rounded to an integer. *)
Definition nearest_even (n d : Z) : Z :=
  let q := n / d in let r := n mod d in
  if 2 * r <? d then q else if d <? 2 * r then q + 1 else if Z.even q then q else q + 1.
(** [n / d] in units of [2^e], as a fraction. *)
Definition in_units (n d e : Z) : Z * Z := if 0 <=? e then (n, d * 2^e) else (n * 2^(- e), d).
(** The unit in the last place of [n / d], not below that of the subnormal numbers. *)
Definition ulp_of (n d : Z) : Z :=
  let e := Z.log2 n - Z.log2 d - 53 in
  let '(a, b) := in_units n d e in
  Z.max (-1074) (if 2^53 <=? a / b then e + 1 else e).

(** The double nearest to [n / d], or [None] for infinity. *)
Definition round_to_double (neg : bool) (n d : Z) : option double :=
  if n =? 0 then Some (Double neg 0 0)
  else
    let e := ulp_of n d in
    let '(a, b) := in_units n d e in
    let m := nearest_even a b in
    if (971 <? e) || ((e =? 971) && (2^53 <=? m)) then None else Some (Double neg m e).

(** ** Text *)
Definition number_of_digits (ds : list Z) : Z := foldl (fun n c => n * 10 + (c - 48)) 0 ds.
Fixpoint split_at_dot (s : list Z) : list Z * list Z :=
  match s with
  | [] => ([], [])
  | c :: s => if c =? 46 then ([], s) else let '(a, b) := split_at_dot s in (c :: a, b)
  end.
(** [std::stod] of a sign, digits and at most one dot: numbers that are too large, or
    too small to be normal and not exact, are out of range. *)
Definition stod (s : list Z) : res double :=
  let '(neg, s) := match s with 45 :: s => (true, s) | _ => (false, s) end in
  let '(whole, fract) := split_at_dot s in
  let n := number_of_digits (whole ++ fract) in
  let d := 10 ^ Z.of_nat (length fract) in
  match round_to_double neg n d with
  | Some r => if (n =? 0) || (2^52 <=? mant r) || (n * 2^1074 =? mant r * d) then Ok r else Throw out_of_range
  | None => Throw out_of_range
  end.

(** [std::to_string( double )], with six decimals. *)
Definition double_to_string (x : double) : list Z :=
  let '(a, b) := in_units (mant x * 10^6) 1 (- expo x) in
  let n := nearest_even a b in
  (if dneg x then [45] else []) ++ dec_string (n / 10^6) ++ [46] ++ tail (dec_string (10^6 + n mod 10^6)).

(** ** Arithmetic *)
(** The product with an integer that is exact as a double. *)
Definition double_mul (x : double) (k : Z) : option double :=
  let '(a, b) := in_units (mant x * k) 1 (- expo x) in round_to_double (dneg x) a b.
(** [round]: to the nearest integer, halfway cases away from zero. *)
Definition double_round (x : double) : Z :=
  let '(a, b) := in_units (mant x) 1 (- expo x) in
  let m := (2 * a + b) / (2 * b) in if dneg x then - m else m.
(** The conversion to an integer type discards the fraction; it is undefined out of range. *)
Definition double_trunc (x : double) : Z :=
  let '(a, b) := in_units (mant x) 1 (- expo x) in if dneg x then - (a / b) else a / b.
Definition to_int64 (z : Z) : res Z := if (- 2^63 <=? z) && (z <? 2^63) then Ok z else Throw crash.
Definition to_uint64 (z : Z) : res Z := if (0 <=? z) && (z <? 2^64) then Ok z else Throw crash.

(** ** Rounding errors *)
Lemma nearest_even_error n d : 0 <= n -> 0 < d -> 2 * Z.abs (nearest_even n d * d - n) <= d.
Proof.
  intros Hn Hd. unfold nearest_even. pose proof (Z.div_mod n d ltac:(lia)) as E.
  pose proof (Z.mod_pos_bound n d Hd) as Hr. set (q := n / d) in *. set (r := n mod d) in *. clearbody q r.
  destruct (Z.ltb_spec (2 * r) d); [nia|]. destruct (Z.ltb_spec d (2 * r)); [nia|].
  destruct (Z.even q); nia.
Qed.
Lemma in_units_pos n d e : 0 < d -> 0 < snd (in_units n d e).
Proof.
  intros Hd. unfold in_units. destruct (Z.leb_spec 0 e); cbn; [|done].
  assert (0 < 2^e) by (apply Z.pow_pos_nonneg; lia). nia.
Qed.

(** The value of a double as a fraction, and the rounding error relative to [n / d]:
    [2^53] roundings of the quotient are at most the quotient itself. *)
Definition num (x : double) : Z := if 0 <=? expo x then mant x * 2^(expo x) else mant x.
Definition den (x : double) : Z := if 0 <=? expo x then 1 else 2^(- expo x).
Lemma den_pos x : 0 < den x.
Proof. unfold den. destruct (Z.leb_spec 0 (expo x)); [lia|]. apply Z.pow_pos_nonneg; lia. Qed.

Lemma ulp_bound n d : 0 < n -> 0 < d -> -1074 < Z.log2 n - Z.log2 d - 53 ->
  let '(a, b) := in_units n d (ulp_of n d) in 2^52 * b <= a.
Proof.
  intros Hn Hd Hlow. unfold ulp_of. set (e := Z.log2 n - Z.log2 d - 53) in *.
  destruct (Z.log2_spec n Hn) as [Hn1 Hn2]. destruct (Z.log2_spec d Hd) as [Hd1 Hd2].
  assert (Hunits : forall e', exists a b, in_units n d e' = (a, b) /\ 0 < b /\
    (0 <= e' -> a = n /\ b = d * 2^e') /\ (e' < 0 -> a = n * 2^(- e') /\ b = d)).
  { intros e'. unfold in_units. destruct (Z.leb_spec 0 e').
    - exists n, (d * 2^e'). assert (0 < 2^e') by (apply Z.pow_pos_nonneg; lia). split_and!; [done|nia|done|lia].
    - exists (n * 2^(- e')), d. split_and!; [done|done|lia|done]. }
  assert (Hlog : forall j k, 0 <= j -> 0 <= k -> j + 53 + Z.log2 d = Z.log2 n + k -> 2^52 * (d * 2^j) <= n * 2^k).
  { intros j k Hj Hk Hjk. pose proof (Z.log2_nonneg n). pose proof (Z.log2_nonneg d).
    transitivity (2^(Z.log2 n + k)).
    - rewrite <- Hjk. replace (j + 53 + Z.log2 d) with (Z.succ (Z.log2 d) + j + 52) by lia.
      rewrite !Z.pow_add_r by lia. assert (0 < 2^j) by (apply Z.pow_pos_nonneg; lia). nia.
    - rewrite Z.pow_add_r by lia. assert (0 < 2^k) by (apply Z.pow_pos_nonneg; lia). nia. }
  assert (Hat : forall a b, in_units n d e = (a, b) -> 2^52 * b <= a).
  { intros a b E. destruct (Hunits e) as (a' & b' & E' & Hb & H1 & H2). rewrite E in E'. injection E' as <- <-.
    destruct (Z.le_gt_cases 0 e) as [He|He].
    - destruct (H1 He) as [-> ->]. rewrite <- (Z.mul_1_r n) at 1. rewrite Hlog with (k := 0); lia.
    - destruct (H2 He) as [-> ->]. rewrite <- (Z.mul_1_r d) at 1. apply (Hlog 0); lia. }
  destruct (Hunits e) as (a0 & b0 & E0 & Hb0 & Hpos0 & Hneg0). rewrite E0. specialize (Hat a0 b0 E0).
  destruct (Z.leb_spec (2^53) (a0 / b0)) as [Hbig|Hsmall].
  - rewrite Z.max_r by lia. destruct (Hunits (e + 1)) as (a & b & -> & Hb & Hpos & Hneg).
    assert (2^53 * b0 <= a0) by (pose proof (Z.mul_div_le a0 b0 Hb0); nia).
    destruct (Z.le_gt_cases 0 e) as [He|He].
    + destruct (Hpos0 He), (Hpos ltac:(lia)). subst. rewrite Z.pow_add_r by lia. lia.
    + destruct (Hneg0 He) as [-> ->]. destruct (Z.eq_dec e (-1)) as [->|].
      * destruct (Hpos ltac:(lia)). subst. lia.
      * destruct (Hneg ltac:(lia)). subst. replace (- e) with (1 + - (e + 1)) in * by lia.
        rewrite Z.pow_add_r in * by lia. lia.
  - rewrite Z.max_r by lia. by rewrite E0.
Qed.

(** A rounded result differs from what was rounded by at most one part in [2^53]. *)
Lemma round_to_double_error neg n d r : 0 < n -> 0 < d -> -1074 < Z.log2 n - Z.log2 d - 53 ->
  round_to_double neg n d = Some r ->
  dneg r = neg /\ 0 <= mant r /\ 2^53 * Z.abs (num r * d - n * den r) <= n * den r.
Proof.
  intros Hn Hd Hlow H. unfold round_to_double in H. destruct (Z.eqb_spec n 0); [lia|].
  pose proof (ulp_bound n d Hn Hd Hlow) as Hu. set (e := ulp_of n d) in *. clearbody e.
  pose proof (in_units_pos n d e Hd) as Hb. destruct (in_units n d e) as [a b] eqn:E. cbn in Hb.
  pose proof (nearest_even_error a b ltac:(nia) Hb) as Herr. set (m := nearest_even a b) in *.
  assert (Hm : 0 <= m).
  { unfold m, nearest_even. assert (0 <= a / b) by (apply Z.div_pos; nia).
    destruct (2 * (a mod b) <? b), (b <? 2 * (a mod b)), (Z.even (a / b)); lia. }
  clearbody m. destruct ((971 <? e) || ((e =? 971) && (2^53 <=? m))); [done|]. injection H as <-. cbn [dneg mant].
  split; [done|]. split; [done|]. unfold num, den, in_units in *. cbn [expo mant].
  destruct (Z.leb_spec 0 e); injection E as <- <-; nia.
Qed.
