(* ===== verification/Version.v ===== *)
(** * Version: protocol versions and hardfork votes ([protocol/version.*]). *)
From Stdlib Require Import String.
From S2P Require Import Prelude Names Asset.
Local Open Scope Z_scope.
Local Open Scope list_scope.

(** A [version] is its [v_num], a 32-bit number. *)
Definition version (m h r : Z) : Z :=
  Z.lor (u32 (Z.shiftl (Z.lor (u32 (Z.shiftl m 8)) h) 16)) r.

Definition version_major (v : Z) : Z := Z.shiftr (Z.land v 0xFF000000) 24.
Definition version_minor (v : Z) : Z := Z.shiftr (Z.land v 0x00FF0000) 16.
Definition version_rev (v : Z) : Z := Z.land v 0x0000FFFF.

Definition version_to_string (v : Z) : list Z :=
  dec_string (Z.land (Z.shiftr v 24) 0xFF) ++ [46]
  ++ dec_string (Z.land (Z.shiftr v 16) 0xFF) ++ [46]
  ++ dec_string (Z.land v 0xFFFF).

(** A [hardfork_version] drops the revision of the version it is made from. *)
Definition hardfork_version (m h : Z) : Z := version m h 0.
Definition hardfork_of_version (v : Z) : Z := Z.land v 0xFFFF0000.
(** [hardfork_version op version] compares with the revision dropped. *)
Definition hf_ltb_version (hv v : Z) : bool := hv <? hardfork_of_version v.
Definition hf_eqb_version (hv v : Z) : bool := hv =? hardfork_of_version v.

Record hardfork_version_vote := HfVote { hf_version : Z; hf_time : Z }.
#[export] Instance hfvote_eq_dec : EqDecision hardfork_version_vote.
Proof. solve_decision. Defined.

(** config.hpp and hardfork.d *)
Definition SOPHIATX_BLOCKCHAIN_VERSION : Z := Eval vm_compute in version 1 2 0.
Definition SOPHIATX_BLOCKCHAIN_HARDFORK_VERSION : Z :=
  Eval vm_compute in hardfork_of_version SOPHIATX_BLOCKCHAIN_VERSION.
Definition SOPHIATX_NUM_HARDFORKS : Z := 2.
Definition SOPHIATX_HARDFORK_1_1 : Z := 1.
Definition SOPHIATX_HARDFORK_1_1_TIME : Z := 1543838400.
Definition SOPHIATX_HARDFORK_1_1_VERSION : Z := Eval vm_compute in hardfork_version 1 1.
Definition SOPHIATX_HARDFORK_1_2 : Z := 2.
Definition SOPHIATX_HARDFORK_1_2_TIME : Z := 1551182400.
Definition SOPHIATX_HARDFORK_1_2_VERSION : Z := Eval vm_compute in hardfork_version 1 2.

(** ** Lemmas *)
Lemma version_val m h r : 0 <= m < 256 -> 0 <= h < 256 -> 0 <= r < 65536 ->
  version m h r = m * 2^24 + h * 2^16 + r.
Proof.
  intros Hm Hh Hr. unfold version, u32.
  rewrite !Z.shiftl_mul_pow2 by lia. rewrite (Z.mod_small (m * 2^8)) by lia.
  rewrite (lor_disjoint m h 8) by lia. rewrite Z.mod_small by lia.
  rewrite (lor_disjoint (m * 2^8 + h) r 16) by lia. lia.
Qed.

Lemma land_mask_shift v k n : 0 <= k -> 0 <= n ->
  Z.shiftr (Z.land v (Z.shiftl (Z.ones n) k)) k = (v / 2^k) mod 2^n.
Proof.
  intros Hk Hn. rewrite Z.shiftr_land, Z.shiftr_shiftl_l, Z.sub_diag, Z.shiftl_0_r by done.
  by rewrite Z.land_ones, Z.shiftr_div_pow2.
Qed.
