(* ===== verification/Config.v ===== *)
(** * Config: compile-time constants ([protocol/config.hpp]), the genesis
    description and the configuration derived from it ([get_config.hpp]).

    The live network build is modelled: [IS_TEST_NET] and [IS_LOW_MEM] are off. *)
From S2P Require Import Prelude Names Asset Version.
Local Open Scope Z_scope.

Definition public_key_type : Set := Z.
(** The default-constructed key, an array of zero bytes. *)
Definition null_key : public_key_type := 0.

(** ** config.hpp *)
Definition SOPHIATX_GENESIS_TIME : Z := 1531512800.
Definition SOPHIATX_DECIMALS : Z := 6.
Definition SOPHIATX_INTEREST_BLOCKS : Z := 2400.
Definition SOPHIATX_WITNESS_VESTING_INCREASE_DAYS : Z := 96.
Definition SOPHIATX_OWNER_AUTH_RECOVERY_PERIOD : Z := 30 * 24 * 60 * 60.
Definition SOPHIATX_ACCOUNT_RECOVERY_REQUEST_EXPIRATION_PERIOD : Z := 24 * 60 * 60.
Definition SOPHIATX_OWNER_UPDATE_LIMIT : Z := 60 * 60.
Definition SOPHIATX_MAX_TIME_UNTIL_EXPIRATION : Z := 60 * 60.
Definition SOPHIATX_MAX_MEMO_SIZE : Z := 2048.
Definition SOPHIATX_MAX_NAME_SEED_SIZE : Z := 32.
Definition SOPHIATX_MAX_PROXY_RECURSION_DEPTH : Z := 4.
Definition SOPHIATX_VESTING_WITHDRAW_INTERVALS : Z := 27.
Definition SOPHIATX_VESTING_WITHDRAW_INTERVAL_SECONDS : Z := 60 * 60 * 24.
Definition SOPHIATX_100_PERCENT : Z := 10000.
Definition SOPHIATX_1_PERCENT : Z := 100.
Definition SOPHIATX_MIN_ACCOUNT_NAME_LENGTH : Z := 3.
Definition SOPHIATX_MAX_ACCOUNT_NAME_LENGTH : Z := 16.
Definition SOPHIATX_MAX_PERMLINK_LENGTH : Z := 256.
Definition SOPHIATX_MAX_WITNESS_URL_LENGTH : Z := 2048.
Definition SOPHIATX_MAX_SIG_CHECK_DEPTH : Z := 2.
Definition SOPHIATX_MIN_BLOCK_SIZE : Z := 115.
Definition SOPHIATX_FEED_HISTORY_WINDOW : Z := 12 * 7.
Definition SOPHIATX_MAX_FEED_AGE_SECONDS : Z := 60 * 60 * 24 * 7.
Definition SOPHIATX_MAX_UNDO_HISTORY : Z := 10000.
Definition SOPHIATX_IRREVERSIBLE_THRESHOLD : Z := 75 * SOPHIATX_1_PERCENT.
Definition SOPHIATX_VIRTUAL_SCHEDULE_LAP_LENGTH2 : Z := 2^128 - 1.
Definition SIZE_COVERED_IN_BASE_FEE : Z := 4096.
Definition SIZE_INCREASE_PER_FEE : Z := 4096.

(** ** genesis_state.hpp *)
Record initial_account_type := InitialAccount {
  ia_name : account_name_type; ia_key : public_key_type; ia_balance : Z }.

Record genesis_state_type := Genesis {
  initial_public_key : public_key_type;
  initial_public_mining_key : public_key_type;
  initial_balace : Z;
  initial_supply : Z;
  total_supply : Z;
  max_witnesses : Z;
  hardfork_req_witnesses : Z;
  max_voted_witnesses : Z;
  max_runner_witnesses : Z;
  max_account_witness_votes : Z;
  initial_witness_req_vesting_balance : Z;
  final_witness_req_vesting_balance : Z;
  witness_vesting_increase_days : Z;
  block_interval : Z;
  max_transaction_size : Z;
  max_block_size : Z;
  promotion_pool_percentage : Z;
  mining_pool_percentage : Z;
  interest_pool_percentage : Z;
  burn_fee_percentage : Z;
  coinbase_years : Z;
  min_acc_creation_fee : Z;
  base_fee : Z;
  base_fee_usd : Z;
  base_fee_eur : Z;
  base_fee_chf : Z;
  base_fee_cny : Z;
  base_fee_gbp : Z;
  gen_symbol : Z;
  limit_bandwidth_blocks : Z;
  max_allowed_bandwidth : Z;
  max_allowed_ops : Z;
  initial_chain_id : Z;
  genesis_time : Z;
  is_private_net : bool;
  initial_accounts : list initial_account_type }.

(** The default member values (live network). *)
Definition default_genesis : genesis_state_type := {|
  initial_public_key := 1;
  initial_public_mining_key := 1;
  initial_balace := 350000000000000;
  initial_supply := 350000000000000;
  total_supply := 500000000000000;
  max_witnesses := 51;
  hardfork_req_witnesses := 31;
  max_voted_witnesses := 47;
  max_runner_witnesses := 4;
  max_account_witness_votes := 60;
  initial_witness_req_vesting_balance := SOPHIATX_SATOSHIS * 250000;
  final_witness_req_vesting_balance := SOPHIATX_SATOSHIS * 300000;
  witness_vesting_increase_days := 159;
  block_interval := 3;
  max_transaction_size := 1024 * 8;
  max_block_size := 2048;
  promotion_pool_percentage := 1000;
  mining_pool_percentage := 2500;
  interest_pool_percentage := 6500;
  burn_fee_percentage := 1000;
  coinbase_years := 25;
  min_acc_creation_fee := 50000;
  base_fee := 10000;
  base_fee_usd := 10000;
  base_fee_eur := 8000;
  base_fee_chf := 10000;
  base_fee_cny := 64000;
  base_fee_gbp := 7500;
  gen_symbol := SOPHIATX_SYMBOL_U64;
  limit_bandwidth_blocks := 51;
  max_allowed_bandwidth := 51000;
  max_allowed_ops := 102;
  initial_chain_id := 0;
  genesis_time := SOPHIATX_GENESIS_TIME;
  is_private_net := false;
  initial_accounts := [] |}.

(** ** get_config.hpp: the entries of the configuration the chain code reads.
    The class makes the configuration an implicit argument of every definition
    that calls [sophiatx_config::get]. *)
Class sophiatx_config := SophiatxConfig {
  SOPHIATX_MIN_FEEDS : Z;
  SOPHIATX_CHAIN_ID : Z;
  SOPHIATX_INIT_PUBLIC_MINING_KEY : public_key_type;
  SOPHIATX_MIN_ACCOUNT_CREATION_FEE : Z;
  SOPHIATX_INIT_SUPPLY : Z;
  SOPHIATX_TOTAL_SUPPLY : Z;
  SOPHIATX_BLOCK_INTERVAL : Z;
  SOPHIATX_BLOCKS_PER_DAY : Z;
  SOPHIATX_BLOCKS_PER_HOUR : Z;
  SOPHIATX_START_MINER_VOTING_BLOCK : Z;
  SOPHIATX_PROMOTION_POOL_PERCENTAGE : Z;
  SOPHIATX_MINING_POOL_PERCENTAGE : Z;
  SOPHIATX_INTEREST_POOL_PERCENTAGE : Z;
  SOPHIATX_BURN_FEE_PERCENTAGE : Z;
  SOPHIATX_INTEREST_FEES_TIME : Z;
  SOPHIATX_INTEREST_DELAY : Z;
  SOPHIATX_COINBASE_BLOCKS : Z;
  SOPHIATX_FINAL_WITNESS_REQUIRED_VESTING_BALANCE : Z;
  SOPHIATX_INITIAL_WITNESS_REQUIRED_VESTING_BALANCE : Z;
  SOPHIATX_WITNESS_VESTING_INCREASE_DAYS_HF : Z;
  SOPHIATX_SYMBOL : Z;
  BASE_FEE : asset;
  BASE_FEE_SBD1 : asset;
  BASE_FEE_SBD2 : asset;
  BASE_FEE_SBD3 : asset;
  BASE_FEE_SBD4 : asset;
  BASE_FEE_SBD5 : asset;
  SOPHIATX_MAX_WITNESSES : Z;
  SOPHIATX_MAX_VOTED_WITNESSES_HF0 : Z;
  SOPHIATX_MAX_RUNNER_WITNESSES_HF0 : Z;
  SOPHIATX_HARDFORK_REQUIRED_WITNESSES : Z;
  SOPHIATX_MAX_ACCOUNT_WITNESS_VOTES : Z;
  SOPHIATX_LIMIT_BANDWIDTH_BLOCKS : Z;
  SOPHIATX_MAX_ALLOWED_BANDWIDTH : Z;
  SOPHIATX_MAX_ALLOWED_OPS_COUNT : Z;
  SOPHIATX_MAX_TRANSACTION_SIZE : Z;
  SOPHIATX_MIN_BLOCK_SIZE_LIMIT : Z;
  SOPHIATX_MAX_BLOCK_SIZE : Z }.

(** [sophiatx_config::init( genesis )]; a zero block interval divides by zero. *)
Definition init_config (g : genesis_state_type) : sophiatx_config := {|
  SOPHIATX_MIN_FEEDS := max_witnesses g / 10;
  SOPHIATX_CHAIN_ID := initial_chain_id g;
  SOPHIATX_INIT_PUBLIC_MINING_KEY := initial_public_mining_key g;
  SOPHIATX_MIN_ACCOUNT_CREATION_FEE := min_acc_creation_fee g;
  SOPHIATX_INIT_SUPPLY := initial_supply g;
  SOPHIATX_TOTAL_SUPPLY := total_supply g;
  SOPHIATX_BLOCK_INTERVAL := block_interval g;
  SOPHIATX_BLOCKS_PER_DAY := 24*60*60 / block_interval g;
  SOPHIATX_BLOCKS_PER_HOUR := 60*60 / block_interval g;
  SOPHIATX_START_MINER_VOTING_BLOCK := u32 (24*60*60 / block_interval g * 7);
  SOPHIATX_PROMOTION_POOL_PERCENTAGE := promotion_pool_percentage g;
  SOPHIATX_MINING_POOL_PERCENTAGE := mining_pool_percentage g;
  SOPHIATX_INTEREST_POOL_PERCENTAGE := interest_pool_percentage g;
  SOPHIATX_BURN_FEE_PERCENTAGE := burn_fee_percentage g;
  SOPHIATX_INTEREST_FEES_TIME := 24*60*60 / block_interval g;
  SOPHIATX_INTEREST_DELAY := 24*60*60 / block_interval g;
  SOPHIATX_COINBASE_BLOCKS := u32 (365*24*60*60 / block_interval g * coinbase_years g);
  SOPHIATX_FINAL_WITNESS_REQUIRED_VESTING_BALANCE := final_witness_req_vesting_balance g;
  SOPHIATX_INITIAL_WITNESS_REQUIRED_VESTING_BALANCE := initial_witness_req_vesting_balance g;
  SOPHIATX_WITNESS_VESTING_INCREASE_DAYS_HF := witness_vesting_increase_days g;
  SOPHIATX_SYMBOL := gen_symbol g;
  BASE_FEE := Asset (base_fee g) (gen_symbol g);
  BASE_FEE_SBD1 := Asset (base_fee_usd g) SBD1_SYMBOL;
  BASE_FEE_SBD2 := Asset (base_fee_eur g) SBD2_SYMBOL;
  BASE_FEE_SBD3 := Asset (base_fee_chf g) SBD3_SYMBOL;
  BASE_FEE_SBD4 := Asset (base_fee_cny g) SBD4_SYMBOL;
  BASE_FEE_SBD5 := Asset (base_fee_gbp g) SBD5_SYMBOL;
  SOPHIATX_MAX_WITNESSES := max_witnesses g;
  SOPHIATX_MAX_VOTED_WITNESSES_HF0 := max_voted_witnesses g;
  SOPHIATX_MAX_RUNNER_WITNESSES_HF0 := max_runner_witnesses g;
  SOPHIATX_HARDFORK_REQUIRED_WITNESSES := hardfork_req_witnesses g;
  SOPHIATX_MAX_ACCOUNT_WITNESS_VOTES := max_account_witness_votes g;
  SOPHIATX_LIMIT_BANDWIDTH_BLOCKS := limit_bandwidth_blocks g;
  SOPHIATX_MAX_ALLOWED_BANDWIDTH := max_allowed_bandwidth g;
  SOPHIATX_MAX_ALLOWED_OPS_COUNT := max_allowed_ops g;
  SOPHIATX_MAX_TRANSACTION_SIZE := max_transaction_size g;
  SOPHIATX_MIN_BLOCK_SIZE_LIMIT := u32 (max_transaction_size g * 16);
  SOPHIATX_MAX_BLOCK_SIZE := u32 (u32 (max_transaction_size g * block_interval g) * max_block_size g) |}.

Definition mainnet : sophiatx_config := Eval vm_compute in init_config default_genesis.

(** What the theorems need of a configuration: a sane genesis file. *)
Definition config_ok `{cfg : sophiatx_config} : Prop :=
  SOPHIATX_SYMBOL = SOPHIATX_SYMBOL_U64 /\
  0 < SOPHIATX_COINBASE_BLOCKS /\ SOPHIATX_INTEREST_BLOCKS <= SOPHIATX_INTEREST_FEES_TIME /\
  0 < SOPHIATX_BLOCK_INTERVAL /\ 0 < SOPHIATX_BLOCKS_PER_DAY < 2^29 /\
  0 <= SOPHIATX_BURN_FEE_PERCENTAGE <= SOPHIATX_100_PERCENT /\
  0 <= SOPHIATX_MINING_POOL_PERCENTAGE /\ 0 <= SOPHIATX_PROMOTION_POOL_PERCENTAGE /\
  SOPHIATX_MINING_POOL_PERCENTAGE + SOPHIATX_PROMOTION_POOL_PERCENTAGE <= SOPHIATX_100_PERCENT.
Lemma mainnet_ok : config_ok (cfg := mainnet).
Proof. unfold config_ok. vm_compute. repeat split; congruence. Qed.

(** ** Code the chain calls and this development takes as a parameter: OpenSSL's
    RIPEMD-160. *)
Class externals := Externals {
  ripemd160_hash : list Z -> list Z }.
