(* ===== verification/AssetText.v ===== *)
(** * AssetText: assets as text ([asset::to_string] and [asset::from_string] of
    [protocol/asset.cpp]).

    The text is read through a double, so the amount that comes back is exact only
    because the roundings stay below half a unit for the amounts that are allowed. *)
From Stdlib Require Import String Ascii.
From stdpp Require Import pretty.
From S2P Require Import Prelude Safe Names Asset Double Version Config.
Local Open Scope Z_scope.
Local Open Scope list_scope.

Definition SOPHIATX_MAX_SHARE_SUPPLY : Z := 1000000000000000.

(** [isspace] *)
Definition is_space (c : Z) : bool := (c =? 32) || ((9 <=? c) && (c <=? 13)).
Fixpoint trim_left (s : list Z) : list Z :=
  match s with [] => [] | c :: s' => if is_space c then trim_left s' else s end.
Definition is_digit_char (c : Z) : Prop := 48 <= c <= 57.

(** Boost: [boost::lexical_cast<double>], the double of a text or none, and
    [boost::algorithm::trim_copy]. *)
Inductive lexical_value := finite (x : double) | not_finite.
Class lexical_cast := {
  lexical_cast_double : list Z -> option lexical_value;
  trim_copy : list Z -> list Z }.
(** Digits with a dot among them are converted to the nearest double; a text without
    spaces at its ends is not changed. *)
Class lexical_cast_laws `{lexical_cast} : Prop := {
  lexical_cast_decimal whole fract r : Forall is_digit_char whole -> Forall is_digit_char fract -> whole <> [] ->
    fract <> [] ->
    round_to_double false (number_of_digits (whole ++ fract)) (10 ^ Z.of_nat (length fract)) = Some r ->
    lexical_cast_double (whole ++ [46] ++ fract) = Some (finite r);
  trim_copy_none a s c : is_space a = false -> is_space c = false -> trim_copy (a :: s ++ [c]) = a :: s ++ [c] }.

(** [std::string::find] of one character. *)
Fixpoint find_char (c : Z) (s : list Z) : option nat :=
  match s with [] => None | x :: s => if x =? c then Some O else S <$> find_char c s end.
(** What a C string holds: everything before the first null character. *)
Fixpoint c_str (s : list Z) : list Z :=
  match s with [] => [] | c :: s => if c =? 0 then [] else c :: c_str s end.

Section from_string.
  Context `{lexical_cast}.

Definition asset_from_string (from : list Z) : res asset :=
  let s := trim_copy from in
  match find_char 32 s with
  | None => Throw assert_exception
  | Some space_pos =>
      match find_char 46 s with
      | Some dot_pos => fc_assert (u64 (Z.of_nat space_pos - Z.of_nat dot_pos - 1) <=? SOPHIATX_DECIMALS)
      | None => Ok tt
      end ;;
      let str_symbol := skipn (space_pos + 1) s in
      let numpart := firstn space_pos s in
      match lexical_cast_double (c_str numpart) with
      | None => Throw parse_error_exception
      | Some not_finite => Throw crash
      | Some (finite dvalue) =>
          match double_mul dvalue SOPHIATX_SATOSHIS with
          | None => Throw crash
          | Some product =>
              ivalue ← to_int64 (double_round product);
              fc_assert (ivalue >=? 0) ;;
              fc_assert (SOPHIATX_MAX_SHARE_SUPPLY >=? ivalue) ;;
              sym ← symbol_from_string (c_str str_symbol);
              Ok (Asset ivalue sym)
          end
      end
  end.
End from_string.

(** ** Decimal digits *)
Lemma bytes_of_string_cons c s : bytes_of_string (String c s) = Z.of_N (N_of_ascii c) :: bytes_of_string s.
Proof. reflexivity. Qed.
Lemma digit_of_pretty x : (x < 10)%N -> Z.of_N (N_of_ascii (pretty_N_char x)) = 48 + Z.of_N x.
Proof.
  intros H. assert (x = 0 ∨ x = 1 ∨ x = 2 ∨ x = 3 ∨ x = 4 ∨ x = 5 ∨ x = 6 ∨ x = 7 ∨ x = 8 ∨ x = 9)%N as Hx by lia.
  repeat destruct Hx as [->|Hx]; try reflexivity. by rewrite Hx.
Qed.
Lemma pretty_go_app x s : bytes_of_string (pretty_N_go x s) = bytes_of_string (pretty_N_go x "") ++ bytes_of_string s.
Proof.
  revert s. induction (N.lt_wf_0 x) as [x _ IH]; intros s. destruct (N.eq_dec x 0%N) as [->|Hx]; [done|].
  assert (x `div` 10 < x)%N by (apply N.div_lt; lia).
  rewrite (pretty_N_go_step x s), (pretty_N_go_step x "") by lia.
  rewrite (IH _ ltac:(done) (String _ s)), (IH _ ltac:(done) (String _ "")), bytes_of_string_cons.
  rewrite <- app_assoc. reflexivity.
Qed.
Lemma dec_string_small n : 0 <= n < 10 -> dec_string n = [48 + n].
Proof.
  intros H. unfold dec_string, pretty, pretty_N. destruct (decide (Z.to_N n = 0%N)).
  { assert (n = 0) as -> by lia. reflexivity. }
  rewrite pretty_N_go_step by lia. rewrite N.div_small, N.mod_small by lia. rewrite pretty_N_go_0.
  rewrite bytes_of_string_cons, digit_of_pretty by lia. rewrite Z2N.id by lia. reflexivity.
Qed.
Lemma dec_string_step n : 10 <= n -> dec_string n = dec_string (n / 10) ++ [48 + n mod 10].
Proof.
  intros Hn. assert (0 < n / 10) by (apply Z.div_str_pos; lia).
  unfold dec_string, pretty, pretty_N. rewrite !decide_False by lia.
  rewrite pretty_N_go_step by lia. rewrite pretty_go_app, bytes_of_string_cons.
  rewrite digit_of_pretty by (apply N.mod_lt; lia). rewrite N2Z.inj_mod, Z2N.id by lia.
  replace (Z.to_N (n / 10)) with (Z.to_N n `div` 10)%N by (rewrite Z2N.inj_div by lia; done). done.
Qed.

Lemma number_of_digits_app a b : number_of_digits (a ++ b) = number_of_digits a * 10^Z.of_nat (length b) + number_of_digits b.
Proof.
  unfold number_of_digits. rewrite foldl_app. generalize (foldl (fun n c => n * 10 + (c - 48)) 0 a). intros x.
  assert (H : forall y, foldl (fun n c => n * 10 + (c - 48)) y b = y * 10^Z.of_nat (length b) + foldl (fun n c => n * 10 + (c - 48)) 0 b).
  { induction b as [|c b IH]; intros y; cbn [foldl length]; [lia|]. rewrite IH, (IH (0 * 10 + _)).
    rewrite Nat2Z.inj_succ, Z.pow_succ_r by lia. lia. }
  apply H.
Qed.
Lemma dec_string_spec n : 0 <= n ->
  Forall is_digit_char (dec_string n) /\ number_of_digits (dec_string n) = n /\ dec_string n <> [].
Proof.
  intros Hn. pose proof Hn as Hn'. revert Hn'. pattern n. apply Z_lt_induction; [|done]. clear n Hn. intros n IH Hn.
  destruct (Z.lt_ge_cases n 10) as [Hlt|Hge].
  - rewrite dec_string_small by lia. split_and!; [|cbn; lia|done]. constructor; [unfold is_digit_char; lia|constructor].
  - rewrite dec_string_step by lia. pose proof (Z.div_mod n 10 ltac:(lia)). pose proof (Z.mod_pos_bound n 10 ltac:(lia)).
    destruct (IH (n / 10)) as (H1 & H2 & H3); [lia..|]. split_and!.
    + apply Forall_app. split; [done|]. constructor; [unfold is_digit_char; lia|constructor].
    + rewrite number_of_digits_app, H2. cbn. lia.
    + by destruct (dec_string (n / 10)).
Qed.

(** The digits after a leading one: [k] digits, with leading zeros. *)
Lemma dec_string_padded (k : nat) r : 0 <= r < 10^Z.of_nat k ->
  exists ds, dec_string (10^Z.of_nat k + r) = 49 :: ds /\ length ds = k /\ Forall is_digit_char ds /\ number_of_digits ds = r.
Proof.
  revert r. induction k as [|k IH]; intros r Hr.
  - cbn in Hr. assert (r = 0) as -> by lia. exists []. by split_and!.
  - rewrite Nat2Z.inj_succ, Z.pow_succ_r in * by lia. set (p := 10^Z.of_nat k) in *.
    assert (0 < p) by (apply Z.pow_pos_nonneg; lia).
    pose proof (Z.div_mod r 10 ltac:(lia)). pose proof (Z.mod_pos_bound r 10 ltac:(lia)).
    destruct (IH (r / 10)) as (ds & Hds & Hl & Hd & Hv); [split; [apply Z.div_pos|apply Z.div_lt_upper_bound]; lia|].
    rewrite dec_string_step by lia. replace (10 * p + r) with (p * 10 + r) by lia.
    assert (((p * 10 + r) mod 10) = r mod 10) as -> by (rewrite (Z.add_comm (p * 10)), Z.mod_add; lia).
    rewrite Z.div_add_l, Hds by lia. rewrite <- app_comm_cons.
    exists (ds ++ [48 + r mod 10]). split_and!; [done| | |].
    + rewrite length_app, Hl. cbn. lia.
    + apply Forall_app. split; [done|]. constructor; [unfold is_digit_char; lia|constructor].
    + rewrite number_of_digits_app, Hv. cbn. lia.
Qed.

(** ** The amounts that are allowed survive the doubles *)
Lemma double_round_near x z : dneg x = false -> 0 <= mant x -> 2 * Z.abs (num x - z * den x) < den x -> double_round x = z.
Proof.
  intros Hn Hm H. unfold double_round. rewrite Hn. pose proof (den_pos x) as Hd. revert H Hd.
  unfold num, den, in_units. intros H Hd.
  destruct (Z.leb_spec 0 (expo x)), (Z.leb_spec 0 (- expo x)); cbn [fst snd].
  - assert (expo x = 0) as E by lia. rewrite E in *. cbn in *. symmetry. apply (Z.div_unique_pos _ _ _ 1); lia.
  - rewrite Z.opp_involutive. set (p := 2^(expo x)) in *. symmetry. apply (Z.div_unique_pos _ _ _ 1); lia.
  - rewrite Z.mul_1_l. set (p := 2^(- expo x)) in *. symmetry.
    apply (Z.div_unique_pos _ _ _ (2 * (mant x - z * p) + p)); lia.
  - lia.
Qed.
Lemma mul_exact x k a b : 0 < k -> in_units (mant x * k) 1 (- expo x) = (a, b) -> 0 < b /\ a * den x = num x * k * b.
Proof.
  intros Hk E. unfold in_units, num, den in *. destruct (Z.leb_spec 0 (- expo x)); injection E as <- <-.
  - assert (0 < 2^(- expo x)) by (apply Z.pow_pos_nonneg; lia). split; [lia|].
    destruct (Z.leb_spec 0 (expo x)); [|lia]. assert (expo x = 0) as -> by lia. cbn. lia.
  - rewrite Z.opp_involutive. destruct (Z.leb_spec 0 (expo x)); lia.
Qed.

Lemma round_to_double_some neg n d : 0 < n -> Z.log2 n - Z.log2 d <= 1000 -> exists r, round_to_double neg n d = Some r.
Proof.
  intros Hn Hl. unfold round_to_double. destruct (Z.eqb_spec n 0); [lia|].
  assert (He : ulp_of n d < 971).
  { unfold ulp_of. destruct (in_units n d (Z.log2 n - Z.log2 d - 53)) as [a b]. destruct (2^53 <=? a / b); lia. }
  destruct (in_units n d (ulp_of n d)) as [a b]. destruct (Z.ltb_spec 971 (ulp_of n d)); [lia|].
  destruct (Z.eqb_spec (ulp_of n d) 971); [lia|]. by eexists.
Qed.

(** Two roundings by one part in [2^53] stay below half a unit. *)
Lemma two_roundings A K X D Y E : 0 < A <= 10^15 -> 0 < D -> 0 < E ->
  2^53 * Z.abs (X * K - A * D) <= A * D -> 2^53 * Z.abs (Y * D - X * K * E) <= X * K * E ->
  2 * Z.abs (Y - A * E) < E.
Proof.
  intros HA HD HE H1 H2. set (Q := X * K) in *. clearbody Q.
  assert (H1' : 2^53 * Z.abs (Q * E - A * D * E) <= A * D * E).
  { replace (Q * E - A * D * E) with ((Q - A * D) * E) by lia. rewrite Z.abs_mul, (Z.abs_eq E) by lia.
    set (t := Z.abs (Q - A * D)) in *. clearbody t. nia. }
  assert (HQ : Q * E <= 2 * (A * D * E)) by lia.
  assert (H3 : 2^53 * Z.abs (Y * D - A * D * E) <= 3 * (A * D * E)) by lia.
  replace (Y * D - A * D * E) with ((Y - A * E) * D) in H3 by lia. rewrite Z.abs_mul, (Z.abs_eq D) in H3 by lia.
  set (t := Z.abs (Y - A * E)) in *. clearbody t.
  assert (H4 : 2^53 * t <= 3 * (A * E)).
  { apply (Z.mul_le_mono_pos_r _ _ D); lia. }
  assert (H5 : A * E <= 10^15 * E) by (apply Z.mul_le_mono_nonneg_r; lia). lia.
Qed.

(** Reading [A / 10^6] and multiplying by [10^6] gives [A]: each rounding is off by one
    part in [2^53] at most. *)
Lemma amount_through_double A : 0 < A <= SOPHIATX_MAX_SHARE_SUPPLY ->
  exists x y, round_to_double false A (10^6) = Some x /\ double_mul x SOPHIATX_SATOSHIS = Some y /\
    double_round y = A.
Proof.
  intros HA. unfold SOPHIATX_MAX_SHARE_SUPPLY in HA. change 1000000000000000 with (10^15) in HA.
  assert (HlA : 0 <= Z.log2 A <= 50).
  { split; [apply Z.log2_nonneg|]. apply Z.lt_succ_r, Z.log2_lt_pow2; lia. }
  assert (Hl6 : Z.log2 (10^6) = 19) by reflexivity.
  destruct (round_to_double_some false A (10^6)) as [x Ex]; [lia..|].
  destruct (round_to_double_error false A (10^6) x ltac:(lia) ltac:(lia) ltac:(lia) Ex) as (Hnx & Hmx & H1).
  pose proof (den_pos x) as HD. unfold double_mul.
  destruct (in_units (mant x * SOPHIATX_SATOSHIS) 1 (- expo x)) as [a b] eqn:Eab.
  destruct (mul_exact x SOPHIATX_SATOSHIS a b ltac:(unfold SOPHIATX_SATOSHIS; lia) Eab) as [Hb Ha].
  change SOPHIATX_SATOSHIS with (10^6) in Ha.
  set (X := num x) in *. set (D := den x) in *. set (K := 10^6) in *. clearbody X D.
  assert (HXK : A * D <= 2 * (X * K) /\ X * K <= 2 * (A * D)) by lia.
  assert (Hab : A * b <= 2 * a /\ a <= 2 * (A * b)) by (split; nia).
  assert (Ha0 : 0 < a) by nia.
  assert (Hlog : Z.log2 b - 1 <= Z.log2 a /\ Z.log2 a <= Z.log2 b + 51).
  { split.
    - assert (Z.log2 b <= Z.log2 (2 * a)) by (apply Z.log2_le_mono; nia). rewrite Z.log2_double in * by lia. lia.
    - assert (Z.log2 a <= Z.log2 (b * 2^51)) by (apply Z.log2_le_mono; nia).
      rewrite Z.log2_mul_pow2 in * by lia. lia. }
  destruct (round_to_double_some (dneg x) a b) as [y Ey]; [lia..|].
  destruct (round_to_double_error (dneg x) a b y Ha0 Hb ltac:(lia) Ey) as (Hny & Hmy & H2).
  exists x, y. split; [exact Ex|]. split; [rewrite Eab; exact Ey|]. apply double_round_near; [congruence|done|].
  pose proof (den_pos y) as HE. set (Y := num y) in *. set (E := den y) in *. clearbody Y E.
  apply (two_roundings A K X D Y E); [done..|].
  assert (Hc : a * E * D = X * K * E * b) by (transitivity (a * D * E); [lia|rewrite Ha; lia]).
  assert (Hs : Z.abs (Y * b - a * E) * D = Z.abs (Y * D - X * K * E) * b).
  { rewrite <- (Z.abs_eq D) at 1 by lia. rewrite <- (Z.abs_eq b) at 2 by lia. rewrite <- !Z.abs_mul. f_equal. lia. }
  apply (Z.mul_le_mono_pos_r _ _ b); [done|]. rewrite <- Hc, <- Z.mul_assoc, <- Hs.
  set (t := Z.abs (Y * b - a * E)) in *. clearbody t. nia.
Qed.

(** ** The text of an asset *)
Lemma find_char_app c a b : Forall (fun x => x <> c) a -> find_char c (a ++ c :: b) = Some (length a).
Proof.
  induction 1 as [|x a Hx Ha IH]; cbn [app find_char length].
  - by rewrite Z.eqb_refl.
  - destruct (Z.eqb_spec x c); [done|]. by rewrite IH.
Qed.
Lemma trim_left_none s : match s with [] => True | c :: _ => is_space c = false end -> trim_left s = s.
Proof. destruct s as [|c s]; [done|]. cbn [trim_left]. by intros ->. Qed.
Lemma c_str_none s : Forall (fun c => c <> 0) s -> c_str s = s.
Proof. induction 1 as [|c s Hc Hs IH]; [done|]. cbn [c_str]. destruct (Z.eqb_spec c 0); [done|]. by rewrite IH. Qed.

(** The characters of a symbol: plain ones, no space. *)
Definition symbol_char (c : Z) : Prop := 32 < c < 128.
Lemma symbol_char_plain c : symbol_char c -> is_space c = false /\ c <> 0.
Proof.
  unfold symbol_char, is_space. intros H. split; [|lia].
  destruct (Z.eqb_spec c 32), (Z.leb_spec 9 c), (Z.leb_spec c 13); cbn; lia.
Qed.
Lemma digit_plain c : is_digit_char c -> is_space c = false /\ c <> 0 /\ c <> 32 /\ c <> 46.
Proof.
  unfold is_digit_char, is_space. intros H. split_and!; [|lia..].
  destruct (Z.eqb_spec c 32), (Z.leb_spec 9 c), (Z.leb_spec c 13); cbn; lia.
Qed.

Section text.
  Context `{lexical_cast_laws}.

Lemma asset_from_string_spec whole fract cs A x y :
  Forall is_digit_char whole -> whole <> [] -> Forall is_digit_char fract -> length fract = 6%nat ->
  Forall symbol_char cs -> (3 <= length cs <= 6)%nat ->
  number_of_digits (whole ++ fract) = A -> 0 <= A <= SOPHIATX_MAX_SHARE_SUPPLY ->
  round_to_double false A (10^6) = Some x -> double_mul x SOPHIATX_SATOSHIS = Some y -> double_round y = A ->
  asset_from_string (whole ++ [46] ++ fract ++ [32] ++ cs) = Ok (Asset A (pack_symbol cs)).
Proof.
  intros Hw Hwne Hf Hfl Hcs Hlen HA Hmax Hx Hy Hr.
  assert (Hnum : Forall (fun c => c <> 32) (whole ++ [46] ++ fract) /\ Forall (fun c => c <> 46) whole
    /\ Forall (fun c => c <> 0) (whole ++ [46] ++ fract)).
  { rewrite !Forall_app, !Forall_singleton. split_and!; try lia; eapply Forall_impl; eauto;
      intros c Hc%digit_plain; tauto. }
  destruct Hnum as (H32 & H46 & Hnz).
  assert (Htrim : trim_copy (whole ++ [46] ++ fract ++ [32] ++ cs) = whole ++ [46] ++ fract ++ [32] ++ cs).
  { destruct whole as [|w whole]; [done|]. apply Forall_cons_1 in Hw as [Hw _].
    destruct (exists_last (l := cs)) as (cs' & c & ->); [intros ->; cbn in Hlen; lia|]. apply Forall_app in Hcs as [_ Hc].
    apply Forall_cons_1 in Hc as [Hc _].
    replace ((w :: whole) ++ [46] ++ fract ++ [32] ++ cs' ++ [c]) with (w :: (whole ++ [46] ++ fract ++ [32] ++ cs') ++ [c])
      by (by rewrite <- !app_assoc).
    apply trim_copy_none; [by apply digit_plain|by apply symbol_char_plain]. }
  unfold asset_from_string. rewrite Htrim.
  assert (Hsplit : whole ++ [46] ++ fract ++ [32] ++ cs = (whole ++ [46] ++ fract) ++ 32 :: cs) by (by rewrite <- !app_assoc).
  rewrite Hsplit, (find_char_app 32) by done. rewrite <- Hsplit at 1. cbn [app] in *. rewrite (find_char_app 46) by done.
  rewrite length_app. cbn [length]. rewrite Hfl.
  replace (Z.of_nat (length whole + 7) - Z.of_nat (length whole) - 1) with 6 by lia. cbn [SOPHIATX_DECIMALS u64].
  change (fc_assert (u64 6 <=? SOPHIATX_DECIMALS)) with (Ok tt : res unit). cbn [mbind res_bind].
  assert (Hlen7 : length (whole ++ 46 :: fract) = (length whole + 7)%nat) by (rewrite length_app; cbn; lia).
  rewrite <- Hlen7, take_app_length, c_str_none by done.
  rewrite (lexical_cast_decimal whole fract x); [|done|done|done|by destruct fract|by rewrite Hfl, HA].
  rewrite Hy, Hr. unfold to_int64, SOPHIATX_MAX_SHARE_SUPPLY in *.
  rewrite (proj2 (andb_true_iff _ _)); [|split; [apply Z.leb_le|apply Z.ltb_lt]; lia]. cbn [mbind res_bind].
  destruct (Z.geb_spec A 0); [|lia]. cbn. destruct (Z.geb_spec 1000000000000000 A); [|lia]. cbn.
  set (ws := whole ++ 46 :: fract) in *. rewrite drop_app_ge by lia.
  replace (length ws + 1 - length ws)%nat with 1%nat by lia. cbn [skipn drop]. rewrite ?drop_0.
  rewrite c_str_none; [|eapply Forall_impl; [done|]; intros c Hc; by apply symbol_char_plain].
  unfold symbol_from_string.
  rewrite (proj2 (andb_true_iff _ _)); [done|]. split; apply Z.leb_le; rewrite ?drop_0; lia.
Qed.

Lemma amount_through_double_0 : exists x y, round_to_double false 0 (10^6) = Some x /\
  double_mul x SOPHIATX_SATOSHIS = Some y /\ double_round y = 0.
Proof. by eexists _, _. Qed.

(** What [to_string] writes: the whole part, a dot and six digits, a space and the symbol. *)
Lemma asset_to_string_shape A cs : 0 <= A <= SOPHIATX_MAX_SHARE_SUPPLY -> Forall symbol_char cs -> (3 <= length cs <= 6)%nat ->
  exists whole fract, asset_to_string (Asset A (pack_symbol cs)) = whole ++ [46] ++ fract ++ [32] ++ cs /\
    Forall is_digit_char whole /\ whole <> [] /\ Forall is_digit_char fract /\ length fract = 6%nat /\
    number_of_digits (whole ++ fract) = A.
Proof.
  intros HA Hcs Hlen. unfold SOPHIATX_MAX_SHARE_SUPPLY in HA. unfold asset_to_string. cbn [amount symbol].
  assert (u64 A = A) as -> by (apply Z.mod_small; lia). unfold SOPHIATX_SATOSHIS. change 1000000 with (10^Z.of_nat 6).
  pose proof (Z.mod_pos_bound A (10^Z.of_nat 6) ltac:(lia)) as Hr.
  destruct (dec_string_padded 6 _ Hr) as (fract & -> & Hfl & Hf & Hv). cbn [tail].
  destruct (dec_string_spec (A / 10^Z.of_nat 6)) as (Hw & Hwv & Hwne); [apply Z.div_pos; lia|].
  unfold symbol_to_string. rewrite symbol_to_string_pack; [|eapply Forall_impl; [done|]; unfold symbol_char, valid_char; lia|lia|done].
  eexists _, fract. split; [reflexivity|]. split_and!; [done..|].
  rewrite number_of_digits_app, Hwv, Hv, Hfl. pose proof (Z.div_mod A (10^Z.of_nat 6) ltac:(lia)). lia.
Qed.
End text.
