(* ===== verification/Json.v ===== *)
(** * Json: the values of [fc::variant] and their text ([fc/src/io/json.cpp],
    [fc/src/variant.cpp]).

    The parser is the default one ([legacy_parser]): it reads a character stream and
    throws [eof_exception] where the stream ends.  Its recursion is bounded by fuel, and
    a result says when the fuel is used up: on some texts the program does not stop. *)
From Stdlib Require Import String.
From S2P Require Import Prelude Names Asset Double AssetText.
Local Open Scope Z_scope.
Local Open Scope list_scope.

(** ** variant *)
Inductive variant :=
  | v_null
  | v_int64 (i : Z)
  | v_uint64 (i : Z)
  | v_double (x : double)
  | v_bool (b : bool)
  | v_string (s : list Z)
  | v_array (l : list variant)
  | v_object (l : list (list Z * variant)).
Definition entry : Type := list Z * variant.

Definition dec_of_int (i : Z) : list Z := if i <? 0 then 45 :: dec_string (- i) else dec_string i.
Definition true_text : list Z := bytes_of_string "true".
Definition false_text : list Z := bytes_of_string "false".
Definition null_text : list Z := bytes_of_string "null".

(** [std::stoull] and [std::stoll] of digits, after a sign. *)
Definition all_digits (s : list Z) : bool := forallb (fun c => (48 <=? c) && (c <=? 57)) s.
Fixpoint leading_digits (s : list Z) : list Z :=
  match s with c :: s => if (48 <=? c) && (c <=? 57) then c :: leading_digits s else [] | [] => [] end.
Definition signed_text (s : list Z) : bool * list Z :=
  match trim_left s with
  | 45 :: s => (true, leading_digits s)
  | 43 :: s => (false, leading_digits s)
  | s => (false, leading_digits s)
  end.
Definition stoull (s : list Z) : res Z :=
  match signed_text s with
  | (_, []) => Throw invalid_argument
  | (neg, ds) => let n := number_of_digits ds in
      if n <? 2^64 then Ok (if neg then u64 (- n) else n) else Throw out_of_range
  end.
Definition stoll (s : list Z) : res Z :=
  match signed_text s with
  | (_, []) => Throw invalid_argument
  | (neg, ds) => let n := if neg then - number_of_digits ds else number_of_digits ds in
      if (- 2^63 <=? n) && (n <? 2^63) then Ok n else Throw out_of_range
  end.

Definition as_string (v : variant) : res (list Z) :=
  match v with
  | v_string s => Ok s
  | v_double x => Ok (double_to_string x)
  | v_int64 i | v_uint64 i => Ok (dec_of_int i)
  | v_bool b => Ok (if b then true_text else false_text)
  | v_null => Ok []
  | v_array _ | v_object _ => Throw bad_cast_exception
  end.
(** A variant holds its integers in 64 bits. *)
Definition as_uint64 (v : variant) : res Z :=
  match v with
  | v_string s => stoull s
  | v_double x => to_uint64 (double_trunc x)
  | v_int64 i | v_uint64 i => Ok (u64 i)
  | v_bool b => Ok (if b then 1 else 0)
  | v_null => Ok 0
  | v_array _ | v_object _ => Throw bad_cast_exception
  end.
Definition as_int64 (v : variant) : res Z :=
  match v with
  | v_string s => stoll s
  | v_double x => to_int64 (double_trunc x)
  | v_int64 i | v_uint64 i => Ok (i64 i)
  | v_bool b => Ok (if b then 1 else 0)
  | v_null => Ok 0
  | v_array _ | v_object _ => Throw bad_cast_exception
  end.
Definition get_object (v : variant) : res (list entry) :=
  match v with v_object l => Ok l | _ => Throw bad_cast_exception end.

(** [variant_object::find]: the first entry with the key; keys are C strings there. *)
Definition same_key (key : list Z) (e : entry) : bool := bool_decide (fst e = c_str key).
Definition find_entry (key : list Z) (l : list entry) : option variant := snd <$> List.find (same_key key) l.
Definition contains (key : list Z) (l : list entry) : bool :=
  match find_entry key l with Some _ => true | None => false end.
(** [variant::operator[]] *)
Definition at_key (key : list Z) (v : variant) : res variant :=
  l ← get_object v; match find_entry key l with Some x => Ok x | None => Throw key_not_found_exception end.

(** ** The parser *)
Inductive outcome (A : Type) := Parsed (a : A) (rest : list Z) | Failed (e : exn) | Endless.
Arguments Parsed {A}. Arguments Failed {A}. Arguments Endless {A}.
Definition obind {A B} (o : outcome A) (k : A -> list Z -> outcome B) : outcome B :=
  match o with Parsed a rest => k a rest | Failed e => Failed e | Endless => Endless end.
Definition of_res {A} (r : res A) (rest : list Z) : outcome A :=
  match r with Ok a => Parsed a rest | Throw e => Failed e end.

Definition is_json_space (c : Z) : bool := (c =? 32) || (c =? 9) || (c =? 10) || (c =? 13).
Definition is_digit_b (c : Z) : bool := (48 <=? c) && (c <=? 57).
Definition isalnum (c : Z) : bool :=
  is_digit_b c || ((65 <=? c) && (c <=? 90)) || ((97 <=? c) && (c <=? 122)).

(** Whether anything was skipped. *)
Fixpoint skip_from (skipped : bool) (s : list Z) : outcome bool :=
  match s with
  | [] => Failed eof_exception
  | c :: s' => if is_json_space c then skip_from true s' else Parsed skipped s
  end.
Definition skip_white_space (s : list Z) : outcome bool := skip_from false s.

(** The character after a backslash. *)
Definition parseEscape (c : Z) : Z :=
  if c =? 116 then 9 else if c =? 110 then 10 else if c =? 114 then 13 else if c =? 92 then 92 else c.

(** The characters up to the closing quote. *)
Fixpoint string_body (s : list Z) : outcome (list Z) :=
  match s with
  | [] => Failed eof_exception
  | c :: s' =>
      if c =? 92 then
        match s' with
        | [] => Failed eof_exception
        | d :: s'' => obind (string_body s'') (fun t rest => Parsed (parseEscape d :: t) rest)
        end
      else if c =? 4 then Failed parse_error_exception
      else if c =? 34 then Parsed [] s'
      else obind (string_body s') (fun t rest => Parsed (c :: t) rest)
  end.
Definition stringFromStream (s : list Z) : outcome (list Z) :=
  match s with
  | [] => Failed eof_exception
  | c :: s' => if c =? 34 then string_body s' else Failed parse_error_exception
  end.

Definition is_token_char (c : Z) : bool :=
  isalnum c || (c =? 95) || (c =? 45) || (c =? 46) || (c =? 58) || (c =? 47).
(** The end of the stream ends the token. *)
Fixpoint stringFromToken (s : list Z) : list Z * list Z :=
  match s with
  | [] => ([], [])
  | c :: s' =>
      if c =? 92 then
        match s' with
        | [] => ([], [])
        | d :: s'' => let '(t, rest) := stringFromToken s'' in (parseEscape d :: t, rest)
        end
      else if (c =? 9) || (c =? 32) || (c =? 0) || (c =? 10) then ([], s')
      else if is_token_char c then let '(t, rest) := stringFromToken s' in (c :: t, rest)
      else ([], s)
  end.

(** Digits and at most one dot. *)
Fixpoint number_text (dot : bool) (s : list Z) : outcome (list Z * bool) :=
  match s with
  | [] => Parsed ([], dot) []
  | c :: s' =>
      if c =? 46 then
        if dot then Failed parse_error_exception
        else obind (number_text true s') (fun '(t, dot) rest => Parsed (c :: t, dot) rest)
      else if is_digit_b c then obind (number_text dot s') (fun '(t, dot) rest => Parsed (c :: t, dot) rest)
      else Parsed ([], dot) s
  end.
Definition number_of_text (neg dot : bool) (str : list Z) : res variant :=
  if bool_decide (str = [45; 46]) || bool_decide (str = [46]) then Throw parse_error_exception
  else if dot then x ← stod str; Ok (v_double x)
  else if neg then i ← stoll str; Ok (v_int64 i)
  else i ← stoull str; Ok (v_uint64 i).
Definition number_from_stream (s : list Z) : outcome variant :=
  let '(neg, s) := match s with c :: s' => if c =? 45 then (true, s') else (false, s) | [] => (false, s) end in
  obind (number_text false s) (fun '(t, dot) rest =>
    let str := if neg then 45 :: t else t in
    match rest with
    | c :: _ => if isalnum c then let '(t', rest) := stringFromToken rest in Parsed (v_string (str ++ t')) rest
                else of_res (number_of_text neg dot str) rest
    | [] => of_res (number_of_text neg dot str) rest
    end).

Definition is_constant_char (c : Z) : bool :=
  bool_decide (c ∈ [110; 117; 108; 116; 114; 101; 102; 97; 115]).
Fixpoint constant_text (s : list Z) : list Z * list Z :=
  match s with
  | [] => ([], [])
  | c :: s' => if is_constant_char c then let '(t, rest) := constant_text s' in (c :: t, rest) else ([], s)
  end.
(** Anything that is not one of the three constants is an unquoted string. *)
Definition token_from_stream (s : list Z) : outcome variant :=
  let '(str, rest) := constant_text s in
  if bool_decide (str = null_text) then Parsed v_null rest
  else if bool_decide (str = true_text) then Parsed (v_bool true) rest
  else if bool_decide (str = false_text) then Parsed (v_bool false) rest
  else match rest with
       | [] => match str with [] => Failed parse_error_exception | _ => Parsed (v_string str) rest end
       | _ => let '(t, rest) := stringFromToken rest in Parsed (v_string (str ++ t)) rest
       end.

(** In an object the end of the stream is a parse error. *)
Definition eof_is_error {A} (o : outcome A) : outcome A :=
  match o with Failed eof_exception => Failed parse_error_exception | _ => o end.

Fixpoint variant_from_stream (fuel : nat) (s : list Z) : outcome variant :=
  match fuel with
  | O => Endless
  | S fuel =>
      obind (skip_white_space s) (fun _ s =>
        match s with
        | [] => Failed eof_exception
        | c :: s' =>
            if c =? 34 then obind (stringFromStream s) (fun t rest => Parsed (v_string t) rest)
            else if c =? 123 then
              eof_is_error (obind (skip_white_space s') (fun _ s =>
                obind (object_loop fuel s) (fun l rest => Parsed (v_object l) rest)))
            else if c =? 91 then
              obind (skip_white_space s') (fun _ s =>
                obind (array_loop fuel s) (fun l rest => Parsed (v_array l) rest))
            else if (c =? 45) || (c =? 46) || is_digit_b c then number_from_stream s
            else if (c =? 110) || (c =? 116) || (c =? 102) then token_from_stream s
            else if (c =? 4) || (c =? 255) then Failed eof_exception
            else if c =? 0 then Parsed v_null s
            else Failed parse_error_exception
        end)
  end
(** The entries up to the closing brace, which is read. *)
with object_loop (fuel : nat) (s : list Z) : outcome (list entry) :=
  match fuel with
  | O => Endless
  | S fuel =>
      match s with
      | [] => Failed eof_exception
      | c :: s' =>
          if c =? 125 then Parsed [] s'
          else if c =? 44 then object_loop fuel s'
          else
            obind (skip_white_space s) (fun skipped s =>
              if (skipped : bool) then object_loop fuel s
              else
                obind (stringFromStream s) (fun key s =>
                obind (skip_white_space s) (fun _ s =>
                  match s with
                  | [] => Failed eof_exception
                  | c :: s' =>
                      if c =? 58 then
                        obind (variant_from_stream fuel s') (fun val s =>
                        obind (skip_white_space s) (fun _ s =>
                        obind (object_loop fuel s) (fun l rest => Parsed ((key, val) :: l) rest)))
                      else Failed parse_error_exception
                  end)))
      end
  end
with array_loop (fuel : nat) (s : list Z) : outcome (list variant) :=
  match fuel with
  | O => Endless
  | S fuel =>
      match s with
      | [] => Failed eof_exception
      | c :: s' =>
          if c =? 93 then Parsed [] s'
          else if c =? 44 then array_loop fuel s'
          else
            obind (skip_white_space s) (fun skipped s =>
              if (skipped : bool) then array_loop fuel s
              else
                obind (variant_from_stream fuel s) (fun val s =>
                obind (skip_white_space s) (fun _ s =>
                obind (array_loop fuel s) (fun l rest => Parsed (val :: l) rest))))
      end
  end.

(** ** [json::from_string] and [json::is_valid] *)
Definition brackets (c : Z) (depth : Z * Z) : Z * Z :=
  let '(o, a) := depth in
  if c =? 123 then (o + 1, a) else if c =? 125 then (o - 1, a)
  else if c =? 91 then (o, a + 1) else if c =? 93 then (o, a - 1) else depth.
Fixpoint check_depth_from (depth : Z * Z) (s : list Z) : bool :=
  match s with
  | [] => true
  | c :: s => let depth := brackets c depth in (fst depth <? 100) && (snd depth <? 100) && check_depth_from depth s
  end.
Definition check_string_depth (s : list Z) : bool := check_depth_from (0, 0) s.

(** What follows the value is not looked at. *)
Definition from_string (fuel : nat) (s : list Z) : outcome variant :=
  if check_string_depth s then variant_from_stream fuel s else Failed assert_exception.
(** The value must be the whole text; a text that does not start with a value throws. *)
Definition is_valid (fuel : nat) (s : list Z) : outcome bool :=
  match s with
  | [] => Parsed false []
  | _ => obind (variant_from_stream fuel s) (fun _ rest => Parsed (match rest with [] => true | _ => false end) rest)
  end.

(** As the validators call it; a text whose reading does not end never gets an answer. *)
Definition json_is_valid (s : list Z) : res bool :=
  match is_valid (S (2 * length s)) s with Parsed b _ => Ok b | Failed e => Throw e | Endless => Throw crash end.

(** ** The printer *)
Definition hex_digit (n : Z) : Z := if n <? 10 then 48 + n else 87 + n.
Definition escape_char (c : Z) : list Z :=
  if c =? 8 then [92; 98]
  else if c =? 12 then [92; 102]
  else if c =? 10 then [92; 110]
  else if c =? 13 then [92; 114]
  else if c =? 9 then [92; 116]
  else if c =? 92 then [92; 92]
  else if c =? 34 then [92; 34]
  else if c <? 32 then [92; 117; 48; 48; hex_digit (c / 16); hex_digit (c mod 16)]
  else [c].
Definition escape_string (s : list Z) : list Z := [34] ++ flat_map escape_char s ++ [34].

(** [output_formatting]: large integers and doubles become strings, or nothing does. *)
Inductive output_formatting := stringify_large_ints_and_doubles | legacy_generator.
Definition stringifies (f : output_formatting) : bool :=
  match f with stringify_large_ints_and_doubles => true | legacy_generator => false end.
Definition int_to_stream (f : output_formatting) (i : Z) : list Z :=
  if stringifies f && (i >? 4294967295) then [34] ++ dec_of_int i ++ [34] else dec_of_int i.
Definition separated (l : list (list Z)) : list Z :=
  match l with [] => [] | x :: l => x ++ flat_map (fun y => 44 :: y) l end.
Fixpoint to_stream (f : output_formatting) (v : variant) : list Z :=
  match v with
  | v_null => null_text
  | v_int64 i | v_uint64 i => int_to_stream f i
  | v_double x => if stringifies f then [34] ++ double_to_string x ++ [34] else double_to_string x
  | v_bool b => if b then true_text else false_text
  | v_string s => escape_string s
  | v_array l => [91] ++ separated (map (to_stream f) l) ++ [93]
  | v_object l => [123] ++ separated (map (fun e => escape_string (fst e) ++ [58] ++ to_stream f (snd e)) l) ++ [125]
  end.
Definition to_string (f : output_formatting) (v : variant) : list Z := to_stream f v.

(** ** More fuel changes nothing *)
Lemma obind_Parsed {A B} (o : outcome A) (k : A -> list Z -> outcome B) b rest :
  obind o k = Parsed b rest <-> exists a s, o = Parsed a s /\ k a s = Parsed b rest.
Proof. destruct o; cbn; naive_solver. Qed.

(** What a reader leaves is a suffix of what it was given. *)
Definition suffix_of (rest s : list Z) : Prop := exists l, s = l ++ rest.
Lemma suffix_refl s : suffix_of s s.
Proof. by exists []. Qed.
Lemma suffix_cons c s t : suffix_of s t -> suffix_of s (c :: t).
Proof. intros [l ->]. by exists (c :: l). Qed.
Lemma suffix_trans a b c : suffix_of a b -> suffix_of b c -> suffix_of a c.
Proof. intros [l ->] [m ->]. exists (m ++ l). by rewrite app_assoc. Qed.
Lemma suffix_length a b : suffix_of a b -> (length a <= length b)%nat.
Proof. intros [l ->]. rewrite length_app. lia. Qed.
Lemma suffix_nil_inv s : suffix_of s [] -> s = [].
Proof. intros [l H]. by destruct l, s. Qed.

Definition leaves_suffix {A} (o : outcome A) (s : list Z) : Prop :=
  match o with Parsed _ rest => suffix_of rest s | Failed _ => True | Endless => False end.
Definition progress {A} (o : outcome A) (s : list Z) : Prop :=
  match o with Parsed _ rest => suffix_of rest s /\ (length rest < length s)%nat | Failed _ => True | Endless => False end.

Lemma leaves_suffix_obind {A B} (o : outcome A) (k : A -> list Z -> outcome B) s :
  leaves_suffix o s -> (forall a rest, suffix_of rest s -> leaves_suffix (k a rest) s) -> leaves_suffix (obind o k) s.
Proof. destruct o; cbn; auto. Qed.
Lemma leaves_suffix_weaken {A} (o : outcome A) s t : leaves_suffix o s -> suffix_of s t -> leaves_suffix o t.
Proof. destruct o; cbn; [|done..]. intros H1 H2. by eapply suffix_trans. Qed.
Lemma leaves_suffix_cons {A} (o : outcome A) c s : leaves_suffix o s -> progress o (c :: s).
Proof. destruct o; cbn; [|done..]. intros H. split; [by apply suffix_cons|]. apply suffix_length in H. lia. Qed.

Lemma skip_from_suffix b s : leaves_suffix (skip_from b s) s.
Proof.
  revert b. induction s as [|c s IH]; intros b; cbn; [done|]. destruct (is_json_space c); [|apply suffix_refl].
  eapply leaves_suffix_weaken; [apply IH|]. apply suffix_cons, suffix_refl.
Qed.
Lemma string_body_suffix s : leaves_suffix (string_body s) s.
Proof.
  assert (H : forall n s, (length s <= n)%nat -> leaves_suffix (string_body s) s); [|by apply (H (length s))].
  clear s. induction n as [|n IH]; intros [|c s] Hn; cbn in Hn; try lia; [done|done|]. cbn [string_body].
  destruct (c =? 92).
  - destruct s as [|d s]; [done|]. cbn in Hn. apply leaves_suffix_obind.
    + eapply leaves_suffix_weaken; [apply IH; lia|]. by do 2 apply suffix_cons; apply suffix_refl.
    + intros t rest Hr. exact Hr.
  - destruct (c =? 4); [done|]. destruct (c =? 34); [apply suffix_cons, suffix_refl|].
    apply leaves_suffix_obind; [|intros t rest Hr; exact Hr].
    eapply leaves_suffix_weaken; [apply IH; lia|]. apply suffix_cons, suffix_refl.
Qed.
Lemma stringFromStream_progress s : progress (stringFromStream s) s.
Proof.
  destruct s as [|c s]; [done|]. cbn [stringFromStream]. destruct (c =? 34); [|done].
  apply leaves_suffix_cons, string_body_suffix.
Qed.
Lemma stringFromToken_suffix s : suffix_of (snd (stringFromToken s)) s.
Proof.
  assert (H : forall n s, (length s <= n)%nat -> suffix_of (snd (stringFromToken s)) s); [|by apply (H (length s))].
  clear s. induction n as [|n IH]; intros [|c s] Hn; cbn in Hn; try lia; try apply suffix_refl. cbn [stringFromToken].
  destruct (c =? 92).
  - destruct s as [|d s]; [cbn; apply suffix_cons, suffix_refl|]. cbn in Hn. specialize (IH s ltac:(lia)).
    destruct (stringFromToken s) as [t rest]. by do 2 apply suffix_cons.
  - destruct (_ || _); [cbn; apply suffix_cons, suffix_refl|]. destruct (is_token_char c); [|apply suffix_refl].
    specialize (IH s ltac:(lia)). destruct (stringFromToken s) as [t rest]. by apply suffix_cons.
Qed.
Lemma number_text_suffix d s : leaves_suffix (number_text d s) s.
Proof.
  revert d. induction s as [|c s IH]; intros d; cbn [number_text]; [apply suffix_refl|].
  destruct (c =? 46).
  - destruct d; [done|]. apply leaves_suffix_obind; [|intros [t d] rest Hr; exact Hr].
    eapply leaves_suffix_weaken; [apply IH|]. apply suffix_cons, suffix_refl.
  - destruct (is_digit_b c); [|apply suffix_refl]. apply leaves_suffix_obind; [|intros [t d'] rest Hr; exact Hr].
    eapply leaves_suffix_weaken; [apply IH|]. apply suffix_cons, suffix_refl.
Qed.
(** The first character of a number is read. *)
Lemma number_text_progress d c s : (c =? 46) || is_digit_b c = true -> progress (number_text d (c :: s)) (c :: s).
Proof.
  intros Hc. cbn [number_text]. destruct (c =? 46).
  - destruct d; [done|]. pose proof (number_text_suffix true s) as H. destruct (number_text true s) as [[t d] rest|e|]; [|done..].
    by apply (leaves_suffix_cons (Parsed (c :: t, d) rest)).
  - cbn in Hc. rewrite Hc. pose proof (number_text_suffix d s) as H.
    destruct (number_text d s) as [[t d'] rest|e|]; [|done..]. by apply (leaves_suffix_cons (Parsed (c :: t, d') rest)).
Qed.
Definition number_end (neg : bool) : list Z * bool -> list Z -> outcome variant := fun '(t, dot) rest =>
  let str := if neg then 45 :: t else t in
  match rest with
  | c :: _ => if isalnum c then let '(t', rest) := stringFromToken rest in Parsed (v_string (str ++ t')) rest
              else of_res (number_of_text neg dot str) rest
  | [] => of_res (number_of_text neg dot str) rest
  end.
Lemma number_end_suffix neg a rest : leaves_suffix (number_end neg a rest) rest.
Proof.
  destruct a as [t dot]. unfold number_end.
  assert (Hres : forall str, leaves_suffix (of_res (number_of_text neg dot str) rest) rest).
  { intros str. destruct (number_of_text neg dot str); [apply suffix_refl|done]. }
  destruct rest as [|c rest]; [apply Hres|]. destruct (isalnum c); [|apply Hres].
  pose proof (stringFromToken_suffix (c :: rest)) as H. destruct (stringFromToken (c :: rest)) as [t' r]. exact H.
Qed.
Lemma number_from_stream_progress c s : (c =? 45) || (c =? 46) || is_digit_b c = true ->
  progress (number_from_stream (c :: s)) (c :: s).
Proof.
  intros Hc. unfold number_from_stream. destruct (c =? 45).
  - change (progress (obind (number_text false s) (number_end true)) (c :: s)). apply leaves_suffix_cons.
    apply leaves_suffix_obind; [apply number_text_suffix|]. intros a rest Hr.
    eapply leaves_suffix_weaken; [apply number_end_suffix|exact Hr].
  - change (progress (obind (number_text false (c :: s)) (number_end false)) (c :: s)).
    pose proof (number_text_progress false c s Hc) as H. destruct (number_text false (c :: s)) as [a rest|e|]; [|done..].
    cbn [obind]. destruct H as [H1 H2]. pose proof (number_end_suffix false a rest) as He.
    destruct (number_end false a rest) as [v r|e|]; [|done..]. split; [by eapply suffix_trans|].
    apply suffix_length in He. lia.
Qed.
Lemma constant_text_suffix s : suffix_of (snd (constant_text s)) s.
Proof.
  induction s as [|c s IH]; cbn [constant_text]; [apply suffix_refl|]. destruct (is_constant_char c); [|apply suffix_refl].
  destruct (constant_text s) as [t rest]. by apply suffix_cons.
Qed.
Lemma token_from_stream_progress c s : (c =? 110) || (c =? 116) || (c =? 102) = true ->
  progress (token_from_stream (c :: s)) (c :: s).
Proof.
  intros Hc. assert (Hk : is_constant_char c = true).
  { rewrite !orb_true_iff, !Z.eqb_eq in Hc. by destruct Hc as [[->| ->]| ->]. }
  unfold token_from_stream. cbn [constant_text]. rewrite Hk.
  pose proof (constant_text_suffix s) as H. destruct (constant_text s) as [t rest]. cbn [snd] in H.
  assert (Hp : forall v, progress (Parsed (A := variant) v rest) (c :: s)).
  { intros v. by apply (leaves_suffix_cons (Parsed v rest)). }
  repeat (case_bool_decide; [apply Hp|]). destruct rest as [|d rest]; [apply Hp|].
  pose proof (stringFromToken_suffix (d :: rest)) as Ht. destruct (stringFromToken (d :: rest)) as [t' r].
  apply (leaves_suffix_cons (Parsed (v_string ((c :: t) ++ t')) r)). by eapply suffix_trans.
Qed.

(** Without null characters every loop advances: the result is the same for all fuels
    beyond twice the length of the text, and one more for the loops. *)
Definition no_nul (s : list Z) : Prop := Forall (fun c => c <> 0) s.
Lemma no_nul_suffix s t : suffix_of s t -> no_nul t -> no_nul s.
Proof. intros [l ->] H. by apply Forall_app in H as [_ H]. Qed.
Definition settles {A} (k : nat) (p : nat -> list Z -> outcome A) (s : list Z) : Prop :=
  exists o, progress o s /\ forall fuel, (2 * length s + k < fuel)%nat -> p fuel s = o.

Lemma settles_step {A} k (p : nat -> list Z -> outcome A) s (step : nat -> outcome A) :
  (forall fuel, p (S fuel) s = step fuel) ->
  (exists o, progress o s /\ forall fuel, (2 * length s + k <= fuel)%nat -> step fuel = o) -> settles k p s.
Proof.
  intros Hp (o & Ho & H). exists o. split; [done|]. intros [|fuel] Hf; [lia|]. rewrite Hp. apply H. lia.
Qed.
Ltac settled := eexists; split; [|intros; cbn [obind]; reflexivity].
Lemma progress_weaken {A} (o : outcome A) s t : progress o s -> suffix_of s t -> progress o t.
Proof.
  destruct o; cbn; [|done..]. intros [H1 H2] H. split; [by eapply suffix_trans|]. apply suffix_length in H. lia.
Qed.
Lemma settles_weaken {A} k (p : nat -> list Z -> outcome A) s c t : (k <= 1)%nat -> settles k p s -> suffix_of s t ->
  exists o, progress o (c :: t) /\ forall fuel, (2 * length (c :: t) <= fuel)%nat -> p fuel s = o.
Proof.
  intros Hk (o & Ho & H) Hst. pose proof (suffix_length _ _ Hst). exists o. split.
  - eapply progress_weaken; [done|]. by apply suffix_cons.
  - intros f Hf. apply H. cbn in Hf. lia.
Qed.

Section settling.
  Variable n : nat.
  Hypothesis IHv : forall s, (length s < n)%nat -> no_nul s -> settles 0 variant_from_stream s.
  Hypothesis IHo : forall s, (length s < n)%nat -> no_nul s -> settles 1 object_loop s.
  Hypothesis IHa : forall s, (length s < n)%nat -> no_nul s -> settles 1 array_loop s.

Lemma progress_leaves {A} (o : outcome A) s : progress o s -> leaves_suffix o s.
Proof. destruct o; cbn; tauto. Qed.
Lemma map_progress {A B} (o : outcome A) (g : A -> B) s : progress o s -> progress (obind o (fun a rest => Parsed (g a) rest)) s.
Proof. by destruct o. Qed.

(** Skip white space, run a loop on what follows, wrap its result. *)
Lemma bracket_settles {A} (p : nat -> list Z -> outcome A) (g : A -> variant) c s :
  (forall s, (length s < n)%nat -> no_nul s -> settles 1 p s) -> (length (c :: s) <= n)%nat -> no_nul (c :: s) ->
  exists o, progress o (c :: s) /\ forall fuel, (2 * length (c :: s) <= fuel)%nat ->
    obind (skip_white_space s) (fun _ s => obind (p fuel s) (fun l rest => Parsed (g l) rest)) = o.
Proof.
  intros IH Hn Hnul. pose proof (skip_from_suffix false s) as Hs. fold (skip_white_space s) in Hs.
  destruct (skip_white_space s) as [b s1|e|]; [|settled; done|done]. cbn [obind leaves_suffix] in *.
  pose proof (suffix_length _ _ Hs). cbn in Hn. apply Forall_cons_1 in Hnul as [_ Hnul].
  destruct (settles_weaken 1 p s1 c s ltac:(lia) (IH s1 ltac:(lia) (no_nul_suffix _ _ Hs Hnul)) Hs) as (o & Ho & Hp).
  exists (obind o (fun l rest => Parsed (g l) rest)). split; [by apply map_progress|]. intros f Hf. by rewrite Hp.
Qed.
Lemma eof_is_error_progress {A} (o : outcome A) s : progress o s -> progress (eof_is_error o) s.
Proof. by destruct o as [| []|]. Qed.

Lemma variant_settles s : (length s <= n)%nat -> no_nul s -> settles 0 variant_from_stream s.
Proof.
  intros Hn Hnul. eapply settles_step; [intros fuel; reflexivity|]. cbn [variant_from_stream].
  pose proof (skip_from_suffix false s) as Hs. fold (skip_white_space s) in Hs.
  destruct (skip_white_space s) as [b s1|e|]; [|settled; done|done]. cbn [obind leaves_suffix] in *.
  pose proof (suffix_length _ _ Hs) as Hl. pose proof (no_nul_suffix _ _ Hs Hnul) as Hnul1.
  assert (Hweak : forall step : nat -> outcome variant,
    (exists o, progress o s1 /\ forall fuel, (2 * length s1 <= fuel)%nat -> step fuel = o) ->
    exists o, progress o s /\ forall fuel, (2 * length s + 0 <= fuel)%nat -> step fuel = o).
  { intros step (o & Ho & H). exists o. split; [by eapply progress_weaken|]. intros f Hf. apply H. lia. }
  apply Hweak. clear Hweak. destruct s1 as [|c s']; [settled; done|].
  destruct (c =? 34); [settled; apply map_progress, stringFromStream_progress|].
  destruct (c =? 123).
  { destruct (bracket_settles object_loop v_object c s' IHo) as (o & Ho & H); [lia|done|].
    exists (eof_is_error o). split; [by apply eof_is_error_progress|]. intros f Hf. by rewrite H. }
  destruct (c =? 91); [apply (bracket_settles array_loop v_array c s' IHa); [lia|done]|].
  destruct ((c =? 45) || (c =? 46) || is_digit_b c) eqn:En; [settled; by apply number_from_stream_progress|].
  destruct ((c =? 110) || (c =? 116) || (c =? 102)) eqn:Et; [settled; by apply token_from_stream_progress|].
  destruct ((c =? 4) || (c =? 255)); [settled; done|].
  apply Forall_cons_1 in Hnul1 as [Hc _]. destruct (Z.eqb_spec c 0); [done|]. settled; done.
Qed.

(** Skip white space: either some was skipped, and the loop goes on with less, or the
    text is as it was. *)
Lemma skip_unchanged s rest : skip_white_space s = Parsed false rest -> rest = s.
Proof.
  unfold skip_white_space. destruct s as [|c s]; cbn [skip_from]; [done|]. destruct (is_json_space c).
  - intros H. exfalso. revert H. induction s as [|d s IH]; cbn [skip_from]; [done|]. by destruct (is_json_space d).
  - by intros [= <-].
Qed.
Lemma skip_changed s rest : skip_white_space s = Parsed true rest -> suffix_of rest s /\ (length rest < length s)%nat.
Proof.
  unfold skip_white_space. destruct s as [|c s]; cbn [skip_from]; [done|]. destruct (is_json_space c); [|done].
  pose proof (skip_from_suffix true s) as H. intros E. rewrite E in H. cbn in H. split; [by apply suffix_cons|].
  apply suffix_length in H. cbn. lia.
Qed.
Lemma skip_not_endless s : skip_white_space s <> Endless.
Proof. pose proof (skip_from_suffix false s) as H. unfold skip_white_space. by destruct (skip_from false s). Qed.

(** What follows a value: white space and the rest of the loop. *)
Lemma rest_settles {A} (p : nat -> list Z -> outcome (list A)) x s t :
  (forall s, (length s < n)%nat -> no_nul s -> settles 1 p s) ->
  suffix_of s t -> (length s < length t)%nat -> (length t <= n)%nat -> no_nul t ->
  exists o, progress o t /\ forall fuel, (2 * length t <= fuel)%nat ->
    obind (skip_white_space s) (fun _ s => obind (p fuel s) (fun l rest => Parsed (x :: l) rest)) = o.
Proof.
  intros IH Hst Hlt Hn Hnul. pose proof (skip_from_suffix false s) as Hs. fold (skip_white_space s) in Hs.
  destruct (skip_white_space s) as [b s1|e|]; [|settled; done|done]. cbn [obind leaves_suffix] in *.
  pose proof (suffix_length _ _ Hs). assert (Hst1 : suffix_of s1 t) by (by eapply suffix_trans).
  destruct (IH s1 ltac:(lia) (no_nul_suffix _ _ Hst1 Hnul)) as (o & Ho & H1).
  exists (obind o (fun l rest => Parsed (x :: l) rest)).
  split; [apply map_progress; by eapply progress_weaken|]. intros f Hf. by rewrite H1 by lia.
Qed.

Lemma array_settles s : (length s <= n)%nat -> no_nul s -> settles 1 array_loop s.
Proof.
  intros Hn Hnul. eapply settles_step; [intros fuel; reflexivity|]. cbn [array_loop].
  destruct s as [|c s']; [settled; done|].
  destruct (c =? 93); [settled; apply (leaves_suffix_cons (Parsed (A := list variant) [] s')), suffix_refl|].
  assert (Hgo : forall t, suffix_of t (c :: s') -> (length t < length (c :: s'))%nat ->
    exists o, progress o (c :: s') /\ forall fuel, (2 * length (c :: s') + 1 <= fuel)%nat -> array_loop fuel t = o).
  { intros t Ht Hl. destruct (IHa t ltac:(lia) (no_nul_suffix _ _ Ht Hnul)) as (o & Ho & H).
    exists o. split; [by eapply progress_weaken|]. intros f Hf. apply H. lia. }
  destruct (c =? 44); [apply Hgo; [apply suffix_cons, suffix_refl|cbn; lia]|].
  destruct (skip_white_space (c :: s')) as [[] s1|e|] eqn:Es; [|clear Hgo|settled; done|by apply skip_not_endless in Es];
    cbn [obind].
  - apply skip_changed in Es as [H1 H2]. by apply Hgo.
  - apply skip_unchanged in Es as ->.
    destruct (variant_settles (c :: s') Hn Hnul) as (o & Ho & H).
    destruct o as [val rest|e|]; [|exists (Failed e); split; [done|]; intros f Hf; by rewrite H by lia|done].
    destruct Ho as [Ho1 Ho2].
    destruct (rest_settles array_loop val rest (c :: s') IHa Ho1 Ho2 Hn Hnul) as (o & Ho & Hrest).
    exists o. split; [done|]. intros f Hf. rewrite H by lia. cbn [obind]. apply Hrest. lia.
Qed.

(** The key, the colon and the value of an entry. *)
Lemma entry_settles s : (length s <= n)%nat -> no_nul s ->
  exists o, progress o s /\ forall fuel, (2 * length s + 1 <= fuel)%nat ->
    obind (stringFromStream s) (fun key s =>
    obind (skip_white_space s) (fun _ s =>
      match s with
      | [] => Failed eof_exception
      | c :: s' =>
          if c =? 58 then
            obind (variant_from_stream fuel s') (fun val s =>
            obind (skip_white_space s) (fun _ s =>
            obind (object_loop fuel s) (fun l rest => Parsed ((key, val) :: l) rest)))
          else Failed parse_error_exception
      end)) = o.
Proof.
  intros Hn Hnul. pose proof (stringFromStream_progress s) as Hk.
  destruct (stringFromStream s) as [key s1|e|]; [|settled; done|done]. cbn [obind progress] in *. destruct Hk as [Hk1 Hk2].
  pose proof (skip_from_suffix false s1) as Hs. fold (skip_white_space s1) in Hs.
  destruct (skip_white_space s1) as [b s2|e|]; [|settled; done|done]. cbn [obind leaves_suffix] in *.
  pose proof (suffix_length _ _ Hs). destruct s2 as [|c s3]; [settled; done|]. destruct (c =? 58); [|settled; done].
  assert (Hs3 : suffix_of s3 s).
  { eapply suffix_trans; [apply suffix_cons, suffix_refl|]. by eapply suffix_trans. }
  cbn [length] in *. destruct (IHv s3 ltac:(lia) (no_nul_suffix _ _ Hs3 Hnul)) as (o & Ho & H1).
  destruct o as [val rest|e|]; [|exists (Failed e); split; [done|]; intros f Hf; by rewrite H1 by lia|done].
  destruct Ho as [Ho1 Ho2]. assert (Hrs : suffix_of rest s) by (by eapply suffix_trans).
  destruct (rest_settles object_loop (key, val) rest s IHo Hrs ltac:(lia) Hn Hnul) as (o & Ho & Hrest).
  exists o. split; [done|]. intros f Hf. rewrite H1 by lia. cbn [obind]. apply Hrest. lia.
Qed.

Lemma object_settles s : (length s <= n)%nat -> no_nul s -> settles 1 object_loop s.
Proof.
  intros Hn Hnul. eapply settles_step; [intros fuel; reflexivity|]. cbn [object_loop].
  destruct s as [|c s']; [settled; done|].
  destruct (c =? 125); [settled; apply (leaves_suffix_cons (Parsed (A := list entry) [] s')), suffix_refl|].
  assert (Hgo : forall t, suffix_of t (c :: s') -> (length t < length (c :: s'))%nat ->
    exists o, progress o (c :: s') /\ forall fuel, (2 * length (c :: s') + 1 <= fuel)%nat -> object_loop fuel t = o).
  { intros t Ht Hl. destruct (IHo t ltac:(lia) (no_nul_suffix _ _ Ht Hnul)) as (o & Ho & H).
    exists o. split; [by eapply progress_weaken|]. intros f Hf. apply H. lia. }
  destruct (c =? 44); [apply Hgo; [apply suffix_cons, suffix_refl|cbn; lia]|].
  destruct (skip_white_space (c :: s')) as [[] s1|e|] eqn:Es; [|clear Hgo|settled; done|by apply skip_not_endless in Es];
    cbn [obind].
  - apply skip_changed in Es as [H1 H2]. by apply Hgo.
  - apply skip_unchanged in Es as ->. by apply entry_settles.
Qed.
End settling.

Lemma all_settle s : no_nul s -> settles 0 variant_from_stream s /\ settles 1 object_loop s /\ settles 1 array_loop s.
Proof.
  remember (length s) as n eqn:Hn. revert s Hn. induction (lt_wf n) as [n _ IH]. intros s -> Hs.
  assert (IH' : forall t, (length t < length s)%nat -> no_nul t ->
    settles 0 variant_from_stream t /\ settles 1 object_loop t /\ settles 1 array_loop t) by (intros t Ht; by eapply IH).
  split_and!; [apply variant_settles with (length s)|apply object_settles with (length s)|apply array_settles with (length s)];
    (done || intros t Ht Hnt; by apply IH').
Qed.

(** ** Null characters *)
(** A null character reads as the value [null] and stays in the stream: an array that
    contains one is read for ever. *)
Lemma array_loop_endless fuel s : array_loop fuel (0 :: s) = Endless.
Proof. induction fuel as [|fuel IH]; [done|]. cbn. destruct fuel as [|fuel]; [done|]. cbn in *. by rewrite IH. Qed.

(** ** Printing and parsing *)
Definition printable_char (c : Z) : Prop := 32 <= c \/ c = 9 \/ c = 10 \/ c = 13.
Definition printable (s : list Z) : Prop := Forall printable_char s.
(** The values whose text reads back: no doubles, integers in the form the parser gives
    them and, if large integers are printed as strings, small. *)
Fixpoint plain (f : output_formatting) (v : variant) : Prop :=
  match v with
  | v_null | v_bool _ => True
  | v_int64 i => - 2^63 <= i < 0
  | v_uint64 i => 0 <= i < 2^64 /\ (stringifies f = true -> i <= 4294967295)
  | v_double _ => False
  | v_string s => printable s
  | v_array l => foldr (fun v P => plain f v /\ P) True l
  | v_object l => foldr (fun e P => (printable (fst e) /\ plain f (snd e)) /\ P) True l
  end.

Fixpoint variant_rect' (P : variant -> Prop) (Hn : P v_null) (Hi : forall i, P (v_int64 i)) (Hu : forall i, P (v_uint64 i))
    (Hd : forall x, P (v_double x)) (Hb : forall b, P (v_bool b)) (Hs : forall s, P (v_string s))
    (Ha : forall l, Forall P l -> P (v_array l)) (Ho : forall l, Forall (fun e => P (snd e)) l -> P (v_object l))
    (v : variant) : P v :=
  match v with
  | v_null => Hn | v_int64 i => Hi i | v_uint64 i => Hu i | v_double x => Hd x | v_bool b => Hb b | v_string s => Hs s
  | v_array l => Ha l ((fix go l : Forall P l := match l with
      | [] => @List.Forall_nil _ _
      | v :: l => @List.Forall_cons _ _ v l (variant_rect' P Hn Hi Hu Hd Hb Hs Ha Ho v) (go l) end) l)
  | v_object l => Ho l ((fix go l : Forall (fun e => P (snd e)) l := match l with
      | [] => @List.Forall_nil _ _
      | e :: l => @List.Forall_cons _ _ e l (variant_rect' P Hn Hi Hu Hd Hb Hs Ha Ho (snd e)) (go l) end) l)
  end.

Lemma string_body_escape s rest : printable s -> string_body (flat_map escape_char s ++ 34 :: rest) = Parsed s rest.
Proof.
  induction 1 as [|c s Hc Hs IH]; [done|]. cbn [flat_map]. rewrite <- app_assoc. unfold escape_char, printable_char in *.
  destruct (Z.eqb_spec c 8); [lia|]. destruct (Z.eqb_spec c 12); [lia|].
  destruct (Z.eqb_spec c 10) as [->|]; [cbn; by rewrite IH|]. destruct (Z.eqb_spec c 13) as [->|]; [cbn; by rewrite IH|].
  destruct (Z.eqb_spec c 9) as [->|]; [cbn; by rewrite IH|]. destruct (Z.eqb_spec c 92) as [->|]; [cbn; by rewrite IH|].
  destruct (Z.eqb_spec c 34) as [->|]; [cbn; by rewrite IH|]. destruct (Z.ltb_spec c 32); [lia|]. cbn.
  destruct (Z.eqb_spec c 92); [done|]. destruct (Z.eqb_spec c 4); [lia|]. destruct (Z.eqb_spec c 34); [done|]. by rewrite IH.
Qed.
Lemma stringFromStream_escape s rest : printable s -> stringFromStream (escape_string s ++ rest) = Parsed s rest.
Proof.
  intros Hs. unfold escape_string. rewrite <- !app_assoc. cbn [app stringFromStream]. by apply string_body_escape.
Qed.

(** What may follow a value. *)
Definition delimits (rest : list Z) : Prop :=
  match rest with [] => True | c :: _ => c = 44 \/ c = 93 \/ c = 125 end.
Lemma delimits_spec c s : delimits (c :: s) ->
  is_json_space c = false /\ is_digit_b c = false /\ isalnum c = false /\ c <> 46 /\ is_constant_char c = false.
Proof. by intros [-> |[-> | ->]]. Qed.

Lemma number_text_digits ds rest : Forall is_digit_char ds -> delimits rest -> number_text false (ds ++ rest) = Parsed (ds, false) rest.
Proof.
  intros Hds Hr. induction Hds as [|c ds Hc Hds IH]; cbn [app].
  - destruct rest as [|c rest]; [done|]. apply delimits_spec in Hr as (_ & H1 & _ & H2 & _). cbn [number_text].
    destruct (Z.eqb_spec c 46); [done|]. by rewrite H1.
  - cbn [number_text]. unfold is_digit_char in Hc. destruct (Z.eqb_spec c 46); [lia|].
    assert (is_digit_b c = true) as -> by (unfold is_digit_b; apply andb_true_iff; rewrite !Z.leb_le; lia). by rewrite IH.
Qed.
Lemma leading_digits_id ds : Forall is_digit_char ds -> leading_digits ds = ds.
Proof.
  induction 1 as [|c ds Hc Hds IH]; [done|]. cbn [leading_digits]. unfold is_digit_char in Hc.
  assert ((48 <=? c) && (c <=? 57) = true) as -> by (apply andb_true_iff; rewrite !Z.leb_le; lia). by rewrite IH.
Qed.
Lemma signed_text_digits ds : Forall is_digit_char ds -> ds <> [] -> signed_text ds = (false, ds) /\ signed_text (45 :: ds) = (true, ds).
Proof.
  intros Hds Hne. unfold signed_text. split.
  - destruct ds as [|c ds]; [done|]. pose proof Hds as Hall. apply Forall_cons_1 in Hds as [Hc _].
    rewrite trim_left_none by (by apply digit_plain). unfold is_digit_char in Hc.
    assert (Hlead : leading_digits (c :: ds) = c :: ds) by (by apply leading_digits_id).
    destruct c as [|c|c]; try lia. repeat (destruct c as [c|c|]; try lia); exact (f_equal (pair false) Hlead).
  - cbn. by rewrite leading_digits_id.
Qed.

Lemma number_from_stream_print (neg : bool) n rest : 0 <= n -> (if neg then 0 < n <= 2^63 else n < 2^64) -> delimits rest ->
  number_from_stream ((if neg then 45 :: dec_string n else dec_string n) ++ rest) =
  Parsed (if neg then v_int64 (- n) else v_uint64 n) rest.
Proof.
  intros Hn Hb Hr. destruct (dec_string_spec n Hn) as (Hds & Hv & Hne).
  destruct (signed_text_digits _ Hds Hne) as [H1 H2].
  assert (Hend : forall v, number_of_text neg false (if neg then 45 :: dec_string n else dec_string n) = Ok v ->
    obind (number_text false (dec_string n ++ rest)) (number_end neg) = Parsed v rest).
  { intros v E. rewrite number_text_digits by done. cbn [obind number_end]. rewrite E.
    destruct rest as [|c rest]; [done|]. apply delimits_spec in Hr as (_ & _ & -> & _). done. }
  assert (Hnodot : forall x, x ∈ dec_string n -> x <> 46).
  { intros x Hx. rewrite Forall_forall in Hds. specialize (Hds x Hx). unfold is_digit_char in Hds. lia. }
  unfold number_from_stream. destruct neg.
  - cbn [app]. rewrite Z.eqb_refl. apply Hend. unfold number_of_text.
    rewrite bool_decide_false; [|intros E; injection E as E; apply (Hnodot 46); [rewrite E; by left|done]].
    rewrite bool_decide_false by done. cbn [orb]. unfold stoll. rewrite H2. destruct (dec_string n) as [|d ds] eqn:Ed; [done|].
    rewrite Hv. rewrite (proj2 (andb_true_iff _ _)); [done|]. rewrite Z.leb_le, Z.ltb_lt. lia.
  - destruct (dec_string n) as [|d ds] eqn:Ed; [done|]. cbn [app].
    destruct (Z.eqb_spec d 45) as [->|]; [apply Forall_cons_1 in Hds as [Hd _]; unfold is_digit_char in Hd; lia|].
    apply Hend. unfold number_of_text. rewrite bool_decide_false by (intros E; by injection E).
    rewrite bool_decide_false; [|intros E; injection E as -> _; apply (Hnodot 46); [by left|done]].
    cbn [orb]. unfold stoull. rewrite H1. cbv beta iota zeta. rewrite Hv. rewrite (proj2 (Z.ltb_lt _ _)) by lia. done.
Qed.

Lemma constant_text_print str rest : Forall (fun c => is_constant_char c = true) str -> delimits rest ->
  constant_text (str ++ rest) = (str, rest).
Proof.
  intros Hs Hr. induction Hs as [|c str Hc Hs IH]; cbn [app].
  - destruct rest as [|c rest]; [done|]. apply delimits_spec in Hr as (_ & _ & _ & _ & H). cbn [constant_text]. by rewrite H.
  - cbn [constant_text]. by rewrite Hc, IH.
Qed.

(** The text of a plain value does not start with white space, a comma or a closing bracket. *)
Definition opens (c : Z) : Prop := is_json_space c = false /\ c <> 44 /\ c <> 93 /\ c <> 125.
Lemma digit_opens c : is_digit_char c -> opens c.
Proof.
  unfold is_digit_char, opens, is_json_space. intros H. split_and!; [|lia..].
  by rewrite !(proj2 (Z.eqb_neq _ _)) by lia.
Qed.
Lemma dec_of_int_opens i : exists c t, dec_of_int i = c :: t /\ opens c.
Proof.
  unfold dec_of_int. destruct (Z.ltb_spec i 0); [by exists 45, (dec_string (- i))|].
  destruct (dec_string_spec i) as (H1 & _ & H2); [done|]. destruct (dec_string i) as [|c t]; [done|].
  exists c, t. split; [done|]. apply Forall_cons_1 in H1 as [H1 _]. by apply digit_opens.
Qed.
Lemma to_stream_opens f v : plain f v -> exists c t, to_stream f v = c :: t /\ opens c.
Proof.
  intros Hv. destruct v as [|i|i|x|[]|s|l|l]; cbn [to_stream plain] in *; try done.
  1, 4, 5, 6, 7, 8: by eexists _, _.
  all: unfold int_to_stream; destruct (_ && _); [by eexists _, _|apply dec_of_int_opens].
Qed.
Lemma skip_opens c t rest : opens c -> skip_white_space (c :: t ++ rest) = Parsed false (c :: t ++ rest).
Proof. intros (H & _). unfold skip_white_space. cbn [skip_from]. by rewrite H. Qed.

(** ** The round trip *)
Definition reads_back (f : output_formatting) (v : variant) : Prop :=
  forall rest fuel, delimits rest -> (2 * length (to_stream f v) < fuel)%nat ->
    variant_from_stream fuel (to_stream f v ++ rest) = Parsed v rest.
Definition commas (f : output_formatting) (l : list variant) : list Z := flat_map (fun v => 44 :: to_stream f v) l.

Lemma delimits_commas f l rest c : c = 93 \/ c = 125 -> delimits (commas f l ++ c :: rest).
Proof. destruct l; cbn; tauto. Qed.
Lemma skip_delimiter c s : delimits (c :: s) -> skip_white_space (c :: s) = Parsed false (c :: s).
Proof. intros (H & _)%delimits_spec. unfold skip_white_space. cbn [skip_from]. by rewrite H. Qed.
Lemma skip_commas f l rest : skip_white_space (commas f l ++ 93 :: rest) = Parsed false (commas f l ++ 93 :: rest).
Proof.
  pose proof (delimits_commas f l rest 93 ltac:(tauto)) as H. destruct (commas f l ++ 93 :: rest) as [|c s] eqn:E.
  - by destruct (commas f l).
  - by apply skip_delimiter.
Qed.

(** One element and what follows it. *)
Lemma array_loop_element f v l rest fuel : plain f v -> reads_back f v ->
  (forall fuel, (2 * length (commas f l) + 1 < fuel)%nat ->
     array_loop fuel (commas f l ++ 93 :: rest) = Parsed l rest) ->
  (2 * length (to_stream f v ++ commas f l) + 1 < fuel)%nat ->
  array_loop fuel (to_stream f v ++ commas f l ++ 93 :: rest) = Parsed (v :: l) rest.
Proof.
  intros Hp Hv Hl Hf. destruct fuel as [|fuel]; [lia|]. rewrite length_app in Hf.
  destruct (to_stream_opens f v Hp) as (c & t & Et & Hc). cbn [array_loop].
  rewrite Et. cbn [app]. pose proof Hc as (_ & H44 & H93 & _).
  destruct (Z.eqb_spec c 93); [done|]. destruct (Z.eqb_spec c 44); [done|].
  rewrite skip_opens by done. cbn [obind]. change (c :: t ++ commas f l ++ 93 :: rest) with ((c :: t) ++ commas f l ++ 93 :: rest).
  rewrite <- Et, Hv; [|by apply delimits_commas; left|lia]. cbn [obind]. rewrite skip_commas. cbn [obind].
  rewrite Et in Hf. cbn in Hf. by rewrite Hl by lia.
Qed.
Lemma array_loop_commas f l rest fuel : Forall (fun v => plain f v /\ reads_back f v) l ->
  (2 * length (commas f l) + 1 < fuel)%nat ->
  array_loop fuel (commas f l ++ 93 :: rest) = Parsed l rest.
Proof.
  intros Hl. revert fuel. induction Hl as [|v l [Hp Hv] Hl IH]; intros fuel Hf; (destruct fuel as [|fuel]; [lia|]); [done|].
  cbn [commas flat_map app length] in *. fold (commas f l) in *. rewrite <- app_assoc. cbn [array_loop]. apply array_loop_element; [done..|]. lia.
Qed.
Lemma reads_back_array f l : Forall (fun v => plain f v /\ reads_back f v) l -> reads_back f (v_array l).
Proof.
  intros Hl rest fuel Hr Hf. destruct fuel as [|fuel]; [lia|]. cbn [to_stream] in *.
  rewrite <- !app_assoc. cbn [app variant_from_stream].
  assert (Hloop : array_loop fuel (separated (map (to_stream f) l) ++ 93 :: rest) = Parsed l rest /\
    skip_white_space (separated (map (to_stream f) l) ++ 93 :: rest) = Parsed false (separated (map (to_stream f) l) ++ 93 :: rest)).
  { rewrite !length_app in Hf. cbn [length] in Hf. destruct Hl as [|v l [Hp Hv] Hl].
    - split; [destruct fuel; [cbn in Hf; lia|done]|done].
    - cbn [map separated] in *. rewrite flat_map_concat_map, map_map, <- flat_map_concat_map in *. fold (commas f l) in *.
      rewrite <- app_assoc. split.
      + apply array_loop_element; [done..|by intros; apply array_loop_commas|]. lia.
      + destruct (to_stream_opens f v Hp) as (c & t & -> & Hc). cbn [app]. by apply skip_opens. }
  destruct Hloop as [H1 H2]. cbn. rewrite H2. cbn [obind]. by rewrite H1.
Qed.

Definition entry_text (f : output_formatting) (e : entry) : list Z := escape_string (fst e) ++ [58] ++ to_stream f (snd e).
Definition entry_commas (f : output_formatting) (l : list entry) : list Z := flat_map (fun e => 44 :: entry_text f e) l.
Definition entry_reads_back (f : output_formatting) (e : entry) : Prop :=
  printable (fst e) /\ plain f (snd e) /\ reads_back f (snd e).

Lemma delimits_entry_commas f l rest : delimits (entry_commas f l ++ 125 :: rest).
Proof. destruct l; cbn; tauto. Qed.
Lemma skip_entry_commas f l rest : skip_white_space (entry_commas f l ++ 125 :: rest) = Parsed false (entry_commas f l ++ 125 :: rest).
Proof.
  pose proof (delimits_entry_commas f l rest) as H. destruct (entry_commas f l ++ 125 :: rest) as [|c s] eqn:E.
  - by destruct (entry_commas f l).
  - by apply skip_delimiter.
Qed.

Lemma object_loop_entry f e l rest fuel : entry_reads_back f e ->
  (forall fuel, (2 * length (entry_commas f l) + 1 < fuel)%nat ->
     object_loop fuel (entry_commas f l ++ 125 :: rest) = Parsed l rest) ->
  (2 * length (entry_text f e ++ entry_commas f l) + 1 < fuel)%nat ->
  object_loop fuel (entry_text f e ++ entry_commas f l ++ 125 :: rest) = Parsed (e :: l) rest.
Proof.
  intros (Hk & Hp & Hv) Hl Hf. destruct fuel as [|fuel]; [lia|]. destruct e as [key v]. unfold entry_text in *. cbn [fst snd] in *.
  rewrite !length_app in Hf. cbn [length] in Hf. rewrite <- !app_assoc.
  assert (Hkey : exists t, escape_string key ++ [58] ++ to_stream f v ++ entry_commas f l ++ 125 :: rest = 34 :: t) by (by eexists).
  destruct Hkey as [t Et]. cbn [object_loop]. rewrite Et. cbn [Z.eqb Pos.eqb].
  change (skip_white_space (34 :: t)) with (Parsed false (34 :: t)). cbn [obind]. rewrite <- Et.
  rewrite stringFromStream_escape by done. cbn [obind app].
  change (skip_white_space (58 :: to_stream f v ++ entry_commas f l ++ 125 :: rest))
    with (Parsed false (58 :: to_stream f v ++ entry_commas f l ++ 125 :: rest)). cbn [obind Z.eqb Pos.eqb].
  rewrite Hv; [|apply delimits_entry_commas|lia]. cbn [obind]. rewrite skip_entry_commas. cbn [obind].
  by rewrite Hl by lia.
Qed.
Lemma object_loop_commas f l rest fuel : Forall (entry_reads_back f) l ->
  (2 * length (entry_commas f l) + 1 < fuel)%nat ->
  object_loop fuel (entry_commas f l ++ 125 :: rest) = Parsed l rest.
Proof.
  intros Hl. revert fuel. induction Hl as [|e l He Hl IH]; intros fuel Hf; (destruct fuel as [|fuel]; [lia|]); [done|].
  cbn [entry_commas flat_map app length] in *. fold (entry_commas f l) in *. rewrite <- app_assoc. cbn [object_loop].
  apply object_loop_entry; [done..|]. lia.
Qed.
Lemma reads_back_object f l : Forall (entry_reads_back f) l -> reads_back f (v_object l).
Proof.
  intros Hl rest fuel Hr Hf. destruct fuel as [|fuel]; [lia|]. change (to_stream f (v_object l)) with ([123] ++ separated (map (entry_text f) l) ++ [125]) in *.
  rewrite <- !app_assoc. cbn [app variant_from_stream].
  assert (Hloop : object_loop fuel (separated (map (entry_text f) l) ++ 125 :: rest) = Parsed l rest /\
    skip_white_space (separated (map (entry_text f) l) ++ 125 :: rest) = Parsed false (separated (map (entry_text f) l) ++ 125 :: rest)).
  { rewrite !length_app in Hf. cbn [length] in Hf. destruct Hl as [|e l He Hl].
    - split; [destruct fuel; [cbn in Hf; lia|done]|done].
    - cbn [map separated] in *. rewrite flat_map_concat_map, map_map, <- flat_map_concat_map in *. fold (entry_commas f l) in *.
      rewrite <- app_assoc. split.
      + apply object_loop_entry; [done|by intros; apply object_loop_commas|]. lia.
      + unfold entry_text, escape_string. rewrite <- !app_assoc. done. }
  destruct Hloop as [H1 H2]. cbn. rewrite H2. cbn [obind]. by rewrite H1.
Qed.

Lemma foldr_and_Forall {A} (P : A -> Prop) l : foldr (fun x Q => P x /\ Q) True l -> Forall P l.
Proof. induction l as [|x l IH]; cbn; [done|]. intros [H1 H2]. constructor; auto. Qed.

Lemma plain_reads_back f v : plain f v -> reads_back f v.
Proof.
  induction v as [|i|i|x|b|s|l IH|l IH] using variant_rect'; intros Hp.
  - intros rest fuel Hr Hf. destruct fuel as [|fuel]; [lia|]. cbn [to_stream]. cbn.
    change (token_from_stream (null_text ++ rest) = Parsed v_null rest). unfold token_from_stream.
    by rewrite constant_text_print by (done || by repeat constructor).
  - intros rest fuel Hr Hf. destruct fuel as [|fuel]; [lia|]. cbn [to_stream plain] in *. unfold int_to_stream.
    destruct (Z.gtb_spec i 4294967295); [lia|]. rewrite andb_false_r. unfold dec_of_int.
    destruct (Z.ltb_spec i 0); [|lia]. cbn [app variant_from_stream].
    pose proof (number_from_stream_print true (- i) rest ltac:(lia) ltac:(split; lia) Hr) as H'. rewrite Z.opp_involutive in H'. exact H'.
  - intros rest fuel Hr Hf. destruct fuel as [|fuel]; [lia|]. cbn [to_stream plain] in *. unfold int_to_stream in *.
    destruct Hp as [Hi Hs]. assert (stringifies f && (i >? 4294967295) = false) as ->.
    { destruct (stringifies f); [|done]. cbn. specialize (Hs eq_refl). destruct (Z.gtb_spec i 4294967295); [lia|done]. }
    unfold dec_of_int. destruct (Z.ltb_spec i 0); [lia|].
    pose proof (number_from_stream_print false i rest (proj1 Hi) (proj2 Hi) Hr) as H'. cbn [variant_from_stream].
    destruct (dec_string_spec i) as (Hd & _ & Hne); [lia|]. destruct (dec_string i) as [|c t]; [done|].
    apply Forall_cons_1 in Hd as [Hd _]. cbn [app]. rewrite skip_opens by (by apply digit_opens). cbn [obind].
    unfold is_digit_char in Hd. rewrite !(proj2 (Z.eqb_neq c _)) by lia.
    assert (is_digit_b c = true) as -> by (unfold is_digit_b; apply andb_true_iff; rewrite !Z.leb_le; lia). exact H'.
  - done.
  - intros rest fuel Hr Hf. destruct fuel as [|fuel]; [lia|]. cbn [to_stream]. destruct b; cbn.
    + change (token_from_stream (true_text ++ rest) = Parsed (v_bool true) rest). unfold token_from_stream.
      by rewrite constant_text_print by (done || by repeat constructor).
    + change (token_from_stream (false_text ++ rest) = Parsed (v_bool false) rest). unfold token_from_stream.
      by rewrite constant_text_print by (done || by repeat constructor).
  - intros rest fuel Hr Hf. destruct fuel as [|fuel]; [lia|]. cbn [to_stream plain] in *.
    assert (H' : exists t, escape_string s ++ rest = 34 :: t) by (by eexists). destruct H' as [t Et].
    cbn [variant_from_stream]. rewrite Et. change (skip_white_space (34 :: t)) with (Parsed false (34 :: t)).
    cbn [obind Z.eqb Pos.eqb]. rewrite <- Et, stringFromStream_escape by done. done.
  - apply reads_back_array. cbn [plain] in Hp. apply foldr_and_Forall in Hp.
    rewrite Forall_forall in *. intros v Hv. split; [by apply Hp|]. apply IH; [done|by apply Hp].
  - apply reads_back_object. cbn [plain] in Hp. apply foldr_and_Forall in Hp.
    rewrite Forall_forall in *. intros e He. destruct (Hp e He) as [H1 H2]. split_and!; [done..|]. by apply IH.
Qed.
