(* ===== verification/Authority.v ===== *)
(** * Authority: weighted multi-signature authorities and account-name grammar
    ([protocol/authority.{hpp,cpp}]). *)
From S2P Require Import Prelude Names Config.
Local Open Scope Z_scope.
Local Open Scope list_scope.

(** The [flat_map]s are association lists sorted by key; weights are 16-bit. *)
Record authority := Authority {
  weight_threshold : Z;
  account_auths : list (account_name_type * Z);
  key_auths : list (public_key_type * Z) }.
#[export] Instance authority_eq_dec : EqDecision authority.
Proof. solve_decision. Defined.
#[export] Instance authority_eta : Eta authority := fun a =>
  Authority (weight_threshold a) (account_auths a) (key_auths a).

Definition empty_authority : authority := Authority 0 [] [].

(** [m[k] = w] on a sorted association list. *)
Fixpoint flat_assign {K V} (ltb : K -> K -> bool) (k : K) (w : V) (m : list (K * V)) : list (K * V) :=
  match m with
  | [] => [(k, w)]
  | (k', w') :: m' =>
      if ltb k k' then (k, w) :: m
      else if ltb k' k then (k', w') :: flat_assign ltb k w m'
      else (k', w) :: m'
  end.

Definition add_key_authority (a : authority) (k : public_key_type) (w : Z) : authority :=
  a <| key_auths ::= flat_assign Z.ltb k w |>.
Definition add_account_authority (a : authority) (k : account_name_type) (w : Z) : authority :=
  a <| account_auths ::= flat_assign name_ltb k w |>.

(** The one-key authority [authority( 1, key, 1 )]. *)
Definition key_authority (k : public_key_type) : authority :=
  add_key_authority (Authority 1 [] []) k 1.

Definition get_keys (a : authority) : list public_key_type := map fst (key_auths a).

Definition sum_weights {K} (w0 : Z) (m : list (K * Z)) : Z :=
  fold_left (fun acc item => u64 (acc + snd item)) m w0.
Definition is_impossible (a : authority) : bool :=
  sum_weights (sum_weights 0 (account_auths a)) (key_auths a) <? weight_threshold a.

Definition num_auths (a : authority) : Z :=
  u32 (Z.of_nat (length (account_auths a)) + Z.of_nat (length (key_auths a))).

Definition authority_clear (a : authority) : authority :=
  a <| account_auths := [] |> <| key_auths := [] |>.

(** [operator ==]: the names of two maps are compared by their data. *)
Fixpoint flat_eqb {K} (eqb : K -> K -> bool) (m n : list (K * Z)) : bool :=
  match m, n with
  | [], [] => true
  | (k, w) :: m', (k', w') :: n' => eqb k k' && (w =? w') && flat_eqb eqb m' n'
  | _, _ => false
  end.
Definition authority_eqb (a b : authority) : bool :=
  (weight_threshold a =? weight_threshold b)
  && flat_eqb name_eqb (account_auths a) (account_auths b)
  && flat_eqb Z.eqb (key_auths a) (key_auths b).

(** ** is_valid_account_name *)
Definition is_letter (c : Z) : bool := (97 <=? c) && (c <=? 122).
Definition is_let_dig (c : Z) : bool := is_letter c || ((48 <=? c) && (c <=? 57)).
Definition is_let_dig_hyp (c : Z) : bool := is_let_dig c || (c =? 45).

(** [name.find_first_of( '.', begin )], [len] when there is none. *)
Fixpoint find_dot (s : list Z) (i : nat) : nat :=
  match s with
  | [] => i
  | c :: s' => if c =? 46 then i else find_dot s' (S i)
  end.
Definition find_first_of (name : list Z) (begin : nat) : nat := find_dot (drop begin name) begin.

(** [for( i = first; i < last; i++ )] with an early [return false]. *)
Fixpoint check_range (name : list Z) (first : nat) (count : nat) : bool :=
  match count with
  | O => true
  | S count' => is_let_dig_hyp (nth first name 0) && check_range name (S first) count'
  end.

Fixpoint label_loop (fuel : nat) (name : list Z) (begin : nat) : bool :=
  match fuel with
  | O => false
  | S fuel' =>
      let len := length name in
      let last := find_first_of name begin in
      if (last - begin <? 3)%nat then false
      else if negb (is_letter (nth begin name 0)) then false
      else if negb (is_let_dig (nth (last - 1) name 0)) then false
      else if negb (check_range name (begin + 1) (last - 1 - (begin + 1))) then false
      else if (last =? len)%nat then true
      else label_loop fuel' name (last + 1)
  end.

(** Every round moves [begin] forward: as many rounds as characters are enough. *)
Definition is_valid_account_name (name : list Z) : bool :=
  let len := Z.of_nat (length name) in
  if len <? SOPHIATX_MIN_ACCOUNT_NAME_LENGTH then false
  else if SOPHIATX_MAX_ACCOUNT_NAME_LENGTH <? len then false
  else label_loop (length name) name 0.

Definition authority_validate (a : authority) : res unit :=
  forM (account_auths a) (fun item =>
    s ← string_of_name (fst item);
    fc_assert (is_valid_account_name s)).

(** ** The grammar of account names, as the comment of authority.hpp states it. *)
Definition valid_label (l : list Z) : Prop :=
  exists c mid d, l = c :: mid ++ [d] /\ is_letter c = true /\ is_let_dig d = true
    /\ mid <> [] /\ Forall (fun x => is_let_dig_hyp x = true) mid.

Inductive valid_domain : list Z -> Prop :=
  | domain_label l : valid_label l -> valid_domain l
  | domain_dot l rest : valid_label l -> valid_domain rest -> valid_domain (l ++ 46 :: rest).

(** ** Lemmas *)
Lemma find_dot_spec s i : exists l, find_dot s i = (i + length l)%nat /\ ~ In 46 l /\
  (s = l \/ exists rest, s = l ++ 46 :: rest).
Proof.
  revert i. induction s as [|c s IH]; intros i; simpl.
  { exists []. simpl. split; [lia|]. auto. }
  destruct (c =? 46) eqn:E; bool_simpl.
  - exists []. simpl. subst c. split; [lia|]. eauto.
  - destruct (IH (S i)) as (l & Hf & Hn & Hs). exists (c :: l). simpl.
    split; [lia|]. split; [naive_solver|].
    destruct Hs as [->|[rest ->]]; eauto.
Qed.

Lemma find_dot_unique l i rest : ~ In 46 l ->
  find_dot l i = (i + length l)%nat /\ find_dot (l ++ 46 :: rest) i = (i + length l)%nat.
Proof.
  revert i. induction l as [|c l IH]; intros i Hn; simpl.
  { split; [lia|]. lia. }
  destruct (c =? 46) eqn:E; bool_simpl; [subst; simpl in Hn; tauto|].
  destruct (IH (S i)) as [-> ->]; [simpl in Hn; tauto|]. lia.
Qed.

Lemma check_range_spec pre mid post :
  check_range (pre ++ mid ++ post) (length pre) (length mid) = true <->
  Forall (fun x => is_let_dig_hyp x = true) mid.
Proof.
  revert pre. induction mid as [|c mid IH]; intros pre; simpl; [by split|].
  rewrite Forall_cons, andb_true_iff.
  rewrite app_nth2, Nat.sub_diag by lia. simpl.
  specialize (IH (pre ++ [c])). rewrite length_app in IH. simpl in IH.
  rewrite Nat.add_comm in IH. simpl in IH.
  rewrite <- app_assoc in IH. simpl in IH. by rewrite IH.
Qed.

Lemma valid_label_no_dot l : valid_label l -> ~ In 46 l.
Proof.
  intros (c & mid & d & -> & Hc & Hd & _ & Hm) Hin.
  rewrite Forall_forall in Hm. apply in_inv in Hin as [->|Hin]; [done|].
  apply in_app_or in Hin as [Hin|[->|[]]]; [|done].
  rewrite <- list_elem_of_In in Hin. apply Hm in Hin. done.
Qed.

(** What one round tests of the label between [begin] and [last]. *)
Lemma label_test pre l post :
  (length pre + length l - length pre <? 3)%nat = false ->
  is_letter (nth (length pre) (pre ++ l ++ post) 0) = true ->
  is_let_dig (nth (length pre + length l - 1) (pre ++ l ++ post) 0) = true ->
  check_range (pre ++ l ++ post) (length pre + 1)
    (length pre + length l - 1 - (length pre + 1)) = true -> valid_label l.
Proof.
  intros H3 Hc Hd Hm. apply Nat.ltb_ge in H3.
  destruct l as [|c l]; [simpl in H3; lia|].
  destruct l as [|d mid _] using rev_ind; [simpl in H3; lia|].
  rewrite app_nth2, Nat.sub_diag in Hc by lia. simpl in Hc.
  rewrite app_nth2 in Hd by (simpl; lia).
  simpl in H3, Hd. rewrite length_app in H3, Hd. simpl in H3, Hd.
  replace (length pre + S (length mid + 1) - 1 - length pre)%nat with (S (length mid)) in Hd by lia.
  simpl in Hd. rewrite <- app_assoc, app_nth2, Nat.sub_diag in Hd by lia. simpl in Hd.
  exists c, mid, d. split; [done|]. split; [done|]. split; [done|].
  split; [intros ->; simpl in H3; lia|].
  apply (check_range_spec (pre ++ [c]) mid ([d] ++ post)).
  cbn [app] in Hm. rewrite <- app_assoc in Hm. rewrite <- app_assoc, length_app. cbn [app length].
  rewrite <- Hm. f_equal; simpl; rewrite ?length_app; simpl; lia.
Qed.

Lemma label_test_complete pre l post : valid_label l ->
  (length pre + length l - length pre <? 3)%nat = false /\
  is_letter (nth (length pre) (pre ++ l ++ post) 0) = true /\
  is_let_dig (nth (length pre + length l - 1) (pre ++ l ++ post) 0) = true /\
  check_range (pre ++ l ++ post) (length pre + 1)
    (length pre + length l - 1 - (length pre + 1)) = true.
Proof.
  intros (c & mid & d & -> & Hc & Hd & Hne & Hm).
  destruct mid as [|m0 mid]; [done|]. set (mm := m0 :: mid) in *.
  assert (length mm > 0)%nat by (subst mm; simpl; lia).
  assert (Hl : length (c :: mm ++ [d]) = (length mm + 2)%nat) by (simpl; rewrite length_app; simpl; lia).
  rewrite Hl. split; [apply Nat.ltb_ge; lia|].
  split; [by rewrite app_nth2, Nat.sub_diag by lia|]. split.
  - rewrite app_nth2 by lia.
    replace (length pre + (length mm + 2) - 1 - length pre)%nat with (S (length mm)) by lia.
    simpl. rewrite <- app_assoc, app_nth2, Nat.sub_diag by lia. done.
  - pose proof (proj2 (check_range_spec (pre ++ [c]) mm ([d] ++ post)) Hm) as Hk.
    rewrite length_app, <- app_assoc in Hk. cbn [app length] in Hk. cbn [app].
    rewrite <- app_assoc. rewrite <- Hk. f_equal; clear; lia.
Qed.

Lemma label_loop_spec fuel pre s : (length s <= fuel)%nat -> fuel <> O ->
  label_loop fuel (pre ++ s) (length pre) = true <-> valid_domain s.
Proof.
  revert pre s. induction fuel as [|fuel IH]; intros pre s Hf H0; [done|]. clear H0.
  cbn [label_loop]. unfold find_first_of. rewrite drop_app_length.
  destruct (find_dot_spec s (length pre)) as (l & -> & Hn & Hs).
  assert (Hvd : valid_domain s <-> valid_label l /\
    (s = l \/ exists rest, s = l ++ 46 :: rest /\ valid_domain rest)).
  { split.
    - intros Hv. inversion Hv as [l' Hl' Heq|l' rest Hl' Hr Heq]; subst s.
      + pose proof (valid_label_no_dot _ Hl'). destruct Hs as [->|[r ->]]; [eauto|].
        exfalso. apply H. apply in_app_iff. right. by left.
      + pose proof (valid_label_no_dot _ Hl') as Hn'.
        assert (l = l') as ->.
        { destruct (find_dot_unique l' 0 rest Hn') as [_ E1]. destruct Hs as [Hs|[r Hs]].
          - exfalso. apply Hn. rewrite <- Hs. apply in_app_iff. right. by left.
          - rewrite Hs in E1. destruct (find_dot_unique l 0 r Hn) as [_ E2].
            rewrite E1 in E2. simpl in E2. by apply (app_inj_1 _ _ _ _ E2) in Hs as [-> _]. }
        eauto.
    - intros [Hl [->|(rest & -> & Hr)]]; by constructor. }
  rewrite Hvd.
  assert (Hsplit : exists post, s = l ++ post) by (destruct Hs as [->|[r ->]]; [exists []; by rewrite app_nil_r|eauto]).
  destruct Hsplit as [post ->].
  destruct (length pre + length l - length pre <? 3)%nat eqn:E1.
  { split; [done|]. intros [Hl _]. apply (label_test_complete pre l post) in Hl. by destruct Hl as [? _]; congruence. }
  destruct (is_letter _) eqn:E2; simpl.
  2:{ split; [done|]. intros [Hl _]. apply (label_test_complete pre l post) in Hl. by destruct Hl as (_ & ? & _); congruence. }
  destruct (is_let_dig _) eqn:E3; simpl.
  2:{ split; [done|]. intros [Hl _]. apply (label_test_complete pre l post) in Hl. by destruct Hl as (_ & _ & ? & _); congruence. }
  destruct (check_range _ _ _) eqn:E4; simpl.
  2:{ split; [done|]. intros [Hl _]. apply (label_test_complete pre l post) in Hl. by destruct Hl as (_ & _ & _ & ?); congruence. }
  pose proof (label_test pre l post E1 E2 E3 E4) as Hl.
  destruct Hs as [Hp|[rest Hp]].
  - assert (post = []) as ->. { apply (f_equal length) in Hp. rewrite length_app in Hp. destruct post; [done|simpl in Hp; lia]. }
    rewrite app_nil_r, length_app, Nat.eqb_refl. split; [|done]. intros _. split; [done|]. by left.
  - apply app_inv_head in Hp. subst post.
    replace (length pre + length l =? _)%nat with false
      by (symmetry; apply Nat.eqb_neq; rewrite !length_app; simpl; lia).
    specialize (IH (pre ++ l ++ [46]) rest).
    rewrite length_app in Hf. simpl in Hf.
    assert (length l >= 3)%nat by (apply Nat.ltb_ge in E1; lia).
    replace (pre ++ l ++ 46 :: rest) with ((pre ++ l ++ [46]) ++ rest) by (rewrite <- !app_assoc; done).
    replace (length pre + length l + 1)%nat with (length (pre ++ l ++ [46])) by (rewrite !length_app; simpl; lia).
    rewrite IH by lia. split; intros H'.
    + split; [done|]. right. eauto.
    + destruct H' as [_ [E|(r' & E & Hr)]].
      * exfalso. apply (f_equal length) in E. rewrite length_app in E. simpl in E. lia.
      * apply app_inv_head in E. injection E as ->. done.
Qed.
