(* ===== verification/Utf8.v ===== *)
(** * Utf8: the UTF-8 validator behind [fc::is_utf8] ([fc/src/utf8/core.h]).

    An iterator into a string is the list of the bytes from it on; [end] is the
    empty list. *)
From S2P Require Import Prelude.
Local Open Scope Z_scope.
Local Open Scope list_scope.

Definition CODE_POINT_MAX : Z := 0x10ffff.
Definition LEAD_SURROGATE_MIN : Z := 0xd800.
Definition TRAIL_SURROGATE_MAX : Z := 0xdfff.

Definition mask8 (oc : Z) : Z := Z.land 0xff oc.
Definition is_trail (oc : Z) : bool := Z.shiftr (mask8 oc) 6 =? 2.
Definition is_surrogate (cp : Z) : bool := (cp >=? LEAD_SURROGATE_MIN) && (cp <=? TRAIL_SURROGATE_MAX).
Definition is_code_point_valid (cp : Z) : bool := (cp <=? CODE_POINT_MAX) && negb (is_surrogate cp).

Definition sequence_length (it : list Z) : Z :=
  let lead := mask8 (hd 0 it) in
  if lead <? 0x80 then 1
  else if Z.shiftr lead 5 =? 0x6 then 2
  else if Z.shiftr lead 4 =? 0xe then 3
  else if Z.shiftr lead 3 =? 0x1e then 4
  else 0.

Definition is_overlong_sequence (cp length : Z) : bool :=
  if cp <? 0x80 then negb (length =? 1)
  else if cp <? 0x800 then negb (length =? 2)
  else if cp <? 0x10000 then negb (length =? 3)
  else false.

Inductive utf_error : Set :=
  | NOT_ENOUGH_ROOM | INVALID_LEAD | INCOMPLETE_SEQUENCE | OVERLONG_SEQUENCE | INVALID_CODE_POINT.

(** [increase_safely]: the advanced iterator, or the error. *)
Definition increase_safely (it : list Z) : utf_error + list Z :=
  match it with
  | _ :: (b :: _) as it' => if negb (is_trail b) then inl INCOMPLETE_SEQUENCE else inr (tl it)
  | _ => inl NOT_ENOUGH_ROOM
  end.

Notation "'let_inc' it' := it 'in' k" :=
  (match increase_safely it with inl e => inl e | inr it' => k end)
  (at level 10, it' name, k at level 200).

(** The [get_sequence_x] return the iterator on the last byte and the code point. *)
Definition get_sequence_1 (it : list Z) : utf_error + (list Z * Z) :=
  inr (it, mask8 (hd 0 it)).

Definition get_sequence_2 (it : list Z) : utf_error + (list Z * Z) :=
  let cp := mask8 (hd 0 it) in
  let_inc it1 := it in
  inr (it1, Z.land (Z.shiftl cp 6) 0x7ff + Z.land (hd 0 it1) 0x3f).

Definition get_sequence_3 (it : list Z) : utf_error + (list Z * Z) :=
  let cp := mask8 (hd 0 it) in
  let_inc it1 := it in
  let cp := Z.land (Z.shiftl cp 12) 0xffff + Z.land (Z.shiftl (mask8 (hd 0 it1)) 6) 0xfff in
  let_inc it2 := it1 in
  inr (it2, cp + Z.land (hd 0 it2) 0x3f).

Definition get_sequence_4 (it : list Z) : utf_error + (list Z * Z) :=
  let cp := mask8 (hd 0 it) in
  let_inc it1 := it in
  let cp := Z.land (Z.shiftl cp 18) 0x1fffff + Z.land (Z.shiftl (mask8 (hd 0 it1)) 12) 0x3ffff in
  let_inc it2 := it1 in
  let cp := cp + Z.land (Z.shiftl (mask8 (hd 0 it2)) 6) 0xfff in
  let_inc it3 := it2 in
  inr (it3, cp + Z.land (hd 0 it3) 0x3f).

(** The iterator after the code point, for a non-empty input. *)
Definition validate_next (it : list Z) : utf_error + list Z :=
  let length := sequence_length it in
  if length =? 0 then inl INVALID_LEAD
  else
    match (if length =? 1 then get_sequence_1 it
           else if length =? 2 then get_sequence_2 it
           else if length =? 3 then get_sequence_3 it
           else get_sequence_4 it) with
    | inl err => inl err
    | inr (it', cp) =>
        if is_code_point_valid cp then
          if negb (is_overlong_sequence cp length) then inr (tl it')
          else inl OVERLONG_SEQUENCE
        else inl INVALID_CODE_POINT
    end.

(** Every round consumes a byte: the length of the input is enough fuel. *)
Fixpoint find_invalid (fuel : nat) (it : list Z) : list Z :=
  match fuel with
  | O => it
  | S fuel' =>
      match it with
      | [] => it
      | _ => match validate_next it with inl _ => it | inr it' => find_invalid fuel' it' end
      end
  end.

Definition is_utf8 (str : list Z) : bool :=
  match find_invalid (length str) str with [] => true | _ => false end.

(** ** Specification: RFC 3629 encoding of Unicode scalar values *)
Definition scalar (cp : Z) : Prop := 0 <= cp <= 0x10ffff /\ ~ (0xd800 <= cp <= 0xdfff).

Definition trail6 (x : Z) : Z := 128 + x mod 64.
Definition utf8_encode (cp : Z) : list Z :=
  if cp <? 0x80 then [cp]
  else if cp <? 0x800 then [192 + cp / 64; trail6 cp]
  else if cp <? 0x10000 then [224 + cp / 4096; trail6 (cp / 64); trail6 cp]
  else [240 + cp / 262144; trail6 (cp / 4096); trail6 (cp / 64); trail6 cp].

Definition byte (b : Z) : Prop := 0 <= b < 256.

(** ** Bit masks as arithmetic *)
Lemma mask8_id b : byte b -> mask8 b = b.
Proof.
  intros Hb. unfold mask8. rewrite Z.land_comm. change 0xff with (Z.ones 8).
  rewrite Z.land_ones by lia. by apply Z.mod_small.
Qed.

Lemma land_3f x : Z.land x 0x3f = x mod 64.
Proof. change 0x3f with (Z.ones 6). by rewrite Z.land_ones. Qed.

Lemma land_shiftl x k n : 0 <= k <= n -> Z.land (Z.shiftl x k) (Z.ones n) = x mod 2^(n-k) * 2^k.
Proof.
  intros. rewrite Z.land_ones, Z.shiftl_mul_pow2 by lia.
  replace (2^n) with (2^(n-k) * 2^k) by (rewrite <- Z.pow_add_r by lia; f_equal; lia).
  by rewrite Z.mul_mod_distr_r by lia.
Qed.

Lemma is_trail_spec b : byte b -> is_trail b = true <-> 128 <= b < 192.
Proof.
  intros Hb. unfold is_trail. rewrite mask8_id, Z.shiftr_div_pow2, Z.eqb_eq by (done||lia).
  change (2^6) with 64. unfold byte in *. split; intros; [pose proof (Z.div_mod b 64); pose proof (Z.mod_pos_bound b 64); lia|].
  symmetry. apply Z.div_unique with (b - 128); lia.
Qed.

Ltac zdiv := Z.to_euclidean_division_equations; lia.

Lemma sequence_length_spec b it : byte b -> sequence_length (b :: it) =
  if b <? 128 then 1 else if b <? 192 then 0 else if b <? 224 then 2
  else if b <? 240 then 3 else if b <? 248 then 4 else 0.
Proof.
  intros Hb. unfold sequence_length. cbn [hd]. rewrite mask8_id, !Z.shiftr_div_pow2 by (done||lia).
  change (2^5) with 32. change (2^4) with 16. change (2^3) with 8. unfold byte in Hb.
  pose proof (Z.div_mod b 32); pose proof (Z.mod_pos_bound b 32).
  pose proof (Z.div_mod b 16); pose proof (Z.mod_pos_bound b 16).
  pose proof (Z.div_mod b 8); pose proof (Z.mod_pos_bound b 8).
  repeat case_match; bool_simpl; lia.
Qed.

Lemma increase_safely_inv b it r : Forall byte (b :: it) ->
  increase_safely (b :: it) = inr r <-> exists c it', it = c :: it' /\ r = it /\ 128 <= c < 192.
Proof.
  intros Hb. destruct it as [|c it']; simpl; [split; [done|by intros (?&?&?&?)]|].
  assert (byte c) by (inversion_clear Hb; by inversion_clear H0).
  destruct (is_trail c) eqn:E; simpl.
  - apply is_trail_spec in E; [|done]. split; [intros [= <-]; eauto|].
    by intros (? & ? & ? & -> & ?).
  - split; [done|]. intros (? & ? & [= <- <-] & ? & Hc). apply is_trail_spec in Hc; [congruence|done].
Qed.

(** The code points computed from well-formed sequences. *)
Lemma seq_2 b c rest : 192 <= b < 224 -> 128 <= c < 192 ->
  get_sequence_2 (b :: c :: rest) = inr (c :: rest, (b - 192) * 64 + (c - 128)).
Proof.
  intros. unfold get_sequence_2, increase_safely. cbn [hd tl].
  rewrite (proj2 (is_trail_spec c ltac:(unfold byte; lia))) by lia. cbn [negb hd].
  rewrite mask8_id by (unfold byte; lia).
  change 0x7ff with (Z.ones 11). rewrite land_shiftl, land_3f by lia. do 2 f_equal. zdiv.
Qed.

Lemma seq_3 b c d rest : 224 <= b < 240 -> 128 <= c < 192 -> 128 <= d < 192 ->
  get_sequence_3 (b :: c :: d :: rest)
  = inr (d :: rest, (b - 224) * 4096 + (c - 128) * 64 + (d - 128)).
Proof.
  intros. unfold get_sequence_3, increase_safely. cbn [hd tl].
  rewrite (proj2 (is_trail_spec c ltac:(unfold byte; lia))) by lia. cbn [negb hd tl].
  rewrite (proj2 (is_trail_spec d ltac:(unfold byte; lia))) by lia. cbn [negb hd tl].
  rewrite !mask8_id by (unfold byte; lia).
  change 0xffff with (Z.ones 16). change 0xfff with (Z.ones 12).
  rewrite !land_shiftl, land_3f by lia. do 2 f_equal. zdiv.
Qed.

Lemma seq_4 b c d e rest : 240 <= b < 248 -> 128 <= c < 192 -> 128 <= d < 192 -> 128 <= e < 192 ->
  get_sequence_4 (b :: c :: d :: e :: rest)
  = inr (e :: rest, (b - 240) * 262144 + (c - 128) * 4096 + (d - 128) * 64 + (e - 128)).
Proof.
  intros. unfold get_sequence_4, increase_safely. cbn [hd tl].
  rewrite (proj2 (is_trail_spec c ltac:(unfold byte; lia))) by lia. cbn [negb hd tl].
  rewrite (proj2 (is_trail_spec d ltac:(unfold byte; lia))) by lia. cbn [negb hd tl].
  rewrite (proj2 (is_trail_spec e ltac:(unfold byte; lia))) by lia. cbn [negb hd tl].
  rewrite !mask8_id by (unfold byte; lia).
  change 0x1fffff with (Z.ones 21). change 0x3ffff with (Z.ones 18). change 0xfff with (Z.ones 12).
  rewrite !land_shiftl, land_3f by lia. do 2 f_equal. zdiv.
Qed.

Lemma is_code_point_valid_spec cp : 0 <= cp -> is_code_point_valid cp = true <-> scalar cp.
Proof.
  intros. unfold is_code_point_valid, is_surrogate, scalar, CODE_POINT_MAX, LEAD_SURROGATE_MIN,
    TRAIL_SURROGATE_MAX.
  destruct (cp <=? _) eqn:E1, (cp >=? _) eqn:E2, (cp <=? 0xdfff) eqn:E3; bool_simpl; simpl;
    split; intros; try done; lia.
Qed.

Lemma is_overlong_spec cp n : 0 <= cp -> is_overlong_sequence cp n = false <->
  (cp < 0x80 -> n = 1) /\ (0x80 <= cp < 0x800 -> n = 2) /\ (0x800 <= cp < 0x10000 -> n = 3).
Proof.
  intros. unfold is_overlong_sequence.
  destruct (cp <? 0x80) eqn:E1; [|destruct (cp <? 0x800) eqn:E2; [|destruct (cp <? 0x10000) eqn:E3]];
    bool_simpl; rewrite ?negb_false_iff, ?Z.eqb_eq; intuition lia.
Qed.

Lemma validate_encode cp rest : scalar cp -> validate_next (utf8_encode cp ++ rest) = inr rest.
Proof.
  intros Hs. assert (0 <= cp <= 0x10ffff) by apply Hs.
  assert (Hv : is_code_point_valid cp = true) by (apply is_code_point_valid_spec; [lia|done]).
  unfold utf8_encode, validate_next, trail6.
  destruct (cp <? 0x80) eqn:E1; [|destruct (cp <? 0x800) eqn:E2; [|destruct (cp <? 0x10000) eqn:E3]];
    bool_simpl; cbn [app]; rewrite sequence_length_spec by (unfold byte; zdiv).
  - rewrite (proj2 (Z.ltb_lt cp 128)) by lia. cbn [Z.eqb get_sequence_1 hd tl Pos.eqb].
    unfold get_sequence_1. cbn [hd]. rewrite mask8_id by (unfold byte; lia). rewrite Hv.
    by rewrite (proj2 (is_overlong_spec cp 1 ltac:(lia))) by lia.
  - set (b := 192 + cp / 64). assert (192 <= b < 224) by (subst b; zdiv).
    set (c := 128 + cp mod 64). assert (128 <= c < 192) by (subst c; zdiv).
    replace (if b <? 128 then 1 else _) with 2 by (repeat case_match; bool_simpl; lia).
    cbn [Z.eqb Pos.eqb]. rewrite seq_2 by done. replace (_ + (c - 128)) with cp by (subst b c; zdiv).
    rewrite Hv. by rewrite (proj2 (is_overlong_spec cp 2 ltac:(lia))) by lia.
  - set (b := 224 + cp / 4096). assert (224 <= b < 240) by (subst b; zdiv).
    set (c := 128 + cp / 64 mod 64). assert (128 <= c < 192) by (subst c; zdiv).
    set (d := 128 + cp mod 64). assert (128 <= d < 192) by (subst d; zdiv).
    replace (if b <? 128 then 1 else _) with 3 by (repeat case_match; bool_simpl; lia).
    cbn [Z.eqb Pos.eqb]. rewrite seq_3 by done. replace (_ + (d - 128)) with cp by (subst b c d; zdiv).
    rewrite Hv. by rewrite (proj2 (is_overlong_spec cp 3 ltac:(lia))) by lia.
  - set (b := 240 + cp / 262144). assert (240 <= b < 248) by (subst b; zdiv).
    set (c := 128 + cp / 4096 mod 64). assert (128 <= c < 192) by (subst c; zdiv).
    set (d := 128 + cp / 64 mod 64). assert (128 <= d < 192) by (subst d; zdiv).
    set (e := 128 + cp mod 64). assert (128 <= e < 192) by (subst e; zdiv).
    replace (if b <? 128 then 1 else _) with 4 by (repeat case_match; bool_simpl; lia).
    cbn [Z.eqb Pos.eqb]. rewrite seq_4 by done. replace (_ + (e - 128)) with cp by (subst b c d e; zdiv).
    rewrite Hv. by rewrite (proj2 (is_overlong_spec cp 4 ltac:(lia))) by lia.
Qed.

Lemma utf8_encode_2 b c : 194 <= b < 224 -> 128 <= c < 192 ->
  utf8_encode ((b - 192) * 64 + (c - 128)) = [b; c].
Proof.
  intros. unfold utf8_encode, trail6.
  rewrite (proj2 (Z.ltb_ge _ 0x80)), (proj2 (Z.ltb_lt _ 0x800)) by lia. do 2 (f_equal; try zdiv).
Qed.

Lemma utf8_encode_3 b c d : 224 <= b < 240 -> 128 <= c < 192 -> 128 <= d < 192 ->
  0x800 <= (b - 224) * 4096 + (c - 128) * 64 + (d - 128) ->
  utf8_encode ((b - 224) * 4096 + (c - 128) * 64 + (d - 128)) = [b; c; d].
Proof.
  intros. unfold utf8_encode, trail6.
  rewrite (proj2 (Z.ltb_ge _ 0x80)), (proj2 (Z.ltb_ge _ 0x800)), (proj2 (Z.ltb_lt _ 0x10000)) by lia.
  do 3 (f_equal; try zdiv).
Qed.

Lemma utf8_encode_4 b c d e : 240 <= b < 248 -> 128 <= c < 192 -> 128 <= d < 192 -> 128 <= e < 192 ->
  0x10000 <= (b - 240) * 262144 + (c - 128) * 4096 + (d - 128) * 64 + (e - 128) ->
  utf8_encode ((b - 240) * 262144 + (c - 128) * 4096 + (d - 128) * 64 + (e - 128)) = [b; c; d; e].
Proof.
  intros. unfold utf8_encode, trail6.
  rewrite (proj2 (Z.ltb_ge _ 0x80)), (proj2 (Z.ltb_ge _ 0x800)), (proj2 (Z.ltb_ge _ 0x10000)) by lia.
  do 4 (f_equal; try zdiv).
Qed.

Lemma increase_ok b it it' : Forall byte (b :: it) -> increase_safely (b :: it) = inr it' ->
  it' = it /\ exists c r, it = c :: r /\ 128 <= c < 192.
Proof.
  intros Hb H. apply increase_safely_inv in H as (c & r & -> & -> & Hc); [|done]. eauto.
Qed.

(** The shape of the input that a [get_sequence_x] accepts. *)
Lemma get_sequence_shape n b it p : Forall byte (b :: it) ->
  (n = 2 /\ get_sequence_2 (b :: it) = inr p -> exists c r, it = c :: r /\ 128 <= c < 192) /\
  (n = 3 /\ get_sequence_3 (b :: it) = inr p ->
     exists c d r, it = c :: d :: r /\ 128 <= c < 192 /\ 128 <= d < 192) /\
  (n = 4 /\ get_sequence_4 (b :: it) = inr p ->
     exists c d e r, it = c :: d :: e :: r /\ 128 <= c < 192 /\ 128 <= d < 192 /\ 128 <= e < 192).
Proof.
  intros Hb. assert (Hb' : Forall byte it) by (by inversion_clear Hb).
  unfold get_sequence_2, get_sequence_3, get_sequence_4.
  destruct (increase_safely (b :: it)) as [|it1] eqn:E1; [split_and!; naive_solver|].
  apply increase_ok in E1 as (-> & c & r & -> & Hc); [|done].
  split; [by eauto|].
  destruct (increase_safely (c :: r)) as [|it2] eqn:E2; [split_and!; naive_solver|].
  apply increase_ok in E2 as (-> & d & r' & -> & Hd); [|done].
  split; [by eauto 10|].
  destruct (increase_safely (d :: r')) as [|it3] eqn:E3; [naive_solver|].
  assert (Forall byte (d :: r')) by (by inversion_clear Hb').
  apply increase_ok in E3 as (-> & e & r'' & -> & He); [|done]. eauto 12.
Qed.

Lemma validate_next_sound it r : Forall byte it -> it <> [] -> validate_next it = inr r ->
  exists cp, scalar cp /\ it = utf8_encode cp ++ r.
Proof.
  intros Hb Hne. destruct it as [|b it]; [done|]. unfold validate_next.
  assert (Hbb : byte b) by (by inversion_clear Hb).
  rewrite sequence_length_spec by done.
  destruct (b <? 128) eqn:B1; [|destruct (b <? 192) eqn:B2; [done|destruct (b <? 224) eqn:B3;
    [|destruct (b <? 240) eqn:B4; [|destruct (b <? 248) eqn:B5; [|done]]]]]; bool_simpl;
    cbn [Z.eqb Pos.eqb]; intros Hv.
  - unfold get_sequence_1 in Hv. cbn [hd] in Hv. rewrite mask8_id in Hv by done.
    destruct (is_code_point_valid b) eqn:E1; [|done].
    apply is_code_point_valid_spec in E1; [|by destruct Hbb].
    destruct (negb _); [|done]. injection Hv as <-. exists b. split; [done|].
    unfold utf8_encode. by rewrite (proj2 (Z.ltb_lt b 0x80)).
  - destruct (get_sequence_2 (b :: it)) as [|p] eqn:Eq; [done|].
    destruct (get_sequence_shape 2 b it p Hb) as [(c & s & -> & Hc) _]; [done|].
    rewrite seq_2 in Eq by lia. injection Eq as <-. cbn [tl] in Hv.
    destruct (is_code_point_valid _) eqn:E1; [|done].
    destruct (is_overlong_sequence _ _) eqn:E2; [done|]. injection Hv as <-.
    apply is_code_point_valid_spec in E1; [|lia]. apply is_overlong_spec in E2; [|lia].
    eexists. split; [exact E1|]. by rewrite utf8_encode_2 by lia.
  - destruct (get_sequence_3 (b :: it)) as [|p] eqn:Eq; [done|].
    destruct (get_sequence_shape 3 b it p Hb) as [_ [(c & d & s & -> & Hc & Hd) _]]; [done|].
    rewrite seq_3 in Eq by lia. injection Eq as <-. cbn [tl] in Hv.
    destruct (is_code_point_valid _) eqn:E1; [|done].
    destruct (is_overlong_sequence _ _) eqn:E2; [done|]. injection Hv as <-.
    apply is_code_point_valid_spec in E1; [|lia]. apply is_overlong_spec in E2; [|lia].
    eexists. split; [exact E1|]. by rewrite utf8_encode_3 by lia.
  - destruct (get_sequence_4 (b :: it)) as [|p] eqn:Eq; [done|].
    destruct (get_sequence_shape 4 b it p Hb) as [_ [_ (c & d & e & s & -> & Hc & Hd & He)]]; [done|].
    rewrite seq_4 in Eq by lia. injection Eq as <-. cbn [tl] in Hv.
    destruct (is_code_point_valid _) eqn:E1; [|done].
    destruct (is_overlong_sequence _ _) eqn:E2; [done|]. injection Hv as <-.
    apply is_code_point_valid_spec in E1; [|lia]. apply is_overlong_spec in E2; [|lia].
    eexists. split; [exact E1|]. by rewrite utf8_encode_4 by lia.
Qed.

Lemma utf8_encode_nonempty cp : (1 <= length (utf8_encode cp))%nat.
Proof. unfold utf8_encode. repeat case_match; simpl; lia. Qed.

Lemma find_invalid_sound fuel it : Forall byte it -> find_invalid fuel it = [] ->
  exists cps, Forall scalar cps /\ it = concat (map utf8_encode cps).
Proof.
  revert it. induction fuel as [|fuel IH]; intros it Hb; simpl.
  { intros ->. exists []. by split. }
  destruct it as [|b it]; [exists []; by split|].
  destruct (validate_next (b :: it)) as [|r] eqn:Ev; [done|]. intros Hf.
  apply validate_next_sound in Ev as (cp & Hcp & Heq); [|done|done]. rewrite Heq in Hb.
  apply Forall_app in Hb as [_ Hr]. destruct (IH r Hr Hf) as (cps & Hs & ->).
  exists (cp :: cps). split; [by constructor|]. done.
Qed.

Lemma find_invalid_complete fuel cps : Forall scalar cps ->
  (length (concat (map utf8_encode cps)) <= fuel)%nat ->
  find_invalid fuel (concat (map utf8_encode cps)) = [].
Proof.
  intros Hs. revert fuel. induction Hs as [|cp cps Hcp Hs IH]; intros fuel Hf; [by destruct fuel|].
  cbn [map concat] in *. pose proof (utf8_encode_nonempty cp). rewrite length_app in Hf.
  destruct fuel as [|fuel]; [lia|]. cbn [find_invalid].
  destruct (utf8_encode cp ++ _) as [|b r] eqn:E.
  { apply (f_equal length) in E. rewrite length_app in E. simpl in E. lia. }
  rewrite <- E, validate_encode by done. apply IH. lia.
Qed.
