(* ===== verification/Raw.v ===== *)
(** * Raw: the binary serialization of the values the chain unpacks itself
    ([fc/io/raw.hpp], [fc/io/datastream.hpp]).

    A [datastream<const char*>] is the list of the bytes left to read; reading
    past the end throws.  The recursion-depth guards are omitted: the depth of
    the types below is at most six, the limit is 25. *)
From S2P Require Import Prelude Names Asset Config.
Local Open Scope Z_scope.
Local Open Scope list_scope.

Definition MAX_ARRAY_ALLOC_SIZE : Z := 1024 * 1024 * 10.

Definition stream (A : Type) : Type := ST (list Z) A.

Definition ds_get : stream Z := fun s =>
  match s with b :: s' => Ok (b, s') | [] => Throw out_of_range end.
Definition ds_read (n : nat) : stream (list Z) := fun s =>
  if (n <=? length s)%nat then Ok (take n s, drop n s) else Throw out_of_range.

(** Fixed-width little-endian integers. *)
Fixpoint le_bytes (n : nat) (v : Z) : list Z :=
  match n with O => [] | S n' => v mod 256 :: le_bytes n' (v / 256) end.
Fixpoint le_value (bs : list Z) : Z :=
  match bs with [] => 0 | b :: bs' => b + 256 * le_value bs' end.

Definition pack_u32 (v : Z) : list Z := le_bytes 4 v.
Definition unpack_u32 : stream Z := bs ← ds_read 4; mret (le_value bs).
Definition pack_u64 (v : Z) : list Z := le_bytes 8 v.
Definition unpack_u64 : stream Z := bs ← ds_read 8; mret (le_value bs).
(** Two's complement. *)
Definition pack_i64 (v : Z) : list Z := le_bytes 8 (u64 v).
Definition unpack_i64 : stream Z := bs ← ds_read 8; mret (i64 (le_value bs)).

(** [unsigned_int]: seven bits per byte, low ones first. *)
Fixpoint pack_varint_fuel (n : nat) (val : Z) : list Z :=
  match n with
  | O => []
  | S n' =>
      let b := Z.land val 0x7f in
      let val' := Z.shiftr val 7 in
      if val' >? 0 then Z.lor b 0x80 :: pack_varint_fuel n' val' else [b]
  end.
(** A 32-bit value has at most five groups of seven bits. *)
Definition pack_unsigned_int (v : Z) : list Z := pack_varint_fuel 5 v.

(** The sixth byte would be shifted by 35 bits in 32-bit arithmetic, which is
    undefined: [crash]. *)
Fixpoint unpack_varint_fuel (n : nat) (v by_ : Z) : stream Z :=
  match n with
  | O => _ ← ds_get; mthrow crash
  | S n' =>
      b ← ds_get;
      let v' := Z.lor v (u32 (Z.shiftl (Z.land b 0x7f) by_)) in
      if negb (Z.land b 0x80 =? 0) then unpack_varint_fuel n' v' (by_ + 7) else mret (u32 v')
  end.
Definition unpack_unsigned_int : stream Z := unpack_varint_fuel 5 0 0.

Definition pack_string (v : list Z) : list Z := pack_unsigned_int (u32 (Z.of_nat (length v))) ++ v.
Definition unpack_string : stream (list Z) :=
  size ← unpack_unsigned_int;
  fc_assert (size <? MAX_ARRAY_ALLOC_SIZE) ;;
  ds_read (Z.to_nat size).

Fixpoint repeat_unpack {A} (n : nat) (m : stream A) : stream (list A) :=
  match n with
  | O => mret []
  | S n' => x ← m; xs ← repeat_unpack n' m; mret (x :: xs)
  end.
(** [vector<T>]; [sizeof] is the size of a [T] in memory. *)
Definition pack_vector {A} (pack : A -> list Z) (v : list A) : list Z :=
  pack_unsigned_int (u32 (Z.of_nat (length v))) ++ concat (map pack v).
Definition unpack_vector {A} (sizeof : Z) (m : stream A) : stream (list A) :=
  size ← unpack_unsigned_int;
  fc_assert (size * sizeof <? MAX_ARRAY_ALLOC_SIZE) ;;
  repeat_unpack (Z.to_nat size) m.

Definition pack_asset (a : asset) : list Z := pack_i64 (amount a) ++ pack_u64 (symbol a).
Definition unpack_asset : stream asset :=
  n ← unpack_i64; s ← unpack_u64; mret (Asset n s).

Definition pack_price (p : price) : list Z := pack_asset (base p) ++ pack_asset (quote p).
Definition unpack_price : stream price :=
  b ← unpack_asset; q ← unpack_asset; mret (Price b q).

(** A key is its 33 bytes, read as a big-endian number. *)
Definition pack_public_key (k : public_key_type) : list Z := be_bytes 33 k.
Definition unpack_public_key : stream public_key_type := bs ← ds_read 33; mret (be_value bs).

(** [unpack_from_vector( s, tmp, 0 )]: an empty vector leaves [tmp] as it was;
    bytes left over are ignored. *)
Definition unpack_from_vector {A} (s : list Z) (m : stream A) (tmp : A) : res A :=
  match s with
  | [] => Ok tmp
  | _ => r ← m s; Ok (fst r)
  end.

(** ** Round trips: unpacking what was packed, whatever follows it. *)
Definition unpacks {A} (m : stream A) (bs : list Z) (x : A) : Prop :=
  forall rest, m (bs ++ rest) = Ok (x, rest).

Lemma unpacks_bind {A B} (m : stream A) (f : A -> stream B) bs cs x y :
  unpacks m bs x -> unpacks (f x) cs y -> unpacks (x ← m; f x) (bs ++ cs) y.
Proof. intros Hm Hf rest. rewrite <- app_assoc. unfold mbind, ST_bind. by rewrite Hm, Hf. Qed.

Lemma unpacks_ret {A} (x : A) : unpacks (mret x) [] x.
Proof. by intros rest. Qed.

Lemma unpacks_map {A B} (m : stream A) (f : A -> B) bs x :
  unpacks m bs x -> unpacks (x ← m; mret (f x)) bs (f x).
Proof. intros Hm. rewrite <- (app_nil_r bs). by eapply unpacks_bind; [|apply unpacks_ret]. Qed.

Lemma unpacks_read bs : unpacks (ds_read (length bs)) bs bs.
Proof.
  intros rest. unfold ds_read. rewrite length_app.
  replace (length bs <=? length bs + length rest)%nat with true by (symmetry; apply Nat.leb_le; lia).
  by rewrite take_app_length, drop_app_length.
Qed.

Lemma le_bytes_length n v : length (le_bytes n v) = n.
Proof. revert v. induction n as [|n IH]; intros; simpl; [done|]. by rewrite IH. Qed.

Lemma le_value_bytes n v : 0 <= v < 256 ^ Z.of_nat n -> le_value (le_bytes n v) = v.
Proof.
  revert v. induction n as [|n IH]; intros v Hv; simpl; [simpl in Hv; lia|].
  rewrite Nat2Z.inj_succ, Z.pow_succ_r in Hv by lia.
  rewrite IH; [pose proof (Z.div_mod v 256); lia|].
  split; [apply Z.div_pos; lia|]. apply Z.div_lt_upper_bound; lia.
Qed.

Lemma unpacks_le {B} (f : Z -> B) n v : 0 <= v < 256 ^ Z.of_nat n ->
  unpacks (bs ← ds_read n; mret (f (le_value bs))) (le_bytes n v) (f v).
Proof.
  intros Hv. rewrite <- (le_value_bytes n v Hv) at 2.
  rewrite <- (le_bytes_length n v) at 1. apply unpacks_map with (f := fun bs => f (le_value bs)).
  apply unpacks_read.
Qed.

Lemma i64_u64 v : INT64_MIN <= v <= INT64_MAX -> i64 (u64 v) = v.
Proof.
  unfold INT64_MIN, INT64_MAX, i64, u64. intros Hv.
  rewrite Zplus_mod_idemp_l. rewrite Z.mod_small; lia.
Qed.

Lemma unpacks_u64 v : 0 <= v < 2^64 -> unpacks unpack_u64 (pack_u64 v) v.
Proof. intros. by apply (unpacks_le id 8). Qed.
Lemma unpacks_u32 v : 0 <= v < 2^32 -> unpacks unpack_u32 (pack_u32 v) v.
Proof. intros. by apply (unpacks_le id 4). Qed.

Lemma unpacks_i64 v : INT64_MIN <= v <= INT64_MAX -> unpacks unpack_i64 (pack_i64 v) v.
Proof.
  intros Hv. rewrite <- (i64_u64 v Hv) at 2. apply (unpacks_le i64 8). apply u64_range.
Qed.

Lemma testbit_7 val : 0 <= val < 128 -> Z.land val 0x80 = 0 /\ Z.land (Z.lor val 0x80) 0x80 <> 0
  /\ Z.land (Z.lor val 0x80) 0x7f = val.
Proof.
  intros Hv.
  assert (H80 : Z.land val 0x80 = 0).
  { replace val with (Z.land val (Z.ones 7)).
    - rewrite <- Z.land_assoc. change (Z.land (Z.ones 7) 0x80) with 0. apply Z.land_0_r.
    - rewrite Z.land_ones by lia. apply Z.mod_small. lia. }
  split; [done|]. rewrite !Z.land_lor_distr_l, H80. split; [done|].
  change (Z.land 0x80 0x7f) with 0. rewrite Z.lor_0_r. change 0x7f with (Z.ones 7).
  rewrite Z.land_ones by lia. by apply Z.mod_small.
Qed.

(** The value accumulated so far sits below bit [by_]. *)
Lemma unpacks_varint n v by_ val : (0 < n)%nat -> 0 <= by_ -> 0 <= v < 2^by_ -> 0 <= val ->
  val < 2 ^ (7 * Z.of_nat n) -> v + val * 2^by_ < 2^32 ->
  unpacks (unpack_varint_fuel n v by_) (pack_varint_fuel n val) (v + val * 2^by_).
Proof.
  revert v by_ val. induction n as [|n IH]; intros v by_ val Hn Hby Hv Hval Hn7 Hb; [lia|].
  assert (Hp : 0 < 2^by_) by (apply Z.pow_pos_nonneg; lia).
  assert (Hlor : forall x, 0 <= x -> x * 2^by_ < 2^32 ->
            Z.lor v (u32 (Z.shiftl x by_)) = v + x * 2^by_).
  { intros x Hx Hlt. unfold u32. rewrite Z.shiftl_mul_pow2, Z.mod_small by nia.
    pose proof (Z.add_lor_land v (x * 2^by_)) as Ha.
    enough (Z.land v (x * 2^by_) = 0) by lia.
    rewrite <- Z.shiftl_mul_pow2 by lia. apply Z.bits_inj'. intros i Hi.
    rewrite Z.land_spec, Z.bits_0. destruct (Z.lt_ge_cases i by_).
    - rewrite Z.shiftl_spec_low by lia. apply andb_false_r.
    - rewrite (Z.mod_small v (2^by_)) at 1 || idtac.
      replace v with (v mod 2^by_) by (apply Z.mod_small; lia).
      by rewrite Z.mod_pow2_bits_high by lia. }
  cbn [pack_varint_fuel unpack_varint_fuel].
  assert (Hl : Z.land val 0x7f = val mod 128) by (change 0x7f with (Z.ones 7); by rewrite Z.land_ones).
  rewrite Hl. pose proof (Z.mod_pos_bound val 128 ltac:(lia)) as Hm.
  pose proof (Z.div_mod val 128 ltac:(lia)) as Hdm.
  rewrite Z.shiftr_div_pow2 by lia. change (2^7) with 128.
  destruct (testbit_7 (val mod 128) Hm) as (T1 & T2 & T3).
  assert (0 <= val / 128) by (apply Z.div_pos; lia).
  destruct (val / 128 >? 0) eqn:E; bool_simpl.
  - intros rest. cbn [app]. unfold mbind at 1, ST_bind at 1. cbn [ds_get].
    rewrite T3, (proj2 (Z.eqb_neq _ 0) T2). cbn [negb]. rewrite Hlor by nia.
    assert (E7 : 2^(by_ + 7) = 2^by_ * 128) by (rewrite Z.pow_add_r by lia; done).
    destruct n as [|n].
    { change (2 ^ (7 * Z.of_nat 1)) with 128 in Hn7. rewrite Z.div_small in E by lia. lia. }
    rewrite IH; [do 2 f_equal; rewrite E7; nia|lia|lia| | | |].
    + rewrite E7. nia.
    + done.
    + replace (7 * Z.of_nat (S (S n))) with (7 * Z.of_nat (S n) + 7) in Hn7 by lia.
      rewrite Z.pow_add_r in Hn7 by lia. change (2^7) with 128 in Hn7. nia.
    + rewrite E7. nia.
  - intros rest. cbn [app]. unfold mbind at 1, ST_bind at 1. cbn [ds_get].
    assert (val mod 128 = val) as Hs by lia. rewrite Hs in *.
    rewrite T1. cbn [Z.eqb negb]. change 0x7f with (Z.ones 7).
    rewrite Z.land_ones, Z.mod_small by (simpl; lia). rewrite Hlor by lia.
    unfold mret, ST_ret, u32. rewrite Z.mod_small by nia. done.
Qed.

Lemma unpacks_unsigned_int v : 0 <= v < 2^32 -> unpacks unpack_unsigned_int (pack_unsigned_int v) v.
Proof.
  intros Hv. unfold unpack_unsigned_int, pack_unsigned_int.
  pose proof (unpacks_varint 5 0 0 v) as H.
  replace (0 + v * 2^0) with v in H by lia. apply H; lia.
Qed.

Definition asset_wf (a : asset) : Prop :=
  INT64_MIN <= amount a <= INT64_MAX /\ 0 <= symbol a < 2^64.

Lemma unpacks_asset a : asset_wf a -> unpacks unpack_asset (pack_asset a) a.
Proof.
  intros [Ha Hs]. destruct a as [n s]. unfold unpack_asset, pack_asset. cbn [amount symbol] in *.
  eapply unpacks_bind; [by apply unpacks_i64|].
  apply unpacks_map with (f := fun s => Asset n s). by apply unpacks_u64.
Qed.

Lemma unpacks_price p : asset_wf (base p) -> asset_wf (quote p) ->
  unpacks unpack_price (pack_price p) p.
Proof.
  intros Hb Hq. destruct p as [b q]. unfold unpack_price, pack_price. cbn [base quote] in *.
  eapply unpacks_bind; [by apply unpacks_asset|].
  apply unpacks_map with (f := fun q => Price b q). by apply unpacks_asset.
Qed.

Lemma unpacks_repeat {A} (m : stream A) pack xs : Forall (fun x => unpacks m (pack x) x) xs ->
  unpacks (repeat_unpack (length xs) m) (concat (map pack xs)) xs.
Proof.
  induction 1 as [|x xs Hx Hxs IH]; [by apply unpacks_ret|].
  cbn [length repeat_unpack map concat]. eapply unpacks_bind; [exact Hx|].
  by apply unpacks_map with (f := fun xs => x :: xs).
Qed.

Lemma unpacks_vector {A} (m : stream A) pack sizeof xs :
  Forall (fun x => unpacks m (pack x) x) xs -> 1 <= sizeof ->
  Z.of_nat (length xs) * sizeof < MAX_ARRAY_ALLOC_SIZE ->
  unpacks (unpack_vector sizeof m) (pack_vector pack xs) xs.
Proof.
  intros Hxs Hs Hl. unfold MAX_ARRAY_ALLOC_SIZE in Hl. unfold unpack_vector, pack_vector.
  assert (0 <= Z.of_nat (length xs) < 2^32) by nia.
  unfold u32. rewrite Z.mod_small by lia.
  eapply unpacks_bind; [apply unpacks_unsigned_int; lia|].
  unfold MAX_ARRAY_ALLOC_SIZE. rewrite (proj2 (Z.ltb_lt _ _)) by lia.
  rewrite Nat2Z.id. intros rest. cbv beta. unfold fc_assert, sophiatx_assert.
  unfold mbind, ST_bind, mret, ST_ret. by apply unpacks_repeat.
Qed.

Lemma unpacks_string s : Z.of_nat (length s) < MAX_ARRAY_ALLOC_SIZE ->
  unpacks unpack_string (pack_string s) s.
Proof.
  intros Hl. unfold MAX_ARRAY_ALLOC_SIZE in Hl. unfold unpack_string, pack_string.
  unfold u32. rewrite Z.mod_small by lia.
  eapply unpacks_bind; [apply unpacks_unsigned_int; lia|].
  unfold MAX_ARRAY_ALLOC_SIZE. rewrite (proj2 (Z.ltb_lt _ _)) by lia.
  rewrite Nat2Z.id. intros rest. unfold fc_assert, sophiatx_assert.
  unfold mbind, ST_bind, mret, ST_ret. apply unpacks_read.
Qed.

Lemma unpack_from_vector_packed {A} (m : stream A) bs x tmp :
  unpacks m bs x -> bs <> [] -> unpack_from_vector bs m tmp = Ok x.
Proof.
  intros Hm Hne. specialize (Hm []). rewrite app_nil_r in Hm. unfold unpack_from_vector.
  destruct bs; [done|]. rewrite Hm. done.
Qed.
