(* ===== verification/KeyText.v ===== *)
(** * KeyText: hexadecimal and base-58 texts, private keys in the wallet import format
    and public keys as text ([fc/src/crypto/hex.cpp], [fc/src/crypto/base58.cpp],
    [utilities/key_conversion.cpp], [protocol/types.cpp]).

    OpenSSL's big numbers are integers, its RIPEMD-160 and SHA-256 are parameters. *)
From Stdlib Require Import String.
From S2P Require Import Prelude Safe Names Asset Double AssetText Json Config Raw.
Local Open Scope Z_scope.
Local Open Scope list_scope.

(** ** hex.cpp *)
Definition from_hex_char (c : Z) : res Z :=
  if (48 <=? c) && (c <=? 57) then Ok (c - 48)
  else if (97 <=? c) && (c <=? 102) then Ok (c - 97 + 10)
  else if (65 <=? c) && (c <=? 70) then Ok (c - 65 + 10)
  else Throw fc_exception.
Definition to_hex (d : list Z) : list Z :=
  flat_map (fun c => [hex_digit (Z.shiftr c 4); hex_digit (Z.land c 0x0f)]) d.
(** The bytes written; an odd digit at the end is the high half of its byte. *)
Fixpoint from_hex (hex_str : list Z) (out_data_len : nat) : res (list Z) :=
  match out_data_len, hex_str with
  | O, _ | _, [] => Ok []
  | S _, [c] => h ← from_hex_char c; Ok [u8 (Z.shiftl h 4)]
  | S n, c :: d :: rest =>
      h ← from_hex_char c; l ← from_hex_char d; out ← from_hex rest n;
      Ok (Z.lor (u8 (Z.shiftl h 4)) l :: out)
  end.
(** [vector<char>] as a variant. *)
Definition vector_to_variant (var : list Z) : variant := v_string (to_hex var).
Definition vector_from_variant (var : variant) : res (list Z) :=
  str ← as_string var;
  fc_assert (Z.of_nat (length str) mod 2 =? 0) ;;
  vo ← from_hex str (length str / 2);
  fc_assert (Nat.eqb (length vo) (length str / 2)) ;;
  Ok vo.

(** ** base58.cpp *)
Definition pszBase58 : list Z :=
  Eval vm_compute in bytes_of_string "123456789ABCDEFGHJKLMNPQRSTUVWXYZabcdefghijkmnopqrstuvwxyz".
(** The digits of a number, low ones first. *)
Fixpoint digits (b : Z) (fuel : nat) (n : Z) : list Z :=
  match fuel with
  | O => []
  | S fuel => if n <=? 0 then [] else n mod b :: digits b fuel (n / b)
  end.
(** A number has no more digits than bits. *)
Definition digits_of (b n : Z) : list Z := digits b (Z.to_nat (Z.log2 n + 1)) n.
Fixpoint value_of (b : Z) (ds : list Z) : Z :=
  match ds with [] => 0 | d :: ds => d + b * value_of b ds end.
Fixpoint leading (c : Z) (s : list Z) : nat :=
  match s with [] => O | x :: s => if x =? c then S (leading c s) else O end.

Definition EncodeBase58 (bs : list Z) : list Z :=
  let bn := value_of 256 (rev bs ++ [0]) in
  rev (map (fun c => nth (Z.to_nat c) pszBase58 0) (digits_of 58 bn) ++ repeat 49 (leading 0 bs)).
Fixpoint decode_digits (bn : Z) (p : list Z) : option Z :=
  match p with
  | [] => Some bn
  | c :: p' =>
      match find_char c pszBase58 with
      | Some i => decode_digits (bn * 58 + Z.of_nat i) p'
      | None => match trim_left p with [] => Some bn | _ => None end
      end
  end.
(** [bn.getvch()] without its sign byte: no byte for zero, else the bytes of the number. *)
Definition DecodeBase58 (s : list Z) : option (list Z) :=
  let psz := trim_left (c_str s) in
  bn ← decode_digits 0 psz;
  Some (repeat 0 (leading 49 psz) ++ rev (digits_of 256 bn)).

Definition to_base58 (d : list Z) : list Z := EncodeBase58 d.
Definition from_base58 (base58_str : list Z) : res (list Z) :=
  match DecodeBase58 base58_str with Some out => Ok out | None => Throw parse_error_exception end.

(** ** key_conversion.cpp *)
Class sha256_function := { sha256_hash : list Z -> list Z }.
Definition bytes (l : list Z) : Prop := Forall (fun x => 0 <= x < 256) l.
Class sha256_laws `{sha256_function} : Prop := {
  sha256_length : forall d, length (sha256_hash d) = 32%nat;
  sha256_bytes : forall d, bytes (sha256_hash d) }.

Section private_keys.
  Context `{sha256_function}.

Definition key_to_wif (secret : list Z) : list Z :=
  let data := 0x80 :: secret in
  to_base58 (data ++ take 4 (sha256_hash (sha256_hash data))).

(** [sha256] from a variant: the first 32 bytes, completed with zeros. *)
Definition sha256_from_variant (v : variant) : res (list Z) :=
  ve ← vector_from_variant v; Ok (take 32 (ve ++ repeat 0 32)).
Definition wif_to_key (wif_key : list Z) : res (option (list Z)) :=
  match from_base58 wif_key with
  | Throw parse_error_exception => Ok None
  | Throw e => Throw e
  | Ok wif_bytes =>
      let n := length wif_bytes in
      if Nat.ltb n 5 then Ok None
      else
        let key_bytes := drop 1 (take (n - 4) wif_bytes) in
        key ← sha256_from_variant (vector_to_variant key_bytes);
        let check := sha256_hash (take (n - 4) wif_bytes) in
        let check2 := sha256_hash check in
        let sent := drop (n - 4) wif_bytes in
        Ok (if bool_decide (take 4 check = sent) || bool_decide (take 4 check2 = sent) then Some key else None)
  end.
End private_keys.

(** ** types.cpp *)
Definition SOPHIATX_ADDRESS_PREFIX : list Z := Eval vm_compute in bytes_of_string "SPH".
Class ripemd160_laws `{externals} : Prop := {
  ripemd160_length : forall d, length (ripemd160_hash d) = 20%nat;
  ripemd160_bytes : forall d, bytes (ripemd160_hash d) }.

Section public_keys.
  Context `{externals}.

(** The first word of the hash. *)
Definition key_check (key : list Z) : Z := le_value (take 4 (ripemd160_hash key)).
(** The reader of a packed key; it starts from zeros and reads nothing from no bytes. *)
Definition unpack_key (size : nat) (m : stream (list Z * Z)) (bin : list Z) : res (list Z * Z) :=
  match bin with [] => Ok (repeat 0 size, 0) | _ => r ← m bin; Ok (fst r) end.
Definition key_of_string (size : nat) (m : stream (list Z * Z)) (base58str : list Z) : res (list Z) :=
  fc_assert (Nat.ltb (length SOPHIATX_ADDRESS_PREFIX) (length base58str)) ;;
  fc_assert (bool_decide (take (length SOPHIATX_ADDRESS_PREFIX) base58str = SOPHIATX_ADDRESS_PREFIX)) ;;
  bin ← from_base58 (drop (length SOPHIATX_ADDRESS_PREFIX) base58str);
  bin_key ← unpack_key size m bin;
  fc_assert (key_check (fst bin_key) =? snd bin_key) ;;
  Ok (fst bin_key).

(** [public_key_type]: 33 bytes and the check. *)
Definition public_key_to_string (key_data : list Z) : list Z :=
  SOPHIATX_ADDRESS_PREFIX ++ to_base58 (key_data ++ pack_u32 (key_check key_data)).
Definition public_key_from_string (base58str : list Z) : res (list Z) :=
  key_of_string 33 (data ← ds_read 33; check ← unpack_u32; mret (data, check)) base58str.
(** [extended_public_key_type], [extended_private_key_type]: the check and 78 bytes. *)
Definition extended_key_to_string (key_data : list Z) : list Z :=
  SOPHIATX_ADDRESS_PREFIX ++ to_base58 (pack_u32 (key_check key_data) ++ key_data).
Definition extended_key_from_string (base58str : list Z) : res (list Z) :=
  key_of_string 78 (check ← unpack_u32; data ← ds_read 78; mret (data, check)) base58str.
End public_keys.

(** ** Numbers and their digits *)
Lemma value_app b x y : 0 < b -> value_of b (x ++ y) = value_of b x + b^Z.of_nat (length x) * value_of b y.
Proof.
  intros Hb. induction x as [|d x IH]; cbn [app value_of length]; [lia|].
  rewrite IH, Nat2Z.inj_succ, Z.pow_succ_r by lia. lia.
Qed.
Lemma value_nonneg b ds : 0 < b -> Forall (fun d => 0 <= d < b) ds -> 0 <= value_of b ds.
Proof. intros Hb. induction 1; cbn [value_of]; nia. Qed.

(** Digits without superfluous zeros at the high end. *)
Definition normal (b : Z) (ds : list Z) : Prop :=
  Forall (fun d => 0 <= d < b) ds /\ (ds <> [] -> 0 < List.last ds 0).
Lemma normal_positive b d ds : 0 < b -> normal b (d :: ds) -> 0 < value_of b (d :: ds).
Proof.
  intros Hb [Hf Hl]. specialize (Hl ltac:(done)). revert d Hf Hl.
  induction ds as [|e ds IH]; intros d Hf Hl; apply Forall_cons_1 in Hf as [Hd Hf]; cbn [value_of].
  - cbn in Hl. lia.
  - specialize (IH e Hf Hl). cbn [value_of] in IH. nia.
Qed.
Lemma normal_tail b d ds : normal b (d :: ds) -> normal b ds.
Proof.
  intros [Hf Hl]. apply Forall_cons_1 in Hf as [_ Hf]. split; [done|]. intros Hne. destruct ds; [done|]. by apply Hl.
Qed.

(** From enough fuel, the digits of a value are the digits. *)
Lemma digits_value b ds fuel : 2 <= b -> normal b ds -> value_of b ds < 2^Z.of_nat fuel ->
  digits b fuel (value_of b ds) = ds.
Proof.
  intros Hb. revert fuel. induction ds as [|d ds IH]; intros fuel Hn Hf.
  - by destruct fuel.
  - pose proof (normal_positive b d ds ltac:(lia) Hn) as Hpos. destruct fuel as [|fuel].
    { change (2^Z.of_nat 0) with 1 in Hf. lia. }
    cbn [digits]. destruct (Z.leb_spec (value_of b (d :: ds)) 0); [lia|]. cbn [value_of] in *.
    pose proof (normal_tail b d ds Hn) as Hn'. destruct Hn as [Hfd _]. apply Forall_cons_1 in Hfd as [Hd Hfd].
    pose proof (value_nonneg b ds ltac:(lia) Hfd) as Hv. set (v := value_of b ds) in *.
    replace (d + b * v) with (d + v * b) by lia. rewrite Z.mod_add, Z.mod_small, Z.div_add, Z.div_small by lia.
    rewrite Z.add_0_l. f_equal. apply IH; [done|]. rewrite Nat2Z.inj_succ, Z.pow_succ_r in Hf by lia. nia.
Qed.
Lemma digits_of_value b ds : 2 <= b -> normal b ds -> digits_of b (value_of b ds) = ds.
Proof.
  intros Hb Hn. apply digits_value; [done|done|]. rewrite Z2Nat.id by (pose proof (Z.log2_nonneg (value_of b ds)); lia).
  destruct ds as [|d ds]; [done|]. pose proof (normal_positive b d ds ltac:(lia) Hn) as Hpos.
  apply Z.log2_spec in Hpos. rewrite <- Z.add_1_r in Hpos. lia.
Qed.

Lemma digits_spec b fuel n : 2 <= b -> 0 <= n < 2^Z.of_nat fuel ->
  normal b (digits b fuel n) /\ value_of b (digits b fuel n) = n.
Proof.
  intros Hb. revert n. induction fuel as [|fuel IH]; intros n Hn.
  - cbn in Hn. cbn. split; [|lia]. split; [constructor|done].
  - cbn [digits]. destruct (Z.leb_spec n 0); [split; [split; [constructor|done]|cbn; lia]|].
    rewrite Nat2Z.inj_succ, Z.pow_succ_r in Hn by lia. pose proof (Z.div_mod n b ltac:(lia)) as Hdm.
    pose proof (Z.mod_pos_bound n b ltac:(lia)) as Hm.
    destruct (IH (n / b)) as [[Hf Hl] Hv].
    { split; [apply Z.div_pos; lia|]. apply Z.div_lt_upper_bound; nia. }
    split; [|cbn [value_of]; rewrite Hv; lia]. split; [by constructor|]. intros _.
    destruct (digits b fuel (n / b)) as [|e ds] eqn:E; [|apply Hl; done].
    cbn in Hv |- *. lia.
Qed.
Lemma digits_of_spec b n : 2 <= b -> 0 <= n -> normal b (digits_of b n) /\ value_of b (digits_of b n) = n.
Proof.
  intros Hb Hn. apply digits_spec; [done|]. split; [done|].
  rewrite Z2Nat.id by (pose proof (Z.log2_nonneg n); lia).
  destruct (Z.eq_dec n 0) as [->|]; [done|]. pose proof (Z.log2_spec n ltac:(lia)). rewrite Z.add_1_r. lia.
Qed.

(** ** Leading characters *)
Lemma leading_repeat c n s : leading c (repeat c n ++ s) = (n + leading c s)%nat.
Proof. induction n as [|n IH]; cbn; [done|]. by rewrite Z.eqb_refl, IH. Qed.
Lemma leading_split c s : exists t, s = repeat c (leading c s) ++ t /\ leading c t = O.
Proof.
  induction s as [|x s (t & E & Ht)]; [by exists []|]. cbn [leading]. destruct (Z.eqb_spec x c) as [->|Hne].
  - exists t. split; [|done]. cbn. by rewrite <- E.
  - exists (x :: s). split; [done|]. cbn. by destruct (Z.eqb_spec x c).
Qed.
(** Bytes are zeros and then the bytes of a number. *)
Lemma leading_none_normal b t : Forall (fun d => 0 <= d < b) t -> leading 0 t = O -> normal b (rev t).
Proof.
  intros Hf Hl. split; [by apply Forall_rev|]. intros Hne. destruct t as [|x t]; [done|]. cbn [rev]. rewrite last_last.
  apply Forall_cons_1 in Hf as [Hx _]. cbn in Hl. destruct (Z.eqb_spec x 0); [done|lia].
Qed.

Lemma rev_repeat {A} (x : A) n : rev (repeat x n) = repeat x n.
Proof. induction n as [|n IH]; [done|]. cbn [repeat rev]. by rewrite IH, <- repeat_cons. Qed.
Lemma value_zeros b n : value_of b (repeat 0 n) = 0.
Proof. induction n as [|n IH]; cbn [repeat value_of]; [done|]. rewrite IH. lia. Qed.
Lemma value_pad b ds n : 0 < b -> value_of b (ds ++ repeat 0 n) = value_of b ds.
Proof. intros Hb. rewrite value_app, value_zeros by done. lia. Qed.

(** ** The alphabet *)
Definition base58_char (d : Z) : Z := nth (Z.to_nat d) pszBase58 0.
Lemma alphabet_checks : forallb (fun k => bool_decide (find_char (base58_char (Z.of_nat k)) pszBase58 = Some k)
  && negb (is_space (base58_char (Z.of_nat k))) && negb (base58_char (Z.of_nat k) =? 0)
  && Bool.eqb (base58_char (Z.of_nat k) =? 49) (Z.of_nat k =? 0)) (seq 0 58) = true.
Proof. vm_compute. reflexivity. Qed.
Lemma base58_char_spec d : 0 <= d < 58 -> find_char (base58_char d) pszBase58 = Some (Z.to_nat d) /\
  is_space (base58_char d) = false /\ base58_char d <> 0 /\ (base58_char d =? 49) = (d =? 0).
Proof.
  intros Hd. pose proof (proj1 (forallb_forall _ _) alphabet_checks (Z.to_nat d)) as H.
  cbv beta in H. rewrite !Z2Nat.id in H by lia. specialize (H ltac:(apply in_seq; lia)). rewrite !andb_true_iff in H.
  destruct H as [[[H1 H2] H3] H4]. apply bool_decide_eq_true in H1. apply negb_true_iff in H2, H3. apply eqb_prop in H4.
  by apply Z.eqb_neq in H3.
Qed.

Lemma decode_digits_text ds acc : Forall (fun d => 0 <= d < 58) ds ->
  decode_digits acc (map base58_char ds) = Some (acc * 58^Z.of_nat (length ds) + value_of 58 (rev ds)).
Proof.
  intros Hf. revert acc. induction Hf as [|d ds Hd Hf IH]; intros acc; cbn [map decode_digits length rev].
  - cbn. f_equal. lia.
  - destruct (base58_char_spec d Hd) as (-> & _). rewrite IH, Z2Nat.id by lia. f_equal.
    rewrite value_app, Nat2Z.inj_succ, Z.pow_succ_r, length_rev by lia. cbn [value_of]. lia.
Qed.
Lemma text_plain ds : Forall (fun d => 0 <= d < 58) ds ->
  trim_left (c_str (map base58_char ds)) = map base58_char ds.
Proof.
  intros Hf. rewrite c_str_none.
  - apply trim_left_none. destruct ds as [|d ds]; [done|]. apply Forall_cons_1 in Hf as [Hd _]. by apply base58_char_spec.
  - apply Forall_map. eapply Forall_impl; [exact Hf|]. intros d Hd. by apply base58_char_spec.
Qed.
Lemma leading_text ds : Forall (fun d => 0 <= d < 58) ds -> leading 49 (map base58_char ds) = leading 0 ds.
Proof.
  induction 1 as [|d ds Hd Hf IH]; [done|]. cbn [map leading]. destruct (base58_char_spec d Hd) as (_ & _ & _ & ->).
  by rewrite IH.
Qed.
Lemma normal_leading b ds : normal b ds -> leading 0 (rev ds) = O.
Proof.
  intros [_ Hl]. destruct (rev ds) as [|x l] eqn:E; [done|]. apply (f_equal (@rev Z)) in E. rewrite rev_involutive in E.
  subst ds. cbn [rev] in Hl. rewrite last_last in Hl. cbn. destruct (Z.eqb_spec x 0); [|done].
  specialize (Hl ltac:(by destruct (rev l))). lia.
Qed.

(** The text of bytes: a one for each leading zero, then the digits of the number. *)
Lemma EncodeBase58_text bs t k : bs = repeat 0 k ++ t -> leading 0 t = O ->
  EncodeBase58 bs = map base58_char (repeat 0 k ++ rev (digits_of 58 (value_of 256 (rev t)))).
Proof.
  intros -> Ht. unfold EncodeBase58. rewrite leading_repeat, Ht, Nat.add_0_r.
  rewrite (rev_app_distr (repeat 0 k) t), rev_repeat, <- app_assoc. change (repeat 0 k ++ [0]) with (repeat 0 k ++ repeat 0 1).
  rewrite <- repeat_app, value_pad by lia. rewrite map_app, map_rev, rev_app_distr, rev_repeat. f_equal.
  induction k as [|k IH]; [done|]. cbn [repeat map]. by rewrite IH.
Qed.
Lemma base58_reads_back bs : bytes bs -> from_base58 (to_base58 bs) = Ok bs.
Proof.
  intros Hb. destruct (leading_split 0 bs) as (t & E & Ht). set (k := leading 0 bs) in *.
  unfold from_base58, to_base58. rewrite (EncodeBase58_text bs t k E Ht).
  assert (Hbt : Forall (fun d => 0 <= d < 256) t) by (unfold bytes in Hb; rewrite E in Hb; by apply Forall_app in Hb as [_ Hb]).
  pose proof (leading_none_normal 256 t Hbt Ht) as Hn256. pose proof (value_nonneg 256 (rev t) ltac:(lia) (proj1 Hn256)) as Hv.
  destruct (digits_of_spec 58 _ ltac:(lia) Hv) as [Hn58 Hv58]. set (v := value_of 256 (rev t)) in *.
  assert (Hds : Forall (fun d => 0 <= d < 58) (repeat 0 k ++ rev (digits_of 58 v))).
  { apply Forall_app. split; [|apply Forall_rev, Hn58]. apply Forall_forall. intros x Hx%list_elem_of_In%repeat_spec. lia. }
  unfold DecodeBase58. rewrite text_plain, leading_text, decode_digits_text by done.
  rewrite leading_repeat, (normal_leading 58) by done. rewrite rev_app_distr, rev_involutive, rev_repeat, value_pad, Hv58 by lia.
  cbn [mbind option_bind]. rewrite Z.mul_0_l, Z.add_0_l, Nat.add_0_r.
  unfold v. rewrite digits_of_value, rev_involutive by (done || lia). by rewrite <- E.
Qed.

(** ** Hexadecimal *)
Lemma from_hex_digit n : 0 <= n < 16 -> from_hex_char (hex_digit n) = Ok n.
Proof.
  intros Hn. assert (H : forallb (fun k => match from_hex_char (hex_digit (Z.of_nat k)) with Ok m => m =? Z.of_nat k | Throw _ => false end) (seq 0 16) = true)
    by (vm_compute; reflexivity).
  pose proof (proj1 (forallb_forall _ _) H (Z.to_nat n) ltac:(apply in_seq; lia)) as E.
  cbv beta in E. rewrite Z2Nat.id in E by lia.
  destruct (from_hex_char _) as [m|]; [|done]. by apply Z.eqb_eq in E as ->.
Qed.
Lemma from_hex_to_hex d : bytes d -> from_hex (to_hex d) (length d) = Ok d.
Proof.
  induction 1 as [|c d Hc Hd IH]; [done|]. cbn [to_hex flat_map app from_hex length].
  assert (Hh : 0 <= Z.shiftr c 4 < 16).
  { rewrite Z.shiftr_div_pow2 by lia. split; [apply Z.div_pos; lia|apply Z.div_lt_upper_bound; lia]. }
  assert (Hl : 0 <= Z.land c 0x0f < 16).
  { change 0x0f with (Z.ones 4). rewrite Z.land_ones by lia. apply Z.mod_pos_bound. lia. }
  rewrite !from_hex_digit by done. cbn [mbind res_bind]. unfold to_hex in IH. rewrite IH. cbn [mbind res_bind]. do 2 f_equal.
  unfold u8. rewrite Z.mod_small; [|rewrite Z.shiftl_mul_pow2; lia].
  apply Z.bits_inj'. intros i Hi. rewrite Z.lor_spec, Z.land_spec. change 0x0f with (Z.ones 4).
  destruct (Z.lt_ge_cases i 4).
  - rewrite Z.shiftl_spec_low by done. rewrite Z.ones_spec_low by lia. by rewrite andb_true_r.
  - rewrite Z.shiftl_spec_high, Z.shiftr_spec by lia. rewrite Z.ones_spec_high by lia.
    rewrite andb_false_r, orb_false_r. f_equal. lia.
Qed.
Lemma to_hex_length d : length (to_hex d) = (2 * length d)%nat.
Proof. induction d as [|c d IH]; [done|]. cbn [to_hex flat_map app length]. unfold to_hex in IH. rewrite IH. lia. Qed.
Lemma vector_variant_reads_back d : bytes d -> vector_from_variant (vector_to_variant d) = Ok d.
Proof.
  intros Hd. unfold vector_from_variant, vector_to_variant. cbn [as_string mbind res_bind]. rewrite to_hex_length.
  rewrite Nat2Z.inj_mul. rewrite Z.mul_comm, Z.mod_mul by lia. cbn [fc_assert mbind res_bind Z.eqb].
  rewrite (Nat.mul_comm 2), Nat.div_mul by lia. rewrite from_hex_to_hex by done. cbn [mbind res_bind]. by rewrite Nat.eqb_refl.
Qed.

(** ** The wallet import format *)
Section wif.
  Context `{sha256_laws}.

Lemma take_bytes n l : bytes l -> bytes (take n l).
Proof. apply Forall_take. Qed.

(** A text of any version byte, any key bytes and four bytes of either hash. *)
Lemma wif_to_key_spec version key_bytes check :
  0 <= version < 256 -> bytes key_bytes ->
  check = take 4 (sha256_hash (version :: key_bytes)) \/
  check = take 4 (sha256_hash (sha256_hash (version :: key_bytes))) ->
  wif_to_key (to_base58 ((version :: key_bytes) ++ check)) = Ok (Some (take 32 (key_bytes ++ repeat 0 32))).
Proof.
  intros Hv Hk Hc. assert (Hcb : bytes check) by (destruct Hc as [->| ->]; apply take_bytes, sha256_bytes).
  assert (Hcl : length check = 4%nat).
  { destruct Hc as [->| ->]; rewrite length_take, sha256_length; reflexivity. }
  unfold wif_to_key. rewrite base58_reads_back by (apply Forall_app; split; [by constructor|done]).
  rewrite length_app, Hcl. cbn [length app]. destruct (Nat.ltb_spec (S (length key_bytes) + 4) 5); [lia|].
  replace (S (length key_bytes) + 4 - 4)%nat with (length (version :: key_bytes)) by (cbn; lia).
  change (version :: key_bytes ++ check) with ((version :: key_bytes) ++ check).
  rewrite take_app_length, drop_app_length. cbn [drop]. unfold sha256_from_variant. rewrite drop_0.
  rewrite vector_variant_reads_back by done. cbn [mbind res_bind].
  destruct Hc as [-> | ->]; [rewrite bool_decide_true by done; done|].
  rewrite (bool_decide_true (take 4 (sha256_hash (sha256_hash _)) = _)) by done. by rewrite orb_true_r.
Qed.
End wif.

(** ** Public keys *)
Section keys.
  Context `{ripemd160_laws}.

Lemma take_prefix s : take (length SOPHIATX_ADDRESS_PREFIX) (SOPHIATX_ADDRESS_PREFIX ++ s) = SOPHIATX_ADDRESS_PREFIX.
Proof. apply take_app_length. Qed.
Lemma pack_u32_bytes v : bytes (pack_u32 v).
Proof. unfold pack_u32, bytes. cbn [le_bytes]. repeat (constructor; [by apply Z.mod_pos_bound|]). constructor. Qed.
Lemma le_value_bound l : bytes l -> 0 <= le_value l < 256 ^ Z.of_nat (length l).
Proof.
  induction 1 as [|b l Hb Hl IH]; [done|]. cbn [le_value length]. rewrite Nat2Z.inj_succ, Z.pow_succ_r by lia. lia.
Qed.
Lemma key_check_range key : 0 <= key_check key < 2^32.
Proof.
  unfold key_check. pose proof (le_value_bound (take 4 (ripemd160_hash key)) (Forall_take _ _ _ (ripemd160_bytes _))) as Hb.
  rewrite length_take, ripemd160_length in Hb. done.
Qed.
Lemma ds_read_app a b n : length a = n -> ds_read n (a ++ b) = Ok (a, b).
Proof.
  intros <-. unfold ds_read. rewrite length_app. destruct (Nat.leb_spec (length a) (length a + length b)); [|lia].
  by rewrite take_app_length, drop_app_length.
Qed.
Lemma unpack_u32_app v b : 0 <= v < 2^32 -> unpack_u32 (pack_u32 v ++ b) = Ok (v, b).
Proof.
  intros Hv. unfold unpack_u32, mbind, ST_bind. rewrite ds_read_app by apply le_bytes_length.
  cbn [fst snd]. unfold pack_u32. by rewrite le_value_bytes.
Qed.

Lemma to_base58_nonempty bs : bytes bs -> bs <> [] -> to_base58 bs <> [].
Proof. intros Hb Hne E. pose proof (base58_reads_back bs Hb) as Hr. rewrite E in Hr. injection Hr as Hr. by apply Hne. Qed.
Lemma key_of_string_spec size m bin key rest : bytes bin -> bin <> [] -> m bin = Ok ((key, key_check key), rest) ->
  key_of_string size m (SOPHIATX_ADDRESS_PREFIX ++ to_base58 bin) = Ok key.
Proof.
  intros Hb Hne Hm. unfold key_of_string. rewrite take_prefix, drop_app_length.
  assert (Hlen : Nat.ltb (length SOPHIATX_ADDRESS_PREFIX) (length (SOPHIATX_ADDRESS_PREFIX ++ to_base58 bin)) = true).
  { apply Nat.ltb_lt. rewrite length_app. pose proof (to_base58_nonempty bin Hb Hne). destruct (to_base58 bin); [done|cbn; lia]. }
  rewrite Hlen, bool_decide_true, base58_reads_back by done. cbn [fc_assert mbind res_bind].
  unfold unpack_key. destruct bin as [|b bin]; [done|]. rewrite Hm. cbn [mbind res_bind fst snd]. by rewrite Z.eqb_refl.
Qed.

(** Whatever bytes follow the packed key are not looked at. *)
Lemma public_key_from_bytes key rest : length key = 33%nat -> bytes key -> bytes rest ->
  public_key_from_string (SOPHIATX_ADDRESS_PREFIX ++ to_base58 (key ++ pack_u32 (key_check key) ++ rest)) = Ok key.
Proof.
  intros Hl Hk Hr. eapply key_of_string_spec.
  - apply Forall_app. split; [done|]. apply Forall_app. split; [apply pack_u32_bytes|done].
  - by destruct key.
  - unfold mbind, ST_bind at 1. rewrite ds_read_app by done. cbn [fst snd]. unfold mbind, ST_bind.
    rewrite unpack_u32_app by apply key_check_range. reflexivity.
Qed.
Lemma extended_key_from_bytes key rest : length key = 78%nat -> bytes key -> bytes rest ->
  extended_key_from_string (SOPHIATX_ADDRESS_PREFIX ++ to_base58 (pack_u32 (key_check key) ++ key ++ rest)) = Ok key.
Proof.
  intros Hl Hk Hr. eapply key_of_string_spec.
  - apply Forall_app. split; [apply pack_u32_bytes|]. by apply Forall_app.
  - done.
  - unfold mbind, ST_bind at 1. rewrite unpack_u32_app by apply key_check_range. cbn [fst snd]. unfold mbind, ST_bind.
    rewrite ds_read_app by done. reflexivity.
Qed.
End keys.

(** ** What the readers return, whatever they read *)
Lemma decode_digits_nonneg p acc n : 0 <= acc -> decode_digits acc p = Some n -> 0 <= n.
Proof.
  revert acc. induction p as [|c p IH]; intros acc Ha; cbn [decode_digits]; [by intros [= <-]|].
  destruct (find_char c pszBase58) as [i|]; [apply IH; lia|]. destruct (trim_left _); [by intros [= <-]|done].
Qed.
Lemma from_base58_bytes s out : from_base58 s = Ok out -> bytes out.
Proof.
  unfold from_base58, DecodeBase58. destruct (decode_digits 0 _) as [n|] eqn:E; cbn; [|done]. intros [= <-].
  apply decode_digits_nonneg in E; [|done]. destruct (digits_of_spec 256 n ltac:(lia) E) as [[Hf _] _].
  apply Forall_app. split; [|by apply Forall_rev]. apply Forall_forall. intros x Hx%list_elem_of_In%repeat_spec. lia.
Qed.
Lemma stream_bind_Ok {A B} (m : stream A) (f : A -> stream B) s b rest : (m ≫= f) s = Ok (b, rest) ->
  exists a s', m s = Ok (a, s') /\ f a s' = Ok (b, rest).
Proof. unfold mbind, ST_bind. destruct (m s) as [[a s']|e]; [|done]. intros E. by exists a, s'. Qed.

(** ** Which texts the readers accept *)
Lemma ds_read_Ok n s a rest : ds_read n s = Ok (a, rest) <-> s = a ++ rest /\ length a = n.
Proof.
  unfold ds_read. split.
  - destruct (Nat.leb_spec n (length s)) as [Hl|]; [|done]. intros [= <- <-]. rewrite take_drop, length_take. split; [done|lia].
  - intros [-> <-]. rewrite length_app. destruct (Nat.leb_spec (length a) (length a + length rest)) as [|]; [|lia].
    by rewrite take_app_length, drop_app_length.
Qed.
Lemma le_value_inj a b : length a = length b -> bytes a -> bytes b -> le_value a = le_value b -> a = b.
Proof.
  revert b. induction a as [|x a IH]; intros [|y b] Hl Ha Hb E; try done. apply Forall_cons_1 in Ha as [Hx Ha].
  apply Forall_cons_1 in Hb as [Hy Hb]. cbn [le_value] in E. injection Hl as Hl.
  assert (Exy : x = y).
  { apply (f_equal (fun z => z mod 256)) in E. rewrite !(Z.mul_comm 256), !Z.mod_add, !Z.mod_small in E by lia. exact E. }
  subst y. f_equal. apply IH; [done..|lia].
Qed.
(** The check of a key, as it is sent. *)
Definition sent_check `{externals} (key : list Z) : list Z := take 4 (ripemd160_hash key).
Lemma sent_check_eq `{ripemd160_laws} key check : bytes check -> length check = 4%nat ->
  (key_check key =? le_value check) = true <-> check = sent_check key.
Proof.
  intros Hb Hl. rewrite Z.eqb_eq. unfold key_check, sent_check. split; [|by intros ->]. intros E. symmetry in E.
  apply le_value_inj; [|done|apply Forall_take, ripemd160_bytes|done]. rewrite length_take, ripemd160_length, Hl. done.
Qed.

(** The bytes that a reader of packed keys takes a key and a check from. *)
Definition reads_exactly (size : nat) (m : stream (list Z * Z)) (packed : list Z -> list Z -> list Z) : Prop :=
  forall s key v rest, m s = Ok ((key, v), rest) <->
    exists check, s = packed key check ++ rest /\ length key = size /\ length check = 4%nat /\ v = le_value check.
Lemma public_reads_exactly : reads_exactly 33 (data ← ds_read 33; check ← unpack_u32; mret (data, check)) (fun key check => key ++ check).
Proof.
  intros s key v rest. split.
  - intros (data & s1 & [-> Hl]%ds_read_Ok & E)%stream_bind_Ok. apply stream_bind_Ok in E as (c & s2 & E1 & E).
    injection E as <- <- <-. apply stream_bind_Ok in E1 as (bs & s3 & [-> Hc]%ds_read_Ok & E). injection E as <- <-.
    exists bs. by rewrite <- app_assoc.
  - intros (check & -> & Hl & Hc & ->). unfold unpack_u32, mbind, ST_bind. rewrite <- app_assoc, (proj2 (ds_read_Ok 33 _ key _) (conj eq_refl Hl)).
    cbn [fst snd]. by rewrite (proj2 (ds_read_Ok 4 _ check _) (conj eq_refl Hc)).
Qed.
Lemma extended_reads_exactly : reads_exactly 78 (check ← unpack_u32; data ← ds_read 78; mret (data, check)) (fun key check => check ++ key).
Proof.
  intros s key v rest. split.
  - intros (c & s1 & E1 & E)%stream_bind_Ok. apply stream_bind_Ok in E as (data & s2 & [-> Hl]%ds_read_Ok & E).
    injection E as <- <- <-. apply stream_bind_Ok in E1 as (bs & s3 & [-> Hc]%ds_read_Ok & E). injection E as Ec Es. subst c s3.
    exists bs. by rewrite <- app_assoc.
  - intros (check & -> & Hl & Hc & ->). unfold unpack_u32, mbind, ST_bind.
    rewrite <- app_assoc, (proj2 (ds_read_Ok 4 _ check _) (conj eq_refl Hc)).
    unfold mret, ST_ret. cbn [fst snd]. by rewrite (proj2 (ds_read_Ok 78 _ key _) (conj eq_refl Hl)).
Qed.

(** A text of a key: the prefix, then digits of the packed key and its check, or of nothing. *)
Definition is_key_text `{externals} (size : nat) (packed : list Z -> list Z -> list Z) (text key : list Z) : Prop :=
  exists body bin, text = SOPHIATX_ADDRESS_PREFIX ++ body /\ body <> [] /\ from_base58 body = Ok bin /\
    ((length key = size /\ exists rest, bin = packed key (sent_check key) ++ rest) \/
     (bin = [] /\ key = repeat 0 size /\ key_check key = 0)).
Lemma key_of_string_exact `{ripemd160_laws} size m packed text key :
  (forall k c x, x ∈ c -> x ∈ packed k c) -> (forall k c, c <> [] -> packed k c <> []) -> reads_exactly size m packed ->
  key_of_string size m text = Ok key <-> is_key_text size packed text key.
Proof.
  intros Hin Hne Hm. unfold key_of_string. split.
  - intros E. apply rbind_Ok in E as (u1 & H1 & E). apply rbind_Ok in E as (u2 & H2 & E). apply rbind_Ok in E as (bin & Hbin & E).
    apply rbind_Ok in E as ([k v] & Hk & E). apply rbind_Ok in E as (u3 & H3 & E). injection E as <-. cbn [fst snd] in *.
    apply rassert_Ok in H1 as [H1%Nat.ltb_lt _], H2 as [H2%bool_decide_eq_true_1 _], H3 as [H3 _].
    set (body := drop _ text) in *. exists body, bin.
    split; [by rewrite <- (take_drop (length SOPHIATX_ADDRESS_PREFIX) text), H2|].
    split; [intros E; apply (f_equal length) in E; unfold body in E; rewrite length_drop in E; cbn [length] in E; lia|].
    split; [done|]. pose proof (from_base58_bytes _ _ Hbin) as Hb. unfold unpack_key in Hk. destruct bin as [|x bin].
    + right. injection Hk as <- <-. by apply Z.eqb_eq in H3.
    + left. apply rbind_Ok in Hk as ([kv rest] & Hk & E). injection E as Ekv. cbn in Ekv. subst kv.
      apply Hm in Hk as (check & Es & Hl & Hc & ->). split; [done|]. exists rest. rewrite Es. f_equal. f_equal.
      apply sent_check_eq in H3; [done| |done]. apply Forall_forall. intros y Hy. rewrite Es in Hb.
      apply Forall_app in Hb as [Hb _]. rewrite Forall_forall in Hb. by apply Hb, Hin.
  - intros (body & bin & -> & Hbody & Hbin & Hcase).
    assert (H1 : Nat.ltb (length SOPHIATX_ADDRESS_PREFIX) (length (SOPHIATX_ADDRESS_PREFIX ++ body)) = true).
    { apply Nat.ltb_lt. rewrite length_app. destruct body; [done|]. cbn [length]. lia. }
    rewrite H1, take_app_length, drop_app_length, bool_decide_true, Hbin by done. cbn [fc_assert sophiatx_assert mbind res_bind].
    destruct Hcase as [(Hl & rest & ->)|(-> & -> & Hz)].
    + assert (Hsent : length (sent_check key) = 4%nat) by (unfold sent_check; by rewrite length_take, ripemd160_length).
      assert (Hr : unpack_key size m (packed key (sent_check key) ++ rest) = Ok (key, key_check key)).
      { unfold unpack_key. destruct (packed key (sent_check key) ++ rest) as [|x l] eqn:E.
        - apply app_eq_nil in E as [E _]. destruct (Hne key (sent_check key)); [|done]. by destruct (sent_check key).
        - rewrite (proj2 (Hm (x :: l) key (key_check key) rest)); [done|]. exists (sent_check key). by rewrite E. }
      rewrite Hr. cbn. by rewrite Z.eqb_refl.
    + cbn [unpack_key mbind res_bind fst snd]. by rewrite Hz.
Qed.

(** A text in wallet import format: version, key and four bytes of either hash of them. *)
Definition is_wif_text `{sha256_function} (text secret : list Z) : Prop :=
  exists version key_bytes check, from_base58 text = Ok (version :: key_bytes ++ check) /\
    (check = take 4 (sha256_hash (version :: key_bytes)) \/
     check = take 4 (sha256_hash (sha256_hash (version :: key_bytes)))) /\
    secret = take 32 (key_bytes ++ repeat 0 32).
Lemma wif_to_key_exact `{sha256_laws} text secret : wif_to_key text = Ok (Some secret) <-> is_wif_text text secret.
Proof.
  unfold wif_to_key, is_wif_text. split.
  - destruct (from_base58 text) as [bs|e] eqn:Eb; [|by destruct e]. pose proof (from_base58_bytes _ _ Eb) as Hb.
    destruct (Nat.ltb_spec (length bs) 5) as [|Hl]; [done|]. intros E. apply rbind_Ok in E as (key & Hk & E).
    set (n := (length bs - 4)%nat) in *. destruct (_ || _) eqn:Hc; [|done]. injection E as <-.
    apply orb_true_iff in Hc. rewrite !bool_decide_eq_true in Hc.
    unfold sha256_from_variant in Hk. rewrite vector_variant_reads_back in Hk by (by apply Forall_drop, Forall_take).
    cbn [mbind res_bind] in Hk.
    assert (Hkey : key = take 32 (drop 1 (take n bs) ++ repeat 0 32)) by congruence. clear Hk.
    destruct (take n bs) as [|version key_bytes] eqn:Et; [apply (f_equal length) in Et; rewrite length_take in Et; cbn in Et; lia|].
    exists version, key_bytes, (drop n bs). split; [by rewrite app_comm_cons, <- Et, take_drop|].
    cbn [drop] in Hkey. rewrite drop_0 in Hkey. split; [destruct Hc as [<-|<-]; auto|done].
  - intros (version & key_bytes & check & Eb & Hc & ->). rewrite Eb. apply from_base58_bytes in Eb.
    apply Forall_cons_1 in Eb as [Hv Eb]. apply Forall_app in Eb as [Hk _].
    pose proof (wif_to_key_spec version key_bytes check Hv Hk Hc) as S. unfold wif_to_key in S.
    rewrite base58_reads_back in S; [exact S|]. constructor; [done|]. apply Forall_app. split; [done|].
    destruct Hc as [->| ->]; apply take_bytes, sha256_bytes.
Qed.
