(* ===== verification/Operations.v ===== *)
(** * Operations: the operations of the protocol, their fees and the
    authorities they need ([protocol/sophiatx_operations.hpp],
    [operations.{hpp,cpp}], [base.hpp]).

    One record per operation struct.  Every operation carries the [fee] of its
    base class; a [flat_set] or [flat_map] is a sorted list.  Text and binary
    payloads are lists of bytes. *)
From Stdlib Require Import String.
From S2P Require Import Prelude Safe Names Asset Version Config Authority Raw.
Local Open Scope Z_scope.
Local Open Scope list_scope.

(** ** Operation structs *)
Record account_create_operation := AccountCreate {
  ac_fee : asset; ac_creator : account_name_type; ac_name_seed : list Z; ac_owner : authority;
  ac_active : authority; ac_memo_key : public_key_type; ac_json_metadata : list Z }.

Record account_update_operation := AccountUpdate {
  au_fee : asset; au_account : account_name_type; au_owner : option authority;
  au_active : option authority; au_memo_key : public_key_type; au_json_metadata : list Z }.

Record account_delete_operation := AccountDelete { ad_fee : asset; ad_account : account_name_type }.

Record transfer_operation := Transfer {
  tr_fee : asset; tr_from : account_name_type; tr_to : account_name_type; tr_amount : asset;
  tr_memo : list Z }.

Record escrow_transfer_operation := EscrowTransfer {
  et_fee : asset; et_from : account_name_type; et_to : account_name_type;
  et_agent : account_name_type; et_escrow_id : Z; et_sophiatx_amount : asset; et_escrow_fee : asset;
  et_ratification_deadline : Z; et_escrow_expiration : Z; et_json_meta : list Z }.

Record escrow_approve_operation := EscrowApprove {
  ea_fee : asset; ea_from : account_name_type; ea_to : account_name_type;
  ea_agent : account_name_type; ea_who : account_name_type; ea_escrow_id : Z; ea_approve : bool }.

Record escrow_dispute_operation := EscrowDispute {
  ed_fee : asset; ed_from : account_name_type; ed_to : account_name_type;
  ed_agent : account_name_type; ed_who : account_name_type; ed_escrow_id : Z }.

Record escrow_release_operation := EscrowRelease {
  er_fee : asset; er_from : account_name_type; er_to : account_name_type;
  er_agent : account_name_type; er_who : account_name_type; er_receiver : account_name_type;
  er_escrow_id : Z; er_sophiatx_amount : asset }.

Record transfer_to_vesting_operation := TransferToVesting {
  tv_fee : asset; tv_from : account_name_type; tv_to : account_name_type; tv_amount : asset }.

Record withdraw_vesting_operation := WithdrawVesting {
  wv_fee : asset; wv_account : account_name_type; wv_vesting_shares : asset }.

(** [price_feeds] is a [flat_map<asset_symbol_type, price>]. *)
Record chain_properties := ChainProperties {
  account_creation_fee : asset; maximum_block_size : Z; price_feeds : list (Z * price) }.
#[export] Instance chain_properties_eta : Eta chain_properties := fun p =>
  ChainProperties (account_creation_fee p) (maximum_block_size p) (price_feeds p).

Record witness_update_operation := WitnessUpdate {
  wu_fee : asset; wu_owner : account_name_type; wu_url : list Z;
  wu_block_signing_key : public_key_type; wu_props : chain_properties }.

Record admin_witness_update_operation := AdminWitnessUpdate {
  aw_fee : asset; aw_owner : account_name_type; aw_url : list Z;
  aw_block_signing_key : public_key_type; aw_props : chain_properties }.

(** [props] is a [flat_map<string, vector<char>>]. *)
Record witness_set_properties_operation := WitnessSetProperties {
  ws_fee : asset; ws_owner : account_name_type; ws_props : list (string * list Z) }.

Record witness_stop_operation := WitnessStop { wt_fee : asset; wt_owner : account_name_type }.

Record account_witness_vote_operation := AccountWitnessVote {
  av_fee : asset; av_account : account_name_type; av_witness : account_name_type;
  av_approve : bool }.

Record account_witness_proxy_operation := AccountWitnessProxy {
  ap_fee : asset; ap_account : account_name_type; ap_proxy : account_name_type }.

Record custom_operation := Custom {
  cu_fee : asset; cu_sender : account_name_type; cu_recipients : list account_name_type;
  cu_app_id : Z; cu_data : list Z }.

Record custom_json_operation := CustomJson {
  cj_fee : asset; cj_sender : account_name_type; cj_recipients : list account_name_type;
  cj_app_id : Z; cj_json : list Z }.

Record custom_binary_operation := CustomBinary {
  cb_fee : asset; cb_sender : account_name_type; cb_recipients : list account_name_type;
  cb_app_id : Z; cb_data : list Z }.

Record feed_publish_operation := FeedPublish {
  fp_fee : asset; fp_publisher : account_name_type; fp_exchange_rate : price }.

Record request_account_recovery_operation := RequestAccountRecovery {
  rr_fee : asset; rr_recovery_account : account_name_type; rr_account_to_recover : account_name_type;
  rr_new_owner_authority : authority }.

Record recover_account_operation := RecoverAccount {
  ra_fee : asset; ra_account_to_recover : account_name_type; ra_new_owner_authority : authority;
  ra_recent_owner_authority : authority }.

Record reset_account_operation := ResetAccount {
  rs_fee : asset; rs_reset_account : account_name_type; rs_account_to_reset : account_name_type;
  rs_new_owner_authority : authority }.

Record set_reset_account_operation := SetResetAccount {
  sr_fee : asset; sr_account : account_name_type; sr_current_reset_account : account_name_type;
  sr_reset_account : account_name_type }.

(** [enum application_price_param] *)
Definition app_permanent : Z := 0.
Definition app_time_based : Z := 1.
Definition app_none : Z := 2.

Record application_create_operation := ApplicationCreate {
  pc_fee : asset; pc_author : account_name_type; pc_name : list Z; pc_url : list Z;
  pc_metadata : list Z; pc_price_param : Z }.

Record application_update_operation := ApplicationUpdate {
  pu_fee : asset; pu_author : account_name_type; pu_new_author : option account_name_type;
  pu_name : list Z; pu_url : list Z; pu_metadata : list Z; pu_price_param : option Z }.

Record application_delete_operation := ApplicationDelete {
  pd_fee : asset; pd_author : account_name_type; pd_name : list Z }.

Record buy_application_operation := BuyApplication {
  ba_fee : asset; ba_buyer : account_name_type; ba_app_id : Z }.

Record cancel_application_buying_operation := CancelApplicationBuying {
  ca_fee : asset; ca_app_owner : account_name_type; ca_buyer : account_name_type; ca_app_id : Z }.

(** The member [fee] declared again in this struct is never serialized nor
    read through the base class: only the base one is kept. *)
Record change_recovery_account_operation := ChangeRecoveryAccount {
  cr_fee : asset; cr_account_to_recover : account_name_type;
  cr_new_recovery_account : account_name_type }.

Record transfer_from_promotion_pool_operation := TransferFromPromotionPool {
  tp_fee : asset; tp_transfer_to : account_name_type; tp_amount : asset }.

Record sponsor_fees_operation := SponsorFees {
  sf_fee : asset; sf_sponsor : account_name_type; sf_sponsored : account_name_type;
  sf_is_sponsoring : bool }.

(** ** Virtual operations ([sophiatx_virtual_operations.hpp]) *)
Record interest_operation := Interest {
  io_fee : asset; io_owner : account_name_type; io_interest : asset }.
Record fill_vesting_withdraw_operation := FillVestingWithdraw {
  fv_fee : asset; fv_from_account : account_name_type; fv_to_account : account_name_type;
  fv_withdrawn : asset; fv_deposited : asset }.
Record shutdown_witness_operation := ShutdownWitness {
  sw_fee : asset; sw_owner : account_name_type }.
Record hardfork_operation := Hardfork { hf_fee : asset; hardfork_id : Z }.
Record producer_reward_operation := ProducerReward {
  pr_fee : asset; pr_producer : account_name_type; pr_vesting_shares : asset }.
Record promotion_pool_withdraw_operation := PromotionPoolWithdraw {
  pw_fee : asset; pw_to_account : account_name_type; pw_withdrawn : asset }.

(** ** [operation], the static variant, in the order of its type list *)
Inductive operation : Type :=
  | op_transfer (o : transfer_operation)
  | op_transfer_to_vesting (o : transfer_to_vesting_operation)
  | op_withdraw_vesting (o : withdraw_vesting_operation)
  | op_feed_publish (o : feed_publish_operation)
  | op_account_create (o : account_create_operation)
  | op_account_update (o : account_update_operation)
  | op_account_delete (o : account_delete_operation)
  | op_witness_update (o : witness_update_operation)
  | op_witness_stop (o : witness_stop_operation)
  | op_account_witness_vote (o : account_witness_vote_operation)
  | op_account_witness_proxy (o : account_witness_proxy_operation)
  | op_witness_set_properties (o : witness_set_properties_operation)
  | op_custom (o : custom_operation)
  | op_custom_json (o : custom_json_operation)
  | op_custom_binary (o : custom_binary_operation)
  | op_request_account_recovery (o : request_account_recovery_operation)
  | op_recover_account (o : recover_account_operation)
  | op_change_recovery_account (o : change_recovery_account_operation)
  | op_escrow_transfer (o : escrow_transfer_operation)
  | op_escrow_dispute (o : escrow_dispute_operation)
  | op_escrow_release (o : escrow_release_operation)
  | op_escrow_approve (o : escrow_approve_operation)
  | op_reset_account (o : reset_account_operation)
  | op_set_reset_account (o : set_reset_account_operation)
  | op_application_create (o : application_create_operation)
  | op_application_update (o : application_update_operation)
  | op_application_delete (o : application_delete_operation)
  | op_buy_application (o : buy_application_operation)
  | op_cancel_application_buying (o : cancel_application_buying_operation)
  | op_transfer_from_promotion_pool (o : transfer_from_promotion_pool_operation)
  | op_sponsor_fees (o : sponsor_fees_operation)
  | op_admin_witness_update (o : admin_witness_update_operation)
  | op_interest (o : interest_operation)
  | op_fill_vesting_withdraw (o : fill_vesting_withdraw_operation)
  | op_shutdown_witness (o : shutdown_witness_operation)
  | op_hardfork (o : hardfork_operation)
  | op_producer_reward (o : producer_reward_operation)
  | op_promotion_pool_withdraw (o : promotion_pool_withdraw_operation).

(** ** base_operation *)
Definition op_fee (op : operation) : asset :=
  match op with
  | op_transfer o => tr_fee o
  | op_transfer_to_vesting o => tv_fee o
  | op_withdraw_vesting o => wv_fee o
  | op_feed_publish o => fp_fee o
  | op_account_create o => ac_fee o
  | op_account_update o => au_fee o
  | op_account_delete o => ad_fee o
  | op_witness_update o => wu_fee o
  | op_witness_stop o => wt_fee o
  | op_account_witness_vote o => av_fee o
  | op_account_witness_proxy o => ap_fee o
  | op_witness_set_properties o => ws_fee o
  | op_custom o => cu_fee o
  | op_custom_json o => cj_fee o
  | op_custom_binary o => cb_fee o
  | op_request_account_recovery o => rr_fee o
  | op_recover_account o => ra_fee o
  | op_change_recovery_account o => cr_fee o
  | op_escrow_transfer o => et_fee o
  | op_escrow_dispute o => ed_fee o
  | op_escrow_release o => er_fee o
  | op_escrow_approve o => ea_fee o
  | op_reset_account o => rs_fee o
  | op_set_reset_account o => sr_fee o
  | op_application_create o => pc_fee o
  | op_application_update o => pu_fee o
  | op_application_delete o => pd_fee o
  | op_buy_application o => ba_fee o
  | op_cancel_application_buying o => ca_fee o
  | op_transfer_from_promotion_pool o => tp_fee o
  | op_sponsor_fees o => sf_fee o
  | op_admin_witness_update o => aw_fee o
  | op_interest o => io_fee o
  | op_fill_vesting_withdraw o => fv_fee o
  | op_shutdown_witness o => sw_fee o
  | op_hardfork o => hf_fee o
  | op_producer_reward o => pr_fee o
  | op_promotion_pool_withdraw o => pw_fee o
  end.

Definition is_virtual_operation (op : operation) : bool :=
  match op with
  | op_interest _ | op_fill_vesting_withdraw _ | op_shutdown_witness _ | op_hardfork _
  | op_producer_reward _ | op_promotion_pool_withdraw _ => true
  | _ => false
  end.

Definition is_fee_free_operation (op : operation) : bool := amount (op_fee op) =? 0.

(** [get_fee_payer()], the base class's answer for the structs that do not
    override it. *)
Definition sponsor_fees_payer (o : sponsor_fees_operation) : account_name_type :=
  if name_eqb (sf_sponsor o) (name_of "") then sf_sponsored o else sf_sponsor o.

Definition op_get_fee_payer (op : operation) : account_name_type :=
  match op with
  | op_transfer o => tr_from o
  | op_transfer_to_vesting o => tv_from o
  | op_withdraw_vesting o => wv_account o
  | op_feed_publish o => fp_publisher o
  | op_account_create o => ac_creator o
  | op_account_update o => au_account o
  | op_account_delete o => ad_account o
  | op_witness_update o => wu_owner o
  | op_witness_stop o => wt_owner o
  | op_account_witness_vote o => av_account o
  | op_account_witness_proxy o => ap_account o
  | op_witness_set_properties o => ws_owner o
  | op_custom o => cu_sender o
  | op_custom_json o => cj_sender o
  | op_custom_binary o => cb_sender o
  | op_request_account_recovery o => rr_recovery_account o
  | op_recover_account o => ra_account_to_recover o
  | op_change_recovery_account o => cr_account_to_recover o
  | op_escrow_transfer o => et_from o
  | op_escrow_dispute o => ed_who o
  | op_escrow_release o => er_who o
  | op_escrow_approve o => ea_who o
  | op_reset_account o => rs_reset_account o
  | op_set_reset_account o => sr_account o
  | op_application_create o => pc_author o
  | op_application_update o => pu_author o
  | op_application_delete o => pd_author o
  | op_buy_application o => ba_buyer o
  | op_cancel_application_buying o => ca_app_owner o
  | op_transfer_from_promotion_pool o => tp_transfer_to o
  | op_sponsor_fees o => sponsor_fees_payer o
  | op_admin_witness_update o => aw_owner o
  | op_interest _ | op_fill_vesting_withdraw _ | op_shutdown_witness _ | op_hardfork _
  | op_producer_reward _ | op_promotion_pool_withdraw _ => SOPHIATX_INIT_MINER_NAME
  end.

Definition has_special_fee (op : operation) : bool :=
  match op with op_account_create _ => true | _ => false end.

Section fees.
  Context {cfg : sophiatx_config}.

(** [base_operation::get_required_fee] *)
Definition base_required_fee (in_symbol : Z) : asset :=
  if in_symbol =? SBD1_SYMBOL then BASE_FEE_SBD1
  else if in_symbol =? SBD2_SYMBOL then BASE_FEE_SBD2
  else if in_symbol =? SBD3_SYMBOL then BASE_FEE_SBD3
  else if in_symbol =? SBD4_SYMBOL then BASE_FEE_SBD4
  else if in_symbol =? SBD5_SYMBOL then BASE_FEE_SBD5
  else BASE_FEE.

(** [get_custom_fee]: the size is multiplied in unsigned 32-bit arithmetic. *)
Definition custom_size_multi (payload_size : Z) : Z :=
  u32 (payload_size + (SIZE_INCREASE_PER_FEE - SIZE_COVERED_IN_BASE_FEE - 1)) / SIZE_INCREASE_PER_FEE.
Definition get_custom_fee (payload_size : Z) (in_symbol : Z) : res asset :=
  asset_mul_share (base_required_fee in_symbol) (u32 (1 + custom_size_multi payload_size)).

Definition get_required_fee (op : operation) (in_symbol : Z) : res asset :=
  match op with
  | op_custom o => get_custom_fee (u32 (Z.of_nat (length (cu_data o)))) in_symbol
  | op_custom_json o => get_custom_fee (u32 (Z.of_nat (length (cj_json o)))) in_symbol
  | op_custom_binary o => get_custom_fee (u32 (Z.of_nat (length (cb_data o)))) in_symbol
  | op_account_create _ | op_account_update _ | op_account_delete _ | op_transfer_to_vesting _
  | op_withdraw_vesting _ | op_witness_update _ | op_admin_witness_update _
  | op_witness_set_properties _ | op_account_witness_vote _ | op_account_witness_proxy _
  | op_feed_publish _ | op_request_account_recovery _ | op_recover_account _ | op_reset_account _
  | op_set_reset_account _ | op_change_recovery_account _ | op_transfer_from_promotion_pool _
  | op_sponsor_fees _ => Ok (Asset 0 in_symbol)
  | _ => Ok (base_required_fee in_symbol)
  end.
End fees.

(** ** Required authorities *)
Definition name_set := list account_name_type.
(** [flat_set::insert] *)
Fixpoint name_insert (k : account_name_type) (s : name_set) : name_set :=
  match s with
  | [] => [k]
  | k' :: s' => if name_ltb k k' then k :: s
                else if name_ltb k' k then k' :: name_insert k s' else s
  end.

Definition get_required_active_authorities (op : operation) (a : name_set) : name_set :=
  match op with
  | op_account_create o => name_insert (ac_creator o) a
  | op_account_update o =>
      match au_owner o, au_active o with None, None => name_insert (au_account o) a | _, _ => a end
  | op_transfer o =>
      if negb (symbol (tr_amount o) =? VESTS_SYMBOL) then name_insert (tr_from o) a else a
  | op_escrow_transfer o => name_insert (et_from o) a
  | op_escrow_approve o => name_insert (ea_who o) a
  | op_escrow_dispute o => name_insert (ed_who o) a
  | op_escrow_release o => name_insert (er_who o) a
  | op_transfer_to_vesting o => name_insert (tv_from o) a
  | op_withdraw_vesting o => name_insert (wv_account o) a
  | op_witness_update o => name_insert (wu_owner o) a
  | op_admin_witness_update _ => name_insert SOPHIATX_INIT_MINER_NAME a
  | op_witness_stop o => name_insert (wt_owner o) a
  | op_account_witness_vote o => name_insert (av_account o) a
  | op_account_witness_proxy o => name_insert (ap_account o) a
  | op_custom o => name_insert (cu_sender o) a
  | op_custom_json o => name_insert (cj_sender o) a
  | op_custom_binary o => name_insert (cb_sender o) a
  | op_feed_publish o => name_insert (fp_publisher o) a
  | op_request_account_recovery o => name_insert (rr_recovery_account o) a
  | op_reset_account o => name_insert (rs_reset_account o) a
  | op_application_create o => name_insert (pc_author o) a
  | op_application_update o => name_insert (pu_author o) a
  | op_application_delete o => name_insert (pd_author o) a
  | op_buy_application o => name_insert (ba_buyer o) a
  | op_cancel_application_buying o => name_insert (ca_app_owner o) a
  | op_transfer_from_promotion_pool _ => name_insert SOPHIATX_INIT_MINER_NAME a
  | op_sponsor_fees o => name_insert (sponsor_fees_payer o) a
  | _ => a
  end.

Definition get_required_owner_authorities (op : operation) (a : name_set) : name_set :=
  match op with
  | op_account_update o =>
      match au_owner o, au_active o with None, None => a | _, _ => name_insert (au_account o) a end
  | op_account_delete o => name_insert (ad_account o) a
  | op_transfer o =>
      if symbol (tr_amount o) =? VESTS_SYMBOL then name_insert (tr_from o) a else a
  | op_set_reset_account o =>
      if negb (name_size (sr_current_reset_account o) =? 0) then name_insert (sr_account o) a else a
  | op_change_recovery_account o => name_insert (cr_account_to_recover o) a
  | _ => a
  end.

(** [props.find( key )] of the witness properties. *)
Definition props_find (key : string) (props : list (string * list Z)) : option (list Z) :=
  snd <$> List.find (fun p => String.eqb (fst p) key) props.

Definition get_required_authorities (op : operation) (a : list authority) : res (list authority) :=
  match op with
  | op_witness_set_properties o =>
      match props_find "key" (ws_props o) with
      | Some v =>
          signing_key ← unpack_from_vector v unpack_public_key null_key;
          Ok (a ++ [key_authority signing_key])
      | None => Ok (a ++ [add_account_authority (Authority 1 [] []) SOPHIATX_NULL_ACCOUNT 1])
      end
  | op_recover_account o => Ok (a ++ [ra_new_owner_authority o; ra_recent_owner_authority o])
  | _ => Ok a
  end.
