(* ===== verification/Validate.v ===== *)
(** * Validate: the state-independent checks of every operation
    ([protocol/sophiatx_operations.cpp]).  Every operation of a transaction is
    validated before it is applied. *)
From Stdlib Require Import String.
From S2P Require Import Prelude Safe Names Asset Version Config Authority Raw Utf8 Operations Json.
Local Open Scope Z_scope.
Local Open Scope list_scope.

Definition size (s : list Z) : Z := Z.of_nat (length s).

(** [sbd] symbols as the validators enumerate them. *)
Definition is_sbd_symbol (s : Z) : bool :=
  (s =? SBD1_SYMBOL) || (s =? SBD2_SYMBOL) || (s =? SBD3_SYMBOL) || (s =? SBD4_SYMBOL)
  || (s =? SBD5_SYMBOL).

(** An exchange rate joins SPHTX and one of the fiat symbols. *)
Definition validate_rate (rate : price) : res unit :=
  (if symbol (base rate) =? SOPHIATX_SYMBOL_U64 then
     fc_assert (is_sbd_symbol (symbol (quote rate)))
   else
     fc_assert (symbol (quote rate) =? SOPHIATX_SYMBOL_U64) ;;
     fc_assert (is_sbd_symbol (symbol (base rate)))) ;;
  fc_assert ((amount (quote rate) >? 0) && (amount (base rate) >? 0)).

Definition SIZEOF_PRICE : Z := 32.

(** A value read from an empty property vector into an uninitialized variable. *)
Definition unpack_uninitialized {A} (s : list Z) (m : stream A) : res A :=
  match s with [] => Throw crash | _ => r ← m s; Ok (fst r) end.

Section validate.
  Context {cfg : sophiatx_config} {ext : externals}.

(** [make_random_fixed_string]: a 20-byte hash and a zero byte, in base64m. *)
Definition make_random_fixed_string (seed : list Z) : list Z :=
  base64m_encode (ripemd160_hash seed ++ [0]).

(** [if( json.size() > 0 ) { is_utf8; json::is_valid }] *)
Definition validate_json_metadata (json : list Z) : res unit :=
  whenM (size json >? 0) (fc_assert (is_utf8 json) ;; valid ← json_is_valid json; fc_assert valid).

Definition account_create_validate (o : account_create_operation) : res unit :=
  authority_validate (ac_owner o) ;;
  authority_validate (ac_active o) ;;
  validate_json_metadata (ac_json_metadata o).

Definition account_update_validate (o : account_update_operation) : res unit :=
  validate_account_name (au_account o) ;;
  validate_json_metadata (au_json_metadata o).

Definition account_delete_validate (o : account_delete_operation) : res unit :=
  validate_account_name (ad_account o).

Definition transfer_validate (o : transfer_operation) : res unit :=
  validate_account_name (tr_from o) ;;
  validate_account_name (tr_to o) ;;
  fc_assert (negb (symbol (tr_amount o) =? VESTS_SYMBOL)) ;;
  fc_assert (amount (tr_amount o) >? 0) ;;
  fc_assert (size (tr_memo o) <? SOPHIATX_MAX_MEMO_SIZE) ;;
  fc_assert (is_utf8 (tr_memo o)).

Definition transfer_to_vesting_validate (o : transfer_to_vesting_operation) : res unit :=
  validate_account_name (tv_from o) ;;
  fc_assert (symbol (tv_amount o) =? SOPHIATX_SYMBOL_U64) ;;
  whenM (negb (name_eqb (tv_to o) (Name 0 0))) (validate_account_name (tv_to o)) ;;
  g ← asset_gtb (tv_amount o) (Asset 0 SOPHIATX_SYMBOL_U64);
  fc_assert g.

Definition withdraw_vesting_validate (o : withdraw_vesting_operation) : res unit :=
  validate_account_name (wv_account o) ;;
  fc_assert (symbol (wv_vesting_shares o) =? VESTS_SYMBOL).

(** [chain_properties::validate]; the main symbol is the configured one. *)
Definition validate_price_feed (i : Z * price) : res unit :=
  let (sym, p) := i in
  fc_assert (is_sbd_symbol sym) ;;
  (if symbol (base p) =? SOPHIATX_SYMBOL then fc_assert (symbol (quote p) =? sym)
   else fc_assert ((symbol (base p) =? sym) && (symbol (quote p) =? SOPHIATX_SYMBOL))) ;;
  fc_assert ((amount (quote p) >? 0) && (amount (base p) >? 0)).

Definition chain_properties_validate (p : chain_properties) : res unit :=
  fc_assert (amount (account_creation_fee p) >=? SOPHIATX_MIN_ACCOUNT_CREATION_FEE) ;;
  fc_assert (maximum_block_size p >=? SOPHIATX_MIN_BLOCK_SIZE_LIMIT) ;;
  forM (price_feeds p) validate_price_feed.

Definition witness_update_validate (o : witness_update_operation) : res unit :=
  validate_account_name (wu_owner o) ;;
  fc_assert (size (wu_url o) <=? SOPHIATX_MAX_WITNESS_URL_LENGTH) ;;
  fc_assert (size (wu_url o) >? 0) ;;
  fc_assert (is_utf8 (wu_url o)) ;;
  chain_properties_validate (wu_props o).

Definition validate_url (url : list Z) : res unit :=
  fc_assert (size url <=? SOPHIATX_MAX_WITNESS_URL_LENGTH) ;;
  fc_assert (size url >? 0) ;;
  fc_assert (is_utf8 url).

(** Each property present is unpacked and checked. *)
Definition on_prop (key : string) (props : list (string * list Z)) (f : list Z -> res unit) : res unit :=
  match props_find key props with Some v => f v | None => Ok tt end.

Definition witness_set_properties_validate (o : witness_set_properties_operation) : res unit :=
  let props := ws_props o in
  validate_account_name (ws_owner o) ;;
  fc_assert (match props_find "key" props with Some _ => true | None => false end) ;;
  on_prop "account_creation_fee" props (fun v =>
    fee ← unpack_from_vector v unpack_asset null_asset;
    fc_assert (symbol fee =? SOPHIATX_SYMBOL_U64) ;;
    fc_assert (amount fee >=? SOPHIATX_MIN_ACCOUNT_CREATION_FEE)) ;;
  on_prop "maximum_block_size" props (fun v =>
    n ← unpack_uninitialized v unpack_u32;
    fc_assert (n >=? SOPHIATX_MIN_BLOCK_SIZE_LIMIT)) ;;
  on_prop "new_signing_key" props (fun v =>
    _ ← unpack_from_vector v unpack_public_key null_key; Ok tt) ;;
  on_prop "exchange_rates" props (fun v =>
    rates ← unpack_from_vector v (unpack_vector SIZEOF_PRICE unpack_price) [];
    forM rates validate_rate) ;;
  on_prop "url" props (fun v =>
    url ← unpack_from_vector v unpack_string [];
    validate_url url).

Definition account_witness_vote_validate (o : account_witness_vote_operation) : res unit :=
  validate_account_name (av_account o) ;;
  validate_account_name (av_witness o).

Definition account_witness_proxy_validate (o : account_witness_proxy_operation) : res unit :=
  validate_account_name (ap_account o) ;;
  whenM (negb (name_size (ap_proxy o) =? 0)) (validate_account_name (ap_proxy o)) ;;
  fc_assert (negb (name_eqb (ap_proxy o) (ap_account o))).

Definition custom_validate (o : custom_operation) : res unit :=
  validate_account_name (cu_sender o) ;;
  forM (cu_recipients o) validate_account_name.

Definition custom_json_validate (o : custom_json_operation) : res unit :=
  fc_assert (is_utf8 (cj_json o)) ;;
  valid ← json_is_valid (cj_json o);
  fc_assert valid ;;
  validate_account_name (cj_sender o) ;;
  forM (cj_recipients o) validate_account_name.

Definition custom_binary_validate (o : custom_binary_operation) : res unit :=
  validate_account_name (cb_sender o) ;;
  forM (cb_recipients o) validate_account_name.

Definition feed_publish_validate (o : feed_publish_operation) : res unit :=
  validate_account_name (fp_publisher o) ;;
  validate_rate (fp_exchange_rate o) ;;
  price_validate (fp_exchange_rate o).

Definition escrow_transfer_validate (o : escrow_transfer_operation) : res unit :=
  validate_account_name (et_from o) ;;
  validate_account_name (et_to o) ;;
  validate_account_name (et_agent o) ;;
  fc_assert (amount (et_escrow_fee o) >=? 0) ;;
  fc_assert (amount (et_sophiatx_amount o) >? 0) ;;
  fc_assert (negb (name_eqb (et_from o) (et_agent o)) && negb (name_eqb (et_to o) (et_agent o))) ;;
  fc_assert (symbol (et_escrow_fee o) =? SOPHIATX_SYMBOL_U64) ;;
  fc_assert (symbol (et_sophiatx_amount o) =? SOPHIATX_SYMBOL_U64) ;;
  fc_assert (et_ratification_deadline o <? et_escrow_expiration o) ;;
  validate_json_metadata (et_json_meta o).

Definition escrow_approve_validate (o : escrow_approve_operation) : res unit :=
  validate_account_name (ea_from o) ;;
  validate_account_name (ea_to o) ;;
  validate_account_name (ea_agent o) ;;
  validate_account_name (ea_who o) ;;
  fc_assert (name_eqb (ea_who o) (ea_to o) || name_eqb (ea_who o) (ea_agent o)).

Definition escrow_dispute_validate (o : escrow_dispute_operation) : res unit :=
  validate_account_name (ed_from o) ;;
  validate_account_name (ed_to o) ;;
  validate_account_name (ed_agent o) ;;
  validate_account_name (ed_who o) ;;
  fc_assert (name_eqb (ed_who o) (ed_from o) || name_eqb (ed_who o) (ed_to o)).

Definition escrow_release_validate (o : escrow_release_operation) : res unit :=
  validate_account_name (er_from o) ;;
  validate_account_name (er_to o) ;;
  validate_account_name (er_agent o) ;;
  validate_account_name (er_who o) ;;
  validate_account_name (er_receiver o) ;;
  fc_assert (name_eqb (er_who o) (er_from o) || name_eqb (er_who o) (er_to o)
             || name_eqb (er_who o) (er_agent o)) ;;
  fc_assert (name_eqb (er_receiver o) (er_from o) || name_eqb (er_receiver o) (er_to o)) ;;
  fc_assert (amount (er_sophiatx_amount o) >? 0) ;;
  fc_assert (symbol (er_sophiatx_amount o) =? SOPHIATX_SYMBOL_U64).

Definition request_account_recovery_validate (o : request_account_recovery_operation) : res unit :=
  validate_account_name (rr_recovery_account o) ;;
  validate_account_name (rr_account_to_recover o) ;;
  authority_validate (rr_new_owner_authority o).

Definition recover_account_validate (o : recover_account_operation) : res unit :=
  validate_account_name (ra_account_to_recover o) ;;
  fc_assert (negb (authority_eqb (ra_new_owner_authority o) (ra_recent_owner_authority o))) ;;
  fc_assert (negb (is_impossible (ra_new_owner_authority o))) ;;
  fc_assert (negb (is_impossible (ra_recent_owner_authority o))) ;;
  fc_assert (negb (weight_threshold (ra_new_owner_authority o) =? 0)) ;;
  authority_validate (ra_new_owner_authority o) ;;
  authority_validate (ra_recent_owner_authority o).

Definition change_recovery_account_validate (o : change_recovery_account_operation) : res unit :=
  validate_account_name (cr_account_to_recover o) ;;
  validate_account_name (cr_new_recovery_account o).

Definition reset_account_validate (o : reset_account_operation) : res unit :=
  validate_account_name (rs_reset_account o) ;;
  validate_account_name (rs_account_to_reset o) ;;
  fc_assert (negb (is_impossible (rs_new_owner_authority o))) ;;
  fc_assert (negb (weight_threshold (rs_new_owner_authority o) =? 0)) ;;
  authority_validate (rs_new_owner_authority o).

Definition set_reset_account_validate (o : set_reset_account_operation) : res unit :=
  validate_account_name (sr_account o) ;;
  whenM (negb (name_size (sr_current_reset_account o) =? 0))
    (validate_account_name (sr_current_reset_account o)) ;;
  validate_account_name (sr_reset_account o) ;;
  fc_assert (negb (name_eqb (sr_current_reset_account o) (sr_reset_account o))).

Definition validate_app_name (name : list Z) : res unit :=
  fc_assert (size name <=? SOPHIATX_MAX_PERMLINK_LENGTH) ;;
  fc_assert (size name >? 0) ;;
  fc_assert (is_utf8 name).

Definition application_create_validate (o : application_create_operation) : res unit :=
  validate_account_name (pc_author o) ;;
  validate_app_name (pc_name o) ;;
  validate_url (pc_url o) ;;
  whenM (size (pc_metadata o) >? 0) (fc_assert (is_utf8 (pc_metadata o))) ;;
  fc_assert (pc_price_param o <? app_none).

(** [*price_param] is read whether or not the optional holds a value. *)
Definition application_update_validate (o : application_update_operation) : res unit :=
  validate_account_name (pu_author o) ;;
  match pu_new_author o with Some a => validate_account_name a | None => Ok tt end ;;
  validate_app_name (pu_name o) ;;
  validate_url (pu_url o) ;;
  whenM (size (pu_metadata o) >? 0) (fc_assert (is_utf8 (pu_metadata o))) ;;
  match pu_price_param o with Some p => fc_assert (p <? app_none) | None => Throw crash end.

Definition application_delete_validate (o : application_delete_operation) : res unit :=
  validate_account_name (pd_author o) ;;
  validate_app_name (pd_name o).

Definition transfer_from_promotion_pool_validate (o : transfer_from_promotion_pool_operation) : res unit :=
  validate_account_name (tp_transfer_to o) ;;
  fc_assert (amount (tp_amount o) >? 0).

Definition sponsor_fees_validate (o : sponsor_fees_operation) : res unit :=
  whenM (negb (name_eqb (sf_sponsor o) (name_of ""))) (validate_account_name (sf_sponsor o)) ;;
  validate_account_name (sf_sponsored o).

Definition buy_application_validate (o : buy_application_operation) : res unit :=
  validate_account_name (ba_buyer o).

Definition cancel_application_buying_validate (o : cancel_application_buying_operation) : res unit :=
  validate_account_name (ca_app_owner o) ;;
  validate_account_name (ca_buyer o).

(** [operation_validate]: virtual operations are never valid in a transaction,
    [witness_stop] and [admin_witness_update] have nothing to check. *)
Definition operation_validate (op : operation) : res unit :=
  match op with
  | op_transfer o => transfer_validate o
  | op_transfer_to_vesting o => transfer_to_vesting_validate o
  | op_withdraw_vesting o => withdraw_vesting_validate o
  | op_feed_publish o => feed_publish_validate o
  | op_account_create o => account_create_validate o
  | op_account_update o => account_update_validate o
  | op_account_delete o => account_delete_validate o
  | op_witness_update o => witness_update_validate o
  | op_witness_stop _ => Ok tt
  | op_account_witness_vote o => account_witness_vote_validate o
  | op_account_witness_proxy o => account_witness_proxy_validate o
  | op_witness_set_properties o => witness_set_properties_validate o
  | op_custom o => custom_validate o
  | op_custom_json o => custom_json_validate o
  | op_custom_binary o => custom_binary_validate o
  | op_request_account_recovery o => request_account_recovery_validate o
  | op_recover_account o => recover_account_validate o
  | op_change_recovery_account o => change_recovery_account_validate o
  | op_escrow_transfer o => escrow_transfer_validate o
  | op_escrow_dispute o => escrow_dispute_validate o
  | op_escrow_release o => escrow_release_validate o
  | op_escrow_approve o => escrow_approve_validate o
  | op_reset_account o => reset_account_validate o
  | op_set_reset_account o => set_reset_account_validate o
  | op_application_create o => application_create_validate o
  | op_application_update o => application_update_validate o
  | op_application_delete o => application_delete_validate o
  | op_buy_application o => buy_application_validate o
  | op_cancel_application_buying o => cancel_application_buying_validate o
  | op_transfer_from_promotion_pool o => transfer_from_promotion_pool_validate o
  | op_sponsor_fees o => sponsor_fees_validate o
  | op_admin_witness_update _ => Ok tt
  | op_interest _ | op_fill_vesting_withdraw _ | op_shutdown_witness _ | op_hardfork _
  | op_producer_reward _ | op_promotion_pool_withdraw _ => Throw assert_exception
  end.
End validate.
