(* ===== verification/Objects.v ===== *)
(** * Objects: the objects of the chain state ([chain/*_object*.hpp],
    [economics.hpp]).

    Times are seconds since the epoch in 32 bits, ids count up from zero in each
    table, text fields are lists of bytes, a [flat_map] is a sorted list or a
    finite map. *)
From S2P Require Import Prelude Safe Names Asset Version Config Authority Operations.
Local Open Scope Z_scope.
Local Open Scope list_scope.

Definition time_point_sec_maximum : Z := 2^32 - 1.

(** A RIPEMD-160 hash: block and transaction ids, as its five 32-bit words. *)
Record hash160 := Hash160 { _hash0 : Z; _hash1 : Z; _hash2 : Z; _hash3 : Z; _hash4 : Z }.
#[export] Instance hash160_eq_dec : EqDecision hash160.
Proof. solve_decision. Defined.
#[export] Program Instance hash160_countable : Countable hash160 :=
  inj_countable' (fun h => (_hash0 h, _hash1 h, _hash2 h, _hash3 h, _hash4 h))
    (fun '(a, b, c, d, e) => Hash160 a b c d e) _.
Next Obligation. by intros []. Qed.
Definition null_hash : hash160 := Hash160 0 0 0 0 0.

(** ** account_object.hpp *)
Record account_object := AccountObject {
  acc_id : Z;
  acc_name : account_name_type;
  memo_key : public_key_type;
  json_metadata : list Z;
  proxy : account_name_type;
  last_account_update : Z;
  holdings_considered_for_interests : Z;
  acc_created : Z;
  mined : bool;
  recovery_account : account_name_type;
  reset_account : account_name_type;
  last_account_recovery : Z;
  balance : asset;
  vesting_shares : asset;
  vesting_withdraw_rate : asset;
  next_vesting_withdrawal : Z;
  withdrawn : Z;
  to_withdraw : Z;
  proxied_vsf_votes : list Z;
  witnesses_voted_for : Z }.
#[export] Instance account_object_eta : Eta account_object := fun a =>
  AccountObject (acc_id a) (acc_name a) (memo_key a) (json_metadata a) (proxy a)
    (last_account_update a) (holdings_considered_for_interests a) (acc_created a) (mined a)
    (recovery_account a) (reset_account a) (last_account_recovery a) (balance a)
    (vesting_shares a) (vesting_withdraw_rate a) (next_vesting_withdrawal a) (withdrawn a)
    (to_withdraw a) (proxied_vsf_votes a) (witnesses_voted_for a).

(** The default member values. *)
Definition default_account `{cfg : sophiatx_config} (id : Z) : account_object := {|
  acc_id := id; acc_name := Name 0 0; memo_key := null_key; json_metadata := [];
  proxy := Name 0 0; last_account_update := 0; holdings_considered_for_interests := 0;
  acc_created := 0; mined := true; recovery_account := Name 0 0;
  reset_account := SOPHIATX_NULL_ACCOUNT; last_account_recovery := 0;
  balance := Asset 0 SOPHIATX_SYMBOL; vesting_shares := Asset 0 VESTS_SYMBOL;
  vesting_withdraw_rate := Asset 0 VESTS_SYMBOL;
  next_vesting_withdrawal := time_point_sec_maximum; withdrawn := 0; to_withdraw := 0;
  proxied_vsf_votes := [0; 0; 0; 0]; witnesses_voted_for := 0 |}.

Definition total_balance (a : account_object) : res Z :=
  amount (balance a) +! amount (vesting_shares a).
Definition proxied_vsf_votes_total (a : account_object) : res Z :=
  foldM safe_add 0 (proxied_vsf_votes a).
Definition witness_vote_weight (a : account_object) : res Z :=
  p ← proxied_vsf_votes_total a;
  n ← p +! amount (balance a);
  n +! amount (vesting_shares a).

(** [update_considered_holding]: the amount counts for the blocks left until
    the turn of the account in the interest period. *)
Definition blocks_to_turn (id block_no interest_blocks : Z) : Z :=
  let my_turn := u32 (id mod interest_blocks) in
  let block := u32 block_no mod interest_blocks in
  if my_turn >=? block then u32 (my_turn - block)
  else u32 (my_turn + interest_blocks - block).
Definition update_considered_holding (inserted block_no : Z) (a : account_object)
    : res (account_object * Z) :=
  to_add ← inserted *! blocks_to_turn (acc_id a) block_no SOPHIATX_INTEREST_BLOCKS;
  h ← holdings_considered_for_interests a +! to_add;
  Ok (a <| holdings_considered_for_interests := h |>, to_add).

Record account_authority_object := AccountAuthority {
  aa_id : Z;
  aa_account : account_name_type;
  owner_auth : authority;
  active_auth : authority;
  last_owner_update : Z }.
#[export] Instance account_authority_eta : Eta account_authority_object := fun a =>
  AccountAuthority (aa_id a) (aa_account a) (owner_auth a) (active_auth a) (last_owner_update a).

Record owner_authority_history_object := OwnerAuthorityHistory {
  oh_id : Z;
  oh_account : account_name_type;
  previous_owner_authority : authority;
  last_valid_time : Z }.

Record account_recovery_request_object := AccountRecoveryRequest {
  arr_id : Z;
  arr_account_to_recover : account_name_type;
  new_owner_authority : authority;
  expires : Z }.
#[export] Instance account_recovery_request_eta : Eta account_recovery_request_object := fun a =>
  AccountRecoveryRequest (arr_id a) (arr_account_to_recover a) (new_owner_authority a) (expires a).

Record change_recovery_account_request_object := ChangeRecoveryRequest {
  crr_id : Z;
  crr_account_to_recover : account_name_type;
  crr_recovery_account : account_name_type;
  effective_on : Z }.
#[export] Instance change_recovery_request_eta : Eta change_recovery_account_request_object := fun a =>
  ChangeRecoveryRequest (crr_id a) (crr_account_to_recover a) (crr_recovery_account a) (effective_on a).

Record account_fee_sponsor_object := AccountFeeSponsor {
  afs_id : Z; sponsor : account_name_type; sponsored : account_name_type }.

(** ** witness_objects.hpp *)
Record submitted_exchange_rate := SubmittedRate { rate : price; last_change : Z }.
Definition default_exchange_rate : submitted_exchange_rate := SubmittedRate null_price 0.

Inductive witness_schedule_type : Set := top19 | timeshare | none_scheduled.

Record witness_object := WitnessObject {
  wit_id : Z;
  wit_owner : account_name_type;
  wit_created : Z;
  wit_url : list Z;
  total_missed : Z;
  last_aslot : Z;
  last_confirmed_block_num : Z;
  signing_key : public_key_type;
  props : chain_properties;
  submitted_exchange_rates : gmap Z submitted_exchange_rate;
  votes : Z;
  schedule : witness_schedule_type;
  virtual_last_update : Z;
  virtual_position : Z;
  virtual_scheduled_time : Z;
  stopped : bool;
  running_version : Z;
  hardfork_version_vote_ : Z;
  hardfork_time_vote : Z }.
#[export] Instance witness_object_eta : Eta witness_object := fun w =>
  WitnessObject (wit_id w) (wit_owner w) (wit_created w) (wit_url w) (total_missed w) (last_aslot w)
    (last_confirmed_block_num w) (signing_key w) (props w) (submitted_exchange_rates w) (votes w)
    (schedule w) (virtual_last_update w) (virtual_position w) (virtual_scheduled_time w) (stopped w)
    (running_version w) (hardfork_version_vote_ w) (hardfork_time_vote w).

Definition UINT128_MAX : Z := 2^128 - 1.

(** [shared_chain_properties( alloc )] *)
Definition default_shared_props `{cfg : sophiatx_config} : chain_properties :=
  ChainProperties (Asset SOPHIATX_MIN_ACCOUNT_CREATION_FEE SOPHIATX_SYMBOL)
    (u32 (SOPHIATX_MIN_BLOCK_SIZE_LIMIT * 2)) [].
(** [chain_properties()] *)
Definition default_chain_properties `{cfg : sophiatx_config} : chain_properties :=
  ChainProperties (Asset SOPHIATX_MIN_ACCOUNT_CREATION_FEE SOPHIATX_SYMBOL)
    SOPHIATX_MAX_BLOCK_SIZE [].

Definition default_witness `{cfg : sophiatx_config} (id : Z) : witness_object := {|
  wit_id := id; wit_owner := Name 0 0; wit_created := 0; wit_url := []; total_missed := 0;
  last_aslot := 0; last_confirmed_block_num := 0; signing_key := null_key;
  props := default_shared_props; submitted_exchange_rates := ∅; votes := 0;
  schedule := none_scheduled; virtual_last_update := 0; virtual_position := 0;
  virtual_scheduled_time := UINT128_MAX; stopped := false; running_version := 0;
  hardfork_version_vote_ := 0; hardfork_time_vote := SOPHIATX_GENESIS_TIME |}.

Record witness_vote_object := WitnessVote {
  wv_id : Z; wv_witness : account_name_type; wv_voter : account_name_type }.

Record witness_schedule_object := WitnessSchedule {
  current_virtual_time : Z;
  next_shuffle_block_num : Z;
  current_shuffled_witnesses : list account_name_type;
  num_scheduled_witnesses : Z;
  top19_weight : Z;
  timeshare_weight : Z;
  witness_pay_normalization_factor : Z;
  median_props : chain_properties;
  majority_version : Z;
  max_voted_witnesses_ : Z;
  max_runner_witnesses_ : Z;
  hardfork_required_witnesses : Z }.
#[export] Instance witness_schedule_eta : Eta witness_schedule_object := fun w =>
  WitnessSchedule (current_virtual_time w) (next_shuffle_block_num w) (current_shuffled_witnesses w)
    (num_scheduled_witnesses w) (top19_weight w) (timeshare_weight w)
    (witness_pay_normalization_factor w) (median_props w) (majority_version w)
    (max_voted_witnesses_ w) (max_runner_witnesses_ w) (hardfork_required_witnesses w).

Definition default_witness_schedule `{cfg : sophiatx_config} : witness_schedule_object := {|
  current_virtual_time := 0; next_shuffle_block_num := 1; current_shuffled_witnesses := [];
  num_scheduled_witnesses := 1; top19_weight := 21; timeshare_weight := 63;
  witness_pay_normalization_factor := 25; median_props := default_chain_properties;
  majority_version := 0; max_voted_witnesses_ := SOPHIATX_MAX_VOTED_WITNESSES_HF0;
  max_runner_witnesses_ := SOPHIATX_MAX_RUNNER_WITNESSES_HF0;
  hardfork_required_witnesses := SOPHIATX_HARDFORK_REQUIRED_WITNESSES |}.

(** ** sophiatx_objects.hpp *)
Record escrow_object := EscrowObject {
  esc_id : Z;
  escrow_id : Z;
  esc_from : account_name_type;
  esc_to : account_name_type;
  esc_agent : account_name_type;
  ratification_deadline : Z;
  escrow_expiration : Z;
  sophiatx_balance : asset;
  pending_fee : asset;
  to_approved : bool;
  agent_approved : bool;
  disputed : bool }.
#[export] Instance escrow_eta : Eta escrow_object := fun e =>
  EscrowObject (esc_id e) (escrow_id e) (esc_from e) (esc_to e) (esc_agent e)
    (ratification_deadline e) (escrow_expiration e) (sophiatx_balance e) (pending_fee e)
    (to_approved e) (agent_approved e) (disputed e).
Definition is_approved (e : escrow_object) : bool := to_approved e && agent_approved e.

Record feed_history_object := FeedHistory {
  fh_symbol : Z; current_median_history : price; price_history : list price }.
#[export] Instance feed_history_eta : Eta feed_history_object := fun f =>
  FeedHistory (fh_symbol f) (current_median_history f) (price_history f).

(** ** global_property_object.hpp *)
Record dynamic_global_property_object := DynamicGlobalProperties {
  head_block_number : Z;
  head_block_id : hash160;
  time : Z;
  current_witness : account_name_type;
  current_supply : asset;
  total_vesting_shares : asset;
  total_reward_fund : asset;
  witness_required_vesting : asset;
  gpo_maximum_block_size : Z;
  current_aslot : Z;
  recent_slots_filled : Z;
  participation_count : Z;
  last_irreversible_block_num : Z;
  chain_id : Z;
  gpo_genesis_time : Z;
  private_net : bool }.
#[export] Instance dgpo_eta : Eta dynamic_global_property_object := fun g =>
  DynamicGlobalProperties (head_block_number g) (head_block_id g) (time g) (current_witness g)
    (current_supply g) (total_vesting_shares g) (total_reward_fund g) (witness_required_vesting g)
    (gpo_maximum_block_size g) (current_aslot g) (recent_slots_filled g) (participation_count g)
    (last_irreversible_block_num g) (chain_id g) (gpo_genesis_time g) (private_net g).

Definition default_dgpo `{cfg : sophiatx_config} : dynamic_global_property_object := {|
  head_block_number := 0; head_block_id := null_hash; time := 0; current_witness := Name 0 0;
  current_supply := Asset 0 SOPHIATX_SYMBOL; total_vesting_shares := Asset 0 VESTS_SYMBOL;
  total_reward_fund := Asset 0 SOPHIATX_SYMBOL;
  witness_required_vesting :=
    Asset SOPHIATX_INITIAL_WITNESS_REQUIRED_VESTING_BALANCE SOPHIATX_SYMBOL;
  gpo_maximum_block_size := 0; current_aslot := 0; recent_slots_filled := 0;
  participation_count := 0; last_irreversible_block_num := 0; chain_id := 0;
  gpo_genesis_time := 0; private_net := false |}.

(** ** economics.hpp *)
Record economic_model_object := EconomicModel {
  mining_pool_from_coinbase : Z;
  mining_pool_from_fees : Z;
  interest_pool_from_coinbase : Z;
  interest_pool_from_fees : Z;
  promotion_pool : Z;
  burn_pool : Z;
  initial_promotion_pool : Z;
  econ_init_supply : Z;
  econ_total_supply : Z;
  coinbase_block_reward : Z;
  historic_supply : gmap Z Z;
  accumulated_supply : Z }.
#[export] Instance economic_model_eta : Eta economic_model_object := fun e =>
  EconomicModel (mining_pool_from_coinbase e) (mining_pool_from_fees e)
    (interest_pool_from_coinbase e) (interest_pool_from_fees e) (promotion_pool e) (burn_pool e)
    (initial_promotion_pool e) (econ_init_supply e) (econ_total_supply e) (coinbase_block_reward e)
    (historic_supply e) (accumulated_supply e).
Definition default_economic_model : economic_model_object :=
  EconomicModel 0 0 0 0 0 0 0 0 0 0 ∅ 0.

(** ** application_object.hpp, custom_content_object.hpp *)
Record application_object := ApplicationObject {
  app_id : Z;
  app_name : account_name_type;
  author : account_name_type;
  app_url : list Z;
  app_metadata : list Z;
  price_param : Z }.
#[export] Instance application_eta : Eta application_object := fun a =>
  ApplicationObject (app_id a) (app_name a) (author a) (app_url a) (app_metadata a) (price_param a).

Record application_buying_object := ApplicationBuying {
  abo_id : Z; buyer : account_name_type; abo_app_id : Z; abo_created : Z }.

Record custom_content_object := CustomContent {
  cc_id : Z;
  cc_app_id : Z;
  cc_sender : account_name_type;
  cc_recipient : account_name_type;
  all_recipients : list account_name_type;
  sender_sequence : Z;
  recipient_sequence : Z;
  app_message_sequence : Z;
  received : Z;
  binary : bool;
  cc_data : list Z;
  cc_json : list Z }.

(** ** block_summary_object.hpp, hardfork_property_object.hpp,
    account_bandwidth_object.hpp, transaction_object.hpp *)
Record hardfork_property_object := HardforkProperty {
  processed_hardforks : list Z;
  last_hardfork : Z;
  current_hardfork_version : Z;
  next_hardfork : Z;
  next_hardfork_time : Z }.
#[export] Instance hardfork_property_eta : Eta hardfork_property_object := fun h =>
  HardforkProperty (processed_hardforks h) (last_hardfork h) (current_hardfork_version h)
    (next_hardfork h) (next_hardfork_time h).
Definition default_hardfork_property : hardfork_property_object :=
  HardforkProperty [] 0 (hardfork_version 1 0) 0 0.

Record account_bandwidth_object := AccountBandwidth {
  bw_account : account_name_type;
  act_fee_free_bandwidth : Z;
  act_fee_free_ops_count : Z;
  last_block_num_reset : Z }.
#[export] Instance account_bandwidth_eta : Eta account_bandwidth_object := fun b =>
  AccountBandwidth (bw_account b) (act_fee_free_bandwidth b) (act_fee_free_ops_count b)
    (last_block_num_reset b).

Record transaction_object := TransactionObject {
  txo_id : Z; packed_trx : list Z; trx_id : hash160; txo_expiration : Z }.
