(* ===== verification/State.v ===== *)
(** * State: the chain database and its accessors ([chain/database.cpp],
    [database_interface.hpp]).

    [db] holds one finite map per table, keyed by the unique key the handlers
    use; account-like tables are keyed by the data of the name.  A C++ reference
    to an object is its key: every use reads the table again, so a handler sees
    the changes made through the reference in between.  Handlers live in the
    state-and-exception monad [DB]. *)
From S2P Require Import Prelude Safe Names Asset Version Config Authority Operations Objects.
Local Open Scope Z_scope.
Local Open Scope list_scope.

Record db := Db {
  dgpo : dynamic_global_property_object;
  econ : economic_model_object;
  wso : witness_schedule_object;
  hpo : hardfork_property_object;
  accounts : gmap Z account_object;
  account_auths_ : gmap Z account_authority_object;
  owner_history : gmap Z owner_authority_history_object;           (* by id *)
  recovery_requests : gmap Z account_recovery_request_object;      (* by account *)
  change_recovery_requests : gmap Z change_recovery_account_request_object;
  fee_sponsors : gmap Z account_fee_sponsor_object;                (* by sponsored *)
  witnesses : gmap Z witness_object;                               (* by owner *)
  witness_votes : gmap (Z * Z) witness_vote_object;                (* account, witness *)
  escrows : gmap (Z * Z) escrow_object;                            (* from, escrow_id *)
  feed_histories : gmap Z feed_history_object;                     (* by symbol *)
  applications : gmap Z application_object;                        (* by id *)
  application_buyings : gmap (Z * Z) application_buying_object;    (* buyer, app id *)
  custom_contents : gmap Z custom_content_object;                  (* by id *)
  block_summaries : gmap Z hash160;                                (* by id *)
  transactions : gmap hash160 transaction_object;                  (* by trx_id *)
  account_bandwidths : gmap Z account_bandwidth_object;            (* by account *)
  next_ids : gmap Z Z;                                             (* by object type *)
  (* members of the node, outside the undo history *)
  skip_flags : Z;
  producing : bool;
  current_block_num : Z;
  virtual_ops : list operation (* notified so far, latest first *) }.
#[export] Instance db_eta : Eta db := fun d =>
  Db (dgpo d) (econ d) (wso d) (hpo d) (accounts d) (account_auths_ d) (owner_history d)
    (recovery_requests d) (change_recovery_requests d) (fee_sponsors d) (witnesses d)
    (witness_votes d) (escrows d) (feed_histories d) (applications d) (application_buyings d)
    (custom_contents d) (block_summaries d) (transactions d) (account_bandwidths d) (next_ids d)
    (skip_flags d) (producing d) (current_block_num d) (virtual_ops d).

Abbreviation DB := (ST db).

(** ** [object_type] numbers, the keys of [next_ids] *)
Definition account_object_type : Z := 1.
Definition account_authority_object_type : Z := 2.
Definition witness_object_type : Z := 3.
Definition transaction_object_type : Z := 4.
Definition witness_vote_object_type : Z := 7.
Definition owner_authority_history_object_type : Z := 12.
Definition account_recovery_request_object_type : Z := 13.
Definition change_recovery_account_request_object_type : Z := 14.
Definition escrow_object_type : Z := 15.
Definition custom_content_object_type : Z := 18.
Definition application_object_type : Z := 19.
Definition account_fee_sponsor_object_type : Z := 20.
Definition application_buying_object_type : Z := 21.

(** ** Table access, for any table [proj] of the state *)
Section tables.
  Context {K V : Type} `{Countable K} (proj : db -> gmap K V) `{!Settable proj}.

(** [get< object, index >( key )] *)
Definition get (k : K) : DB V := fun s =>
  match proj s !! k with Some v => Ok (v, s) | None => Throw out_of_range end.

(** [find< object, index >( key )] *)
Definition find (k : K) : DB (option V) := gets (fun s => proj s !! k).

(** [modify( obj, f )]; [f] may throw, and so does the whole call. *)
Definition modify (k : K) (f : V -> res V) : DB unit := fun s =>
  match proj s !! k with
  | Some v => match f v with Ok v' => Ok (tt, s <| proj ::= <[k := v']> |>) | Throw e => Throw e end
  | None => Throw out_of_range
  end.

(** Insertion of a new object: a second object with the same key is refused. *)
Definition insert_new (k : K) (v : V) : DB unit := fun s =>
  match proj s !! k with
  | Some _ => Throw logic_error
  | None => Ok (tt, s <| proj ::= <[k := v]> |>)
  end.

(** [remove( obj )] *)
Definition remove (k : K) : DB unit := puts (fun s : db => upd proj (delete k) s).

Lemma get_Ok k s v s1 : get k s = Ok (v, s1) <-> proj s !! k = Some v /\ s1 = s.
Proof. unfold get. destruct (proj s !! k); naive_solver. Qed.

Lemma modify_Ok k f s u s1 : modify k f s = Ok (u, s1) <->
  exists v v', proj s !! k = Some v /\ f v = Ok v' /\ s1 = s <| proj ::= <[k := v']> |>.
Proof.
  unfold modify. destruct (proj s !! k) as [v|], u; [|by split; [|intros (? & ? & ? & ?)]].
  destruct (f v) as [v'|e] eqn:Hf;
    [|split; [done|intros (? & ? & [= <-] & Hf' & _); by rewrite Hf in Hf']]. split.
  - intros [= <-]. eauto.
  - intros (? & ? & [= <-] & Hf' & ->). rewrite Hf in Hf'. by injection Hf' as ->.
Qed.

Lemma insert_new_Ok k v s u s1 : insert_new k v s = Ok (u, s1) <->
  proj s !! k = None /\ s1 = s <| proj ::= <[k := v]> |>.
Proof.
  unfold insert_new. destruct (proj s !! k), u; [by split; [|intros [? ?]]|].
  split; [intros [= <-]; done|]. by intros [_ ->].
Qed.
End tables.

(** The id of the next object of a type: chainbase counts it up at [create]. *)
Definition fresh_id (type : Z) : DB Z :=
  id ← gets (fun s => default 0 (next_ids s !! type));
  puts (fun s => s <| next_ids ::= <[type := id + 1]> |>) ;;
  mret id.

(** [modify] on the singletons *)
Definition modify_gpo (f : dynamic_global_property_object -> res dynamic_global_property_object)
    : DB unit := fun s =>
  match f (dgpo s) with Ok g => Ok (tt, s <| dgpo := g |>) | Throw e => Throw e end.
Definition modify_econ (f : economic_model_object -> res economic_model_object) : DB unit := fun s =>
  match f (econ s) with Ok e' => Ok (tt, s <| econ := e' |>) | Throw e => Throw e end.
Definition modify_hpo (f : hardfork_property_object -> res hardfork_property_object) : DB unit := fun s =>
  match f (hpo s) with Ok h => Ok (tt, s <| hpo := h |>) | Throw e => Throw e end.
Definition modify_wso (f : witness_schedule_object -> res witness_schedule_object) : DB unit := fun s =>
  match f (wso s) with Ok w => Ok (tt, s <| wso := w |>) | Throw e => Throw e end.

Lemma modify_gpo_Ok f s u s1 : modify_gpo f s = Ok (u, s1) <->
  exists g, f (dgpo s) = Ok g /\ s1 = s <| dgpo := g |>.
Proof. unfold modify_gpo. destruct (f (dgpo s)), u; naive_solver. Qed.
Lemma modify_econ_Ok f s u s1 : modify_econ f s = Ok (u, s1) <->
  exists g, f (econ s) = Ok g /\ s1 = s <| econ := g |>.
Proof. unfold modify_econ. destruct (f (econ s)), u; naive_solver. Qed.

(** ** database_interface *)
Definition head_block_time : DB Z := gets (fun s => time (dgpo s)).
Definition head_block_num : DB Z := gets (fun s => head_block_number (dgpo s)).
Definition is_private_net : DB bool := gets (fun s => private_net (dgpo s)).
Definition is_producing : DB bool := gets producing.
Definition has_hardfork_in (s : db) (hardfork : Z) : bool :=
  Z.of_nat (length (processed_hardforks (hpo s))) >? hardfork.
Definition has_hardfork (hardfork : Z) : DB bool := gets (fun s => has_hardfork_in s hardfork).

Definition push_virtual_operation (op : operation) : DB unit :=
  fc_assert (is_virtual_operation op) ;;
  puts (fun s => s <| virtual_ops ::= cons op |>).

(** A name passed as [const string&] and stored as a name again. *)
Definition via_string (a : account_name_type) : res account_name_type :=
  s ← string_of_name a; Ok (fixed_string s).

(** ** Getters of database.cpp *)
Definition get_account (n : account_name_type) : DB account_object := get accounts (data n).
Definition find_account (n : account_name_type) : DB (option account_object) := find accounts (data n).
Definition get_witness (n : account_name_type) : DB witness_object := get witnesses (data n).
Definition find_witness (n : account_name_type) : DB (option witness_object) := find witnesses (data n).
Definition get_escrow (n : account_name_type) (id : Z) : DB escrow_object := get escrows (data n, id).
Definition get_account_auth (n : account_name_type) : DB account_authority_object :=
  get account_auths_ (data n).
Definition get_application_by_id (id : Z) : DB application_object := get applications id.
Definition get_application_buying (b : account_name_type) (id : Z) : DB application_buying_object :=
  get application_buyings (data b, id).

(** The application with a name: names are unique among applications. *)
Definition application_named (n : account_name_type) (s : db) : option application_object :=
  snd <$> List.find (fun kv => name_eqb (app_name (snd kv)) n) (map_to_list (applications s)).
Definition get_application (n : account_name_type) : DB application_object := fun s =>
  match application_named n s with Some a => Ok (a, s) | None => Throw out_of_range end.

(** The account with an id ([by_id]). *)
Definition account_with_id (id : Z) (s : db) : option account_object :=
  snd <$> List.find (fun kv => acc_id (snd kv) =? id) (map_to_list (accounts s)).
Definition find_account_by_id (id : Z) : DB (option account_object) := gets (account_with_id id).

Definition get_sponsor (who : account_name_type) : DB (option account_name_type) :=
  s ← find fee_sponsors (data who);
  mret (sponsor <$> s).

Definition get_feed_history (sym : Z) : DB feed_history_object :=
  f ← find feed_histories sym;
  match f with Some h => mret h | None => mthrow assert_exception end.

Definition to_sophiatx_db `{cfg : sophiatx_config} (sbd : asset) : DB asset :=
  h ← get_feed_history (symbol sbd);
  ⌈ to_sophiatx SOPHIATX_SYMBOL (current_median_history h) sbd ⌉.

(** ** Ordered indices: the objects of a table in the order of a key.

    Keys are lists of numbers compared lexicographically ([composite_key]). *)
Fixpoint lex_leb (a b : list Z) : bool :=
  match a, b with
  | [], _ => true
  | _ :: _, [] => false
  | x :: a', y :: b' => if x <? y then true else if y <? x then false else lex_leb a' b'
  end.
Definition key_le {K A} (key : A -> list Z) (x y : K * A) : Prop :=
  lex_leb (key (snd x)) (key (snd y)) = true.
#[export] Instance key_le_dec {K A} (key : A -> list Z) : RelDecision (@key_le K A key) :=
  fun x y => decide (lex_leb (key (snd x)) (key (snd y)) = true).

(** The objects of a table with their references (keys), smallest first. *)
Definition index_by {K V} `{Countable K} (key : V -> list Z) (m : gmap K V) : list (K * V) :=
  merge_sort (key_le key) (map_to_list m).

Lemma index_by_elem {K V} `{Countable K} (key : V -> list Z) (m : gmap K V) k v :
  (k, v) ∈ index_by key m <-> m !! k = Some v.
Proof. unfold index_by. rewrite merge_sort_Permutation. apply elem_of_map_to_list. Qed.

Lemma index_by_NoDup {K V} `{Countable K} (key : V -> list Z) (m : gmap K V) :
  NoDup (index_by key m).*1.
Proof. unfold index_by. rewrite merge_sort_Permutation. apply NoDup_fst_map_to_list. Qed.

Lemma lex_leb_refl a : lex_leb a a = true.
Proof. induction a as [|x a IH]; simpl; [done|]. by rewrite Z.ltb_irrefl. Qed.

Lemma lex_leb_total a b : lex_leb a b = true \/ lex_leb b a = true.
Proof.
  revert b. induction a as [|x a IH]; intros [|y b]; simpl; auto.
  destruct (Z.lt_trichotomy x y) as [Hl|[->|Hl]].
  - left. by rewrite (proj2 (Z.ltb_lt x y) Hl).
  - rewrite Z.ltb_irrefl. apply IH.
  - right. by rewrite (proj2 (Z.ltb_lt y x) Hl).
Qed.

Lemma lex_leb_trans a b c : lex_leb a b = true -> lex_leb b c = true -> lex_leb a c = true.
Proof.
  revert b c. induction a as [|x a IH]; intros [|y b] [|z c]; simpl; try done.
  destruct (x <? y) eqn:E1, (y <? x) eqn:E2, (y <? z) eqn:E3, (z <? y) eqn:E4, (x <? z) eqn:E5,
    (z <? x) eqn:E6; bool_simpl; try done; try lia; apply IH.
Qed.

(** The index is sorted. *)
Lemma index_by_sorted {K V} `{Countable K} (key : V -> list Z) (m : gmap K V) :
  StronglySorted (key_le key) (index_by key m).
Proof.
  apply StronglySorted_merge_sort.
  - intros x y z. unfold key_le. apply lex_leb_trans.
  - intros x y. unfold key_le. apply lex_leb_total.
Qed.

(** Decompose the table accesses of a handler that returned. *)
Ltac dbinv1 :=
  match goal with
  | H : get _ _ _ = Ok _ |- _ => apply get_Ok in H as [? ?]
  | H : find _ _ _ = Ok _ |- _ => unfold find in H
  | H : modify _ _ _ _ = Ok _ |- _ => apply modify_Ok in H as (? & ? & ? & ? & ?)
  | H : insert_new _ _ _ _ = Ok _ |- _ => apply insert_new_Ok in H as (? & ?)
  | H : remove _ _ _ = Ok _ |- _ => unfold remove in H
  | H : modify_gpo _ _ = Ok _ |- _ => apply modify_gpo_Ok in H as (? & ? & ?)
  | H : modify_econ _ _ = Ok _ |- _ => apply modify_econ_Ok in H as (? & ? & ?)
  | H : head_block_time _ = Ok _ |- _ => unfold head_block_time in H
  | H : head_block_num _ = Ok _ |- _ => unfold head_block_num in H
  | H : is_private_net _ = Ok _ |- _ => unfold is_private_net in H
  | H : is_producing _ = Ok _ |- _ => unfold is_producing in H
  | H : has_hardfork _ _ = Ok _ |- _ => unfold has_hardfork in H
  | H : get_account _ _ = Ok _ |- _ => unfold get_account in H
  | H : find_account _ _ = Ok _ |- _ => unfold find_account in H
  | H : get_witness _ _ = Ok _ |- _ => unfold get_witness in H
  | H : get_escrow _ _ _ = Ok _ |- _ => unfold get_escrow in H
  | H : get_account_auth _ _ = Ok _ |- _ => unfold get_account_auth in H
  end.
Ltac dbinv := repeat (first [minv1 | dbinv1]; subst; cbv beta iota in * ).
