(* ===== verification/Frame.v ===== *)
(** * Frame: what a handler leaves unchanged.

    [frames f m] says that running [m] leaves the part [f] of the state as it
    was.  [Indep proj f] says that [f] does not look at the table [proj]; the
    instances are found by computation.  The [frame] tactic follows the syntax
    of a handler and looks the calls up in the [frame] hint database. *)
From S2P Require Import Prelude Safe Names Asset Version Config Authority Operations Objects State.
Local Open Scope Z_scope.
Local Open Scope list_scope.

Definition frames {T A} (f : db -> T) (m : DB A) : Prop :=
  forall s a s', m s = Ok (a, s') -> f s' = f s.

Class Indep {K V T} `{Countable K} (proj : db -> gmap K V) `{!Settable proj} (f : db -> T) : Prop :=
  indep : forall g s, f (upd proj g s) = f s.
#[export] Hint Extern 2 (Indep _ _) => (intros ? ?; reflexivity) : typeclass_instances.

Create HintDb frame.
#[global] Hint Constants Opaque : frame.

Section frames.
  Context {T : Type} (f : db -> T).

Lemma frames_run {A} (m : DB A) s a s' : m s = Ok (a, s') -> frames f m -> f s' = f s.
  Proof. intros H Hm. by apply (Hm s a s'). Qed.
Lemma frames_ret {A} (a : A) : frames f (mret a : DB A).
  Proof. intros ??? H. minv. done. Qed.
Lemma frames_throw {A} (e : exn) : frames f (mthrow e : DB A).
  Proof. intros ??? H. minv. Qed.
Lemma frames_bind {A B} (m : DB A) (k : A -> DB B) :
    frames f m -> (forall a, frames f (k a)) -> frames f (mbind k m).
  Proof.
    intros Hm Hk s b s' H. apply bind_Ok in H as (a & s1 & H1 & H2).
    rewrite (Hk a s1 b s' H2). by apply (Hm s a s1).
  Qed.
Lemma frames_lift {A} (r : res A) : frames f (lift r : DB A).
  Proof. intros ??? H. minv. done. Qed.
Lemma frames_gets {A} (g : db -> A) : frames f (gets g).
  Proof. intros ??? H. minv. done. Qed.
Lemma frames_sassert b e : frames f (sophiatx_assert b e : DB unit).
  Proof. intros ??? H. minv. done. Qed.
Lemma frames_assert b : frames f (fc_assert b : DB unit).
  Proof. apply frames_sassert. Qed.
Lemma frames_whenM b (m : DB unit) : frames f m -> frames f (whenM b m).
  Proof. intros Hm. unfold whenM. destruct b; [done|apply frames_ret]. Qed.
Lemma frames_forM {A} (l : list A) (k : A -> DB unit) :
    (forall a, frames f (k a)) -> frames f (forM l k).
  Proof.
    intros Hf. induction l as [|x l IH]; [apply frames_ret|]. cbn [forM].
    apply frames_bind; [apply Hf|]. intros _. exact IH.
  Qed.
Lemma frames_foldM {A B} (k : B -> A -> DB B) (l : list A) b :
    (forall b a, frames f (k b a)) -> frames f (foldM k b l).
  Proof.
    intros Hf. revert b. induction l as [|x l IH]; intros b; [apply frames_ret|]. cbn [foldM].
    apply frames_bind; [apply Hf|]. intros b'. apply IH.
  Qed.
Lemma frames_puts (g : db -> db) : (forall s, f (g s) = f s) -> frames f (puts g).
  Proof. intros Hf s a s' H. minv. apply Hf. Qed.
Lemma frames_modify_gpo g : (forall s v, f (s <| dgpo := v |>) = f s) -> frames f (modify_gpo g).
  Proof. intros Hf s u s' H. dbinv. apply Hf. Qed.
Lemma frames_modify_econ g : (forall s v, f (s <| econ := v |>) = f s) -> frames f (modify_econ g).
  Proof. intros Hf s u s' H. dbinv. apply Hf. Qed.
Lemma frames_modify_hpo g : (forall s v, f (s <| hpo := v |>) = f s) -> frames f (modify_hpo g).
  Proof. intros Hf s u s' H. unfold modify_hpo in H. destruct (g _); [|done]. injection H as <- <-. apply Hf. Qed.
Lemma frames_modify_wso g : (forall s v, f (s <| wso := v |>) = f s) -> frames f (modify_wso g).
  Proof. intros Hf s u s' H. unfold modify_wso in H. destruct (g _); [|done]. injection H as <- <-. apply Hf. Qed.

  Context {K V : Type} `{Countable K} (proj : db -> gmap K V) `{!Settable proj}.
Lemma frames_get k : frames f (get proj k).
  Proof. intros s a s' Hr. dbinv. done. Qed.
Lemma frames_find k : frames f (find proj k).
  Proof. apply frames_gets. Qed.
Lemma frames_modify k g : Indep proj f -> frames f (modify proj k g).
  Proof. intros Hp s a s' Hr. dbinv. apply Hp. Qed.
Lemma frames_insert_new k v : Indep proj f -> frames f (insert_new proj k v).
  Proof. intros Hp s a s' Hr. dbinv. apply Hp. Qed.
Lemma frames_remove k : Indep proj f -> frames f (remove proj k).
  Proof. intros Hp s a s' Hr. dbinv. apply Hp. Qed.
End frames.

Ltac frame_step :=
  match goal with
  | |- frames _ (mbind _ _) => apply frames_bind; [|intros ?]
  | |- frames _ (mret _) => apply frames_ret
  | |- frames _ (mthrow _) => apply frames_throw
  | |- frames _ (lift _) => apply frames_lift
  | |- frames _ (gets _) => apply frames_gets
  | |- frames _ (fc_assert _) => apply frames_assert
  | |- frames _ (sophiatx_assert _ _) => apply frames_sassert
  | |- frames _ (whenM _ _) => apply frames_whenM
  | |- frames _ (forM _ _) => apply frames_forM; intros ?
  | |- frames _ (foldM _ _ _) => apply frames_foldM; intros ? ?
  | |- frames _ (get _ _) => apply frames_get
  | |- frames _ (find _ _) => apply frames_find
  | |- frames _ (modify _ _ _) => apply frames_modify; solve [apply _]
  | |- frames _ (insert_new _ _ _) => apply frames_insert_new; solve [apply _]
  | |- frames _ (remove _ _) => apply frames_remove; solve [apply _]
  | |- frames _ (puts _) => apply frames_puts; intros ?; reflexivity
  | |- frames _ (modify_gpo _) => apply frames_modify_gpo; first [reflexivity | assumption]
  | |- frames _ (modify_econ _) => apply frames_modify_econ; first [reflexivity | assumption]
  | |- frames _ (modify_hpo _) => apply frames_modify_hpo; first [reflexivity | assumption]
  | |- frames _ (modify_wso _) => apply frames_modify_wso; first [reflexivity | assumption]
  | |- frames _ (match ?x with _ => _ end) => destruct x
  | |- frames _ _ => solve [eauto 2 with frame nocore typeclass_instances]
  end.
Ltac frame := repeat frame_step.

(** The getters change nothing. *)
Section getters.
  Context {T : Type} (f : db -> T).
Lemma frames_head_block_time : frames f head_block_time.
  Proof. apply frames_gets. Qed.
Lemma frames_head_block_num : frames f head_block_num.
  Proof. apply frames_gets. Qed.
Lemma frames_is_private_net : frames f is_private_net.
  Proof. apply frames_gets. Qed.
Lemma frames_is_producing : frames f is_producing.
  Proof. apply frames_gets. Qed.
Lemma frames_has_hardfork h : frames f (has_hardfork h).
  Proof. apply frames_gets. Qed.
Lemma frames_get_account n : frames f (get_account n).
  Proof. apply frames_get. Qed.
Lemma frames_find_account n : frames f (find_account n).
  Proof. apply frames_gets. Qed.
Lemma frames_get_witness n : frames f (get_witness n).
  Proof. apply frames_get. Qed.
Lemma frames_find_witness n : frames f (find_witness n).
  Proof. apply frames_gets. Qed.
Lemma frames_get_escrow n i : frames f (get_escrow n i).
  Proof. apply frames_get. Qed.
Lemma frames_get_account_auth n : frames f (get_account_auth n).
  Proof. apply frames_get. Qed.
Lemma frames_get_application_by_id i : frames f (get_application_by_id i).
  Proof. apply frames_get. Qed.
Lemma frames_get_application_buying b i : frames f (get_application_buying b i).
  Proof. apply frames_get. Qed.
Lemma frames_find_account_by_id i : frames f (find_account_by_id i).
  Proof. apply frames_gets. Qed.
Lemma frames_get_application n : frames f (get_application n).
  Proof. intros s a s' H. unfold get_application in H. destruct (application_named n s); by minv. Qed.
Lemma frames_get_sponsor n : frames f (get_sponsor n).
  Proof. unfold get_sponsor. frame. Qed.
Lemma frames_get_feed_history n : frames f (get_feed_history n).
  Proof. unfold get_feed_history. frame. Qed.
Lemma frames_to_sophiatx_db `{sophiatx_config} a : frames f (to_sophiatx_db a).
  Proof. unfold to_sophiatx_db. apply frames_bind; [apply frames_get_feed_history|]. intros. frame. Qed.
Lemma frames_fresh_id t : Indep next_ids f -> frames f (fresh_id t).
  Proof. intros Hi. unfold fresh_id. frame. apply frames_puts. intros. apply Hi. Qed.
Lemma frames_push_virtual_operation op : (forall g s, f (upd virtual_ops g s) = f s) ->
    frames f (push_virtual_operation op).
  Proof. intros Hi. unfold push_virtual_operation. frame. apply frames_puts. intros. apply Hi. Qed.
End getters.
#[export] Hint Resolve frames_head_block_time frames_head_block_num frames_is_private_net
  frames_is_producing frames_has_hardfork frames_get_account frames_find_account
  frames_get_witness frames_find_witness frames_get_escrow frames_get_account_auth
  frames_get_application_by_id frames_get_application_buying frames_find_account_by_id
  frames_get_application frames_get_sponsor frames_get_feed_history frames_to_sophiatx_db : frame.
#[export] Hint Extern 1 (frames _ (fresh_id _)) =>
  (apply frames_fresh_id; solve [apply _]) : frame.
#[export] Hint Extern 1 (frames _ (push_virtual_operation _)) =>
  (apply frames_push_virtual_operation; intros ? ?; reflexivity) : frame.

(** [frame_of f H F]: from [H : m s = Ok (a, s')], that [f s' = f s]. *)
Ltac frame_of f H F :=
  lazymatch type of H with
  | ?m ?s = Ok (?a, ?s') => assert (F : f s' = f s) by (refine (frames_run f m s a s' H _); frame)
  end.
