(* ===== verification/Economics.v ===== *)
(** * Economics: the reward pools and the supply record ([chain/economics.cpp]).

    What is in a pool does not exist yet: it is no part of the current supply.
    Withdrawing from a pool creates coins and [add_fee] takes paid fees back. *)
From S2P Require Import Prelude Safe Names Asset Config Objects.
Local Open Scope Z_scope.
Local Open Scope list_scope.

(** [uint128::to_uint64] asserts that the value fits. *)
Definition to_uint64 (x : Z) : res Z := fc_assert (x <? 2^64) ;; Ok x.
(** A [uint64_t] assigned to a [share_type]. *)
Definition share_of_u64 (x : Z) : Z := i64 x.
(** Division of native unsigned integers. *)
Definition native_div (a b : Z) : res Z := if b =? 0 then Throw crash else Ok (a / b).
(** Division of [fc::uint128]. *)
Definition u128_div (a b : Z) : res Z := if b =? 0 then Throw divide_by_zero_exception else Ok (a / b).

Section economics.
  Context {cfg : sophiatx_config}.
  Implicit Types e : economic_model_object.

Definition percent_of (x pct : Z) : res Z := p ← x *! pct; p /! SOPHIATX_100_PERCENT.

Definition init_economics (init_supply total_supply : Z) e : res economic_model_object :=
  coinbase ← total_supply -! init_supply;
  mining ← percent_of coinbase SOPHIATX_MINING_POOL_PERCENTAGE;
  interest ← percent_of coinbase SOPHIATX_INTEREST_POOL_PERCENTAGE;
  promotion ← percent_of coinbase SOPHIATX_PROMOTION_POOL_PERCENTAGE;
  block_reward ← mining /! SOPHIATX_COINBASE_BLOCKS;
  Ok (e <| mining_pool_from_coinbase := mining |>
        <| interest_pool_from_coinbase := interest |>
        <| promotion_pool := promotion |>
        <| initial_promotion_pool := promotion |>
        <| econ_init_supply := init_supply |>
        <| econ_total_supply := total_supply |>
        <| coinbase_block_reward := block_reward |>).

Definition get_mining_reward (block_number : Z) e : res Z :=
  let blocks_to_coinbase_end := u32 (SOPHIATX_COINBASE_BLOCKS - block_number) in
  reward ← mining_pool_from_coinbase e /! blocks_to_coinbase_end;
  fees ← mining_pool_from_fees e /! u32 (SOPHIATX_BLOCKS_PER_DAY * 7);
  reward +! fees.

Definition withdraw_mining_reward (block_number nominator denominator : Z) e
    : res (economic_model_object * Z) :=
  if block_number <=? SOPHIATX_INTEREST_DELAY then Ok (e, 0)
  else
    c1 ← coinbase_block_reward e *! nominator;
    c2 ← c1 /! denominator;
    let reward_from_coinbase := Z.min c2 (mining_pool_from_coinbase e) in
    f0 ← mining_pool_from_fees e /! u32 (SOPHIATX_BLOCKS_PER_DAY * 7);
    f1 ← f0 *! nominator;
    f2 ← f1 /! denominator;
    let reward_from_fees := Z.min f2 (mining_pool_from_fees e) in
    mc ← mining_pool_from_coinbase e -! reward_from_coinbase;
    mf ← mining_pool_from_fees e -! reward_from_fees;
    r ← reward_from_coinbase +! reward_from_fees;
    Ok (e <| mining_pool_from_coinbase := mc |> <| mining_pool_from_fees := mf |>, r).

(** [historic_supply] is a ring of the supplies of the last blocks. *)
Definition record_block (generated_block current_supply : Z) e : res economic_model_object :=
  let slot := generated_block mod SOPHIATX_INTEREST_BLOCKS in
  acc ← (if generated_block >=? SOPHIATX_INTEREST_BLOCKS then
           accumulated_supply e -! default 0 (historic_supply e !! slot)
         else Ok (accumulated_supply e));
  acc' ← acc +! current_supply;
  Ok (e <| historic_supply ::= <[slot := current_supply]> |> <| accumulated_supply := acc' |>).

Definition SOPHIATX_TOTAL_INTERESTS : Z :=
  u64 (u64 (SOPHIATX_TOTAL_SUPPLY - SOPHIATX_INIT_SUPPLY) * SOPHIATX_INTEREST_POOL_PERCENTAGE)
  / SOPHIATX_100_PERCENT.

Definition withdraw_interests (holding period : Z) e : res (economic_model_object * Z) :=
  fc_assert ((holding >=? 0) && (interest_pool_from_coinbase e >=? 0)
             && (interest_pool_from_fees e >=? 0) && (accumulated_supply e >=? holding)) ;;
  if holding =? 0 then Ok (e, 0)
  else
    n ← native_div (u64 (SOPHIATX_TOTAL_INTERESTS * period)) SOPHIATX_COINBASE_BLOCKS;
    let total_coinbase_for_period :=
      share_of_u64 (Z.min (u64 (interest_pool_from_coinbase e)) n) in
    c ← u128_div (u128 (u128 holding * u128 total_coinbase_for_period)) (u128 (accumulated_supply e));
    coinbase_reward ← to_uint64 c;
    (* signed 64-bit product: overflow is undefined *)
    let product := interest_pool_from_fees e * SOPHIATX_INTEREST_BLOCKS in
    (if product >? INT64_MAX then Throw crash else Ok tt) ;;
    q ← native_div (u64 product) SOPHIATX_INTEREST_FEES_TIME;
    f ← u128_div (u128 (u128 q * u128 holding)) (u128 (accumulated_supply e));
    fees_reward ← to_uint64 f;
    pf ← interest_pool_from_fees e -! share_of_u64 fees_reward;
    pc ← interest_pool_from_coinbase e -! share_of_u64 coinbase_reward;
    r ← share_of_u64 fees_reward +! share_of_u64 coinbase_reward;
    Ok (e <| interest_pool_from_fees := pf |> <| interest_pool_from_coinbase := pc |>, r).

Definition add_fee (fee : Z) e : res economic_model_object :=
  to_burn ← percent_of fee SOPHIATX_BURN_FEE_PERCENTAGE;
  fee ← fee -! to_burn;
  to_mining_pool ← percent_of fee SOPHIATX_MINING_POOL_PERCENTAGE;
  to_promotion_pool ← percent_of fee SOPHIATX_PROMOTION_POOL_PERCENTAGE;
  mf ← mining_pool_from_fees e +! to_mining_pool;
  pp ← promotion_pool e +! to_promotion_pool;
  bp ← burn_pool e +! to_burn;
  t ← fee -! to_mining_pool;
  to_interests ← t -! to_promotion_pool;
  ip ← interest_pool_from_fees e +! to_interests;
  Ok (e <| mining_pool_from_fees := mf |> <| promotion_pool := pp |> <| burn_pool := bp |>
        <| interest_pool_from_fees := ip |>).

(** The part of the promotion pool still locked at a block. *)
Definition locked_promotion_pool (block_number : Z) e : res Z :=
  let blocks_to_coinbase_end := u128 (SOPHIATX_COINBASE_BLOCKS - block_number) in
  per_block ← u128_div (u128 (u128 (initial_promotion_pool e) * 262144)) SOPHIATX_COINBASE_BLOCKS;
  l ← to_uint64 (u128 (per_block * blocks_to_coinbase_end) / 262144);
  Ok (share_of_u64 l).
Definition get_available_promotion_pool (block_number : Z) e : res Z :=
  locked_pool ← locked_promotion_pool block_number e;
  fc_assert (promotion_pool e >=? locked_pool) ;;
  promotion_pool e -! locked_pool.

Definition withdraw_from_promotion_pool (amount block_number : Z) e
    : res (economic_model_object * Z) :=
  free_pool ← get_available_promotion_pool block_number e;
  let to_withdraw := Z.min free_pool amount in
  pp ← promotion_pool e -! to_withdraw;
  fc_assert (to_withdraw >? 0) ;;
  Ok (e <| promotion_pool := pp |>, to_withdraw).
End economics.

(** ** Pools *)
Definition pools_total (e : economic_model_object) : Z :=
  interest_pool_from_fees e + interest_pool_from_coinbase e + mining_pool_from_fees e
  + mining_pool_from_coinbase e + promotion_pool e + burn_pool e.

Definition pools_nonneg (e : economic_model_object) : Prop :=
  0 <= interest_pool_from_fees e /\ 0 <= interest_pool_from_coinbase e /\
  0 <= mining_pool_from_fees e /\ 0 <= mining_pool_from_coinbase e /\
  0 <= promotion_pool e /\ 0 <= burn_pool e.

(** What a withdrawal moves out of the pools and a fee moves in. *)
Lemma add_fee_total `{sophiatx_config} fee e e' :
  add_fee fee e = Ok e' -> pools_total e' = pools_total e + fee.
Proof. unfold add_fee, percent_of. intros. minv. safe_vals. subst. unfold pools_total. simpl. lia. Qed.

Lemma withdraw_mining_reward_total `{sophiatx_config} b n d e e' r :
  withdraw_mining_reward b n d e = Ok (e', r) -> pools_total e' = pools_total e - r.
Proof.
  unfold withdraw_mining_reward. intros. destruct (_ <=? _); minv; safe_vals; subst;
    unfold pools_total; simpl; lia.
Qed.

Lemma withdraw_interests_total `{sophiatx_config} h p e e' r :
  withdraw_interests h p e = Ok (e', r) -> pools_total e' = pools_total e - r.
Proof.
  unfold withdraw_interests. intros. minv. destruct (_ =? _); minv; safe_vals; subst;
    unfold pools_total; simpl; lia.
Qed.

Lemma withdraw_promotion_total `{sophiatx_config} a b e e' r :
  withdraw_from_promotion_pool a b e = Ok (e', r) ->
  pools_total e' = pools_total e - r /\ 0 < r.
Proof.
  unfold withdraw_from_promotion_pool. intros. minv. safe_vals. bool_simpl. subst.
  unfold pools_total. simpl. lia.
Qed.

Lemma record_block_total `{sophiatx_config} b s e e' :
  record_block b s e = Ok e' -> pools_total e' = pools_total e.
Proof. unfold record_block. intros. minv. destruct (_ >=? _); minv; safe_vals; subst; done. Qed.

(** ** Bounds: a reward is not negative and never exceeds its pool. *)
Section bounds.
  Context `{cfg : sophiatx_config}.

Lemma i64_small x : 0 <= x <= INT64_MAX -> i64 x = x.
Proof. unfold INT64_MAX, i64. intros. rewrite Z.mod_small; lia. Qed.
Lemma u64_small x : 0 <= x <= INT64_MAX -> u64 x = x.
Proof. unfold INT64_MAX. intros. apply (u_small 64). lia. Qed.
Lemma u128_small x : 0 <= x < 2^128 -> u128 x = x.
Proof. apply (u_small 128). Qed.

(** A fraction [a/b <= 1] of [x] in 128-bit arithmetic. *)
Lemma share_bound a b x c : 0 <= a <= b -> 0 < b <= INT64_MAX -> 0 <= x <= INT64_MAX ->
  u128_div (u128 (u128 a * u128 x)) (u128 b) = Ok c -> c = a * x / b /\ 0 <= c <= x.
Proof.
  unfold INT64_MAX. intros Ha Hb Hx H. assert (0 <= a * x <= b * x) by nia.
  assert (b * x < 2^128) by nia.
  rewrite (u128_small a), (u128_small x), u128_small, (u128_small b) in H by lia.
  unfold u128_div in H. destruct (b =? 0); minv. split; [done|]. split; [apply Z.div_pos; lia|].
  apply Z.div_le_upper_bound; lia.
Qed.

Lemma withdraw_interests_bounds h p e e' r : config_ok ->
  accumulated_supply e <= INT64_MAX -> interest_pool_from_coinbase e <= INT64_MAX ->
  withdraw_interests h p e = Ok (e', r) ->
  0 <= r /\ 0 <= interest_pool_from_fees e' <= interest_pool_from_fees e /\
  0 <= interest_pool_from_coinbase e' <= interest_pool_from_coinbase e /\
  accumulated_supply e' = accumulated_supply e.
Proof.
  intros (_ & Hcb & Hft & _) Hacc Hpc H. unfold withdraw_interests in H.
  apply rbind_Ok in H as ([] & Ha & H). apply rassert_Ok in Ha as [Ha _]. bool_simpl.
  destruct (h =? 0) eqn:E0; bool_simpl; [injection H as <- <-; lia|].
  apply rbind_Ok in H as (n & Hn & H). cbv zeta in H. unfold native_div in Hn.
  destruct (_ =? 0); [discriminate Hn|]. injection Hn as <-.
  set (n := u64 _ / _) in H.
  assert (0 <= n) by (apply Z.div_pos; [apply u64_range|done]).
  assert (Hs : share_of_u64 (Z.min (u64 (interest_pool_from_coinbase e)) n)
    = Z.min (interest_pool_from_coinbase e) n).
  { rewrite u64_small by lia. unfold share_of_u64. apply i64_small. lia. }
  rewrite Hs in H. apply rbind_Ok in H as (c & Hc & H).
  apply share_bound in Hc as [_ Hc]; [|lia..].
  apply rbind_Ok in H as (cr & Hcr & H). unfold to_uint64 in Hcr.
  apply rbind_Ok in Hcr as ([] & _ & [= <-]).
  apply rbind_Ok in H as ([] & Hp & H). destruct (_ >? INT64_MAX) eqn:Ep; [discriminate Hp|].
  bool_simpl. unfold SOPHIATX_INTEREST_BLOCKS in *.
  apply rbind_Ok in H as (q & Hq & H). unfold native_div in Hq.
  destruct (_ =? 0); [discriminate Hq|]. injection Hq as <-.
  rewrite u64_small in H by lia. set (q := _ * 2400 / _) in H.
  assert (0 <= q <= interest_pool_from_fees e).
  { split; [apply Z.div_pos; lia|]. apply Z.div_le_upper_bound; [lia|]. nia. }
  apply rbind_Ok in H as (f & Hf & H). rewrite (Z.mul_comm (u128 q)) in Hf.
  unfold INT64_MAX in *. apply share_bound in Hf as [_ Hf]; unfold INT64_MAX; [|lia..].
  apply rbind_Ok in H as (fr & Hfr & H). unfold to_uint64 in Hfr.
  apply rbind_Ok in Hfr as ([] & _ & [= <-]).
  unfold share_of_u64 in *.
  rewrite (i64_small f), (i64_small c) in H by (unfold INT64_MAX; lia).
  minv. safe_vals. subst. simpl. lia.
Qed.
End bounds.
