(* ===== verification/Votes.v ===== *)
(** * Votes: witness votes and vote proxies ([chain/database.cpp]: the
    [adjust_*_vote*] family, [clear_witness_votes], [recalculate_all_votes],
    [retally_witness_votes]).

    The weight of an account (liquid and vested coins) goes to the witnesses it
    votes for, or up its chain of proxies, at most four accounts long. *)
From S2P Require Import Prelude Safe Names Asset Version Config Authority Operations Objects State.
From S2P Require Import Frame Economics.
Local Open Scope Z_scope.
Local Open Scope list_scope.

(** The new virtual schedule of a witness whose votes change by [delta].
    [votes + 1] is a native 64-bit sum; a [uint128] is a number modulo 2^128. *)
Definition adjust_vote_fields (cvt delta : Z) (w : witness_object) : res witness_object :=
  let delta_pos := u128 (u128 (votes w) * u128 (cvt - virtual_last_update w)) in
  let position := u128 (virtual_position w + delta_pos) in
  votes' ← votes w +! delta;
  (if votes' =? INT64_MAX then Throw crash else Ok tt) ;;
  lap ← u128_div (u128 (SOPHIATX_VIRTUAL_SCHEDULE_LAP_LENGTH2 - position)) (u128 (votes' + 1));
  let scheduled := u128 (cvt + lap) in
  Ok (w <| virtual_position := position |>
        <| virtual_last_update := cvt |>
        <| votes := votes' |>
        <| virtual_scheduled_time := if scheduled <? cvt then UINT128_MAX else scheduled |>).

(** [adjust_witness_vote( witness, delta )] *)
Definition adjust_witness_vote (witness : Z) (delta : Z) : DB unit :=
  cvt ← gets (fun s => current_virtual_time (wso s));
  modify witnesses witness (adjust_vote_fields cvt delta).

(** The votes cast by an account, in the order of [by_account_witness]. *)
Definition vote_key (v : witness_vote_object) : list Z := [data (wv_voter v); data (wv_witness v)].
Definition votes_of (account : Z) (s : db) : list (Z * Z * witness_vote_object) :=
  index_by vote_key (filter (fun kv => kv.1.1 = account) (witness_votes s)).

(** [adjust_witness_votes( account, delta )] *)
Definition adjust_witness_votes (account : Z) (delta : Z) : DB unit :=
  vs ← gets (votes_of account);
  forM vs (fun kv => adjust_witness_vote (data (wv_witness (snd kv))) delta).

Definition is_proxied (a : account_object) : bool :=
  negb (name_eqb (proxy a) SOPHIATX_PROXY_TO_SELF_ACCOUNT).

(** [proxied_vsf_votes[i] += d]; the array has four elements. *)
Definition add_proxied (i : nat) (d : Z) (a : account_object) : res account_object :=
  match proxied_vsf_votes a !! i with
  | Some v => v' ← v +! d; Ok (a <| proxied_vsf_votes ::= <[i := v']> |>)
  | None => Throw crash
  end.

(** [adjust_proxied_witness_votes( a, delta, depth )] with one weight;
    [left] is the number of proxies that may still be followed, so
    [depth = 4 - left]. *)
Fixpoint adjust_proxied_from (left : nat) (a : Z) (delta : Z) : DB unit :=
  acc ← get accounts a;
  if is_proxied acc then
    match left with
    | O => mret tt
    | S left' =>
        let p := data (proxy acc) in
        modify accounts p (add_proxied (4 - left) delta) ;;
        adjust_proxied_from left' p delta
    end
  else adjust_witness_votes a delta.
Definition adjust_proxied_witness_votes (a : Z) (delta : Z) : DB unit := adjust_proxied_from 4 a delta.

(** [for( int i = n - 1; i >= 0; --i ) proxied_vsf_votes[i+depth] += delta[i];] *)
Fixpoint add_proxied_down (n depth : nat) (delta : list Z) (a : account_object) : res account_object :=
  match n with
  | O => Ok a
  | S n' => a' ← add_proxied (n' + depth) (nth n' delta 0) a; add_proxied_down n' depth delta a'
  end.
Fixpoint sum_down (n : nat) (delta : list Z) (acc : Z) : res Z :=
  match n with
  | O => Ok acc
  | S n' => acc' ← acc +! nth n' delta 0; sum_down n' delta acc'
  end.

(** The same with the weights of all levels below: [delta] has five elements. *)
Fixpoint adjust_proxied_array_from (left : nat) (a : Z) (delta : list Z) : DB unit :=
  acc ← get accounts a;
  if is_proxied acc then
    match left with
    | O => mret tt
    | S left' =>
        let p := data (proxy acc) in
        modify accounts p (add_proxied_down left (4 - left) delta) ;;
        adjust_proxied_array_from left' p delta
    end
  else
    total_delta ← ⌈ sum_down (S left) delta 0 ⌉;
    adjust_witness_votes a total_delta.
Definition adjust_proxied_witness_votes_array (a : Z) (delta : list Z) : DB unit :=
  adjust_proxied_array_from 4 a delta.

(** [clear_witness_votes( a )] *)
Definition clear_witness_votes (a : Z) : DB unit :=
  vs ← gets (votes_of a);
  forM vs (fun kv => remove witness_votes (fst kv)) ;;
  modify accounts a (fun acc => Ok (acc <| witnesses_voted_for := 0 |>)).

(** Objects in the order of their ids. *)
Definition witnesses_by_id (s : db) : list (Z * witness_object) :=
  index_by (fun w => [wit_id w]) (witnesses s).
Definition accounts_by_name (s : db) : list (Z * account_object) :=
  index_by (fun a => [data (acc_name a)]) (accounts s).
Definition accounts_by_id (s : db) : list (Z * account_object) :=
  index_by (fun a => [acc_id a]) (accounts s).

(** Hardfork 1.1: the votes of every witness are counted again. *)
Definition recalculate_all_votes : DB unit :=
  ws ← gets witnesses_by_id;
  forM ws (fun kw => modify witnesses (fst kw) (fun w => Ok (w <| votes := 0 |>))) ;;
  accs ← gets accounts_by_name;
  forM accs (fun ka =>
    acc ← get accounts (fst ka);
    tb ← ⌈ total_balance acc ⌉;
    adjust_proxied_witness_votes (fst ka) tb).

Definition retally_witness_votes : DB unit :=
  ws ← gets witnesses_by_id;
  forM ws (fun kw => modify witnesses (fst kw)
    (fun w => Ok (w <| votes := 0 |> <| virtual_position := 0 |>))) ;;
  accs ← gets accounts_by_id;
  forM accs (fun ka =>
    if is_proxied (snd ka) then mret tt
    else
      vs ← gets (votes_of (fst ka));
      forM vs (fun kv =>
        acc ← get accounts (fst ka);
        w ← ⌈ witness_vote_weight acc ⌉;
        adjust_witness_vote (data (wv_witness (snd kv))) w)).

(** ** What the vote bookkeeping leaves alone: every part of the state that
    does not depend on accounts and witnesses. *)
Section vote_frames.
  Context {T : Type} (f : db -> T) `{!Indep accounts f} `{!Indep witnesses f}.

Lemma frames_adjust_witness_vote w d : frames f (adjust_witness_vote w d).
  Proof. unfold adjust_witness_vote. frame. Qed.
Lemma frames_adjust_witness_votes a d : frames f (adjust_witness_votes a d).
  Proof. unfold adjust_witness_votes. frame. apply frames_adjust_witness_vote. Qed.
Lemma frames_adjust_proxied a d : frames f (adjust_proxied_witness_votes a d).
  Proof.
    unfold adjust_proxied_witness_votes. generalize 4%nat as left. intros left. revert a.
    induction left as [|left IH]; intros a; cbn [adjust_proxied_from]; frame;
      apply frames_adjust_witness_votes.
  Qed.
Lemma frames_adjust_proxied_array a d : frames f (adjust_proxied_witness_votes_array a d).
  Proof.
    unfold adjust_proxied_witness_votes_array. generalize 4%nat as left. intros left. revert a.
    induction left as [|left IH]; intros a; cbn [adjust_proxied_array_from]; frame;
      apply frames_adjust_witness_votes.
  Qed.
End vote_frames.
#[export] Hint Resolve frames_adjust_witness_vote frames_adjust_witness_votes frames_adjust_proxied
  frames_adjust_proxied_array : frame.

(** A view of the accounts that the proxied votes do not show *)
Section account_view.
  Context {B : Type} (view : account_object -> B).
Definition viewed (s : db) : gmap Z B := view <$> accounts s.

Lemma viewed_modify k g : (forall a a', g a = Ok a' -> view a' = view a) -> frames viewed (modify accounts k g).
Proof.
  intros Hg s u s' H. apply modify_Ok in H as (a & a' & Ha & Hg' & ->). unfold viewed. cbn [upd accounts db_eta].
  rewrite fmap_insert. apply insert_id. by rewrite lookup_fmap, Ha, (Hg _ _ Hg').
Qed.
Lemma viewed_adjust_proxied k d : (forall a f, view (a <| proxied_vsf_votes ::= f |>) = view a) ->
  frames viewed (adjust_proxied_witness_votes k d).
Proof.
  intros Hview. unfold adjust_proxied_witness_votes. generalize 4%nat as left. intros left. revert k.
  induction left as [|left IH]; intros k; cbn [adjust_proxied_from]; apply frames_bind; [frame|..|frame|];
    intros acc; (destruct (is_proxied acc); [|apply frames_adjust_witness_votes; apply _]); [frame|].
  apply frames_bind; [|intros _; apply IH]. apply viewed_modify. intros x x' Hx. unfold add_proxied in Hx.
  destruct (_ !! _); [|done]. apply rbind_Ok in Hx as (v & _ & [= <-]). apply Hview.
Qed.
End account_view.
