(* ===== verification/Money.v ===== *)
(** * Money: the coins of a state and the handlers that do not move them.

    [money_of] is what the supply checks of [validate_invariants] look at.
    [keeps m] says that [m] moves no coins; the [keeps] tactic proves it for a
    handler by following its syntax, using the [frame] hints for what it calls. *)
From S2P Require Import Prelude Safe Names Asset Version Config Authority Operations Objects State.
From S2P Require Import Frame Economics Votes.
Local Open Scope Z_scope.
Local Open Scope list_scope.

Definition acc_liquid (a : account_object) : Z := amount (balance a).
Definition acc_vested (a : account_object) : Z := amount (vesting_shares a).
Definition esc_held (e : escrow_object) : Z := amount (sophiatx_balance e) + amount (pending_fee e).

Record money := Money {
  m_liquid : Z;    (* balances of the accounts *)
  m_vested : Z;    (* vesting shares of the accounts *)
  m_escrow : Z;    (* balances and pending fees of the escrows *)
  m_supply : Z;    (* recorded current supply *)
  m_tvest : Z;     (* recorded total of vesting shares *)
  m_pools : Z }.   (* pools of the economic model *)

Definition money_of (s : db) : money := {|
  m_liquid := map_sum acc_liquid (accounts s);
  m_vested := map_sum acc_vested (accounts s);
  m_escrow := map_sum esc_held (escrows s);
  m_supply := amount (current_supply (dgpo s));
  m_tvest := amount (total_vesting_shares (dgpo s));
  m_pools := pools_total (econ s) |}.
Arguments money_of : simpl never.

(** The supply invariant: the recorded totals are the sums, and what is not in
    circulation is in a pool. *)
Definition supply_ok `{cfg : sophiatx_config} (s : db) : Prop :=
  m_supply (money_of s) = m_liquid (money_of s) + m_vested (money_of s) + m_escrow (money_of s) /\
  m_tvest (money_of s) = m_vested (money_of s) /\
  m_supply (money_of s) + m_pools (money_of s) = SOPHIATX_TOTAL_SUPPLY.

(** How far a state is from balancing; [supply_ok] says the three numbers are
    0, 0 and the total supply. *)
Definition defects (m : money) : Z * Z * Z :=
  (m_supply m - (m_liquid m + m_vested m + m_escrow m), m_tvest m - m_vested m,
   m_supply m + m_pools m).
Definition imbalance (s : db) : Z * Z * Z := defects (money_of s).

Lemma imbalance_eq s s' : defects (money_of s') = defects (money_of s) -> imbalance s' = imbalance s.
Proof. done. Qed.

Lemma supply_ok_imbalance `{cfg : sophiatx_config} s :
  supply_ok s <-> imbalance s = (0, 0, SOPHIATX_TOTAL_SUPPLY).
Proof.
  unfold supply_ok, imbalance, defects. split.
  - intros (H1 & H2 & H3). f_equal; [f_equal|]; lia.
  - intros H. injection H as H1 H2 H3. simpl in *. lia.
Qed.

(** [conserves m]: the handler [m] creates and destroys coins only with the
    matching change of the recorded supply and the pools. *)
Abbreviation conserves := (frames imbalance).

(** [keeps m]: the handler [m] moves no coins. *)
Abbreviation keeps := (frames money_of).

Lemma keeps_conserves {A} (m : DB A) : keeps m -> conserves m.
Proof. intros Hm s a s' H. unfold imbalance. by rewrite (Hm s a s' H). Qed.

Definition same_money (a a' : account_object) : Prop :=
  acc_liquid a' = acc_liquid a /\ acc_vested a' = acc_vested a.

#[export] Instance money_eta : Eta money := fun m =>
  Money (m_liquid m) (m_vested m) (m_escrow m) (m_supply m) (m_tvest m) (m_pools m).

(** The effect of changing one account or one escrow on the sums. *)
Lemma money_set_account k a a' s : accounts s !! k = Some a ->
  money_of (s <| accounts ::= <[k := a']> |>) =
  (money_of s) <| m_liquid ::= fun x => x - acc_liquid a + acc_liquid a' |>
               <| m_vested ::= fun x => x - acc_vested a + acc_vested a' |>.
Proof.
  intros Hk. unfold money_of. simpl.
  rewrite (map_sum_insert acc_liquid _ _ _ _ Hk), (map_sum_insert acc_vested _ _ _ _ Hk). done.
Qed.

Lemma money_new_account k a s : accounts s !! k = None ->
  money_of (s <| accounts ::= <[k := a]> |>) =
  (money_of s) <| m_liquid ::= fun x => x + acc_liquid a |>
               <| m_vested ::= fun x => x + acc_vested a |>.
Proof.
  intros Hk. unfold money_of. simpl.
  rewrite (map_sum_insert_new acc_liquid _ _ _ Hk), (map_sum_insert_new acc_vested _ _ _ Hk).
  f_equal; lia.
Qed.

Lemma money_set_escrow k e e' s : escrows s !! k = Some e ->
  money_of (s <| escrows ::= <[k := e']> |>) =
  (money_of s) <| m_escrow ::= fun x => x - esc_held e + esc_held e' |>.
Proof. intros Hk. unfold money_of. simpl. by rewrite (map_sum_insert esc_held _ _ _ _ Hk). Qed.

Lemma money_new_escrow k e s : escrows s !! k = None ->
  money_of (s <| escrows ::= <[k := e]> |>) = (money_of s) <| m_escrow ::= fun x => x + esc_held e |>.
Proof.
  intros Hk. unfold money_of. simpl. rewrite (map_sum_insert_new esc_held _ _ _ Hk). f_equal. lia.
Qed.

Lemma money_del_escrow k e s : escrows s !! k = Some e ->
  money_of (s <| escrows ::= delete k |>) = (money_of s) <| m_escrow ::= fun x => x - esc_held e |>.
Proof. intros Hk. unfold money_of. simpl. by rewrite (map_sum_delete esc_held _ _ _ Hk). Qed.

Lemma money_set_econ e d s : pools_total e = pools_total (econ s) + d ->
  money_of (s <| econ := e |>) = (money_of s) <| m_pools ::= fun x => x + d |>.
Proof. intros He. unfold money_of. simpl. by rewrite He. Qed.

Lemma money_set_gpo g d1 d2 s :
  amount (current_supply g) = amount (current_supply (dgpo s)) + d1 ->
  amount (total_vesting_shares g) = amount (total_vesting_shares (dgpo s)) + d2 ->
  money_of (s <| dgpo := g |>) =
  (money_of s) <| m_supply ::= fun x => x + d1 |> <| m_tvest ::= fun x => x + d2 |>.
Proof. intros H1 H2. unfold money_of. simpl. by rewrite H1, H2. Qed.

Lemma keeps_modify_account k f :
  (forall a a', f a = Ok a' -> same_money a a') -> keeps (modify accounts k f).
Proof.
  intros Hf s u s' H. dbinv. apply Hf in H0 as [E1 E2]. erewrite money_set_account by done.
  rewrite E1, E2. destruct (money_of s). simpl. f_equal; lia.
Qed.

Lemma keeps_modify_gpo f :
  (forall g g', f g = Ok g' -> amount (current_supply g') = amount (current_supply g) /\
     amount (total_vesting_shares g') = amount (total_vesting_shares g)) ->
  keeps (modify_gpo f).
Proof.
  intros Hf s u s' H. dbinv. apply Hf in H as [E1 E2]. unfold money_of. simpl. by rewrite E1, E2.
Qed.

Lemma keeps_modify_econ f :
  (forall e e', f e = Ok e' -> pools_total e' = pools_total e) -> keeps (modify_econ f).
Proof. intros Hf s u s' H. dbinv. apply Hf in H. unfold money_of. simpl. by rewrite H. Qed.

(** [keeps]: follow the syntax of a handler; [same_money] is left to prove for
    the changes of an account that are not plain assignments. *)
Ltac keeps_step :=
  match goal with
  | |- keeps (modify accounts _ _) => apply keeps_modify_account; intros ???; minv; try done
  | |- keeps (modify_gpo _) => apply keeps_modify_gpo; intros ???; minv; try done
  | |- keeps (mbind _ _) => apply frames_bind; [|intros ?]
  | |- keeps (whenM _ _) => apply frames_whenM
  | |- keeps (forM _ _) => apply frames_forM; intros ?
  | |- keeps (foldM _ _ _) => apply frames_foldM; intros ? ?
  | |- keeps (match ?x with _ => _ end) => destruct x
  | |- keeps _ => frame_step
  end.
Ltac keeps := repeat keeps_step.

(** ** The vote bookkeeping moves no coins. *)
Lemma keeps_adjust_witness_votes a d : keeps (adjust_witness_votes a d).
Proof. unfold adjust_witness_votes. keeps. Qed.
#[export] Hint Resolve keeps_adjust_witness_votes : frame.

Lemma add_proxied_money i d a a' : add_proxied i d a = Ok a' -> same_money a a'.
Proof. unfold add_proxied. case_match; intros; minv. done. Qed.

Lemma add_proxied_down_money n depth d a a' : add_proxied_down n depth d a = Ok a' -> same_money a a'.
Proof.
  revert a. induction n as [|n IH]; intros a Ha; cbn in Ha; minv; [done|].
  apply add_proxied_money in H as [E1 E2]. apply IH in H0 as [F1 F2]. split; congruence.
Qed.

Lemma keeps_adjust_proxied_from left a d : keeps (adjust_proxied_from left a d).
Proof.
  revert a. induction left as [|left IH]; intros a; cbn [adjust_proxied_from]; keeps.
  by apply add_proxied_money in H.
Qed.
Lemma keeps_adjust_proxied a d : keeps (adjust_proxied_witness_votes a d).
Proof. apply keeps_adjust_proxied_from. Qed.

Lemma keeps_adjust_proxied_array a d : keeps (adjust_proxied_witness_votes_array a d).
Proof.
  unfold adjust_proxied_witness_votes_array. generalize 4%nat as left. intros left. revert a.
  induction left as [|left IH]; intros a; cbn [adjust_proxied_array_from]; keeps.
  by apply add_proxied_down_money in H.
Qed.

Lemma keeps_clear_witness_votes a : keeps (clear_witness_votes a).
Proof. unfold clear_witness_votes. keeps. Qed.
#[export] Hint Resolve keeps_adjust_proxied keeps_adjust_proxied_array keeps_clear_witness_votes : frame.

Lemma keeps_recalculate_all_votes : keeps recalculate_all_votes.
Proof. unfold recalculate_all_votes. keeps. Qed.
Lemma keeps_retally_witness_votes : keeps retally_witness_votes.
Proof. unfold retally_witness_votes. keeps. Qed.
#[export] Hint Resolve keeps_recalculate_all_votes keeps_retally_witness_votes : frame.

(** Turn every call that moves no coins into the equation it gives, and solve a
    goal about the coins by rewriting with the equations of the other calls. *)
Ltac use_keeps := repeat match goal with
  | H : ?m ?s = Ok (_, ?s') |- _ =>
      let K := fresh "K" in assert (K : keeps m) by (solve [keeps]); apply K in H; clear K
  end.
Ltac keeps_of H F :=
  lazymatch type of H with
  | ?m ?s = Ok (?a, ?s') =>
      assert (F : money_of s' = money_of s) by (refine (frames_run money_of m s a s' H _); keeps)
  end.
Ltac money_chain := repeat match goal with
  | H : money_of ?s' = _ |- context [money_of ?s'] => rewrite H
  end.
Ltac money_solve :=
  use_keeps; money_chain;
  match goal with |- context [money_of ?s] => destruct (money_of s) end;
  simpl; safe_vals; subst; simpl in *; f_equal; lia.
Ltac defects_lia := unfold defects, esc_held; simpl; repeat (apply pair_eq; split); lia.
