(* ===== verification/Balance.v ===== *)
(** * Balance: moving coins and paying fees ([chain/database.cpp]).

    Every change of a liquid balance goes through [modify_balance], which also
    keeps the interest-bearing holding and the witness votes of the account up
    to date. *)
From S2P Require Import Prelude Safe Names Asset Version Config Authority Operations Objects State.
From S2P Require Import Frame Economics Votes Money.
Local Open Scope Z_scope.
Local Open Scope list_scope.

Section balance.
  Context {cfg : sophiatx_config}.

(** [modify_balance( account, delta, check_balance )] *)
Definition modify_balance (a : Z) (delta : asset) (check_balance : bool) : DB unit :=
  fc_assert (symbol delta =? SOPHIATX_SYMBOL) ;;
  n ← head_block_num;
  modify accounts a (fun acnt =>
    b ← amount (balance acnt) +! amount delta;
    r ← update_considered_holding (amount delta) n (acnt <| balance ::= fun x => x <| amount := b |> |>);
    whenM check_balance (fc_assert (amount (balance (fst r)) >=? 0)) ;;
    Ok (fst r)) ;;
  adjust_proxied_witness_votes a (amount delta).

Definition adjust_balance (a : Z) (delta : asset) : DB unit := modify_balance a delta true.
(** The overload on account names. *)
Definition adjust_balance_name (name : account_name_type) (delta : asset) : DB unit :=
  _ ← get_account name; modify_balance (data name) delta true.

Definition create_vesting (a : Z) (delta : asset) : DB unit :=
  fc_assert (symbol delta =? VESTS_SYMBOL) ;;
  fc_assert (amount delta >=? 0) ;;
  n ← head_block_num;
  modify accounts a (fun acnt =>
    v ← amount (vesting_shares acnt) +! amount delta;
    r ← update_considered_holding (amount delta) n
          (acnt <| vesting_shares ::= fun x => x <| amount := v |> |>);
    Ok (fst r)) ;;
  adjust_proxied_witness_votes a (amount delta).

Definition adjust_supply (delta : asset) : DB unit :=
  g ← gets dgpo;
  if symbol delta =? SOPHIATX_SYMBOL then
    n ← ⌈ amount (current_supply g) +! amount delta ⌉;
    fc_assert (n >=? 0) ;;
    modify_gpo (fun p => a ← asset_add (current_supply p) delta; Ok (p <| current_supply := a |>))
  else mthrow assert_exception.

Definition get_balance (a : account_object) (sym : Z) : res asset :=
  if sym =? SOPHIATX_SYMBOL then Ok (balance a) else Throw assert_exception.

(** [vest( account, delta )]: liquid coins become vesting shares. *)
Definition vest (a : Z) (delta : Z) : DB unit :=
  acc ← get accounts a;
  fc_assert (amount (balance acc) >=? delta) ;;
  modify accounts a (fun ao =>
    b ← amount (balance ao) -! delta;
    v ← amount (vesting_shares ao) +! delta;
    Ok (ao <| balance ::= fun x => x <| amount := b |> |>
           <| vesting_shares ::= fun x => x <| amount := v |> |>)) ;;
  modify_gpo (fun o =>
    t ← amount (total_vesting_shares o) +! delta;
    Ok (o <| total_vesting_shares ::= fun x => x <| amount := t |> |>)).

(** [pay_fee( account, fee )]: the fee leaves the supply and feeds the pools. *)
Definition pay_fee (a : Z) (fee : asset) : DB unit :=
  fc_assert (amount fee >=? 0) ;;
  if amount fee =? 0 then mret tt
  else
    fc_assert (symbol fee =? SOPHIATX_SYMBOL) ;;
    acc ← get accounts a;
    ge ← ⌈ asset_geb (balance acc) fee ⌉;
    fc_assert ge ;;
    neg ← ⌈ asset_neg fee ⌉;
    adjust_balance a neg ;;
    adjust_supply neg ;;
    modify_econ (add_fee (amount fee)).

(** [get_fee_payer( op )] of the database: the sponsor of the payer, if any. *)
Definition get_fee_payer (op : operation) : DB account_name_type :=
  sponsor ← get_sponsor (op_get_fee_payer op);
  mret (default (op_get_fee_payer op) sponsor).

Definition process_operation_fee (op : operation) : DB asset :=
  private ← is_private_net;
  if has_special_fee op || private then mret (Asset 0 SOPHIATX_SYMBOL)
  else
    let fee := op_fee op in
    req_fee ← ⌈ get_required_fee op (symbol fee) ⌉;
    fc_assert (symbol fee =? symbol req_fee) ;;
    ge ← ⌈ asset_geb fee req_fee ⌉;
    fc_assert ge ;;
    sponsor ← get_sponsor (op_get_fee_payer op);
    let payer := default (op_get_fee_payer op) sponsor in
    _ ← get_account payer;
    to_pay ← (if symbol fee =? SOPHIATX_SYMBOL then mret fee else to_sophiatx_db fee);
    fc_assert ((symbol to_pay =? SOPHIATX_SYMBOL) && (amount to_pay >=? 0)) ;;
    pay_fee (data payer) to_pay ;;
    mret to_pay.

(** [update_owner_authority( account, authority )]: the old one is kept in the
    history until the recovery period is over. *)
Definition update_owner_authority (account : Z) (owner_authority : authority) : DB unit :=
  acc ← get accounts account;
  id ← fresh_id owner_authority_history_object_type;
  auth ← get account_auths_ account;
  now ← head_block_time;
  insert_new owner_history id
    {| oh_id := id; oh_account := acc_name acc; previous_owner_authority := owner_auth auth;
       last_valid_time := now |} ;;
  modify account_auths_ account (fun auth =>
    Ok (auth <| owner_auth := owner_authority |> <| last_owner_update := now |>)).
End balance.

(** ** Effects on the coins *)
Section effects.
  Context {cfg : sophiatx_config}.

Lemma update_considered_holding_money i n a r : update_considered_holding i n a = Ok r ->
  balance (fst r) = balance a /\ vesting_shares (fst r) = vesting_shares a.
Proof. unfold update_considered_holding. intros. minv. done. Qed.

Lemma modify_balance_money a d c s u s' : modify_balance a d c s = Ok (u, s') ->
  money_of s' = (money_of s) <| m_liquid ::= Z.add (amount d) |>.
Proof.
  unfold modify_balance. intros H. dbinv. use_keeps. money_chain.
  erewrite money_set_account by done.
  match goal with H : update_considered_holding _ _ _ = Ok _ |- _ =>
    apply update_considered_holding_money in H as [E1 E2] end.
  safe_vals. subst. unfold acc_liquid, acc_vested. rewrite E1, E2.
  destruct (money_of s). simpl. f_equal; lia.
Qed.

Lemma adjust_balance_money a d s u s' : adjust_balance a d s = Ok (u, s') ->
  money_of s' = (money_of s) <| m_liquid ::= Z.add (amount d) |>.
Proof. apply modify_balance_money. Qed.

Lemma adjust_balance_name_money a d s u s' : adjust_balance_name a d s = Ok (u, s') ->
  money_of s' = (money_of s) <| m_liquid ::= Z.add (amount d) |>.
Proof. unfold adjust_balance_name. intros. dbinv. by eapply modify_balance_money. Qed.

Lemma create_vesting_money a d s u s' : create_vesting a d s = Ok (u, s') ->
  money_of s' = (money_of s) <| m_vested ::= Z.add (amount d) |>.
Proof.
  unfold create_vesting. intros H. dbinv. use_keeps. money_chain.
  erewrite money_set_account by done.
  match goal with H : update_considered_holding _ _ _ = Ok _ |- _ =>
    apply update_considered_holding_money in H as [E1 E2] end.
  safe_vals. subst. unfold acc_liquid, acc_vested. rewrite E1, E2.
  destruct (money_of s). simpl. f_equal; lia.
Qed.

Lemma adjust_supply_money d s u s' : adjust_supply d s = Ok (u, s') ->
  money_of s' = (money_of s) <| m_supply ::= Z.add (amount d) |>.
Proof.
  unfold adjust_supply. intros H. dbinv. destruct (_ =? _); dbinv.
  match goal with H : asset_add _ _ = Ok _ |- _ => unfold asset_add in H end.
  minv. safe_vals. subst. unfold money_of. simpl. f_equal. lia.
Qed.

Lemma vest_money a d s u s' : vest a d s = Ok (u, s') ->
  money_of s' = (money_of s) <| m_liquid ::= fun x => x - d |> <| m_vested ::= Z.add d |>
                             <| m_tvest ::= Z.add d |>.
Proof.
  unfold vest. intros H. dbinv.
  match goal with |- context [upd accounts (insert a ?a') s] =>
    pose proof (fun a0 => money_set_account a a0 a' s) as Hm end.
  safe_vals. subst. specialize (Hm _ H). unfold money_of in Hm. injection Hm as E1 E2.
  unfold money_of. simpl in *. rewrite E1, E2. unfold acc_liquid, acc_vested. simpl.
  rewrite H in H1. injection H1 as <-. f_equal; lia.
Qed.

Lemma asset_neg_amount a b : asset_neg a = Ok b -> amount b = - amount a /\ symbol b = symbol a.
Proof. unfold asset_neg. intros. minv. safe_vals. subst. done. Qed.

Lemma asset_add_amount a b c : asset_add a b = Ok c ->
  amount c = amount a + amount b /\ symbol c = symbol a.
Proof. unfold asset_add. intros. minv. safe_vals. subst. done. Qed.
Lemma asset_sub_amount a b c : asset_sub a b = Ok c ->
  amount c = amount a - amount b /\ symbol c = symbol a.
Proof. unfold asset_sub. intros. minv. safe_vals. subst. done. Qed.

Lemma pay_fee_money a fee s u s' : pay_fee a fee s = Ok (u, s') ->
  0 <= amount fee /\
  money_of s' = (money_of s) <| m_liquid ::= fun x => x - amount fee |>
                  <| m_supply ::= fun x => x - amount fee |> <| m_pools ::= Z.add (amount fee) |>.
Proof.
  unfold pay_fee. intros H. dbinv. bool_simpl. split; [lia|].
  destruct (_ =? _) eqn:E0; dbinv; bool_simpl.
  { rewrite E0. match goal with |- context [money_of ?s] => destruct (money_of s) end.
    simpl. f_equal; lia. }
  match goal with H : asset_neg _ = Ok _ |- _ => apply asset_neg_amount in H as [En _] end.
  match goal with H : add_fee _ _ = Ok _ |- _ => apply add_fee_total in H as Ea end.
  match goal with H : adjust_balance _ _ _ = Ok _ |- _ => apply adjust_balance_money in H as M1 end.
  match goal with H : adjust_supply _ _ = Ok _ |- _ => apply adjust_supply_money in H as M2 end.
  rewrite (money_set_econ _ _ _ Ea), M2, M1, En. destruct (money_of s). simpl. f_equal; lia.
Qed.

(** A paid fee moves from the supply to the pools. *)
Lemma pay_fee_conserves a fee : conserves (pay_fee a fee).
Proof.
  intros s u s' H. apply pay_fee_money in H as [_ H]. apply imbalance_eq. rewrite H.
  destruct (money_of s). defects_lia.
Qed.

Lemma frames_adjust_balance {T} (f : db -> T) `{!Indep accounts f} `{!Indep witnesses f} a d :
  frames f (adjust_balance a d).
Proof. unfold adjust_balance, modify_balance. frame. Qed.
Lemma frames_adjust_balance_name {T} (f : db -> T) `{!Indep accounts f} `{!Indep witnesses f} a d :
  frames f (adjust_balance_name a d).
Proof. unfold adjust_balance_name, modify_balance. frame. Qed.

Lemma frames_adjust_supply {T} (f : db -> T) d :
  (forall s v, f (s <| dgpo := v |>) = f s) -> frames f (adjust_supply d).
Proof. intros Hf. unfold adjust_supply. frame. Qed.
Lemma frames_create_vesting {T} (f : db -> T) `{!Indep accounts f} `{!Indep witnesses f} a d :
  frames f (create_vesting a d).
Proof. unfold create_vesting. frame. Qed.

Lemma keeps_get_fee_payer op : keeps (get_fee_payer op).
Proof. unfold get_fee_payer. keeps. Qed.

Lemma keeps_update_owner_authority a auth : keeps (update_owner_authority a auth).
Proof. unfold update_owner_authority. keeps. Qed.
End effects.
#[export] Hint Resolve frames_adjust_balance frames_adjust_balance_name frames_create_vesting
  keeps_get_fee_payer keeps_update_owner_authority : frame.
#[export] Hint Extern 1 (frames _ (adjust_supply _)) =>
  (apply frames_adjust_supply; first [reflexivity | assumption]) : frame.
