(* ===== verification/EvalWitness.v ===== *)
(** * EvalWitness: the evaluators of witnesses and price feeds
    ([chain/sophiatx_evaluator.cpp]). *)
From Stdlib Require Import String.
From S2P Require Import Prelude Safe Names Asset Version Config Authority Raw Operations Validate.
From S2P Require Import Objects State Frame Economics Votes Money.
Local Open Scope Z_scope.
Local Open Scope list_scope.

Section eval_witness.
  Context {cfg : sophiatx_config}.

Definition witness_stop_do_apply (o : witness_stop_operation) : DB unit :=
  _ ← get_account (wt_owner o);
  wit ← find_witness (wt_owner o);
  match wit with
  | Some _ => modify witnesses (data (wt_owner o)) (fun w => Ok (w <| signing_key := null_key |>))
  | None => mret tt
  end.

(** The rate with the main symbol as its base. *)
Definition normalize_rate (r : price) : price :=
  if symbol (base r) =? SOPHIATX_SYMBOL then r else Price (quote r) (base r).
Definition submit_rate (sym : Z) (r : price) (now : Z) (w : witness_object) : witness_object :=
  w <| submitted_exchange_rates ::= <[sym := SubmittedRate r now]> |>.

(** The assignments common to the updates of an existing witness. *)
Definition set_witness (url : list Z) (key : public_key_type) (p : chain_properties)
    (w : witness_object) : witness_object :=
  let w := w <| wit_url := url |> <| signing_key := key |> in
  let w := if key =? null_key then w <| stopped := true |> else w in
  w <| props := p <| price_feeds := [] |> |>.

Definition new_witness (owner : account_name_type) (url : list Z) (key : public_key_type)
    (p : chain_properties) (now id : Z) : witness_object :=
  (default_witness id) <| wit_owner := owner |> <| wit_url := url |> <| signing_key := key |>
    <| wit_created := now |> <| props := p <| price_feeds := [] |> |>.

Definition no_creation_fee (w : witness_object) : witness_object :=
  w <| props ::= fun p => p <| account_creation_fee := Asset 0 SOPHIATX_SYMBOL |> |>.

Definition witness_update_do_apply (o : witness_update_operation) : DB unit :=
  let owner := wu_owner o in
  private ← is_private_net;
  if (private : bool) then
    wit ← find_witness owner;
    fc_assert (match wit with Some _ => true | None => false end) ;;
    modify witnesses (data owner) (fun w =>
      Ok (no_creation_fee (set_witness (wu_url o) (wu_block_signing_key o) (wu_props o) w)))
  else
    acn ← get_account owner;
    gpo ← gets dgpo;
    ge ← ⌈ asset_geb (vesting_shares acn) (witness_required_vesting gpo) ⌉;
    fc_assert ge ;;
    producing ← is_producing;
    whenM producing (fc_assert (maximum_block_size (wu_props o) <=? SOPHIATX_MAX_BLOCK_SIZE)) ;;
    wit ← find_witness owner;
    now ← head_block_time;
    match wit with
    | Some _ =>
        modify witnesses (data owner) (fun w =>
          Ok (fold_left (fun w r => submit_rate (fst r) (normalize_rate (snd r)) now w)
                (price_feeds (wu_props o))
                (set_witness (wu_url o) (wu_block_signing_key o) (wu_props o) w)))
    | None =>
        id ← fresh_id witness_object_type;
        insert_new witnesses (data owner)
          (new_witness owner (wu_url o) (wu_block_signing_key o) (wu_props o) now id)
    end.

Definition admin_witness_update_do_apply (o : admin_witness_update_operation) : DB unit :=
  let owner := aw_owner o in
  private ← is_private_net;
  fc_assert private ;;
  wit ← find_witness owner;
  match wit with
  | None =>
      now ← head_block_time;
      id ← fresh_id witness_object_type;
      insert_new witnesses (data owner)
        (new_witness owner (aw_url o) (aw_block_signing_key o) (aw_props o) now id)
  | Some _ =>
      modify witnesses (data owner) (fun w =>
        Ok (no_creation_fee (set_witness (aw_url o) (aw_block_signing_key o) (aw_props o) w)))
  end.

(** A property that is present is unpacked over its default value. *)
Definition unpack_prop {A} (key : string) (props : list (string * list Z)) (m : stream A) (tmp : A)
    : res (option A) :=
  match props_find key props with
  | Some v => x ← unpack_from_vector v m tmp; Ok (Some x)
  | None => Ok None
  end.

Definition opt_set {A} (x : option A) (f : A -> witness_object -> witness_object)
    (w : witness_object) : witness_object :=
  match x with Some v => f v w | None => w end.

Definition witness_set_properties_do_apply (o : witness_set_properties_operation) : DB unit :=
  let ps := ws_props o in
  witness ← get_witness (ws_owner o);
  private ← is_private_net;
  now ← head_block_time;
  key ← match props_find "key" ps with
        | Some v => ⌈ unpack_from_vector v unpack_public_key null_key ⌉
        | None => mthrow crash
        end;
  fc_assert (key =? signing_key witness) ;;
  fee ← (if (private : bool) then mret None
         else ⌈ unpack_prop "account_creation_fee" ps unpack_asset
                  (account_creation_fee default_chain_properties) ⌉);
  block_size ← ⌈ unpack_prop "maximum_block_size" ps unpack_u32
                   (maximum_block_size default_chain_properties) ⌉;
  match block_size with
  | Some n => fc_assert (n <=? SOPHIATX_MAX_BLOCK_SIZE)
  | None => mret tt
  end ;;
  new_key ← ⌈ unpack_prop "new_signing_key" ps unpack_public_key key ⌉;
  rates ← (if (private : bool) then mret None
           else ⌈ unpack_prop "exchange_rates" ps (unpack_vector SIZEOF_PRICE unpack_price) [] ⌉);
  url ← ⌈ unpack_prop "url" ps unpack_string [] ⌉;
  modify witnesses (data (ws_owner o)) (fun w =>
    let w := opt_set fee (fun f w => w <| props ::= fun p => p <| account_creation_fee := f |> |>) w in
    let w := opt_set block_size (fun n w => w <| props ::= fun p => p <| maximum_block_size := n |> |>) w in
    let w := opt_set new_key (fun k w => w <| signing_key := k |>) w in
    let w := opt_set rates (fun rs w =>
               fold_left (fun w r => submit_rate (symbol (quote (normalize_rate r)))
                                       (normalize_rate r) now w) rs w) w in
    Ok (opt_set url (fun u w => w <| wit_url := u |>) w)).

Definition feed_publish_do_apply (o : feed_publish_operation) : DB unit :=
  private ← is_private_net;
  fc_assert (negb private) ;;
  let new_rate := normalize_rate (fp_exchange_rate o) in
  _ ← get_witness (fp_publisher o);
  now ← head_block_time;
  modify witnesses (data (fp_publisher o)) (fun w =>
    Ok (submit_rate (symbol (quote new_rate)) new_rate now w)).

(** ** None of them moves coins. *)
Lemma keeps_witness_stop o : keeps (witness_stop_do_apply o).
Proof. unfold witness_stop_do_apply. keeps. Qed.
Lemma keeps_witness_update o : keeps (witness_update_do_apply o).
Proof. unfold witness_update_do_apply. keeps. Qed.
Lemma keeps_admin_witness_update o : keeps (admin_witness_update_do_apply o).
Proof. unfold admin_witness_update_do_apply. keeps. Qed.
Lemma keeps_witness_set_properties o : keeps (witness_set_properties_do_apply o).
Proof. unfold witness_set_properties_do_apply. keeps. Qed.
Lemma keeps_feed_publish o : keeps (feed_publish_do_apply o).
Proof. unfold feed_publish_do_apply. keeps. Qed.
End eval_witness.
#[export] Hint Resolve keeps_witness_stop keeps_witness_update keeps_admin_witness_update
  keeps_witness_set_properties keeps_feed_publish : frame.
