(* ===== verification/EvalAccount.v ===== *)
(** * EvalAccount: the evaluators of accounts, authorities and recovery
    ([chain/sophiatx_evaluator.cpp]). *)
From Stdlib Require Import String.
From S2P Require Import Prelude Safe Names Asset Version Config Authority Raw Operations Validate.
From S2P Require Import Objects State Frame Economics Votes Money Balance.
Local Open Scope Z_scope.
Local Open Scope list_scope.

Section eval_account.
  Context {cfg : sophiatx_config} {ext : externals}.

Definition verify_authority_accounts_exist (auth : authority) : DB unit :=
  forM (account_auths auth) (fun aw =>
    a ← find_account (fst aw);
    fc_assert (match a with Some _ => true | None => false end)).

(** [for( auto& a : auth.account_auths ) get_account( a.first );] *)
Definition get_authority_accounts (auth : authority) : DB unit :=
  forM (account_auths auth) (fun aw => _ ← get_account (fst aw); mret tt).

(** The fee must cover the creation fee the witnesses agreed on; what exceeds
    it becomes the first balance of the new account. *)
Definition account_create_do_apply (o : account_create_operation) : DB unit :=
  creator ← get_account (ac_creator o);
  let new_account_name := fixed_string (make_random_fixed_string (ac_name_seed o)) in
  props ← gets dgpo;
  to_pay ← (if symbol (ac_fee o) =? SOPHIATX_SYMBOL then mret (ac_fee o)
            else to_sophiatx_db (ac_fee o));
  hf ← has_hardfork SOPHIATX_HARDFORK_1_1;
  whenM hf (fc_assert (size (ac_name_seed o) <=? SOPHIATX_MAX_NAME_SEED_SIZE)) ;;
  ge ← ⌈ asset_geb (balance creator) to_pay ⌉;
  fc_assert ge ;;
  w ← gets wso;
  private ← is_private_net;
  let required_fee :=
    if (private : bool) then Asset 0 SOPHIATX_SYMBOL
    else Asset (amount (account_creation_fee (median_props w))) SOPHIATX_SYMBOL in
  enough ← ⌈ asset_geb to_pay required_fee ⌉;
  fc_assert enough ;;
  excess_fee ← ⌈ asset_sub to_pay required_fee ⌉;
  verify_authority_accounts_exist (ac_owner o) ;;
  verify_authority_accounts_exist (ac_active o) ;;
  id ← fresh_id account_object_type;
  insert_new accounts (data new_account_name)
    ((default_account id) <| acc_name := new_account_name |> <| memo_key := ac_memo_key o |>
       <| acc_created := time props |> <| mined := false |>
       <| recovery_account := ac_creator o |> <| json_metadata := ac_json_metadata o |>) ;;
  aid ← fresh_id account_authority_object_type;
  insert_new account_auths_ (data new_account_name)
    {| aa_id := aid; aa_account := new_account_name; owner_auth := ac_owner o;
       active_auth := ac_active o; last_owner_update := 0 |} ;;
  whenM (amount required_fee >? 0) (pay_fee (data (ac_creator o)) required_fee) ;;
  whenM (amount excess_fee >? 0)
    (adjust_balance (data new_account_name) excess_fee ;;
     neg ← ⌈ asset_neg excess_fee ⌉;
     adjust_balance (data (ac_creator o)) neg).

(** [head_block_time() - t > seconds], a signed difference in microseconds. *)
Definition older_than (now t seconds : Z) : bool := now - t >? seconds.

Definition account_update_do_apply (o : account_update_operation) : DB unit :=
  let name := au_account o in
  fc_assert (negb (name_eqb name SOPHIATX_TEMP_ACCOUNT)) ;;
  _ ← get_account name;
  account_auth ← get_account_auth name;
  now ← head_block_time;
  match au_owner o with
  | Some owner =>
      fc_assert (older_than now (last_owner_update account_auth) SOPHIATX_OWNER_UPDATE_LIMIT) ;;
      verify_authority_accounts_exist owner ;;
      update_owner_authority (data name) owner
  | None => mret tt
  end ;;
  match au_active o with
  | Some active => verify_authority_accounts_exist active
  | None => mret tt
  end ;;
  modify accounts (data name) (fun acc =>
    let acc := if negb (au_memo_key o =? null_key) then acc <| memo_key := au_memo_key o |> else acc in
    let acc := acc <| last_account_update := now |> in
    Ok (if size (au_json_metadata o) >? 0 then acc <| json_metadata := au_json_metadata o |> else acc)) ;;
  match au_active o with
  | Some active => modify account_auths_ (data name) (fun auth => Ok (auth <| active_auth := active |>))
  | None => mret tt
  end.

(** The metadata [{"deleted_account"}], its quotes being characters 34. *)
Definition deleted_account_json : list Z :=
  [123; 34] ++ bytes_of_string "deleted_account" ++ [34; 125].

Definition account_delete_do_apply (o : account_delete_operation) : DB unit :=
  let name := ad_account o in
  fc_assert (negb (name_eqb name SOPHIATX_TEMP_ACCOUNT)) ;;
  _ ← get_account name;
  account_auth ← get_account_auth name;
  let a := key_authority null_key in
  now ← head_block_time;
  fc_assert (older_than now (last_owner_update account_auth) SOPHIATX_OWNER_UPDATE_LIMIT) ;;
  update_owner_authority (data name) a ;;
  modify accounts (data name) (fun acc =>
    Ok (acc <| memo_key := null_key |> <| last_account_update := now |>
            <| json_metadata := deleted_account_json |>)) ;;
  modify account_auths_ (data name) (fun auth => Ok (auth <| active_auth := a |>)).

(** The witness with the most votes; equal votes are ordered by name. *)
Definition witness_vote_order (w : witness_object) : list Z := [- votes w; data (wit_owner w)].
Definition top_witness (s : db) : option witness_object :=
  snd <$> head (index_by witness_vote_order (witnesses s)).

Definition request_account_recovery_do_apply (o : request_account_recovery_operation) : DB unit :=
  account_to_recover ← get_account (rr_account_to_recover o);
  (if negb (name_size (recovery_account account_to_recover) =? 0) then
     fc_assert (name_eqb (recovery_account account_to_recover) (rr_recovery_account o))
   else
     top ← gets top_witness;
     match top with
     | Some w => fc_assert (name_eqb (wit_owner w) (rr_recovery_account o))
     | None => mthrow crash
     end) ;;
  now ← head_block_time;
  let key := data (rr_account_to_recover o) in
  let expires_at := u32 (now + SOPHIATX_ACCOUNT_RECOVERY_REQUEST_EXPIRATION_PERIOD) in
  request ← find recovery_requests key;
  match request with
  | None =>
      fc_assert (negb (is_impossible (rr_new_owner_authority o))) ;;
      fc_assert (negb (weight_threshold (rr_new_owner_authority o) =? 0)) ;;
      get_authority_accounts (rr_new_owner_authority o) ;;
      id ← fresh_id account_recovery_request_object_type;
      insert_new recovery_requests key
        {| arr_id := id; arr_account_to_recover := rr_account_to_recover o;
           new_owner_authority := rr_new_owner_authority o; expires := expires_at |}
  | Some _ =>
      if weight_threshold (rr_new_owner_authority o) =? 0 then remove recovery_requests key
      else
        fc_assert (negb (is_impossible (rr_new_owner_authority o))) ;;
        get_authority_accounts (rr_new_owner_authority o) ;;
        modify recovery_requests key (fun req =>
          Ok (req <| new_owner_authority := rr_new_owner_authority o |> <| expires := expires_at |>))
  end.

(** The owner history of an account holds an authority. *)
Definition in_owner_history (account : account_name_type) (auth : authority) (s : db) : bool :=
  existsb (fun kv => name_eqb (oh_account (snd kv)) account
                     && authority_eqb (previous_owner_authority (snd kv)) auth)
          (map_to_list (owner_history s)).

Definition recover_account_do_apply (o : recover_account_operation) : DB unit :=
  let name := ra_account_to_recover o in
  account ← get_account name;
  now ← head_block_time;
  fc_assert (older_than now (last_account_recovery account) SOPHIATX_OWNER_UPDATE_LIMIT) ;;
  request ← find recovery_requests (data name);
  match request with
  | None => mthrow assert_exception
  | Some req => fc_assert (authority_eqb (new_owner_authority req) (ra_new_owner_authority o))
  end ;;
  found ← gets (in_owner_history name (ra_recent_owner_authority o));
  fc_assert found ;;
  remove recovery_requests (data name) ;;
  update_owner_authority (data name) (ra_new_owner_authority o) ;;
  modify accounts (data name) (fun a => Ok (a <| last_account_recovery := now |>)).

Definition change_recovery_account_do_apply (o : change_recovery_account_operation) : DB unit :=
  _ ← get_account (cr_new_recovery_account o);
  account_to_recover ← get_account (cr_account_to_recover o);
  now ← head_block_time;
  let key := data (cr_account_to_recover o) in
  let effective := u32 (now + SOPHIATX_OWNER_AUTH_RECOVERY_PERIOD) in
  request ← find change_recovery_requests key;
  match request with
  | None =>
      id ← fresh_id change_recovery_account_request_object_type;
      insert_new change_recovery_requests key
        {| crr_id := id; crr_account_to_recover := cr_account_to_recover o;
           crr_recovery_account := cr_new_recovery_account o; effective_on := effective |}
  | Some _ =>
      if negb (name_eqb (recovery_account account_to_recover) (cr_new_recovery_account o)) then
        modify change_recovery_requests key (fun req =>
          Ok (req <| crr_recovery_account := cr_new_recovery_account o |> <| effective_on := effective |>))
      else remove change_recovery_requests key
  end.

Definition reset_account_do_apply (o : reset_account_operation) : DB unit :=
  acnt ← get_account (rs_account_to_reset o);
  fc_assert (name_eqb (reset_account acnt) (rs_reset_account o)) ;;
  update_owner_authority (data (rs_account_to_reset o)) (rs_new_owner_authority o).

Definition set_reset_account_do_apply (o : set_reset_account_operation) : DB unit :=
  acnt ← get_account (sr_account o);
  _ ← get_account (sr_reset_account o);
  fc_assert (name_eqb (reset_account acnt) (sr_current_reset_account o)) ;;
  fc_assert (negb (name_eqb (reset_account acnt) (sr_reset_account o))) ;;
  modify accounts (data (sr_account o)) (fun a => Ok (a <| reset_account := sr_reset_account o |>)).

(** ** Effects on the coins *)
Lemma keeps_verify_authority_accounts_exist a : keeps (verify_authority_accounts_exist a).
Proof. unfold verify_authority_accounts_exist. keeps. Qed.
Lemma keeps_get_authority_accounts a : keeps (get_authority_accounts a).
Proof. unfold get_authority_accounts. keeps. Qed.
Hint Resolve keeps_verify_authority_accounts_exist keeps_get_authority_accounts : frame.

Lemma keeps_account_update o : keeps (account_update_do_apply o).
Proof. unfold account_update_do_apply. keeps. by destruct (negb _), (_ >? _). Qed.
Lemma keeps_account_delete o : keeps (account_delete_do_apply o).
Proof. unfold account_delete_do_apply. keeps. Qed.
Lemma keeps_request_account_recovery o : keeps (request_account_recovery_do_apply o).
Proof. unfold request_account_recovery_do_apply. keeps. Qed.
Lemma keeps_recover_account o : keeps (recover_account_do_apply o).
Proof. unfold recover_account_do_apply. keeps. Qed.
Lemma keeps_change_recovery_account o : keeps (change_recovery_account_do_apply o).
Proof. unfold change_recovery_account_do_apply. keeps. Qed.
Lemma keeps_reset_account o : keeps (reset_account_do_apply o).
Proof. unfold reset_account_do_apply. keeps. Qed.
Lemma keeps_set_reset_account o : keeps (set_reset_account_do_apply o).
Proof. unfold set_reset_account_do_apply. keeps. Qed.

(** A new account is empty: what it gets comes from its creator. *)
Lemma account_create_conserves o : conserves (account_create_do_apply o).
Proof.
  unfold account_create_do_apply.
  assert (Hnew : forall k a, acc_liquid a = 0 -> acc_vested a = 0 -> keeps (insert_new accounts k a)).
  { intros k a H1 H2 s u s' H. apply insert_new_Ok in H as [Hk ->].
    rewrite money_new_account by done. destruct (money_of s). simpl. f_equal; lia. }
  repeat match goal with
  | |- frames imbalance (insert_new accounts _ _) => apply keeps_conserves, Hnew; reflexivity
  | |- frames imbalance (whenM _ (pay_fee _ _)) => apply frames_whenM; apply pay_fee_conserves
  | |- frames imbalance (whenM _ (mbind _ _)) => apply frames_whenM; intros s u s' H
  | |- frames imbalance (mbind _ _) => apply frames_bind; [|intros ?]
  | |- frames imbalance (whenM _ (fc_assert _)) => apply frames_whenM, frames_assert
  | |- frames imbalance _ => apply keeps_conserves; solve [keeps]
  end.
  minv. match goal with H : asset_neg _ = Ok _ |- _ => apply asset_neg_amount in H as [En _] end.
  repeat match goal with H : adjust_balance _ _ _ = Ok _ |- _ => apply adjust_balance_money in H end.
  apply imbalance_eq. money_chain. rewrite En. destruct (money_of s). defects_lia.
Qed.
End eval_account.
#[export] Hint Resolve keeps_account_update keeps_account_delete keeps_request_account_recovery
  keeps_recover_account keeps_change_recovery_account keeps_reset_account keeps_set_reset_account : frame.
