(* ===== verification/EvalTransfer.v ===== *)
(** * EvalTransfer: the evaluators that move coins between accounts, vesting and
    pools, and the fee sponsors ([chain/sophiatx_evaluator.cpp]). *)
From Stdlib Require Import String.
From S2P Require Import Prelude Safe Names Asset Version Config Authority Raw Operations Validate.
From S2P Require Import Objects State Frame Economics Votes Money Balance.
Local Open Scope Z_scope.
Local Open Scope list_scope.

Section eval_transfer.
  Context {cfg : sophiatx_config}.

Definition not_private : DB unit := private ← is_private_net; fc_assert (negb private).

Definition transfer_do_apply (o : transfer_operation) : DB unit :=
  not_private ;;
  from ← get_account (tr_from o);
  b ← ⌈ get_balance from (symbol (tr_amount o)) ⌉;
  ge ← ⌈ asset_geb b (tr_amount o) ⌉;
  fc_assert ge ;;
  neg ← ⌈ asset_neg (tr_amount o) ⌉;
  adjust_balance_name (tr_from o) neg ;;
  adjust_balance_name (tr_to o) (tr_amount o).

Definition transfer_to_vesting_do_apply (o : transfer_to_vesting_operation) : DB unit :=
  not_private ;;
  from_account ← get_account (tv_from o);
  let to_name := if negb (name_size (tv_to o) =? 0) then tv_to o else tv_from o in
  to_account ← get_account to_name;
  b ← ⌈ get_balance from_account SOPHIATX_SYMBOL ⌉;
  ge ← ⌈ asset_geb b (tv_amount o) ⌉;
  fc_assert ge ;;
  if acc_id from_account =? acc_id to_account then vest (data (tv_from o)) (amount (tv_amount o))
  else
    neg ← ⌈ asset_neg (tv_amount o) ⌉;
    adjust_balance_name (tv_from o) neg ;;
    adjust_balance_name (tv_to o) (tv_amount o) ;;
    vest (data to_name) (amount (tv_amount o)).

(** [head_block_time() + fc::seconds( s )] as a [time_point_sec]. *)
Definition time_plus (now seconds : Z) : Z := u32 (now + seconds).

Definition withdraw_vesting_do_apply (o : withdraw_vesting_operation) : DB unit :=
  not_private ;;
  account ← get_account (wv_account o);
  gpo ← gets dgpo;
  ge0 ← ⌈ asset_geb (vesting_shares account) (Asset 0 VESTS_SYMBOL) ⌉;
  fc_assert ge0 ;;
  ge ← ⌈ asset_geb (vesting_shares account) (wv_vesting_shares o) ⌉;
  fc_assert ge ;;
  now ← head_block_time;
  if amount (wv_vesting_shares o) =? 0 then
    fc_assert (negb (amount (vesting_withdraw_rate account) =? 0)) ;;
    modify accounts (data (wv_account o)) (fun a =>
      Ok (a <| vesting_withdraw_rate := Asset 0 VESTS_SYMBOL |>
            <| next_vesting_withdrawal := time_point_sec_maximum |>
            <| to_withdraw := 0 |> <| withdrawn := 0 |>))
  else
    r ← ⌈ amount (wv_vesting_shares o) /! SOPHIATX_VESTING_WITHDRAW_INTERVALS ⌉;
    let new_rate := Asset (if r =? 0 then 1 else r) VESTS_SYMBOL in
    ne ← ⌈ asset_neqb (vesting_withdraw_rate account) new_rate ⌉;
    fc_assert ne ;;
    wit ← find_witness (wv_account o);
    match wit with
    | Some w =>
        if signing_key w =? null_key then mret tt
        else
          left ← ⌈ amount (vesting_shares account) -! amount (wv_vesting_shares o) ⌉;
          fc_assert (left >=? amount (witness_required_vesting gpo))
    | None => mret tt
    end ;;
    modify accounts (data (wv_account o)) (fun a =>
      Ok (a <| vesting_withdraw_rate := new_rate |>
            <| next_vesting_withdrawal := time_plus now SOPHIATX_VESTING_WITHDRAW_INTERVAL_SECONDS |>
            <| to_withdraw := amount (wv_vesting_shares o) |> <| withdrawn := 0 |>)).

Definition transfer_from_promotion_pool_do_apply (o : transfer_from_promotion_pool_operation) : DB unit :=
  not_private ;;
  _ ← get_account (tp_transfer_to o);
  fc_assert ((amount (tp_amount o) >? 0) && (symbol (tp_amount o) =? SOPHIATX_SYMBOL)) ;;
  n ← head_block_num;
  e ← gets econ;
  r ← ⌈ withdraw_from_promotion_pool (amount (tp_amount o)) n e ⌉;
  modify_econ (fun _ => Ok (fst r)) ;;
  adjust_balance (data (tp_transfer_to o)) (Asset (snd r) SOPHIATX_SYMBOL) ;;
  adjust_supply (Asset (snd r) SOPHIATX_SYMBOL) ;;
  push_virtual_operation (op_promotion_pool_withdraw
    {| pw_fee := null_asset; pw_to_account := tp_transfer_to o;
       pw_withdrawn := Asset (snd r) SOPHIATX_SYMBOL |}).

Definition remove_sponsor (sponsored : account_name_type) : DB unit :=
  _ ← get fee_sponsors (data sponsored); remove fee_sponsors (data sponsored).

Definition sponsor_fees_do_apply (o : sponsor_fees_operation) : DB unit :=
  not_private ;;
  if name_eqb (sf_sponsor o) (name_of "") then remove_sponsor (sf_sponsored o)
  else
    _ ← get_account (sf_sponsor o);
    _ ← get_account (sf_sponsored o);
    existing_sponsor ← get_sponsor (sf_sponsored o);
    if sf_is_sponsoring o then
      fc_assert (match existing_sponsor with Some _ => false | None => true end) ;;
      id ← fresh_id account_fee_sponsor_object_type;
      insert_new fee_sponsors (data (sf_sponsored o))
        {| afs_id := id; sponsor := sf_sponsor o; sponsored := sf_sponsored o |}
    else
      fc_assert (match existing_sponsor with
                 | Some s => name_eqb s (sf_sponsor o) | None => false end) ;;
      remove_sponsor (sf_sponsored o).

(** ** Effects on the coins *)
Lemma frames_not_private {T} (f : db -> T) : frames f not_private.
Proof. unfold not_private. frame. Qed.
Hint Resolve frames_not_private : frame.

Lemma keeps_withdraw_vesting o : keeps (withdraw_vesting_do_apply o).
Proof. unfold withdraw_vesting_do_apply. keeps. Qed.
Lemma keeps_sponsor_fees o : keeps (sponsor_fees_do_apply o).
Proof. unfold sponsor_fees_do_apply, remove_sponsor. keeps. Qed.

Lemma keeps_transfer o : keeps (transfer_do_apply o).
Proof.
  intros s u s' H. unfold transfer_do_apply in H. minv. use_keeps.
  match goal with H : asset_neg _ = Ok _ |- _ => apply asset_neg_amount in H as [En _] end.
  repeat match goal with H : adjust_balance_name _ _ _ = Ok _ |- _ =>
    apply adjust_balance_name_money in H end.
  money_chain. rewrite En. destruct (money_of s). simpl. f_equal; lia.
Qed.

(** Vesting turns liquid coins into vesting shares. *)
Lemma transfer_to_vesting_money o s u s' : transfer_to_vesting_do_apply o s = Ok (u, s') ->
  money_of s' = (money_of s) <| m_liquid ::= fun x => x - amount (tv_amount o) |>
    <| m_vested ::= Z.add (amount (tv_amount o)) |> <| m_tvest ::= Z.add (amount (tv_amount o)) |>.
Proof.
  intros H. unfold transfer_to_vesting_do_apply in H. minv. use_keeps.
  destruct (acc_id _ =? _); minv.
  - repeat match goal with H : vest _ _ _ = Ok _ |- _ => apply vest_money in H end.
    by money_chain.
  - match goal with H : asset_neg _ = Ok _ |- _ => apply asset_neg_amount in H as [En _] end.
    repeat match goal with
    | H : adjust_balance_name _ _ _ = Ok _ |- _ => apply adjust_balance_name_money in H
    | H : vest _ _ _ = Ok _ |- _ => apply vest_money in H end.
    money_chain. rewrite En. destruct (money_of s). simpl. f_equal; lia.
Qed.

(** A promotion withdrawal creates what it takes from the pool. *)
Lemma transfer_from_promotion_pool_money o s u s' :
  transfer_from_promotion_pool_do_apply o s = Ok (u, s') -> exists r, 0 < r /\
  money_of s' = (money_of s) <| m_liquid ::= Z.add r |> <| m_supply ::= Z.add r |>
    <| m_pools ::= fun x => x - r |>.
Proof.
  intros H. unfold transfer_from_promotion_pool_do_apply in H. minv.
  match goal with H : modify_econ _ _ = Ok _ |- _ => apply modify_econ_Ok in H as (e' & He & ->) end.
  minv. use_keeps. unfold head_block_num in *. minv.
  match goal with H : withdraw_from_promotion_pool _ _ _ = Ok ?r |- _ =>
    destruct r as [e1 r1]; apply withdraw_promotion_total in H as [Et Hr] end.
  cbn [fst snd] in *. exists r1. split; [done|].
  repeat match goal with
  | H : adjust_balance _ _ _ = Ok _ |- _ => apply adjust_balance_money in H
  | H : adjust_supply _ _ = Ok _ |- _ => apply adjust_supply_money in H end.
  money_chain. unfold Z.sub in Et. rewrite (money_set_econ _ _ _ Et). money_chain. simpl.
  destruct (money_of s). simpl. f_equal; lia.
Qed.
End eval_transfer.
#[export] Hint Resolve frames_not_private keeps_withdraw_vesting keeps_sponsor_fees keeps_transfer : frame.
