(* ===== verification/EvalEscrow.v ===== *)
(** * EvalEscrow: the evaluators of the escrow operations
    ([chain/sophiatx_evaluator.cpp]) and the expiration of escrows that were not
    ratified ([chain/database.cpp]). *)
From S2P Require Import Prelude Safe Names Asset Version Config Authority Raw Operations Validate.
From S2P Require Import Objects State Frame Economics Votes Money Balance EvalTransfer.
Local Open Scope Z_scope.
Local Open Scope list_scope.

Section eval_escrow.
  Context {cfg : sophiatx_config}.

Definition escrow_transfer_do_apply (o : escrow_transfer_operation) : DB unit :=
  not_private ;;
  from_account ← get_account (et_from o);
  _ ← get_account (et_to o);
  _ ← get_account (et_agent o);
  now ← head_block_time;
  fc_assert (et_ratification_deadline o >? now) ;;
  fc_assert (et_escrow_expiration o >? now) ;;
  spent ← (if symbol (et_escrow_fee o) =? SOPHIATX_SYMBOL
           then ⌈ asset_add (et_sophiatx_amount o) (et_escrow_fee o) ⌉
           else mret (et_sophiatx_amount o));
  ge ← ⌈ asset_geb (balance from_account) spent ⌉;
  fc_assert ge ;;
  neg ← ⌈ asset_neg spent ⌉;
  adjust_balance (data (et_from o)) neg ;;
  id ← fresh_id escrow_object_type;
  insert_new escrows (data (et_from o), et_escrow_id o)
    {| esc_id := id; escrow_id := et_escrow_id o; esc_from := et_from o; esc_to := et_to o;
       esc_agent := et_agent o; ratification_deadline := et_ratification_deadline o;
       escrow_expiration := et_escrow_expiration o; sophiatx_balance := et_sophiatx_amount o;
       pending_fee := et_escrow_fee o; to_approved := false; agent_approved := false;
       disputed := false |}.

(** One party approves, unless it already has; nothing changes on a rejection. *)
Definition escrow_party_approves (k : Z * Z) (who party : account_name_type) (reject : bool)
    (approved : escrow_object -> bool) (set : escrow_object -> escrow_object) : DB unit :=
  if name_eqb who party then
    e ← get escrows k;
    fc_assert (negb (approved e)) ;;
    whenM (negb reject) (modify escrows k (fun e => Ok (set e)))
  else mret tt.

Definition escrow_approve_do_apply (o : escrow_approve_operation) : DB unit :=
  not_private ;;
  let k := (data (ea_from o), ea_escrow_id o) in
  escrow ← get escrows k;
  fc_assert (name_eqb (esc_to escrow) (ea_to o)) ;;
  fc_assert (name_eqb (esc_agent escrow) (ea_agent o)) ;;
  now ← head_block_time;
  fc_assert (ratification_deadline escrow >=? now) ;;
  let reject_escrow := negb (ea_approve o) in
  escrow_party_approves k (ea_who o) (ea_to o) reject_escrow to_approved
    (fun e => e <| to_approved := true |>) ;;
  escrow_party_approves k (ea_who o) (ea_agent o) reject_escrow agent_approved
    (fun e => e <| agent_approved := true |>) ;;
  escrow ← get escrows k;
  if reject_escrow then
    adjust_balance_name (ea_from o) (sophiatx_balance escrow) ;;
    adjust_balance_name (ea_from o) (pending_fee escrow) ;;
    remove escrows k
  else if to_approved escrow && agent_approved escrow then
    adjust_balance_name (ea_agent o) (pending_fee escrow) ;;
    modify escrows k (fun e => Ok (e <| pending_fee ::= fun f => f <| amount := 0 |> |>))
  else mret tt.

Definition escrow_dispute_do_apply (o : escrow_dispute_operation) : DB unit :=
  not_private ;;
  _ ← get_account (ed_from o);
  let k := (data (ed_from o), ed_escrow_id o) in
  e ← get escrows k;
  now ← head_block_time;
  fc_assert (now <? escrow_expiration e) ;;
  fc_assert (to_approved e && agent_approved e) ;;
  fc_assert (negb (disputed e)) ;;
  fc_assert (name_eqb (esc_to e) (ed_to o)) ;;
  fc_assert (name_eqb (esc_agent e) (ed_agent o)) ;;
  modify escrows k (fun e => Ok (e <| disputed := true |>)).

(** Who may release to whom. *)
Definition escrow_release_check (e : escrow_object) (who receiver : account_name_type) (now : Z)
    : res unit :=
  if disputed e then fc_assert (name_eqb who (esc_agent e))
  else
    fc_assert (name_eqb who (esc_from e) || name_eqb who (esc_to e)) ;;
    whenM (escrow_expiration e >? now)
      (if name_eqb who (esc_from e) then fc_assert (name_eqb receiver (esc_to e))
       else if name_eqb who (esc_to e) then fc_assert (name_eqb receiver (esc_from e))
       else Ok tt).

(** The end of a release: the amount leaves the escrow, an empty one is removed. *)
Definition escrow_deduct (k : Z * Z) (d : asset) : DB unit :=
  modify escrows k (fun esc =>
    b ← asset_sub (sophiatx_balance esc) d;
    Ok (esc <| sophiatx_balance := b |>)) ;;
  e ← get escrows k;
  whenM (amount (sophiatx_balance e) =? 0) (remove escrows k).

Definition escrow_release_do_apply (o : escrow_release_operation) : DB unit :=
  not_private ;;
  _ ← get_account (er_from o);
  let k := (data (er_from o), er_escrow_id o) in
  e ← get escrows k;
  ge ← ⌈ asset_geb (sophiatx_balance e) (er_sophiatx_amount o) ⌉;
  fc_assert ge ;;
  fc_assert (name_eqb (esc_to e) (er_to o)) ;;
  fc_assert (name_eqb (esc_agent e) (er_agent o)) ;;
  fc_assert (name_eqb (er_receiver o) (esc_from e) || name_eqb (er_receiver o) (esc_to e)) ;;
  fc_assert (to_approved e && agent_approved e) ;;
  now ← head_block_time;
  ⌈ escrow_release_check e (er_who o) (er_receiver o) now ⌉ ;;
  adjust_balance_name (er_receiver o) (er_sophiatx_amount o) ;;
  escrow_deduct k (er_sophiatx_amount o).

(** ** expire_escrow_ratification *)
Definition escrow_deadline_order (e : escrow_object) : list Z := [ratification_deadline e; esc_id e].
(** The escrows past their deadline that were not approved by both parties,
    earliest deadline first.  The handlers below change no other escrow, so the
    index is walked as it was at the start. *)
Definition unratified_escrows (now : Z) (s : db) : list (Z * Z * escrow_object) :=
  filter (fun ke => negb (is_approved (snd ke)) && (ratification_deadline (snd ke) <=? now) = true)
    (index_by escrow_deadline_order (escrows s)).

Definition refund_escrow (k : Z * Z) : DB unit :=
  e ← get escrows k;
  adjust_balance_name (esc_from e) (sophiatx_balance e) ;;
  adjust_balance_name (esc_from e) (pending_fee e) ;;
  remove escrows k.

Definition expire_escrow_ratification : DB unit :=
  now ← head_block_time;
  old ← gets (unratified_escrows now);
  forM old (fun ke => refund_escrow (fst ke)).
End eval_escrow.

(** ** Effects on the coins: the escrow operations move coins between balances
    and escrows. *)
Section effects.
  Context {cfg : sophiatx_config}.

Lemma escrow_transfer_conserves o s u s' :
  symbol (et_escrow_fee o) = SOPHIATX_SYMBOL ->
  escrow_transfer_do_apply o s = Ok (u, s') -> imbalance s' = imbalance s.
Proof.
  intros Hsym H. unfold escrow_transfer_do_apply in H. rewrite Hsym, Z.eqb_refl in H. minv.
  match goal with H : insert_new _ _ _ _ = Ok _ |- _ => apply insert_new_Ok in H as (Hnew & ->) end.
  match goal with H : asset_neg _ = Ok _ |- _ => apply asset_neg_amount in H as [En _] end.
  match goal with H : asset_add _ _ = Ok _ |- _ => apply asset_add_amount in H as [Ea _] end.
  match goal with H : adjust_balance _ _ _ = Ok _ |- _ => apply adjust_balance_money in H end.
  use_keeps. apply imbalance_eq. rewrite money_new_escrow by done. money_chain.
  destruct (money_of s). rewrite En, Ea. defects_lia.
Qed.

Lemma frames_party_approves k who p r ap (set : escrow_object -> escrow_object) :
  (forall e, esc_held (set e) = esc_held e) ->
  keeps (escrow_party_approves k who p r ap set).
Proof.
  intros Hset. unfold escrow_party_approves. keeps.
  intros s u s' H. dbinv. erewrite money_set_escrow by done. rewrite Hset.
  destruct (money_of s). simpl. f_equal. lia.
Qed.

Lemma escrow_approve_conserves o : conserves (escrow_approve_do_apply o).
Proof.
  intros s u s' H. unfold escrow_approve_do_apply in H. minv.
  repeat match goal with H : escrow_party_approves _ _ _ _ _ _ _ = Ok _ |- _ =>
    apply frames_party_approves in H; [|done] end.
  assert (Hm : forall x s1 s2, get escrows (data (ea_from o), ea_escrow_id o) s1 = Ok (x, s2) ->
    escrows s2 !! (data (ea_from o), ea_escrow_id o) = Some x /\ s2 = s1).
  { intros y1 y2 y3 Hg. by apply get_Ok in Hg as [? ->]. }
  repeat match goal with H : get escrows _ _ = Ok _ |- _ => apply Hm in H as [? ->] end.
  apply imbalance_eq. destruct (negb (ea_approve o)); [|destruct (_ && _)]; minv.
  - repeat match goal with H : adjust_balance_name _ _ ?s0 = Ok (_, ?s1) |- _ =>
      pose proof (frames_adjust_balance_name escrows _ _ _ _ _ H);
      apply adjust_balance_name_money in H end.
    unfold remove in *. minv. erewrite money_del_escrow by (repeat match goal with
      H : escrows ?s1 = _ |- context [escrows ?s1] => rewrite H end; done).
    use_keeps. money_chain. destruct (money_of s). defects_lia.
  - repeat match goal with H : adjust_balance_name _ _ ?s0 = Ok (_, ?s1) |- _ =>
      pose proof (frames_adjust_balance_name escrows _ _ _ _ _ H);
      apply adjust_balance_name_money in H end.
    dbinv. erewrite money_set_escrow by done. use_keeps. money_chain.
    match goal with E : escrows ?s1 = escrows ?s2, H1 : escrows ?s1 !! ?k = Some ?a,
      H2 : escrows ?s2 !! ?k = Some ?b |- _ => rewrite E, H2 in H1; injection H1 as -> end.
    destruct (money_of s). defects_lia.
  - use_keeps. by money_chain.
Qed.

Lemma escrow_dispute_keeps o : keeps (escrow_dispute_do_apply o).
Proof.
  unfold escrow_dispute_do_apply. keeps.
  intros s u s' H. dbinv. erewrite money_set_escrow by done.
  destruct (money_of s). unfold esc_held. simpl. f_equal. lia.
Qed.

(** What is left of an escrow after a release leaves the sums; nothing is lost
    with a removed escrow because the fee of an approved one is paid. *)
Lemma escrow_deduct_money k d s u s' : escrow_deduct k d s = Ok (u, s') ->
  (forall e, escrows s !! k = Some e -> amount (pending_fee e) = 0) ->
  money_of s' = (money_of s) <| m_escrow ::= fun x => x - amount d |>.
Proof.
  intros H Hfee. unfold escrow_deduct in H.
  apply bind_Ok in H as ([] & s1 & Hm & H). apply bind_Ok in H as (e1 & s2 & Hg & Hw).
  apply modify_Ok in Hm as (e & e' & He & Hf & ->). apply get_Ok in Hg as [Hg ->].
  specialize (Hfee e He).
  assert (Hh : esc_held e' = esc_held e - amount d /\ amount (pending_fee e') = 0).
  { apply rbind_Ok in Hf as (b & Hs & Hf). injection Hf as <-.
    apply asset_sub_amount in Hs as [Es _]. unfold esc_held. simpl. split; [lia|done]. }
  pose proof (money_set_escrow _ _ e' _ He) as Hm. destruct Hh as [Hh Hz]. clear Hf.
  assert (e1 = e') as ->.
  { cbn [upd escrows] in Hg. rewrite lookup_insert_eq in Hg. by injection Hg as <-. }
  unfold whenM in Hw. destruct (_ =? 0) eqn:E0.
  - unfold remove in Hw. apply puts_Ok in Hw as [_ ->]. apply Z.eqb_eq in E0.
    assert (esc_held e' = 0) by (unfold esc_held; lia).
    rewrite (money_del_escrow _ _ _ Hg), Hm. destruct (money_of s). simpl. f_equal. lia.
  - apply ret_Ok, (f_equal snd) in Hw. cbn [snd] in Hw. rewrite Hw, Hm. destruct (money_of s). simpl. f_equal. lia.
Qed.

(** The fees of the approved escrows are paid out. *)
Definition fee_paid (e : escrow_object) : Prop :=
  is_approved e = true -> amount (pending_fee e) = 0.
Definition fees_paid (s : db) : Prop := forall k e, escrows s !! k = Some e -> fee_paid e.
(** The same, one escrow set aside. *)
Definition fees_paid_but (k : Z * Z) (s : db) : Prop :=
  forall k' e, k' <> k -> escrows s !! k' = Some e -> fee_paid e.

Lemma escrow_release_conserves o s u s' : fees_paid s ->
  escrow_release_do_apply o s = Ok (u, s') -> imbalance s' = imbalance s.
Proof.
  intros Hfees H. unfold escrow_release_do_apply in H. minv. apply imbalance_eq.
  repeat match goal with
  | H : get escrows _ _ = Ok _ |- _ => apply get_Ok in H as [Hg ->]
  | H : get_account _ _ = Ok _ |- _ => apply get_Ok in H as [_ ->]
  | H : not_private _ = Ok _ |- _ => unfold not_private, is_private_net in H; minv
  | H : head_block_time _ = Ok _ |- _ => apply gets_Ok in H as [_ ->]
  end.
  match goal with H : adjust_balance_name _ _ _ = Ok _ |- _ =>
      pose proof (frames_adjust_balance_name escrows _ _ _ _ _ H) as Fe;
      apply adjust_balance_name_money in H as Hb end.
  match goal with H : escrow_deduct _ _ _ = Ok _ |- _ => apply escrow_deduct_money in H as Hd end.
  - rewrite Hd, Hb. destruct (money_of s). defects_lia.
  - rewrite Fe. intros e He. apply (Hfees _ _ He). rewrite Hg in He. injection He as <-.
    unfold is_approved. done.
Qed.

Lemma refund_escrow_conserves k : conserves (refund_escrow k).
Proof.
  intros s u s' H. unfold refund_escrow in H. minv. apply imbalance_eq.
  match goal with H : get escrows _ _ = Ok _ |- _ => apply get_Ok in H as [Hg ->] end.
  repeat match goal with H : adjust_balance_name _ _ ?s0 = Ok (_, ?s1) |- _ =>
      pose proof (frames_adjust_balance_name escrows _ _ _ _ _ H);
      apply adjust_balance_name_money in H end.
  unfold remove in *. minv. erewrite money_del_escrow by (repeat match goal with
      H : escrows ?s1 = _ |- context [escrows ?s1] => rewrite H end; done).
  money_chain. destruct (money_of s). defects_lia.
Qed.

Lemma expire_escrow_conserves : conserves expire_escrow_ratification.
Proof.
  unfold expire_escrow_ratification. apply frames_bind; [apply frames_gets|]. intros now.
  apply frames_bind; [apply frames_gets|]. intros old. apply frames_forM. intros ke.
  apply refund_escrow_conserves.
Qed.
(** *** The escrow operations keep the fees of approved escrows paid. *)
Lemma fees_paid_frame {A} (m : DB A) s a s' :
  frames escrows m -> m s = Ok (a, s') -> fees_paid s -> fees_paid s'.
Proof. intros Hm H Hs. unfold fees_paid. by rewrite (Hm _ _ _ H). Qed.

Lemma fees_paid_insert k e s : fees_paid_but k s -> fee_paid e ->
  fees_paid (s <| escrows ::= <[k := e]> |>).
Proof.
  intros Hs He k' e' Hk. simpl in Hk. destruct (decide (k' = k)) as [->|Hn].
  - rewrite lookup_insert_eq in Hk. by injection Hk as <-.
  - rewrite lookup_insert_ne in Hk by done. by apply (Hs k').
Qed.
Lemma fees_paid_delete k s : fees_paid_but k s -> fees_paid (s <| escrows ::= delete k |>).
Proof. intros Hs k' e Hk. simpl in Hk. apply lookup_delete_Some in Hk as [Hn Hk]. by apply (Hs k'). Qed.
Lemma fees_paid_weaken k s : fees_paid s -> fees_paid_but k s.
Proof. intros Hs k' e _. apply Hs. Qed.
Lemma fees_paid_but_frame {A} (m : DB A) k s a s' :
  frames escrows m -> m s = Ok (a, s') -> fees_paid_but k s -> fees_paid_but k s'.
Proof. intros Hm H Hs. unfold fees_paid_but. by rewrite (Hm _ _ _ H). Qed.
(** Peel the first steps of a handler, those that touch no escrow. *)
Ltac peel_step H Hs tac :=
  lazymatch type of H with mbind _ _ _ = Ok _ =>
    let x := fresh "x" in let s1 := fresh "s" in let Hx := fresh "Hx" in
    apply bind_Ok in H as (x & s1 & Hx & H); cbv beta zeta in H; tac Hx Hs
  end.
Ltac by_frame Hx Hs :=
  lazymatch type of Hs with
  | fees_paid_but _ _ => eapply fees_paid_but_frame in Hs; [clear Hx| |exact Hx]; [|solve [frame]]
  | fees_paid _ => eapply fees_paid_frame in Hs; [clear Hx| |exact Hx]; [|solve [frame]]
  end.
Ltac peel H Hs := repeat peel_step H Hs by_frame.

Lemma fees_paid_but_insert k e s : fees_paid_but k s -> fees_paid_but k (s <| escrows ::= <[k := e]> |>).
Proof.
  intros Hs k' e' Hn Hk. simpl in Hk. rewrite lookup_insert_ne in Hk by done. by apply (Hs k').
Qed.

Lemma party_approves_fees k who p r ap set s u s' :
  escrow_party_approves k who p r ap set s = Ok (u, s') -> fees_paid_but k s -> fees_paid_but k s'.
Proof.
  unfold escrow_party_approves. destruct (name_eqb who p); intros H Hs; [|by minv].
  apply bind_Ok in H as (e & s1 & He & H). apply get_Ok in He as [He ->].
  apply bind_Ok in H as ([] & s1 & Ha & H). apply assert_Ok in Ha as (_ & _ & ->).
  unfold whenM in H. destruct (negb r); [|by minv].
  apply modify_Ok in H as (e1 & e2 & _ & _ & ->). by apply fees_paid_but_insert.
Qed.

Lemma escrow_transfer_fees o s u s' :
  escrow_transfer_do_apply o s = Ok (u, s') -> fees_paid s -> fees_paid s'.
Proof.
  intros H Hs. unfold escrow_transfer_do_apply in H.
  peel H Hs.
  apply insert_new_Ok in H as [_ ->]. apply fees_paid_insert; [by apply fees_paid_weaken|done].
Qed.

Lemma escrow_approve_fees o s u s' :
  escrow_approve_do_apply o s = Ok (u, s') -> fees_paid s -> fees_paid s'.
Proof.
  intros H Hs. unfold escrow_approve_do_apply in H. set (k := (data (ea_from o), ea_escrow_id o)) in *.
  apply (fees_paid_weaken k) in Hs. cbv zeta in H.
  do 6 peel_step H Hs by_frame.
  do 2 peel_step H Hs ltac:(fun Hx Hs => apply party_approves_fees in Hx; [|exact Hs];
    clear Hs; rename Hx into Hs).
  apply bind_Ok in H as (e & s9 & He & H).
  apply get_Ok in He as [He ->].
  destruct (negb (ea_approve o)); [|destruct (_ && _) eqn:Ha].
  - peel H Hs.
    unfold remove in H. apply puts_Ok in H as [_ ->]. by apply fees_paid_delete.
  - peel H Hs.
    apply modify_Ok in H as (e1 & e2 & _ & [= <-] & ->). by apply fees_paid_insert.
  - apply ret_Ok, (f_equal snd) in H. cbn in H. subst. intros k' e' Hk'.
    destruct (decide (k' = k)) as [->|]; [|by apply (Hs k')].
    rewrite He in Hk'. injection Hk' as <-. intros Hap. unfold is_approved in Hap. congruence.
Qed.

Lemma escrow_dispute_fees o s u s' :
  escrow_dispute_do_apply o s = Ok (u, s') -> fees_paid s -> fees_paid s'.
Proof.
  intros H Hs. unfold escrow_dispute_do_apply in H. cbv zeta in H.
  peel H Hs.
  apply modify_Ok in H as (e1 & e2 & He & [= <-] & ->).
  apply fees_paid_insert; [by apply fees_paid_weaken|]. exact (Hs _ _ He).
Qed.

Lemma escrow_deduct_fees k d s u s' :
  escrow_deduct k d s = Ok (u, s') -> fees_paid s -> fees_paid s'.
Proof.
  intros H Hs. unfold escrow_deduct in H. apply bind_Ok in H as ([] & s1 & Hm & H).
  apply modify_Ok in Hm as (e1 & e2 & He & Hf & ->).
  assert (Hs1 : fees_paid (s <| escrows ::= <[k := e2]> |>)).
  { apply fees_paid_insert; [by apply fees_paid_weaken|]. specialize (Hs _ _ He).
    by apply rbind_Ok in Hf as (b & _ & [= <-]). }
  apply bind_Ok in H as (e & s2 & Hg & H). apply get_Ok in Hg as [_ ->].
  unfold whenM in H. destruct (_ =? 0).
  - unfold remove in H. apply puts_Ok in H as [_ ->]. apply fees_paid_delete. by apply fees_paid_weaken.
  - apply ret_Ok, (f_equal snd) in H. cbn [snd] in H. by rewrite H.
Qed.

Lemma escrow_release_fees o s u s' :
  escrow_release_do_apply o s = Ok (u, s') -> fees_paid s -> fees_paid s'.
Proof.
  intros H Hs. unfold escrow_release_do_apply in H. cbv zeta in H.
  peel H Hs.
  by apply escrow_deduct_fees in H.
Qed.

Lemma expire_escrow_fees s u s' :
  expire_escrow_ratification s = Ok (u, s') -> fees_paid s -> fees_paid s'.
Proof.
  intros H Hs. unfold expire_escrow_ratification in H. dbinv.
  generalize dependent (unratified_escrows (time (dgpo s)) s). intros l Hl.
  revert s Hs Hl. induction l as [|ke l IH]; intros s Hs Hl; [by apply ret_Ok in Hl as [= ->]|].
  cbn [forM] in Hl. apply bind_Ok in Hl as ([] & s1 & H & Hl). apply (IH s1); [|done].
  apply (fees_paid_weaken (fst ke)) in Hs. unfold refund_escrow in H.
  peel H Hs.
  unfold remove in H. apply puts_Ok in H as [_ ->]. by apply fees_paid_delete.
Qed.
End effects.
