(* ===== verification/EvalVote.v ===== *)
(** * EvalVote: the evaluators of witness votes and vote proxies
    ([chain/sophiatx_evaluator.cpp]). *)
From S2P Require Import Prelude Safe Names Asset Version Config Authority Operations Objects State.
From S2P Require Import Frame Economics Votes Money Balance EvalTransfer.
Local Open Scope Z_scope.
Local Open Scope list_scope.

Section eval_vote.
  Context {cfg : sophiatx_config}.

(** The walk up the chain of proxies.  [chain] is the set of the ids seen; the
    size check bounds the walk, see [proxy_loop_fuel]. *)
Fixpoint proxy_loop (fuel : nat) (cprox : account_object) (chain : list Z) : DB unit :=
  if negb (name_size (proxy cprox) =? 0) then
    match fuel with
    | O => mthrow crash
    | S fuel =>
        next_proxy ← get_account (proxy cprox);
        fc_assert (negb (bool_decide (acc_id next_proxy ∈ chain))) ;;
        let chain := acc_id next_proxy :: chain in
        fc_assert (Z.of_nat (length chain) <=? SOPHIATX_MAX_PROXY_RECURSION_DEPTH) ;;
        proxy_loop fuel next_proxy chain
    end
  else mret tt.
Definition proxy_fuel : nat := 4.

(** [flat_set<account_id_type> proxy_chain( { account.id, new_proxy.id } )] *)
Definition initial_chain (a p : account_object) : list Z :=
  if acc_id a =? acc_id p then [acc_id a] else [acc_id p; acc_id a].

Definition account_witness_proxy_do_apply (o : account_witness_proxy_operation) : DB unit :=
  not_private ;;
  let k := data (ap_account o) in
  account ← get_account (ap_account o);
  fc_assert (negb (name_eqb (proxy account) (ap_proxy o))) ;;
  tb ← ⌈ total_balance account ⌉;
  d0 ← ⌈ safe_neg tb ⌉;
  ds ← ⌈ foldM (fun acc v => d ← safe_neg v; Ok (acc ++ [d])) [] (proxied_vsf_votes account) ⌉;
  let delta := d0 :: ds in
  adjust_proxied_witness_votes_array k delta ;;
  if negb (name_size (ap_proxy o) =? 0) then
    new_proxy ← get_account (ap_proxy o);
    proxy_loop proxy_fuel new_proxy (initial_chain account new_proxy) ;;
    clear_witness_votes k ;;
    modify accounts k (fun a => Ok (a <| proxy := ap_proxy o |>)) ;;
    delta ← ⌈ foldM (fun acc v => d ← safe_neg v; Ok (acc ++ [d])) [] delta ⌉;
    adjust_proxied_witness_votes_array k delta
  else modify accounts k (fun a => Ok (a <| proxy := ap_proxy o |>)).

Definition account_witness_vote_do_apply (o : account_witness_vote_operation) : DB unit :=
  not_private ;;
  let k := data (av_account o) in
  let kw := data (av_witness o) in
  voter ← get_account (av_account o);
  fc_assert (name_size (proxy voter) =? 0) ;;
  witness ← get_witness (av_witness o);
  vote ← find witness_votes (k, kw);
  match vote with
  | None =>
      fc_assert (av_approve o) ;;
      fc_assert (witnesses_voted_for voter <? SOPHIATX_MAX_ACCOUNT_WITNESS_VOTES) ;;
      id ← fresh_id witness_vote_object_type;
      insert_new witness_votes (k, kw)
        {| wv_id := id; wv_witness := wit_owner witness; wv_voter := acc_name voter |} ;;
      weight ← ⌈ witness_vote_weight voter ⌉;
      adjust_witness_vote kw weight ;;
      modify accounts k (fun a => Ok (a <| witnesses_voted_for ::= fun n => u16 (n + 1) |>))
  | Some _ =>
      fc_assert (negb (av_approve o)) ;;
      weight ← ⌈ witness_vote_weight voter ⌉;
      neg ← ⌈ safe_neg weight ⌉;
      adjust_witness_vote kw neg ;;
      modify accounts k (fun a => Ok (a <| witnesses_voted_for ::= fun n => u16 (n - 1) |>)) ;;
      remove witness_votes (k, kw)
  end.

(** ** The walk ends: its outcome does not depend on the fuel. *)
Lemma proxy_loop_enough fuel extra cprox chain s :
  (length chain <= 4)%nat -> (4 < length chain + fuel)%nat ->
  proxy_loop (fuel + extra) cprox chain s = proxy_loop fuel cprox chain s.
Proof.
  revert cprox chain s. induction fuel as [|fuel IH]; intros cprox chain s Hle Hl; [lia|].
  cbn [proxy_loop Nat.add]. destruct (negb _); [|done].
  unfold mbind, ST_bind. destruct (get_account _ s) as [[p s1]|e]; [|done].
  destruct (negb (bool_decide _)); [|done]. cbn.
  destruct (_ <=? _) eqn:E; [|done]. apply Z.leb_le in E.
  unfold SOPHIATX_MAX_PROXY_RECURSION_DEPTH in E. apply IH; simpl in *; lia.
Qed.

(** ** Effects on the coins: none. *)
Lemma keeps_proxy_loop fuel p chain : keeps (proxy_loop fuel p chain).
Proof.
  revert p chain. induction fuel as [|fuel IH]; intros p chain; cbn [proxy_loop]; keeps.
Qed.
Hint Resolve keeps_proxy_loop : frame.
Lemma keeps_account_witness_proxy o : keeps (account_witness_proxy_do_apply o).
Proof. unfold account_witness_proxy_do_apply. keeps. Qed.
Lemma keeps_account_witness_vote o : keeps (account_witness_vote_do_apply o).
Proof. unfold account_witness_vote_do_apply. keeps. Qed.
End eval_vote.
#[export] Hint Resolve keeps_account_witness_proxy keeps_account_witness_vote : frame.
