(* ===== verification/EvalContent.v ===== *)
(** * EvalContent: the evaluators of custom content and of applications
    ([chain/sophiatx_evaluator.cpp]).

    The interpreters of custom operations are registered by plugins at run time:
    the model takes them as a parameter.  An interpreter changes the state and
    may throw; what it changed before a throw the evaluator swallows stays. *)
From S2P Require Import Prelude Safe Names Asset Version Config Authority Raw Operations Validate.
From S2P Require Import Objects State Frame Economics Votes Money Balance EvalTransfer.
Local Open Scope Z_scope.
Local Open Scope list_scope.

Inductive custom_payload :=
  | payload_json (o : custom_json_operation)
  | payload_binary (o : custom_binary_operation).

(** [custom_operation_interpreter::apply] *)
Definition interpreter : Type := custom_payload -> db -> db * option exn.
(** [_custom_operation_interpreters], by application id *)
Class interpreters := custom_operation_interpreters : Z -> option interpreter.

(** The classes derived from [fc::exception]; the others come from the C++
    library. *)
Definition is_fc_exception (e : exn) : bool :=
  match e with out_of_range | logic_error => false | _ => true end.

(** The sequence number that follows the newest content among the selected
    ones; the indices are ordered by descending sequence number. *)
Definition contents_where (mine : custom_content_object -> bool) (s : db)
    : gmap Z custom_content_object := filter (fun kc => mine (snd kc) = true) (custom_contents s).
Definition next_sequence (mine : custom_content_object -> bool) (seq : custom_content_object -> Z)
    (s : db) : Z :=
  match index_by (fun c => [- seq c]) (contents_where mine s) with
  | [] => 1
  | (_, c) :: _ => u64 (seq c + 1)
  end.

Definition sent_by (who : account_name_type) (app : Z) (c : custom_content_object) : bool :=
  name_eqb (cc_sender c) who && (cc_app_id c =? app).
Definition received_by (who : account_name_type) (app : Z) (c : custom_content_object) : bool :=
  name_eqb (cc_recipient c) who && (cc_app_id c =? app).
Definition of_app (app : Z) (c : custom_content_object) : bool := cc_app_id c =? app.

(** One message becomes one object per recipient. *)
Definition store_content (app : Z) (sender : account_name_type) (recipients : list account_name_type)
    (is_binary : bool) (bytes json : list Z) : DB unit :=
  sender_seq ← gets (next_sequence (sent_by sender app) sender_sequence);
  app_seq ← gets (next_sequence (of_app app) app_message_sequence);
  forM recipients (fun r =>
    receiver_seq ← gets (next_sequence (received_by r app) recipient_sequence);
    now ← head_block_time;
    id ← fresh_id custom_content_object_type;
    insert_new custom_contents id
      {| cc_id := id; cc_app_id := app; cc_sender := sender; cc_recipient := r;
         all_recipients := recipients; sender_sequence := sender_seq;
         recipient_sequence := receiver_seq; app_message_sequence := app_seq; received := now;
         binary := is_binary; cc_data := bytes; cc_json := json |}).

Section eval_content.
  Context {cfg : sophiatx_config} {itp : interpreters}.

Definition custom_do_apply (o : custom_operation) : DB unit := mret tt.

Definition custom_json_do_apply (o : custom_json_operation) : DB unit :=
  store_content (cj_app_id o) (cj_sender o) (cj_recipients o) false [] (cj_json o) ;;
  match custom_operation_interpreters (cj_app_id o) with
  | None => mret tt
  | Some eval => puts (fun s => fst (eval (payload_json o) s))
  end.

(** A producing node does not swallow an [fc::exception]. *)
Definition binary_outcome (thrown : option exn) : DB unit :=
  producing ← is_producing;
  match thrown with
  | Some e => if (producing : bool) && is_fc_exception e then mthrow e else mret tt
  | None => mret tt
  end.

Definition custom_binary_do_apply (o : custom_binary_operation) : DB unit :=
  store_content (cb_app_id o) (cb_sender o) (cb_recipients o) true (cb_data o) [] ;;
  match custom_operation_interpreters (cb_app_id o) with
  | None => mret tt
  | Some eval =>
      r ← gets (eval (payload_binary o));
      puts (fun _ => fst r) ;;
      binary_outcome (snd r)
  end.

Definition application_create_do_apply (o : application_create_operation) : DB unit :=
  _ ← get_account (pc_author o);
  let name := fixed_string (pc_name o) in
  id ← fresh_id application_object_type;
  same_name ← gets (application_named name);
  match same_name with Some _ => mthrow logic_error | None => mret tt end ;;
  insert_new applications id
    {| app_id := id; app_name := name; author := pc_author o; app_url := pc_url o;
       app_metadata := pc_metadata o; price_param := pc_price_param o |}.

Definition application_update_do_apply (o : application_update_operation) : DB unit :=
  application ← get_application (fixed_string (pu_name o));
  match pu_new_author o with
  | Some a => _ ← get_account a; _ ← get_account_auth a; mret tt
  | None => mret tt
  end ;;
  fc_assert (name_eqb (author application) (pu_author o)) ;;
  modify applications (app_id application) (fun app =>
    let app := match pu_new_author o with Some a => app <| author := a |> | None => app end in
    let app := match pu_price_param o with Some p => app <| price_param := p |> | None => app end in
    let app := if size (pu_metadata o) >? 0 then app <| app_metadata := pu_metadata o |> else app in
    Ok (if size (pu_url o) >? 0 then app <| app_url := pu_url o |> else app)).

(** The purchases of an application ([by_app_id]). *)
Definition buyings_of (app : Z) (s : db) : list (Z * Z * application_buying_object) :=
  index_by (fun b => [abo_app_id b; abo_id b])
    (filter (fun kb => abo_app_id (snd kb) = app) (application_buyings s)).

Definition application_delete_do_apply (o : application_delete_operation) : DB unit :=
  application ← get_application (fixed_string (pd_name o));
  fc_assert (name_eqb (author application) (pd_author o)) ;;
  bs ← gets (buyings_of (app_id application));
  forM bs (fun kb => remove application_buyings (fst kb)) ;;
  remove applications (app_id application).

Definition buy_application_do_apply (o : buy_application_operation) : DB unit :=
  not_private ;;
  _ ← get_application_by_id (ba_app_id o);
  request ← find application_buyings (data (ba_buyer o), ba_app_id o);
  fc_assert (match request with Some _ => false | None => true end) ;;
  now ← head_block_time;
  id ← fresh_id application_buying_object_type;
  insert_new application_buyings (data (ba_buyer o), ba_app_id o)
    {| abo_id := id; buyer := ba_buyer o; abo_app_id := ba_app_id o; abo_created := now |}.

Definition cancel_application_buying_do_apply (o : cancel_application_buying_operation) : DB unit :=
  not_private ;;
  application ← get_application_by_id (ca_app_id o);
  _ ← get_application_buying (ca_buyer o) (ca_app_id o);
  fc_assert (name_eqb (author application) (ca_app_owner o)) ;;
  remove application_buyings (data (ca_buyer o), ca_app_id o).

(** ** Effects on the coins: none, if the interpreters leave them alone. *)
Lemma keeps_application_create o : keeps (application_create_do_apply o).
Proof. unfold application_create_do_apply. keeps. Qed.
Lemma keeps_application_update o : keeps (application_update_do_apply o).
Proof. unfold application_update_do_apply. keeps. Qed.
Lemma keeps_application_delete o : keeps (application_delete_do_apply o).
Proof. unfold application_delete_do_apply. keeps. Qed.
Lemma keeps_buy_application o : keeps (buy_application_do_apply o).
Proof. unfold buy_application_do_apply. keeps. Qed.
Lemma keeps_cancel_application_buying o : keeps (cancel_application_buying_do_apply o).
Proof. unfold cancel_application_buying_do_apply. keeps. Qed.

(** The interpreters do not touch a part [f] of the state. *)
Definition interpreters_keep {T} (f : db -> T) : Prop :=
  forall app eval p s, custom_operation_interpreters app = Some eval -> f (fst (eval p s)) = f s.

Section with_interpreters.
  Context {T : Type} (f : db -> T) `{!Indep custom_contents f} `{!Indep next_ids f}
    (Hkeep : interpreters_keep f).

Lemma frames_store_content a s r b d j : frames f (store_content a s r b d j).
Proof. unfold store_content. frame. Qed.

Lemma frames_custom_json o : frames f (custom_json_do_apply o).
Proof.
  unfold custom_json_do_apply. apply frames_bind; [apply frames_store_content|]. intros _.
  destruct (custom_operation_interpreters (cj_app_id o)) as [eval|] eqn:He; [|apply frames_ret].
  apply frames_puts. intros s. by apply (Hkeep _ _ _ _ He).
Qed.

Lemma frames_custom_binary o : frames f (custom_binary_do_apply o).
Proof.
  unfold custom_binary_do_apply. apply frames_bind; [apply frames_store_content|]. intros _.
  destruct (custom_operation_interpreters (cb_app_id o)) as [eval|] eqn:He; [|apply frames_ret].
  intros s u s' H. apply bind_Ok in H as (r & s1 & Hr & H). apply gets_Ok in Hr as [-> ->].
  apply bind_Ok in H as (? & s1 & Hp & H). apply puts_Ok in Hp as [_ ->].
  assert (Hb : forall t, frames f (binary_outcome t)) by (intros; unfold binary_outcome; frame).
  apply Hb in H. rewrite H. by apply (Hkeep _ _ _ _ He).
Qed.
End with_interpreters.
End eval_content.
#[export] Hint Resolve keeps_application_create keeps_application_update keeps_application_delete
  keeps_buy_application keeps_cancel_application_buying : frame.
