(* ===== verification/Evaluators.v ===== *)
(** * Evaluators: the evaluator registry and the application of one operation
    ([database::initialize_evaluators], [database::apply_operation]).

    The theorems of the file are about the coins: an operation that is applied
    creates and destroys none, it moves them between balances, vesting shares,
    escrows and the pools of the economic model. *)
From S2P Require Import Prelude Safe Names Asset Version Config Authority Raw Operations Validate.
From S2P Require Import Objects State Frame Economics Votes Money Balance EvalWitness EvalAccount.
From S2P Require Import EvalTransfer EvalEscrow EvalVote EvalContent.
Local Open Scope Z_scope.
Local Open Scope list_scope.

Section evaluators.
  Context {cfg : sophiatx_config} {ext : externals} {itp : interpreters}.

(** [_evaluator_registry.get_evaluator( op ).apply( op )]; virtual operations
    have no evaluator, the null pointer is dereferenced. *)
Definition evaluate (op : operation) : DB unit :=
  match op with
  | op_transfer o => transfer_do_apply o
  | op_transfer_to_vesting o => transfer_to_vesting_do_apply o
  | op_withdraw_vesting o => withdraw_vesting_do_apply o
  | op_feed_publish o => feed_publish_do_apply o
  | op_account_create o => account_create_do_apply o
  | op_account_update o => account_update_do_apply o
  | op_account_delete o => account_delete_do_apply o
  | op_witness_update o => witness_update_do_apply o
  | op_witness_stop o => witness_stop_do_apply o
  | op_account_witness_vote o => account_witness_vote_do_apply o
  | op_account_witness_proxy o => account_witness_proxy_do_apply o
  | op_witness_set_properties o => witness_set_properties_do_apply o
  | op_custom o => custom_do_apply o
  | op_custom_json o => custom_json_do_apply o
  | op_custom_binary o => custom_binary_do_apply o
  | op_request_account_recovery o => request_account_recovery_do_apply o
  | op_recover_account o => recover_account_do_apply o
  | op_change_recovery_account o => change_recovery_account_do_apply o
  | op_escrow_transfer o => escrow_transfer_do_apply o
  | op_escrow_dispute o => escrow_dispute_do_apply o
  | op_escrow_release o => escrow_release_do_apply o
  | op_escrow_approve o => escrow_approve_do_apply o
  | op_reset_account o => reset_account_do_apply o
  | op_set_reset_account o => set_reset_account_do_apply o
  | op_application_create o => application_create_do_apply o
  | op_application_update o => application_update_do_apply o
  | op_application_delete o => application_delete_do_apply o
  | op_buy_application o => buy_application_do_apply o
  | op_cancel_application_buying o => cancel_application_buying_do_apply o
  | op_transfer_from_promotion_pool o => transfer_from_promotion_pool_do_apply o
  | op_sponsor_fees o => sponsor_fees_do_apply o
  | op_admin_witness_update o => admin_witness_update_do_apply o
  | op_interest _ | op_fill_vesting_withdraw _ | op_shutdown_witness _ | op_hardfork _
  | op_producer_reward _ | op_promotion_pool_withdraw _ => mthrow crash
  end.

Definition apply_operation (op : operation) : DB unit :=
  _ ← get_fee_payer op;
  _ ← process_operation_fee op;
  evaluate op.

(** ** Coins *)
Lemma transfer_to_vesting_conserves o : conserves (transfer_to_vesting_do_apply o).
Proof.
  intros s u s' H. apply transfer_to_vesting_money in H. apply imbalance_eq. rewrite H.
  destruct (money_of s). defects_lia.
Qed.
Lemma transfer_from_promotion_pool_conserves o : conserves (transfer_from_promotion_pool_do_apply o).
Proof.
  intros s u s' H. apply transfer_from_promotion_pool_money in H as (r & _ & H).
  apply imbalance_eq. rewrite H. destruct (money_of s). defects_lia.
Qed.

Lemma process_operation_fee_conserves op : conserves (process_operation_fee op).
Proof.
  unfold process_operation_fee.
  repeat match goal with
  | |- frames imbalance (pay_fee _ _) => apply pay_fee_conserves
  | |- frames imbalance (mbind _ _) => apply frames_bind; [|intros ?]
  | |- frames imbalance (if ?b then _ else _) => destruct b
  | |- frames imbalance _ => apply keeps_conserves; solve [keeps]
  end.
Qed.

(** The amounts of a valid escrow transfer are in the main symbol. *)
Lemma escrow_transfer_validate_symbol o : escrow_transfer_validate o = Ok tt ->
  symbol (et_escrow_fee o) = SOPHIATX_SYMBOL_U64.
Proof. unfold escrow_transfer_validate. intros H. minv. bool_simpl. done. Qed.

Definition is_escrow_release (op : operation) : bool :=
  match op with op_escrow_release _ => true | _ => false end.

Lemma escrow_transfer_conserves_valid o : SOPHIATX_SYMBOL = SOPHIATX_SYMBOL_U64 ->
  escrow_transfer_validate o = Ok tt -> conserves (escrow_transfer_do_apply o).
Proof.
  intros Hsym Hv s u s'. apply escrow_transfer_conserves. rewrite Hsym.
  by apply escrow_transfer_validate_symbol.
Qed.

Lemma evaluate_conserves op :
  SOPHIATX_SYMBOL = SOPHIATX_SYMBOL_U64 -> interpreters_keep money_of ->
  operation_validate op = Ok tt -> is_escrow_release op = false -> conserves (evaluate op).
Proof.
  intros Hsym Hitp Hv Hr. destruct op; try discriminate Hr; clear Hr;
    cbn [evaluate operation_validate] in *;
    try match type of Hv with Throw _ = _ => discriminate Hv end;
    try (apply keeps_conserves; solve [eauto 1 with frame nocore]).
  - apply transfer_to_vesting_conserves.
  - apply account_create_conserves.
  - apply frames_ret.
  - apply keeps_conserves, frames_custom_json; [done..|apply Hitp].
  - apply keeps_conserves, frames_custom_binary; [done..|apply Hitp].
  - by apply escrow_transfer_conserves_valid.
  - apply keeps_conserves, escrow_dispute_keeps.
  - apply escrow_approve_conserves.
  - apply transfer_from_promotion_pool_conserves.
Qed.

(** ** Parts of the state that only few handlers touch: anything but the tables
    listed here, and the economic model only by fees. *)
Definition is_escrow_operation (op : operation) : bool :=
  match op with
  | op_escrow_transfer _ | op_escrow_dispute _ | op_escrow_release _ | op_escrow_approve _ => true
  | _ => false
  end.
Definition is_promotion (op : operation) : bool :=
  match op with op_transfer_from_promotion_pool _ => true | _ => false end.

Ltac head_of t := lazymatch t with ?f _ => head_of f | _ => t end.

Section untouched.
  Context {T : Type} (f : db -> T) `{!Indep accounts f} `{!Indep account_auths_ f}
    `{!Indep owner_history f} `{!Indep recovery_requests f} `{!Indep change_recovery_requests f}
    `{!Indep fee_sponsors f} `{!Indep witnesses f} `{!Indep witness_votes f}
    `{!Indep applications f} `{!Indep application_buyings f} `{!Indep custom_contents f}
    `{!Indep next_ids f}.
  Context (Hgpo : forall s v, f (s <| dgpo := v |>) = f s)
    (Hfee : forall fee, frames f (modify_econ (add_fee fee))) (Hitp : interpreters_keep f).

Lemma frames_update_owner a auth : frames f (update_owner_authority a auth).
Proof. unfold update_owner_authority. frame. Qed.
Lemma frames_vest a d : frames f (vest a d).
Proof. unfold vest. frame. Qed.
Lemma frames_supply d : frames f (adjust_supply d).
Proof. unfold adjust_supply. frame. Qed.
Lemma frames_verify a : frames f (verify_authority_accounts_exist a).
Proof. unfold verify_authority_accounts_exist. frame. Qed.
Lemma frames_authority_accounts a : frames f (get_authority_accounts a).
Proof. unfold get_authority_accounts. frame. Qed.
Hint Resolve Hfee frames_supply : frame.
Lemma frames_pay_fee a fee : frames f (pay_fee a fee).
Proof.
  unfold pay_fee. repeat match goal with
  | |- frames _ (modify_econ _) => apply Hfee
  | |- _ => frame_step
  end.
Qed.
Lemma frames_remove_sponsor a : frames f (remove_sponsor a).
Proof. unfold remove_sponsor. frame. Qed.
Lemma frames_clear_votes a : frames f (clear_witness_votes a).
Proof. unfold clear_witness_votes. frame. Qed.
Lemma frames_proxy_loop fuel p c : frames f (proxy_loop fuel p c).
Proof. revert p c. induction fuel as [|n IH]; intros p c; cbn [proxy_loop]; frame. Qed.
Hint Resolve frames_update_owner frames_vest frames_verify frames_authority_accounts frames_pay_fee
  frames_remove_sponsor frames_clear_votes frames_proxy_loop : frame.

Lemma frames_process_operation_fee op : frames f (process_operation_fee op).
Proof. unfold process_operation_fee. frame. Qed.

Lemma frames_evaluate op : is_escrow_operation op = false -> is_promotion op = false ->
  frames f (evaluate op).
Proof.
  intros Hop Hpromo. destruct op; try discriminate Hop; try discriminate Hpromo; clear Hop Hpromo;
    cbn [evaluate]; try apply frames_throw;
    try (by apply frames_custom_json; [..|apply Hitp]);
    try (by apply frames_custom_binary; [..|apply Hitp]);
    try match goal with |- frames _ ?m => let h := head_of m in unfold h end; frame.
Qed.

Lemma frames_apply_operation op : frames f (evaluate op) -> frames f (apply_operation op).
Proof.
  intros He. unfold apply_operation, get_fee_payer. frame. by apply frames_process_operation_fee.
Qed.
End untouched.

Lemma frames_escrows_fee fee : frames escrows (modify_econ (add_fee fee)).
Proof. frame. Qed.

Lemma frames_escrows_evaluate op : interpreters_keep escrows -> is_escrow_operation op = false ->
  frames escrows (evaluate op).
Proof.
  intros Hitp Hop. destruct (is_promotion op) eqn:Hp.
  - destruct op; try discriminate Hp. cbn [evaluate]. unfold transfer_from_promotion_pool_do_apply.
    frame.
  - apply frames_evaluate; try done; try apply _; try (intros; reflexivity). exact frames_escrows_fee.
Qed.

(** ** The fees of approved escrows stay paid. *)
Lemma evaluate_fees_paid op s u s' : interpreters_keep escrows ->
  evaluate op s = Ok (u, s') -> fees_paid s -> fees_paid s'.
Proof.
  intros Hitp H Hs. destruct (is_escrow_operation op) eqn:Hop.
  - destruct op; try discriminate Hop; cbn [evaluate] in H.
    + by apply escrow_transfer_fees in H.
    + by apply escrow_dispute_fees in H.
    + by apply escrow_release_fees in H.
    + by apply escrow_approve_fees in H.
  - eapply fees_paid_frame; [|exact H|exact Hs]. by apply frames_escrows_evaluate.
Qed.

Lemma frames_escrows_operation_fee op : frames escrows (process_operation_fee op).
Proof. apply frames_process_operation_fee; try apply _; try (intros; reflexivity). exact frames_escrows_fee. Qed.

Lemma apply_operation_fees_paid op s u s' : interpreters_keep escrows ->
  apply_operation op s = Ok (u, s') -> fees_paid s -> fees_paid s'.
Proof.
  intros Hitp H Hs. unfold apply_operation in H.
  apply bind_Ok in H as (p & s1 & Hp & H). apply bind_Ok in H as (fee & s2 & Hfee & H).
  apply (evaluate_fees_paid _ _ _ _ Hitp H).
  eapply fees_paid_frame; [|exact Hfee|]; [apply frames_escrows_operation_fee|].
  eapply fees_paid_frame; [|exact Hp|done]. unfold get_fee_payer. frame.
Qed.

Lemma apply_operation_imbalance op s u s' :
  SOPHIATX_SYMBOL = SOPHIATX_SYMBOL_U64 -> interpreters_keep money_of ->
  operation_validate op = Ok tt -> fees_paid s ->
  apply_operation op s = Ok (u, s') -> imbalance s' = imbalance s.
Proof.
  intros Hsym Hitp Hv Hf H. unfold apply_operation in H.
  apply bind_Ok in H as (p & s1 & Hp & H). apply bind_Ok in H as (fee & s2 & Hfee & H).
  assert (s1 = s) as -> by (unfold get_fee_payer, get_sponsor, find in Hp; by minv).
  rewrite <- (process_operation_fee_conserves op s fee s2 Hfee).
  destruct (is_escrow_release op) eqn:Hr; [|by apply (evaluate_conserves op Hsym Hitp Hv Hr s2 u)].
  destruct op; try discriminate Hr. apply escrow_release_conserves in H; [done|].
  unfold fees_paid. by rewrite (frames_escrows_operation_fee _ _ _ _ Hfee).
Qed.

(** ** The part of the economic model that interests are computed from *)
Definition interest_base (s : db) : Z * Z :=
  (accumulated_supply (econ s), interest_pool_from_coinbase (econ s)).
Definition econ_bounded (s : db) : Prop :=
  accumulated_supply (econ s) <= INT64_MAX /\ interest_pool_from_coinbase (econ s) <= INT64_MAX.

Lemma frames_interest_base_econ g :
  (forall e e', g e = Ok e' -> accumulated_supply e' = accumulated_supply e /\
     interest_pool_from_coinbase e' = interest_pool_from_coinbase e) ->
  frames interest_base (modify_econ g).
Proof.
  intros Hg s u s' H. apply modify_econ_Ok in H as (e' & He & ->). apply Hg in He as [H1 H2].
  unfold interest_base. simpl. by rewrite H1, H2.
Qed.
Lemma frames_interest_base_fee fee : frames interest_base (modify_econ (add_fee fee)).
Proof. apply frames_interest_base_econ. unfold add_fee. intros e e' H. minv. done. Qed.

Lemma frames_interest_base_promotion o : frames interest_base (transfer_from_promotion_pool_do_apply o).
Proof.
  intros s u s' H. unfold transfer_from_promotion_pool_do_apply in H.
  do 4 (apply bind_Ok in H as (? & ? & ? & H)).
  assert (Hs : forall {A} (m : DB A) s a s1, frames id m -> m s = Ok (a, s1) -> s1 = s)
    by (intros A m s2 a s3 Hm Hr; exact (Hm _ _ _ Hr)).
  apply Hs in H0 as ->; [|frame]. apply Hs in H1 as ->; [|frame].
  apply Hs in H2 as ->; [|frame]. apply Hs in H3 as ->; [|frame]. clear Hs.
  apply bind_Ok in H as (e & s1 & He & H). apply gets_Ok in He as [-> ->].
  apply bind_Ok in H as (r & s1 & Hr & H). apply lift_Ok in Hr as [Hr ->].
  apply bind_Ok in H as ([] & s1 & Hm & H). apply modify_econ_Ok in Hm as (e' & [= <-] & ->).
  assert (Hrest : interest_base s' = interest_base (s <| econ := fst r |>)).
  { refine (frames_run _ _ _ _ _ H _). frame. }
  rewrite Hrest. unfold interest_base. simpl. unfold withdraw_from_promotion_pool in Hr. by minv.
Qed.

Lemma frames_interest_base_evaluate op : interpreters_keep interest_base ->
  frames interest_base (evaluate op).
Proof.
  intros Hitp. destruct (is_promotion op) eqn:Hp.
  { destruct op; try discriminate Hp. apply frames_interest_base_promotion. }
  destruct (is_escrow_operation op) eqn:He; cycle 1.
  { apply frames_evaluate; try done; try apply _; try (intros; reflexivity). exact frames_interest_base_fee. }
  destruct op; try discriminate He; cbn [evaluate];
    match goal with |- frames _ ?m => let h := head_of m in unfold h end;
    unfold escrow_party_approves, escrow_deduct; frame.
Qed.

(** ** Sound states: the supply balances, the escrow fees are paid and the values
    interests are computed from are 64-bit integers. *)
Definition sound (s : db) : Prop := supply_ok s /\ fees_paid s /\ econ_bounded s.
(** What the interpreters of custom operations may not touch. *)
Definition interpreters_sound : Prop :=
  interpreters_keep money_of /\ interpreters_keep escrows /\ interpreters_keep interest_base.

(** The same but for coins missing from supply and pools together: [d] are left. *)
Definition sound_upto (d : Z) (s : db) : Prop :=
  imbalance s = (0, 0, d) /\ fees_paid s /\ econ_bounded s.
Lemma sound_sound_upto s : sound s <-> sound_upto SOPHIATX_TOTAL_SUPPLY s.
Proof. unfold sound, sound_upto. by rewrite supply_ok_imbalance. Qed.

Lemma apply_operation_upto d op s u s' :
  SOPHIATX_SYMBOL = SOPHIATX_SYMBOL_U64 -> interpreters_sound -> operation_validate op = Ok tt ->
  apply_operation op s = Ok (u, s') -> sound_upto d s -> sound_upto d s'.
Proof.
  intros Hsym (Hm & He & Hb) Hv H (Hs & Hf & Hbd). split; [|split].
  - rewrite <- Hs. by eapply apply_operation_imbalance.
  - by apply (apply_operation_fees_paid _ _ _ _ He H).
  - assert (Hi : interest_base s' = interest_base s).
    { revert H. apply frames_apply_operation; try apply _; try (intros; reflexivity).
      - exact frames_interest_base_fee.
      - by apply frames_interest_base_evaluate. }
    unfold econ_bounded. injection Hi as -> ->. exact Hbd.
Qed.
Lemma apply_operation_sound op s u s' :
  SOPHIATX_SYMBOL = SOPHIATX_SYMBOL_U64 -> interpreters_sound -> operation_validate op = Ok tt ->
  apply_operation op s = Ok (u, s') -> sound s -> sound s'.
Proof. intros ? ? ? ?. rewrite !sound_sound_upto. by eapply apply_operation_upto. Qed.
End evaluators.
