(* ===== verification/Block.v ===== *)
(** * Block: transactions, blocks, their ids and the Merkle root
    ([protocol/transaction.*], [block.*], [block_header.*]).

    Hash functions, signatures and the packed form of a whole transaction or
    header are parameters ([crypto]); what the code does around them (the block
    number inside a block id, the pairing of the Merkle tree, the set of recovered
    keys) is modelled. *)
From S2P Require Import Prelude Safe Names Asset Version Config Authority Operations Objects Validate.
Local Open Scope Z_scope.
Local Open Scope list_scope.

Record signed_transaction := SignedTransaction {
  ref_block_num : Z;
  ref_block_prefix : Z;
  expiration : Z;
  operations : list operation;
  signatures : list Z }.

(** [block_header_extensions]: [void_t], [version] or [hardfork_version_vote]. *)
Inductive header_extension :=
  | ext_void
  | ext_version (v : Z)
  | ext_hardfork_vote (hv : hardfork_version_vote).

Record signed_block := SignedBlock {
  previous : hash160;
  timestamp : Z;
  blk_witness : list Z;                       (* a [string] *)
  transaction_merkle_root : hash160;
  extensions : list header_extension;
  witness_signature : Z;
  blk_transactions : list signed_transaction }.
#[export] Instance signed_block_eta : Eta signed_block := fun b =>
  SignedBlock (previous b) (timestamp b) (blk_witness b) (transaction_merkle_root b) (extensions b)
    (witness_signature b) (blk_transactions b).

Definition digest_type : Set := Z.

(** [sha224_header] is SHA-224 of the packed signed header and [sha256_*] are
    SHA-256 of the packed value; [recover_key] is the secp256k1 public key of a
    compact signature, its flag is [bip_0062] (true) or [fc_canonical]; it throws
    on a signature that is not canonical. *)
Class crypto := Crypto {
  sha224_header : signed_block -> hash160;
  sha256_header : signed_block -> digest_type;
  sha256_transaction : signed_transaction -> digest_type;
  sha256_signed_transaction : signed_transaction -> digest_type;
  sha256_sig : Z -> signed_transaction -> digest_type;
  sha256_pair : digest_type -> digest_type -> digest_type;
  ripemd160_digest : digest_type -> hash160;
  truncate_digest : digest_type -> hash160;
  recover_key : Z -> digest_type -> bool -> res public_key_type;
  pack_transaction : signed_transaction -> list Z;
  pack_size_operation : operation -> Z;
  pack_size_block : signed_block -> Z }.

Definition endian_reverse_u32 (x : Z) : Z :=
  Z.lor (Z.lor (Z.lor (Z.land (Z.shiftr x 0x18) 0xFF)
    (Z.shiftl (Z.land (Z.shiftr x 0x10) 0xFF) 0x08))
    (Z.shiftl (Z.land (Z.shiftr x 0x08) 0xFF) 0x10))
    (Z.shiftl (Z.land x 0xFF) 0x18).

(** ** block_header *)
Definition num_from_id (id : hash160) : Z := endian_reverse_u32 (_hash0 id).
Definition block_num (b : signed_block) : Z := u32 (num_from_id (previous b) + 1).

Section with_crypto.
  Context {cr : crypto}.

(** The block number replaces the first word of the hash. *)
Definition block_id (b : signed_block) : hash160 :=
  let h := sha224_header b in
  Hash160 (endian_reverse_u32 (block_num b)) (_hash1 h) (_hash2 h) (_hash3 h) (_hash4 h).

Definition validate_signee (b : signed_block) (expected_signee : public_key_type) (canon : bool)
    : res bool :=
  k ← recover_key (witness_signature b) (sha256_header b) canon; Ok (k =? expected_signee).

(** ** transaction *)
Definition transaction_id (t : signed_transaction) : hash160 := truncate_digest (sha256_transaction t).
Definition merkle_digest (t : signed_transaction) : digest_type := sha256_signed_transaction t.

Definition transaction_validate {ext : externals} {cfg : sophiatx_config} (t : signed_transaction)
    : res unit :=
  fc_assert (Z.of_nat (length (operations t)) >? 0) ;;
  forM (operations t) operation_validate.

Definition transaction_get_required_authorities (t : signed_transaction)
    : res (name_set * name_set * list authority) :=
  foldM (fun '(active, owner, other) op =>
    other' ← get_required_authorities op other;
    Ok (get_required_active_authorities op active, get_required_owner_authorities op owner, other'))
    ([], [], []) (operations t).

(** [flat_set::insert] of keys; [false] when the key is there already. *)
Fixpoint key_insert (k : public_key_type) (s : list public_key_type) : list public_key_type :=
  match s with
  | [] => [k]
  | k' :: s' => if k <? k' then k :: s else if k' <? k then k' :: key_insert k s' else s
  end.
Definition key_in (k : public_key_type) (s : list public_key_type) : bool := existsb (Z.eqb k) s.

Definition get_signature_keys (chain : Z) (canon : bool) (t : signed_transaction)
    : res (list public_key_type) :=
  let d := sha256_sig chain t in
  foldM (fun keys sig =>
    k ← recover_key sig d canon;
    sophiatx_assert (negb (key_in k keys)) tx_duplicate_sig ;;
    Ok (key_insert k keys)) [] (signatures t).

(** ** Merkle root: a level of the tree is hashed in pairs, an odd last digest
    goes up as it is.  [k] counts the digests left of a level. *)
Fixpoint merkle_level (ids : list digest_type) : list digest_type :=
  match ids with
  | a :: b :: ids' => sha256_pair a b :: merkle_level ids'
  | _ => ids
  end.
Fixpoint merkle_loop (fuel : nat) (ids : list digest_type) : list digest_type :=
  match fuel with
  | O => ids
  | S fuel => if (1 <? length ids)%nat then merkle_loop fuel (merkle_level ids) else ids
  end.
Definition merkle_fold (ids : list digest_type) : digest_type :=
  nth 0 (merkle_loop (length ids) ids) 0.

Definition calculate_merkle_root (b : signed_block) : hash160 :=
  match blk_transactions b with
  | [] => null_hash
  | txs => ripemd160_digest (merkle_fold (map merkle_digest txs))
  end.
End with_crypto.

(** ** The block number in a block id *)
Lemma land_ff x : Z.land x 0xFF = x mod 256.
Proof. change 0xFF with (Z.ones 8). by rewrite Z.land_ones. Qed.

(** The four bytes of a word, lowest first. *)
Definition word_of (a b c d : Z) : Z := ((d * 256 + c) * 256 + b) * 256 + a.

Lemma endian_reverse_bytes a b c d : 0 <= a < 256 -> 0 <= b < 256 -> 0 <= c < 256 -> 0 <= d < 256 ->
  endian_reverse_u32 (word_of a b c d) = word_of d c b a.
Proof.
  intros Ha Hb Hc Hd. unfold endian_reverse_u32. rewrite !land_ff, !Z.shiftr_div_pow2 by lia.
  replace (word_of a b c d / 2 ^ 0x18) with d
    by (unfold word_of; apply Z.div_unique with ((c * 256 + b) * 256 + a); lia).
  replace (word_of a b c d / 2 ^ 0x10) with (d * 256 + c)
    by (unfold word_of; apply Z.div_unique with (b * 256 + a); lia).
  replace (word_of a b c d / 2 ^ 0x8) with ((d * 256 + c) * 256 + b)
    by (unfold word_of; apply Z.div_unique with a; lia).
  unfold word_of at 1. rewrite !(Z.add_comm (_ * 256)), !Z.mod_add, !Z.mod_small by lia.
  rewrite !Z.shiftl_mul_pow2 by lia.
  rewrite (Z.lor_comm d), (lor_disjoint c d 8), (Z.lor_comm _ (b * _)) by lia.
  rewrite (lor_disjoint b _ 16), (Z.lor_comm _ (a * _)), (lor_disjoint a _ 24) by lia.
  unfold word_of. lia.
Qed.

Lemma word_bytes x : 0 <= x < 2^32 -> exists a b c d,
  (0 <= a < 256 /\ 0 <= b < 256 /\ 0 <= c < 256 /\ 0 <= d < 256) /\ x = word_of a b c d.
Proof.
  intros Hx. exists (x mod 256), (x / 256 mod 256), (x / 256 / 256 mod 256), (x / 256 / 256 / 256).
  unfold word_of.
  pose proof (Z.div_mod x 256). pose proof (Z.div_mod (x / 256) 256).
  pose proof (Z.div_mod (x / 256 / 256) 256).
  pose proof (Z.mod_pos_bound x 256). pose proof (Z.mod_pos_bound (x / 256) 256).
  pose proof (Z.mod_pos_bound (x / 256 / 256) 256). lia.
Qed.

Lemma endian_reverse_involutive x : 0 <= x < 2^32 -> endian_reverse_u32 (endian_reverse_u32 x) = x.
Proof.
  intros Hx. destruct (word_bytes x Hx) as (a & b & c & d & (Ha & Hb & Hc & Hd) & ->).
  by rewrite !endian_reverse_bytes.
Qed.

(** ** Merkle levels *)
Section merkle.
  Context {cr : crypto}.

Lemma merkle_level_length ids : length (merkle_level ids) = ((length ids + 1) / 2)%nat.
Proof.
  assert (H : forall n ids, (length ids <= n)%nat -> length (merkle_level ids) = ((length ids + 1) / 2)%nat).
  { clear ids. induction n as [|n IH]; intros [|a [|b ids]] Hl; cbn [length merkle_level] in *;
      try done; [lia|].
    rewrite IH by lia. pose proof (Nat.div_add (length ids + 1) 1 2 ltac:(lia)) as Hd.
    replace (length ids + 1 + 1 * 2)%nat with (S (S (length ids + 1))) in Hd by lia.
    change (S (S (length ids)) + 1)%nat with (S (S (length ids + 1))). rewrite Hd. lia. }
  by apply (H (length ids)).
Qed.

(** Enough rounds: one digest is left. *)
Lemma merkle_loop_single fuel ids : (0 < length ids <= fuel)%nat ->
  length (merkle_loop fuel ids) = 1%nat.
Proof.
  revert ids. induction fuel as [|fuel IH]; intros ids Hl; simpl; [lia|].
  destruct (1 <? length ids)%nat eqn:E; [apply Nat.ltb_lt in E|apply Nat.ltb_ge in E; lia].
  apply IH. rewrite merkle_level_length.
  pose proof (Nat.div_mod_eq (length ids + 1) 2).
  pose proof (Nat.mod_upper_bound (length ids + 1) 2). lia.
Qed.

(** A level without hash collisions is determined by the level above. *)
Lemma merkle_level_inj ids ids' :
  (forall a b c d, sha256_pair a b = sha256_pair c d -> a = c /\ b = d) ->
  length ids = length ids' -> merkle_level ids = merkle_level ids' -> ids = ids'.
Proof.
  intros Hinj. assert (H : forall n ids ids', (length ids <= n)%nat -> length ids = length ids' ->
    merkle_level ids = merkle_level ids' -> ids = ids'); [|by apply (H (length ids))].
  clear ids ids'. induction n as [|n IH]; intros [|a [|b ids]] [|c [|d ids']] Hn Hl He;
    simpl in *; try done; try lia.
  injection He as Hh Ht. apply Hinj in Hh as [-> ->]. f_equal. f_equal. apply IH; [lia..|done].
Qed.

Lemma merkle_loop_inj fuel ids ids' :
  (forall a b c d, sha256_pair a b = sha256_pair c d -> a = c /\ b = d) ->
  length ids = length ids' -> merkle_loop fuel ids = merkle_loop fuel ids' -> ids = ids'.
Proof.
  intros Hinj. revert ids ids'. induction fuel as [|fuel IH]; intros ids ids' Hl; simpl; [done|].
  rewrite <- Hl. destruct (1 <? length ids)%nat; [|done]. intros He.
  apply merkle_level_inj; [done..|]. apply IH; [|done]. by rewrite !merkle_level_length, Hl.
Qed.
End merkle.
