(* ===== verification/SignState.v ===== *)
(** * SignState: which authorities a set of signatures satisfies
    ([protocol/sign_state.cpp], [transaction_util.hpp]).

    [sign_state] is a state of two fields, the provided keys with a mark for the
    ones that were used and the approved accounts; the checks run in [SM].  An
    [authority_getter] is called with the name as a [string]; it may throw. *)
From Stdlib Require Import String.
From S2P Require Import Prelude Safe Names Asset Version Config Authority Operations Objects Block.
Local Open Scope Z_scope.
Local Open Scope list_scope.

Definition authority_getter : Type := list Z -> res authority.

Record sign_state := SignState {
  provided_signatures : list (public_key_type * bool);
  approved_by : list (list Z) }.
#[export] Instance sign_state_eta : Eta sign_state := fun s =>
  SignState (provided_signatures s) (approved_by s).
Abbreviation SM := (ST sign_state).

(** The account that always approves. *)
Definition TEMP : list Z := Eval vm_compute in bytes_of_string "temp".

Definition init_sign_state (sigs : list public_key_type) : sign_state :=
  SignState (map (fun k => (k, false)) sigs) [TEMP].

Definition is_approved_by (id : list Z) (s : sign_state) : bool := bool_decide (id ∈ approved_by s).
Definition mark_used (k : public_key_type) (l : list (public_key_type * bool))
    : list (public_key_type * bool) :=
  map (fun kb => if fst kb =? k then (k, true) else kb) l.

Section checks.
  Context (get_active : authority_getter) (available_keys : list public_key_type).

Definition signed_by (k : public_key_type) : SM bool := fun s =>
  if existsb (fun kb => fst kb =? k) (provided_signatures s) then
    Ok (true, s <| provided_signatures ::= mark_used k |>)
  else if key_in k available_keys then
    Ok (true, s <| provided_signatures ::= flat_assign Z.ltb k true |>)
  else Ok (false, s).

(** [for( k : auth.key_auths )]; [inl w] goes on with the weight [w], [inr tt]
    is the early [return true].  Weights add up in 32 bits. *)
Fixpoint check_keys (threshold : Z) (ks : list (public_key_type * Z)) (total_weight : Z)
    : SM (Z + unit) :=
  match ks with
  | [] => mret (inl total_weight)
  | (k, w) :: ks =>
      signed ← signed_by k;
      if (signed : bool) then
        let total_weight := u32 (total_weight + w) in
        if total_weight >=? threshold then mret (inr tt) else check_keys threshold ks total_weight
      else check_keys threshold ks total_weight
  end.

(** [for( a : auth.account_auths )]; [rec] checks the authority of an account one
    level deeper, it is absent at the maximal depth. *)
Fixpoint check_accounts (rec : option (authority -> SM bool)) (threshold : Z)
    (accs : list (account_name_type * Z)) (total_weight : Z) : SM (Z + unit) :=
  match accs with
  | [] => mret (inl total_weight)
  | (a, w) :: accs =>
      id ← ⌈ string_of_name a ⌉;
      approved ← gets (is_approved_by id);
      if (approved : bool) then
        let total_weight := u32 (total_weight + w) in
        if total_weight >=? threshold then mret (inr tt)
        else check_accounts rec threshold accs total_weight
      else
        match rec with
        | None => check_accounts rec threshold accs total_weight
        | Some check =>
            auth ← ⌈ get_active id ⌉;
            ok ← check auth;
            if (ok : bool) then
              puts (fun s => s <| approved_by ::= cons id |>) ;;
              let total_weight := u32 (total_weight + w) in
              if total_weight >=? threshold then mret (inr tt)
              else check_accounts rec threshold accs total_weight
            else check_accounts rec threshold accs total_weight
        end
  end.

(** [check_authority( auth, depth )]; [left] is [max_recursion - depth]. *)
Fixpoint check_authority_from (left : nat) (auth : authority) : SM bool :=
  r ← check_keys (weight_threshold auth) (key_auths auth) 0;
  match r with
  | inr _ => mret true
  | inl total_weight =>
      r ← check_accounts
            match left with O => None | S left' => Some (check_authority_from left') end
            (weight_threshold auth) (account_auths auth) total_weight;
      match r with
      | inr _ => mret true
      | inl total_weight => mret (total_weight >=? weight_threshold auth)
      end
  end.
Definition check_authority (max_recursion : Z) (auth : authority) : SM bool :=
  check_authority_from (Z.to_nat max_recursion) auth.

(** [check_authority( string id )] *)
Definition check_authority_of (max_recursion : Z) (id : list Z) : SM bool :=
  approved ← gets (is_approved_by id);
  if (approved : bool) then mret true
  else auth ← ⌈ get_active id ⌉; check_authority max_recursion auth.

(** True when some signature was not needed. *)
Definition remove_unused_signatures : SM bool :=
  unused ← gets (fun s => filter (fun kb => snd kb = false) (provided_signatures s));
  puts (fun s => s <| provided_signatures ::= filter (fun kb => snd kb = true) |>) ;;
  mret (negb (length unused =? 0)%nat).
End checks.

(** [verify_authority( operations, sigs, get_active, get_owner, max_recursion )]
    with its default arguments: no key is available beyond the signatures. *)
Definition verify_authority_state (ops : list operation) (get_active get_owner : authority_getter)
    (max_recursion : Z) : SM unit :=
  r ← ⌈ foldM (fun '(active, owner, other) op =>
          other' ← get_required_authorities op other;
          Ok (get_required_active_authorities op active,
              get_required_owner_authorities op owner, other')) ([], [], []) ops ⌉;
  let '(required_active, required_owner, other) := r in
  let check := check_authority get_active [] max_recursion in
  forM other (fun auth => ok ← check auth; sophiatx_assert ok tx_missing_other_auth) ;;
  forM required_active (fun name =>
    id ← ⌈ string_of_name name ⌉;
    ok ← check_authority_of get_active [] max_recursion id;
    if (ok : bool) then mret tt
    else auth ← ⌈ get_owner id ⌉; ok ← check auth; sophiatx_assert ok tx_missing_active_auth) ;;
  forM required_owner (fun name =>
    id ← ⌈ string_of_name name ⌉;
    auth ← ⌈ get_owner id ⌉;
    ok ← check auth;
    sophiatx_assert ok tx_missing_owner_auth) ;;
  unused ← remove_unused_signatures;
  sophiatx_assert (negb unused) tx_irrelevant_sig.

Definition verify_authority (ops : list operation) (sigs : list public_key_type)
    (get_active get_owner : authority_getter) (max_recursion : Z) : res unit :=
  r ← verify_authority_state ops get_active get_owner max_recursion (init_sign_state sigs);
  Ok (fst r).

#[local] Set Warnings "-register-all".
(** ** What a set of keys authorizes

    [authorized keys get_active auth]: keys of the set and approved accounts of
    the authority reach its threshold; an account approves when it is [temp] or
    its active authority is authorized. *)
Definition weights {K} (l : list (K * Z)) : Z := foldr (fun kw acc => snd kw + acc) 0 l.

Inductive authorized (keys : list public_key_type) (get_active : authority_getter) : authority -> Prop :=
  | authorized_intro auth ks accs :
      sublist ks (key_auths auth) -> sublist accs (account_auths auth) ->
      (forall k w, (k, w) ∈ ks -> k ∈ keys) ->
      (forall a w, (a, w) ∈ accs -> exists id, string_of_name a = Ok id /\
         (id <> TEMP -> exists auth', get_active id = Ok auth' /\ authorized keys get_active auth')) ->
      weight_threshold auth <= weights ks + weights accs ->
      authorized keys get_active auth.

Section soundness.
  Context (get_active : authority_getter) (keys : list public_key_type).

Definition approves (id : list Z) : Prop :=
  id <> TEMP -> exists auth, get_active id = Ok auth /\ authorized keys get_active auth.

(** The state only knows the given keys and accounts that do approve. *)
Definition state_ok (s : sign_state) : Prop :=
  (forall k b, (k, b) ∈ provided_signatures s -> k ∈ keys) /\
  (forall id, id ∈ approved_by s -> approves id).

Lemma u32_le x : 0 <= x -> u32 x <= x.
Proof. intros. unfold u32. apply Z.mod_le; lia. Qed.

Lemma init_sign_state_ok : state_ok (init_sign_state keys).
Proof.
  split.
  - intros k b Hk. apply list_elem_of_In, in_map_iff in Hk as (k' & [= -> _] & Hk).
    by apply list_elem_of_In.
  - intros id Hid Hn. apply list_elem_of_singleton in Hid. done.
Qed.

Lemma signed_by_ok k s b s' : state_ok s -> signed_by [] k s = Ok (b, s') ->
  state_ok s' /\ (b = true -> k ∈ keys).
Proof.
  intros [Hk Ha] H. unfold signed_by in H. destruct (existsb _ _) eqn:E; simpl in H.
  - injection H as <- <-. apply existsb_exists in E as ([k' c] & Hin & Heq%Z.eqb_eq).
    simpl in Heq. subst k'. apply list_elem_of_In in Hin. apply Hk in Hin.
    split; [|done]. split; [|done]. intros k2 b2 H2. simpl in H2. unfold mark_used in H2.
    apply list_elem_of_In, in_map_iff in H2 as ([k3 b3] & He & H3). apply list_elem_of_In in H3.
    simpl in He. destruct (k3 =? k) eqn:Ek; injection He as <- <-; [done|by eapply Hk].
  - injection H as <- <-. done.
Qed.

Lemma check_keys_ok t ks w s r s' : state_ok s -> 0 <= w -> Forall (fun kw => 0 <= snd kw) ks ->
  check_keys [] t ks w s = Ok (r, s') -> state_ok s' /\
  exists used, sublist used ks /\ (forall k x, (k, x) ∈ used -> k ∈ keys) /\
    match r with inl w' => 0 <= w' <= w + weights used | inr _ => t <= w + weights used end.
Proof.
  revert w s. induction ks as [|[k x] ks IH]; intros w s Hs Hw Hks H; simpl in H.
  - minv. split; [done|]. exists []. split; [constructor|]. split; [|simpl; lia].
    intros k x Hin. by apply not_elem_of_nil in Hin.
  - inversion Hks as [|? ? Hx Hks']. subst. simpl in Hx.
    apply bind_Ok in H as (b & s1 & Hb & H). apply (signed_by_ok k s b s1 Hs) in Hb as [Hs1 Hin].
    destruct b; cycle 1.
    { apply (IH w s1 Hs1 Hw Hks') in H as (Hs' & used & Hsub & Hused & Hr).
      split; [done|]. exists used. by split; [constructor|]. }
    pose proof (u32_le (w + x) ltac:(lia)). pose proof (u32_range (w + x)).
    specialize (Hin eq_refl).
    assert (Hcons : forall used, (forall k x, (k, x) ∈ used -> k ∈ keys) ->
      forall k' x', (k', x') ∈ (k, x) :: used -> k' ∈ keys).
    { intros used Hu k' x' [[= -> ->]|Hu']%elem_of_cons; [done|by eapply Hu]. }
    destruct (_ >=? t) eqn:Et; bool_simpl.
    + minv. split; [done|]. exists [(k, x)]. split; [apply sublist_skip, sublist_nil_l|].
      split; [|simpl; lia]. apply Hcons. intros ? ? Hn. by apply not_elem_of_nil in Hn.
    + apply (IH (u32 (w + x)) s1 Hs1 ltac:(lia) Hks') in H as (Hs' & used & Hsub & Hused & Hr).
      split; [done|]. exists ((k, x) :: used). split; [by constructor|]. split; [by apply Hcons|].
      destruct r; simpl; lia.
Qed.

(** Weights are unsigned. *)
Definition weights_ok (auth : authority) : Prop :=
  Forall (fun kw => 0 <= snd kw) (key_auths auth) /\
  Forall (fun aw => 0 <= snd aw) (account_auths auth).
Context (Hactive : forall id auth, get_active id = Ok auth -> weights_ok auth).

Definition sound_check (check : authority -> SM bool) : Prop :=
  forall auth s b s', state_ok s -> weights_ok auth ->
    check auth s = Ok (b, s') -> state_ok s' /\ (b = true -> authorized keys get_active auth).

Definition accounts_approve (used : list (account_name_type * Z)) : Prop :=
  forall a w, (a, w) ∈ used -> exists id, string_of_name a = Ok id /\ approves id.

Lemma accounts_approve_nil : accounts_approve [].
Proof. intros a w Hn. by apply not_elem_of_nil in Hn. Qed.
Lemma accounts_approve_cons a w used id : string_of_name a = Ok id -> approves id ->
  accounts_approve used -> accounts_approve ((a, w) :: used).
Proof.
  intros Hid Hap Hu a' w' [[= -> ->]|Hin]%elem_of_cons; [by exists id|by eapply Hu].
Qed.

(** One round of the loop over the accounts, the account approving or not. *)
Lemma check_accounts_ok rec t accs w s r s' : state_ok s -> 0 <= w ->
  Forall (fun aw => 0 <= snd aw) accs ->
  (forall check, rec = Some check -> sound_check check) ->
  check_accounts get_active rec t accs w s = Ok (r, s') -> state_ok s' /\
  exists used, sublist used accs /\ accounts_approve used /\
    match r with inl w' => 0 <= w' <= w + weights used | inr _ => t <= w + weights used end.
Proof.
  intros Hs Hw Haccs Hrec. revert w s Hs Hw. induction Haccs as [|[a x] accs Hx Haccs IH];
    intros w s Hs Hw H; simpl in H.
  { minv. split; [done|]. exists []. repeat split; [constructor|apply accounts_approve_nil|..];
      simpl; lia. }
  simpl in Hx. apply bind_Ok in H as (id & s1 & Hid & H). apply lift_Ok in Hid as [Hid ->].
  assert (Hskip : forall w s, state_ok s -> 0 <= w ->
    check_accounts get_active rec t accs w s = Ok (r, s') -> state_ok s' /\
    exists used, sublist used ((a, x) :: accs) /\ accounts_approve used /\
    match r with inl w' => 0 <= w' <= w + weights used | inr _ => t <= w + weights used end).
  { intros w1 s1 Hs1 Hw1 Hc. apply (IH w1 s1 Hs1 Hw1) in Hc as (Hs' & used & Hsub & Hu & Hr).
    split; [done|]. exists used. by split; [constructor|]. }
  assert (Htake : forall s1, state_ok s1 -> approves id ->
    (if u32 (w + x) >=? t then mret (inr tt) else check_accounts get_active rec t accs (u32 (w + x)))
      s1 = Ok (r, s') -> state_ok s' /\
    exists used, sublist used ((a, x) :: accs) /\ accounts_approve used /\
    match r with inl w' => 0 <= w' <= w + weights used | inr _ => t <= w + weights used end).
  { intros s1 Hs1 Hap Hc. pose proof (u32_le (w + x) ltac:(lia)). pose proof (u32_range (w + x)).
    destruct (_ >=? t) eqn:Et; bool_simpl.
    - minv. split; [done|]. exists [(a, x)]. split; [apply sublist_skip, sublist_nil_l|].
      split; [|simpl; lia]. by apply (accounts_approve_cons _ _ _ id), accounts_approve_nil.
    - apply (IH (u32 (w + x)) s1 Hs1 ltac:(lia)) in Hc as (Hs' & used & Hsub & Hu & Hr). split; [done|].
      exists ((a, x) :: used). split; [by constructor|].
      split; [by apply (accounts_approve_cons _ _ _ id)|]. destruct r; simpl; lia. }
  apply bind_Ok in H as (ap & s1 & Hap & H). apply gets_Ok in Hap as [-> ->].
  destruct (is_approved_by id s) eqn:Eap.
  { apply bool_decide_eq_true in Eap. by apply (Htake s Hs); [apply Hs|]. }
  destruct rec as [check|]; [|by apply (Hskip w s)].
  apply bind_Ok in H as (auth & s1 & Hauth & H). apply lift_Ok in Hauth as [Hauth ->].
  apply bind_Ok in H as (ok & s1 & Hok & H).
  apply (Hrec _ eq_refl auth s ok s1 Hs (Hactive _ _ Hauth)) in Hok as [Hs1 Hok].
  destruct ok; [|by apply (Hskip w s1)].
  apply bind_Ok in H as ([] & s2 & Hp & H). apply puts_Ok in Hp as [_ ->].
  assert (approves id) by (intros _; exists auth; auto).
  apply (Htake _) in H; [done| |done]. destruct Hs1 as [Hk Ha]. split; [exact Hk|].
  intros id' [->|Hin]%elem_of_cons; [done|by apply Ha].
Qed.

Lemma check_authority_from_sound left : sound_check (check_authority_from get_active [] left).
Proof.
  induction left as [|left IH]; intros auth s b s' Hs [Hwk Hwa] H; cbn [check_authority_from] in H;
    apply bind_Ok in H as (r & s1 & Hr & H); unfold sound_check in *;
    apply check_keys_ok in Hr as (Hs1 & ks & Hks & Hkin & Hkw); [|done|lia|done| |done|lia|done].
  all: destruct r as [w|[]]; [|minv; split; [done|]; intros _;
    apply (authorized_intro _ _ auth ks []); [done|apply sublist_nil_l|done|
      by apply accounts_approve_nil|simpl; lia]].
  all: apply bind_Ok in H as (r2 & s2 & Hr2 & H);
    apply check_accounts_ok in Hr2 as (Hs2 & accs & Haccs & Hain & Haw); [|done|lia|done|].
  2,4: intros check Hc; first [discriminate Hc | injection Hc as <-; exact IH].
  all: assert (Hauth : weight_threshold auth <= weights ks + weights accs ->
    authorized keys get_active auth) by (by apply authorized_intro).
  all: destruct r2 as [w2|[]]; minv; (split; [done|]); intros Hb; bool_simpl; apply Hauth; lia.
Qed.

Lemma check_authority_of_sound max id s b s' : state_ok s ->
  check_authority_of get_active [] max id s = Ok (b, s') -> state_ok s' /\ (b = true -> approves id).
Proof.
  intros Hs H. unfold check_authority_of in H. apply bind_Ok in H as (ap & s1 & Hap & H).
  apply gets_Ok in Hap as [-> ->]. destruct (is_approved_by id s) eqn:E.
  - minv. apply bool_decide_eq_true in E. split; [done|]. intros _. by apply Hs.
  - apply bind_Ok in H as (auth & s1 & Ha & H). apply lift_Ok in Ha as [Ha ->].
    apply check_authority_from_sound in H as [Hs' Hb]; [|done|by apply (Hactive id)].
    split; [done|]. intros Ht _. exists auth. auto.
Qed.
(** A checking loop: every element was checked. *)
Lemma check_loop {A} (P : A -> Prop) (f : A -> SM unit) l s u s' : state_ok s ->
  (forall a s s', state_ok s -> a ∈ l -> f a s = Ok (tt, s') -> state_ok s' /\ P a) ->
  forM l f s = Ok (u, s') -> state_ok s' /\ Forall P l.
Proof.
  revert s. induction l as [|a l IH]; intros s Hs Hf H; simpl in H; [minv; split; [done|constructor]|].
  apply bind_Ok in H as ([] & s1 & Ha & H). apply Hf in Ha as [Hs1 Ha]; [|done|by left].
  apply IH in H as [Hs' Hl]; [by split; [|constructor]|done|]. intros b s2 s3 H2 Hb. apply Hf; [done|by right].
Qed.

Lemma check_then_assert max e auth s s' : state_ok s -> weights_ok auth ->
  (ok ← check_authority get_active [] max auth; sophiatx_assert ok e) s = Ok (tt, s') ->
  state_ok s' /\ authorized keys get_active auth.
Proof.
  intros Hs Hw H. apply bind_Ok in H as (b & s1 & Hc & H).
  apply check_authority_from_sound in Hc as [Hs1 Hb]; [|done..]. minv. auto.
Qed.
End soundness.
