(* ===== verification/Transactions.v ===== *)
(** * Transactions: the checks and the application of a transaction
    ([database::_apply_transaction], [process_operations],
    [update_accounts_bandwidth] in [chain/database.cpp]). *)
From Stdlib Require Import String.
From S2P Require Import Prelude Safe Names Asset Version Config Authority Raw Operations Validate.
From S2P Require Import Objects State Frame Economics Votes Money Balance EvalWitness EvalAccount.
From S2P Require Import EvalTransfer EvalEscrow EvalVote EvalContent Evaluators Block SignState.
Local Open Scope Z_scope.
Local Open Scope list_scope.

(** ** Skip flags ([database_interface.hpp]) *)
Definition skip_nothing : Z := 0.
Definition skip_witness_signature : Z := 2^0.
Definition skip_transaction_signatures : Z := 2^1.
Definition skip_transaction_dupe_check : Z := 2^2.
Definition skip_fork_db : Z := 2^3.
Definition skip_block_size_check : Z := 2^4.
Definition skip_tapos_check : Z := 2^5.
Definition skip_authority_check : Z := 2^6.
Definition skip_merkle_check : Z := 2^7.
Definition skip_undo_history_check : Z := 2^8.
Definition skip_witness_schedule_check : Z := 2^9.
Definition skip_validate : Z := 2^10.
Definition skip_validate_invariants : Z := 2^11.
Definition skip_undo_block : Z := 2^12.
Definition skip_block_log : Z := 2^13.
(** [skip & flag] as a condition *)
Definition skips (skip flag : Z) : bool := negb (Z.land skip flag =? 0).

(** [detail::with_skip_flags]: the flags are put back afterwards. *)
Definition with_skip_flags {A} (skip : Z) (m : DB A) : DB A :=
  old ← gets skip_flags;
  puts (fun s => s <| skip_flags := skip |>) ;;
  a ← m;
  puts (fun s => s <| skip_flags := old |>) ;;
  mret a.

(** [ripemd160( hex )]: the bytes are stored in the order of the digits, so a word
    of the hash is read the other way round. *)
Definition ripemd160_from_hex (a b c d e : Z) : hash160 :=
  Hash160 (endian_reverse_u32 a) (endian_reverse_u32 b) (endian_reverse_u32 c) (endian_reverse_u32 d)
    (endian_reverse_u32 e).
(** [get_shared_db_merkle]: the blocks with an accepted Merkle root. *)
Definition get_shared_db_merkle : list (Z * hash160) :=
  [(3705111, ripemd160_from_hex 0x0a8f0fd5 0x450c3706 0xec8b8cba 0xd795cd0b 0x3679bf35);
   (3705120, ripemd160_from_hex 0x2027edb7 0x2b671f70 0x11c8cc4c 0x7a8b59c3 0x9b305093);
   (3713940, ripemd160_from_hex 0xbf8a1d51 0x6927c506 0xebdbb7b3 0x8bef2e99 0x2435435f);
   (3714132, ripemd160_from_hex 0xe8b77773 0xd268b72c 0x8d650337 0xb8cce360 0xbbe64779);
   (3714567, ripemd160_from_hex 0x45af59a8 0xc2d7d4a6 0x06151ef5 0xdae03d2d 0xfe13fbdd);
   (3714588, ripemd160_from_hex 0xe6427544 0x3bdc82f1 0x04ac9364 0x86d367af 0x8f6d1584);
   (4138790, ripemd160_from_hex 0xf65a3a78 0x8a2ef524 0x06d8ba57 0x05d7288b 0xe228403f);
   (5435426, ripemd160_from_hex 0x0b32538b 0x2d22bd31 0x46d54b6e 0x3cb5ae8b 0x9780e8a5)].
Definition merkle_exception (num : Z) : option hash160 :=
  snd <$> List.find (fun p => fst p =? num) get_shared_db_merkle.

(** ** Authorities of the accounts, by the name as a string *)
Definition auth_getter (sel : account_authority_object -> authority) (s : db) : authority_getter :=
  fun id => match account_auths_ s !! data (fixed_string id) with
            | Some a => Ok (sel a) | None => Throw out_of_range end.

Section transactions.
  Context {cfg : sophiatx_config} {ext : externals} {itp : interpreters} {cr : crypto}.

(** ** Bandwidth of the operations without a fee *)
Definition charge_bandwidth (head bytes ops : Z) (old : option account_bandwidth_object)
    (account : account_name_type) : account_bandwidth_object :=
  match old with
  | None => AccountBandwidth account bytes ops head
  | Some b =>
      if u32 (head - last_block_num_reset b) >? SOPHIATX_LIMIT_BANDWIDTH_BLOCKS then
        b <| act_fee_free_bandwidth := bytes |> <| act_fee_free_ops_count := ops |>
          <| last_block_num_reset := head |>
      else
        b <| act_fee_free_bandwidth ::= fun x => u64 (x + bytes) |>
          <| act_fee_free_ops_count ::= fun x => u64 (x + ops) |>
  end.

Definition update_account_bandwidth (head bytes ops : Z) (account : account_name_type) : DB unit :=
  old ← find account_bandwidths (data account);
  let new := charge_bandwidth head bytes ops old account in
  match old with
  | None => insert_new account_bandwidths (data account) new
  | Some _ => modify account_bandwidths (data account) (fun _ => Ok new)
  end ;;
  sophiatx_assert (act_fee_free_bandwidth new <=? SOPHIATX_MAX_ALLOWED_BANDWIDTH)
    tx_exceeded_bandwidth ;;
  sophiatx_assert (act_fee_free_ops_count new <=? SOPHIATX_MAX_ALLOWED_OPS_COUNT)
    tx_exceeded_bandwidth.

Definition update_accounts_bandwidth (accs : name_set) (bytes ops : Z) : DB unit :=
  head ← head_block_num;
  forM accs (update_account_bandwidth head bytes ops).

(** ** process_operations *)
Definition process_one (counts : Z * Z) (op : operation) : DB (Z * Z) :=
  apply_operation op ;;
  hf ← has_hardfork SOPHIATX_HARDFORK_1_2;
  mret (if (hf : bool) && is_fee_free_operation op
        then (u64 (fst counts + pack_size_operation op), u64 (snd counts + 1)) else counts).

(** [get_required_authorities( required, required, other )]: active and owner
    names go to the same set. *)
Definition required_names (t : signed_transaction) : name_set :=
  fold_left (fun a op => get_required_owner_authorities op (get_required_active_authorities op a))
    (operations t) [].
(** The other authorities are collected too and may throw. *)
Definition required_others (t : signed_transaction) : res (list authority) :=
  foldM (fun other op => get_required_authorities op other) [] (operations t).

Definition process_operations (t : signed_transaction) : DB unit :=
  counts ← foldM process_one (0, 0) (operations t);
  if negb (snd counts =? 0) then
    _ ← ⌈ required_others t ⌉;
    update_accounts_bandwidth (required_names t) (fst counts) (snd counts)
  else mret tt.

(** ** _apply_transaction *)
Definition check_transaction_authority (t : signed_transaction) : DB unit := fun s =>
  match
    (keys ← get_signature_keys (chain_id (dgpo s)) (has_hardfork_in s SOPHIATX_HARDFORK_1_1) t;
     verify_authority (operations t) keys (auth_getter active_auth s) (auth_getter owner_auth s)
       SOPHIATX_MAX_SIG_CHECK_DEPTH)
  with
  | Ok _ => Ok (tt, s)
  | Throw tx_missing_active_auth =>
      match merkle_exception (u32 (head_block_number (dgpo s) + 1)) with
      | Some _ => Ok (tt, s) | None => Throw tx_missing_active_auth end
  | Throw e => Throw e
  end.

Definition check_tapos (t : signed_transaction) (skip : Z) : DB unit :=
  n ← head_block_num;
  whenM (n >? 0)
    (whenM (negb (skips skip skip_tapos_check))
       (summary ← get block_summaries (ref_block_num t);
        sophiatx_assert (ref_block_prefix t =? _hash1 summary) transaction_tapos_exception) ;;
     now ← head_block_time;
     sophiatx_assert (expiration t <=? u32 (now + SOPHIATX_MAX_TIME_UNTIL_EXPIRATION))
       transaction_expiration_exception ;;
     sophiatx_assert (now <? expiration t) transaction_expiration_exception ;;
     sophiatx_assert (now <=? expiration t) transaction_expiration_exception).

Definition _apply_transaction (t : signed_transaction) : DB unit :=
  skip ← gets skip_flags;
  whenM (negb (skips skip skip_validate)) ⌈ transaction_validate t ⌉ ;;
  let trx_id := transaction_id t in
  known ← find transactions trx_id;
  fc_assert (skips skip skip_transaction_dupe_check
             || match known with Some _ => false | None => true end) ;;
  whenM (negb (skips skip (Z.lor skip_transaction_signatures skip_authority_check)))
    (check_transaction_authority t) ;;
  check_tapos t skip ;;
  whenM (negb (skips skip skip_transaction_dupe_check))
    (id ← fresh_id transaction_object_type;
     insert_new transactions trx_id
       {| txo_id := id; packed_trx := pack_transaction t; trx_id := trx_id;
          txo_expiration := expiration t |}) ;;
  process_operations t.

Definition apply_transaction (t : signed_transaction) (skip : Z) : DB unit :=
  with_skip_flags skip (_apply_transaction t).

(** ** A valid transaction keeps the state sound, but for the coins missing before. *)
Lemma foldM_sound d ops counts s r s' : SOPHIATX_SYMBOL = SOPHIATX_SYMBOL_U64 -> interpreters_sound ->
  Forall (fun op => operation_validate op = Ok tt) ops -> sound_upto d s ->
  foldM process_one counts ops s = Ok (r, s') -> sound_upto d s'.
Proof.
  intros Hsym Hitp Hops. revert counts s. induction Hops as [|op ops Hop Hops IH];
    intros counts s Hs H; cbn [foldM] in H; [by apply ret_Ok in H as [= -> ->]|].
  apply bind_Ok in H as (c & s1 & H1 & H). apply (IH c s1); [|done]. unfold process_one in H1.
  apply bind_Ok in H1 as ([] & s2 & H2 & H1). unfold has_hardfork in H1. minv.
  by apply (apply_operation_upto d op s tt).
Qed.

(** Nothing outside the evaluators touches what a sound state is about. *)
Definition sound_part (s : db) := (money_of s, escrows s, interest_base s).
Lemma sound_part_frame {A} d (m : DB A) s a s' :
  frames sound_part m -> m s = Ok (a, s') -> sound_upto d s -> sound_upto d s'.
Proof.
  intros Hm H (Hs & Hf & Hb). pose proof (Hm _ _ _ H) as Hp.
  pose proof (f_equal (fun p => fst (fst p)) Hp) as H1.
  pose proof (f_equal (fun p => snd (fst p)) Hp) as H2. pose proof (f_equal snd Hp) as H3.
  cbn [fst snd sound_part] in *. split; [unfold imbalance in *; by rewrite H1|].
  split; [unfold fees_paid; by rewrite H2|]. unfold econ_bounded. by injection H3 as -> ->.
Qed.

Lemma frames_update_accounts_bandwidth l b o : frames sound_part (update_accounts_bandwidth l b o).
Proof. unfold update_accounts_bandwidth, update_account_bandwidth. frame. Qed.

Lemma forM_validated ops : forM ops operation_validate = Ok tt ->
  Forall (fun op => operation_validate op = Ok tt) ops.
Proof.
  induction ops as [|op ops IH]; intros H; [constructor|]. cbn [forM] in H.
  apply rbind_Ok in H as ([] & H1 & H2). constructor; auto.
Qed.

Lemma process_operations_sound d t s u s' : SOPHIATX_SYMBOL = SOPHIATX_SYMBOL_U64 ->
  interpreters_sound -> forM (operations t) operation_validate = Ok tt -> sound_upto d s ->
  process_operations t s = Ok (u, s') -> sound_upto d s'.
Proof.
  intros Hsym Hitp Hv Hs H. unfold process_operations in H.
  apply bind_Ok in H as (c & s1 & H1 & H).
  apply (foldM_sound d) in H1; [|done|done|by apply forM_validated|done].
  destruct (negb _); [|by apply ret_Ok in H as [= -> ->]].
  apply bind_Ok in H as (x & s2 & Hx & H). apply lift_Ok in Hx as [_ ->].
  by apply (sound_part_frame _ _ _ _ _ (frames_update_accounts_bandwidth _ _ _) H).
Qed.

Lemma frames_check_authority t : frames sound_part (check_transaction_authority t).
Proof.
  intros s u s' H. unfold check_transaction_authority in H. repeat case_match; by minv.
Qed.
Hint Resolve frames_check_authority : frame.

Lemma apply_transaction_sound_body d t s u s' : SOPHIATX_SYMBOL = SOPHIATX_SYMBOL_U64 ->
  interpreters_sound -> skips (skip_flags s) skip_validate = false -> sound_upto d s ->
  _apply_transaction t s = Ok (u, s') -> sound_upto d s'.
Proof.
  intros Hsym Hitp Hskip Hs H. unfold _apply_transaction in H.
  apply bind_Ok in H as (skip & s1 & H1 & H). apply gets_Ok in H1 as [-> ->].
  rewrite Hskip in H. cbn [negb whenM] in H.
  apply bind_Ok in H as ([] & s1 & H1 & H). apply lift_Ok in H1 as [Hv ->].
  unfold transaction_validate in Hv. apply rbind_Ok in Hv as (? & _ & Hv).
  cbv zeta in H.
  repeat match type of H with mbind _ _ _ = Ok _ =>
    apply bind_Ok in H as (? & ? & H1 & H);
    eapply sound_part_frame in H1; [|unfold check_tapos; frame|exact Hs]; clear Hs; rename H1 into Hs
  end.
  by eapply process_operations_sound.
Qed.
End transactions.
