(* ===== verification/WitnessSchedule.v ===== *)
(** * WitnessSchedule: block slots and the schedule of the witnesses
    ([chain/witness_schedule.cpp]; the slot functions of [chain/database.cpp]).

    Once per round the witnesses with the most votes are scheduled, the rest of
    the places go to the witnesses next in virtual time; the order is shuffled by
    a generator seeded with the block time. *)
From S2P Require Import Prelude Safe Names Asset Version Config Authority Operations Objects State.
From S2P Require Import Frame Economics Votes Money EvalAccount.
Local Open Scope Z_scope.
Local Open Scope list_scope.

(** ** Slots *)
Section slots.
  Context {cfg : sophiatx_config}.

(** Times are 32-bit; the block interval is not zero. *)
Definition get_slot_time_in (s : db) (slot_num : Z) : Z :=
  if slot_num =? 0 then 0
  else
    let interval := SOPHIATX_BLOCK_INTERVAL in
    if head_block_number (dgpo s) =? 0 then u32 (time (dgpo s) + u32 (slot_num * interval))
    else
      let head_block_abs_slot := time (dgpo s) / interval in
      u32 (u32 (head_block_abs_slot * interval) + u32 (slot_num * interval)).

Definition get_slot_at_time_in (s : db) (when : Z) : Z :=
  let first_slot_time := get_slot_time_in s 1 in
  if when <? first_slot_time then 0
  else u32 ((when - first_slot_time) / SOPHIATX_BLOCK_INTERVAL + 1).

Definition get_slot_time (slot_num : Z) : DB Z := gets (fun s => get_slot_time_in s slot_num).
Definition get_slot_at_time (when : Z) : DB Z := gets (fun s => get_slot_at_time_in s when).

(** A vector access out of range is undefined. *)
Definition vector_at {A} (l : list A) (i : Z) : res A :=
  if i <? 0 then Throw crash
  else match l !! Z.to_nat i with Some a => Ok a | None => Throw crash end.

Definition get_scheduled_witness (slot_num : Z) : DB account_name_type :=
  w ← gets wso;
  aslot ← gets (fun s => u64 (current_aslot (dgpo s) + slot_num));
  i ← ⌈ (if num_scheduled_witnesses w =? 0 then Throw crash
         else Ok (aslot mod num_scheduled_witnesses w)) ⌉;
  ⌈ vector_at (current_shuffled_witnesses w) i ⌉.

(** The first [num_scheduled_witnesses] places of the schedule. *)
Definition scheduled_names : DB (list account_name_type) :=
  w ← gets wso;
  foldM (fun acc i => n ← ⌈ vector_at (current_shuffled_witnesses w) i ⌉; mret (acc ++ [n]))
    [] (seqZ 0 (num_scheduled_witnesses w)).
Definition scheduled_witnesses : DB (list (Z * witness_object)) :=
  names ← scheduled_names;
  foldM (fun acc n => w ← get_witness n; mret (acc ++ [(data n, w)])) [] names.
End slots.

(** ** The shuffle *)
Definition XORSHIFT : Z := 2685821657736338717.
Definition shuffle_random (now_hi i : Z) : Z :=
  let k := u64 (now_hi + u64 (i * XORSHIFT)) in
  let k := Z.lxor k (Z.shiftr k 12) in
  let k := Z.lxor k (u64 (Z.shiftl k 25)) in
  let k := Z.lxor k (Z.shiftr k 27) in
  u64 (k * XORSHIFT).

(** [std::swap( l[i], l[j] )] *)
Definition swap {A} (i j : nat) (l : list A) : list A :=
  match l !! i, l !! j with
  | Some a, Some b => <[j := a]> (<[i := b]> l)
  | _, _ => l
  end.
(** The rounds [i, i + 1, ... n - 1]; [left] of them are to come. *)
Fixpoint shuffle_from {A} (left : nat) (n : Z) (now_hi : Z) (l : list A) : list A :=
  match left with
  | O => l
  | S left' =>
      let i := n - Z.of_nat left in
      let jmax := u32 (n - i) in
      let j := u32 (i + shuffle_random now_hi i mod jmax) in
      shuffle_from left' n now_hi (swap (Z.to_nat i) (Z.to_nat j) l)
  end.
Definition shuffle {A} (n now : Z) (l : list A) : list A :=
  shuffle_from (Z.to_nat n) n (u64 (Z.shiftl now 32)) l.

(** ** Counting votes: a [flat_map] from keys to counts *)
Fixpoint count_up {K} (ltb : K -> K -> bool) (k : K) (m : list (K * Z)) : list (K * Z) :=
  match m with
  | [] => [(k, 1)]
  | (k', n) :: m' =>
      if ltb k k' then (k, 1) :: m
      else if ltb k' k then (k', n) :: count_up ltb k m'
      else (k', u32 (n + 1)) :: m'
  end.
Definition tally {K} (ltb : K -> K -> bool) (ks : list K) : list (K * Z) :=
  fold_left (fun m k => count_up ltb k m) ks [].

Definition hf_vote : Type := Z * Z.
Definition hf_vote_ltb (a b : hf_vote) : bool :=
  if fst a <? fst b then true else if fst b <? fst a then false else snd a <? snd b.

(** The highest version that enough witnesses run, counting newer ones too. *)
Fixpoint majority_from (on_version required : Z) (versions : list (Z * Z)) (old : Z) : Z :=
  match versions with
  | [] => old
  | (v, n) :: versions =>
      let on_version := on_version + n in
      if on_version >=? required then v else majority_from on_version required versions old
  end.

Section schedule.
  Context {cfg : sophiatx_config}.

(** ** reset_virtual_schedule_time *)
Definition lap_time (v : Z) : res Z :=
  (if v =? INT64_MAX then Throw crash else Ok tt) ;;
  q ← u128_div SOPHIATX_VIRTUAL_SCHEDULE_LAP_LENGTH2 (u128 (v + 1));
  Ok q.

Definition reset_virtual_schedule_time : DB unit :=
  modify_wso (fun o => Ok (o <| current_virtual_time := 0 |>)) ;;
  ws ← gets witnesses_by_id;
  forM ws (fun kw => modify witnesses (fst kw) (fun w =>
    lap ← lap_time (votes w);
    Ok (w <| virtual_position := 0 |> <| virtual_last_update := 0 |> <| virtual_scheduled_time := lap |>))).

(** ** update_median_witness_props *)
Definition fee_of (kw : Z * witness_object) : list Z := [amount (account_creation_fee (props (snd kw)))].
Definition block_size_of (kw : Z * witness_object) : list Z := [maximum_block_size (props (snd kw))].
Definition le_by {A} (key : A -> list Z) (x y : A) : Prop := lex_leb (key x) (key y) = true.
#[export] Instance le_by_dec {A} (key : A -> list Z) : RelDecision (le_by key) :=
  fun x y => decide (lex_leb (key x) (key y) = true).
(** [std::sort]: any order of equal keys; the merge sort is one. *)
Definition sort_by {A} (key : A -> list Z) (l : list A) : list A := merge_sort (le_by key) l.

Definition median {A} (l : list A) : res A := vector_at l (Z.of_nat (length l / 2)).

Definition update_median_witness_props : DB unit :=
  active ← scheduled_witnesses;
  let active := sort_by fee_of active in
  mf ← ⌈ median active ⌉;
  let median_account_creation_fee := account_creation_fee (props (snd mf)) in
  let active := sort_by block_size_of active in
  ms ← ⌈ median active ⌉;
  let median_maximum_block_size := maximum_block_size (props (snd ms)) in
  modify_wso (fun w => Ok (w <| median_props ::= fun p =>
    p <| account_creation_fee := median_account_creation_fee |>
      <| maximum_block_size := median_maximum_block_size |> |>)) ;;
  modify_gpo (fun g => Ok (g <| gpo_maximum_block_size := median_maximum_block_size |>)).

(** ** update_witness_schedule4, part by part *)
Definition has_key (w : witness_object) : bool := negb (signing_key w =? null_key).

(** The highest voted witnesses with a key ([by_vote_name]). *)
Definition witnesses_by_vote (s : db) : list (Z * witness_object) :=
  index_by witness_vote_order (witnesses s).
Definition elect (max : Z) (ws : list (Z * witness_object)) : list (Z * witness_object) :=
  take (Z.to_nat max) (List.filter (fun kw => has_key (snd kw)) ws).

(** The witnesses in virtual time order ([by_schedule_time]). *)
Definition schedule_order (w : witness_object) : list Z := [virtual_scheduled_time w; wit_id w].
Definition witnesses_by_schedule (s : db) : list (Z * witness_object) :=
  index_by schedule_order (witnesses s).

(** The loop over them: the witnesses processed, those chosen as runners, the
    number without a key and the virtual time of the last one. *)
Record runners_state := Runners {
  processed : list Z;
  chosen : list (Z * witness_object);
  skipped : Z;
  new_virtual_time : Z }.
Fixpoint run_schedule (elected : list Z) (count : Z) (ws : list (Z * witness_object))
    (r : runners_state) : runners_state :=
  match ws with
  | [] => r
  | (k, w) :: ws =>
      if count <? SOPHIATX_MAX_WITNESSES then
        let r := Runners (processed r ++ [k]) (chosen r) (skipped r) (virtual_scheduled_time w) in
        if negb (has_key w) then
          run_schedule elected count ws
            (Runners (processed r) (chosen r) (skipped r + 1) (new_virtual_time r))
        else if bool_decide (wit_id w ∈ elected) then run_schedule elected count ws r
        else
          run_schedule elected (count + 1) ws
            (Runners (processed r) (chosen r ++ [(k, w)]) (skipped r) (new_virtual_time r))
      else r
  end.

(** The processed witnesses start a new lap; true when virtual time overflows. *)
Fixpoint restart_laps (now : Z) (ks : list Z) : DB bool :=
  match ks with
  | [] => mret false
  | k :: ks =>
      w ← get witnesses k;
      lap ← ⌈ lap_time (votes w) ⌉;
      let scheduled := u128 (now + lap) in
      if scheduled <? now then mret true
      else
        modify witnesses k (fun w =>
          Ok (w <| virtual_position := 0 |> <| virtual_last_update := now |>
                <| virtual_scheduled_time := scheduled |>)) ;;
        restart_laps now ks
  end.

Definition set_schedule (t : witness_schedule_type) (ws : list (Z * witness_object)) : DB unit :=
  forM ws (fun kw => modify witnesses (fst kw) (fun w => Ok (w <| schedule := t |>))).

(** The versions and hardfork votes of the scheduled witnesses. *)
Definition required_witnesses (private : bool) (w : witness_schedule_object) : Z :=
  if private then u8 (num_scheduled_witnesses w / 2 + 1) else hardfork_required_witnesses w.

Definition find_hardfork (required : Z) (ws : list witness_object) : option hf_vote :=
  fst <$> List.find (fun kn => snd kn >=? required)
            (tally hf_vote_ltb (map (fun w => (hardfork_version_vote_ w, hardfork_time_vote w)) ws)).

Definition majority_of (required : Z) (ws : list witness_object) (old : Z) : Z :=
  majority_from 0 required (tally Z.gtb (map running_version ws)) old.

Definition set_next_hardfork (v : option hf_vote) : DB unit :=
  match v with
  | Some (hv, ht) => modify_hpo (fun h => Ok (h <| next_hardfork := hv |> <| next_hardfork_time := ht |>))
  | None => modify_hpo (fun h => Ok (h <| next_hardfork := current_hardfork_version h |>))
  end.

(** The new schedule from the names of the active witnesses. *)
Definition pad_names (names : list account_name_type) : list account_name_type :=
  names ++ replicate (Z.to_nat (SOPHIATX_MAX_WITNESSES - Z.of_nat (length names))) (Name 0 0).
Definition new_schedule (names : list account_name_type) (num_elected num_timeshare now head vtime majority : Z)
    (w : witness_schedule_object) : witness_schedule_object :=
  let num := Z.max (u8 (Z.of_nat (length names))) 1 in
  w <| num_scheduled_witnesses := num |>
    <| top19_weight := u8 (num_elected + num_timeshare) |>
    <| timeshare_weight := u8 (3 * u8 (num_elected + num_timeshare)) |>
    <| witness_pay_normalization_factor := u32 (num_elected + 3 * num_timeshare) |>
    <| current_shuffled_witnesses := shuffle num now (pad_names names) |>
    <| current_virtual_time := vtime |>
    <| next_shuffle_block_num := u32 (head + num) |>
    <| majority_version := majority |>.

Definition update_witness_schedule4 : DB unit :=
  w ← gets wso;
  by_vote ← gets witnesses_by_vote;
  let elected := elect (max_voted_witnesses_ w) by_vote in
  set_schedule top19 elected ;;
  by_schedule ← gets witnesses_by_schedule;
  let r := run_schedule (map (fun kw => wit_id (snd kw)) elected) (Z.of_nat (length elected)) by_schedule
             (Runners [] [] 0 (current_virtual_time w)) in
  set_schedule timeshare (chosen r) ;;
  let active := elected ++ chosen r in
  reset ← restart_laps (new_virtual_time r) (processed r);
  whenM reset reset_virtual_schedule_time ;;
  let vtime := if (reset : bool) then 0 else new_virtual_time r in
  total ← gets (fun s => Z.of_nat (size (witnesses s)));
  let expected_active_witnesses := Z.min SOPHIATX_MAX_WITNESSES (total - skipped r) in
  fc_assert (Z.of_nat (length active) =? expected_active_witnesses) ;;
  private ← is_private_net;
  scheduled ← scheduled_witnesses;
  let required := required_witnesses private w in
  let majority := majority_of required (map snd scheduled) (majority_version w) in
  set_next_hardfork (find_hardfork required (map snd scheduled)) ;;
  now ← head_block_time;
  head ← head_block_num;
  modify_wso (fun w =>
    Ok (new_schedule (map (fun kw => wit_owner (snd kw)) active) (Z.of_nat (length elected))
          (Z.of_nat (length (chosen r))) now head vtime majority w)) ;;
  update_median_witness_props.

Definition update_witness_schedule : DB unit :=
  n ← head_block_num;
  ⌈ (if SOPHIATX_MAX_WITNESSES =? 0 then Throw crash else Ok tt) ⌉ ;;
  whenM (n mod SOPHIATX_MAX_WITNESSES =? 0) update_witness_schedule4.
End schedule.

(** ** Slots in closed form *)
Section slot_lemmas.
  Context {cfg : sophiatx_config}.

Definition slot_base (s : db) : Z :=
  if head_block_number (dgpo s) =? 0 then time (dgpo s)
  else time (dgpo s) / SOPHIATX_BLOCK_INTERVAL * SOPHIATX_BLOCK_INTERVAL.

Lemma slot_base_range s : 0 < SOPHIATX_BLOCK_INTERVAL -> 0 <= time (dgpo s) ->
  0 <= slot_base s <= time (dgpo s).
Proof.
  intros Hi Ht. unfold slot_base. destruct (_ =? 0); [lia|].
  pose proof (Z.mul_div_le (time (dgpo s)) SOPHIATX_BLOCK_INTERVAL Hi).
  pose proof (Z.div_pos (time (dgpo s)) SOPHIATX_BLOCK_INTERVAL Ht Hi). nia.
Qed.

Lemma slot_time_val s n : 0 < SOPHIATX_BLOCK_INTERVAL -> 0 <= time (dgpo s) -> 1 <= n ->
  slot_base s + n * SOPHIATX_BLOCK_INTERVAL < 2^32 ->
  get_slot_time_in s n = slot_base s + n * SOPHIATX_BLOCK_INTERVAL.
Proof.
  intros Hi Ht Hn Hb. pose proof (slot_base_range s Hi Ht) as Hr. unfold get_slot_time_in.
  destruct (n =? 0) eqn:E; bool_simpl; [lia|].
  assert (0 < n * SOPHIATX_BLOCK_INTERVAL) by nia. unfold slot_base, u32 in *.
  set (k := n * SOPHIATX_BLOCK_INTERVAL) in *.
  destruct (head_block_number (dgpo s) =? 0).
  - rewrite (Z.mod_small k), Z.mod_small; lia.
  - set (b := time (dgpo s) / _ * _) in *. rewrite (Z.mod_small k), (Z.mod_small b), Z.mod_small; lia.
Qed.

Lemma slot_at_time_val s when : 0 < SOPHIATX_BLOCK_INTERVAL -> 0 <= time (dgpo s) ->
  slot_base s + SOPHIATX_BLOCK_INTERVAL < 2^32 -> 0 <= when < 2^32 ->
  get_slot_at_time_in s when =
    if when <? slot_base s + SOPHIATX_BLOCK_INTERVAL then 0
    else (when - slot_base s) / SOPHIATX_BLOCK_INTERVAL.
Proof.
  intros Hi Ht Hb Hw. unfold get_slot_at_time_in.
  rewrite slot_time_val by lia. rewrite Z.mul_1_l.
  destruct (_ <? _) eqn:E; bool_simpl; [done|].
  replace (when - slot_base s) with (when - (slot_base s + SOPHIATX_BLOCK_INTERVAL) + 1 * SOPHIATX_BLOCK_INTERVAL) by lia.
  rewrite Z.div_add by lia. apply Z.mod_small.
  pose proof (slot_base_range s Hi Ht).
  assert (0 <= (when - (slot_base s + SOPHIATX_BLOCK_INTERVAL)) / SOPHIATX_BLOCK_INTERVAL < 2^32 - 1); [|lia].
  split; [apply Z.div_pos; lia|]. apply Z.div_lt_upper_bound; [lia|]. nia.
Qed.
End slot_lemmas.

(** ** The shuffle is a permutation. *)
Lemma swap_Permutation {A} i j (l : list A) : swap i j l ≡ₚ l.
Proof.
  unfold swap. destruct (l !! i) as [a|] eqn:Ei; [|done]. destruct (l !! j) as [b|] eqn:Ej; [|done].
  by apply Permutation_insert_swap.
Qed.
Lemma shuffle_from_Permutation {A} left n now (l : list A) : shuffle_from left n now l ≡ₚ l.
Proof.
  revert l. induction left as [|left IH]; intros l; [done|]. cbn [shuffle_from].
  by rewrite IH, swap_Permutation.
Qed.
(** The places after the first [n] are not touched. *)
Lemma swap_lookup_ge {A} i j (l : list A) p : (i < p)%nat -> (j < p)%nat -> swap i j l !! p = l !! p.
Proof.
  intros Hi Hj. unfold swap. destruct (l !! i); [|done]. destruct (l !! j); [|done].
  rewrite !list_lookup_insert_ne; [done|lia..].
Qed.
Lemma shuffle_from_lookup_ge {A} left n now (l : list A) p : Z.of_nat left <= n < 2^32 ->
  n <= Z.of_nat p -> shuffle_from left n now l !! p = l !! p.
Proof.
  revert l. induction left as [|left IH]; intros l Hn Hp; [done|]. cbn [shuffle_from].
  rewrite IH by lia. set (i := n - Z.of_nat (S left)).
  assert (Hj : 0 <= u32 (i + shuffle_random now i mod u32 (n - i)) < n).
  { assert (u32 (n - i) = n - i) as -> by (apply (u_small 32); lia).
    pose proof (Z.mod_pos_bound (shuffle_random now i) (n - i) ltac:(lia)).
    unfold u32. rewrite Z.mod_small; lia. }
  apply swap_lookup_ge; lia.
Qed.

(** ** Vote counts *)
Section tally.
  Context {K : Type} (ltb : K -> K -> bool).
  Context (ltb_irrefl : forall a, ltb a a = false)
          (ltb_trans : forall a b c, ltb a b = true -> ltb b c = true -> ltb a c = true)
          (ltb_total : forall a b, ltb a b = false -> ltb b a = false -> a = b).
  Implicit Types (m : list (K * Z)) (P : K -> bool).

Definition cnt P m : Z := foldr (fun kn acc => (if P (fst kn) then snd kn else 0) + acc) 0 m.
Definition hits P (ks : list K) : Z := foldr (fun k acc => (if P k then 1 else 0) + acc) 0 ks.
  (** Keys in order, counts positive; [b] bounds the counts. *)
Definition tally_ok (b : Z) m : Prop :=
    StronglySorted (fun x y => ltb (fst x) (fst y) = true) m /\ Forall (fun kn => 0 < snd kn <= b) m.

Lemma count_up_keys k m x : x ∈ count_up ltb k m -> fst x = k \/ exists n, (fst x, n) ∈ m.
  Proof.
    induction m as [|[k' n] m IH]; cbn [count_up].
    - intros ->%list_elem_of_singleton. by left.
    - destruct (ltb k k'); [|destruct (ltb k' k)].
      + intros [->|Hx]%elem_of_cons; [by left|]. right. exists (snd x). by destruct x.
      + intros [->|Hx]%elem_of_cons; [right; exists n; by constructor|].
        destruct (IH Hx) as [?|[n' ?]]; [by left|]. right. exists n'. by constructor.
      + intros [->|Hx]%elem_of_cons; right; [exists n; by constructor|].
        exists (snd x). destruct x. by constructor.
  Qed.

Lemma count_up_ok b k m : b < 2^32 - 1 -> 0 <= b -> tally_ok b m -> tally_ok (b + 1) (count_up ltb k m).
  Proof.
    intros Hb Hb0 [Hs Hf]. induction m as [|[k' n] m IH]; cbn [count_up].
    { split; [by repeat constructor|]. constructor; [simpl; lia|done]. }
    inversion Hs as [|? ? Hs' Hlt]. inversion Hf as [|? ? Hn Hf']. subst. simpl in Hn.
    assert (Hf2 : Forall (fun kn => 0 < snd kn <= b + 1) m) by (eapply Forall_impl; [done|]; simpl; lia).
    destruct (ltb k k') eqn:E1; [|destruct (ltb k' k) eqn:E2].
    - split; [constructor; [done|]|].
      + constructor; [done|]. eapply Forall_impl; [exact Hlt|]. intros [k2 n2]. simpl. by apply ltb_trans.
      + repeat (constructor; [simpl; lia|]). done.
    - destruct (IH Hs' Hf') as [IHs IHf]. split; [|constructor; [simpl; lia|done]].
      constructor; [done|]. apply Forall_forall. intros x Hx.
      apply count_up_keys in Hx as [->|[n' Hx]]; [done|].
      rewrite Forall_forall in Hlt. by apply (Hlt (fst x, n')).
    - split; [by constructor|]. constructor; [|done]. simpl. unfold u32. rewrite Z.mod_small; lia.
  Qed.

Lemma cnt_count_up b P k m : b < 2^32 - 1 -> tally_ok b m ->
    cnt P (count_up ltb k m) = (if P k then 1 else 0) + cnt P m.
  Proof.
    intros Hb [Hs Hf]. induction m as [|[k' n] m IH]; cbn [count_up]; [done|].
    inversion Hs as [|? ? Hs' Hlt]. inversion Hf as [|? ? Hn Hf']. subst. simpl in Hn.
    destruct (ltb k k') eqn:E1; [done|destruct (ltb k' k) eqn:E2].
    - simpl. rewrite IH by done. lia.
    - simpl. rewrite <- (ltb_total _ _ E1 E2). unfold u32. rewrite Z.mod_small by lia.
      destruct (P k); lia.
  Qed.

Lemma tally_spec ks : Z.of_nat (length ks) < 2^32 ->
    tally_ok (Z.of_nat (length ks)) (tally ltb ks) /\ forall P, cnt P (tally ltb ks) = hits P ks.
  Proof.
    intros Hl. enough (H : forall m b, 0 <= b -> b + Z.of_nat (length ks) < 2^32 -> tally_ok b m ->
      tally_ok (b + Z.of_nat (length ks)) (fold_left (fun m k => count_up ltb k m) ks m) /\
      forall P, cnt P (fold_left (fun m k => count_up ltb k m) ks m) = cnt P m + hits P ks).
    { destruct (H [] 0 ltac:(lia) ltac:(lia)) as [H1 H2]; [by repeat constructor|].
      rewrite Z.add_0_l in H1. split; [done|]. intros P. exact (H2 P). }
    clear Hl. induction ks as [|k ks IH]; intros m b Hb Hl Hm;
      cbn [length fold_left hits foldr] in *; rewrite ?Nat2Z.inj_succ in *.
    { rewrite Z.add_0_r. split; [done|]. intros. lia. }
    destruct (IH (count_up ltb k m) (b + 1)) as [H1 H2]; [lia..| |].
    { apply count_up_ok; [lia..|done]. }
    split; [by replace (b + Z.succ (Z.of_nat (length ks))) with (b + 1 + Z.of_nat (length ks)) by lia|].
    intros P. rewrite H2, (cnt_count_up b) by (done || lia). fold (hits P ks). lia.
  Qed.
End tally.

(** ** The majority version *)
Lemma cnt_nonneg {K} (P : K -> bool) (m : list (K * Z)) :
  Forall (fun kn => 0 < snd kn) m -> 0 <= cnt P m.
Proof. induction 1 as [|[k n] m Hn Hm IH]; simpl in *; [lia|]. destruct (P k); lia. Qed.

Lemma cnt_none {K} (P : K -> bool) (m : list (K * Z)) :
  Forall (fun kn => P (fst kn) = false) m -> cnt P m = 0.
Proof. induction 1 as [|[k n] m Hk Hm IH]; simpl in *; [done|]. rewrite Hk, IH. done. Qed.

Lemma majority_from_spec acc required m old :
  StronglySorted (fun x y : Z * Z => (fst x >? fst y) = true) m ->
  Forall (fun kn => 0 < snd kn) m -> acc < required ->
  if acc + cnt (fun _ => true) m <? required then majority_from acc required m old = old
  else exists v n, (v, n) ∈ m /\ majority_from acc required m old = v /\
    required <= acc + cnt (fun k => k >=? v) m /\ acc + cnt (fun k => k >? v) m < required.
Proof.
  revert acc. induction m as [|[v n] m IH]; intros acc Hs Hf Hacc.
  { simpl. rewrite Z.add_0_r. by rewrite (proj2 (Z.ltb_lt _ _) Hacc). }
  inversion Hs as [|? ? Hs' Hlt]. inversion Hf as [|? ? Hn Hf']. subst. simpl in Hn.
  assert (Hbelow : forall v', (v', n) ∈ [] \/ v' <= v -> True) by done. clear Hbelow.
  cbn [majority_from cnt foldr fst snd]. fold (cnt (fun _ : Z => true) m).
  pose proof (cnt_nonneg (fun _ => true) m Hf') as Hnn.
  destruct (acc + n >=? required) eqn:E; bool_simpl.
  - rewrite (proj2 (Z.ltb_ge _ _)) by lia. exists v, n. split; [by constructor|]. split; [done|].
    rewrite Z.geb_leb, Z.leb_refl, Z.gtb_ltb, Z.ltb_irrefl.
    fold (cnt (fun k => k >=? v) m) (cnt (fun k => k >? v) m).
    pose proof (cnt_nonneg (fun k => k >=? v) m Hf').
    rewrite (cnt_none (fun k => k >? v)); [lia|]. eapply Forall_impl; [exact Hlt|].
    intros [k x] Hk. simpl in *. apply Z.gtb_ltb in Hk || idtac. rewrite Z.gtb_ltb in *.
    apply Z.ltb_ge. apply Z.ltb_lt in Hk. lia.
  - specialize (IH (acc + n) Hs' Hf' E). rewrite <- Z.add_assoc in IH.
    destruct (_ <? required); [done|]. destruct IH as (v' & n' & Hin & -> & H1 & H2).
    exists v', n'. split; [by constructor|]. split; [done|].
    assert (Hv : v > v').
    { rewrite Forall_forall in Hlt. specialize (Hlt _ Hin). simpl in Hlt. lia. }
    fold (cnt (fun k => k >=? v') m) (cnt (fun k => k >? v') m).
    replace (v >=? v') with true by (symmetry; rewrite Z.geb_leb; apply Z.leb_le; lia).
    replace (v >? v') with true by (symmetry; rewrite Z.gtb_ltb; apply Z.ltb_lt; lia). lia.
Qed.

Lemma hits_filter {K} (P : K -> bool) (ks : list K) :
  hits P ks = Z.of_nat (length (filter (fun k => P k = true) ks)).
Proof.
  induction ks as [|k ks IH]; [done|]. cbn [hits foldr]. fold (hits P ks). rewrite IH, filter_cons.
  destruct (P k); simpl; lia.
Qed.

Lemma gtb_irrefl a : (a >? a) = false.
Proof. rewrite Z.gtb_ltb. apply Z.ltb_irrefl. Qed.
Lemma gtb_trans a b c : (a >? b) = true -> (b >? c) = true -> (a >? c) = true.
Proof. rewrite !Z.gtb_ltb, !Z.ltb_lt. lia. Qed.
Lemma gtb_total a b : (a >? b) = false -> (b >? a) = false -> a = b.
Proof. rewrite !Z.gtb_ltb, !Z.ltb_ge. lia. Qed.

Lemma hf_vote_ltb_irrefl a : hf_vote_ltb a a = false.
Proof. unfold hf_vote_ltb. by rewrite !Z.ltb_irrefl. Qed.
Lemma hf_vote_ltb_trans a b c :
  hf_vote_ltb a b = true -> hf_vote_ltb b c = true -> hf_vote_ltb a c = true.
Proof. unfold hf_vote_ltb. repeat case_match; bool_simpl; intros; bool_simpl; try done; try lia; apply Z.ltb_lt; lia. Qed.
Lemma hf_vote_ltb_total a b : hf_vote_ltb a b = false -> hf_vote_ltb b a = false -> a = b.
Proof.
  destruct a, b. unfold hf_vote_ltb. simpl. repeat case_match; bool_simpl; intros; bool_simpl; try done.
  f_equal; lia.
Qed.

(** ** The choice of the witnesses *)
Section choice.
  Context {cfg : sophiatx_config}.
  Implicit Types ws : list (Z * witness_object).

Definition keyed ws := List.filter (fun kw => has_key (snd kw)) ws.
Definition unkeyed ws := List.filter (fun kw => negb (has_key (snd kw))) ws.
Definition unelected (elected : list Z) ws :=
  List.filter (fun kw => negb (bool_decide (wit_id (snd kw) ∈ elected))) (keyed ws).

(** What the loop over the virtual schedule adds to its state. *)
Lemma run_schedule_spec elected count ws r : count <= SOPHIATX_MAX_WITNESSES ->
  let r' := run_schedule elected count ws r in
  exists done_ rest, ws = done_ ++ rest /\
    chosen r' = chosen r ++ unelected elected done_ /\
    skipped r' = skipped r + Z.of_nat (length (unkeyed done_)) /\
    (rest = [] \/ count + Z.of_nat (length (unelected elected done_)) = SOPHIATX_MAX_WITNESSES) /\
    count + Z.of_nat (length (unelected elected done_)) <= SOPHIATX_MAX_WITNESSES.
Proof.
  revert count r. induction ws as [|[k w] ws IH]; intros count r Hc; cbn [run_schedule].
  { exists [], []. cbn. rewrite !app_nil_r, !Z.add_0_r. repeat split; auto. }
  destruct (count <? SOPHIATX_MAX_WITNESSES) eqn:E; bool_simpl; cycle 1.
  { exists [], ((k, w) :: ws). cbn. rewrite !app_nil_r, !Z.add_0_r.
    repeat split; auto. right. lia. }
  unfold unelected, keyed, unkeyed in *.
  destruct (has_key w) eqn:Hk; cbn [negb]; [destruct (bool_decide (wit_id w ∈ elected)) eqn:He|];
    edestruct IH as (d & rest & -> & H1 & H2 & H3 & H4);
    try (exists ((k, w) :: d), rest; cbn [List.filter snd app]; rewrite Hk; cbn [negb List.filter snd];
         rewrite ?He; cbn [negb length]; rewrite H1, H2; cbn [chosen skipped];
         rewrite <- ?app_assoc; repeat split; try done; try lia; destruct H3; auto; right; lia);
    lia.
Qed.

(** The keys of the table are distinct witnesses: ids are not shared. *)
Definition ids_distinct ws : Prop := NoDup (map (fun kw => wit_id (snd kw)) ws).

Lemma filter_split {A} (p : A -> bool) (l : list A) :
  length l = (length (List.filter p l) + length (List.filter (fun x => negb (p x)) l))%nat.
Proof. induction l as [|x l IH]; simpl; [done|]. destruct (p x); simpl; lia. Qed.

Lemma filter_mono {A} (p : A -> bool) (l1 l2 : list A) :
  (length (List.filter p l1) <= length (List.filter p (l1 ++ l2)))%nat.
Proof. rewrite List.filter_app, length_app. lia. Qed.

(** The witnesses in two orders: the same ids, with or without a key. *)
Definition sig (kw : Z * witness_object) : Z * bool := (wit_id (snd kw), has_key (snd kw)).


Lemma ids_filter p ws : ids_distinct ws -> ids_distinct (List.filter p ws).
Proof.
  unfold ids_distinct. induction ws as [|kw ws IH]; [done|]. cbn [map List.filter].
  intros [Hn Hd]%NoDup_cons. destruct (p kw); [|by apply IH]. cbn [map]. apply NoDup_cons.
  split; [|by apply IH]. intros Hin. apply Hn. apply list_elem_of_In, in_map_iff in Hin as (y & Hy & Hin).
  rewrite <- Hy. apply list_elem_of_In, in_map_iff. exists y. split; [done|]. by apply filter_In in Hin as [? _].
Qed.

Lemma map_take {A B} (f : A -> B) n (l : list A) : map f (take n l) = take n (map f l).
Proof. revert n. induction l as [|x l IH]; intros [|n]; cbn; [done..|]. by rewrite IH. Qed.

Lemma elected_in_schedule max ws1 ws2 : map sig ws1 ≡ₚ map sig ws2 -> ids_distinct ws1 -> ids_distinct ws2 ->
  let elected := map (fun kw => wit_id (snd kw)) (elect max ws1) in
  map (fun kw => wit_id (snd kw))
    (List.filter (fun kw => bool_decide (wit_id (snd kw) ∈ elected)) (keyed ws2)) ≡ₚ elected.
Proof.
  intros Hp Hd1 Hd2 elected. apply NoDup_Permutation.
  - apply ids_filter. by apply ids_filter.
  - unfold elected, elect. rewrite map_take. eapply sublist_NoDup; [|apply sublist_take].
    by apply ids_filter.
  - intros i. split.
    + intros Hi. apply list_elem_of_In, in_map_iff in Hi as (kw & <- & Hi).
      apply list_elem_of_In, elem_of_filter_bool in Hi as [_ Hi]. by apply bool_decide_eq_true in Hi.
    + intros Hi. apply list_elem_of_In, in_map_iff.
      assert (Hk : (i, true) ∈ map sig ws2).
      { rewrite <- Hp. unfold elected in Hi. apply list_elem_of_In, in_map_iff in Hi as (kw & <- & Hi).
        unfold elect in Hi. apply list_elem_of_In, elem_of_take in Hi as (n & Hn & _).
        apply list_elem_of_lookup_2, elem_of_filter_bool in Hn as [Hin Hk].
        apply list_elem_of_In, in_map_iff. exists kw. unfold sig. rewrite Hk.
        by rewrite <- list_elem_of_In. }
      apply list_elem_of_In, in_map_iff in Hk as (kw & [= Hid Hkey] & Hin). exists kw.
      split; [done|]. apply list_elem_of_In, elem_of_filter_bool. rewrite bool_decide_eq_true, Hid.
      split; [|done]. apply elem_of_filter_bool. by rewrite list_elem_of_In.
Qed.

Lemma keyed_split max ws1 ws2 : map sig ws1 ≡ₚ map sig ws2 -> ids_distinct ws1 -> ids_distinct ws2 ->
  length (keyed ws2) = (length (elect max ws1)
    + length (unelected (map (fun kw => wit_id (snd kw)) (elect max ws1)) ws2))%nat.
Proof.
  intros Hp Hd1 Hd2. pose proof (elected_in_schedule max ws1 ws2 Hp Hd1 Hd2) as He. cbv zeta in He.
  apply Permutation_length in He. rewrite !length_map in He. unfold unelected.
  rewrite <- He. apply filter_split.
Qed.
End choice.
