(* ===== verification/Periodic.v ===== *)
(** * Periodic: what every block does after its transactions
    ([chain/database.cpp]: [process_interests], [update_median_feeds],
    [clear_null_account_balance], [process_funds], [process_vesting_withdrawals],
    [account_recovery_processing], [clear_expired_transactions]) and the supply
    check [validate_invariants]. *)
From S2P Require Import Prelude Safe Names Asset Version Config Authority Operations Objects State.
From S2P Require Import Frame Economics Votes Money Balance WitnessSchedule.
Local Open Scope Z_scope.
Local Open Scope list_scope.

(** The objects at the front of an index that satisfy a test. *)
Fixpoint take_while {A} (p : A -> bool) (l : list A) : list A :=
  match l with x :: l' => if p x then x :: take_while p l' else [] | [] => [] end.

Section periodic.
  Context {cfg : sophiatx_config}.

(** ** process_interests *)
Definition account_ref_with_id (id : Z) (s : db) : option (Z * account_object) :=
  List.find (fun ka => acc_id (snd ka) =? id) (map_to_list (accounts s)).

Definition credit_interest (interest : Z) (ao : account_object) : res account_object :=
  b ← amount (balance ao) +! interest;
  let ao := ao <| balance ::= fun x => x <| amount := b |> |> in
  tb ← total_balance ao;
  h ← tb *! SOPHIATX_INTEREST_BLOCKS;
  Ok (ao <| holdings_considered_for_interests := h |>).

(** The interest of one account. *)
Definition pay_interest (k : Z) (supply_increase : Z) : DB Z :=
  head ← head_block_num;
  a ← get accounts k;
  interest ← (if head >? SOPHIATX_INTEREST_DELAY then
                e ← gets econ;
                r ← ⌈ withdraw_interests (holdings_considered_for_interests a)
                        (Z.min SOPHIATX_INTEREST_BLOCKS head) e ⌉;
                modify_econ (fun _ => Ok (fst r)) ;;
                mret (snd r)
              else mret 0);
  increase ← (if interest >? 0 then
                i ← ⌈ supply_increase +! interest ⌉;
                owner ← ⌈ via_string (acc_name a) ⌉;
                push_virtual_operation (op_interest
                  {| io_fee := null_asset; io_owner := owner; io_interest := Asset interest SOPHIATX_SYMBOL |}) ;;
                hf ← has_hardfork SOPHIATX_HARDFORK_1_1;
                whenM hf (adjust_proxied_witness_votes k interest) ;;
                mret i
              else mret supply_increase);
  modify accounts k (credit_interest interest) ;;
  mret increase.

(** Every [SOPHIATX_INTEREST_BLOCKS]-th account from [id] on; each round finds
    another account, so the number of accounts bounds the rounds. *)
Fixpoint interests_loop (fuel : nat) (id : Z) (supply_increase : Z) : DB Z :=
  found ← gets (account_ref_with_id id);
  match found with
  | None => mret supply_increase
  | Some (k, _) =>
      match fuel with
      | O => mthrow crash
      | S fuel =>
          increase ← pay_interest k supply_increase;
          interests_loop fuel (u64 (id + SOPHIATX_INTEREST_BLOCKS)) increase
      end
  end.

Definition process_interests : DB unit :=
  block_no ← head_block_num;
  fuel ← gets (fun s => size (accounts s));
  supply_increase ← interests_loop fuel (block_no mod SOPHIATX_INTEREST_BLOCKS) 0;
  adjust_supply (Asset supply_increase SOPHIATX_SYMBOL).

(** ** update_median_feeds *)
(** [std::sort] of prices; a comparison may throw. *)
Fixpoint insert_price (p : price) (l : list price) : res (list price) :=
  match l with
  | [] => Ok [p]
  | q :: l' => lt ← price_ltb q p;
               if (lt : bool) then l'' ← insert_price p l'; Ok (q :: l'') else Ok (p :: l)
  end.
Definition sort_prices (l : list price) : res (list price) :=
  foldM (fun acc p => insert_price p acc) [] l.

(** The feeds of a witness that are fresh and not null. *)
Definition fresh_feed (now : Z) (r : submitted_exchange_rate) : res bool :=
  if u32 (last_change r + SOPHIATX_MAX_FEED_AGE_SECONDS) >? now then
    n ← price_is_null (rate r); Ok (negb n)
  else Ok false.
Definition add_feed (now : Z) (feeds : gmap Z (list price)) (r : Z * submitted_exchange_rate)
    : res (gmap Z (list price)) :=
  ok ← fresh_feed now (snd r);
  Ok (if (ok : bool) then <[fst r := default [] (feeds !! fst r) ++ [rate (snd r)]]> feeds else feeds).
(** The rates of a witness and the feeds are kept by symbol; the symbols do not
    interfere, so their order is not fixed. *)
Definition publish_median (feeds : list price) (sym : Z) : DB unit :=
  whenM (Z.of_nat (length feeds) >=? SOPHIATX_MIN_FEEDS)
    (f ← ⌈ sort_prices feeds ⌉;
     median_feed ← ⌈ match f !! (length f / 2)%nat with Some p => Ok p | None => Throw crash end ⌉;
     _ ← get_feed_history sym;
     modify feed_histories sym (fun fho =>
       let h := price_history fho ++ [median_feed] in
       Ok (fho <| price_history := if Z.of_nat (length h) >? SOPHIATX_FEED_HISTORY_WINDOW
                                   then tail h else h |>
               <| current_median_history := median_feed |>))).

Definition update_median_feeds : DB unit :=
  n ← head_block_num;
  ⌈ (if SOPHIATX_BLOCKS_PER_HOUR =? 0 then Throw crash else Ok tt) ⌉ ;;
  if negb (n mod SOPHIATX_BLOCKS_PER_HOUR =? 0) then mret tt
  else
    now ← head_block_time;
    ws ← scheduled_witnesses;
    feeds ← ⌈ foldM (fun feeds kw =>
                foldM (add_feed now) feeds (map_to_list (submitted_exchange_rates (snd kw)))) ∅ ws ⌉;
    forM (map_to_list feeds) (fun sf => publish_median (snd sf) (fst sf)).

(** ** clear_null_account_balance *)
Definition clear_null_account_balance : DB unit :=
  let k := data SOPHIATX_NULL_ACCOUNT in
  null_account ← get_account SOPHIATX_NULL_ACCOUNT;
  total ← (if amount (balance null_account) >? 0 then
             t ← ⌈ asset_add (Asset 0 SOPHIATX_SYMBOL) (balance null_account) ⌉;
             neg ← ⌈ asset_neg (balance null_account) ⌉;
             adjust_balance k neg ;;
             mret t
           else mret (Asset 0 SOPHIATX_SYMBOL));
  null_account ← get_account SOPHIATX_NULL_ACCOUNT;
  total ← (if amount (vesting_shares null_account) >? 0 then
             let converted := vesting_shares null_account in
             modify_gpo (fun g => t ← asset_sub (total_vesting_shares g) converted;
                                  Ok (g <| total_vesting_shares := t |>)) ;;
             modify accounts k (fun a => Ok (a <| vesting_shares ::= fun v => v <| amount := 0 |> |>)) ;;
             t ← ⌈ amount total +! amount converted ⌉;
             mret (total <| amount := t |>)
           else mret total);
  whenM (amount total >? 0)
    (neg ← ⌈ asset_neg total ⌉; adjust_supply neg).

(** ** process_funds *)
Definition process_funds : DB unit :=
  p ← gets dgpo;
  w ← gets wso;
  cwit ← get_witness (current_witness p);
  let nominator := match Objects.schedule cwit with
                   | timeshare => timeshare_weight w
                   | top19 => top19_weight w
                   | none_scheduled => 0
                   end in
  block ← gets current_block_num;
  e ← gets econ;
  r ← ⌈ withdraw_mining_reward block nominator (witness_pay_normalization_factor w) e ⌉;
  modify_econ (fun _ => Ok (fst r)) ;;
  let reward := snd r in
  producer ← ⌈ via_string (wit_owner cwit) ⌉;
  push_virtual_operation (op_producer_reward
    {| pr_fee := null_asset; pr_producer := producer; pr_vesting_shares := Asset reward VESTS_SYMBOL |}) ;;
  _ ← get_account (wit_owner cwit);
  create_vesting (data (wit_owner cwit)) (Asset reward VESTS_SYMBOL) ;;
  modify_gpo (fun g =>
    s ← asset_add (current_supply g) (Asset reward SOPHIATX_SYMBOL);
    v ← asset_add (total_vesting_shares g) (Asset reward VESTS_SYMBOL);
    Ok (g <| current_supply := s |> <| total_vesting_shares := v |>)).

(** ** process_vesting_withdrawals *)
Definition withdrawal_order (a : account_object) : list Z :=
  [next_vesting_withdrawal a; data (acc_name a)].

Definition withdrawal_amount (a : account_object) : res Z :=
  left ← to_withdraw a -! withdrawn a;
  if left <? amount (vesting_withdraw_rate a) then
    m ← safe_mod (to_withdraw a) (amount (vesting_withdraw_rate a));
    Ok (Z.min (amount (vesting_shares a)) m)
  else Ok (Z.min (amount (vesting_shares a)) (amount (vesting_withdraw_rate a))).

Definition withdraw_from_vesting (to_withdraw_ : Z) (a : account_object) : res account_object :=
  v ← amount (vesting_shares a) -! to_withdraw_;
  b ← amount (balance a) +! to_withdraw_;
  w ← withdrawn a +! to_withdraw_;
  let a := a <| vesting_shares ::= fun x => x <| amount := v |> |>
             <| balance ::= fun x => x <| amount := b |> |> <| withdrawn := w |> in
  Ok (if (w >=? to_withdraw a) || (v =? 0) then
        a <| vesting_withdraw_rate ::= fun x => x <| amount := 0 |> |>
          <| next_vesting_withdrawal := time_point_sec_maximum |>
      else a <| next_vesting_withdrawal ::= fun t => u32 (t + SOPHIATX_VESTING_WITHDRAW_INTERVAL_SECONDS) |>).

Definition withdraw_step (k : Z) : DB unit :=
  from_account ← get accounts k;
  n ← ⌈ withdrawal_amount from_account ⌉;
  modify accounts k (withdraw_from_vesting n) ;;
  modify_gpo (fun g =>
    t ← amount (total_vesting_shares g) -! n;
    Ok (g <| total_vesting_shares ::= fun x => x <| amount := t |> |>)) ;;
  name ← ⌈ via_string (acc_name from_account) ⌉;
  push_virtual_operation (op_fill_vesting_withdraw
    {| fv_fee := null_asset; fv_from_account := name; fv_to_account := name;
       fv_withdrawn := Asset n VESTS_SYMBOL; fv_deposited := Asset n SOPHIATX_SYMBOL |}).

(** [++current] on the index by next withdrawal: the account after [a]. *)
Definition next_withdrawal (a : account_object) (s : db) : option Z :=
  fst <$> List.find (fun kb => negb (lex_leb (withdrawal_order (snd kb)) (withdrawal_order a)))
            (index_by withdrawal_order (accounts s)).
Definition first_withdrawal (s : db) : option Z :=
  fst <$> head (index_by withdrawal_order (accounts s)).

(** The iterator moves on before the account it leaves is changed, and thereby
    moved back in the index: an account can come up again. *)
Fixpoint withdrawals_loop (fuel : nat) (current : option Z) : DB unit :=
  match current with
  | None => mret tt
  | Some k =>
      a ← get accounts k;
      now ← head_block_time;
      if next_vesting_withdrawal a <=? now then
        match fuel with
        | O => mthrow crash
        | S fuel =>
            current ← gets (next_withdrawal a);
            withdraw_step k ;;
            withdrawals_loop fuel current
        end
      else mret tt
  end.

(** How often an account can come up: once per interval until [now]. *)
Definition withdrawals_due (now : Z) (a : account_object) : Z :=
  if next_vesting_withdrawal a <=? now
  then (now - next_vesting_withdrawal a) / SOPHIATX_VESTING_WITHDRAW_INTERVAL_SECONDS + 1 else 0.
Definition withdrawals_fuel (s : db) : nat :=
  Z.to_nat (map_sum (withdrawals_due (time (dgpo s))) (accounts s)).

Definition process_vesting_withdrawals : DB unit :=
  fuel ← gets withdrawals_fuel;
  first ← gets first_withdrawal;
  withdrawals_loop fuel first.

(** ** account_recovery_processing *)
Definition expired_requests (now : Z) (s : db) : list (Z * account_recovery_request_object) :=
  take_while (fun kr => expires (snd kr) <=? now)
    (index_by (fun r => [expires r; data (arr_account_to_recover r)]) (recovery_requests s)).
Definition old_authorities (now : Z) (s : db) : list (Z * owner_authority_history_object) :=
  take_while (fun kh => u32 (last_valid_time (snd kh) + SOPHIATX_OWNER_AUTH_RECOVERY_PERIOD) <? now)
    (index_by (fun h => [oh_id h]) (owner_history s)).
Definition effective_changes (now : Z) (s : db) : list (Z * change_recovery_account_request_object) :=
  take_while (fun kc => effective_on (snd kc) <=? now)
    (index_by (fun c => [effective_on c; data (crr_account_to_recover c)]) (change_recovery_requests s)).

Definition account_recovery_processing : DB unit :=
  now ← head_block_time;
  rs ← gets (expired_requests now);
  forM rs (fun kr => remove recovery_requests (fst kr)) ;;
  hs ← gets (old_authorities now);
  forM hs (fun kh => remove owner_history (fst kh)) ;;
  cs ← gets (effective_changes now);
  forM cs (fun kc =>
    _ ← get_account (crr_account_to_recover (snd kc));
    modify accounts (data (crr_account_to_recover (snd kc)))
      (fun a => Ok (a <| recovery_account := crr_recovery_account (snd kc) |>)) ;;
    remove change_recovery_requests (fst kc)).

(** ** clear_expired_transactions *)
Definition expired_transactions (now : Z) (s : db) : list (hash160 * transaction_object) :=
  take_while (fun kt => now >? txo_expiration (snd kt))
    (index_by (fun t => [txo_expiration t; txo_id t]) (transactions s)).
Definition clear_expired_transactions : DB unit :=
  now ← head_block_time;
  ts ← gets (expired_transactions now);
  forM ts (fun kt => remove transactions (fst kt)).

(** ** validate_invariants *)
Definition sum_assets (a : asset) (l : list asset) : res asset := foldM asset_add a l.
Definition escrow_assets (e : escrow_object) : res (list asset) :=
  if symbol (pending_fee e) =? SOPHIATX_SYMBOL then Ok [sophiatx_balance e; pending_fee e]
  else Throw assert_exception.

Definition validate_invariants : DB unit :=
  private ← is_private_net;
  if (private : bool) then mret tt
  else
    g ← gets dgpo;
    e ← gets econ;
    ws ← gets (fun s => map_to_list (witnesses s));
    forM ws (fun kw => fc_assert (votes (snd kw) <=? amount (current_supply g))) ;;
    accs ← gets (fun s => map snd (map_to_list (accounts s)));
    total_supply ← ⌈ sum_assets (Asset 0 SOPHIATX_SYMBOL) (map balance accs) ⌉;
    total_vesting ← ⌈ sum_assets (Asset 0 VESTS_SYMBOL) (map vesting_shares accs) ⌉;
    escs ← gets (fun s => map snd (map_to_list (escrows s)));
    total_supply ← ⌈ foldM (fun t esc => l ← escrow_assets esc; sum_assets t l) total_supply escs ⌉;
    all ← ⌈ asset_add total_supply (Asset (amount total_vesting) SOPHIATX_SYMBOL) ⌉;
    fc_assert (asset_eqb (current_supply g) all) ;;
    fc_assert (asset_eqb (total_vesting_shares g) total_vesting) ;;
    t ← ⌈ foldM safe_add (amount (current_supply g))
            [interest_pool_from_fees e; interest_pool_from_coinbase e; mining_pool_from_fees e;
             mining_pool_from_coinbase e; promotion_pool e; burn_pool e] ⌉;
    fc_assert (t =? SOPHIATX_TOTAL_SUPPLY).
End periodic.

(** ** Effects on the coins *)
Section effects.
  Context {cfg : sophiatx_config}.

Lemma credit_interest_money i a a' : credit_interest i a = Ok a' ->
  acc_liquid a' = acc_liquid a + i /\ acc_vested a' = acc_vested a.
Proof. unfold credit_interest. intros H. minv. safe_vals. subst. done. Qed.

(** What is in the pools and the other part of the model. *)
Lemma money_set_econ_sub e r s : pools_total e = pools_total (econ s) - r ->
  money_of (s <| econ := e |>) = (money_of s) <| m_pools ::= fun x => x - r |>.
Proof. intros He. unfold Z.sub in *. by apply money_set_econ. Qed.

(** The withdrawal of an interest: 0 before the delay is over. *)
Lemma interest_withdrawn (h p : Z) (b : bool) s (r : Z) s1 : config_ok ->
  accumulated_supply (econ s) <= INT64_MAX -> interest_pool_from_coinbase (econ s) <= INT64_MAX ->
  (if b then e ← gets econ; x ← ⌈ withdraw_interests h p e ⌉; modify_econ (fun _ => Ok (fst x)) ;; mret (snd x)
   else mret 0) s = Ok (r, s1) ->
  exists e, s1 = s <| econ := e |> /\ pools_total e = pools_total (econ s) - r /\ 0 <= r /\
    accumulated_supply e = accumulated_supply (econ s) /\
    interest_pool_from_coinbase e <= interest_pool_from_coinbase (econ s).
Proof.
  intros Hok Ha Hp H. destruct b; cycle 1.
  { apply ret_Ok in H as [= -> ->]. exists (econ s). destruct s; repeat split; simpl; lia. }
  apply bind_Ok in H as (e & s2 & He & H). apply gets_Ok in He as [-> ->].
  apply bind_Ok in H as ([e' r'] & s2 & Hr & H). apply lift_Ok in Hr as [Hr ->].
  apply bind_Ok in H as ([] & s2 & Hm & H). apply modify_econ_Ok in Hm as (e2 & [= <-] & ->).
  apply ret_Ok in H. cbn [fst snd] in H. exists e'.
  pose proof (withdraw_interests_total _ _ _ _ _ Hr) as Ht.
  pose proof (withdraw_interests_bounds _ _ _ _ _ Hok Ha Hp Hr) as (H0 & _ & H2 & H3).
  injection H as -> ->. repeat split; [done..|lia].
Qed.

(** Interest moves from the pools to a balance; the supply is adjusted at the end. *)
Lemma pay_interest_spec k inc s inc' s' : config_ok ->
  accumulated_supply (econ s) <= INT64_MAX -> interest_pool_from_coinbase (econ s) <= INT64_MAX ->
  pay_interest k inc s = Ok (inc', s') -> exists i, 0 <= i /\ inc' = inc + i /\
    money_of s' = (money_of s) <| m_liquid ::= Z.add i |> <| m_pools ::= fun x => x - i |> /\
    escrows s' = escrows s /\ accumulated_supply (econ s') = accumulated_supply (econ s) /\
    interest_pool_from_coinbase (econ s') <= interest_pool_from_coinbase (econ s).
Proof.
  intros Hok Ha Hp H. unfold pay_interest in H.
  apply bind_Ok in H as (head & s1 & Hh & H). apply gets_Ok in Hh as [-> ->].
  apply bind_Ok in H as (a & s1 & Hg & H). apply get_Ok in Hg as [_ ->].
  apply bind_Ok in H as (i & s1 & Hi & H). apply interest_withdrawn in Hi; [|done..].
  destruct Hi as (e & -> & Ht & Hi & Hae & Hpe).
  apply bind_Ok in H as (inc2 & s2 & Hinc & H).
  assert (Hinc2 : inc2 = inc + i).
  { destruct (i >? 0) eqn:E; bool_simpl.
    - apply bind_Ok in Hinc as (i2 & s3 & Hi2 & Hinc). apply lift_Ok in Hi2 as [Hi2 _].
      apply safe_add_val in Hi2. do 4 (apply bind_Ok in Hinc as (? & ? & _ & Hinc)).
      apply ret_Ok in Hinc. by injection Hinc as -> _.
    - apply ret_Ok in Hinc. injection Hinc as -> _. lia. }
  keeps_of Hinc F1. frame_of escrows Hinc F2. frame_of econ Hinc F3. clear Hinc.
  cbn [upd escrows econ] in F2, F3.
  apply bind_Ok in H as ([] & s3 & Hm & H). apply ret_Ok in H. injection H as -> ->.
  apply modify_Ok in Hm as (a1 & a2 & Ha1 & Hc & ->). apply credit_interest_money in Hc as [C1 C2].
  exists i. split; [done|]. split; [done|]. split.
  - erewrite money_set_account by done. rewrite C1, C2, F1, (money_set_econ_sub _ _ _ Ht).
    destruct (money_of s). simpl. f_equal; lia.
  - cbn [upd escrows econ]. rewrite F2, F3. repeat split; [done..|lia].
Qed.

Lemma interests_loop_spec fuel id inc s inc' s' : config_ok ->
  accumulated_supply (econ s) <= INT64_MAX -> interest_pool_from_coinbase (econ s) <= INT64_MAX ->
  interests_loop fuel id inc s = Ok (inc', s') -> exists i, 0 <= i /\ inc' = inc + i /\
    money_of s' = (money_of s) <| m_liquid ::= Z.add i |> <| m_pools ::= fun x => x - i |> /\
    escrows s' = escrows s /\ accumulated_supply (econ s') = accumulated_supply (econ s) /\
    interest_pool_from_coinbase (econ s') <= interest_pool_from_coinbase (econ s).
Proof.
  intros Hok. revert id inc s. induction fuel as [|fuel IH]; intros id inc s Ha Hp H;
    cbn [interests_loop] in H; apply bind_Ok in H as (found & s1 & Hf & H);
    apply gets_Ok in Hf as [_ ->]; destruct found as [[k a]|];
    try (by apply throw_Ok in H as []);
    try (apply ret_Ok in H; injection H as -> ->; exists 0; split; [lia|]; split; [lia|];
         split; [destruct (money_of s); simpl; f_equal; lia|repeat split; lia]).
  apply bind_Ok in H as (inc1 & s1 & H1 & H).
  apply pay_interest_spec in H1 as (i & Hi & -> & Hm & He & Hae & Hpe); [|done..].
  apply IH in H as (j & Hj & -> & Hm' & He' & Hae' & Hpe'); [|lia..].
  exists (i + j). split; [lia|]. split; [lia|]. split.
  - rewrite Hm', Hm. destruct (money_of s). simpl. f_equal; lia.
  - repeat split; [congruence..|lia].
Qed.

Lemma process_interests_spec s u s' : config_ok ->
  accumulated_supply (econ s) <= INT64_MAX -> interest_pool_from_coinbase (econ s) <= INT64_MAX ->
  process_interests s = Ok (u, s') -> imbalance s' = imbalance s /\ escrows s' = escrows s /\
    accumulated_supply (econ s') = accumulated_supply (econ s) /\
    interest_pool_from_coinbase (econ s') <= interest_pool_from_coinbase (econ s).
Proof.
  intros Hok Ha Hp H. unfold process_interests in H.
  apply bind_Ok in H as (n & s1 & Hn & H). apply gets_Ok in Hn as [-> ->].
  apply bind_Ok in H as (fuel & s1 & Hn & H). apply gets_Ok in Hn as [-> ->].
  apply bind_Ok in H as (inc & s1 & Hl & H).
  apply interests_loop_spec in Hl as (i & Hi & -> & Hm & He & Hae & Hpe); [|done..].
  frame_of escrows H E1. frame_of econ H E2.
  apply adjust_supply_money in H. split; [|repeat split; congruence].
  apply imbalance_eq. rewrite H, Hm. destruct (money_of s). defects_lia.
Qed.

(** The producer of a block gets its reward as vesting shares. *)
Lemma process_funds_conserves : conserves process_funds.
Proof.
  intros s u s' H. unfold process_funds in H.
  do 5 (apply bind_Ok in H as (? & ? & H1 & H); first [apply gets_Ok in H1 as [-> ->]
    | apply get_Ok in H1 as [_ ->]]; cbv zeta in H).
  apply bind_Ok in H as ([e r] & s1 & Hr & H). apply lift_Ok in Hr as [Hr ->].
  apply withdraw_mining_reward_total in Hr.
  apply bind_Ok in H as ([] & s1 & Hm & H). apply modify_econ_Ok in Hm as (e2 & [= <-] & ->).
  cbn [fst snd] in H. apply bind_Ok in H as (p & s1 & Hp & H). apply lift_Ok in Hp as [_ ->].
  apply bind_Ok in H as ([] & s1 & Hv & H).
  keeps_of Hv Mv.
  apply bind_Ok in H as (a & s2 & Hg & H). apply get_Ok in Hg as [_ ->].
  apply bind_Ok in H as ([] & s3 & Hc & H). apply create_vesting_money in Hc.
  apply modify_gpo_Ok in H as (g & Hg & ->). apply rbind_Ok in Hg as (cs & Hcs & Hg).
  apply rbind_Ok in Hg as (tv & Htv & [= <-]).
  apply asset_add_amount in Hcs as [Hcs _]. apply asset_add_amount in Htv as [Htv _].
  apply imbalance_eq. erewrite money_set_gpo by (simpl; eassumption).
  rewrite Hc, Mv, (money_set_econ_sub _ _ _ Hr). destruct (money_of s). defects_lia.
Qed.

(** Vesting withdrawals turn vesting shares back into liquid coins. *)
Lemma withdraw_from_vesting_money n a a' : withdraw_from_vesting n a = Ok a' ->
  acc_liquid a' = acc_liquid a + n /\ acc_vested a' = acc_vested a - n.
Proof.
  unfold withdraw_from_vesting. intros H. minv. safe_vals. subst.
  destruct (_ || _); unfold acc_liquid, acc_vested; simpl; lia.
Qed.

Lemma withdraw_step_conserves k : conserves (withdraw_step k).
Proof.
  intros s u s' H. unfold withdraw_step in H.
  apply bind_Ok in H as (a & s1 & Hg & H). apply get_Ok in Hg as [Ha ->].
  apply bind_Ok in H as (n & s1 & Hn & H). apply lift_Ok in Hn as [_ ->].
  apply bind_Ok in H as ([] & s1 & Hm & H). apply modify_Ok in Hm as (a1 & a2 & Ha1 & Hw & ->).
  apply withdraw_from_vesting_money in Hw as [W1 W2].
  apply bind_Ok in H as ([] & s1 & Hm & H). apply modify_gpo_Ok in Hm as (g & Hg & ->).
  apply rbind_Ok in Hg as (t & Ht & [= <-]). apply safe_sub_val in Ht. cbn [upd dgpo] in Ht.
  keeps_of H M. apply imbalance_eq. rewrite M.
  erewrite (money_set_gpo _ 0 (- n)) by (simpl; lia). erewrite money_set_account by done.
  rewrite W1, W2. destruct (money_of s). defects_lia.
Qed.

Lemma frames_withdrawals_loop {T} (f : db -> T) fuel cur :
  (forall k, frames f (withdraw_step k)) -> frames f (withdrawals_loop fuel cur).
Proof.
  intros Hf. revert cur. induction fuel as [|fuel IH]; intros cur; cbn [withdrawals_loop]; frame; auto.
Qed.
Lemma process_vesting_withdrawals_conserves : conserves process_vesting_withdrawals.
Proof.
  unfold process_vesting_withdrawals. frame. apply frames_withdrawals_loop, withdraw_step_conserves.
Qed.

(** Coins of the null account are destroyed: they leave the supply and reach no
    pool. *)
Definition null_coins (s : db) : Z :=
  match accounts s !! data SOPHIATX_NULL_ACCOUNT with
  | Some a => Z.max 0 (acc_liquid a) + Z.max 0 (acc_vested a)
  | None => 0
  end.

Lemma clear_null_balance_spec k s a u s1 neg : accounts s !! k = Some a ->
  asset_neg (balance a) = Ok neg -> adjust_balance k neg s = Ok (u, s1) ->
  money_of s1 = (money_of s) <| m_liquid ::= fun x => x - acc_liquid a |>.
Proof.
  intros Ha Hn H. apply asset_neg_amount in Hn as [En _]. apply adjust_balance_money in H.
  rewrite H, En. unfold acc_liquid. destruct (money_of s). simpl. f_equal; lia.
Qed.

(** Only the liquid balance of an account changes with [adjust_balance]. *)
Lemma add_proxied_vested i d a a' : add_proxied i d a = Ok a' -> vesting_shares a' = vesting_shares a.
Proof. unfold add_proxied. case_match; intros; minv. done. Qed.

Definition vested_at (k : Z) (s : db) : option asset := vesting_shares <$> accounts s !! k.
Lemma frames_vested_modify k k' g : (forall a a', g a = Ok a' -> vesting_shares a' = vesting_shares a) ->
  frames (vested_at k) (modify accounts k' g).
Proof.
  intros Hg s u s' H. apply modify_Ok in H as (a & a' & Ha & Hga & ->). unfold vested_at. simpl.
  destruct (decide (k = k')) as [->|Hn]; [|by rewrite lookup_insert_ne].
  rewrite lookup_insert_eq, Ha. simpl. f_equal. by apply Hg.
Qed.
Lemma frames_vested_adjust k k' d : frames (vested_at k) (adjust_balance k' d).
Proof.
  unfold adjust_balance, modify_balance, adjust_proxied_witness_votes. frame.
  - apply frames_vested_modify. intros ac ac' H. minv.
    match goal with H : update_considered_holding _ _ _ = Ok _ |- _ =>
      apply update_considered_holding_money in H as [_ E2] end. exact E2.
  - generalize 4%nat as left. intros left. revert k'.
    induction left as [|left IH]; intros k'; cbn [adjust_proxied_from]; frame.
    apply frames_vested_modify. intros ? ?. apply add_proxied_vested.
Qed.

Lemma clear_null_spec s u s' : clear_null_account_balance s = Ok (u, s') ->
  defects (money_of s') = let '(d1, d2, d3) := defects (money_of s) in (d1, d2, d3 - null_coins s).
Proof.
  intros H. unfold clear_null_account_balance in H. cbv zeta in H.
  set (k := data SOPHIATX_NULL_ACCOUNT) in *.
  apply bind_Ok in H as (a & s1 & Ha & H). apply get_Ok in Ha as [Ha ->].
  assert (Hnull : null_coins s = Z.max 0 (acc_liquid a) + Z.max 0 (acc_vested a)).
  { unfold null_coins. by rewrite Ha. }
  rewrite Hnull. clear Hnull.
  apply bind_Ok in H as (t1 & s1 & H1 & H).
  assert (M1 : amount t1 = Z.max 0 (acc_liquid a) /\ vested_at k s1 = vested_at k s /\
    money_of s1 = (money_of s) <| m_liquid ::= fun x => x - Z.max 0 (acc_liquid a) |>).
  { destruct (_ >? 0) eqn:E; bool_simpl.
    - apply bind_Ok in H1 as (t & s2 & Ht & H1). apply lift_Ok in Ht as [Ht ->].
      apply asset_add_amount in Ht as [Ht _]. simpl in Ht.
      apply bind_Ok in H1 as (neg & s2 & Hn & H1). apply lift_Ok in Hn as [Hn ->].
      apply bind_Ok in H1 as ([] & s2 & Hb & H1). apply ret_Ok, pair_eq in H1 as [-> ->].
      pose proof (frames_vested_adjust k _ _ _ _ _ Hb) as Hv.
      apply (clear_null_balance_spec _ _ _ _ _ _ Ha Hn) in Hb. unfold acc_liquid in *.
      rewrite Z.max_r by lia. split; [lia|]. by split.
    - apply ret_Ok, pair_eq in H1 as [-> ->]. unfold acc_liquid. rewrite Z.max_l by lia.
      split; [done|]. split; [done|]. destruct (money_of s). simpl. f_equal; lia. }
  destruct M1 as (T1 & V1 & M1). clear H1.
  apply bind_Ok in H as (a1 & s2 & Ha1 & H). apply get_Ok in Ha1 as [Ha1 ->].
  assert (acc_vested a1 = acc_vested a) as Ev.
  { unfold vested_at in V1. fold k in Ha, Ha1. rewrite Ha, Ha1 in V1. simpl in V1. injection V1 as V1. unfold acc_vested. by rewrite V1. }
  apply bind_Ok in H as (t2 & s2 & H2 & H).
  assert (M2 : amount t2 = Z.max 0 (acc_liquid a) + Z.max 0 (acc_vested a) /\
    money_of s2 = (money_of s1) <| m_vested ::= fun x => x - Z.max 0 (acc_vested a) |>
                                <| m_tvest ::= fun x => x - Z.max 0 (acc_vested a) |>).
  { rewrite <- Ev. unfold acc_vested. destruct (_ >? 0) eqn:E; bool_simpl.
    - apply bind_Ok in H2 as ([] & s3 & Hg & H2). apply modify_gpo_Ok in Hg as (g & Hg & ->).
      apply rbind_Ok in Hg as (t & Ht & [= <-]). apply asset_sub_amount in Ht as [Ht _].
      apply bind_Ok in H2 as ([] & s3 & Hm & H2). apply modify_Ok in Hm as (a2 & a3 & Ha2 & [= <-] & ->).
      cbn [upd accounts] in Ha2. fold k in Ha1. rewrite Ha1 in Ha2. injection Ha2 as <-.
      apply bind_Ok in H2 as (t3 & s3 & Ht3 & H2). apply lift_Ok in Ht3 as [Ht3 ->].
      apply safe_add_val in Ht3. apply ret_Ok, pair_eq in H2 as [-> ->].
      rewrite (Z.max_r 0 (amount (vesting_shares a1))) by lia.
      split; [simpl; lia|]. erewrite money_set_account by done.
      rewrite (money_set_gpo _ 0 (- amount (vesting_shares a1))) by (simpl; lia).
      destruct (money_of s1). unfold acc_liquid, acc_vested. simpl. f_equal; lia.
    - apply ret_Ok, pair_eq in H2 as [-> ->]. rewrite (Z.max_l 0 (amount (vesting_shares a1))) by lia.
      split; [lia|]. destruct (money_of s1). simpl. f_equal; lia. }
  destruct M2 as (T2 & M2). clear H2.
  assert (M3 : money_of s' = (money_of s2) <| m_supply ::= fun x => x - amount t2 |>).
  { unfold whenM in H. destruct (_ >? 0) eqn:E; bool_simpl.
    - apply bind_Ok in H as (neg & s3 & Hn & H). apply lift_Ok in Hn as [Hn ->].
      apply asset_neg_amount in Hn as [Hn _]. apply adjust_supply_money in H.
      rewrite H, Hn. destruct (money_of s2). simpl. f_equal; lia.
    - apply ret_Ok, (f_equal snd) in H. cbn [snd] in H. rewrite H.
      destruct (money_of s2). simpl. f_equal; lia. }
  rewrite M3, M2, M1, T2. destruct (money_of s). unfold defects. simpl. f_equal; [f_equal|]; lia.
Qed.
End effects.
