(* ===== verification/Hardforks.v ===== *)
(** * Hardforks: scheduled protocol changes ([chain/database.cpp]:
    [init_hardforks], [process_hardforks], [set_hardfork], [apply_hardfork]). *)
From S2P Require Import Prelude Safe Names Asset Version Config Authority Operations Objects State.
From S2P Require Import Frame Economics Votes Money.
Local Open Scope Z_scope.
Local Open Scope list_scope.

(** The arrays [_hardfork_times] and [_hardfork_versions] as [init_hardforks]
    fills them; the first time is the genesis time. *)
Definition hardfork_times (s : db) : list Z :=
  [gpo_genesis_time (dgpo s); SOPHIATX_HARDFORK_1_1_TIME; SOPHIATX_HARDFORK_1_2_TIME].
Definition hardfork_versions : list Z :=
  [hardfork_version 1 0; SOPHIATX_HARDFORK_1_1_VERSION; SOPHIATX_HARDFORK_1_2_VERSION].
Definition array_at (l : list Z) (i : Z) : res Z :=
  if i <? 0 then Throw crash
  else match l !! Z.to_nat i with Some x => Ok x | None => Throw crash end.

(** The assertions of [init_hardforks]; [hardfork_version >= version] compares
    with the revision dropped. *)
Definition init_hardforks : DB unit :=
  fc_assert (SOPHIATX_HARDFORK_1_1 =? 1) ;;
  fc_assert (SOPHIATX_HARDFORK_1_2 =? 2) ;;
  h ← gets hpo;
  fc_assert (last_hardfork h <=? SOPHIATX_NUM_HARDFORKS) ;;
  v ← ⌈ array_at hardfork_versions (last_hardfork h) ⌉;
  fc_assert (v <=? hardfork_of_version SOPHIATX_BLOCKCHAIN_VERSION) ;;
  fc_assert (hardfork_of_version SOPHIATX_BLOCKCHAIN_VERSION <=? SOPHIATX_BLOCKCHAIN_HARDFORK_VERSION) ;;
  last ← ⌈ array_at hardfork_versions SOPHIATX_NUM_HARDFORKS ⌉;
  fc_assert (SOPHIATX_BLOCKCHAIN_HARDFORK_VERSION =? last).

Section hardforks.
  Context {cfg : sophiatx_config}.

Definition record_hardfork (times : list Z) (hardfork : Z) (h : hardfork_property_object)
    : res hardfork_property_object :=
  fc_assert (hardfork =? u32 (last_hardfork h + 1)) ;;
  fc_assert (Z.of_nat (length (processed_hardforks h)) =? hardfork) ;;
  t ← array_at times hardfork;
  v ← array_at hardfork_versions hardfork;
  let h := h <| processed_hardforks ::= fun l => l ++ [t] |> <| last_hardfork := hardfork |>
             <| current_hardfork_version := v |> in
  p ← array_at (processed_hardforks h) hardfork;
  fc_assert (p =? t) ;;
  Ok h.

Definition apply_hardfork (hardfork : Z) : DB unit :=
  whenM (hardfork =? SOPHIATX_HARDFORK_1_1) recalculate_all_votes ;;
  times ← gets hardfork_times;
  modify_hpo (record_hardfork times hardfork) ;;
  push_virtual_operation (op_hardfork {| hf_fee := null_asset; hardfork_id := hardfork |}).

(** Each round applies one of the hardforks left or throws. *)
Fixpoint process_hardforks_loop (fuel : nat) : DB unit :=
  h ← gets hpo;
  now ← head_block_time;
  v ← ⌈ array_at hardfork_versions (last_hardfork h) ⌉;
  if (v <? next_hardfork h) && (next_hardfork_time h <=? now) then
    if last_hardfork h <? SOPHIATX_NUM_HARDFORKS then
      match fuel with
      | O => mthrow crash
      | S fuel => apply_hardfork (last_hardfork h + 1) ;; process_hardforks_loop fuel
      end
    else mthrow unknown_hardfork_exception
  else mret tt.
Definition process_hardforks : DB unit :=
  h ← gets hpo;
  process_hardforks_loop (Z.to_nat (SOPHIATX_NUM_HARDFORKS - last_hardfork h)).

(** [for( i = last_hardfork + 1; i <= hardfork && i <= SOPHIATX_NUM_HARDFORKS; i++ )] *)
Definition set_hardfork (hardfork : Z) (apply_now : bool) : DB unit :=
  h ← gets hpo;
  forM (seqZ (last_hardfork h + 1) (Z.min hardfork SOPHIATX_NUM_HARDFORKS - last_hardfork h)) (fun i =>
    v ← ⌈ array_at hardfork_versions i ⌉;
    now ← head_block_time;
    modify_hpo (fun h => Ok (h <| next_hardfork := v |> <| next_hardfork_time := now |>)) ;;
    whenM apply_now (apply_hardfork i)).

(** ** A hardfork is applied once and in order. *)
Definition hardforks_ok (s : db) : Prop :=
  0 <= last_hardfork (hpo s) <= SOPHIATX_NUM_HARDFORKS /\
  processed_hardforks (hpo s) = take (Z.to_nat (last_hardfork (hpo s) + 1)) (hardfork_times s) /\
  array_at hardfork_versions (last_hardfork (hpo s)) = Ok (current_hardfork_version (hpo s)).

Lemma modify_hpo_Ok f s u s1 : modify_hpo f s = Ok (u, s1) <->
  exists h, f (hpo s) = Ok h /\ s1 = s <| hpo := h |>.
Proof. unfold modify_hpo. destruct (f (hpo s)), u; naive_solver. Qed.

Lemma array_at_Ok l i x : array_at l i = Ok x <-> 0 <= i /\ l !! Z.to_nat i = Some x.
Proof.
  unfold array_at. destruct (i <? 0) eqn:E; bool_simpl; [split; [done|lia]|].
  destruct (l !! Z.to_nat i); (split; [intros Hx|intros [_ Hx]]); try discriminate Hx;
    injection Hx as ->; by repeat split.
Qed.

Lemma frames_recalculate {T} (f : db -> T) `{!Indep accounts f} `{!Indep witnesses f} :
  frames f recalculate_all_votes.
Proof. unfold recalculate_all_votes. frame. Qed.

Lemma apply_hardfork_spec n s u s' : hardforks_ok s -> apply_hardfork n s = Ok (u, s') ->
  n = last_hardfork (hpo s) + 1 /\ n <= SOPHIATX_NUM_HARDFORKS /\ last_hardfork (hpo s') = n /\
  next_hardfork (hpo s') = next_hardfork (hpo s) /\ dgpo s' = dgpo s /\ hardforks_ok s'.
Proof.
  intros (Hr & Hp & Hv) H. unfold apply_hardfork in H.
  apply bind_Ok in H as ([] & s1 & H1 & H).
  assert (F : (hpo s1, dgpo s1) = (hpo s, dgpo s)).
  { unfold whenM in H1. destruct (n =? _); [|by apply ret_Ok in H1 as [= ->]].
    refine (frames_run (fun s => (hpo s, dgpo s)) _ _ _ _ H1 _). apply frames_recalculate; apply _. }
  clear H1. injection F as Fh Fd. apply bind_Ok in H as (times & s2 & Ht & H). apply gets_Ok in Ht as [-> ->].
  apply bind_Ok in H as ([] & s2 & Hm & H). apply modify_hpo_Ok in Hm as (h & Hh & ->).
  assert (G : hpo s' = h /\ dgpo s' = dgpo s1).
  { split; [frame_of hpo H G|frame_of dgpo H G]; exact G. }
  clear H. unfold record_hardfork in Hh. rewrite Fh in Hh. minv. bool_simpl. destruct G as [Gh Gd].
  repeat match goal with H : array_at _ _ = Ok _ |- _ => apply array_at_Ok in H as [_ ?] end.
  unfold SOPHIATX_NUM_HARDFORKS in *.
  assert (Hn : n = last_hardfork (hpo s) + 1).
  { unfold u32 in *. rewrite Z.mod_small in *; lia. }
  assert (Hn2 : n <= 2).
  { match goal with H : hardfork_versions !! _ = Some _ |- _ => apply lookup_lt_Some in H; simpl in H; lia end. }
  rewrite Gh, Gd. cbn [upd hpo dgpo last_hardfork next_hardfork].
  split; [done|]. split; [done|]. split; [done|]. split; [done|]. split; [exact Fd|].
  unfold hardforks_ok. rewrite Gh. unfold hardfork_times. rewrite Gd.
  cbn [upd hpo dgpo last_hardfork processed_hardforks current_hardfork_version]. rewrite Fd.
  unfold SOPHIATX_NUM_HARDFORKS. split; [lia|]. split.
  - rewrite Hp. unfold hardfork_times in *. rewrite Fd in *.
    match goal with H : [_; _; _] !! _ = Some ?t |- _ => rename H into Hl end.
    replace (Z.to_nat (n + 1)) with (S (Z.to_nat n)) by lia.
    rewrite (take_S_r _ _ _ Hl), Hn. done.
  - apply array_at_Ok. split; [lia|done].
Qed.
End hardforks.
