(* ===== verification/Blocks.v ===== *)
(** * Blocks: the application of a block to the chain state
    ([database::_apply_block], [apply_block] and their parts).

    The irreversible block number is computed here; what the node does with it
    outside the state (committing undo sessions, writing the block log, bounding
    the fork database) is the business of [Chainbase] and [ForkDb]. *)
From Stdlib Require Import String.
From S2P Require Import Prelude Safe Names Asset Version Config Authority Raw Operations Validate.
From S2P Require Import Objects State Frame Economics Votes Money Balance EvalWitness EvalAccount.
From S2P Require Import EvalTransfer EvalEscrow EvalVote EvalContent Evaluators Block SignState.
From S2P Require Import Transactions WitnessSchedule Periodic Hardforks.
Local Open Scope Z_scope.
Local Open Scope list_scope.

Section blocks.
  Context {cfg : sophiatx_config} {ext : externals} {itp : interpreters} {cr : crypto}.

Definition block_witness (b : signed_block) : account_name_type := fixed_string (blk_witness b).

(** ** validate_block_header *)
Definition validate_block_header (skip : Z) (b : signed_block) : DB witness_object :=
  g ← gets dgpo;
  fc_assert (bool_decide (head_block_id g = previous b)) ;;
  fc_assert (time g <? timestamp b) ;;
  witness ← get_witness (block_witness b);
  hf ← has_hardfork SOPHIATX_HARDFORK_1_1;
  whenM (negb (skips skip skip_witness_signature))
    (ok ← ⌈ validate_signee b (signing_key witness) hf ⌉; fc_assert ok) ;;
  whenM (negb (skips skip skip_witness_schedule_check))
    (slot_num ← get_slot_at_time (timestamp b);
     fc_assert (slot_num >? 0) ;;
     scheduled ← get_scheduled_witness slot_num;
     scheduled ← ⌈ string_of_name scheduled ⌉;
     fc_assert (name_eqb (wit_owner witness) (fixed_string scheduled))) ;;
  mret witness.

(** ** process_header_extensions *)
Definition process_header_extension (witness : account_name_type) (e : header_extension) : DB unit :=
  match e with
  | ext_void => mret tt
  | ext_version v =>
      _ ← get_witness witness;
      modify witnesses (data witness) (fun w => Ok (w <| running_version := v |>))
  | ext_hardfork_vote hv =>
      _ ← get_witness witness;
      modify witnesses (data witness) (fun w =>
        Ok (w <| hardfork_version_vote_ := hf_version hv |> <| hardfork_time_vote := hf_time hv |>))
  end.
Definition process_header_extensions (b : signed_block) : DB unit :=
  forM (extensions b) (process_header_extension (block_witness b)).

(** ** update_global_dynamic_data *)
(** The witness of a missed slot; one that misses a day of blocks is shut down. *)
Definition missed_slot (producer : account_name_type) (i : Z) : DB unit :=
  name ← get_scheduled_witness (i + 1);
  missed ← get_witness name;
  whenM (negb (name_eqb (wit_owner missed) producer))
    (head ← head_block_num;
     let late := u64 (head - last_confirmed_block_num missed) >? SOPHIATX_BLOCKS_PER_DAY in
     modify witnesses (data name) (fun w =>
       let w := w <| total_missed ::= fun n => u32 (n + 1) |> in
       Ok (if late then w <| signing_key := null_key |> else w)) ;;
     whenM late
       (owner ← ⌈ via_string (wit_owner missed) ⌉;
        push_virtual_operation (op_shutdown_witness {| sw_fee := null_asset; sw_owner := owner |}))).

(** One slot passes, filled or missed. *)
Definition shift_participation (filled : bool) (c : Z * Z) : Z * Z :=
  let '(slots, count) := c in
  let b := if filled then 1 else 0 in
  let count := u8 (count - (if Z.testbit slots 127 then 1 else 0)) in
  (u128 (u128 (Z.shiftl slots 1) + b), u8 (count + b)).
Definition participation (missed : Z) (c : Z * Z) : Z * Z :=
  Nat.iter (Z.to_nat missed) (shift_participation false) (shift_participation true c).

Definition switch_block (hf : bool) : Z :=
  if hf then u32 (SOPHIATX_WITNESS_VESTING_INCREASE_DAYS_HF * SOPHIATX_BLOCKS_PER_DAY)
  else u32 (SOPHIATX_WITNESS_VESTING_INCREASE_DAYS * SOPHIATX_BLOCKS_PER_DAY).

Definition advance_globals (b : signed_block) (missed : Z) (hf : bool)
    (g : dynamic_global_property_object) : dynamic_global_property_object :=
  let '(slots, count) := participation missed (recent_slots_filled g, participation_count g) in
  let g := g <| recent_slots_filled := slots |> <| participation_count := count |>
             <| head_block_number := block_num b |> <| head_block_id := block_id b |>
             <| time := timestamp b |> <| current_aslot ::= fun n => u64 (n + u32 (missed + 1)) |> in
  if private_net g then g
  else g <| witness_required_vesting :=
              Asset (if block_num b >=? switch_block hf
                     then SOPHIATX_FINAL_WITNESS_REQUIRED_VESTING_BALANCE
                     else SOPHIATX_INITIAL_WITNESS_REQUIRED_VESTING_BALANCE) VESTS_SYMBOL |>.

Definition update_global_dynamic_data (b : signed_block) : DB unit :=
  now ← head_block_time;
  missed ← (if negb (now =? 0) then
              slot ← get_slot_at_time (timestamp b);
              let missed := u32 (slot - 1) in
              forM (seqZ 0 missed) (missed_slot (block_witness b)) ;;
              mret missed
            else mret 0);
  hf ← has_hardfork SOPHIATX_HARDFORK_1_1;
  modify_gpo (fun g => Ok (advance_globals b missed hf g)) ;;
  skip ← gets skip_flags;
  g ← gets dgpo;
  whenM (negb (skips skip skip_undo_history_check))
    (sophiatx_assert (u32 (head_block_number g - last_irreversible_block_num g) <? SOPHIATX_MAX_UNDO_HISTORY)
       undo_database_exception).

Definition update_signing_witness (witness : account_name_type) (b : signed_block) : DB unit :=
  slot ← get_slot_at_time (timestamp b);
  g ← gets dgpo;
  modify witnesses (data witness) (fun w =>
    Ok (w <| last_aslot := u64 (current_aslot g + slot) |>
          <| last_confirmed_block_num := block_num b |>)).

(** ** update_last_irreversible_block *)
(** [std::nth_element] puts the element of rank [offset] at its place. *)
Definition confirmed_of (kw : Z * witness_object) : list Z := [last_confirmed_block_num (snd kw)].
Definition irreversible_offset (n : Z) : Z :=
  (SOPHIATX_100_PERCENT - SOPHIATX_IRREVERSIBLE_THRESHOLD) * n / SOPHIATX_100_PERCENT.
Definition confirmed_by_threshold (ws : list (Z * witness_object)) : res Z :=
  kw ← vector_at (sort_by confirmed_of ws) (irreversible_offset (Z.of_nat (length ws)));
  Ok (u32 (last_confirmed_block_num (snd kw))).

Definition update_last_irreversible_block : DB unit :=
  head ← head_block_num;
  if head <? SOPHIATX_START_MINER_VOTING_BLOCK then
    modify_gpo (fun g =>
      Ok (if head >? SOPHIATX_MAX_WITNESSES
          then g <| last_irreversible_block_num := u32 (head - SOPHIATX_MAX_WITNESSES) |> else g))
  else
    ws ← scheduled_witnesses;
    n ← ⌈ confirmed_by_threshold ws ⌉;
    g ← gets dgpo;
    whenM (n >? last_irreversible_block_num g)
      (modify_gpo (fun g => Ok (g <| last_irreversible_block_num := n |>))).

Definition create_block_summary (b : signed_block) : DB unit :=
  modify block_summaries (Z.land (block_num b) 0xffff) (fun _ => Ok (block_id b)).

(** ** _apply_block *)
(** The hardforks older than the first block are applied with it. *)
Fixpoint genesis_hardforks (n : nat) (times : list Z) (first_block : Z) : Z :=
  match n, times with
  | S n, t :: times => if t >? first_block then 0 else 1 + genesis_hardforks n times first_block
  | _, _ => 0
  end.
Definition apply_genesis_hardforks (b : signed_block) : DB unit :=
  times ← gets hardfork_times;
  let n := genesis_hardforks (Z.to_nat SOPHIATX_NUM_HARDFORKS) (tail times) (timestamp b) in
  whenM (n >? 0)
    (set_hardfork n true ;;
     h ← gets hpo;
     v ← ⌈ array_at hardfork_versions n ⌉;
     t ← ⌈ array_at times n ⌉;
     fc_assert (current_hardfork_version h =? v) ;;
     ws ← gets witnesses_by_id;
     forM ws (fun kw => modify witnesses (fst kw) (fun w =>
       Ok (w <| running_version := v |> <| hardfork_version_vote_ := v |> <| hardfork_time_vote := t |>)))).

Definition check_merkle_root (b : signed_block) : res unit :=
  let merkle_root := calculate_merkle_root b in
  if bool_decide (transaction_merkle_root b = merkle_root) then Ok tt
  else match merkle_exception (block_num b) with
       | Some r => fc_assert (bool_decide (r = merkle_root))
       | None => Throw assert_exception
       end.

(** The steps after the transactions, up to the new irreversible block and from
    there on. *)
Definition advance_block (b : signed_block) (witness : account_name_type) : DB unit :=
  update_global_dynamic_data b ;;
  update_signing_witness witness b ;;
  update_last_irreversible_block.
Definition close_block (b : signed_block) : DB unit :=
  create_block_summary b ;;
  clear_expired_transactions ;;
  update_witness_schedule ;;
  private ← is_private_net;
  whenM (negb private)
    (process_interests ;;
     update_median_feeds ;;
     clear_null_account_balance ;;
     process_funds ;;
     process_vesting_withdrawals) ;;
  account_recovery_processing ;;
  expire_escrow_ratification ;;
  process_hardforks ;;
  private ← is_private_net;
  whenM (negb private)
    (g ← gets dgpo;
     modify_econ (record_block (block_num b) (amount (current_supply g)))).
Definition finish_block (b : signed_block) (witness : account_name_type) : DB unit :=
  advance_block b witness ;; close_block b.

Definition open_block (b : signed_block) (skip : Z) : DB unit :=
  whenM (block_num b =? 1) (apply_genesis_hardforks b) ;;
  whenM (negb (skips skip skip_merkle_check)) ⌈ check_merkle_root b ⌉ ;;
  _ ← validate_block_header skip b;
  puts (fun s => s <| current_block_num := block_num b |>) ;;
  g ← gets dgpo;
  fc_assert (pack_size_block b <=? gpo_maximum_block_size g) ;;
  modify_gpo (fun g => Ok (g <| current_witness := block_witness b |>)) ;;
  process_header_extensions b ;;
  witness ← get_witness (block_witness b);
  h ← gets hpo;
  fc_assert (current_hardfork_version h <=? running_version witness).

Definition _apply_block (b : signed_block) : DB unit :=
  skip ← gets skip_flags;
  open_block b skip ;;
  forM (blk_transactions b) (fun t => apply_transaction t skip) ;;
  finish_block b (block_witness b).

(** ** apply_block: checkpoints, then the block, then the invariants *)
Definition checkpoint_skip : Z :=
  fold_left Z.lor [skip_witness_signature; skip_transaction_signatures; skip_transaction_dupe_check;
    skip_fork_db; skip_block_size_check; skip_tapos_check; skip_authority_check;
    skip_undo_history_check; skip_witness_schedule_check; skip_validate; skip_validate_invariants] 0.

(** [checkpoints] is sorted by block number. *)
Definition checkpoint_flags (checkpoints : list (Z * hash160)) (b : signed_block) (skip : Z) : res Z :=
  match last checkpoints with
  | Some (n, id) =>
      if bool_decide (id = null_hash) then Ok skip
      else
        match List.find (fun c => fst c =? block_num b) checkpoints with
        | Some (_, cid) => fc_assert (bool_decide (block_id b = cid))
        | None => Ok tt
        end ;;
        Ok (if n >=? block_num b then checkpoint_skip else skip)
  | None => Ok skip
  end.

Definition apply_block (checkpoints : list (Z * hash160)) (b : signed_block) (skip : Z) : DB unit :=
  skip ← ⌈ checkpoint_flags checkpoints b skip ⌉;
  with_skip_flags skip (_apply_block b) ;;
  producing ← is_producing;
  whenM ((producing : bool) || negb (skips skip skip_validate_invariants)) validate_invariants.

Definition witness_participation_rate (s : db) : Z :=
  let popcount := Z.of_nat (length (filter (fun i => Z.testbit (recent_slots_filled (dgpo s)) i = true)
                                      (seqZ 0 128))) in
  u32 (u64 (SOPHIATX_100_PERCENT * popcount) / 128).
End blocks.
