(* ===== verification/Supply.v ===== *)
(** * Supply: no block creates or destroys coins unaccounted for.

    The supply invariant is followed through the application of a block: every
    step conserves it, except for the null account, whose coins are taken out of
    the supply without reaching a pool.  [validate_invariants] is shown to check
    the same three equations.  At the end, what a block does to the head of the chain. *)
From Stdlib Require Import String.
From S2P Require Import Prelude Safe Names Asset Version Config Authority Raw Operations Validate.
From S2P Require Import Objects State Frame Economics Votes Money Balance EvalWitness EvalAccount.
From S2P Require Import EvalTransfer EvalEscrow EvalVote EvalContent Evaluators Block SignState.
From S2P Require Import Transactions WitnessSchedule Periodic Hardforks Blocks.
Local Open Scope Z_scope.
Local Open Scope list_scope.

Section supply.
  Context {cfg : sophiatx_config} {ext : externals} {itp : interpreters} {cr : crypto}.

(** What soundness is about, the coins only through the imbalance. *)
Definition sound_view (s : db) := (imbalance s, escrows s, interest_base s).
Lemma sound_upto_view d s s' : sound_view s' = sound_view s -> sound_upto d s -> sound_upto d s'.
Proof.
  intros Hv (H1 & H2 & H3). pose proof (f_equal (fun p => fst (fst p)) Hv) as V1.
  pose proof (f_equal (fun p => snd (fst p)) Hv) as V2. pose proof (f_equal snd Hv) as V3.
  cbn [fst snd sound_view] in *. split; [congruence|]. split; [unfold fees_paid; by rewrite V2|].
  unfold econ_bounded. by injection V3 as -> ->.
Qed.

Lemma frames_view {A} (m : DB A) :
  conserves m -> frames escrows m -> frames interest_base m -> frames sound_view m.
Proof. intros H1 H2 H3 s a s' H. unfold sound_view. by rewrite (H1 _ _ _ H), (H2 _ _ _ H), (H3 _ _ _ H). Qed.
Lemma frames_view_keeps {A} (m : DB A) :
  keeps m -> frames escrows m -> frames interest_base m -> frames sound_view m.
Proof. intros H. apply frames_view. by apply keeps_conserves. Qed.

(** ** The steps that move no coins *)
Lemma frames_scheduled {T} (f : db -> T) : frames f scheduled_witnesses.
Proof. unfold scheduled_witnesses, scheduled_names. frame. Qed.
Lemma frames_scheduled_witness {T} (f : db -> T) n : frames f (get_scheduled_witness n).
Proof. unfold get_scheduled_witness. frame. Qed.
Lemma frames_slot_at_time {T} (f : db -> T) n : frames f (get_slot_at_time n).
Proof. apply frames_gets. Qed.
Hint Resolve frames_scheduled frames_scheduled_witness frames_slot_at_time : frame.

Ltac view_keeps := apply frames_view_keeps; [keeps|frame|frame].

Lemma view_update_median_feeds : frames sound_view update_median_feeds.
Proof. unfold update_median_feeds, publish_median. view_keeps. Qed.
Lemma view_account_recovery : frames sound_view account_recovery_processing.
Proof. unfold account_recovery_processing. view_keeps. Qed.
Lemma view_clear_expired : frames sound_view clear_expired_transactions.
Proof. unfold clear_expired_transactions. view_keeps. Qed.

Lemma keeps_restart_laps now ks : keeps (restart_laps now ks).
Proof. induction ks as [|k ks IH]; cbn [restart_laps]; keeps. Qed.
Lemma frames_restart_laps {T} (f : db -> T) `{!Indep witnesses f} now ks : frames f (restart_laps now ks).
Proof. induction ks as [|k ks IH]; cbn [restart_laps]; frame. Qed.
Hint Resolve keeps_restart_laps frames_restart_laps : frame.
Lemma view_witness_schedule : frames sound_view update_witness_schedule.
Proof.
  unfold update_witness_schedule, update_witness_schedule4, set_schedule, reset_virtual_schedule_time,
    set_next_hardfork, update_median_witness_props. view_keeps.
Qed.

Lemma keeps_apply_hardfork n : keeps (apply_hardfork n).
Proof. unfold apply_hardfork. keeps. Qed.
Lemma frames_apply_hardfork {T} (f : db -> T) `{!Indep accounts f} `{!Indep witnesses f} n :
  (forall s v, f (s <| hpo := v |>) = f s) -> (forall g s, f (upd virtual_ops g s) = f s) ->
  frames f (apply_hardfork n).
Proof.
  intros Hh Hv. unfold apply_hardfork. frame; [by apply frames_recalculate|].
  by apply frames_push_virtual_operation.
Qed.
Hint Resolve keeps_apply_hardfork : frame.
Hint Extern 1 (frames _ (apply_hardfork _)) => (apply frames_apply_hardfork; first [apply _ | intros; reflexivity]) : frame.

Lemma view_process_hardforks : frames sound_view process_hardforks.
Proof.
  assert (H : forall fuel, frames sound_view (process_hardforks_loop fuel)).
  { intros fuel. apply frames_view_keeps.
    - induction fuel as [|n IH]; cbn [process_hardforks_loop]; keeps.
    - induction fuel as [|n IH]; cbn [process_hardforks_loop]; frame.
    - induction fuel as [|n IH]; cbn [process_hardforks_loop]; frame. }
  intros s u s' Hr. unfold process_hardforks in Hr. apply bind_Ok in Hr as (h & s1 & Hh & Hr).
  apply gets_Ok in Hh as [-> ->]. by apply (H _ _ _ _ Hr).
Qed.

(** ** The steps around the transactions *)
Lemma frames_slot_time {T} (f : db -> T) n : frames f (get_slot_time n).
Proof. apply frames_gets. Qed.
Hint Resolve frames_slot_time : frame.

Lemma keeps_advance b missed hf : keeps (modify_gpo (fun g => Ok (advance_globals b missed hf g))).
Proof.
  apply keeps_modify_gpo. intros g g' [= <-]. unfold advance_globals.
  destruct (participation _ _), (private_net _); done.
Qed.
Hint Resolve keeps_advance : frame.
Lemma view_update_globals b : frames sound_view (update_global_dynamic_data b).
Proof.
  unfold update_global_dynamic_data, missed_slot. apply frames_view_keeps.
  - repeat first [apply keeps_advance | keeps_step].
  - frame.
  - frame.
Qed.
Lemma view_update_signing_witness w b : frames sound_view (update_signing_witness w b).
Proof. unfold update_signing_witness. view_keeps. Qed.
Lemma view_update_lib : frames sound_view update_last_irreversible_block.
Proof.
  unfold update_last_irreversible_block. apply frames_view_keeps; [keeps|frame|frame].
  destruct (_ >? _); done.
Qed.
Lemma view_create_summary b : frames sound_view (create_block_summary b).
Proof. unfold create_block_summary. view_keeps. Qed.

Lemma keeps_set_hardfork n now : keeps (set_hardfork n now).
Proof. unfold set_hardfork. keeps. Qed.
Lemma view_open_block b skip : frames sound_view (open_block b skip).
Proof.
  unfold open_block, apply_genesis_hardforks, set_hardfork, validate_block_header,
    process_header_extensions, process_header_extension, witnesses_by_id. view_keeps.
Qed.

(** ** The steps that move coins *)
Lemma conserves_upto {A} (m : DB A) d s a s' : conserves m -> frames escrows m ->
  frames interest_base m -> m s = Ok (a, s') -> sound_upto d s -> sound_upto d s'.
Proof. intros H1 H2 H3 H. apply sound_upto_view. by apply (frames_view m H1 H2 H3 s a s'). Qed.

Lemma interests_upto d s u s' : config_ok -> process_interests s = Ok (u, s') ->
  sound_upto d s -> sound_upto d s'.
Proof.
  intros Hc H (H1 & H2 & Ha & Hp).
  apply process_interests_spec in H as (E1 & E2 & E3 & E4); [|done..].
  split; [congruence|]. split; [unfold fees_paid; by rewrite E2|]. split; lia.
Qed.

Lemma funds_upto d s u s' : process_funds s = Ok (u, s') -> sound_upto d s -> sound_upto d s'.
Proof.
  apply conserves_upto; [apply process_funds_conserves|unfold process_funds; frame|].
  intros s1 u1 s2 H. unfold process_funds in H.
  do 5 (apply bind_Ok in H as (? & ? & H1 & H); first [apply gets_Ok in H1 as [-> ->]
    | apply get_Ok in H1 as [_ ->]]; cbv zeta in H).
  apply bind_Ok in H as ([e r] & s3 & Hr & H). apply lift_Ok in Hr as [Hr ->].
  apply bind_Ok in H as ([] & s3 & Hm & H). apply modify_econ_Ok in Hm as (e2 & [= <-] & ->).
  cbn [fst snd] in H. frame_of interest_base H F. rewrite F. unfold interest_base. cbn [upd econ].
  unfold withdraw_mining_reward in Hr. destruct (_ <=? _); by minv.
Qed.

Lemma withdrawals_upto d s u s' : process_vesting_withdrawals s = Ok (u, s') ->
  sound_upto d s -> sound_upto d s'.
Proof.
  apply conserves_upto; [apply process_vesting_withdrawals_conserves|..];
    unfold process_vesting_withdrawals; frame; apply frames_withdrawals_loop; intros k;
    unfold withdraw_step; frame.
Qed.

Lemma clear_null_upto d s u s' : clear_null_account_balance s = Ok (u, s') ->
  sound_upto d s -> sound_upto (d - null_coins s) s'.
Proof.
  intros H (H1 & H2 & H3).
  assert (E : frames (fun s => (escrows s, interest_base s)) clear_null_account_balance).
  { unfold clear_null_account_balance. frame. }
  apply E in H as E'. pose proof (f_equal fst E') as E1. pose proof (f_equal snd E') as E2. cbn [fst snd] in E1, E2.
  apply clear_null_spec in H. split; [unfold imbalance in *; by rewrite H, H1|].
  split; [unfold fees_paid; by rewrite E1|]. unfold econ_bounded. by injection E2 as -> ->.
Qed.

Lemma expire_escrow_upto d s u s' : expire_escrow_ratification s = Ok (u, s') ->
  sound_upto d s -> sound_upto d s'.
Proof.
  intros H (H1 & H2 & H3). pose proof (expire_escrow_conserves _ _ _ H) as E1.
  assert (E : frames interest_base expire_escrow_ratification).
  { unfold expire_escrow_ratification, refund_escrow. frame. }
  apply E in H as E2.
  apply expire_escrow_fees in H; [|done]. split; [congruence|]. split; [done|].
  unfold econ_bounded. by injection E2 as -> ->.
Qed.

Lemma record_block_upto d b c s u s' : modify_econ (record_block b c) s = Ok (u, s') ->
  sound_upto d s -> sound_upto d s'.
Proof.
  intros H (H1 & H2 & H3 & H4). apply modify_econ_Ok in H as (e & He & ->).
  pose proof (record_block_total _ _ _ _ He) as Ht. split.
  { rewrite <- H1. apply imbalance_eq. unfold money_of. cbn [upd econ accounts escrows dgpo]. by rewrite Ht. }
  split; [exact H2|]. unfold econ_bounded. cbn [upd econ]. unfold record_block in He.
  apply rbind_Ok in He as (a & Ha & He). apply rbind_Ok in He as (a' & Ha' & [= <-]).
  cbn [upd accumulated_supply interest_pool_from_coinbase]. split; [|done].
  apply (safe_add_le _ _ _ Ha'). destruct (_ >=? _); [by apply (safe_sub_le _ _ _ Ha)|by injection Ha as <-].
Qed.

(** ** The steps of a block together: coins are at most lost. *)
Definition burns {A} (m : DB A) : Prop := forall d s a s', m s = Ok (a, s') ->
  sound_upto d s -> exists burned, 0 <= burned /\ sound_upto (d - burned) s'.

Lemma burns_nothing {A} (m : DB A) :
  (forall d s a s', m s = Ok (a, s') -> sound_upto d s -> sound_upto d s') -> burns m.
Proof. intros Hm d s a s' H Hs. exists 0. rewrite Z.sub_0_r. split; [done|]. by eapply Hm. Qed.
Lemma burns_view {A} (m : DB A) : frames sound_view m -> burns m.
Proof. intros Hm. apply burns_nothing. intros d s a s' H. apply sound_upto_view. by apply (Hm s a). Qed.
Lemma burns_bind {A B} (m : DB A) (k : A -> DB B) :
  burns m -> (forall a, burns (k a)) -> burns (mbind k m).
Proof.
  intros Hm Hk d s b s' H Hs. apply bind_Ok in H as (a & s1 & H1 & H2).
  apply (Hm d) in H1 as (x & Hx & Hs1); [|done]. apply (Hk a (d - x)) in H2 as (y & Hy & Hs2); [|done].
  exists (x + y). split; [lia|]. by replace (d - (x + y)) with (d - x - y) by lia.
Qed.
Lemma burns_whenM b (m : DB unit) : burns m -> burns (whenM b m).
Proof. intros Hm. destruct b; [done|]. apply burns_view, frames_ret. Qed.
Lemma null_coins_nonneg s : 0 <= null_coins s.
Proof. unfold null_coins. case_match; lia. Qed.
Lemma burns_clear_null : burns clear_null_account_balance.
Proof.
  intros d s u s' H Hs. exists (null_coins s). split; [apply null_coins_nonneg|].
  by eapply clear_null_upto.
Qed.

Lemma burns_finish_block b w : config_ok -> burns (finish_block b w).
Proof.
  intros Hc. unfold finish_block, advance_block, close_block.
  repeat match goal with
  | |- burns (mbind _ _) => apply burns_bind; [|intros ?]
  | |- burns (whenM _ _) => apply burns_whenM
  | |- burns clear_null_account_balance => apply burns_clear_null
  | |- _ => first [ apply burns_view; first [ apply view_update_globals | apply view_update_signing_witness
        | apply view_update_lib | apply view_create_summary | apply view_clear_expired
        | apply view_witness_schedule | apply view_update_median_feeds | apply view_account_recovery
        | apply view_process_hardforks | apply frames_gets ]
    | apply burns_nothing; intros ? ? ? ?; first [ apply (interests_upto _ _ _ _ Hc) | apply funds_upto
        | apply withdrawals_upto | apply expire_escrow_upto | apply record_block_upto ] ]
  end.
Qed.

(** ** The transactions of a block *)
Lemma with_skip_flags_sound d t skip s u s' : SOPHIATX_SYMBOL = SOPHIATX_SYMBOL_U64 ->
  interpreters_sound -> skips skip skip_validate = false -> sound_upto d s ->
  apply_transaction t skip s = Ok (u, s') -> sound_upto d s'.
Proof.
  intros Hsym Hitp Hskip Hs H. unfold apply_transaction, with_skip_flags in H.
  apply bind_Ok in H as (old & s1 & H1 & H). apply gets_Ok in H1 as [-> ->].
  apply bind_Ok in H as ([] & s1 & H1 & H). apply puts_Ok in H1 as [_ ->].
  apply bind_Ok in H as ([] & s1 & H1 & H). apply (apply_transaction_sound_body d) in H1; [|done..].
  apply bind_Ok in H as ([] & s2 & H2 & H). apply puts_Ok in H2 as [_ ->].
  by apply ret_Ok in H as [= -> ->].
Qed.

Lemma transactions_sound d ts skip s u s' : SOPHIATX_SYMBOL = SOPHIATX_SYMBOL_U64 ->
  interpreters_sound -> skips skip skip_validate = false -> sound_upto d s ->
  forM ts (fun t => apply_transaction t skip) s = Ok (u, s') -> sound_upto d s'.
Proof.
  intros Hsym Hitp Hskip. revert s. induction ts as [|t ts IH]; intros s Hs H; cbn [forM] in H.
  - by apply ret_Ok in H as [= -> ->].
  - apply bind_Ok in H as ([] & s1 & H1 & H). apply (IH s1); [|done]. by eapply with_skip_flags_sound.
Qed.

Lemma apply_block_burns d b s u s' : config_ok -> interpreters_sound -> skips (skip_flags s) skip_validate = false ->
  _apply_block b s = Ok (u, s') -> sound_upto d s ->
  exists burned, 0 <= burned /\ sound_upto (d - burned) s'.
Proof.
  intros Hc Hitp Hskip H Hs. pose proof (proj1 Hc) as Hsym. unfold _apply_block in H.
  apply bind_Ok in H as (skip & s1 & H1 & H). apply gets_Ok in H1 as [-> ->].
  apply bind_Ok in H as ([] & s1 & H1 & H).
  apply (sound_upto_view _ s s1) in Hs; [|by apply view_open_block in H1].
  apply bind_Ok in H as ([] & s2 & H2 & H). apply (transactions_sound d) in H2; [|done..].
  by apply (burns_finish_block _ _ Hc _ _ _ _ H).
Qed.
End supply.

(** ** validate_invariants checks the supply invariant. *)
Section invariants.
  Context {cfg : sophiatx_config}.

Definition total {A} (f : A -> Z) (l : list A) : Z := foldr (fun a acc => f a + acc) 0 l.
Lemma total_cons {A} (f : A -> Z) a l : total f (a :: l) = f a + total f l.
Proof. done. Qed.
Lemma total_nil {A} (f : A -> Z) : total f [] = 0.
Proof. done. Qed.
Lemma total_map_sum {K} `{Countable K} {A} (f : A -> Z) (m : gmap K A) :
  map_sum f m = total f (map snd (map_to_list m)).
Proof.
  unfold map_sum. rewrite map_fold_foldr. induction (map_to_list m) as [|[k a] l IH]; simpl; [done|].
  by rewrite IH.
Qed.
Lemma total_nonneg {A} (f : A -> Z) l : Forall (fun a => 0 <= f a) l -> 0 <= total f l.
Proof. induction 1; simpl; lia. Qed.

Lemma asset_add_Ok a b : symbol b = symbol a -> 0 <= amount a -> 0 <= amount b ->
  amount a + amount b <= INT64_MAX -> asset_add a b = Ok (Asset (amount a + amount b) (symbol a)).
Proof.
  intros Hs Ha Hb Hm. unfold asset_add, fc_assert. rewrite Hs, Z.eqb_refl. cbn [sophiatx_assert].
  cbn. by rewrite safe_add_nonneg.
Qed.

Lemma sum_assets_val a l r : sum_assets a l = Ok r ->
  amount r = amount a + total amount l /\ symbol r = symbol a.
Proof.
  unfold sum_assets. revert a. induction l as [|b l IH]; intros a H; cbn [foldM] in H.
  - injection H as <-. simpl. split; [lia|done].
  - apply rbind_Ok in H as (c & Hc & H). apply asset_add_amount in Hc as [Hc1 Hc2].
    apply IH in H as [H1 H2]. simpl. split; [lia|congruence].
Qed.

Lemma sum_assets_Ok a l : 0 <= amount a ->
  Forall (fun b => symbol b = symbol a /\ 0 <= amount b) l ->
  amount a + total amount l <= INT64_MAX ->
  sum_assets a l = Ok (Asset (amount a + total amount l) (symbol a)).
Proof.
  intros Ha Hl. revert a Ha Hl. unfold sum_assets. induction l as [|b l IH]; intros a Ha Hl Hm.
  - simpl. rewrite Z.add_0_r. by destruct a.
  - apply Forall_cons in Hl as [[Hs Hb] Hl]. cbn [foldM total foldr] in *. fold (total amount l) in *.
    assert (0 <= total amount l) by (apply total_nonneg; eapply Forall_impl; [exact Hl|naive_solver]).
    rewrite asset_add_Ok by (done || lia). cbn [mbind res_bind].
    rewrite IH; cbn [amount symbol]; [by rewrite Z.add_assoc|lia|done|lia].
Qed.

Lemma escrows_assets_val t l r : foldM (fun t esc => l ← escrow_assets esc; sum_assets t l) t l = Ok r ->
  amount r = amount t + total esc_held l /\ symbol r = symbol t.
Proof.
  revert t. induction l as [|e l IH]; intros t H; cbn [foldM] in H.
  - injection H as <-. simpl. split; [lia|done].
  - apply rbind_Ok in H as (t1 & Ht & H). apply rbind_Ok in Ht as (a & Ha & Ht).
    unfold escrow_assets in Ha. destruct (_ =? _); [injection Ha as <-|discriminate Ha].
    apply sum_assets_val in Ht as [Ht1 Ht2]. apply IH in H as [H1 H2].
    rewrite !total_cons, total_nil in *. unfold esc_held at 1. split; [lia|congruence].
Qed.

Definition coin (a : asset) : Prop := symbol a = SOPHIATX_SYMBOL /\ 0 <= amount a.
Definition escrow_coins (e : escrow_object) : Prop := coin (sophiatx_balance e) /\ coin (pending_fee e).
Lemma escrows_assets_Ok t l : coin t -> Forall escrow_coins l ->
  amount t + total esc_held l <= INT64_MAX ->
  foldM (fun t esc => l ← escrow_assets esc; sum_assets t l) t l =
  Ok (Asset (amount t + total esc_held l) (symbol t)).
Proof.
  intros Ht Hl. revert t Ht. induction Hl as [|e l [[He1 He2] [He3 He4]] Hl IH]; intros t [Hs Ht] Hm.
  - simpl. rewrite Z.add_0_r. by destruct t.
  - cbn [foldM]. rewrite total_cons in *.
    assert (0 <= total esc_held l).
    { apply total_nonneg. eapply Forall_impl; [exact Hl|].
      intros x [[_ ?] [_ ?]]. unfold esc_held. lia. }
    unfold escrow_assets. rewrite He3, Z.eqb_refl. unfold esc_held at 1 in Hm. cbn [mbind res_bind].
    rewrite sum_assets_Ok; rewrite ?total_cons, ?total_nil; [|done| |lia].
    + cbn [mbind res_bind]. rewrite IH; cbn [amount symbol].
      * unfold esc_held at 2. do 2 f_equal. lia.
      * unfold coin. cbn [amount symbol]. split; [done|lia].
      * lia.
    + repeat constructor; congruence || done.
Qed.

(** The assets of a state are what their tables say, and none is negative. *)
Record denominated (s : db) : Prop := {
  den_accounts : map_Forall (fun _ a => coin (balance a) /\ symbol (vesting_shares a) = VESTS_SYMBOL /\
                                       0 <= amount (vesting_shares a)) (accounts s);
  den_escrows : map_Forall (fun _ e => escrow_coins e) (escrows s);
  den_supply : symbol (current_supply (dgpo s)) = SOPHIATX_SYMBOL;
  den_vesting : symbol (total_vesting_shares (dgpo s)) = VESTS_SYMBOL;
  den_pools : pools_nonneg (econ s);
  den_total : 0 <= SOPHIATX_TOTAL_SUPPLY <= INT64_MAX }.
Definition votes_bounded (s : db) : Prop :=
  map_Forall (fun _ w => votes w <= amount (current_supply (dgpo s))) (witnesses s).

Lemma asserts_Ok {A} (p : A -> bool) (l : list A) (s : db) :
  (forM l (fun a => fc_assert (p a)) : DB unit) s = Ok (tt, s) <-> Forall (fun a => p a = true) l.
Proof.
  induction l as [|a l IH]; cbn [forM]; [done|]. rewrite Forall_cons, <- IH.
  split.
  - intros H. apply bind_Ok in H as ([] & s1 & H1 & H). apply assert_Ok in H1 as (H1 & _ & ->). done.
  - intros [H1 H2]. unfold mbind, ST_bind, fc_assert, sophiatx_assert. by rewrite H1.
Qed.
Lemma values_Forall {A} {K} `{Countable K} (P : A -> Prop) (m : gmap K A) :
  Forall P (map snd (map_to_list m)) <-> map_Forall (fun _ a => P a) m.
Proof.
  rewrite Forall_map, map_Forall_to_list. apply Forall_iff. by intros [k a].
Qed.
Lemma total_map {A B} (f : B -> Z) (g : A -> B) l : total f (map g l) = total (fun a => f (g a)) l.
Proof. induction l as [|a l IH]; simpl; [done|]. by rewrite IH. Qed.

Lemma validate_invariants_sound s u s' : private_net (dgpo s) = false ->
  validate_invariants s = Ok (u, s') -> s' = s /\ supply_ok s /\ votes_bounded s.
Proof.
  intros Hp H. unfold validate_invariants in H.
  apply bind_Ok in H as (private & s1 & H1 & H). apply gets_Ok in H1 as [-> ->]. rewrite Hp in H.
  do 3 (apply bind_Ok in H as (? & ? & H1 & H); apply gets_Ok in H1 as [-> ->]).
  apply bind_Ok in H as ([] & s1 & Hv & H).
  assert (s1 = s) as ->.
  { refine (frames_run id _ _ _ _ Hv _). frame. }
  apply asserts_Ok in Hv.
  do 1 (apply bind_Ok in H as (? & ? & H1 & H); apply gets_Ok in H1 as [-> ->]).
  apply bind_Ok in H as (t1 & s1 & H1 & H). apply lift_Ok in H1 as [H1 ->].
  apply bind_Ok in H as (t2 & s1 & H2 & H). apply lift_Ok in H2 as [H2 ->].
  apply bind_Ok in H as (? & ? & H3 & H). apply gets_Ok in H3 as [-> ->].
  apply bind_Ok in H as (t3 & s1 & H3 & H). apply lift_Ok in H3 as [H3 ->].
  apply bind_Ok in H as (t4 & s1 & H4 & H). apply lift_Ok in H4 as [H4 ->].
  apply bind_Ok in H as ([] & s1 & H5 & H). apply assert_Ok in H5 as (H5 & _ & ->).
  apply bind_Ok in H as ([] & s1 & H6 & H). apply assert_Ok in H6 as (H6 & _ & ->).
  apply bind_Ok in H as (t5 & s1 & H7 & H). apply lift_Ok in H7 as [H7 ->].
  apply assert_Ok in H as (H8 & _ & ->).
  apply sum_assets_val in H1 as [H1 _]. apply sum_assets_val in H2 as [H2 _].
  apply escrows_assets_val in H3 as [H3 _]. apply asset_add_amount in H4 as [H4 _].
  rewrite total_map in H1, H2. cbn [foldM] in H7. minv.
  match goal with H : mret ?x = Ok _ |- _ => apply (f_equal (fun r => match r with Ok y => y | _ => x end)) in H end. safe_vals. unfold asset_eqb in *. bool_simpl.
  cbn [amount mret res_ret] in *. split; [done|]. split.
  - unfold supply_ok, money_of. cbn [m_supply m_liquid m_vested m_escrow m_tvest m_pools].
    rewrite !total_map_sum. unfold pools_total, acc_liquid, acc_vested in *. lia.
  - apply map_Forall_to_list. eapply Forall_impl; [exact Hv|]. intros [k w] Hw. bool_simpl. exact Hw.
Qed.

(** The sums of a denominated state are not negative and computed without overflow. *)
Definition values {K} `{Countable K} {A} (m : gmap K A) : list A := map snd (map_to_list m).
Lemma denominated_totals s : denominated s -> 0 <= total acc_liquid (values (accounts s)) /\
  0 <= total acc_vested (values (accounts s)) /\ 0 <= total esc_held (values (escrows s)).
Proof.
  intros [Ha He _ _ _ _]. apply values_Forall in Ha, He. repeat split; apply total_nonneg.
  - eapply Forall_impl; [exact Ha|]. by intros a [[_ ?] _].
  - eapply Forall_impl; [exact Ha|]. by intros a (_ & _ & ?).
  - eapply Forall_impl; [exact He|]. intros e [[_ ?] [_ ?]]. unfold esc_held. lia.
Qed.
Lemma denominated_liquid s : denominated s -> total acc_liquid (values (accounts s)) <= INT64_MAX ->
  sum_assets (Asset 0 SOPHIATX_SYMBOL) (map balance (values (accounts s))) =
  Ok (Asset (total acc_liquid (values (accounts s))) SOPHIATX_SYMBOL).
Proof.
  intros [Ha _ _ _ _ _] Hm. apply values_Forall in Ha.
  rewrite sum_assets_Ok; rewrite ?total_map; [done|done| |exact Hm].
  apply Forall_map. eapply Forall_impl; [exact Ha|]. by intros a [? _].
Qed.
Lemma denominated_vested s : denominated s -> total acc_vested (values (accounts s)) <= INT64_MAX ->
  sum_assets (Asset 0 VESTS_SYMBOL) (map vesting_shares (values (accounts s))) =
  Ok (Asset (total acc_vested (values (accounts s))) VESTS_SYMBOL).
Proof.
  intros [Ha _ _ _ _ _] Hm. apply values_Forall in Ha.
  rewrite sum_assets_Ok; rewrite ?total_map; [done|done| |exact Hm].
  apply Forall_map. eapply Forall_impl; [exact Ha|]. by intros a [_ ?].
Qed.

(** The converse: the check passes on every state that balances. *)
Ltac step_to v s := apply bind_Ok; exists v, s; split; [try reflexivity; try (apply lift_Ok; split; [|reflexivity])|].
Lemma validate_invariants_complete s : denominated s -> supply_ok s -> votes_bounded s ->
  validate_invariants s = Ok (tt, s).
Proof.
  intros Hd (S1 & S2 & S3) Hb. unfold validate_invariants. step_to (private_net (dgpo s)) s.
  destruct (private_net (dgpo s)); [done|]. unfold money_of in S1, S2, S3.
  cbn [m_supply m_liquid m_vested m_escrow m_tvest m_pools] in S1, S2, S3.
  rewrite (total_map_sum acc_liquid), (total_map_sum acc_vested), (total_map_sum esc_held) in S1.
  rewrite total_map_sum in S2. unfold pools_total in S3.
  pose proof (denominated_totals s Hd) as (T1 & T2 & T3). pose proof (denominated_liquid s Hd) as L1.
  pose proof (denominated_vested s Hd) as L2.
  destruct Hd as [_ He Hs Hv (P1 & P2 & P3 & P4 & P5 & P6) Ht]. apply values_Forall in He.
  fold (values (accounts s)) (values (escrows s)) in *.
  step_to (dgpo s) s. step_to (econ s) s. step_to (map_to_list (witnesses s)) s.
  step_to tt s.
  { apply asserts_Ok. apply map_Forall_to_list in Hb. eapply Forall_impl; [exact Hb|].
    intros [k w] Hw. by apply Z.leb_le. }
  step_to (values (accounts s)) s.
  step_to (Asset (total acc_liquid (values (accounts s))) SOPHIATX_SYMBOL) s; [apply L1; lia|].
  step_to (Asset (total acc_vested (values (accounts s))) VESTS_SYMBOL) s; [apply L2; lia|].
  step_to (values (escrows s)) s.
  step_to (Asset (total acc_liquid (values (accounts s)) + total esc_held (values (escrows s))) SOPHIATX_SYMBOL) s.
  { rewrite escrows_assets_Ok; cbn [amount symbol]; [done|by split|done|lia]. }
  step_to (current_supply (dgpo s)) s.
  { rewrite asset_add_Ok; cbn [amount symbol]; [|done|lia..].
    rewrite <- Hs. destruct (current_supply (dgpo s)); simpl in *. do 2 f_equal. lia. }
  step_to tt s; [apply assert_Ok; split; [|done]; unfold asset_eqb; by rewrite !Z.eqb_refl|].
  step_to tt s.
  { apply assert_Ok. split; [|done]. unfold asset_eqb. cbn [amount symbol]. rewrite Hv, Z.eqb_refl.
    apply Z.eqb_eq. lia. }
  step_to SOPHIATX_TOTAL_SUPPLY s.
  { cbn [foldM]. repeat (rewrite safe_add_nonneg by lia; cbn [mbind res_bind]).
    cbn [mret res_ret]. f_equal. lia. }
  apply assert_Ok. split; [by apply Z.eqb_refl|done].
Qed.
End invariants.

(** ** The head of the chain before and after a block *)
Definition head_view (s : db) : hash160 * Z := (head_block_id (dgpo s), head_block_number (dgpo s)).

Section heads.
  Context {cfg : sophiatx_config} {ext : externals} {itp : interpreters} {cr : crypto}.

Lemma frames_gpo_head f : (forall g g', f g = Ok g' ->
  head_block_id g' = head_block_id g /\ head_block_number g' = head_block_number g) ->
  frames head_view (modify_gpo f).
Proof.
  intros Hf s u s' H. apply modify_gpo_Ok in H as (g & Hg & ->). unfold head_view. simpl.
  by destruct (Hf _ _ Hg) as [-> ->].
Qed.
Hint Extern 1 (frames head_view (modify_gpo _)) =>
  (apply frames_gpo_head; intros ? ? ?; minv; done) : frame.

Lemma head_adjust_supply a : frames head_view (adjust_supply a).
Proof. unfold adjust_supply. frame. Qed.
Hint Resolve head_adjust_supply frames_scheduled frames_restart_laps frames_scheduled_witness frames_slot_at_time : frame.
Lemma head_schedule : frames head_view update_witness_schedule.
Proof.
  unfold update_witness_schedule, update_witness_schedule4, set_schedule, reset_virtual_schedule_time,
    set_next_hardfork, update_median_witness_props. frame.
Qed.
Lemma head_interests_loop fuel id x : frames head_view (interests_loop fuel id x).
Proof. revert id x. induction fuel as [|fuel IH]; intros id x; cbn [interests_loop]; unfold pay_interest; frame; apply IH. Qed.
Hint Extern 1 (frames _ (apply_hardfork _)) => (apply frames_apply_hardfork; first [apply _ | intros; reflexivity]) : frame.
Lemma head_hardforks fuel : frames head_view (process_hardforks_loop fuel).
Proof.
  induction fuel as [|fuel IH]; cbn [process_hardforks_loop]; frame.
Qed.
Lemma head_withdrawals fuel cur : frames head_view (withdrawals_loop fuel cur).
Proof. apply frames_withdrawals_loop. intros k. unfold withdraw_step. frame. Qed.
Hint Resolve head_interests_loop head_hardforks head_withdrawals head_schedule : frame.
Lemma head_close_block b : frames head_view (close_block b).
Proof.
  unfold close_block, create_block_summary, clear_expired_transactions, process_interests, update_median_feeds,
    publish_median, clear_null_account_balance, process_funds, process_vesting_withdrawals,
    account_recovery_processing, expire_escrow_ratification, refund_escrow, process_hardforks. frame.
Qed.

(** ** The block that was applied is the head, and its predecessor was. *)
Lemma head_advance b w s u s' : advance_block b w s = Ok (u, s') -> head_view s' = (block_id b, block_num b).
Proof.
  intros H. unfold advance_block in H. apply bind_Ok in H as ([] & s1 & H1 & H).
  assert (E : frames head_view (update_signing_witness w b ;; update_last_irreversible_block)).
  { unfold update_signing_witness, update_last_irreversible_block. frame.
    apply frames_gpo_head. intros g g' [= <-]. by destruct (_ >? _). }
  rewrite (E _ _ _ H). clear H E. unfold update_global_dynamic_data in H1.
  apply bind_Ok in H1 as (now & s2 & _ & H). apply bind_Ok in H as (missed & s3 & _ & H).
  apply bind_Ok in H as (hf & s4 & _ & H). apply bind_Ok in H as ([] & s5 & Hm & H).
  assert (E : head_view s1 = head_view s5) by (refine (frames_run head_view _ _ _ _ H _); frame).
  rewrite E. apply modify_gpo_Ok in Hm as (g & [= <-] & ->). unfold head_view. simpl. unfold advance_globals.
  destruct (participation _ _). by destruct (private_net _).
Qed.
Lemma head_open b skip s u s' : open_block b skip s = Ok (u, s') ->
  head_view s' = head_view s /\ previous b = head_block_id (dgpo s).
Proof.
  intros H. split.
  - refine (frames_run head_view _ _ _ _ H _). unfold open_block, apply_genesis_hardforks, set_hardfork,
      validate_block_header, process_header_extensions, process_header_extension, witnesses_by_id. frame.
  - unfold open_block in H. apply bind_Ok in H as ([] & s1 & H1 & H). apply bind_Ok in H as ([] & s2 & H2 & H).
    assert (E1 : head_view s1 = head_view s).
    { refine (frames_run head_view _ _ _ _ H1 _). unfold apply_genesis_hardforks, set_hardfork, witnesses_by_id. frame. }
    assert (E2 : head_view s2 = head_view s1) by (refine (frames_run head_view _ _ _ _ H2 _); frame).
    apply bind_Ok in H as (w & s3 & H3 & _). unfold validate_block_header in H3.
    apply bind_Ok in H3 as (g & s4 & Hg & H3). apply gets_Ok in Hg as [-> ->].
    apply bind_Ok in H3 as ([] & s5 & Ha & _). apply assert_Ok in Ha as [Ha _]. apply bool_decide_eq_true in Ha.
    rewrite <- Ha. unfold head_view in *. congruence.
Qed.

Lemma head_apply_block cps b skip s u s' : apply_block cps b skip s = Ok (u, s') ->
  head_view s' = (block_id b, block_num b) /\ previous b = head_block_id (dgpo s).
Proof.
  intros H. unfold apply_block, with_skip_flags, _apply_block in H.
  apply bind_Ok in H as (k & s1 & Hk & H). apply lift_Ok in Hk as [_ ->].
  apply bind_Ok in H as ([] & s1 & H1 & H).
  assert (E : head_view s' = head_view s1).
  { refine (frames_run head_view _ _ _ _ H _). unfold validate_invariants. frame. }
  apply bind_Ok in H1 as (old & s2 & H2 & H1). apply gets_Ok in H2 as [-> ->].
  apply bind_Ok in H1 as ([] & s2 & H2 & H1). apply puts_Ok in H2 as [_ ->].
  apply bind_Ok in H1 as ([] & s3 & H3 & H1). apply bind_Ok in H1 as ([] & s4 & H4 & H1).
  apply puts_Ok in H4 as [_ ->]. apply ret_Ok, (f_equal snd) in H1. cbn [snd] in H1. subst s1.
  apply bind_Ok in H3 as (sk & s4 & H4 & H3). apply gets_Ok in H4 as [-> ->].
  apply bind_Ok in H3 as ([] & s4 & H4 & H3). apply head_open in H4 as [_ Hp].
  apply bind_Ok in H3 as ([] & s5 & _ & H3). unfold finish_block in H3.
  apply bind_Ok in H3 as ([] & s6 & H6 & H3). apply head_advance in H6.
  split; [|exact Hp]. rewrite E. change (head_view s3 = (block_id b, block_num b)).
  rewrite <- H6. by apply (head_close_block b _ _ _ H3).
Qed.
End heads.
