(* ===== verification/Genesis.v ===== *)
(** * Genesis: the first state of a chain ([database::init_genesis] in
    [chain/database.cpp]). *)
From Stdlib Require Import String.
From S2P Require Import Prelude Safe Names Asset Version Config Authority Raw Operations Validate.
From S2P Require Import Objects State Frame Economics Votes Money Balance EvalWitness EvalAccount.
From S2P Require Import EvalTransfer EvalEscrow EvalVote EvalContent Evaluators Block SignState.
From S2P Require Import Transactions WitnessSchedule Periodic Hardforks Blocks Supply.
Local Open Scope Z_scope.
Local Open Scope list_scope.

Section genesis.
  Context {cfg : sophiatx_config}.

(** The database before [init_genesis]: every index is empty. *)
Definition empty_db : db := {|
  dgpo := default_dgpo; econ := default_economic_model; wso := default_witness_schedule;
  hpo := default_hardfork_property; accounts := ∅; account_auths_ := ∅; owner_history := ∅;
  recovery_requests := ∅; change_recovery_requests := ∅; fee_sponsors := ∅; witnesses := ∅;
  witness_votes := ∅; escrows := ∅; feed_histories := ∅; applications := ∅;
  application_buyings := ∅; custom_contents := ∅; block_summaries := ∅; transactions := ∅;
  account_bandwidths := ∅; next_ids := ∅; skip_flags := 0; producing := false;
  current_block_num := 0; virtual_ops := [] |}.

(** [create< account_object >] and its [account_authority_object]. *)
Definition genesis_account (name : account_name_type)
    (f : account_object -> res account_object) : DB unit :=
  id ← fresh_id account_object_type;
  a ← ⌈ f ((default_account id) <| acc_name := name |>) ⌉;
  insert_new accounts (data name) a.
Definition genesis_authority (name : account_name_type) (owner active : authority) : DB unit :=
  id ← fresh_id account_authority_object_type;
  insert_new account_auths_ (data name)
    {| aa_id := id; aa_account := name; owner_auth := owner; active_auth := active;
       last_owner_update := 0 |}.
Definition reserved_account (name : account_name_type) (threshold : Z) : DB unit :=
  genesis_account name Ok ;;
  genesis_authority name (Authority threshold [] []) (Authority threshold [] []).

Definition fund_account (b : Z) (a : account_object) : res account_object :=
  h ← b *! 2;
  Ok (a <| balance := Asset b SOPHIATX_SYMBOL |> <| holdings_considered_for_interests := h |>).

Definition create_init_miner (g : genesis_state_type) : DB unit :=
  let key := initial_public_key g in
  genesis_account SOPHIATX_INIT_MINER_NAME (fun a => fund_account (initial_balace g) (a <| memo_key := key |>)) ;;
  genesis_authority SOPHIATX_INIT_MINER_NAME (key_authority key) (key_authority key) ;;
  id ← fresh_id witness_object_type;
  let w := (default_witness id) <| wit_owner := SOPHIATX_INIT_MINER_NAME |>
             <| signing_key := SOPHIATX_INIT_PUBLIC_MINING_KEY |> <| schedule := top19 |> in
  insert_new witnesses (data SOPHIATX_INIT_MINER_NAME)
    (if Config.is_private_net g
     then w <| props ::= fun p => p <| account_creation_fee := Asset 0 SOPHIATX_SYMBOL |> |> else w).

(** An account of the genesis file; without a key it is owned by initminer. *)
Definition create_initial_account (total : Z) (acc : initial_account_type) : DB Z :=
  t ← ⌈ total +! ia_balance acc ⌉;
  let active := key_authority (ia_key acc) in
  let owner := if ia_key acc =? null_key
               then (add_account_authority empty_authority SOPHIATX_INIT_MINER_NAME 1) <| weight_threshold := 1 |>
               else active in
  genesis_account (ia_name acc) (fun a => fund_account (ia_balance acc)
    (a <| memo_key := ia_key acc |> <| recovery_account := SOPHIATX_INIT_MINER_NAME |>
       <| reset_account := SOPHIATX_INIT_MINER_NAME |>)) ;;
  genesis_authority (ia_name acc) owner active ;;
  mret t.

Definition genesis_properties (g : genesis_state_type) (chain : Z) (total : Z)
    : dynamic_global_property_object :=
  default_dgpo <| current_witness := SOPHIATX_INIT_MINER_NAME |> <| time := genesis_time g |>
    <| recent_slots_filled := UINT128_MAX |> <| participation_count := 128 |>
    <| current_supply := Asset total SOPHIATX_SYMBOL |>
    <| gpo_maximum_block_size := SOPHIATX_MAX_BLOCK_SIZE |>
    <| witness_required_vesting :=
         Asset (if Config.is_private_net g then 0 else SOPHIATX_INITIAL_WITNESS_REQUIRED_VESTING_BALANCE)
           VESTS_SYMBOL |>
    <| gpo_genesis_time := genesis_time g |> <| chain_id := chain |>
    <| private_net := Config.is_private_net g |>.

Definition genesis_feed (sym : Z) : DB unit :=
  insert_new feed_histories sym {| fh_symbol := sym; current_median_history := null_price; price_history := [] |}.

(** The counter of a [for] loop: [n] values from [i]. *)
Fixpoint up_from (i : Z) (n : nat) : list Z :=
  match n with O => [] | S n => i :: up_from (i + 1) n end.

Definition init_genesis (g : genesis_state_type) (chain : Z) : DB unit :=
  old ← gets skip_flags;
  puts (fun s => s <| skip_flags := Z.lor old skip_authority_check |>) ;;
  reserved_account SOPHIATX_MINER_ACCOUNT 1 ;;
  reserved_account SOPHIATX_NULL_ACCOUNT 1 ;;
  reserved_account SOPHIATX_TEMP_ACCOUNT 0 ;;
  total ← ⌈ 0 +! initial_balace g ⌉;
  create_init_miner g ;;
  total ← foldM create_initial_account total (initial_accounts g);
  puts (fun s => s <| dgpo := genesis_properties g chain total |>) ;;
  e ← ⌈ init_economics total SOPHIATX_TOTAL_SUPPLY default_economic_model ⌉;
  puts (fun s => s <| econ := e |>) ;;
  forM [SBD1_SYMBOL; SBD2_SYMBOL; SBD3_SYMBOL; SBD4_SYMBOL; SBD5_SYMBOL] genesis_feed ;;
  forM (up_from 0 (Z.to_nat 0x10000)) (fun i => insert_new block_summaries i null_hash) ;;
  puts (fun s => s <| hpo := default_hardfork_property <| processed_hardforks := [genesis_time g] |> |>
                   <| wso := default_witness_schedule
                               <| current_shuffled_witnesses := [SOPHIATX_INIT_MINER_NAME] |> |>
                   <| skip_flags := old |>).

(** ** The coins of the first state *)
Definition funded (b : Z) (m : money) : money := m <| m_liquid ::= Z.add b |>.

Lemma genesis_account_money name f b s u s' :
  (forall a a', acc_liquid a = 0 -> acc_vested a = 0 -> f a = Ok a' -> acc_liquid a' = b /\ acc_vested a' = 0) ->
  genesis_account name f s = Ok (u, s') -> money_of s' = funded b (money_of s).
Proof.
  intros Hf H. unfold genesis_account in H. apply bind_Ok in H as (id & s1 & H1 & H).
  assert (E : money_of s1 = money_of s) by (refine (frames_run _ _ _ _ _ H1 _); keeps).
  apply bind_Ok in H as (a & s2 & Ha & H). apply lift_Ok in Ha as [Ha ->].
  apply Hf in Ha as [B1 B2]; [|done..]. apply insert_new_Ok in H as [Hk ->].
  rewrite money_new_account, E, B1, B2 by done. unfold funded. destruct (money_of s). simpl. f_equal; lia.
Qed.

Lemma fund_account_money b a a' : acc_vested a = 0 -> fund_account b a = Ok a' ->
  acc_liquid a' = b /\ acc_vested a' = 0.
Proof. unfold fund_account. intros Hv H. minv. done. Qed.

Lemma keeps_genesis_authority n o a : keeps (genesis_authority n o a).
Proof. unfold genesis_authority. keeps. Qed.
Hint Resolve keeps_genesis_authority : frame.

Lemma reserved_account_money n t s u s' : reserved_account n t s = Ok (u, s') -> money_of s' = money_of s.
Proof.
  intros H. unfold reserved_account in H. apply bind_Ok in H as ([] & s1 & H1 & H).
  keeps_of H E. apply (genesis_account_money _ _ 0) in H1; [|by intros a a' ? ? [= <-]].
  rewrite E, H1. unfold funded. by destruct (money_of s).
Qed.

Lemma create_init_miner_money g s u s' : create_init_miner g s = Ok (u, s') ->
  money_of s' = funded (initial_balace g) (money_of s).
Proof.
  intros H. unfold create_init_miner in H. apply bind_Ok in H as ([] & s1 & H1 & H).
  assert (E : money_of s' = money_of s1).
  { refine (frames_run _ _ _ _ _ H _). keeps. }
  rewrite E. apply (genesis_account_money _ _ _ _ _ _) with (2 := H1).
  intros a a' _ Hv Hf. apply fund_account_money in Hf; [exact Hf|exact Hv].
Qed.

Lemma create_initial_account_money t acc s t' s' : create_initial_account t acc s = Ok (t', s') ->
  t' = t + ia_balance acc /\ money_of s' = funded (ia_balance acc) (money_of s).
Proof.
  intros H. unfold create_initial_account in H. apply bind_Ok in H as (t1 & s1 & Ht & H).
  apply lift_Ok in Ht as [Ht ->]. apply safe_add_val in Ht. cbv zeta in H.
  apply bind_Ok in H as ([] & s1 & H1 & H). apply bind_Ok in H as ([] & s2 & H2 & H).
  apply ret_Ok, pair_eq in H as [-> ->]. keeps_of H2 E. split; [done|]. rewrite E.
  apply (genesis_account_money _ _ _ _ _ _) with (2 := H1).
  intros a a' _ Hv Hf. apply fund_account_money in Hf; [exact Hf|exact Hv].
Qed.

Lemma create_initial_accounts_money l t s t' s' : foldM create_initial_account t l s = Ok (t', s') ->
  exists b, t' = t + b /\ money_of s' = funded b (money_of s).
Proof.
  revert t s. induction l as [|acc l IH]; intros t s H; cbn [foldM] in H.
  { apply ret_Ok, pair_eq in H as [-> ->]. exists 0. split; [lia|].
    unfold funded. by destruct (money_of s). }
  apply bind_Ok in H as (t1 & s1 & H1 & H). apply create_initial_account_money in H1 as [-> H1].
  apply IH in H as (b & -> & H). exists (ia_balance acc + b). split; [lia|].
  rewrite H, H1. unfold funded. destruct (money_of s). simpl. f_equal. lia.
Qed.

Lemma frames_init_genesis g chain : frames escrows (init_genesis g chain).
Proof.
  unfold init_genesis, reserved_account, create_init_miner, create_initial_account, genesis_account,
    genesis_authority, genesis_feed. frame.
Qed.

(** The pools of a new chain: what the percentages leave over by rounding is in
    no pool. *)
Definition coinbase_rounding (coinbase : Z) : Z :=
  coinbase - (Z.quot (coinbase * SOPHIATX_MINING_POOL_PERCENTAGE) SOPHIATX_100_PERCENT
              + Z.quot (coinbase * SOPHIATX_INTEREST_POOL_PERCENTAGE) SOPHIATX_100_PERCENT
              + Z.quot (coinbase * SOPHIATX_PROMOTION_POOL_PERCENTAGE) SOPHIATX_100_PERCENT).

Lemma init_economics_pools i t e e' : pools_total e = 0 -> init_economics i t e = Ok e' ->
  mining_pool_from_fees e = 0 -> interest_pool_from_fees e = 0 -> burn_pool e = 0 ->
  pools_total e' = (t - i) - coinbase_rounding (t - i) /\ accumulated_supply e' = accumulated_supply e /\
  interest_pool_from_coinbase e' = Z.quot ((t - i) * SOPHIATX_INTEREST_POOL_PERCENTAGE) SOPHIATX_100_PERCENT.
Proof.
  unfold init_economics, percent_of, coinbase_rounding. intros He H F1 F2 F3. minv. safe_vals. subst.
  unfold pools_total. cbn [upd mining_pool_from_coinbase interest_pool_from_coinbase promotion_pool
    mining_pool_from_fees interest_pool_from_fees burn_pool accumulated_supply].
  rewrite F1, F2, F3. split; [lia|done].
Qed.

Lemma coinbase_rounding_bounds c : 0 <= c ->
  0 <= SOPHIATX_MINING_POOL_PERCENTAGE -> 0 <= SOPHIATX_INTEREST_POOL_PERCENTAGE ->
  0 <= SOPHIATX_PROMOTION_POOL_PERCENTAGE ->
  SOPHIATX_MINING_POOL_PERCENTAGE + SOPHIATX_INTEREST_POOL_PERCENTAGE + SOPHIATX_PROMOTION_POOL_PERCENTAGE
    = SOPHIATX_100_PERCENT ->
  0 <= coinbase_rounding c <= 2 /\ ((SOPHIATX_100_PERCENT | c) -> coinbase_rounding c = 0).
Proof.
  intros Hc Hm Hi Hp Hsum. unfold coinbase_rounding. set (m := SOPHIATX_MINING_POOL_PERCENTAGE) in *.
  set (i := SOPHIATX_INTEREST_POOL_PERCENTAGE) in *. set (p := SOPHIATX_PROMOTION_POOL_PERCENTAGE) in *.
  clearbody m i p. unfold SOPHIATX_100_PERCENT in *. rewrite !Z.quot_div_nonneg by nia. split.
  - pose proof (Z.div_mod (c * m) 10000). pose proof (Z.div_mod (c * i) 10000).
    pose proof (Z.div_mod (c * p) 10000). pose proof (Z.mod_pos_bound (c * m) 10000).
    pose proof (Z.mod_pos_bound (c * i) 10000). pose proof (Z.mod_pos_bound (c * p) 10000).
    assert (c * m + c * i + c * p = c * 10000) by (rewrite <- Hsum; lia). lia.
  - intros [k ->]. rewrite !(Z.mul_comm k 10000), <- !Z.mul_assoc, !(Z.mul_comm 10000 (k * _)), !Z.div_mul by done.
    nia.
Qed.

Lemma money_genesis_gpo g chain total s :
  money_of (s <| dgpo := genesis_properties g chain total |>) =
  (money_of s) <| m_supply := total |> <| m_tvest := 0 |>.
Proof. done. Qed.

Lemma init_genesis_money g chain u s : init_genesis g chain empty_db = Ok (u, s) ->
  exists total e, money_of s = Money total 0 0 total 0 (pools_total e) /\ econ s = e /\
    init_economics total SOPHIATX_TOTAL_SUPPLY default_economic_model = Ok e /\
    amount (current_supply (dgpo s)) = total.
Proof.
  intros H. unfold init_genesis in H.
  apply bind_Ok in H as (old & s1 & H1 & H). apply gets_Ok in H1 as [-> ->].
  apply bind_Ok in H as ([] & s1 & H1 & H). apply puts_Ok in H1 as [_ ->].
  apply bind_Ok in H as ([] & s1 & H1 & H). apply reserved_account_money in H1.
  apply bind_Ok in H as ([] & s2 & H2 & H). apply reserved_account_money in H2.
  apply bind_Ok in H as ([] & s3 & H3 & H). apply reserved_account_money in H3.
  apply bind_Ok in H as (t & s4 & Ht & H). apply lift_Ok in Ht as [Ht ->]. apply safe_add_val in Ht.
  apply bind_Ok in H as ([] & s4 & H4 & H). apply create_init_miner_money in H4.
  apply bind_Ok in H as (t2 & s5 & H5 & H). apply create_initial_accounts_money in H5 as (b & -> & H5).
  apply bind_Ok in H as ([] & s6 & H6 & H). apply puts_Ok in H6 as [_ ->].
  apply bind_Ok in H as (e & s6 & He & H). apply lift_Ok in He as [He ->].
  apply bind_Ok in H as ([] & s6 & H6 & H). apply puts_Ok in H6 as [_ ->].
  set (s6 := upd econ _ _) in H.
  assert (Fm : money_of s = money_of s6) by (refine (frames_run money_of _ _ _ _ H _); unfold genesis_feed; frame).
  assert (Fe : econ s = econ s6) by (refine (frames_run econ _ _ _ _ H _); unfold genesis_feed; frame).
  assert (Fd : dgpo s = dgpo s6) by (refine (frames_run dgpo _ _ _ _ H _); unfold genesis_feed; frame).
  exists (t + b), e. rewrite Fm, Fe, Fd. split; [|done].
  assert (M : money_of s5 = Money (t + b) 0 0 0 0 0).
  { rewrite H5, H4, H3, H2, H1. subst t.
    change (money_of (upd skip_flags _ empty_db)) with (Money 0 0 0 0 0 0).
    unfold funded. simpl. f_equal; lia. }
  subst s6. rewrite (money_set_econ e (pools_total e - pools_total (econ s5))) by (simpl; lia).
  rewrite money_genesis_gpo, M. assert (P : pools_total (econ s5) = m_pools (money_of s5)) by done.
  rewrite P, M. simpl. f_equal. lia.
Qed.

Lemma init_genesis_upto g chain u s : init_genesis g chain empty_db = Ok (u, s) ->
  0 <= SOPHIATX_MINING_POOL_PERCENTAGE -> 0 <= SOPHIATX_INTEREST_POOL_PERCENTAGE ->
  0 <= SOPHIATX_PROMOTION_POOL_PERCENTAGE ->
  SOPHIATX_MINING_POOL_PERCENTAGE + SOPHIATX_INTEREST_POOL_PERCENTAGE + SOPHIATX_PROMOTION_POOL_PERCENTAGE
    = SOPHIATX_100_PERCENT ->
  0 <= amount (current_supply (dgpo s)) <= SOPHIATX_TOTAL_SUPPLY -> SOPHIATX_TOTAL_SUPPLY <= INT64_MAX ->
  sound_upto (SOPHIATX_TOTAL_SUPPLY
    - coinbase_rounding (SOPHIATX_TOTAL_SUPPLY - amount (current_supply (dgpo s)))) s.
Proof.
  intros H Hm Hi Hp Hsum Hs Ht. pose proof (frames_init_genesis _ _ _ _ _ H) as Fe.
  apply init_genesis_money in H as (total & e & M & E & He & S). rewrite S in *.
  destruct (init_economics_pools total SOPHIATX_TOTAL_SUPPLY default_economic_model e) as (P & A & I); try done.
  split; [|split].
  - unfold imbalance. rewrite M. unfold defects. simpl. repeat (apply pair_eq; split); lia.
  - unfold fees_paid. rewrite Fe. intros k esc Hk. cbn [escrows empty_db] in Hk. by rewrite lookup_empty in Hk.
  - unfold econ_bounded. rewrite E, A. split; [unfold INT64_MAX; simpl; lia|].
    rewrite I, Z.quot_div_nonneg by (unfold SOPHIATX_100_PERCENT; nia).
    transitivity (SOPHIATX_TOTAL_SUPPLY - total); [|lia].
    apply Z.div_le_upper_bound; unfold SOPHIATX_100_PERCENT in *; nia.
Qed.
End genesis.
