(* ===== verification/Chainbase.v ===== *)
(** * Chainbase: the undo history of the object tables
    ([chainbase/include/chainbase/chainbase.hpp]: [generic_index], [undo_state]).

    A table maps ids to objects; [keys] gives the unique secondary keys of an
    object, two objects that share one do not fit in the same table.  Operations
    here return the table also when they throw: what an exception leaves behind is
    what an undo session has to repair.  The abstract specification is a stack of
    snapshots of the table ([history]). *)
From stdpp Require Import gmap.
From S2P Require Import Prelude.
Local Open Scope Z_scope.
Local Open Scope list_scope.

Record undo_state (V : Type) := UndoState {
  old_values : gmap Z V;
  removed_values : gmap Z V;
  new_ids : gset Z;
  old_next_id : Z;
  us_revision : Z }.
Arguments UndoState {V}.
Arguments old_values {V}.
Arguments removed_values {V}.
Arguments new_ids {V}.
Arguments old_next_id {V}.
Arguments us_revision {V}.
#[export] Instance undo_state_eta V : Eta (undo_state V) := fun u =>
  UndoState (old_values u) (removed_values u) (new_ids u) (old_next_id u) (us_revision u).

(** [_stack] has the latest session first. *)
Record generic_index (V : Type) := GenericIndex {
  _stack : list (undo_state V);
  _revision : Z;
  _next_id : Z;
  _indices : gmap Z V }.
Arguments GenericIndex {V}.
Arguments _stack {V}.
Arguments _revision {V}.
Arguments _next_id {V}.
Arguments _indices {V}.
#[export] Instance generic_index_eta V : Eta (generic_index V) := fun i =>
  GenericIndex (_stack i) (_revision i) (_next_id i) (_indices i).

Section chainbase.
  Context {V K : Type} `{EqDecision K} (keys : V -> list K).
  Implicit Types (i : generic_index V) (u : undo_state V) (t : gmap Z V) (v : V).

Definition clash (v w : V) : bool := existsb (fun k => bool_decide (k ∈ keys w)) (keys v).
(** Whether an object fits beside the others under an id. *)
Definition fits (id : Z) (v : V) (t : gmap Z V) : bool :=
  forallb (fun kw => (fst kw =? id) || negb (clash v (snd kw))) (map_to_list t).

(** ** The operations on the table below the undo history *)
Definition indices_emplace (id : Z) (v : V) (t : gmap Z V) : option (gmap Z V) :=
  match t !! id with
  | Some _ => None
  | None => if fits id v t then Some (<[id := v]> t) else None
  end.
(** [multi_index::modify]: an object that does not fit afterwards is erased. *)
Definition indices_modify (id : Z) (f : V -> V) (t : gmap Z V) : gmap Z V * res unit :=
  match t !! id with
  | None => (t, Throw crash)
  | Some v => if fits id (f v) t then (<[id := f v]> t, Ok tt) else (delete id t, Throw logic_error)
  end.

Definition on_head (f : undo_state V -> undo_state V) (i : generic_index V) : generic_index V :=
  match _stack i with
  | [] => i
  | head :: rest => i <| _stack := f head :: rest |>
  end.

(** What the change set of the running session notes of a change. *)
Definition note_modify (id : Z) (v : V) (head : undo_state V) : undo_state V :=
  if bool_decide (id ∈ new_ids head) then head
  else match old_values head !! id with
       | Some _ => head
       | None => head <| old_values ::= <[id := v]> |>
       end.
Definition note_remove (id : Z) (v : V) (head : undo_state V) : undo_state V :=
  if bool_decide (id ∈ new_ids head) then head <| new_ids ::= fun s => s ∖ {[id]} |>
  else match old_values head !! id with
       | Some w =>
           head <| removed_values ::= fun m => match m !! id with Some _ => m | None => <[id := w]> m end |>
                <| old_values ::= delete id |>
       | None =>
           match removed_values head !! id with
           | Some _ => head
           | None => head <| removed_values ::= <[id := v]> |>
           end
       end.
Definition note_create (id : Z) (head : undo_state V) : undo_state V :=
  head <| new_ids ::= fun s => s ∪ {[id]} |>.

Definition on_modify (id : Z) (v : V) : generic_index V -> generic_index V := on_head (note_modify id v).
Definition on_remove (id : Z) (v : V) : generic_index V -> generic_index V := on_head (note_remove id v).
Definition on_create (id : Z) : generic_index V -> generic_index V := on_head (note_create id).

(** ** The operations of [generic_index] *)
Definition emplace (c : Z -> V) (i : generic_index V) : generic_index V * res Z :=
  let new_id := _next_id i in
  match indices_emplace new_id (c new_id) (_indices i) with
  | None => (i, Throw logic_error)
  | Some t => (on_create new_id (i <| _indices := t |> <| _next_id := new_id + 1 |>), Ok new_id)
  end.

Definition modify (id : Z) (f : V -> V) (i : generic_index V) : generic_index V * res unit :=
  match _indices i !! id with
  | None => (i, Throw crash)
  | Some v =>
      let i := on_modify id v i in
      let '(t, r) := indices_modify id f (_indices i) in
      (i <| _indices := t |>, r)
  end.

Definition remove (id : Z) (i : generic_index V) : generic_index V * res unit :=
  match _indices i !! id with
  | None => (i, Throw crash)
  | Some v => ((on_remove id v i) <| _indices ::= delete id |>, Ok tt)
  end.

(** ** Sessions *)
Definition start_undo_session (i : generic_index V) : generic_index V :=
  let revision := _revision i + 1 in
  i <| _stack ::= cons (UndoState ∅ ∅ ∅ (_next_id i) revision) |> <| _revision := revision |>.

(** [undo] goes through the maps in the order of the ids. *)
Fixpoint restore_old (l : list (Z * V)) (t : gmap Z V) : gmap Z V * res unit :=
  match l with
  | [] => (t, Ok tt)
  | (id, v) :: l =>
      let '(t, r) := indices_modify id (fun _ => v) t in
      match r with Ok _ => restore_old l t | Throw e => (t, Throw e) end
  end.
(** Erasing an id that is not there is undefined. *)
Fixpoint erase_new (l : list Z) (t : gmap Z V) : gmap Z V * res unit :=
  match l with
  | [] => (t, Ok tt)
  | id :: l =>
      match t !! id with None => (t, Throw crash) | Some _ => erase_new l (delete id t) end
  end.
Fixpoint restore_removed (l : list (Z * V)) (t : gmap Z V) : gmap Z V * res unit :=
  match l with
  | [] => (t, Ok tt)
  | (id, v) :: l =>
      match indices_emplace id v t with
      | None => (t, Throw logic_error)
      | Some t => restore_removed l t
      end
  end.

Definition undo (i : generic_index V) : generic_index V * res unit :=
  match _stack i with
  | [] => (i, Ok tt)
  | head :: rest =>
      let '(t, r) := restore_old (map_to_list (old_values head)) (_indices i) in
      match r with
      | Throw e => (i <| _indices := t |>, Throw e)
      | Ok _ =>
          let '(t, r) := erase_new (elements (new_ids head)) t in
          match r with
          | Throw e => (i <| _indices := t |>, Throw e)
          | Ok _ =>
              let i := i <| _next_id := old_next_id head |> in
              let '(t, r) := restore_removed (map_to_list (removed_values head)) t in
              match r with
              | Throw e => (i <| _indices := t |>, Throw e)
              | Ok _ => (GenericIndex rest (_revision i - 1) (_next_id i) t, Ok tt)
              end
          end
      end
  end.

(** ** squash: the last two change sets become one *)
Definition squash_old (prev : undo_state V) (kv : Z * V) : undo_state V :=
  let '(id, v) := kv in
  if bool_decide (id ∈ new_ids prev) then prev
  else match old_values prev !! id with
       | Some _ => prev
       | None => prev <| old_values ::= <[id := v]> |>
       end.
Definition squash_removed (prev : undo_state V) (kv : Z * V) : undo_state V :=
  let '(id, v) := kv in
  if bool_decide (id ∈ new_ids prev) then prev <| new_ids ::= fun s => s ∖ {[id]} |>
  else
    let insert_new w (m : gmap Z V) := match m !! id with Some _ => m | None => <[id := w]> m end in
    match old_values prev !! id with
    | Some w => prev <| removed_values ::= insert_new w |> <| old_values ::= delete id |>
    | None => prev <| removed_values ::= insert_new v |>
    end.
Definition merge_states (prev state : undo_state V) : undo_state V :=
  let prev := fold_left squash_old (map_to_list (old_values state)) prev in
  let prev := prev <| new_ids ::= fun s => s ∪ new_ids state |> in
  fold_left squash_removed (map_to_list (removed_values state)) prev.

(** With one session left its change set is dropped and the revision stays. *)
Definition squash (i : generic_index V) : generic_index V :=
  match _stack i with
  | [] => i
  | [_] => i <| _stack := [] |>
  | state :: prev :: rest =>
      i <| _stack := merge_states prev state :: rest |> <| _revision ::= fun r => r - 1 |>
  end.

(** [while( _stack.size() && _stack[0].revision <= revision ) _stack.pop_front();]
    from the oldest session on. *)
Definition drop_old (revision : Z) : list (undo_state V) -> list (undo_state V) :=
  fix drop_old l :=
    match l with
    | u :: l' => if us_revision u <=? revision then drop_old l' else l
    | [] => []
    end.
Definition commit (revision : Z) (i : generic_index V) : generic_index V :=
  i <| _stack ::= fun s => rev (drop_old revision (rev s)) |>.

Fixpoint undo_all_fuel (n : nat) (i : generic_index V) : generic_index V * res unit :=
  match n, _stack i with
  | _, [] => (i, Ok tt)
  | O, _ => (i, Throw crash)
  | S n, _ =>
      let '(i, r) := undo i in
      match r with Ok _ => undo_all_fuel n i | Throw e => (i, Throw e) end
  end.
(** Each round removes a session. *)
Definition undo_all (i : generic_index V) : generic_index V * res unit :=
  undo_all_fuel (length (_stack i)) i.

Definition set_revision (revision : Z) (i : generic_index V) : generic_index V * res unit :=
  match _stack i with
  | [] => (i <| _revision := revision |>, Ok tt)
  | _ => (i, Throw logic_error)
  end.

(** A session around a call: its changes are undone when it throws and stay on
    the stack as one change set otherwise ([~session], [push]). *)
Definition with_session {A} (body : generic_index V -> generic_index V * res A)
    (i : generic_index V) : generic_index V * res A :=
  let '(i, r) := body (start_undo_session i) in
  match r with
  | Ok a => (i, Ok a)
  | Throw e => let '(i, u) := undo i in match u with Ok _ => (i, Throw e) | Throw e => (i, Throw e) end
  end.

(** ** The snapshots a stack of change sets stands for *)
Definition revert (u : undo_state V) (t : gmap Z V) : gmap Z V :=
  old_values u ∪ (removed_values u ∪ filter (fun kv => kv.1 ∉ new_ids u) t).
Fixpoint history (us : list (undo_state V)) (t : gmap Z V) : list (gmap Z V * Z) :=
  match us with
  | [] => []
  | u :: us => (revert u t, old_next_id u) :: history us (revert u t)
  end.
(** The abstract state: the table, the next id and the snapshots, latest first. *)
Definition abstract (i : generic_index V) : gmap Z V * Z * list (gmap Z V * Z) :=
  (_indices i, _next_id i, history (_stack i) (_indices i)).

Definition unique (t : gmap Z V) : Prop :=
  forall k1 k2 v1 v2, t !! k1 = Some v1 -> t !! k2 = Some v2 -> clash v1 v2 = true -> k1 = k2.
Definition below (n : Z) (t : gmap Z V) : Prop := forall k v, t !! k = Some v -> k < n.

(** A change set that leads to table [t] with next id [n].  Changing an object
    leaves its unique keys as they are. *)
Record layer (u : undo_state V) (t : gmap Z V) (n : Z) : Prop := {
  ly_next : old_next_id u <= n;
  ly_old : forall k w, old_values u !! k = Some w ->
    k < old_next_id u /\ exists v, t !! k = Some v /\ keys v = keys w;
  ly_removed : forall k w, removed_values u !! k = Some w -> k < old_next_id u /\ t !! k = None;
  ly_new : forall k, k ∈ new_ids u <-> is_Some (t !! k) /\ old_next_id u <= k }.
Fixpoint layers (us : list (undo_state V)) (t : gmap Z V) (n : Z) : Prop :=
  unique t /\ below n t /\
  match us with
  | [] => True
  | u :: us => layer u t n /\ layers us (revert u t) (old_next_id u)
  end.
Definition index_ok (i : generic_index V) : Prop := layers (_stack i) (_indices i) (_next_id i).

(** ** Lemmas on tables *)
Lemma clash_sym v w : clash v w = clash w v.
Proof.
  unfold clash. apply eq_true_iff_eq. rewrite !existsb_exists.
  split; intros (k & Hk & H); apply bool_decide_eq_true in H; exists k;
    rewrite <- list_elem_of_In in *; by rewrite bool_decide_eq_true.
Qed.
Lemma clash_keys v v' w : keys v = keys v' -> clash v w = clash v' w.
Proof. intros H. unfold clash. by rewrite H. Qed.

Lemma fits_spec id v t :
  fits id v t = true <-> forall k w, t !! k = Some w -> k <> id -> clash v w = false.
Proof.
  unfold fits. rewrite forallb_forall. split.
  - intros H k w Hk Hn. specialize (H (k, w)). rewrite <- list_elem_of_In, elem_of_map_to_list in H.
    specialize (H Hk). simpl in H. apply orb_true_iff in H as [H|H]; [by apply Z.eqb_eq in H|].
    by apply negb_true_iff.
  - intros H [k w] Hk. rewrite <- list_elem_of_In, elem_of_map_to_list in Hk. simpl.
    apply orb_true_iff. destruct (decide (k = id)) as [->|Hn]; [left; apply Z.eqb_refl|right].
    apply negb_true_iff. by apply (H k).
Qed.

Lemma unique_fits id v w t : unique t -> t !! id = Some v -> keys w = keys v -> fits id w t = true.
Proof.
  intros Hu Hid Hw. apply fits_spec. intros k x Hk Hn. destruct (clash w x) eqn:E; [|done].
  rewrite (clash_keys w v) in E by done. by apply (Hu id k v x) in E.
Qed.
Lemma unique_set id v w t : unique t -> t !! id = Some v -> keys w = keys v -> unique (<[id := w]> t).
Proof.
  intros Hu Hid Hw k1 k2 v1 v2 H1 H2 Hc.
  assert (Hget : forall k x, <[id := w]> t !! k = Some x -> exists y, t !! k = Some y /\ keys x = keys y).
  { intros k x [[-> ->]|[_ Hx]]%lookup_insert_Some; eauto. }
  apply Hget in H1 as (y1 & H1 & E1). apply Hget in H2 as (y2 & H2 & E2).
  rewrite (clash_keys _ y1), clash_sym, (clash_keys _ y2), clash_sym in Hc by done. by apply (Hu _ _ y1 y2).
Qed.
Lemma unique_insert id v t : unique t -> fits id v t = true -> t !! id = None -> unique (<[id := v]> t).
Proof.
  intros Hu Hf Hid k1 k2 v1 v2 H1 H2 Hc. rewrite fits_spec in Hf.
  apply lookup_insert_Some in H1 as [[<- <-]|[N1 H1]]; apply lookup_insert_Some in H2 as [[<- <-]|[N2 H2]].
  - done.
  - rewrite (Hf k2 v2) in Hc; [done|done|congruence].
  - rewrite clash_sym, (Hf k1 v1) in Hc; [done|done|congruence].
  - by apply (Hu _ _ v1 v2).
Qed.
Lemma unique_subset t t' : t ⊆ t' -> unique t' -> unique t.
Proof. intros Hs Hu k1 k2 v1 v2 H1 H2. apply (Hu k1 k2 v1 v2); by eapply lookup_weaken. Qed.

Lemma lookup_revert u t k :
  revert u t !! k = match old_values u !! k with
                    | Some w => Some w
                    | None => match removed_values u !! k with
                              | Some w => Some w
                              | None => if bool_decide (k ∈ new_ids u) then None else t !! k
                              end
                    end.
Proof.
  unfold revert. rewrite lookup_union. destruct (old_values u !! k) as [w|]; simpl.
  { by rewrite union_Some_l. }
  rewrite option_union_left_id, lookup_union. destruct (removed_values u !! k) as [w|]; simpl.
  { by rewrite union_Some_l. }
  rewrite option_union_left_id. destruct (bool_decide _) eqn:E.
  - apply bool_decide_eq_true in E. apply map_lookup_filter_None. right. by intros x _ Hx.
  - apply bool_decide_eq_false in E. destruct (t !! k) as [v|] eqn:Hk.
    + by apply map_lookup_filter_Some.
    + apply map_lookup_filter_None. by left.
Qed.

(** ** Changes of the table keep the snapshots *)
Ltac revert_tac k := apply map_eq; intros k; rewrite !lookup_revert.

Lemma note_modify_entries id v u k w : old_values (note_modify id v u) !! k = Some w ->
  old_values u !! k = Some w \/ (k = id /\ w = v /\ id ∉ new_ids u).
Proof.
  unfold note_modify. destruct (bool_decide _) eqn:E; [by left|]. apply bool_decide_eq_false in E.
  destruct (old_values u !! id) eqn:E2; [by left|]. intros Hx. simpl in Hx.
  apply lookup_insert_Some in Hx as [[<- <-]|[_ Hx]]; [by right|by left].
Qed.
Lemma note_modify_rest id v u : old_next_id (note_modify id v u) = old_next_id u /\
  removed_values (note_modify id v u) = removed_values u /\ new_ids (note_modify id v u) = new_ids u.
Proof. unfold note_modify. destruct (bool_decide _); [done|]. by destruct (old_values u !! id). Qed.

Lemma layer_modify id v w u t n : layer u t n -> t !! id = Some v -> keys w = keys v ->
  layer (note_modify id v u) (<[id := w]> t) n /\
  revert (note_modify id v u) (<[id := w]> t) = revert u t.
Proof.
  intros [L1 L2 L3 L4] Hid Hw. destruct (note_modify_rest id v u) as (U1 & U2 & U3). split.
  - assert (Hget : forall k x, t !! k = Some x -> exists y, <[id := w]> t !! k = Some y /\ keys y = keys x).
    { intros k x Hx. destruct (decide (k = id)) as [->|Hn]; [|rewrite lookup_insert_ne by done; eauto].
      rewrite lookup_insert_eq. rewrite Hid in Hx. injection Hx as <-. eauto. }
    split; rewrite ?U1, ?U2, ?U3; [done| | |].
    + intros k x [Hx|(-> & -> & Hn)]%note_modify_entries.
      * destruct (L2 k x Hx) as (Hk & y & Hy & E). split; [done|]. destruct (Hget k y Hy) as (z & Hz & Ez).
        exists z. split; [done|congruence].
      * split; [|exists w; by rewrite lookup_insert_eq].
        destruct (Z_lt_ge_dec id (old_next_id u)); [done|]. destruct Hn. apply L4. split; [eauto|lia].
    + intros k x Hx. destruct (L3 k x Hx) as [Hk Hn]. split; [done|]. apply lookup_insert_None.
      split; [done|congruence].
    + intros k. rewrite L4. destruct (decide (k = id)) as [->|Hn]; [|by rewrite lookup_insert_ne].
      rewrite lookup_insert_eq, Hid. naive_solver.
  - revert_tac k. unfold note_modify. destruct (bool_decide (id ∈ new_ids u)) eqn:E.
    + destruct (decide (k = id)) as [->|Hn]; [by rewrite E|]. by rewrite lookup_insert_ne.
    + destruct (old_values u !! id) as [x|] eqn:E2; simpl.
      * destruct (decide (k = id)) as [->|Hn]; [by rewrite E2|]. by rewrite lookup_insert_ne.
      * destruct (decide (k = id)) as [->|Hn]; [|by rewrite !lookup_insert_ne].
        rewrite lookup_insert_eq, E2, E. destruct (removed_values u !! id) as [x|] eqn:E3; [|done].
        by destruct (L3 id x E3) as [_ ?]; congruence.
Qed.

Lemma layer_create v u t n : layer u t n -> below n t ->
  layer (note_create n u) (<[n := v]> t) (n + 1) /\ revert (note_create n u) (<[n := v]> t) = revert u t.
Proof.
  intros [L1 L2 L3 L4] Hb. assert (Hn : t !! n = None).
  { destruct (t !! n) as [x|] eqn:E; [|done]. apply Hb in E. lia. }
  split; [split|]; simpl.
  - lia.
  - intros k w Hk. destruct (L2 k w Hk) as (H1 & x & Hx & H2). split; [done|]. exists x.
    rewrite lookup_insert_ne by congruence. done.
  - intros k w Hk. destruct (L3 k w Hk) as [H1 H2]. split; [done|]. apply lookup_insert_None. split; [done|lia].
  - intros k. rewrite elem_of_union, elem_of_singleton, L4. destruct (decide (k = n)) as [->|Hk].
    + rewrite lookup_insert_eq. split; [intros _; split; [by eexists|lia]|by right].
    + rewrite lookup_insert_ne by done. naive_solver.
  - revert_tac k. simpl. destruct (decide (k = n)) as [->|Hk].
    + rewrite (bool_decide_eq_true_2 (n ∈ _ ∪ _)) by set_solver. destruct (old_values u !! n); [done|].
      destruct (removed_values u !! n); [done|]. rewrite Hn. by destruct (bool_decide _).
    + rewrite lookup_insert_ne by done. destruct (old_values u !! k); [done|].
      destruct (removed_values u !! k); [done|].
      replace (bool_decide (k ∈ new_ids u ∪ {[n]})) with (bool_decide (k ∈ new_ids u)); [done|].
      apply bool_decide_ext. set_solver.
Qed.

Lemma note_remove_new id v u t n : layer u t n -> t !! id = Some v -> id ∈ new_ids u ->
  note_remove id v u = u <| new_ids ::= fun s => s ∖ {[id]} |> /\
  old_values u !! id = None /\ removed_values u !! id = None.
Proof.
  intros [L1 L2 L3 L4] Hid Hn. unfold note_remove. rewrite bool_decide_eq_true_2 by done.
  apply L4 in Hn as [_ Hle]. split; [done|]. split; apply eq_None_not_Some; intros [x Hx].
  - apply L2 in Hx as [? _]. lia.
  - apply L3 in Hx as [? _]. lia.
Qed.
Lemma note_remove_old id v u t n : layer u t n -> t !! id = Some v -> id ∉ new_ids u ->
  id < old_next_id u /\ removed_values u !! id = None /\
  note_remove id v u = u <| removed_values ::= <[id := default v (old_values u !! id)]> |>
                         <| old_values ::= delete id |>.
Proof.
  intros [L1 L2 L3 L4] Hid Hn. assert (Hr : removed_values u !! id = None).
  { destruct (removed_values u !! id) eqn:E; [|done]. apply L3 in E as [_ E]. congruence. }
  split; [|split; [done|]].
  - destruct (Z_lt_ge_dec id (old_next_id u)); [done|]. destruct Hn. apply L4. split; [eauto|lia].
  - unfold note_remove. rewrite bool_decide_eq_false_2, Hr by done. destruct (old_values u !! id) eqn:E; simpl.
    + by rewrite Hr.
    + rewrite delete_id by done. by destruct u.
Qed.

Lemma layer_remove id v u t n : layer u t n -> t !! id = Some v ->
  layer (note_remove id v u) (delete id t) n /\ revert (note_remove id v u) (delete id t) = revert u t.
Proof.
  intros L Hid. destruct (decide (id ∈ new_ids u)) as [Hn|Hn].
  - destruct (note_remove_new _ _ _ _ _ L Hid Hn) as (-> & E1 & E2). destruct L as [L1 L2 L3 L4].
    split; [split|]; simpl.
    + done.
    + intros k w Hk. destruct (L2 k w Hk) as (H1 & x & Hx & H2). split; [done|]. exists x.
      rewrite lookup_delete_ne by congruence. done.
    + intros k w Hk. destruct (L3 k w Hk) as [H1 H2]. split; [done|]. apply lookup_delete_None. by right.
    + intros k. rewrite elem_of_difference, elem_of_singleton, L4.
      destruct (decide (k = id)) as [->|Hk]; [rewrite lookup_delete_eq|rewrite lookup_delete_ne by done];
        naive_solver.
    + revert_tac k. simpl. destruct (decide (k = id)) as [->|Hk].
      * rewrite E1, E2, lookup_delete_eq, (bool_decide_eq_true_2 (id ∈ new_ids u)) by done.
        by destruct (bool_decide _).
      * rewrite lookup_delete_ne by done. replace (bool_decide (k ∈ new_ids u ∖ {[id]})) with (bool_decide (k ∈ new_ids u)); [done|].
        apply bool_decide_ext. set_solver.
  - destruct (note_remove_old _ _ _ _ _ L Hid Hn) as (E1 & E2 & ->). destruct L as [L1 L2 L3 L4].
    split; [split|]; simpl.
    + done.
    + intros k w [Hk1 Hk]%lookup_delete_Some. destruct (L2 k w Hk) as (H1 & x & Hx & H2). split; [done|].
      exists x. by rewrite lookup_delete_ne.
    + intros k w [[<- _]|[Hk1 Hk]]%lookup_insert_Some; [split; [done|apply lookup_delete_eq]|].
      destruct (L3 k w Hk) as [H1 H2]. split; [done|]. apply lookup_delete_None. by right.
    + intros k. rewrite L4. destruct (decide (k = id)) as [->|Hk];
        [rewrite lookup_delete_eq|by rewrite lookup_delete_ne]. split; [lia|]. by intros [[x Hx] _].
    + revert_tac k. simpl. destruct (decide (k = id)) as [->|Hk].
      * rewrite lookup_delete_eq, lookup_insert_eq. destruct (old_values u !! id); [done|].
        by rewrite E2, bool_decide_eq_false_2, Hid.
      * by rewrite !lookup_delete_ne, lookup_insert_ne by done.
Qed.

(** ** The operations refine the snapshot stack *)
Lemma index_ok_table i : index_ok i -> unique (_indices i) /\ below (_next_id i) (_indices i).
Proof. unfold index_ok. destruct (_stack i); by intros (? & ? & _). Qed.

Lemma layers_head u u' us t t' n n' : layers (u :: us) t n -> unique t' -> below n' t' -> layer u' t' n' ->
  old_next_id u' = old_next_id u -> revert u' t' = revert u t ->
  layers (u' :: us) t' n' /\ history (u' :: us) t' = history (u :: us) t.
Proof.
  intros (_ & _ & _ & Hl) Hu Hb Hn Ho Hr. cbn [layers history]. rewrite Hr, Ho.
  split; [|done]. split; [done|]. split; [done|]. by split.
Qed.

(** A change of the table noted in the running change set, if there is one. *)
Lemma note_refines (note : undo_state V -> undo_state V) i t' n' : index_ok i -> unique t' -> below n' t' ->
  (forall u, layer u (_indices i) (_next_id i) -> layer (note u) t' n' /\
     revert (note u) t' = revert u (_indices i) /\ old_next_id (note u) = old_next_id u) ->
  let i' := (on_head note i) <| _indices := t' |> <| _next_id := n' |> in
  index_ok i' /\ abstract i' = (t', n', snd (abstract i)).
Proof.
  intros Hok Hu Hb Hn. destruct i as [[|u us] r n t]; unfold index_ok, abstract, on_head in *; simpl in *; [done|].
  destruct (Hn u) as (Hl & Hr & Ho); [by destruct Hok as (_ & _ & ? & _)|].
  destruct (layers_head u (note u) us t t' n n' Hok Hu Hb Hl Ho Hr) as [G1 G2]. split; [exact G1|]. f_equal. exact G2.
Qed.

Lemma modify_refines id f i v : index_ok i -> _indices i !! id = Some v -> keys (f v) = keys v ->
  exists i', modify id f i = (i', Ok tt) /\ index_ok i' /\
    abstract i' = (<[id := f v]> (_indices i), _next_id i, snd (abstract i)).
Proof.
  intros Hok Hid Hk. destruct (index_ok_table i Hok) as [Hu Hb].
  unfold modify. rewrite Hid. unfold on_modify.
  assert (E : _indices (on_head (note_modify id v) i) = _indices i /\
              _next_id (on_head (note_modify id v) i) = _next_id i) by (unfold on_head; by destruct (_stack i)).
  destruct E as [E1 E2]. rewrite E1. unfold indices_modify. rewrite Hid, (unique_fits id v) by done.
  eexists. split; [reflexivity|].
  destruct (note_refines (note_modify id v) i (<[id := f v]> (_indices i)) (_next_id i)) as [G1 G2]; try done.
  - by apply (unique_set id v).
  - intros k x [[<- <-]|[_ Hx]]%lookup_insert_Some; eauto.
  - intros u Hl. destruct (layer_modify id v (f v) _ _ _ Hl Hid Hk) as [L1 L2]. split; [done|]. split; [done|].
    apply note_modify_rest.
  - rewrite <- E2 in G1, G2. destruct (on_head (note_modify id v) i). simpl in *. rewrite E2 in *. by split.
Qed.

Lemma emplace_refines c i : index_ok i -> fits (_next_id i) (c (_next_id i)) (_indices i) = true ->
  exists i', emplace c i = (i', Ok (_next_id i)) /\ index_ok i' /\
    abstract i' = (<[_next_id i := c (_next_id i)]> (_indices i), _next_id i + 1, snd (abstract i)).
Proof.
  intros Hok Hf. destruct (index_ok_table i Hok) as [Hu Hb].
  assert (Hn : _indices i !! _next_id i = None).
  { destruct (_indices i !! _next_id i) as [x|] eqn:E; [|done]. apply Hb in E. lia. }
  unfold emplace, indices_emplace. rewrite Hn, Hf. eexists. split; [reflexivity|].
  destruct (note_refines (note_create (_next_id i)) i (<[_next_id i := c (_next_id i)]> (_indices i))
    (_next_id i + 1)) as [G1 G2]; try done.
  - by apply unique_insert.
  - intros k x [[<- <-]|[_ Hx]]%lookup_insert_Some; [lia|]. apply Hb in Hx. lia.
  - intros u Hl. destruct (layer_create (c (_next_id i)) _ _ _ Hl Hb) as [L1 L2]. done.
  - unfold on_create, on_head in *. destruct i as [[|u us] r n t]; by split.
Qed.

Lemma emplace_refused c i : index_ok i -> fits (_next_id i) (c (_next_id i)) (_indices i) = false ->
  emplace c i = (i, Throw logic_error).
Proof. intros Hok Hf. unfold emplace, indices_emplace. rewrite Hf. by destruct (_ !! _). Qed.

Lemma remove_refines id i v : index_ok i -> _indices i !! id = Some v ->
  exists i', remove id i = (i', Ok tt) /\ index_ok i' /\
    abstract i' = (delete id (_indices i), _next_id i, snd (abstract i)).
Proof.
  intros Hok Hid. destruct (index_ok_table i Hok) as [Hu Hb].
  unfold remove. rewrite Hid. eexists. split; [reflexivity|].
  destruct (note_refines (note_remove id v) i (delete id (_indices i)) (_next_id i)) as [G1 G2]; try done.
  - apply (unique_subset _ (_indices i)); [apply delete_subseteq|done].
  - intros k x [_ Hx]%lookup_delete_Some. eauto.
  - intros u Hl. destruct (layer_remove id v _ _ _ Hl Hid) as [L1 L2]. split; [done|]. split; [done|].
    unfold note_remove. destruct (bool_decide _); [done|]. destruct (old_values u !! id); [done|].
    by destruct (removed_values u !! id).
  - unfold on_remove, on_head in *. destruct i as [[|u us] r n t]; by split.
Qed.

Lemma start_refines i : index_ok i -> index_ok (start_undo_session i) /\
  abstract (start_undo_session i) = (_indices i, _next_id i, (_indices i, _next_id i) :: snd (abstract i)).
Proof.
  intros Hok. destruct (index_ok_table i Hok) as [Hu Hb].
  set (u := UndoState (∅ : gmap Z V) ∅ ∅ (_next_id i) (_revision i + 1)).
  assert (E : revert u (_indices i) = _indices i).
  { revert_tac k. simpl. rewrite !lookup_empty. by rewrite bool_decide_eq_false_2 by set_solver. }
  unfold index_ok, abstract, start_undo_session. simpl. fold u. rewrite E. split; [|done].
  split; [done|]. split; [done|]. split; [|done]. split; simpl; [lia| | |].
  - intros k w. by rewrite lookup_empty.
  - intros k w. by rewrite lookup_empty.
  - intros k. split; [set_solver|]. intros [[x Hx] Hk]. apply Hb in Hx. lia.
Qed.

(** ** undo goes back to the latest snapshot *)
Lemma restore_old_spec l t : NoDup l.*1 -> unique t ->
  (forall k w, (k, w) ∈ l -> exists v, t !! k = Some v /\ keys v = keys w) ->
  restore_old l t = (list_to_map l ∪ t, Ok tt) /\ unique (list_to_map l ∪ t).
Proof.
  revert t. induction l as [|[k w] l IH]; intros t Hnd Hu Hl; cbn [restore_old list_to_map foldr].
  { by rewrite map_empty_union. }
  cbn in Hnd. apply NoDup_cons in Hnd as [Hk Hnd].
  destruct (Hl k w) as (v & Hv & E); [by left|].
  unfold indices_modify. rewrite Hv, (unique_fits k v) by done. simpl.
  destruct (IH (<[k := w]> t)) as [H1 H2]; [done|by apply (unique_set k v)| |].
  { intros k' w' Hin. destruct (Hl k' w') as (v' & Hv' & E'); [by right|]. exists v'.
    rewrite lookup_insert_ne; [done|]. intros <-. destruct Hk. by apply list_elem_of_fmap; exists (k, w'). }
  assert (Ht : list_to_map l ∪ <[k := w]> t = <[k := w]> (list_to_map l) ∪ t).
  { rewrite <- insert_union_r, insert_union_l; [done|]. by apply not_elem_of_list_to_map_1. }
  rewrite H1, <- Ht. done.
Qed.

Lemma erase_new_spec l t : NoDup l -> (forall k, k ∈ l -> is_Some (t !! k)) ->
  erase_new l t = (filter (fun kv => kv.1 ∉ l) t, Ok tt).
Proof.
  revert t. induction l as [|k l IH]; intros t Hnd Hl; cbn [erase_new].
  { f_equal. symmetry. apply map_filter_id. intros k v _ H. by apply not_elem_of_nil in H || set_solver. }
  apply NoDup_cons in Hnd as [Hk Hnd]. destruct (Hl k) as [v Hv]; [by left|]. rewrite Hv.
  rewrite IH; [|done|].
  - f_equal. apply map_eq. intros j. apply option_eq. intros x. rewrite !map_lookup_filter_Some. simpl.
    rewrite lookup_delete_Some, not_elem_of_cons. naive_solver.
  - intros j Hj. rewrite lookup_delete_ne by congruence. apply Hl. by right.
Qed.

Lemma restore_removed_spec l t : NoDup l.*1 -> (forall k, k ∈ l.*1 -> t !! k = None) ->
  unique (list_to_map l ∪ t) -> restore_removed l t = (list_to_map l ∪ t, Ok tt).
Proof.
  revert t. induction l as [|[k w] l IH]; intros t Hnd Hl Hu; cbn [restore_removed list_to_map foldr].
  { by rewrite map_empty_union. }
  cbn in Hnd. apply NoDup_cons in Hnd as [Hk Hnd]. cbn [list_to_map foldr] in Hu.
  assert (Ht : list_to_map l ∪ <[k := w]> t = <[k := w]> (list_to_map l) ∪ t).
  { rewrite <- insert_union_r, insert_union_l; [done|]. by apply not_elem_of_list_to_map_1. }
  unfold indices_emplace. rewrite Hl by (left). rewrite (proj2 (fits_spec k w t)).
  - rewrite IH; [by rewrite Ht|done| |by rewrite Ht].
    intros j Hj. apply lookup_insert_None. split; [apply Hl; by right|congruence].
  - intros j x Hj Hn. destruct (clash w x) eqn:E; [|done]. destruct Hn.
    assert (Hj' : (<[k := w]> (list_to_map l) ∪ t) !! j = Some x).
    { rewrite <- Ht. apply lookup_union_Some_raw. right. split; [|].
      - apply not_elem_of_list_to_map_1. intros Hin. rewrite Hl in Hj; [done|]. by right.
      - rewrite lookup_insert_ne; [done|]. intros <-. by rewrite Hl in Hj by left. }
    symmetry. apply (Hu k j w x); [|done|done].
    apply lookup_union_Some_l, lookup_insert_eq.
Qed.

Lemma undo_refines i t n snaps : index_ok i -> snd (abstract i) = (t, n) :: snaps ->
  exists i', undo i = (i', Ok tt) /\ index_ok i' /\ abstract i' = (t, n, snaps).
Proof.
  intros Hok Ha. destruct i as [[|u us] r n0 t0]; unfold abstract in Ha; simpl in Ha; [done|].
  injection Ha as <- <- <-. destruct Hok as (Hu & Hb & [L1 L2 L3 L4] & Hrest). simpl in *.
  assert (Hur : unique (revert u t0)) by (destruct us; by destruct Hrest).
  unfold undo. simpl. set (lo := map_to_list (old_values u)).
  destruct (restore_old_spec lo t0) as [R1 U1]; [apply NoDup_fst_map_to_list|done| |].
  { intros k w Hin. apply elem_of_map_to_list in Hin. apply L2 in Hin as [_ (v & Hv & E)]. eauto. }
  rewrite R1. unfold lo. rewrite list_to_map_to_list.
  rewrite erase_new_spec; [|apply NoDup_elements|].
  2:{ intros k Hk. apply elem_of_elements, L4 in Hk as [[x Hx] _]. rewrite lookup_union_is_Some. right. eauto. }
  set (t1 := filter _ _).
  assert (Ht1 : list_to_map (map_to_list (removed_values u)) ∪ t1 = revert u t0).
  { rewrite list_to_map_to_list. apply map_eq. intros k. rewrite lookup_revert. apply option_eq. intros x.
    rewrite lookup_union_Some_raw. unfold t1. rewrite map_lookup_filter_Some, elem_of_elements, lookup_union_Some_raw.
    simpl. pose proof (L2 k). pose proof (L3 k). pose proof (L4 k).
    destruct (old_values u !! k) as [w|] eqn:E1, (removed_values u !! k) as [w'|] eqn:E2.
    - exfalso. destruct (L2 k w E1) as (_ & v & Hv & _). destruct (L3 k w' E2). congruence.
    - destruct (L2 k w E1) as (Hlt & _). assert (k ∉ new_ids u) by (rewrite L4; lia). naive_solver.
    - naive_solver.
    - destruct (bool_decide (k ∈ new_ids u)) eqn:E; [apply bool_decide_eq_true in E|apply bool_decide_eq_false in E];
        naive_solver. }
  rewrite restore_removed_spec; [|apply NoDup_fst_map_to_list| |by rewrite Ht1].
  - rewrite Ht1. eexists. split; [reflexivity|]. by split.
  - intros k Hk. apply list_elem_of_fmap in Hk as ([k' w] & -> & Hin). apply elem_of_map_to_list in Hin.
    destruct (L3 _ _ Hin) as [_ Hn]. simpl. unfold t1. apply map_lookup_filter_None. left.
    apply lookup_union_None. split; [|done].
    destruct (old_values u !! k') as [x|] eqn:E; [|done]. destruct (L2 _ _ E) as (_ & y & Hy & _). congruence.
Qed.

(** ** squash forgets the latest snapshot *)
Lemma squash_old_fold l p : NoDup l.*1 -> let q := fold_left squash_old l p in
  new_ids q = new_ids p /\ removed_values q = removed_values p /\ old_next_id q = old_next_id p /\
  forall k, old_values q !! k = match old_values p !! k with
    | Some w => Some w
    | None => if bool_decide (k ∈ new_ids p) then None else (list_to_map l : gmap Z V) !! k
    end.
Proof.
  revert p. induction l as [|[id v] l IH]; intros p Hnd; cbn [fold_left list_to_map foldr].
  { repeat split. intros k. rewrite lookup_empty. destruct (old_values p !! k); [done|]. by destruct (bool_decide _). }
  cbn in Hnd. apply NoDup_cons in Hnd as [Hid Hnd]. destruct (IH (squash_old p (id, v)) Hnd) as (E1 & E2 & E3 & E4).
  assert (S : new_ids (squash_old p (id, v)) = new_ids p /\
    removed_values (squash_old p (id, v)) = removed_values p /\ old_next_id (squash_old p (id, v)) = old_next_id p).
  { unfold squash_old. destruct (bool_decide _); [done|]. by destruct (old_values p !! id). }
  destruct S as (S1 & S2 & S3). repeat split; [congruence..|]. intros k. rewrite E4, S1. clear E1 E2 E3 E4.
  assert (Hl : (list_to_map l : gmap Z V) !! id = None) by by apply not_elem_of_list_to_map_1.
  unfold squash_old. destruct (decide (k = id)) as [->|Hk].
  - rewrite lookup_insert_eq. destruct (bool_decide (id ∈ new_ids p)) eqn:E; [done|].
    destruct (old_values p !! id) as [w|] eqn:E2; [by rewrite E2|]. simpl. by rewrite lookup_insert_eq.
  - rewrite (lookup_insert_ne (list_to_map l)) by done. destruct (bool_decide (id ∈ new_ids p)); [done|].
    destruct (old_values p !! id); [done|]. simpl. by rewrite lookup_insert_ne.
Qed.

Lemma squash_removed_fold l p : NoDup l.*1 -> let q := fold_left squash_removed l p in
  old_next_id q = old_next_id p /\ (forall k, k ∈ new_ids q <-> k ∈ new_ids p /\ k ∉ l.*1) /\
  (forall k, old_values q !! k =
     if bool_decide (k ∈ l.*1 /\ k ∉ new_ids p) then None else old_values p !! k) /\
  (forall k, removed_values q !! k = match removed_values p !! k with
     | Some w => Some w
     | None => if bool_decide (k ∈ new_ids p) then None
               else (fun v => default v (old_values p !! k)) <$> (list_to_map l : gmap Z V) !! k
     end).
Proof.
  revert p. induction l as [|[id v] l IH]; intros p Hnd; cbn [fold_left list_to_map foldr].
  { split; [done|]. split; [|split].
    - intros k. split; [intros H; split; [done|apply not_elem_of_nil]|by intros [H _]].
    - intros k. rewrite bool_decide_eq_false_2; [done|]. by intros [?%not_elem_of_nil _].
    - intros k. rewrite lookup_empty. destruct (removed_values p !! k); [done|]. by destruct (bool_decide _). }
  cbn in Hnd. apply NoDup_cons in Hnd as [Hid Hnd]. destruct (IH (squash_removed p (id, v)) Hnd) as (E1 & E2 & E3 & E4).
  assert (Hl : (list_to_map l : gmap Z V) !! id = None) by by apply not_elem_of_list_to_map_1.
  assert (S : old_next_id (squash_removed p (id, v)) = old_next_id p).
  { unfold squash_removed. destruct (bool_decide _); [done|]. by destruct (old_values p !! id). }
  assert (N : forall k, k ∈ new_ids (squash_removed p (id, v)) <-> k ∈ new_ids p /\ k <> id).
  { intros k. unfold squash_removed. destruct (bool_decide (id ∈ new_ids p)) eqn:E; simpl; [set_solver|].
    apply bool_decide_eq_false in E. destruct (old_values p !! id); simpl; naive_solver. }
  split; [congruence|]. split; [|split].
  - intros k. rewrite E2, N. simpl. set_solver.
  - intros k. rewrite E3. clear E1 E2 E3 E4. simpl. destruct (decide (k = id)) as [->|Hk].
    + rewrite (bool_decide_eq_false_2 (id ∈ l.*1 /\ _)) by naive_solver. unfold squash_removed.
      destruct (bool_decide (id ∈ new_ids p)) eqn:E.
      * apply bool_decide_eq_true in E. by rewrite bool_decide_eq_false_2 by naive_solver.
      * apply bool_decide_eq_false in E. rewrite bool_decide_eq_true_2 by set_solver.
        destruct (old_values p !! id) eqn:E5; simpl; [apply lookup_delete_eq|done].
    + rewrite (bool_decide_ext (k ∈ l.*1 /\ _) (k ∈ id :: l.*1 /\ k ∉ new_ids p)) by (rewrite N; set_solver).
      destruct (bool_decide _); [done|]. unfold squash_removed. destruct (bool_decide _); [done|].
      destruct (old_values p !! id); simpl; [by rewrite lookup_delete_ne|done].
  - intros k. rewrite E4. clear E1 E2 E3 E4. destruct (decide (k = id)) as [->|Hk].
    + rewrite Hl, lookup_insert_eq. simpl. unfold squash_removed.
      destruct (bool_decide (id ∈ new_ids p)) eqn:E; simpl.
      * destruct (removed_values p !! id); [done|]. by repeat case_match.
      * apply bool_decide_eq_false in E. destruct (old_values p !! id) as [w|]; simpl;
          destruct (removed_values p !! id) eqn:E5; simpl; rewrite ?E5, ?lookup_insert_eq; done.
    + rewrite (lookup_insert_ne (list_to_map l)) by done.
      rewrite (bool_decide_ext (k ∈ new_ids (squash_removed p (id, v))) (k ∈ new_ids p)) by (rewrite N; naive_solver).
      assert (R : removed_values (squash_removed p (id, v)) !! k = removed_values p !! k /\
                  old_values (squash_removed p (id, v)) !! k = old_values p !! k).
      { unfold squash_removed. destruct (bool_decide _); [done|]. destruct (old_values p !! id) as [w|]; simpl;
          destruct (removed_values p !! id); simpl; by rewrite ?lookup_insert_ne, ?lookup_delete_ne by done. }
      destruct R as [-> ->]. done.
Qed.
(** The entry of every object in the merged change set: the 4x4 table of [squash]. *)
Lemma merge_lookup p s : let q := merge_states p s in
  old_next_id q = old_next_id p /\
  (forall k, k ∈ new_ids q <-> (k ∈ new_ids p \/ k ∈ new_ids s) /\ removed_values s !! k = None) /\
  (forall k, old_values q !! k =
     match removed_values s !! k with
     | Some _ => if bool_decide (k ∈ new_ids p \/ k ∈ new_ids s) then
         match old_values p !! k with
         | Some w => Some w
         | None => if bool_decide (k ∈ new_ids p) then None else old_values s !! k
         end else None
     | None => match old_values p !! k with
         | Some w => Some w
         | None => if bool_decide (k ∈ new_ids p) then None else old_values s !! k
         end
     end) /\
  (forall k, removed_values q !! k = match removed_values p !! k with
     | Some w => Some w
     | None => if bool_decide (k ∈ new_ids p \/ k ∈ new_ids s) then None
               else match removed_values s !! k with
                    | Some v => Some (default v (match old_values p !! k with
                                                 | Some w => Some w
                                                 | None => old_values s !! k
                                                 end))
                    | None => None
                    end
     end).
Proof.
  unfold merge_states. set (p1 := fold_left squash_old _ p). set (p2 := p1 <| new_ids ::= _ |>).
  destruct (squash_old_fold (map_to_list (old_values s)) p) as (A1 & A2 & A3 & A4); [apply NoDup_fst_map_to_list|].
  destruct (squash_removed_fold (map_to_list (removed_values s)) p2) as (B1 & B2 & B3 & B4);
    [apply NoDup_fst_map_to_list|].
  fold p1 in A1, A2, A3, A4. rewrite list_to_map_to_list in A4, B4.
  assert (Hr : forall k, k ∈ (map_to_list (removed_values s)).*1 <-> is_Some (removed_values s !! k)).
  { intros k. rewrite list_elem_of_fmap. split.
    - intros ([k' v] & -> & Hin). apply elem_of_map_to_list in Hin. simpl. by exists v.
    - intros [v Hv]. exists (k, v). split; [done|]. by apply elem_of_map_to_list. }
  assert (N : forall k, k ∈ new_ids p2 <-> k ∈ new_ids p \/ k ∈ new_ids s).
  { intros k. unfold p2. simpl. by rewrite A1, elem_of_union. }
  assert (O : forall k, old_values p2 !! k = old_values p1 !! k) by done.
  assert (R : forall k, removed_values p2 !! k = removed_values p !! k) by (intros k; unfold p2; simpl; by rewrite A2).
  split; [rewrite B1; exact A3|]. split; [|split]; intros k.
  - rewrite B2, N, Hr, <- eq_None_not_Some. done.
  - rewrite B3, O, A4. destruct (removed_values s !! k) eqn:E.
    + destruct (bool_decide (k ∈ new_ids p \/ k ∈ new_ids s)) eqn:D.
      * apply bool_decide_eq_true in D. rewrite bool_decide_eq_false_2; [done|]. rewrite N. naive_solver.
      * apply bool_decide_eq_false in D. rewrite bool_decide_eq_true_2; [done|]. rewrite N, Hr, E. naive_solver.
    + rewrite bool_decide_eq_false_2; [done|]. rewrite Hr, E. by intros [[? ?] _].
  - rewrite B4, R. destruct (removed_values p !! k); [done|].
    rewrite (bool_decide_ext (k ∈ new_ids p2) (k ∈ new_ids p \/ k ∈ new_ids s)) by apply N.
    destruct (bool_decide _) eqn:D; [done|]. apply bool_decide_eq_false in D.
    rewrite O, A4, (bool_decide_eq_false_2 (k ∈ new_ids p)) by naive_solver. by destruct (removed_values s !! k).
Qed.

(** The four relations of an object to a change set. *)
Inductive relation (u : undo_state V) (t : gmap Z V) (k : Z) : Prop :=
  | rel_new v : k ∈ new_ids u -> old_values u !! k = None -> removed_values u !! k = None ->
      t !! k = Some v -> revert u t !! k = None -> old_next_id u <= k -> relation u t k
  | rel_upd w v : k ∉ new_ids u -> old_values u !! k = Some w -> removed_values u !! k = None ->
      t !! k = Some v -> revert u t !! k = Some w -> keys v = keys w -> k < old_next_id u -> relation u t k
  | rel_del w : k ∉ new_ids u -> old_values u !! k = None -> removed_values u !! k = Some w ->
      t !! k = None -> revert u t !! k = Some w -> k < old_next_id u -> relation u t k
  | rel_nop : k ∉ new_ids u -> old_values u !! k = None -> removed_values u !! k = None ->
      revert u t !! k = t !! k -> (is_Some (t !! k) -> k < old_next_id u) -> relation u t k.
Lemma layer_relation u t n k : layer u t n -> relation u t k.
Proof.
  intros [L1 L2 L3 L4]. pose proof (lookup_revert u t k) as E. specialize (L2 k). specialize (L3 k). specialize (L4 k).
  destruct (old_values u !! k) as [w|] eqn:E1.
  - destruct (L2 w eq_refl) as (Hk & v & Hv & Ek). apply (rel_upd u t k w v); try done.
    + rewrite L4. lia.
    + apply eq_None_not_Some. intros [x Hx]. destruct (L3 x Hx). congruence.
  - destruct (removed_values u !! k) as [w|] eqn:E2.
    + destruct (L3 w eq_refl) as (Hk & Hv). apply (rel_del u t k w); try done. rewrite L4. lia.
    + destruct (bool_decide (k ∈ new_ids u)) eqn:D.
      * apply bool_decide_eq_true in D. destruct (proj1 L4 D) as [[v Hv] Hk]. by apply (rel_new u t k v).
      * apply bool_decide_eq_false in D. apply rel_nop; try done. intros Hs.
        destruct (Z_lt_ge_dec k (old_next_id u)); [done|]. destruct D. apply L4. split; [done|lia].
Qed.

Lemma relation_layer u t n : old_next_id u <= n -> (forall k, relation u t k) -> layer u t n.
Proof.
  intros Hn R. split; [done|..]; intros k; destruct (R k); try (intros; simplify_eq; eauto).
  - split; [intros _; split; [by eexists|done]|done].
  - split; [done|lia].
  - split; [done|]. intros [[? ?] ?]. simplify_eq.
  - split; [done|]. intros [Hs ?]. naive_solver lia.
Qed.

Ltac merge_done Q := first
  [ eassumption | symmetry; eassumption | lia | congruence | rewrite Q; intuition congruence
  | intros [? ?]; first [congruence | lia]
  | match goal with
    | H : is_Some _ -> ?k < old_next_id ?u, E : old_next_id ?q = old_next_id ?u |- _ =>
        try intros [? ?]; rewrite E; apply H; eexists; first [reflexivity | etransitivity; eassumption]
    end ].
(** Two change sets on top of each other and the merged one lead back to the same table. *)
Lemma layer_merge p s t n : layer s t n -> layer p (revert s t) (old_next_id s) ->
  layer (merge_states p s) t n /\ revert (merge_states p s) t = revert p (revert s t).
Proof.
  intros L P. destruct (merge_lookup p s) as (Q1 & Q2 & Q3 & Q4).
  set (q := merge_states p s) in *. clearbody q.
  assert (G : forall k, relation q t k /\ revert q t !! k = revert p (revert s t) !! k).
  { intros k. specialize (Q2 k). specialize (Q3 k). specialize (Q4 k). pose proof (lookup_revert q t k) as Rq.
    assert (Hle : old_next_id p <= old_next_id s) by apply P.
    pose proof (layer_relation p _ _ k P) as Rp. pose proof (layer_relation s _ _ k L) as Rs.
    destruct Rp; destruct Rs; try congruence; try lia.
    all: repeat match goal with
      | H : ?m !! ?j = ?o, Q : context [?m !! ?j] |- _ =>
          lazymatch o with Some _ => idtac | None => idtac end;
          lazymatch type of Q with ?m' !! _ = Some _ => fail | ?m' !! _ = None => fail | _ => rewrite H in Q end
      end.
    all: repeat case_bool_decide; try tauto; try congruence.
    all: rewrite ?Q3, ?Q4 in Rq; simpl in *; (split; [|congruence]).
    all: first [ solve [eapply rel_new; merge_done Q2] | solve [eapply rel_upd; merge_done Q2]
               | solve [eapply rel_del; merge_done Q2] | solve [eapply rel_nop; merge_done Q2] ]. }
  split.
  - apply relation_layer; [|apply G]. rewrite Q1. destruct L, P. lia.
  - apply map_eq, G.
Qed.

Lemma squash_refines i s1 s2 snaps : index_ok i -> snd (abstract i) = s1 :: s2 :: snaps ->
  index_ok (squash i) /\ abstract (squash i) = (_indices i, _next_id i, s2 :: snaps) /\
  _revision (squash i) = _revision i - 1.
Proof.
  intros Hok Ha. destruct i as [[|s [|p us]] r n t]; unfold abstract in Ha; simpl in Ha; [done|done|].
  injection Ha as <- <- <-. destruct Hok as (Hu & Hb & Ls & Hus & Hbs & Lp & Hrest). simpl in *.
  destruct (layer_merge p s t n Ls Lp) as [L R]. unfold index_ok, abstract. simpl.
  rewrite R. destruct (merge_lookup p s) as (-> & _). split; [|done]. split; [done|]. split; [done|]. by split.
Qed.
(** The last session: every snapshot is gone, and the revision keeps counting it. *)
Lemma squash_last i s1 : index_ok i -> snd (abstract i) = [s1] ->
  index_ok (squash i) /\ abstract (squash i) = (_indices i, _next_id i, []) /\ _revision (squash i) = _revision i.
Proof.
  intros Hok Ha. destruct (index_ok_table i Hok). destruct i as [[|s [|p us]] r n t]; unfold abstract in Ha; simpl in Ha; try done.
Qed.
Lemma squash_refines_all i : index_ok i ->
  index_ok (squash i) /\ abstract (squash i) = (_indices i, _next_id i, tail (snd (abstract i))).
Proof.
  intros Hok. destruct (snd (abstract i)) as [|s1 [|s2 snaps]] eqn:E.
  - by destruct i as [[|s us] r n t].
  - by destruct (squash_last i s1) as (? & ? & _).
  - by destruct (squash_refines i s1 s2 snaps) as (? & ? & _).
Qed.

(** ** commit forgets the oldest snapshots *)
Lemma drop_old_suffix r l : exists l', l = l' ++ drop_old r l /\ Forall (fun u => us_revision u <= r) l'.
Proof.
  induction l as [|u l (l' & E & F)]; simpl; [by exists []|]. destruct (us_revision u <=? r) eqn:D.
  - exists (u :: l'). rewrite E at 1. split; [done|]. constructor; [by apply Z.leb_le|done].
  - by exists [].
Qed.
Lemma layers_prefix us us' t n : layers (us ++ us') t n -> layers us t n.
Proof.
  revert t n. induction us as [|u us IH]; intros t n H; simpl in *.
  - destruct us'; destruct H as (? & ? & _); done.
  - destruct H as (? & ? & ? & H). split; [done|]. split; [done|]. split; [done|]. by apply IH.
Qed.
Lemma history_app us us' t : exists h, history (us ++ us') t = history us t ++ h.
Proof.
  revert t. induction us as [|u us IH]; intros t; simpl; [eauto|]. destruct (IH (revert u t)) as [h E]. exists h.
  by rewrite E.
Qed.
Lemma history_length us t : length (history us t) = length us.
Proof. revert t. induction us as [|u us IH]; intros t; simpl; [done|]. by rewrite IH. Qed.

Lemma commit_refines r i : index_ok i -> exists old,
  index_ok (commit r i) /\ snd (abstract i) = snd (abstract (commit r i)) ++ old /\
  _indices (commit r i) = _indices i /\ _next_id (commit r i) = _next_id i /\
  _revision (commit r i) = _revision i.
Proof.
  intros Hok. destruct i as [us r0 n t]. unfold commit, abstract, index_ok in *. simpl in *.
  destruct (drop_old_suffix r (rev us)) as (l' & E & _).
  assert (E' : us = rev (drop_old r (rev us)) ++ rev l').
  { by rewrite <- rev_app_distr, <- E, rev_involutive. }
  destruct (history_app (rev (drop_old r (rev us))) (rev l') t) as [h Eh]. rewrite <- E' in Eh. exists h.
  split; [|done]. apply (layers_prefix _ (rev l')). by rewrite <- E'.
Qed.

(** ** undo_all goes back to the oldest snapshot *)
Lemma undo_all_refines i : index_ok i -> exists i', undo_all i = (i', Ok tt) /\ index_ok i' /\
  abstract i' = (default (_indices i, _next_id i) (last (snd (abstract i))), []).
Proof.
  unfold undo_all. remember (length (_stack i)) as m eqn:Em. revert i Em.
  induction m as [|m IH]; intros i Em Hok; simpl.
  { destruct i as [[|u us] r n t]; simpl in *; [|done]. eexists. by split. }
  destruct i as [[|u us] r n t]; [done|]. simpl in Em. cbn [_stack]. set (i := GenericIndex _ _ _ _) in *.
  destruct (undo_refines i (revert u t) (old_next_id u) (history us (revert u t))) as (i1 & -> & Hok1 & A1); [done..|].
  destruct i1 as [us1 r1 n1 t1]. unfold abstract in A1. simpl in A1. injection A1 as -> -> E.
  assert (El : m = length us1).
  { apply (f_equal length) in E. rewrite !history_length in E. lia. }
  destruct (IH (GenericIndex us1 r1 (old_next_id u) (revert u t)) El Hok1) as (i2 & -> & Hok2 & A2).
  exists i2. split; [done|]. split; [done|]. rewrite A2. unfold abstract, i. simpl. rewrite E, last_cons.
  by destruct (last (history us (revert u t))) as [[? ?]|].
Qed.

(** ** A session around a call that throws leaves no trace *)
Lemma with_session_refines {A} (body : generic_index V -> generic_index V * res A) i i' e : index_ok i ->
  body (start_undo_session i) = (i', Throw e) -> index_ok i' ->
  snd (abstract i') = (_indices i, _next_id i) :: snd (abstract i) ->
  exists i'', with_session body i = (i'', Throw e) /\ index_ok i'' /\ abstract i'' = abstract i.
Proof.
  intros Hok Hb Hok' Ha. unfold with_session. rewrite Hb.
  destruct (undo_refines i' _ _ _ Hok' Ha) as (i'' & -> & H1 & H2). exists i''. by split.
Qed.
End chainbase.
