(* ===== verification/ForkDb.v ===== *)
(** * ForkDb: the tree of recent blocks ([chain/fork_database.cpp],
    [fork_database.hpp]).

    An item is a shared object: the index and the head hold it, its children hold
    weak pointers to it.  Items are kept in a list, their address is their place.
    An item is destroyed when nothing holds it any more: a weak pointer leads to it
    only while the index, the head or a vector of a running caller has it. *)
From S2P Require Import Prelude Safe Names Asset Version Config Authority Operations Objects Validate.
From S2P Require Import Block.
Local Open Scope Z_scope.
Local Open Scope list_scope.

Record fork_item := ForkItem {
  prev : option nat;      (* [weak_ptr< fork_item >] *)
  num : Z;
  invalid : bool;
  id : hash160;
  item_data : signed_block }.
#[export] Instance fork_item_eta : Eta fork_item := fun i =>
  ForkItem (prev i) (num i) (invalid i) (id i) (item_data i).

(** [_index] lists the items in the order they were inserted: the order of items of
    the same number in the index by number. *)
Record fork_database := ForkDatabase {
  items : list fork_item;
  _index : list nat;
  _unlinked_index : list nat;
  _head : option nat;
  _max_size : Z;
  held : list nat  (* by vectors of the callers *) }.
#[export] Instance fork_database_eta : Eta fork_database := fun d =>
  ForkDatabase (items d) (_index d) (_unlinked_index d) (_head d) (_max_size d) (held d).

Abbreviation FDB := (ST fork_database).

Definition empty_fork_db : fork_database := ForkDatabase [] [] [] None 1024 [].

Section fork_database.
  Context {cr : crypto}.
  Implicit Types (d : fork_database) (a : nat) (i : fork_item) (b : signed_block) (h : hash160).

(** The constructor of [fork_item] *)
Definition new_item b : fork_item := ForkItem None (block_num b) false (block_id b) b.
Definition previous_id i : hash160 := previous (item_data i).

(** ** Access to items *)
Definition deref d a : res fork_item :=
  match items d !! a with Some i => Ok i | None => Throw crash end.
Definition alive d a : bool :=
  bool_decide (a ∈ _index d) || bool_decide (a ∈ _unlinked_index d) || bool_decide (_head d = Some a)
  || bool_decide (a ∈ held d).
(** [prev.lock()] *)
Definition lock_prev d a : option nat :=
  match items d !! a with
  | Some i => match prev i with Some p => if alive d p then Some p else None | None => None end
  | None => None
  end.
Definition has_id d h a : bool :=
  match items d !! a with Some i => bool_decide (id i = h) | None => false end.
(** [index.get< block_id >().find( id )] *)
Definition find_id d (index : list nat) h : option nat := List.find (has_id d h) index.

Definition head_item d : res nat :=
  match _head d with Some a => Ok a | None => Throw crash end.

(** ** Changes *)
Definition fork_reset : FDB unit := puts (fun d => d <| _head := None |> <| _index := [] |>).

Definition fork_pop_block : FDB unit :=
  head ← gets _head;
  match head with
  | None => mthrow assert_exception
  | Some a =>
      p ← gets (fun d => lock_prev d a);
      match p with
      | None => mthrow assert_exception
      | Some p => puts (fun d => d <| _head := Some p |>)
      end
  end.

Definition make_item (i : fork_item) : FDB nat :=
  a ← gets (fun d => length (items d));
  puts (fun d => d <| items ::= fun l => l ++ [i] |>) ;;
  mret a.
(** [_index.insert( item )]: an item with a known id is not inserted. *)
Definition index_insert (a : nat) : FDB unit := puts (fun d =>
  match items d !! a with
  | Some i => match find_id d (_index d) (id i) with
              | Some _ => d | None => d <| _index ::= fun l => l ++ [a] |> end
  | None => d
  end).

Definition start_block b : FDB unit :=
  a ← make_item (new_item b);
  index_insert a ;;
  puts (fun d => d <| _head := Some a |>).

(** The check of a block against the head and its link to its parent. *)
Definition check_recent (i : fork_item) : FDB unit := fun d =>
  match _head d with
  | None => Ok (tt, d)
  | Some h =>
      hi ← deref d h;
      fc_assert (num i >? Z.max 0 (num hi - _max_size d)) ;;
      Ok (tt, d)
  end.
Definition link_item (i : fork_item) : FDB fork_item := fun d =>
  match _head d with
  | None => Ok (i, d)
  | Some _ =>
      if bool_decide (previous_id i = null_hash) then Ok (i, d)
      else
        match find_id d (_index d) (previous_id i) with
        | None => Throw unlinkable_block_exception
        | Some p =>
            pi ← deref d p;
            fc_assert (negb (invalid pi)) ;;
            Ok (i <| prev := Some p |>, d)
        end
  end.
Definition raise_head (a : nat) (i : fork_item) : FDB unit := fun d =>
  match _head d with
  | None => Ok (tt, d <| _head := Some a |>)
  | Some h =>
      hi ← deref d h;
      Ok (tt, if num i >? num hi then d <| _head := Some a |> else d)
  end.
Definition fork_push_item (i : fork_item) : FDB unit :=
  check_recent i ;;
  i ← link_item i;
  a ← make_item i;
  index_insert a ;;
  raise_head a i.

(** [push_block] rethrows [unlinkable_block_exception]; the insertion into the
    unlinked index behind the [throw] is never reached. *)
Definition fork_push_block b : FDB nat :=
  fork_push_item (new_item b) ;;
  d ← gets (fun d => d);
  ⌈ head_item d ⌉.

(** Both indices lose the items below a number. *)
Definition oldest_kept (d : fork_database) (head_num : Z) : Z := Z.max 0 (head_num - _max_size d).
Definition not_below (d : fork_database) (n : Z) (a : nat) : bool :=
  match items d !! a with Some i => negb (num i <? n) | None => true end.
Definition set_max_size (s : Z) : FDB unit := fun d =>
  let d := d <| _max_size := s |> in
  match _head d with
  | None => Ok (tt, d)
  | Some h =>
      hi ← deref d h;
      let n := oldest_kept d (num hi) in
      Ok (tt, d <| _index ::= List.filter (not_below d n) |>
                <| _unlinked_index ::= List.filter (not_below d n) |>)
  end.

Definition set_head (a : nat) : FDB unit := puts (fun d => d <| _head := Some a |>).
Definition fork_remove h : FDB unit := puts (fun d =>
  d <| _index ::= List.filter (fun a => negb (has_id d h a)) |>).

(** ** Queries *)
Definition fork_is_known_block d h : bool :=
  match find_id d (_index d) h with
  | Some _ => true
  | None => match find_id d (_unlinked_index d) h with Some _ => true | None => false end
  end.
Definition fork_fetch_block d h : option nat :=
  match find_id d (_index d) h with
  | Some a => Some a
  | None => find_id d (_unlinked_index d) h
  end.
Definition has_num d (n : Z) a : bool :=
  match items d !! a with Some i => num i =? n | None => false end.
Definition fork_fetch_block_by_number d (n : Z) : list nat := List.filter (has_num d n) (_index d).

(** *** Branches *)
Definition item_block d a : res signed_block := i ← deref d a; Ok (item_data i).
Definition parent d a : res nat :=
  match lock_prev d a with Some p => Ok p | None => Throw assert_exception end.

(** [while( first->block_num() > second->block_num() )], and the same loop with the
    sides exchanged: the branch so far and the item reached. *)
Fixpoint descend d (fuel : nat) (a : nat) (n : Z) (branch : list nat) : res (list nat * nat) :=
  b ← item_block d a;
  if block_num b >? n then
    match fuel with
    | O => Throw crash
    | S fuel => p ← parent d a; descend d fuel p n (branch ++ [a])
    end
  else Ok (branch, a).

(** [while( first->data.previous != second->data.previous )] *)
Fixpoint descend_both d (fuel : nat) (a1 a2 : nat) (branch1 branch2 : list nat)
    : res (list nat * list nat) :=
  b1 ← item_block d a1;
  b2 ← item_block d a2;
  if bool_decide (previous b1 = previous b2) then Ok (branch1 ++ [a1], branch2 ++ [a2])
  else
    match fuel with
    | O => Throw crash
    | S fuel =>
        p1 ← parent d a1;
        p2 ← parent d a2;
        descend_both d fuel p1 p2 (branch1 ++ [a1]) (branch2 ++ [a2])
    end.

(** A parent is older than its child and has a smaller address, which bounds the
    rounds. *)
Definition fetch_branch_from d (first second : hash160) : res (list nat * list nat) :=
  match find_id d (_index d) first with
  | None => Throw assert_exception
  | Some a1 =>
      match find_id d (_index d) second with
      | None => Throw assert_exception
      | Some a2 =>
          bl2 ← item_block d a2;
          r1 ← descend d a1 a1 (block_num bl2) [];
          bl1 ← item_block d (snd r1);
          r2 ← descend d a2 a2 (block_num bl1) [];
          descend_both d (snd r1) (snd r1) (snd r2) (fst r1) (fst r2)
      end
  end.

(** [while( next && next->num > block_num ) next = next->prev.lock();] *)
Fixpoint walk_down d (fuel : nat) (next : option nat) (n : Z) : res (option nat) :=
  match next with
  | None => Ok None
  | Some a =>
      i ← deref d a;
      if num i >? n then
        match fuel with O => Throw crash | S fuel => walk_down d fuel (lock_prev d a) n end
      else Ok next
  end.
Definition walk_main_branch_to_num d (n : Z) : res (option nat) :=
  h ← head_item d;
  i ← deref d h;
  if n >? num i then Ok None else walk_down d h (Some h) n.

Definition fetch_block_on_main_branch_by_number d (n : Z) : res (option nat) :=
  match fork_fetch_block_by_number d n with
  | [a] => Ok (Some a)
  | [] => Ok None
  | _ => walk_main_branch_to_num d n
  end.
End fork_database.

(** ** The tree is well formed: items are as constructed, a parent is older than its
    child, and no two items of the index have the same id. *)
Section fork_ok.
  Context {cr : crypto}.
  Implicit Types (d : fork_database) (a : nat) (i : fork_item) (b : signed_block).

Definition item_ok d a i : Prop :=
  num i = block_num (item_data i) /\ id i = block_id (item_data i) /\ invalid i = false /\ 1 <= num i /\
  forall p, prev i = Some p -> (p < a)%nat /\ exists pi, items d !! p = Some pi /\ id pi = previous_id i.
Record fork_ok d : Prop := {
  ok_items : forall a i, items d !! a = Some i -> item_ok d a i;
  ok_index : forall a, a ∈ _index d -> is_Some (items d !! a);
  ok_ids : forall a1 a2 i1 i2, a1 ∈ _index d -> a2 ∈ _index d -> items d !! a1 = Some i1 ->
             items d !! a2 = Some i2 -> id i1 = id i2 -> a1 = a2;
  ok_unlinked : _unlinked_index d = [];
  ok_head : forall a, _head d = Some a -> is_Some (items d !! a) }.

Lemma empty_fork_ok : fork_ok empty_fork_db.
Proof. split; simpl; try done; intros *; by (intros ?%not_elem_of_nil || intros []%not_elem_of_nil). Qed.

Lemma has_id_true d (h : hash160) a : has_id d h a = true <-> exists i, items d !! a = Some i /\ id i = h.
Proof.
  unfold has_id. destruct (items d !! a) as [i|]; [rewrite bool_decide_eq_true|]; naive_solver.
Qed.
Lemma find_id_Some d l h a : find_id d l h = Some a -> a ∈ l /\ exists i, items d !! a = Some i /\ id i = h.
Proof.
  unfold find_id. intros [H1 H2]%find_some. split; [by apply list_elem_of_In|by apply has_id_true].
Qed.
Lemma find_id_None d l h a i : find_id d l h = None -> a ∈ l -> items d !! a = Some i -> id i <> h.
Proof.
  intros H Ha Hi E. apply list_elem_of_In in Ha. apply (find_none _ _ H) in Ha.
  rewrite (proj2 (has_id_true d h a)) in Ha by eauto. done.
Qed.
Lemma find_id_ok d h a i : fork_ok d -> a ∈ _index d -> items d !! a = Some i -> id i = h ->
  find_id d (_index d) h = Some a.
Proof.
  intros Hok Ha Hi E. destruct (find_id d (_index d) h) as [a'|] eqn:F.
  - apply find_id_Some in F as (Ha' & i' & Hi' & E'). f_equal. apply (ok_ids d Hok a' a i' i); congruence.
  - exfalso. by apply (find_id_None d _ _ _ _ F Ha Hi).
Qed.

(** *** Numbers along the tree *)
Lemma block_num_of_id b : num_from_id (block_id b) = block_num b.
Proof. unfold num_from_id, block_id. simpl. apply endian_reverse_involutive, u32_range. Qed.
Lemma previous_num b1 b2 : previous b1 = previous b2 -> block_num b1 = block_num b2.
Proof. unfold block_num. by intros ->. Qed.
Lemma parent_num d a i p pi : fork_ok d -> items d !! a = Some i -> prev i = Some p ->
  items d !! p = Some pi -> num pi = num i - 1.
Proof.
  intros Hok Hi Hp Hpi. destruct (ok_items d Hok a i Hi) as (Hn & _ & _ & Hge & Hpar).
  destruct (Hpar p Hp) as (_ & pi' & Hpi' & Hid). rewrite Hpi in Hpi'. injection Hpi' as <-.
  destruct (ok_items d Hok p pi Hpi) as (Hn' & Hid' & _ & Hge' & _).
  rewrite Hn in *. unfold block_num in Hn, Hge |- *. unfold previous_id in Hid. rewrite <- Hid, Hid', block_num_of_id in *.
  rewrite <- Hn' in *. pose proof (u32_range (num pi + 1)). unfold u32 in *.
  assert (num pi < 2^32) by (rewrite Hn'; apply u32_range).
  destruct (Z.eq_dec (num pi + 1) (2^32)) as [E|]; [|rewrite Z.mod_small; lia].
  rewrite E, Z.mod_same in Hge; lia.
Qed.

(** *** Every operation keeps the tree well formed. *)
Lemma item_ok_ext d d' a i : (forall p pi, items d !! p = Some pi -> items d' !! p = Some pi) ->
  item_ok d a i -> item_ok d' a i.
Proof.
  intros He (H1 & H2 & H3 & H4 & H5). split; [done|]. split; [done|]. split; [done|].
  split; [done|]. intros p Hp. destruct (H5 p Hp) as (Hlt & pi & Hpi & E). eauto.
Qed.
(** Only fewer items in the index and another head. *)
Lemma fork_ok_shrink d d' : fork_ok d -> items d' = items d -> (forall a, a ∈ _index d' -> a ∈ _index d) ->
  (forall a, a ∈ _unlinked_index d' -> a ∈ _unlinked_index d) ->
  (forall a, _head d' = Some a -> is_Some (items d !! a)) -> fork_ok d'.
Proof.
  intros [H1 H2 H3 H4 H5] Hi Hx Hu Hh. split.
  - intros a i. rewrite Hi. intros H. apply (item_ok_ext d); [by rewrite Hi|auto].
  - intros a Ha. rewrite Hi. auto.
  - intros a1 a2 i1 i2 Ha1 Ha2. rewrite Hi. eauto.
  - rewrite H4 in Hu. destruct (_unlinked_index d') as [|a l]; [done|]. exfalso. apply (not_elem_of_nil a), Hu. left.
  - intros a Ha. rewrite Hi. auto.
Qed.

Lemma lock_prev_Some d a p : lock_prev d a = Some p ->
  exists i, items d !! a = Some i /\ prev i = Some p /\ alive d p = true.
Proof.
  unfold lock_prev. destruct (items d !! a) as [i|] eqn:Ei; [|done]. destruct (prev i) as [q|] eqn:Eq; [|done].
  destruct (alive d q) eqn:E; [|done]. intros [= <-]. eauto.
Qed.
Lemma lock_prev_ok d a p : fork_ok d -> lock_prev d a = Some p ->
  (p < a)%nat /\ exists i pi, items d !! a = Some i /\ items d !! p = Some pi /\ num pi = num i - 1 /\
  id pi = previous_id i.
Proof.
  intros Hok (i & Hi & Hp & _)%lock_prev_Some. destruct (ok_items d Hok a i Hi) as (_ & _ & _ & _ & Hpar).
  destruct (Hpar p Hp) as (Hlt & pi & Hpi & Hid). split; [done|]. exists i, pi. repeat split; try done.
  by eapply parent_num.
Qed.

Lemma fork_pop_block_Ok d u d' : fork_pop_block d = Ok (u, d') ->
  exists a p, _head d = Some a /\ lock_prev d a = Some p /\ d' = d <| _head := Some p |>.
Proof.
  intros H. unfold fork_pop_block in H. minv.
  destruct (_head d) as [a|]; minv. destruct (lock_prev d a) as [p|] eqn:E; minv. eauto.
Qed.
Lemma fork_pop_block_ok d u d' : fork_ok d -> fork_pop_block d = Ok (u, d') -> fork_ok d'.
Proof.
  intros Hok (a & p & Ha & Hp & ->)%fork_pop_block_Ok. apply (fork_ok_shrink d); try done.
  simpl. intros a' [= <-]. destruct (lock_prev_ok d a p Hok Hp) as (_ & i & pi & _ & Hpi & _). eauto.
Qed.
Lemma fork_remove_ok d h u d' : fork_ok d -> fork_remove h d = Ok (u, d') -> fork_ok d'.
Proof.
  intros Hok [= <- <-]. apply (fork_ok_shrink d); try done; [|apply (ok_head d Hok)].
  simpl. intros a Ha. by apply elem_of_filter_bool in Ha as [? _].
Qed.
Lemma set_head_ok d a u d' : fork_ok d -> is_Some (items d !! a) -> set_head a d = Ok (u, d') -> fork_ok d'.
Proof. intros Hok Ha [= <- <-]. apply (fork_ok_shrink d); try done. simpl. by intros a' [= <-]. Qed.
Lemma fork_reset_ok d u d' : fork_ok d -> fork_reset d = Ok (u, d') -> fork_ok d'.
Proof. intros Hok [= <- <-]. apply (fork_ok_shrink d); try done. simpl. by intros a ?%not_elem_of_nil. Qed.
Lemma set_max_size_ok d n u d' : fork_ok d -> set_max_size n d = Ok (u, d') -> fork_ok d'.
Proof.
  intros Hok H. unfold set_max_size in H. cbv zeta in H. cbn [upd _head] in H.
  destruct (_head d) as [h|] eqn:Eh.
  - apply rbind_Ok in H as (hi & _ & [= <- <-]). apply (fork_ok_shrink d); try done; simpl.
    + intros a Ha. by apply elem_of_filter_bool in Ha as [? _].
    + intros a Ha. by apply elem_of_filter_bool in Ha as [? _].
    + intros a Ha. rewrite <- Eh in Ha. by apply (ok_head d Hok).
  - injection H as <- <-. by apply (fork_ok_shrink d).
Qed.

(** A new item: at the end of the list, in the index when its id is new. *)
Lemma make_item_ok d i : fork_ok d -> item_ok d (length (items d)) i ->
  fork_ok (d <| items ::= fun l => l ++ [i] |>).
Proof.
  intros [H1 H2 H3 H4 H5] Hi. set (d' := d <| items ::= _ |>).
  assert (He : forall p pi, items d !! p = Some pi -> items d' !! p = Some pi).
  { intros p pi Hp. simpl. rewrite lookup_app_l; [done|]. by eapply lookup_lt_Some. }
  assert (Hx : forall a, a ∈ _index d -> items d' !! a = items d !! a).
  { intros a [x Hx]%H2. rewrite Hx. by apply He. }
  split; simpl.
  - intros a j Hj. apply lookup_app_Some in Hj as [Hj|[Hlen Hj]]; [apply (item_ok_ext d); auto|].
    apply list_lookup_singleton_Some in Hj as [Ha <-]. replace a with (length (items d)) by lia.
    by apply (item_ok_ext d).
  - intros a Ha. change (is_Some (items d' !! a)). rewrite Hx by done. auto.
  - intros a1 a2 i1 i2 Ha1 Ha2. change (items d' !! a1 = Some i1 -> items d' !! a2 = Some i2 -> id i1 = id i2 -> a1 = a2).
    rewrite !Hx by done. eauto.
  - done.
  - intros a [x Hx']%H5. exists x. by apply He.
Qed.
Lemma index_insert_ok d a u d' : fork_ok d -> index_insert a d = Ok (u, d') -> fork_ok d'.
Proof.
  intros [H1 H2 H3 H4 H5] [= _ <-]. destruct (items d !! a) as [i|] eqn:Ei; [|by split].
  destruct (find_id d (_index d) (id i)) as [b|] eqn:F; [by split|]. split; simpl; try done.
  - intros x Hx. apply elem_of_app in Hx as [Hx| ->%list_elem_of_singleton]; eauto.
  - intros a1 a2 i1 i2 Ha1 Ha2 Hi1 Hi2 E.
    apply elem_of_app in Ha1 as [Ha1| ->%list_elem_of_singleton]; apply elem_of_app in Ha2 as [Ha2| ->%list_elem_of_singleton];
      try done; [by eapply H3| |]; exfalso; rewrite Ei in *; simplify_eq.
    + by apply (find_id_None d _ _ _ _ F Ha1 Hi1).
    + by apply (find_id_None d _ _ _ _ F Ha2 Hi2).
Qed.

Lemma new_item_ok d b a : 1 <= block_num b -> item_ok d a (new_item b).
Proof. intros Hb. by repeat split. Qed.

(** What a pushed block becomes: an item linked to its parent. *)
Lemma link_item_Ok d b i d' : fork_ok d -> 1 <= block_num b -> link_item (new_item b) d = Ok (i, d') ->
  d' = d /\ item_data i = b /\ num i = block_num b /\ id i = block_id b /\ item_ok d (length (items d)) i.
Proof.
  intros Hok Hb H. unfold link_item in H. destruct (_head d) as [h|].
  2: { injection H as <- <-. repeat split; try done. }
  case_bool_decide; [injection H as <- <-; by repeat split|].
  destruct (find_id _ _ _) as [p|] eqn:F; [|done]. apply find_id_Some in F as (Hp & pi & Hpi & Hid).
  unfold deref in H. rewrite Hpi in H. apply rbind_Ok in H as (x & [= <-] & H). minv.
  split; [done|]. split; [done|]. split; [done|]. split; [done|].
  split; [done|]. split; [done|]. split; [done|]. split; [done|]. simpl. intros q [= <-].
  split; [by eapply lookup_lt_Some|]. by exists pi.
Qed.

Lemma check_recent_Ok d i u d' : check_recent i d = Ok (u, d') -> d' = d /\ (_head d <> None -> 1 <= num i).
Proof.
  unfold check_recent. destruct (_head d) as [h|]; [|by intros [= <- <-]].
  intros H. apply rbind_Ok in H as (hi & _ & H). minv. bool_simpl. split; [done|]. lia.
Qed.

(** The database after a new item is stored. *)
Definition stored d i : fork_database :=
  let d1 := d <| items ::= fun l => l ++ [i] |> in
  match find_id d1 (_index d1) (id i) with
  | Some _ => d1 | None => d1 <| _index ::= fun l => l ++ [length (items d)] |> end.
Lemma stored_item d i : items (stored d i) !! length (items d) = Some i.
Proof. unfold stored. destruct (find_id _ _ _); simpl; by rewrite lookup_app_r, Nat.sub_diag. Qed.
Lemma stored_old d i a j : items d !! a = Some j -> items (stored d i) !! a = Some j.
Proof.
  intros H. unfold stored. destruct (find_id _ _ _); simpl; (rewrite lookup_app_l; [done|by eapply lookup_lt_Some]).
Qed.
Lemma stored_index d i a : a ∈ _index (stored d i) -> a ∈ _index d \/ a = length (items d).
Proof.
  unfold stored. destruct (find_id _ _ _); simpl; [by left|]. intros [H| ->%list_elem_of_singleton]%elem_of_app; auto.
Qed.
Lemma stored_keeps d i a : a ∈ _index d -> a ∈ _index (stored d i).
Proof. unfold stored. destruct (find_id _ _ _); simpl; [done|]. intros H. apply elem_of_app. by left. Qed.
Lemma stored_known d i : exists a, a ∈ _index (stored d i) /\ exists j, items (stored d i) !! a = Some j /\ id j = id i.
Proof.
  unfold stored. destruct (find_id _ _ _) as [a|] eqn:F.
  - apply find_id_Some in F as (Ha & j & Hj & E). by exists a; split; [|exists j].
  - exists (length (items d)). simpl. split; [apply elem_of_app; right; by apply list_elem_of_singleton|].
    exists i. by rewrite lookup_app_r, Nat.sub_diag.
Qed.
Lemma stored_head d i : _head (stored d i) = _head d.
Proof. unfold stored. by destruct (find_id _ _ _). Qed.
Lemma stored_ok d i : fork_ok d -> item_ok d (length (items d)) i -> fork_ok (stored d i).
Proof.
  intros Hok Hi. apply (index_insert_ok (d <| items ::= fun l => l ++ [i] |>) (length (items d)) tt);
    [by apply make_item_ok|].
  unfold index_insert, puts, stored. simpl. rewrite lookup_app_r, Nat.sub_diag by done. simpl.
  by destruct (find_id _ _ _).
Qed.
Lemma make_insert d i u d' : (a ← make_item i; index_insert a ;; mret a) d = Ok (u, d') ->
  u = length (items d) /\ d' = stored d i.
Proof.
  intros H. unfold make_item, index_insert in H. minv. split; [done|].
  unfold stored. simpl. rewrite lookup_app_r, Nat.sub_diag by done. simpl. by destruct (find_id _ _ _).
Qed.

Lemma start_block_Ok d b u d' : start_block b d = Ok (u, d') ->
  d' = (stored d (new_item b)) <| _head := Some (length (items d)) |>.
Proof.
  intros H. unfold start_block in H. apply bind_Ok in H as (a & d1 & H1 & H).
  apply bind_Ok in H as ([] & d2 & H2 & H).
  destruct (make_insert d (new_item b) a d2) as [-> ->].
  { apply bind_Ok. exists a, d1. split; [done|]. apply bind_Ok. exists tt, d2. done. }
  by injection H as <- <-.
Qed.
Lemma start_block_ok d b u d' : fork_ok d -> 1 <= block_num b -> start_block b d = Ok (u, d') ->
  fork_ok d' /\ exists a, _head d' = Some a /\ items d' !! a = Some (new_item b).
Proof.
  intros Hok Hb ->%start_block_Ok.
  assert (Hs : fork_ok (stored d (new_item b))) by (apply stored_ok; [done|by apply new_item_ok]).
  split; [|exists (length (items d)); split; [done|apply stored_item]].
  apply (set_head_ok _ (length (items d)) tt _ Hs); [|done]. exists (new_item b). apply stored_item.
Qed.

(** *** [push_block]: the head is the first block of the greatest number. *)
Definition head_highest d : Prop := forall (h : nat) hi a i, _head d = Some h -> items d !! h = Some hi ->
  a ∈ _index d -> items d !! a = Some i -> num i <= num hi.

Lemma fork_push_block_Ok d b a d' : fork_ok d -> (_head d = None -> 1 <= block_num b) ->
  fork_push_block b d = Ok (a, d') ->
  exists i, item_ok d (length (items d)) i /\ item_data i = b /\ id i = block_id b /\ num i = block_num b /\
  _head d' = Some a /\
  match _head d with
  | None => a = length (items d)
  | Some h => exists hi, items d !! h = Some hi /\
      a = if block_num b >? num hi then length (items d) else h
  end /\ d' = (stored d i) <| _head := Some a |>.
Proof.
  intros Hok Hb H. unfold fork_push_block, fork_push_item in H.
  apply bind_Ok in H as ([] & d1 & H1 & H). apply bind_Ok in H1 as ([] & d2 & Hc & H1).
  apply check_recent_Ok in Hc as [-> Hc].
  assert (Hb1 : 1 <= block_num b) by (destruct (_head d); [by apply Hc|by apply Hb]).
  apply bind_Ok in H1 as (i & d3 & Hl & H1). apply link_item_Ok in Hl as (-> & Hdat & Hnum & Hid & Hi); [|done..].
  apply bind_Ok in H1 as (a0 & d4 & Hm & H1). apply bind_Ok in H1 as ([] & d5 & Hin & H1).
  destruct (make_insert d i a0 d5) as [-> ->].
  { apply bind_Ok. exists a0, d4. split; [done|]. apply bind_Ok. exists tt, d5. done. }
  apply bind_Ok in H as (x & d6 & Hx & H). apply gets_Ok in Hx as [-> ->].
  apply lift_Ok in H as [Hh ->]. unfold raise_head in H1. rewrite stored_head in H1. unfold head_item in Hh.
  exists i. split; [done|]. split; [done|]. split; [done|]. split; [done|].
  destruct (_head d) as [h|] eqn:Eh.
  - destruct (ok_head d Hok h Eh) as [hi Hhi]. unfold deref in H1. rewrite (stored_old d i h hi Hhi) in H1.
    apply rbind_Ok in H1 as (y & [= <-] & [= <-]). rewrite Hnum in *. destruct (_ >? _) eqn:E.
    + cbn [upd _head] in Hh |- *. injection Hh as <-. split; [done|]. split; [|done]. exists hi. by rewrite E.
    + rewrite stored_head, Eh in Hh. injection Hh as <-. rewrite stored_head. split; [done|].
      split; [exists hi; by rewrite E|]. pose proof (stored_head d i) as Es. rewrite Eh in Es.
      destruct (stored d i). cbn [_head] in Es. by subst.
  - injection H1 as <-. cbn [upd _head] in Hh |- *. injection Hh as <-. done.
Qed.

Lemma fork_push_block_ok d b a d' : fork_ok d -> (_head d = None -> 1 <= block_num b) ->
  fork_push_block b d = Ok (a, d') -> fork_ok d'.
Proof.
  intros Hok Hb H. destruct (fork_push_block_Ok d b a d' Hok Hb H) as (i & Hi & _ & _ & _ & _ & Ha & ->).
  apply (set_head_ok (stored d i) a tt); [by apply stored_ok| |done].
  destruct (_head d) as [h|]; [|subst a; exists i; apply stored_item]. destruct Ha as (hi & Hhi & ->).
  destruct (_ >? _); [exists i; apply stored_item|exists hi; by apply stored_old].
Qed.
End fork_ok.

(** ** Branches: the items passed on the way down from an item. *)
Section branches.
  Context {cr : crypto}.
  Implicit Types (d : fork_database) (a p c : nat).

Inductive branch d : nat -> list nat -> nat -> Prop :=
  | branch_nil a : is_Some (items d !! a) -> branch d a [] a
  | branch_cons a p l c : lock_prev d a = Some p -> branch d p l c -> branch d a (a :: l) c.

Definition num_of d a : Z := match items d !! a with Some i => num i | None => 0 end.
Definition previous_of d a : hash160 := match items d !! a with Some i => previous_id i | None => null_hash end.

(** [l1] and [l2] lead from two items down to the first items with the same
    predecessor, and no items passed before have the same one. *)
Definition fork_at d a1 a2 (l1 l2 : list nat) : Prop := exists k1 c1 k2 c2,
  l1 = k1 ++ [c1] /\ l2 = k2 ++ [c2] /\ branch d a1 k1 c1 /\ branch d a2 k2 c2 /\
  previous_of d c1 = previous_of d c2 /\
  forall x y, x ∈ k1 -> y ∈ k2 -> previous_of d x <> previous_of d y.

Lemma fork_at_sym d a1 a2 l1 l2 : fork_at d a1 a2 l1 l2 <-> fork_at d a2 a1 l2 l1.
Proof.
  unfold fork_at. split; intros (k1 & c1 & k2 & c2 & H1 & H2 & H3 & H4 & H5 & H6);
    (exists k2, c2, k1, c1; repeat split; try done; intros x y Hx Hy E; by apply (H6 y x)).
Qed.

Lemma item_block_ok d a i : fork_ok d -> items d !! a = Some i ->
  item_block d a = Ok (item_data i) /\ num_of d a = block_num (item_data i) /\
  previous_of d a = previous (item_data i).
Proof.
  intros Hok Hi. unfold item_block, deref, num_of, previous_of. rewrite Hi.
  by destruct (ok_items d Hok a i Hi) as (-> & _).
Qed.
Lemma branch_valid d a l c : branch d a l c -> is_Some (items d !! a) /\ is_Some (items d !! c).
Proof.
  induction 1 as [|a p l c Hp Hb IH]; [done|]. destruct IH as [_ Hc]. split; [|done].
  apply lock_prev_Some in Hp as (i & Hi & _). eauto.
Qed.
Lemma lock_prev_num d a p : fork_ok d -> lock_prev d a = Some p ->
  (p < a)%nat /\ num_of d p = num_of d a - 1 /\ is_Some (items d !! p).
Proof.
  intros Hok H. destruct (lock_prev_ok d a p Hok H) as (Hlt & i & pi & Hi & Hpi & Hn & _).
  unfold num_of. rewrite Hi, Hpi. eauto.
Qed.
Lemma branch_num d a l c : fork_ok d -> branch d a l c ->
  num_of d c = num_of d a - Z.of_nat (length l) /\ forall x, x ∈ l -> num_of d c < num_of d x <= num_of d a.
Proof.
  intros Hok. induction 1 as [|a p l c Hp Hb IH]; [split; [simpl; lia|by intros x ?%not_elem_of_nil]|].
  destruct IH as [IH1 IH2]. destruct (lock_prev_num d a p Hok Hp) as (_ & Hn & _). split; [simpl; lia|].
  intros x [->|Hx]%elem_of_cons; [lia|]. specialize (IH2 x Hx). lia.
Qed.
Lemma previous_of_num d a1 a2 : fork_ok d -> is_Some (items d !! a1) -> is_Some (items d !! a2) ->
  previous_of d a1 = previous_of d a2 -> num_of d a1 = num_of d a2.
Proof.
  intros Hok [i1 H1] [i2 H2] E. destruct (item_block_ok d a1 i1 Hok H1) as (_ & -> & E1).
  destruct (item_block_ok d a2 i2 Hok H2) as (_ & -> & E2). apply previous_num. congruence.
Qed.
Lemma branch_elem_valid d a l c x : branch d a l c -> x ∈ l -> is_Some (items d !! x).
Proof.
  induction 1 as [|a p l c Hp Hb IH]; [by intros ?%not_elem_of_nil|].
  intros [->|Hx]%elem_of_cons; [|auto]. apply lock_prev_Some in Hp as (i & Hi & _). eauto.
Qed.

(** *** The three ways on: both meet, the higher side steps, both step. *)
Lemma fork_at_meet d a1 a2 l1 l2 : fork_ok d -> is_Some (items d !! a1) -> is_Some (items d !! a2) ->
  previous_of d a1 = previous_of d a2 -> fork_at d a1 a2 l1 l2 <-> l1 = [a1] /\ l2 = [a2].
Proof.
  intros Hok V1 V2 E. split.
  - intros (k1 & c1 & k2 & c2 & -> & -> & B1 & B2 & Ec & Hm).
    pose proof (previous_of_num d a1 a2 Hok V1 V2 E) as En.
    destruct (branch_num d a1 k1 c1 Hok B1) as [N1 _]. destruct (branch_num d a2 k2 c2 Hok B2) as [N2 _].
    pose proof (previous_of_num d c1 c2 Hok (proj2 (branch_valid _ _ _ _ B1)) (proj2 (branch_valid _ _ _ _ B2)) Ec).
    inversion B1; subst; simpl in *.
    + inversion B2; subst; simpl in *; [done|lia].
    + inversion B2; subst; simpl in *; [lia|]. destruct (Hm a1 a2); [by left|by left|done].
  - intros [-> ->]. exists [], a1, [], a2. repeat split; try constructor; try done. by intros x y ?%not_elem_of_nil.
Qed.
Lemma fork_at_step d a1 a2 l1 l2 : fork_ok d -> is_Some (items d !! a2) -> num_of d a1 > num_of d a2 ->
  fork_at d a1 a2 l1 l2 <-> exists p l, lock_prev d a1 = Some p /\ l1 = a1 :: l /\ fork_at d p a2 l l2.
Proof.
  intros Hok V2 Hn. split.
  - intros (k1 & c1 & k2 & c2 & -> & -> & B1 & B2 & Ec & Hm).
    destruct (branch_num d a1 k1 c1 Hok B1) as [N1 _]. destruct (branch_num d a2 k2 c2 Hok B2) as [N2 _].
    pose proof (previous_of_num d c1 c2 Hok (proj2 (branch_valid _ _ _ _ B1)) (proj2 (branch_valid _ _ _ _ B2)) Ec).
    inversion B1 as [|? p l ? Hp Hb]; subst; simpl in *; [lia|]. exists p, (l ++ [c1]). split; [done|]. split; [done|].
    exists l, c1, k2, c2. repeat split; try done. intros x y Hx Hy. apply Hm; [by right|done].
  - intros (p & l & Hp & -> & k1 & c1 & k2 & c2 & -> & -> & B1 & B2 & Ec & Hm).
    exists (a1 :: k1), c1, k2, c2. repeat split; try done; [by econstructor|].
    intros x y [->|Hx]%elem_of_cons Hy; [|by apply Hm]. intros E.
    destruct (branch_num d a2 k2 c2 Hok B2) as [_ N2]. specialize (N2 y Hy).
    assert (V1 : is_Some (items d !! a1)) by (apply lock_prev_Some in Hp as (i & Hi & _); eauto).
    pose proof (previous_of_num d a1 y Hok V1 (branch_elem_valid _ _ _ _ _ B2 Hy) E). lia.
Qed.
Lemma fork_at_both d a1 a2 l1 l2 : fork_ok d -> is_Some (items d !! a1) -> is_Some (items d !! a2) ->
  num_of d a1 = num_of d a2 -> previous_of d a1 <> previous_of d a2 ->
  fork_at d a1 a2 l1 l2 <-> exists p1 p2 m1 m2, lock_prev d a1 = Some p1 /\ lock_prev d a2 = Some p2 /\
    l1 = a1 :: m1 /\ l2 = a2 :: m2 /\ fork_at d p1 p2 m1 m2.
Proof.
  intros Hok V1 V2 Hn Hd. split.
  - intros (k1 & c1 & k2 & c2 & -> & -> & B1 & B2 & Ec & Hm).
    destruct (branch_num d a1 k1 c1 Hok B1) as [N1 _]. destruct (branch_num d a2 k2 c2 Hok B2) as [N2 _].
    pose proof (previous_of_num d c1 c2 Hok (proj2 (branch_valid _ _ _ _ B1)) (proj2 (branch_valid _ _ _ _ B2)) Ec).
    inversion B1 as [|? p1 m1 ? Hp1 Hb1]; subst; inversion B2 as [|? p2 m2 ? Hp2 Hb2]; subst; simpl in *; try lia; [done|].
    exists p1, p2, (m1 ++ [c1]), (m2 ++ [c2]). repeat split; try done.
    exists m1, c1, m2, c2. repeat split; try done. intros x y Hx Hy. apply Hm; by right.
  - intros (p1 & p2 & m1 & m2 & Hp1 & Hp2 & -> & -> & k1 & c1 & k2 & c2 & -> & -> & B1 & B2 & Ec & Hm).
    exists (a1 :: k1), c1, (a2 :: k2), c2. repeat split; try done; [by econstructor..|].
    destruct (branch_num d p1 k1 c1 Hok B1) as [_ N1]. destruct (branch_num d p2 k2 c2 Hok B2) as [_ N2].
    destruct (lock_prev_num d a1 p1 Hok Hp1) as (_ & M1 & _). destruct (lock_prev_num d a2 p2 Hok Hp2) as (_ & M2 & _).
    intros x y [->|Hx]%elem_of_cons [->|Hy]%elem_of_cons E; [done| | |by apply (Hm x y)].
    + specialize (N2 y Hy). pose proof (previous_of_num d a1 y Hok V1 (branch_elem_valid _ _ _ _ _ B2 Hy) E). lia.
    + specialize (N1 x Hx). pose proof (previous_of_num d x a2 Hok (branch_elem_valid _ _ _ _ _ B1 Hx) V2 E). lia.
Qed.

(** *** The loops of [fetch_branch_from] *)
Lemma descend_sound d fuel a n br a2 r c : fork_ok d -> is_Some (items d !! a) -> is_Some (items d !! a2) ->
  num_of d a2 = n -> descend d fuel a n br = Ok (r, c) ->
  exists l, r = br ++ l /\ is_Some (items d !! c) /\ num_of d c = Z.min (num_of d a) n /\ (c <= a)%nat /\
  forall m l2, fork_at d c a2 m l2 -> fork_at d a a2 (l ++ m) l2.
Proof.
  intros Hok V V2 Hn. revert a br V. induction fuel as [|fuel IH]; intros a br [i Hi] H; cbn [descend] in H;
    destruct (item_block_ok d a i Hok Hi) as (Eb & En & _); rewrite Eb in H; apply rbind_Ok in H as (b & [= <-] & H);
    rewrite <- En in H; (destruct (_ >? n) eqn:E; bool_simpl);
    try (injection H as <- <-; exists []; rewrite app_nil_r; repeat split; [by exists i|lia|lia|done]).
  - done.
  - apply rbind_Ok in H as (p & Hp & H). unfold parent in Hp. destruct (lock_prev d a) as [q|] eqn:Eq; [|done].
    injection Hp as ->. destruct (lock_prev_num d a p Hok Eq) as (Hlt & Hnum & Vp).
    destruct (IH p _ Vp H) as (l & -> & Vc & Hc & Hle & Hf). exists (a :: l). rewrite <- app_assoc.
    split; [done|]. split; [done|]. split; [lia|]. split; [lia|]. intros m l2 Hm. cbn [app].
    apply fork_at_step; [done|done|lia|]. exists p, (l ++ m). auto.
Qed.
Lemma descend_complete d fuel a n br a2 l1 l2 : fork_ok d -> is_Some (items d !! a) -> is_Some (items d !! a2) ->
  num_of d a2 = n -> (a <= fuel)%nat -> fork_at d a a2 l1 l2 ->
  exists l c m, descend d fuel a n br = Ok (br ++ l, c) /\ l1 = l ++ m /\ fork_at d c a2 m l2.
Proof.
  intros Hok V V2 Hn. revert a br l1 V. induction fuel as [|fuel IH]; intros a br l1 [i Hi] Hle Hf; cbn [descend];
    destruct (item_block_ok d a i Hok Hi) as (Eb & En & _); rewrite Eb; cbn [mbind res_bind];
    rewrite <- En; (destruct (_ >? n) eqn:E; bool_simpl);
    try (exists [], a, l1; rewrite app_nil_r; by repeat split);
    apply fork_at_step in Hf as (p & l & Hp & -> & Hf); try done; try lia;
    destruct (lock_prev_num d a p Hok Hp) as (Hlt & Hnum & Vp); [lia|].
  unfold parent. rewrite Hp. cbn [mbind res_bind].
  destruct (IH p (br ++ [a]) l Vp ltac:(lia) Hf) as (l' & c & m & E1 & -> & Hm).
  exists (a :: l'), c, m. rewrite E1, <- app_assoc. done.
Qed.
Lemma descend_both_spec d fuel a1 a2 br1 br2 r1 r2 : fork_ok d -> is_Some (items d !! a1) ->
  is_Some (items d !! a2) -> num_of d a1 = num_of d a2 -> (a1 <= fuel)%nat ->
  descend_both d fuel a1 a2 br1 br2 = Ok (r1, r2) <->
  exists l1 l2, r1 = br1 ++ l1 /\ r2 = br2 ++ l2 /\ fork_at d a1 a2 l1 l2.
Proof.
  intros Hok. revert a1 a2 br1 br2. induction fuel as [|fuel IH]; intros a1 a2 br1 br2 [i1 H1] [i2 H2] Hn Hle;
    cbn [descend_both]; destruct (item_block_ok d a1 i1 Hok H1) as (Eb1 & En1 & Ep1);
    destruct (item_block_ok d a2 i2 Hok H2) as (Eb2 & En2 & Ep2); rewrite Eb1, Eb2; cbn [mbind res_bind];
    rewrite <- Ep1, <- Ep2; (case_bool_decide as E;
      [split; [intros [= <- <-]; exists [a1], [a2]|intros (l1 & l2 & -> & -> & Hf)]|]);
    try (split; [done|]; split; [done|]); try (apply fork_at_meet; by eauto);
    try (apply fork_at_meet in Hf as [-> ->]; by eauto).
  - split; [done|]. intros (l1 & l2 & -> & -> & Hf). apply fork_at_both in Hf as (p1 & ? & ? & ? & Hp1 & _); eauto.
    destruct (lock_prev_num d a1 p1 Hok Hp1) as (Hlt & _). lia.
  - split.
    + intros H. apply rbind_Ok in H as (p1 & Hp1 & H). apply rbind_Ok in H as (p2 & Hp2 & H).
      unfold parent in Hp1, Hp2. destruct (lock_prev d a1) eqn:L1; [|done]. injection Hp1 as ->.
      destruct (lock_prev d a2) eqn:L2; [|done]. injection Hp2 as ->.
      destruct (lock_prev_num d a1 p1 Hok L1) as (Hlt & N1 & V1). destruct (lock_prev_num d a2 p2 Hok L2) as (_ & N2 & V2).
      apply IH in H as (l1 & l2 & -> & -> & Hf); [|done|done|lia|lia].
      exists (a1 :: l1), (a2 :: l2). rewrite <- !app_assoc. split; [done|]. split; [done|].
      apply fork_at_both; eauto. exists p1, p2, l1, l2. done.
    + intros (l1 & l2 & -> & -> & Hf). apply fork_at_both in Hf as (p1 & p2 & m1 & m2 & L1 & L2 & -> & -> & Hf); eauto.
      unfold parent. rewrite L1, L2. cbn [mbind res_bind].
      destruct (lock_prev_num d a1 p1 Hok L1) as (Hlt & N1 & V1). destruct (lock_prev_num d a2 p2 Hok L2) as (_ & N2 & V2).
      apply IH; [done|done|lia|lia|]. exists m1, m2. rewrite <- !app_assoc. done.
Qed.

Lemma fetch_branch_from_spec d h1 h2 l1 l2 : fork_ok d -> fetch_branch_from d h1 h2 = Ok (l1, l2) <->
  exists a1 a2, find_id d (_index d) h1 = Some a1 /\ find_id d (_index d) h2 = Some a2 /\ fork_at d a1 a2 l1 l2.
Proof.
  intros Hok. unfold fetch_branch_from.
  destruct (find_id d (_index d) h1) as [a1|] eqn:F1; [|split; [done|by intros (? & ? & ? & _)]].
  destruct (find_id d (_index d) h2) as [a2|] eqn:F2; [|split; [done|by intros (? & ? & _ & ? & _)]].
  apply find_id_Some in F1 as (_ & i1 & H1 & _). apply find_id_Some in F2 as (_ & i2 & H2 & _).
  assert (V1 : is_Some (items d !! a1)) by eauto. assert (V2 : is_Some (items d !! a2)) by eauto.
  destruct (item_block_ok d a2 i2 Hok H2) as (Eb2 & En2 & _). rewrite Eb2. cbn [mbind res_bind]. rewrite <- En2.
  split.
  - intros H. apply rbind_Ok in H as ([r1 c1] & D1 & H). cbn [fst snd] in H.
    destruct (descend_sound d a1 a1 _ [] a2 r1 c1 Hok V1 V2 eq_refl D1) as (k1 & -> & Vc1 & N1 & _ & F1).
    destruct Vc1 as [j1 Hj1]. destruct (item_block_ok d c1 j1 Hok Hj1) as (Ec1 & Enc1 & _). rewrite Ec1 in H.
    apply rbind_Ok in H as (b & [= <-] & H). rewrite <- Enc1 in H.
    apply rbind_Ok in H as ([r2 c2] & D2 & H). cbn [fst snd] in H.
    destruct (descend_sound d a2 a2 _ [] c1 r2 c2 Hok V2 ltac:(eauto) eq_refl D2) as (k2 & -> & Vc2 & N2 & _ & F2).
    apply descend_both_spec in H as (m1 & m2 & -> & -> & Hf); [|done|eauto|done|lia|lia].
    exists a1, a2. split; [done|]. split; [done|]. apply F1. apply fork_at_sym, F2. by apply fork_at_sym.
  - intros (? & ? & [= <-] & [= <-] & Hf).
    destruct (descend_complete d a1 a1 _ [] a2 l1 l2 Hok V1 V2 eq_refl ltac:(done) Hf) as (k1 & c1 & m1 & D1 & -> & Hf1).
    rewrite D1. cbn [mbind res_bind fst snd app].
    destruct (descend_sound d a1 a1 _ [] a2 _ c1 Hok V1 V2 eq_refl D1) as (_ & _ & Vc1 & N1 & _).
    destruct (Vc1) as [j1 Hj1]. destruct (item_block_ok d c1 j1 Hok Hj1) as (Ec1 & Enc1 & _). rewrite Ec1.
    cbn [mbind res_bind]. rewrite <- Enc1. apply fork_at_sym in Hf1.
    destruct (descend_complete d a2 a2 _ [] c1 l2 m1 Hok V2 Vc1 eq_refl ltac:(done) Hf1) as (k2 & c2 & m2 & D2 & -> & Hf2).
    rewrite D2. cbn [mbind res_bind fst snd app].
    destruct (descend_sound d a2 a2 _ [] c1 _ c2 Hok V2 Vc1 eq_refl D2) as (_ & _ & Vc2 & N2 & _).
    apply descend_both_spec; [done|done|done|lia|done|]. exists m1, m2. split; [done|]. split; [done|].
    by apply fork_at_sym.
Qed.
End branches.
