(* ===== verification/BlockLog.v ===== *)
(** * BlockLog: the file of irreversible blocks and its index
    ([chain/block_log.cpp]).

    The files are lists of bytes.  The block file holds for each block its packed
    form and the position at which it starts; the index file holds the positions.
    [block_write] and [index_write] tell how a stream is open; to change that it
    is closed and opened again.  The lock and the flushing of buffers are left out.
    The packed form of a whole block is a parameter. *)
From S2P Require Import Prelude Safe Names Asset Version Config Authority Raw Operations Objects.
From S2P Require Import Validate Block.
Local Open Scope Z_scope.
Local Open Scope list_scope.

Class block_packing := BlockPacking {
  pack_block : signed_block -> list Z;
  unpack_block : stream signed_block }.

Record block_log := BlockLog {
  log_head : option signed_block;
  log_head_id : hash160;
  block_bytes : list Z;
  index_bytes : list Z;
  block_write : bool;
  index_write : bool }.
#[export] Instance block_log_eta : Eta block_log := fun l =>
  BlockLog (log_head l) (log_head_id l) (block_bytes l) (index_bytes l) (block_write l) (index_write l).

Abbreviation LOG := (ST block_log).

Section block_log.
  Context {cr : crypto} {pk : block_packing}.
  Implicit Types (l : block_log) (b : signed_block) (pos : Z).

(** ** Streams *)
Definition check_block_read : LOG unit := puts (fun l => l <| block_write := false |>).
Definition check_block_write : LOG unit := puts (fun l => l <| block_write := true |>).
Definition check_index_read : LOG unit := puts (fun l => l <| index_write := false |>).
Definition check_index_write : LOG unit := puts (fun l => l <| index_write := true |>).

(** Reading past the end sets [failbit], which throws. *)
Definition stream_read_u64 : stream Z := fun s =>
  if (8 <=? length s)%nat then Ok (le_value (take 8 s), drop 8 s) else Throw ios_failure.
(** [seekg( pos )], a read, and [tellg()] *)
Definition read_at {A} (bytes : list Z) (pos : Z) (m : stream A) : res (A * Z) :=
  match m (drop (Z.to_nat pos) bytes) with
  | Ok (a, rest) => Ok (a, Z.of_nat (length bytes) - Z.of_nat (length rest))
  | Throw e => Throw e
  end.
(** [seekg( -sizeof( uint64_t ), std::ios::end )] and a read *)
Definition read_last_u64 (bytes : list Z) : res Z :=
  if Z.of_nat (length bytes) <? 8 then Throw ios_failure
  else r ← read_at bytes (Z.of_nat (length bytes) - 8) stream_read_u64; Ok (fst r).

Definition npos : Z := 2^64 - 1.

(** ** Reading *)
Definition read_block_helper pos : LOG (signed_block * Z) :=
  check_block_read ;;
  bytes ← gets block_bytes;
  r ← ⌈ read_at bytes pos unpack_block ⌉;
  mret (fst r, u64 (snd r + 8)).
Definition read_block pos : LOG (signed_block * Z) := read_block_helper pos.

Definition read_head : LOG signed_block :=
  check_block_read ;;
  bytes ← gets block_bytes;
  pos ← ⌈ read_last_u64 bytes ⌉;
  r ← read_block_helper pos;
  mret (fst r).

Definition get_block_pos_helper (n : Z) : LOG Z :=
  check_index_read ;;
  l ← gets (fun l => l);
  let known := match log_head l with
               | Some _ => (n <=? num_from_id (log_head_id l)) && (n >? 0)
               | None => false
               end in
  if negb known then mret npos
  else
    r ← ⌈ read_at (index_bytes l) (8 * u32 (n - 1)) stream_read_u64 ⌉;
    mret (fst r).
Definition get_block_pos (n : Z) : LOG Z := get_block_pos_helper n.

Definition read_block_by_num (n : Z) : LOG (option signed_block) :=
  pos ← get_block_pos_helper n;
  if negb (pos =? npos) then
    r ← read_block_helper pos;
    fc_assert (block_num (fst r) =? n) ;;
    mret (Some (fst r))
  else mret None.

(** ** Writing *)
Definition append b : LOG Z :=
  check_block_write ;;
  check_index_write ;;
  l ← gets (fun l => l);
  let pos := Z.of_nat (length (block_bytes l)) in
  fc_assert (Z.of_nat (length (index_bytes l)) =? 8 * u32 (block_num b - 1)) ;;
  let data := pack_block b in
  puts (fun l => l <| block_bytes ::= fun bs => bs ++ data ++ pack_u64 pos |>
                   <| index_bytes ::= fun bs => bs ++ pack_u64 pos |>
                   <| log_head := Some b |> <| log_head_id := block_id b |>) ;;
  mret pos.

(** [while( pos < end_pos )]: every round reads a position, eight bytes, so the
    length of the file bounds the rounds. *)
Fixpoint index_loop (fuel : nat) (rest : list Z) (pos end_pos : Z) (index : list Z) : res (list Z) :=
  if pos <? end_pos then
    match fuel with
    | O => Throw crash
    | S fuel =>
        r ← unpack_block rest;
        p ← stream_read_u64 (snd r);
        index_loop fuel (snd p) (fst p) end_pos (index ++ pack_u64 (fst p))
    end
  else Ok index.
Definition construct_index : LOG unit :=
  puts (fun l => l <| index_bytes := [] |> <| index_write := true |>) ;;
  check_block_read ;;
  bytes ← gets block_bytes;
  end_pos ← ⌈ read_last_u64 bytes ⌉;
  index ← ⌈ index_loop (length bytes) bytes 0 end_pos [] ⌉;
  puts (fun l => l <| index_bytes := index |>).

(** ** Opening: a missing or different index is built again. *)
Definition log_open : LOG unit :=
  puts (fun l => l <| block_write := true |> <| index_write := true |>) ;;
  l ← gets (fun l => l);
  if negb (Z.of_nat (length (block_bytes l)) =? 0) then
    head ← read_head;
    puts (fun l => l <| log_head := Some head |> <| log_head_id := block_id head |>) ;;
    if negb (Z.of_nat (length (index_bytes l)) =? 0) then
      check_block_read ;;
      check_index_read ;;
      block_pos ← ⌈ read_last_u64 (block_bytes l) ⌉;
      index_pos ← ⌈ read_last_u64 (index_bytes l) ⌉;
      if block_pos <? index_pos then construct_index
      else whenM (block_pos >? index_pos) construct_index
    else construct_index
  else
    whenM (negb (Z.of_nat (length (index_bytes l)) =? 0))
      (puts (fun l => l <| index_bytes := [] |> <| index_write := true |>)).

(** [close] starts with a new object; the files stay. *)
Definition log_close : LOG unit := puts (fun l =>
  l <| log_head := None |> <| log_head_id := null_hash |> <| block_write := false |> <| index_write := false |>).
End block_log.

(** ** The files of a list of blocks *)
Section layout.
  Context {cr : crypto} {pk : block_packing}.
  Implicit Types (l : block_log) (b : signed_block) (bs : list signed_block) (pos : Z).

Fixpoint block_file pos bs : list Z :=
  match bs with
  | [] => []
  | b :: bs => pack_block b ++ pack_u64 pos ++ block_file (pos + Z.of_nat (length (pack_block b)) + 8) bs
  end.
Fixpoint starts pos bs : list Z :=
  match bs with
  | [] => []
  | b :: bs => pos :: starts (pos + Z.of_nat (length (pack_block b)) + 8) bs
  end.
Definition index_of (ps : list Z) : list Z := concat (map pack_u64 ps).
Definition file_len bs : Z := Z.of_nat (length (block_file 0 bs)).
Definition packable b : Prop := unpacks unpack_block (pack_block b) b.

(** Blocks 1, 2, ... *)
Definition numbered bs : Prop := forall i b, bs !! i = Some b -> block_num b = Z.of_nat i + 1.
Definition log_ok l bs : Prop :=
  block_bytes l = block_file 0 bs /\ index_bytes l = index_of (starts 0 bs) /\ log_head l = last bs /\
  (forall b, last bs = Some b -> log_head_id l = block_id b) /\
  numbered bs /\ Forall packable bs /\ file_len bs < 2^63.

Lemma pack_u64_length v : length (pack_u64 v) = 8%nat.
Proof. apply le_bytes_length. Qed.
Lemma read_u64_packed v rest : 0 <= v < 2^64 -> stream_read_u64 (pack_u64 v ++ rest) = Ok (v, rest).
Proof.
  intros Hv. unfold stream_read_u64. rewrite length_app, pack_u64_length. cbn [Nat.leb Nat.add].
  rewrite <- (pack_u64_length v). rewrite take_app_length, drop_app_length. unfold pack_u64.
  rewrite le_value_bytes by (cbn; lia). done.
Qed.

Lemma block_file_length pos pos' bs : length (block_file pos bs) = length (block_file pos' bs).
Proof.
  revert pos pos'. induction bs as [|b bs IH]; intros; [done|]. cbn [block_file].
  rewrite !length_app, !pack_u64_length. by erewrite IH.
Qed.
Lemma block_file_app pos bs1 bs2 : block_file pos (bs1 ++ bs2) =
  block_file pos bs1 ++ block_file (pos + file_len bs1) bs2.
Proof.
  revert pos. induction bs1 as [|b bs1 IH]; intros pos; cbn [app block_file].
  { unfold file_len. simpl. by rewrite Z.add_0_r. }
  rewrite IH, <- !app_assoc. do 4 f_equal. unfold file_len. cbn [block_file].
  rewrite !length_app, pack_u64_length. rewrite (block_file_length (0 + Z.of_nat (length (pack_block b)) + 8) 0 bs1). lia.
Qed.
Lemma starts_app pos bs1 bs2 : starts pos (bs1 ++ bs2) = starts pos bs1 ++ starts (pos + file_len bs1) bs2.
Proof.
  revert pos. induction bs1 as [|b bs1 IH]; intros pos; cbn [app starts].
  { unfold file_len. simpl. by rewrite Z.add_0_r. }
  rewrite IH. do 3 f_equal. unfold file_len. cbn [block_file].
  rewrite !length_app, pack_u64_length. rewrite (block_file_length (0 + Z.of_nat (length (pack_block b)) + 8) 0 bs1). lia.
Qed.
Lemma starts_length pos bs : length (starts pos bs) = length bs.
Proof. revert pos. induction bs as [|b bs IH]; intros; simpl; [done|]. by rewrite IH. Qed.
Lemma index_of_app ps qs : index_of (ps ++ qs) = index_of ps ++ index_of qs.
Proof. unfold index_of. by rewrite map_app, concat_app. Qed.
Lemma index_of_length ps : length (index_of ps) = (8 * length ps)%nat.
Proof.
  unfold index_of. induction ps as [|p ps IH]; [done|]. cbn [map concat length].
  rewrite length_app, pack_u64_length, IH. lia.
Qed.
Lemma file_len_app bs1 bs2 : file_len (bs1 ++ bs2) = file_len bs1 + file_len bs2.
Proof.
  unfold file_len. rewrite block_file_app, length_app. erewrite (block_file_length _ 0 bs2). lia.
Qed.
Lemma file_len_cons b bs : file_len (b :: bs) = Z.of_nat (length (pack_block b)) + 8 + file_len bs.
Proof.
  unfold file_len. cbn [block_file]. rewrite !length_app, pack_u64_length.
  erewrite (block_file_length _ 0 bs). lia.
Qed.
Lemma file_len_nonneg bs : 0 <= file_len bs.
Proof. unfold file_len. lia. Qed.

(** *** Reading the files *)
Lemma drop_block_file bs1 bs2 :
  drop (Z.to_nat (file_len bs1)) (block_file 0 (bs1 ++ bs2)) = block_file (file_len bs1) bs2.
Proof.
  rewrite block_file_app, Z.add_0_l. unfold file_len at 1. rewrite Nat2Z.id. apply drop_app_length.
Qed.
Lemma read_at_block bs1 b bs2 : packable b ->
  read_at (block_file 0 (bs1 ++ b :: bs2)) (file_len bs1) unpack_block =
  Ok (b, file_len bs1 + Z.of_nat (length (pack_block b))).
Proof.
  intros Hb. unfold read_at. rewrite drop_block_file. cbn [block_file]. rewrite Hb. do 2 f_equal.
  rewrite length_app, pack_u64_length. pose proof (file_len_app bs1 (b :: bs2)) as E. rewrite file_len_cons in E.
  rewrite (block_file_length _ 0 bs2). unfold file_len in *. lia.
Qed.
Lemma read_at_nth bs i b : packable b -> bs !! i = Some b ->
  read_at (block_file 0 bs) (file_len (take i bs)) unpack_block =
  Ok (b, file_len (take i bs) + Z.of_nat (length (pack_block b))).
Proof. intros Hp Hi. rewrite <- (read_at_block _ _ (drop (S i) bs)) by done. by rewrite take_drop_middle. Qed.
Lemma read_at_index ps i p : ps !! i = Some p -> 0 <= p < 2^64 ->
  exists q, read_at (index_of ps) (8 * Z.of_nat i) stream_read_u64 = Ok (p, q).
Proof.
  intros Hi Hp. assert (E : index_of ps = index_of (take i ps) ++ index_of (p :: drop (S i) ps)).
  { by rewrite <- index_of_app, take_drop_middle. }
  unfold read_at. rewrite E. assert (Hl : length (index_of (take i ps)) = Z.to_nat (8 * Z.of_nat i)).
  { rewrite index_of_length, length_take. apply lookup_lt_Some in Hi. lia. }
  rewrite <- Hl, drop_app_length. unfold index_of. cbn [map concat]. rewrite read_u64_packed by done. eauto.
Qed.
Lemma read_last_packed pre v : 0 <= v < 2^64 -> read_last_u64 (pre ++ pack_u64 v) = Ok v.
Proof.
  intros Hv. unfold read_last_u64. rewrite length_app, pack_u64_length.
  rewrite (proj2 (Z.ltb_ge _ _)) by lia. unfold read_at.
  replace (Z.to_nat (Z.of_nat (length pre + 8) - 8)) with (length pre) by lia. rewrite drop_app_length.
  rewrite <- (app_nil_r (pack_u64 v)) at 1. rewrite read_u64_packed by done. done.
Qed.

Lemma starts_lookup bs i b : bs !! i = Some b -> starts 0 bs !! i = Some (file_len (take i bs)).
Proof.
  intros Hi. rewrite <- (take_drop_middle bs i b Hi) at 1. rewrite starts_app, lookup_app_r.
  - rewrite starts_length, length_take. apply lookup_lt_Some in Hi.
    replace (i - Nat.min i (length bs))%nat with 0%nat by lia. done.
  - rewrite starts_length, length_take. lia.
Qed.
Lemma file_len_take bs i b : bs !! i = Some b -> 0 <= file_len (take i bs) < file_len bs.
Proof.
  intros Hi. assert (E : file_len bs = file_len (take i bs) + file_len (b :: drop (S i) bs)).
  { by rewrite <- file_len_app, take_drop_middle. }
  rewrite E, file_len_cons.
  pose proof (file_len_nonneg (take i bs)). pose proof (file_len_nonneg (drop (S i) bs)). lia.
Qed.
Lemma numbered_last bs b : numbered bs -> last bs = Some b -> block_num b = Z.of_nat (length bs).
Proof.
  intros Hn Hl. rewrite last_lookup in Hl. rewrite (Hn _ _ Hl).
  destruct bs; [done|]. simpl. lia.
Qed.

(** [read_block_by_num] finds every block by its number and nothing else. *)
Lemma read_block_by_num_spec l bs n : log_ok l bs -> 0 <= n < 2^32 -> exists l',
  read_block_by_num n l = Ok (if n =? 0 then None else bs !! Z.to_nat (n - 1), l') /\ log_ok l' bs.
Proof.
  intros (Hb & Hi & Hh & Hid & Hnum & Hpk & Hlen) Hn.
  unfold read_block_by_num, get_block_pos_helper, check_index_read. unfold mbind, ST_bind, puts, gets.
  cbn [upd log_head log_head_id index_bytes block_bytes mret ST_ret].
  set (known := match log_head l with Some _ => _ | None => _ end).
  assert (Hk : known = negb (n =? 0) && (n <=? Z.of_nat (length bs))).
  { unfold known. rewrite Hh. destruct (last bs) as [b|] eqn:El.
    - rewrite (Hid b eq_refl). unfold num_from_id, block_id. cbn [_hash0].
      rewrite endian_reverse_involutive by apply u32_range. rewrite (numbered_last bs b Hnum El).
      destruct (n =? 0) eqn:E0, (n >? 0) eqn:E1; bool_simpl; try lia; rewrite ?andb_true_r, ?andb_false_r; done.
    - apply last_None in El as ->. simpl. destruct (n =? 0) eqn:E0; [done|]. simpl. symmetry. apply Z.leb_gt. bool_simpl. lia. }
  rewrite Hk. destruct (n =? 0) eqn:E0.
  { cbn [andb negb]. unfold mret, ST_ret. rewrite Z.eqb_refl. cbn [negb]. eexists. split; [done|]. by repeat split. }
  cbn [andb negb]. bool_simpl. destruct (n <=? Z.of_nat (length bs)) eqn:E1; bool_simpl; cbn [negb].
  - destruct (lookup_lt_is_Some_2 bs (Z.to_nat (n - 1)) ltac:(lia)) as [b Eb]. rewrite Eb, Hi.
    pose proof (file_len_take bs _ b Eb) as Hpos. unfold u32. rewrite Z.mod_small by lia.
    destruct (read_at_index (starts 0 bs) (Z.to_nat (n - 1)) (file_len (take (Z.to_nat (n - 1)) bs))) as [q Hq];
      [by eapply starts_lookup|lia|].
    rewrite Z2Nat.id in Hq by lia. rewrite Hq. cbn [lift fst]. unfold mret, ST_ret. unfold npos.
    rewrite (proj2 (Z.eqb_neq _ _)) by lia. cbn [negb]. unfold read_block_helper, check_block_read, mbind, ST_bind, puts, gets.
    cbn [upd block_bytes]. rewrite Hb.
    rewrite (read_at_nth bs _ b); [|rewrite Forall_forall in Hpk; apply Hpk; by eapply list_elem_of_lookup_2|done].
    cbn [lift fst snd]. unfold mret, ST_ret. cbn [fst]. rewrite (Hnum _ _ Eb), Z2Nat.id by lia.
    replace (n - 1 + 1) with n by lia. unfold fc_assert, sophiatx_assert. rewrite Z.eqb_refl.
    cbn [mret ST_ret]. eexists. split; [done|]. by repeat split.
  - rewrite (lookup_ge_None_2 bs) by lia. unfold mret, ST_ret. rewrite Z.eqb_refl. cbn [negb].
    eexists. split; [done|]. by repeat split.
Qed.

(** [read_block] goes from a block to the next. *)
Lemma read_block_spec l bs i b : log_ok l bs -> bs !! i = Some b -> exists l',
  read_block (file_len (take i bs)) l = Ok ((b, file_len (take (S i) bs)), l') /\ log_ok l' bs.
Proof.
  intros Hok Hi. pose proof Hok as (Hb & _ & _ & _ & _ & Hpk & Hlen).
  unfold read_block, read_block_helper, check_block_read, mbind, ST_bind, puts, gets. cbn [upd block_bytes]. rewrite Hb.
  rewrite (read_at_nth bs i b); [|rewrite Forall_forall in Hpk; apply Hpk; by eapply list_elem_of_lookup_2|done].
  cbn [lift fst snd]. assert (E : file_len (take (S i) bs) = file_len (take i bs) + Z.of_nat (length (pack_block b)) + 8).
  { rewrite (take_S_r _ _ _ Hi), file_len_app, file_len_cons. unfold file_len at 2. simpl. lia. }
  assert (0 <= file_len (take (S i) bs) <= file_len bs).
  { split; [apply file_len_nonneg|]. rewrite <- (take_drop (S i) bs) at 2. rewrite file_len_app.
    pose proof (file_len_nonneg (drop (S i) bs)). lia. }
  exists (l <| block_write := false |>). split; [|exact Hok]. unfold mret, ST_ret, u64. rewrite E in *.
  rewrite Z.mod_small by lia. cbn [upd block_log_eta]. by rewrite Hb.
Qed.

(** *** Appending *)
Lemma append_spec l bs b : log_ok l bs -> packable b -> file_len (bs ++ [b]) < 2^63 ->
  Z.of_nat (length bs) < 2^32 - 1 -> 1 <= block_num b ->
  if block_num b =? Z.of_nat (length bs) + 1
  then exists l', append b l = Ok (file_len bs, l') /\ log_ok l' (bs ++ [b])
  else append b l = Throw assert_exception.
Proof.
  intros (Hb & Hi & Hh & Hid & Hnum & Hpk & Hlen) Hp Hl Hsz Hge.
  unfold append, check_block_write, check_index_write, mbind, ST_bind, puts, gets.
  cbn [upd log_head log_head_id index_bytes block_bytes].
  rewrite Hi, index_of_length, starts_length. unfold u32.
  assert (block_num b < 2^32) by apply u32_range. rewrite Z.mod_small by lia.
  replace (Z.of_nat (8 * length bs) =? 8 * (block_num b - 1)) with (block_num b =? Z.of_nat (length bs) + 1).
  2: { apply Bool.eq_iff_eq_true. rewrite !Z.eqb_eq. lia. }
  destruct (block_num b =? _) eqn:E; bool_simpl; unfold fc_assert, sophiatx_assert; [|done].
  cbn [mret ST_ret]. rewrite Hb. eexists. split; [done|]. unfold log_ok. cbn [upd log_head log_head_id index_bytes block_bytes].
  rewrite starts_app, index_of_app, block_file_app, !Z.add_0_l. cbn [starts block_file]. rewrite app_nil_r.
  split; [done|]. split; [unfold index_of; cbn [map concat]; by rewrite app_nil_r|]. rewrite last_snoc.
  split; [done|]. split; [by intros ? [= ->]|]. split; [|split; [|done]].
  - intros i c Hc. apply lookup_app_Some in Hc as [Hc|[Hge' Hc]]; [by apply Hnum|].
    apply list_lookup_singleton_Some in Hc as [Hz <-]. lia.
  - apply Forall_app. split; [done|]. by repeat constructor.
Qed.

(** *** Building the index again *)
Lemma index_loop_spec fuel bs1 bs2 pos : Forall packable bs2 -> (length bs2 <= fuel)%nat -> bs2 <> [] ->
  file_len (bs1 ++ bs2) < 2^63 -> pos < file_len (bs1 ++ removelast bs2) ->
  index_loop fuel (block_file (file_len bs1) bs2) pos (file_len (bs1 ++ removelast bs2)) (index_of (starts 0 bs1)) =
  Ok (index_of (starts 0 (bs1 ++ bs2))).
Proof.
  intros Hpk. revert fuel bs1 pos. induction Hpk as [|b bs2 Hb Hpk IH]; intros fuel bs1 pos Hf Hne Hlen Hpos; [done|].
  destruct fuel as [|fuel]; [simpl in Hf; lia|]. cbn [index_loop].
  rewrite (proj2 (Z.ltb_lt _ _) Hpos). cbn [block_file]. rewrite Hb. cbn [mbind res_bind snd].
  rewrite file_len_app, file_len_cons in Hlen. pose proof (file_len_nonneg bs1). pose proof (file_len_nonneg bs2).
  rewrite read_u64_packed by lia. cbn [mbind res_bind fst snd].
  assert (E1 : index_of (starts 0 bs1) ++ pack_u64 (file_len bs1) = index_of (starts 0 (bs1 ++ [b]))).
  { rewrite starts_app, index_of_app, Z.add_0_l. cbn [starts]. unfold index_of at 3. cbn [map concat]. by rewrite app_nil_r. }
  assert (E2 : file_len bs1 + Z.of_nat (length (pack_block b)) + 8 = file_len (bs1 ++ [b])).
  { rewrite file_len_app, file_len_cons. unfold file_len at 3. simpl. lia. }
  rewrite E1, E2. assert (E3 : bs1 ++ b :: bs2 = (bs1 ++ [b]) ++ bs2) by (by rewrite <- app_assoc).
  destruct bs2 as [|c bs2].
  - cbn [removelast]. rewrite app_nil_r. destruct fuel; cbn [index_loop]; by rewrite Z.ltb_irrefl.
  - change (removelast (b :: c :: bs2)) with (b :: removelast (c :: bs2)) in *.
    assert (E4 : bs1 ++ b :: removelast (c :: bs2) = (bs1 ++ [b]) ++ removelast (c :: bs2)) by (by rewrite <- app_assoc).
    rewrite E3, E4 in *. apply IH; [simpl in *; lia|done| |].
    + rewrite <- E3, file_len_app, file_len_cons. lia.
    + rewrite <- E4, file_len_app, file_len_cons. pose proof (file_len_nonneg (removelast (c :: bs2))). lia.
Qed.

(** The files of a log whose last block is [b]. *)
Lemma last_start bs b : file_len (bs ++ [b]) < 2^63 -> read_last_u64 (block_file 0 (bs ++ [b])) = Ok (file_len bs).
Proof.
  intros Hl. rewrite block_file_app. cbn [block_file]. rewrite app_nil_r, Z.add_0_l, app_assoc.
  pose proof (file_len_nonneg bs). rewrite file_len_app, file_len_cons in Hl. pose proof (file_len_nonneg []).
  apply read_last_packed. lia.
Qed.
Lemma last_index bs b : file_len (bs ++ [b]) < 2^63 -> read_last_u64 (index_of (starts 0 (bs ++ [b]))) = Ok (file_len bs).
Proof.
  intros Hl. rewrite starts_app, index_of_app. cbn [starts]. unfold index_of at 2. cbn [map concat].
  rewrite app_nil_r, Z.add_0_l. pose proof (file_len_nonneg bs).
  rewrite file_len_app, file_len_cons in Hl. pose proof (file_len_nonneg []). apply read_last_packed. lia.
Qed.

Lemma construct_index_spec l bs b : bs <> [] -> block_bytes l = block_file 0 (bs ++ [b]) ->
  Forall packable (bs ++ [b]) -> file_len (bs ++ [b]) < 2^63 ->
  construct_index l = Ok (tt, l <| index_bytes := index_of (starts 0 (bs ++ [b])) |> <| index_write := true |>
                                <| block_write := false |>).
Proof.
  intros Hne Hb Hpk Hl. unfold construct_index, check_block_read, mbind, ST_bind, puts, gets.
  cbn [upd block_bytes]. rewrite Hb, last_start by done. cbn [lift].
  pose proof (index_loop_spec (length (block_file 0 (bs ++ [b]))) [] (bs ++ [b]) 0 Hpk) as H.
  cbn [app] in H. rewrite removelast_last in H. change (file_len []) with 0 in H.
  change (index_of (starts 0 [])) with (@nil Z) in H. rewrite H; [done| |by destruct bs|done|].
  - assert (G : forall pos bs, (length bs <= length (block_file pos bs))%nat).
    { intros pos cs. revert pos. induction cs as [|c cs IH]; intros pos; cbn [block_file length]; [lia|].
      rewrite !length_app, pack_u64_length. specialize (IH (pos + Z.of_nat (length (pack_block c)) + 8)). lia. }
    apply G.
  - destruct bs as [|c cs]; [done|]. rewrite file_len_cons. pose proof (file_len_nonneg cs). lia.
Qed.

(** With a single block the last position is 0 and the loop ends at once. *)
Lemma construct_index_single l b : block_bytes l = block_file 0 [b] -> file_len [b] < 2^63 ->
  construct_index l = Ok (tt, l <| index_bytes := [] |> <| index_write := true |> <| block_write := false |>).
Proof.
  intros Hb Hl. pose proof (last_start [] b Hl) as Hs. cbn [app] in Hs.
  destruct l as [lh lid bytes ib bw iw]. cbn [block_bytes] in Hb. subst bytes.
  unfold construct_index, check_block_read, mbind, ST_bind, puts, gets. cbn [upd block_bytes]. rewrite Hs. cbn [lift].
  assert (E : forall fuel bytes, index_loop fuel bytes 0 (file_len []) [] = Ok []) by (by intros [|fuel] bytes).
  by rewrite E.
Qed.

Lemma read_head_spec l bs b : block_bytes l = block_file 0 (bs ++ [b]) -> packable b ->
  file_len (bs ++ [b]) < 2^63 -> read_head l = Ok (b, l <| block_write := false |>).
Proof.
  intros Hb Hp Hl. unfold read_head, read_block_helper, check_block_read, mbind, ST_bind, puts, gets.
  destruct l as [lh lid bytes ib bw iw]. cbn [block_bytes] in Hb. subst bytes.
  cbn [upd block_bytes]. rewrite last_start by done. cbn [lift block_bytes]. by rewrite read_at_block.
Qed.

(** *** Opening: an index that ends differently from the block file is built again. *)
Lemma log_open_spec l bs b : bs <> [] -> block_bytes l = block_file 0 (bs ++ [b]) -> numbered (bs ++ [b]) ->
  Forall packable (bs ++ [b]) -> file_len (bs ++ [b]) < 2^63 ->
  index_bytes l = [] \/ index_bytes l = index_of (starts 0 (bs ++ [b])) \/
  (exists q, read_last_u64 (index_bytes l) = Ok q /\ q <> file_len bs) ->
  exists l', log_open l = Ok (tt, l') /\ log_ok l' (bs ++ [b]).
Proof.
  intros Hne Hb Hnum Hpk Hl Hi. assert (Hpb : packable b) by (apply Forall_app in Hpk as [_ Hpk]; by inversion Hpk).
  assert (Hlen : (Z.of_nat (length (block_bytes l)) =? 0) = false).
  { apply Z.eqb_neq. rewrite Hb. change (file_len (bs ++ [b]) <> 0). rewrite file_len_app, file_len_cons.
    pose proof (file_len_nonneg bs). pose proof (file_len_nonneg []). lia. }
  unfold log_open. unfold mbind, ST_bind, puts, gets. cbn [upd block_bytes index_bytes]. rewrite Hlen. cbn [negb].
  rewrite (read_head_spec _ bs b) by done. cbn [upd block_bytes index_bytes].
  assert (Done : forall l', block_bytes l' = block_bytes l -> log_head l' = Some b -> log_head_id l' = block_id b ->
    index_bytes l' = index_of (starts 0 (bs ++ [b])) -> log_ok l' (bs ++ [b])).
  { intros l' E1 E2 E3 E4. unfold log_ok. rewrite E1, E2, E3, E4, last_snoc. repeat split; try done. by intros ? [= ->]. }
  destruct (Z.of_nat (length (index_bytes l)) =? 0) eqn:Ez; cbn [negb].
  { rewrite (construct_index_spec _ bs b) by done. eexists. split; [done|]. by apply Done. }
  unfold check_block_read, check_index_read, mbind, ST_bind, puts, gets. cbn [upd block_bytes index_bytes].
  rewrite Hb, last_start by done. cbn [lift]. destruct Hi as [Hi|[Hi|(q & Hq & Hneq)]].
  - by rewrite Hi in Ez.
  - rewrite Hi, last_index by done. cbn [lift]. rewrite Z.ltb_irrefl. unfold Z.gtb. rewrite Z.compare_refl. cbn [whenM].
    eexists. split; [done|]. by apply Done.
  - rewrite Hq. cbn [lift]. destruct (file_len bs <? q) eqn:E1, (file_len bs >? q) eqn:E2; bool_simpl; try lia; cbn [whenM];
      (rewrite (construct_index_spec _ bs b) by done); eexists; (split; [done|]); by apply Done.
Qed.
End layout.

(** ** What the chain asks of its block log *)
Class block_store (T : Type) := BlockStore {
  store_head : T -> option signed_block;
  store_append : signed_block -> ST T Z;
  store_read : Z -> ST T (option signed_block);
  store_read_at : Z -> ST T (signed_block * Z);
  store_open : ST T unit;
  store_close : ST T unit }.
(** The store holds blocks 1, 2, ... in order. *)
Class block_store_laws (T : Type) `{cr : crypto, st : !block_store T} (fits : list signed_block -> Prop)
    (stores : T -> list signed_block -> Prop) (position : list signed_block -> nat -> Z) := BlockStoreLaws {
  stores_numbered t bs : stores t bs -> numbered bs;
  stores_head t bs : stores t bs -> store_head t = last bs;
  stores_append t bs b : stores t bs -> fits (bs ++ [b]) -> block_num b = Z.of_nat (length bs) + 1 ->
    exists p t', store_append b t = Ok (p, t') /\ stores t' (bs ++ [b]);
  stores_append_other t bs b : stores t bs -> fits (bs ++ [b]) -> 1 <= block_num b ->
    block_num b <> Z.of_nat (length bs) + 1 -> store_append b t = Throw assert_exception;
  stores_read t bs n : stores t bs -> 0 <= n < 2^32 ->
    exists t', store_read n t = Ok (if n =? 0 then None else bs !! Z.to_nat (n - 1), t') /\ stores t' bs;
  position_first bs : position bs O = 0;
  stores_walk t bs i b : stores t bs -> bs !! i = Some b ->
    exists t', store_read_at (position bs i) t = Ok ((b, position bs (S i)), t') /\ stores t' bs }.

#[export] Instance block_log_store {cr : crypto} {pk : block_packing} : block_store block_log := {|
  store_head := log_head;
  store_append := append;
  store_read := read_block_by_num;
  store_read_at := read_block;
  store_open := log_open;
  store_close := log_close |}.
Definition log_fits {cr : crypto} {pk : block_packing} (bs : list signed_block) : Prop :=
  Forall packable bs /\ file_len bs < 2^63 /\ Z.of_nat (length bs) < 2^32.
#[export] Instance block_log_store_laws {cr : crypto} {pk : block_packing} :
  block_store_laws block_log log_fits log_ok (fun bs i => file_len (take i bs)).
Proof.
  split.
  - intros l bs H. apply H.
  - intros l bs H. apply H.
  - intros l bs b H (Hp & Hl & Hs) Hn. apply Forall_app in Hp as [_ Hp]. inversion Hp as [|? ? Hpb _]. subst.
    rewrite length_app in Hs. simpl in Hs.
    pose proof (append_spec l bs b H Hpb Hl ltac:(lia) ltac:(lia)) as A.
    rewrite (proj2 (Z.eqb_eq _ _) Hn) in A. destruct A as (l' & A & B). eauto.
  - intros l bs b H (Hp & Hl & Hs) Hge Hn. apply Forall_app in Hp as [_ Hp]. inversion Hp as [|? ? Hpb _]. subst.
    rewrite length_app in Hs. simpl in Hs.
    pose proof (append_spec l bs b H Hpb Hl ltac:(lia) Hge) as A. by rewrite (proj2 (Z.eqb_neq _ _) Hn) in A.
  - intros l bs n. apply read_block_by_num_spec.
  - done.
  - intros l bs i b H Hi. by apply read_block_spec.
Qed.
