(* ===== verification/Node.v ===== *)
(** * Node: the chain database as a whole ([chain/database.cpp]: [push_block],
    [push_transaction], [generate_block], [pop_block], [open], [reindex];
    [database/db_with.hpp]).

    A node is the state of the chain, the undo history of its tables as the states
    to go back to (what [Chainbase] proves the tables' history to be), the fork
    database, the block log and the pending transactions.  An exception leaves the
    node as far as it got: [Raised] carries the node. *)
From S2P Require Import Prelude Safe Names Asset Version Config Authority Raw Operations Validate.
From S2P Require Import Objects State Frame Economics Votes Money Balance EvalWitness EvalAccount.
From S2P Require Import EvalTransfer EvalEscrow EvalVote EvalContent Evaluators Block SignState.
From S2P Require Import Transactions WitnessSchedule Periodic Hardforks Blocks Genesis ForkDb BlockLog.
Local Open Scope Z_scope.
Local Open Scope list_scope.

Record node {T : Type} := Node {
  chain : db;
  undo_stack : list (Z * db);   (* revisions and the states before them, latest first *)
  revision : Z;
  fork_db : fork_database;
  blog : T;
  pending_tx : list signed_transaction;
  pending_tx_session : bool;
  popped_tx : list signed_transaction;
  checkpoints : list (Z * hash160) (* by block number *) }.
Arguments node : clear implicits.
#[export] Instance node_eta {T} : Eta (node T) := fun n =>
  Node T (chain n) (undo_stack n) (revision n) (fork_db n) (blog n) (pending_tx n)
    (pending_tx_session n) (popped_tx n) (checkpoints n).

(** ** Outcomes

    [Broken]: a step failed whose undo session was committed while it ran, so that
    its changes were not taken back; the model does not follow the node further. *)
Inductive outcome (T A : Type) :=
  | Done (a : A) (n : node T)
  | Raised (e : exn) (n : node T)
  | Broken (e : exn).
Arguments Done {T A} _ _.
Arguments Raised {T A} _ _.
Arguments Broken {T A} _.

Definition NM (T A : Type) : Type := node T -> outcome T A.
#[export] Instance NM_ret {T} : MRet (NM T) := fun A a n => Done a n.
#[export] Instance NM_bind {T} : MBind (NM T) := fun A B f m n =>
  match m n with Done a n => f a n | Raised e n => Raised e n | Broken e => Broken e end.
#[export] Instance NM_throw {T} : MThrow exn (NM T) := fun A e n => Raised e n.

Definition reads {T A} (f : node T -> A) : NM T A := fun n => Done (f n) n.
Definition change {T} (f : node T -> node T) : NM T unit := fun n => Done tt (f n).

(** An operation of a part: when it throws, the part stays as it was. *)
Definition on_part {T S A} (proj : node T -> S) `{!Settable proj} (m : ST S A) : NM T A := fun n =>
  match m (proj n) with
  | Ok (a, s) => Done a (n <| proj := s |>)
  | Throw e => Raised e n
  end.
Abbreviation on_chain := (on_part chain).
Abbreviation on_fork := (on_part fork_db).
Abbreviation on_log := (on_part blog).

(** [catch( const fc::exception& )]; undefined behaviour is not caught. *)
Definition try {T A} (m : NM T A) (handler : exn -> NM T A) : NM T A := fun n =>
  match m n with
  | Raised e n' => if bool_decide (e = crash) then Raised e n' else handler e n'
  | r => r
  end.
(** What a destructor does at the end of a scope, left normally or not. *)
Definition finally {T A} (m : NM T A) (cleanup : NM T unit) : NM T A := fun n =>
  match m n with
  | Done a n' => (cleanup ;; mret a) n'
  | Raised e n' => (cleanup ;; mthrow e) n'
  | Broken e => Broken e
  end.

Section node.
  Context {cfg : sophiatx_config} {ext : externals} {itp : interpreters} {cr : crypto}.
  Context {T : Type} {st : block_store T}.
  Implicit Types (n : node T) (s : db) (b : signed_block).

(** ** The undo history ([chainbase::database]) *)
(** The tables of [old]; the members of the node are not in the tables. *)
Definition restore (old s : db) : db :=
  old <| skip_flags := skip_flags s |> <| producing := producing s |>
      <| current_block_num := current_block_num s |> <| virtual_ops := virtual_ops s |>.

Definition start_session : NM T unit := change (fun n =>
  let r := revision n + 1 in
  n <| undo_stack ::= cons (r, chain n) |> <| revision := r |>).
Definition undo_session : NM T unit := change (fun n =>
  match undo_stack n with
  | [] => n
  | (_, old) :: rest =>
      n <| chain ::= restore old |> <| undo_stack := rest |> <| revision ::= fun r => r - 1 |>
  end).
(** The session below takes the changes over; a single session is dropped and the
    revision stays. *)
Definition squash_session : NM T unit := change (fun n =>
  match undo_stack n with
  | [] => n
  | [_] => n <| undo_stack := [] |>
  | _ :: (r, old) :: rest => n <| undo_stack := (r, old) :: rest |> <| revision ::= fun r => r - 1 |>
  end).
Fixpoint drop_committed (rev : Z) (l : list (Z * db)) : list (Z * db) :=
  match l with
  | (r, old) :: l' => if r <=? rev then drop_committed rev l' else l
  | [] => []
  end.
Definition commit (rev : Z) : NM T unit := change (fun n =>
  n <| undo_stack ::= fun l => List.rev (drop_committed rev (List.rev l)) |>).
Definition undo_all : NM T unit := change (fun n =>
  match last (undo_stack n) with
  | None => n
  | Some (_, old) =>
      n <| chain ::= restore old |> <| undo_stack := [] |>
        <| revision ::= fun r => r - Z.of_nat (length (undo_stack n)) |>
  end).
Definition set_revision (r : Z) : NM T unit := fun n =>
  if negb (Z.of_nat (length (undo_stack n)) =? 0) then Raised logic_error n else Done tt (n <| revision := r |>).

(** [auto session = start_undo_session(); m; session.push();] and the same with
    [session.squash()]: when [m] throws the destructor undoes the session, unless
    it has been committed in the meantime. *)
Definition on_top (r : Z) n : bool :=
  match undo_stack n with (r', _) :: _ => r' =? r | [] => false end.
Definition in_session (m : NM T unit) (close : NM T unit) : NM T unit := fun n =>
  match (start_session ;; m) n with
  | Done _ n' => close n'
  | Raised e n' => if on_top (revision n + 1) n' then (undo_session ;; mthrow e) n' else Broken e
  | Broken e => Broken e
  end.
Definition pushed (m : NM T unit) : NM T unit := in_session m (mret tt).
Definition squashed (m : NM T unit) : NM T unit := in_session m squash_session.

(** ** Blocks by id and by number *)
Definition head_block_id_of n : hash160 := head_block_id (dgpo (chain n)).
Definition fork_block n (a : nat) : res signed_block := item_block (fork_db n) a.
Definition of_fork {A} (f : fork_database -> res A) : NM T A := on_fork (d ← gets (fun d => d); ⌈ f d ⌉).

Definition fetch_block_by_id (h : hash160) : NM T (option signed_block) :=
  a ← reads (fun n => fork_fetch_block (fork_db n) h);
  match a with
  | Some a => b ← of_fork (fun d => item_block d a); mret (Some b)
  | None =>
      tmp ← on_log (store_read (num_from_id h));
      mret (match tmp with
            | Some b => if bool_decide (block_id b = h) then Some b else None
            | None => None
            end)
  end.
Definition is_known_block (h : hash160) : NM T bool :=
  b ← fetch_block_by_id h; mret (match b with Some _ => true | None => false end).
Definition fetch_block_by_number (k : Z) : NM T (option signed_block) :=
  l ← reads (fun n => fork_fetch_block_by_number (fork_db n) k);
  match l with
  | [a] => b ← of_fork (fun d => item_block d a); mret (Some b)
  | _ => on_log (store_read k)
  end.
Definition is_known_transaction (h : hash160) : NM T bool :=
  reads (fun n => match transactions (chain n) !! h with Some _ => true | None => false end).

Definition find_block_id_for_num (k : Z) : NM T hash160 :=
  if k =? 0 then mret null_hash
  else
    known ← reads (fun n => match block_summaries (chain n) !! Z.land k 0xFFFF with
                            | Some h => if num_from_id h =? k then Some h else None
                            | None => None
                            end);
    match known with
    | Some h => mret h
    | None =>
        b ← on_log (store_read k);
        match b with
        | Some b => mret (block_id b)
        | None =>
            a ← of_fork (fun d => fetch_block_on_main_branch_by_number d k);
            match a with
            | Some a => i ← of_fork (fun d => deref d a); mret (id i)
            | None => mret null_hash
            end
        end
    end.
Definition get_block_id_for_num (k : Z) : NM T hash160 :=
  h ← find_block_id_for_num k;
  if bool_decide (h = null_hash) then mthrow assert_exception else mret h.

Definition get_block_ids_on_fork (head_of_fork : hash160) : NM T (list hash160) :=
  head ← reads head_block_id_of;
  branches ← of_fork (fun d => fetch_branch_from d head head_of_fork);
  ids ← of_fork (fun d => foldM (fun acc a => i ← deref d a; Ok (acc ++ [id i])) [] (snd branches));
  match last (fst branches) with
  | Some a => b ← of_fork (fun d => item_block d a); mret (ids ++ [previous b])
  | None => mthrow crash
  end.

(** ** Applying a block *)
Definition with_flags {A} (skip : Z) (m : NM T A) : NM T A :=
  old ← reads (fun n => skip_flags (chain n));
  change (fun n => n <| chain ::= fun s => s <| skip_flags := skip |> |>) ;;
  finally m (change (fun n => n <| chain ::= fun s => s <| skip_flags := old |> |>)).

(** The end of [update_last_irreversible_block]: the history and the forks below the
    irreversible block go, the blocks up to it are logged. *)
Definition log_irreversible (k : Z) : NM T unit :=
  a ← of_fork (fun d => fetch_block_on_main_branch_by_number d k);
  match a with
  | None => mthrow assert_exception
  | Some a => b ← of_fork (fun d => item_block d a); _ ← on_log (store_append b); mret tt
  end.
Definition log_head_num n : Z :=
  match store_head (blog n) with Some b => block_num b | None => 0 end.
Definition log_and_trim (head lib : Z) : NM T unit :=
  skip ← reads (fun n => skip_flags (chain n));
  logged ← reads log_head_num;
  whenM (negb (skips skip skip_block_log))
    (forM (seqZ (logged + 1) (lib - logged)) log_irreversible) ;;
  on_fork (set_max_size (u32 (u32 (head - lib) + 1))).
Definition settle_irreversible : NM T unit :=
  g ← reads (fun n => dgpo (chain n));
  let lib := last_irreversible_block_num g in
  commit lib ;;
  log_and_trim (head_block_number g) lib.

Definition _apply_block b : NM T unit :=
  skip ← reads (fun n => skip_flags (chain n));
  on_chain (open_block b skip ;;
            forM (blk_transactions b) (fun t => apply_transaction t skip) ;;
            advance_block b (block_witness b)) ;;
  settle_irreversible ;;
  on_chain (close_block b).

Definition apply_block b (skip : Z) : NM T unit :=
  cps ← reads checkpoints;
  skip ← on_chain ⌈ checkpoint_flags cps b skip ⌉;
  with_flags skip (_apply_block b) ;;
  producing ← on_chain is_producing;
  whenM ((producing : bool) || negb (skips skip skip_validate_invariants)) (on_chain validate_invariants).

(** ** Pending transactions *)
Definition reset_pending_session : NM T unit := fun n =>
  if pending_tx_session n then (undo_session ;; change (fun n => n <| pending_tx_session := false |>)) n
  else Done tt n.
Definition clear_pending : NM T unit :=
  change (fun n => n <| pending_tx := [] |>) ;;
  reset_pending_session.

Definition apply_pending (t : signed_transaction) : NM T unit :=
  on_chain (_apply_transaction t) ;;
  change (fun n => n <| pending_tx ::= fun l => l ++ [t] |>).
Definition _push_transaction (t : signed_transaction) : NM T unit :=
  pending ← reads pending_tx_session;
  whenM (negb pending) (start_session ;; change (fun n => n <| pending_tx_session := true |>)) ;;
  squashed (apply_pending t).

Definition set_producing (p : bool) : NM T unit :=
  change (fun n => n <| chain ::= fun s => s <| producing := p |> |>).
Definition push_transaction (t : signed_transaction) (skip : Z) : NM T unit :=
  finally
    ((if Z.of_nat (length (pack_transaction t)) <=? SOPHIATX_MAX_TRANSACTION_SIZE
      then mret tt else mthrow assert_exception) ;;
     set_producing true ;;
     with_flags skip (_push_transaction t))
    (set_producing false).

(** [validate_transaction]: nothing of the transaction stays. *)
Definition validate_transaction (t : signed_transaction) : NM T unit :=
  in_session (on_chain (_apply_transaction t)) undo_session.

(** [pending_transactions_restorer]: a transaction that is no longer valid is
    dropped. *)
Definition push_again (t : signed_transaction) : NM T unit :=
  try (known ← is_known_transaction (transaction_id t);
       whenM (negb known) (_push_transaction t))
    (fun _ => mret tt).
Definition restore_pending (pending : list signed_transaction) : NM T unit :=
  popped ← reads popped_tx;
  forM popped push_again ;;
  change (fun n => n <| popped_tx := [] |>) ;;
  forM pending push_again.
Definition without_pending_transactions {A} (m : NM T A) : NM T A :=
  pending ← reads pending_tx;
  clear_pending ;;
  finally m (restore_pending pending).

(** ** Popping a block *)
Definition pop_block : NM T unit :=
  reset_pending_session ;;
  head ← reads head_block_id_of;
  head_block ← fetch_block_by_id head;
  match head_block with
  | None => mthrow pop_empty_chain
  | Some b =>
      on_fork fork_pop_block ;;
      undo_session ;;
      change (fun n => n <| popped_tx ::= fun l => blk_transactions b ++ l |>)
  end.

(** [while( head_block_id() != id ) pop_block();]: every round moves the head of the
    fork database to an older item. *)
Fixpoint pop_until (fuel : nat) (h : hash160) : NM T unit :=
  head ← reads head_block_id_of;
  if bool_decide (head = h) then mret tt
  else match fuel with
       | O => mthrow crash
       | S fuel => pop_block ;; pop_until fuel h
       end.
Definition pop_to (h : hash160) : NM T unit := fun n => pop_until (S (length (items (fork_db n)))) h n.

(** ** Switching forks *)
Definition apply_item (skip : Z) (a : nat) : NM T unit :=
  b ← of_fork (fun d => item_block d a);
  pushed (apply_block b skip).
Definition remove_item (a : nat) : NM T unit :=
  b ← of_fork (fun d => item_block d a);
  on_fork (fork_remove (block_id b)).

(** The failed branch is removed from where it failed, the old one is restored. *)
Definition restore_branch (skip : Z) (bad old : list nat) (ancestor : hash160) : NM T unit :=
  forM bad remove_item ;;
  match head old with
  | None => mthrow crash
  | Some front => on_fork (set_head front)
  end ;;
  pop_to ancestor ;;
  forM (rev old) (apply_item skip).
Fixpoint push_branch (skip : Z) (todo old : list nat) (ancestor : hash160) : NM T unit :=
  match todo with
  | [] => mret tt
  | a :: todo' =>
      r ← try (apply_item skip a ;; mret None) (fun e => mret (Some e));
      match r with
      | Some e => restore_branch skip todo old ancestor ;; mthrow e
      | None => push_branch skip todo' old ancestor
      end
  end.

(** The vectors of both branches hold their items to the end. *)
Definition switch_forks (skip : Z) (new_head : hash160) : NM T unit :=
  head ← reads head_block_id_of;
  branches ← of_fork (fun d => fetch_branch_from d new_head head);
  on_fork (puts (fun d => d <| held := fst branches ++ snd branches |>)) ;;
  finally
    (match last (snd branches) with
     | None => mthrow crash
     | Some a =>
         b ← of_fork (fun d => item_block d a);
         pop_to (previous b) ;;
         push_branch skip (rev (fst branches)) (snd branches) (previous b)
     end)
    (on_fork (puts (fun d => d <| held := [] |>))).

(** ** Pushing a block *)
Definition push_onto_head b (skip : Z) : NM T unit :=
  try (pushed (apply_block b skip))
    (fun e => on_fork (fork_remove (block_id b)) ;; mthrow e).

Definition _push_block b : NM T bool :=
  skip ← reads (fun n => skip_flags (chain n));
  if negb (skips skip skip_fork_db) then
    a ← on_fork (fork_push_block b);
    new_head ← of_fork (fun d => item_block d a);
    head ← reads head_block_id_of;
    if negb (bool_decide (previous new_head = head)) then
      num ← on_chain head_block_num;
      if block_num new_head >? num then switch_forks skip (block_id new_head) ;; mret true
      else mret false
    else push_onto_head b skip ;; mret false
  else push_onto_head b skip ;; mret false.

Definition push_block b (skip : Z) : NM T bool :=
  with_flags skip (without_pending_transactions (_push_block b)).

(** [_checkpoints[ num ] = id], kept by number *)
Fixpoint set_checkpoint (k : Z) (h : hash160) (l : list (Z * hash160)) : list (Z * hash160) :=
  match l with
  | [] => [(k, h)]
  | (k', h') :: l' =>
      if k <? k' then (k, h) :: l
      else if k' <? k then (k', h') :: set_checkpoint k h l'
      else (k', h) :: l'
  end.
Definition add_checkpoints (cps : list (Z * hash160)) : NM T unit := change (fun n =>
  n <| checkpoints ::= fun l => fold_left (fun l c => set_checkpoint (fst c) (snd c) l) cps l |>).
Definition before_last_checkpoint n : bool :=
  match last (checkpoints n) with Some (k, _) => k >=? head_block_number (dgpo (chain n)) | None => false end.
End node.

(** ** Producing a block *)
(** Keys and signatures of a witness; the packed size of an empty signed header. *)
Class signer := Signer {
  private_key : Type;
  get_public_key : private_key -> public_key_type;
  sign_compact : private_key -> digest_type -> bool -> Z;
  pack_size_header : Z }.

Section production.
  Context {cfg : sophiatx_config} {ext : externals} {itp : interpreters} {cr : crypto} {sg : signer}.
  Context {T : Type} {st : block_store T}.
  Implicit Types (n : node T) (s : db) (b : signed_block).

Definition pack_size_transaction (t : signed_transaction) : Z := Z.of_nat (length (pack_transaction t)).

(** The pending transactions that still apply at the time of the block and fit
    into it; the size of the block and the transactions chosen. *)
Definition try_pending (maximum when : Z) (acc : Z * list signed_transaction) (t : signed_transaction)
    : NM T (Z * list signed_transaction) :=
  let '(total, chosen) := acc in
  if expiration t <? when then mret acc
  else if u64 (total + pack_size_transaction t) >=? maximum then mret acc
  else
    try (squashed (on_chain (_apply_transaction t)) ;;
         mret (u64 (total + pack_size_transaction t), chosen ++ [t]))
      (fun _ => mret acc).
Definition choose_transactions (when : Z) : NM T (list signed_transaction) :=
  g ← reads (fun n => dgpo (chain n));
  reset_pending_session ;;
  start_session ;;
  change (fun n => n <| pending_tx_session := true |>) ;;
  pending ← reads pending_tx;
  r ← foldM (try_pending (gpo_maximum_block_size g) when) (pack_size_header + 4, []) pending;
  reset_pending_session ;;
  mret (snd r).

(** What a witness says about its version and the hardforks it knows. *)
Definition vote_for (s : db) (i : Z) : res (Z * Z) :=
  v ← array_at hardfork_versions i;
  t ← array_at (hardfork_times s) i;
  Ok (v, t).
Definition own_vote (w : witness_object) (v : Z * Z) : bool :=
  (hardfork_version_vote_ w =? fst v) && (hardfork_time_vote w =? snd v).
Definition header_extensions (s : db) (w : witness_object) : res (list header_extension) :=
  let h := hpo s in
  let version := if negb (running_version w =? SOPHIATX_BLOCKCHAIN_VERSION)
                 then [ext_version SOPHIATX_BLOCKCHAIN_VERSION] else [] in
  let confirm (last_chance : res (list header_extension)) :=
    if hf_eqb_version (current_hardfork_version h) SOPHIATX_BLOCKCHAIN_VERSION
       && (hardfork_version_vote_ w >? hardfork_of_version SOPHIATX_BLOCKCHAIN_VERSION)
    then v ← vote_for s (last_hardfork h);
         Ok (version ++ [ext_hardfork_vote (HfVote (fst v) (snd v))])
    else last_chance in
  if hf_ltb_version (current_hardfork_version h) SOPHIATX_BLOCKCHAIN_VERSION then
    v ← vote_for s (u32 (last_hardfork h + 1));
    if negb (own_vote w v) then Ok (version ++ [ext_hardfork_vote (HfVote (fst v) (snd v))])
    else confirm (Ok version)
  else confirm (Ok version).

Definition sign_block (key : private_key) (canon : bool) b : signed_block :=
  b <| witness_signature := sign_compact key (sha256_header b) canon |>.

(** The slot is that of the witness and the key is the one it signs with. *)
Definition check_production (when : Z) (witness_owner : account_name_type) (key : private_key) (skip : Z) : DB unit :=
  slot_num ← get_slot_at_time when;
  fc_assert (slot_num >? 0) ;;
  scheduled ← get_scheduled_witness slot_num;
  scheduled ← ⌈ string_of_name scheduled ⌉;
  fc_assert (name_eqb (fixed_string scheduled) witness_owner) ;;
  w ← get_witness witness_owner;
  whenM (negb (skips skip skip_witness_signature)) (fc_assert (signing_key w =? get_public_key key)).
Definition _generate_block (when : Z) (witness_owner : account_name_type) (key : private_key)
    : NM T signed_block :=
  skip ← reads (fun n => skip_flags (chain n));
  _ ← on_chain (check_production when witness_owner key skip);
  txs ← choose_transactions when;
  head ← reads head_block_id_of;
  name ← on_chain ⌈ string_of_name witness_owner ⌉;
  w ← on_chain (get_witness witness_owner);
  s ← reads chain;
  exts ← on_chain ⌈ header_extensions s w ⌉;
  hf ← on_chain (has_hardfork SOPHIATX_HARDFORK_1_1);
  let b := {| previous := head; timestamp := when; blk_witness := name;
              transaction_merkle_root := null_hash; extensions := exts; witness_signature := 0;
              blk_transactions := txs |} in
  let b := b <| transaction_merkle_root := calculate_merkle_root b |> in
  let b := if negb (skips skip skip_witness_signature) then sign_block key hf b else b in
  (if skips skip skip_block_size_check || (pack_size_block b <=? SOPHIATX_MAX_BLOCK_SIZE)
   then mret tt else mthrow assert_exception) ;;
  _ ← push_block b skip;
  mret b.
Definition generate_block (when : Z) (witness_owner : account_name_type) (key : private_key) (skip : Z)
    : NM T signed_block :=
  with_flags skip (_generate_block when witness_owner key).

(** ** Opening, replaying and closing *)
(** Whether the shared memory file holds a chain already is an argument. *)
Definition open (fresh : bool) (genesis : genesis_state_type) (chain_id : Z) (do_validate : bool) : NM T unit :=
  whenM fresh (on_chain (init_genesis genesis chain_id)) ;;
  on_log store_open ;;
  undo_all ;;
  n ← reads (fun n => n);
  (if revision n =? head_block_number (dgpo (chain n)) then mret tt else mthrow assert_exception) ;;
  whenM do_validate (on_chain validate_invariants) ;;
  num ← on_chain head_block_num;
  whenM (negb (num =? 0))
    (b ← on_log (store_read num);
     head ← reads head_block_id_of;
     match b with
     | Some b => if bool_decide (block_id b = head) then on_fork (start_block b) else mthrow assert_exception
     | None => mthrow assert_exception
     end) ;;
  on_chain init_hardforks.

Definition reindex_skip : Z :=
  fold_left Z.lor [skip_witness_signature; skip_transaction_signatures; skip_transaction_dupe_check;
    skip_tapos_check; skip_merkle_check; skip_witness_schedule_check; skip_authority_check;
    skip_validate; skip_validate_invariants; skip_block_log] 0.

(** [while( itr.first.block_num() != last_block_num )]; a log holds blocks 1, 2, ...,
    so that as many rounds are enough. *)
Fixpoint replay (fuel : nat) (itr : signed_block * Z) (last_block_num : Z) : NM T unit :=
  if negb (block_num (fst itr) =? last_block_num) then
    match fuel with
    | O => mthrow crash
    | S fuel =>
        apply_block (fst itr) reindex_skip ;;
        itr ← on_log (store_read_at (snd itr));
        replay fuel itr last_block_num
    end
  else apply_block (fst itr) reindex_skip.
(** After [wipe] and [open]; [stop_replay_at] is 0 for the whole log. *)
Definition reindex (stop_replay_at : Z) : NM T Z :=
  on_fork fork_reset ;;
  log_head ← reads (fun n => store_head (blog n));
  match log_head with
  | None => mthrow block_log_exception
  | Some log_head =>
      itr ← on_log (store_read_at 0);
      let last := block_num log_head in
      let last_block_num := if (stop_replay_at >? 0) && (stop_replay_at <? last) then stop_replay_at else last in
      replay (Z.to_nat last_block_num) itr last_block_num ;;
      num ← on_chain head_block_num;
      set_revision num ;;
      log_head ← reads (fun n => store_head (blog n));
      match log_head with
      | None => mthrow crash
      | Some b => whenM (negb (block_num b =? 0)) (on_fork (start_block b)) ;; mret last_block_num
      end
  end.

(** The tables are written to disk, which is left out. *)
Definition close : NM T unit :=
  clear_pending ;;
  on_log store_close ;;
  on_fork fork_reset.
End production.
