(* ===== verification/NodeFacts.v ===== *)
(** * NodeFacts: lemmas about the steps of a node. *)
From S2P Require Import Prelude Safe Names Asset Version Config Authority Raw Operations Validate.
From S2P Require Import Objects State Frame Economics Votes Money Balance EvalWitness EvalAccount.
From S2P Require Import EvalTransfer EvalEscrow EvalVote EvalContent Evaluators Block SignState.
From S2P Require Import Transactions WitnessSchedule Periodic Hardforks Blocks Supply Genesis ForkDb.
From S2P Require Import BlockLog Node.
Local Open Scope Z_scope.
Local Open Scope list_scope.

(** ** Outcomes *)
Section outcomes.
  Context {T : Type}.
  Implicit Types (n : node T).

Lemma nbind_Done {A B} (m : NM T A) (f : A -> NM T B) n r n' :
  mbind f m n = Done r n' <-> exists a n1, m n = Done a n1 /\ f a n1 = Done r n'.
Proof. unfold mbind, NM_bind. destruct (m n); naive_solver. Qed.
Lemma nbind_Raised {A B} (m : NM T A) (f : A -> NM T B) n e n' :
  mbind f m n = Raised e n' <-> m n = Raised e n' \/ exists a n1, m n = Done a n1 /\ f a n1 = Raised e n'.
Proof. unfold mbind, NM_bind. destruct (m n); naive_solver. Qed.
Lemma nret_Done {A} (a : A) n r n' : (mret a : NM T A) n = Done r n' <-> r = a /\ n' = n.
Proof. unfold mret, NM_ret. naive_solver. Qed.
Lemma reads_Done {A} (f : node T -> A) n r n' : reads f n = Done r n' <-> r = f n /\ n' = n.
Proof. unfold reads. naive_solver. Qed.
Lemma change_Done (f : node T -> node T) n r n' : change f n = Done r n' <-> r = tt /\ n' = f n.
Proof. unfold change. destruct r. naive_solver. Qed.
Lemma on_part_Done {S A} (proj : node T -> S) `{!Settable proj} (m : ST S A) n a n' :
  on_part proj m n = Done a n' <-> exists s, m (proj n) = Ok (a, s) /\ n' = n <| proj := s |>.
Proof. unfold on_part. destruct (m (proj n)) as [[]|]; naive_solver. Qed.
Lemma on_part_Raised {S A} (proj : node T -> S) `{!Settable proj} (m : ST S A) n e n' :
  on_part proj m n = Raised e n' <-> m (proj n) = Throw e /\ n' = n.
Proof. unfold on_part. destruct (m (proj n)) as [[]|]; naive_solver. Qed.

(** [keepsN f m]: [m] leaves the part [f] of the node as it is, also when it raises. *)
Definition keepsN {X A} (f : node T -> X) (m : NM T A) : Prop := forall n,
  match m n with Done _ n' | Raised _ n' => f n' = f n | Broken _ => True end.
Context {X : Type} (f : node T -> X).
Lemma keepsN_Done {A} (m : NM T A) n a n' : keepsN f m -> m n = Done a n' -> f n' = f n.
Proof. intros Hm E. specialize (Hm n). by rewrite E in Hm. Qed.
Lemma keepsN_Raised {A} (m : NM T A) n e n' : keepsN f m -> m n = Raised e n' -> f n' = f n.
Proof. intros Hm E. specialize (Hm n). by rewrite E in Hm. Qed.
Lemma keepsN_ret {A} (a : A) : keepsN f (mret a).
Proof. by intros n. Qed.
Lemma keepsN_throw {A} (e : exn) : keepsN f (mthrow e : NM T A).
Proof. by intros n. Qed.
Lemma keepsN_bind {A B} (m : NM T A) (k : A -> NM T B) : keepsN f m -> (forall a, keepsN f (k a)) -> keepsN f (mbind k m).
Proof.
  intros Hm Hk n. specialize (Hm n). unfold mbind, NM_bind. destruct (m n) as [a n1|e n1|e]; [|done..].
  specialize (Hk a n1). destruct (k a n1); congruence || done.
Qed.
Lemma keepsN_reads {A} (g : node T -> A) : keepsN f (reads g).
Proof. by intros n. Qed.
Lemma keepsN_change g : (forall n, f (g n) = f n) -> keepsN f (change g).
Proof. intros Hg n. apply Hg. Qed.
Lemma keepsN_whenM b (m : NM T unit) : keepsN f m -> keepsN f (whenM b m).
Proof. intros Hm. by destruct b. Qed.
Lemma keepsN_forM {A} (l : list A) (k : A -> NM T unit) : (forall a, keepsN f (k a)) -> keepsN f (forM l k).
Proof. intros Hk. induction l as [|a l IH]; [apply keepsN_ret|]. cbn [forM]. by apply keepsN_bind. Qed.
Lemma keepsN_part {S A} (proj : node T -> S) `{!Settable proj} (m : ST S A) :
  (forall g n, f (upd proj g n) = f n) -> keepsN f (on_part proj m).
Proof. intros Hp n. unfold on_part. destruct (m (proj n)) as [[a s]|]; [apply Hp|done]. Qed.
Lemma keepsN_try {A} (m : NM T A) h : keepsN f m -> (forall e, keepsN f (h e)) -> keepsN f (try m h).
Proof.
  intros Hm Hh n. specialize (Hm n). unfold try. destruct (m n) as [a n1|e n1|e]; [done| |done].
  case_bool_decide; [done|]. specialize (Hh e n1). destruct (h e n1); congruence || done.
Qed.
Lemma keepsN_finally {A} (m : NM T A) c : keepsN f m -> keepsN f c -> keepsN f (finally m c).
Proof.
  intros Hm Hc n. specialize (Hm n). unfold finally, mbind, NM_bind, mret, NM_ret, mthrow, NM_throw.
  destruct (m n) as [a n1|e n1|e]; [| |done]; specialize (Hc n1); destruct (c n1); congruence || done.
Qed.
End outcomes.

Create HintDb keepsN.
Ltac keepsN_step :=
  match goal with
  | |- keepsN _ (mbind _ _) => apply keepsN_bind; [|intros ?]
  | |- keepsN _ (mret _) => apply keepsN_ret
  | |- keepsN _ (mthrow _) => apply keepsN_throw
  | |- keepsN _ (reads _) => apply keepsN_reads
  | |- keepsN _ (change _) => apply keepsN_change; intros ?; reflexivity
  | |- keepsN _ (whenM _ _) => apply keepsN_whenM
  | |- keepsN _ (forM _ _) => apply keepsN_forM; intros ?
  | |- keepsN _ (on_part _ _) => apply keepsN_part; intros ? ?; reflexivity
  | |- keepsN _ (try _ _) => apply keepsN_try; [|intros ?]
  | |- keepsN _ (finally _ _) => apply keepsN_finally
  | |- keepsN _ (match ?x with _ => _ end) => destruct x
  | |- keepsN _ _ => solve [eauto 2 with keepsN nocore]
  end.
Ltac keepsN := repeat keepsN_step.

Section facts.
  Context {cfg : sophiatx_config} {ext : externals} {itp : interpreters} {cr : crypto}.
  Context {T : Type} {st : block_store T}.
  Implicit Types (n : node T) (s : db) (b : signed_block).

(** Everything but the fork database and the block log *)
Definition core n := (chain n, undo_stack n, revision n, pending_tx n, pending_tx_session n, popped_tx n, checkpoints n).
(** What a block does not touch *)
Definition waiting n := (revision n, pending_tx n, pending_tx_session n, popped_tx n, checkpoints n).

(** ** Applying a block *)
Lemma drop_committed_suffix k l : exists l', l = l' ++ drop_committed k l.
Proof.
  induction l as [|[r s] l [l' E]]; cbn [drop_committed]; [by exists []|]. destruct (r <=? k); [|by exists []].
  exists ((r, s) :: l'). cbn [app]. by rewrite <- E.
Qed.
Lemma commit_Done k n u n' : commit k n = Done u n' ->
  chain n' = chain n /\ waiting n' = waiting n /\ fork_db n' = fork_db n /\ blog n' = blog n /\
  exists l, undo_stack n = undo_stack n' ++ l.
Proof.
  intros [-> ->]%change_Done. repeat split; try done. simpl.
  destruct (drop_committed_suffix k (rev (undo_stack n))) as [l E]. exists (rev l).
  rewrite <- rev_app_distr, <- E. by rewrite rev_involutive.
Qed.

Lemma keepsN_log_irreversible k : keepsN core (log_irreversible k).
Proof. unfold log_irreversible, of_fork. keepsN. Qed.
Hint Resolve keepsN_log_irreversible : keepsN.

Lemma keepsN_log_and_trim h l : keepsN core (log_and_trim h l).
Proof. unfold log_and_trim. keepsN. Qed.

Lemma settle_outcome n : match settle_irreversible n with
  | Done _ n' | Raised _ n' => chain n' = chain n /\ waiting n' = waiting n /\ exists l, undo_stack n = undo_stack n' ++ l
  | Broken _ => True end.
Proof.
  destruct (commit (last_irreversible_block_num (dgpo (chain n))) n) as [u n1|e n1|e] eqn:E; [|by unfold commit, change in E..].
  pose proof (commit_Done _ _ _ _ E) as (E1 & E2 & _ & _ & l & E3).
  pose proof (keepsN_log_and_trim (head_block_number (dgpo (chain n))) (last_irreversible_block_num (dgpo (chain n))) n1) as K.
  assert (Q : settle_irreversible n = log_and_trim (head_block_number (dgpo (chain n)))
    (last_irreversible_block_num (dgpo (chain n))) n1).
  { unfold settle_irreversible, mbind, NM_bind, reads. by rewrite E. }
  rewrite Q. destruct (log_and_trim _ _ n1) as [u' n'|e n'|e]; [| |done];
    unfold core in K; injection K as K1 K2 K3 K4 K5 K6 K7; unfold waiting in *; rewrite K1, K2, K3, K4, K5, K6, K7;
    eauto.
Qed.

(** *** Steps on the chain alone *)
Definition aside n := (undo_stack n, waiting n, fork_db n, blog n).
Lemma aside_eq n n' : aside n' = aside n ->
  undo_stack n' = undo_stack n /\ waiting n' = waiting n /\ fork_db n' = fork_db n /\ blog n' = blog n.
Proof. unfold aside, waiting. intros H. injection H as -> -> -> -> -> -> -> ->. done. Qed.
Lemma on_chain_Done {A} (m : DB A) (n : node T) a n' : on_chain m n = Done a n' ->
  m (chain n) = Ok (a, chain n') /\ aside n' = aside n.
Proof. intros (s & H & ->)%on_part_Done. split; [exact H|reflexivity]. Qed.
Lemma on_chain_Raised {A} (m : DB A) (n : node T) e n' : on_chain m n = Raised e n' -> m (chain n) = Throw e /\ n' = n.
Proof. by intros []%on_part_Raised. Qed.
Lemma with_flags_outcome {A} k (m : NM T A) n : exists n1, chain n1 = (chain n) <| skip_flags := k |> /\ aside n1 = aside n /\
  match m n1 with
  | Done a n2 => exists n', with_flags k m n = Done a n' /\ chain n' = (chain n2) <| skip_flags := skip_flags (chain n) |> /\ aside n' = aside n2
  | Raised e n2 => exists n', with_flags k m n = Raised e n' /\ chain n' = (chain n2) <| skip_flags := skip_flags (chain n) |> /\ aside n' = aside n2
  | Broken e => with_flags k m n = Broken e
  end.
Proof.
  exists (n <| chain ::= fun s => s <| skip_flags := k |> |>). split; [done|]. split; [done|].
  unfold with_flags, mbind, NM_bind, reads, change, finally. destruct (m _); [by eexists..|done].
Qed.

(** *** What a block does to the chain and the history *)
Lemma _apply_block_Done b n u n' : _apply_block b n = Done u n' ->
  Blocks._apply_block b (chain n) = Ok (tt, chain n') /\ waiting n' = waiting n /\
  exists l, undo_stack n = undo_stack n' ++ l.
Proof.
  intros H. unfold _apply_block in H. apply nbind_Done in H as (sk & n1 & H1 & H). apply reads_Done in H1 as [-> ->].
  apply nbind_Done in H as ([] & n1 & H1 & H). apply on_chain_Done in H1 as [H1 A1].
  apply nbind_Done in H as ([] & n2 & H2 & H). pose proof (settle_outcome n1) as S. rewrite H2 in S.
  destruct S as (S1 & S2 & l & S3). apply on_chain_Done in H as [H A2]. rewrite S1 in H. destruct u.
  apply aside_eq in A1 as (A1 & W1 & _). apply aside_eq in A2 as (A2 & W2 & _).
  split; [|split; [congruence|exists l; by rewrite <- A1, S3, A2]].
  apply bind_Ok in H1 as ([] & t1 & G1 & H1). apply bind_Ok in H1 as ([] & t2 & G2 & H1).
  unfold Blocks._apply_block. apply bind_Ok. exists (skip_flags (chain n)), (chain n). split; [done|].
  apply bind_Ok. exists tt, t1. split; [done|]. apply bind_Ok. exists tt, t2. split; [done|].
  apply bind_Ok. exists tt, (chain n1). by split.
Qed.
Lemma _apply_block_Raised b n e n' : _apply_block b n = Raised e n' -> waiting n' = waiting n /\
  exists l, undo_stack n = undo_stack n' ++ l.
Proof.
  intros H. unfold _apply_block in H. apply nbind_Raised in H as [H|(sk & n1 & H1 & H)]; [done|]. apply reads_Done in H1 as [-> ->].
  apply nbind_Raised in H as [H|([] & n1 & H1 & H)]; [apply on_chain_Raised in H as [_ ->]; split; [done|]; exists []; by rewrite app_nil_r|].
  apply on_chain_Done in H1 as [_ A1]. apply aside_eq in A1 as (A1 & W1 & _).
  pose proof (settle_outcome n1) as S. apply nbind_Raised in H as [H|([] & n2 & H2 & H)].
  - rewrite H in S. destruct S as (S1 & S2 & l & S3). split; [congruence|].
    exists l. congruence.
  - rewrite H2 in S. destruct S as (S1 & S2 & l & S3). apply on_chain_Raised in H as [_ ->].
    split; [congruence|]. exists l. congruence.
Qed.

Lemma apply_block_Done b skip n u n' : apply_block b skip n = Done u n' ->
  Blocks.apply_block (checkpoints n) b skip (chain n) = Ok (tt, chain n') /\ waiting n' = waiting n /\
  exists l, undo_stack n = undo_stack n' ++ l.
Proof.
  intros H. unfold apply_block in H. apply nbind_Done in H as (cps & n1 & H1 & H). apply reads_Done in H1 as [-> ->].
  apply nbind_Done in H as (k & n1 & H1 & H). apply on_chain_Done in H1 as [H1 A1]. apply lift_Ok in H1 as [Hk E1].
  apply nbind_Done in H as ([] & n2 & H2 & H). destruct (with_flags_outcome k (_apply_block b) n1) as (m1 & M1 & M2 & M).
  destruct (_apply_block b m1) as [[] m2|? m2|] eqn:Em; [|destruct M as (? & M & _); by rewrite M in H2|by rewrite M in H2].
  destruct M as (n2' & M & M3 & M4). rewrite M in H2. injection H2 as <-.
  apply _apply_block_Done in Em as (B1 & B2 & l & B3). rewrite M1, E1 in B1.
  apply nbind_Done in H as (pr & n3 & H3 & H). apply on_chain_Done in H3 as [H3 A3]. apply gets_Ok in H3 as [-> E3].
  assert (V : whenM (producing (chain n2') || negb (skips k skip_validate_invariants)) validate_invariants (chain n2')
    = Ok (tt, chain n') /\ aside n' = aside n2').
  { destruct u. unfold whenM in *. destruct (_ || _).
    - apply on_chain_Done in H as [H A4]. rewrite E3 in H. split; [done|congruence].
    - apply nret_Done in H as [_ ->]. unfold mret, ST_ret. rewrite E3. done. }
  destruct V as [V A5]. clear H A3 E3 n3. apply aside_eq in A5 as (A5 & W5 & _). apply aside_eq in M4 as (M4 & W4 & _). apply aside_eq in M2 as (M2 & W2 & _).
  apply aside_eq in A1 as (A1 & W1 & _). split; [|split; [congruence|exists l; congruence]].
  unfold Blocks.apply_block. apply bind_Ok. exists k, (chain n). split; [by apply lift_Ok|].
  apply bind_Ok. exists tt, (chain n2'). split.
  - unfold with_skip_flags. apply bind_Ok. exists (skip_flags (chain n)), (chain n). split; [done|].
    apply bind_Ok. exists tt, ((chain n) <| skip_flags := k |>). split; [done|]. apply bind_Ok. exists tt, (chain m2).
    split; [done|]. apply bind_Ok. exists tt, (chain n2'). split; [|done]. by rewrite M3, E1.
  - apply bind_Ok. exists (producing (chain n2')), (chain n2'). split; [done|]. exact V.
Qed.
Lemma apply_block_Raised b skip n e n' : apply_block b skip n = Raised e n' -> waiting n' = waiting n /\
  exists l, undo_stack n = undo_stack n' ++ l.
Proof.
  assert (Q : forall m : node T, waiting m = waiting m /\ exists l, undo_stack m = undo_stack m ++ l).
  { intros m. split; [done|]. exists []. by rewrite app_nil_r. }
  intros H. unfold apply_block in H. apply nbind_Raised in H as [H|(cps & n1 & H1 & H)]; [done|]. apply reads_Done in H1 as [-> ->].
  apply nbind_Raised in H as [H|(k & n1 & H1 & H)]; [by apply on_chain_Raised in H as [_ ->]|].
  apply on_chain_Done in H1 as [_ A1]. apply aside_eq in A1 as (A1 & W1 & _).
  destruct (with_flags_outcome k (_apply_block b) n1) as (m1 & M1 & M2 & M). apply aside_eq in M2 as (M2 & W2 & _).
  apply nbind_Raised in H as [H|([] & n2 & H2 & H)].
  - destruct (_apply_block b m1) as [? m2|? m2|] eqn:Em; [destruct M as (? & M & _); by rewrite M in H| |by rewrite M in H].
    destruct M as (n2' & M & M3 & M4). rewrite M in H. injection H as -> <-. apply aside_eq in M4 as (M4 & W4 & _).
    apply _apply_block_Raised in Em as (B2 & l & B3). split; [congruence|exists l; congruence].
  - destruct (_apply_block b m1) as [[] m2|? m2|] eqn:Em; [|destruct M as (? & M & _); by rewrite M in H2|by rewrite M in H2].
    destruct M as (n2' & M & M3 & M4). rewrite M in H2. injection H2 as <-. apply aside_eq in M4 as (M4 & W4 & _).
    apply _apply_block_Done in Em as (_ & B2 & l & B3).
    assert (V : aside n' = aside n2').
    { apply nbind_Raised in H as [H|(pr & n3 & H3 & H)]; [by apply on_chain_Raised in H as [_ ->]|].
      apply on_chain_Done in H3 as [_ A3]. unfold whenM in H. destruct (_ || _); [|done].
      by apply on_chain_Raised in H as [_ ->]. }
    apply aside_eq in V as (V & Wv & _). split; [congruence|exists l; congruence].
Qed.

(** ** The tables of a state: all but the members of the node *)
Definition tables s : db :=
  s <| skip_flags := 0 |> <| producing := false |> <| current_block_num := 0 |> <| virtual_ops := [] |>.
Lemma tables_restore old s : tables (restore old s) = tables old.
Proof. done. Qed.
Lemma head_tables s s' : tables s = tables s' -> head_view s = head_view s'.
Proof. intros E. change (head_view (tables s) = head_view (tables s')). by rewrite E. Qed.

(** [m] leaves the waiting transactions alone and drops at most old sessions. *)
Definition drops_sessions {A} (m : NM T A) : Prop := forall n,
  match m n with
  | Done _ n' | Raised _ n' => waiting n' = waiting n /\ exists l, undo_stack n = undo_stack n' ++ l
  | Broken _ => True
  end.
Lemma apply_block_drops b skip : drops_sessions (apply_block b skip).
Proof.
  intros n. destruct (apply_block b skip n) as [u n'|e n'|] eqn:E; [|by eapply apply_block_Raised|done].
  by apply apply_block_Done in E as (_ & ? & ?).
Qed.

(** *** A session of one step *)
Lemma start_session_Done n : exists n0, start_session n = Done tt n0 /\ chain n0 = chain n /\
  undo_stack n0 = (revision n + 1, chain n) :: undo_stack n /\ revision n0 = revision n + 1 /\
  (pending_tx n0, pending_tx_session n0, popped_tx n0, checkpoints n0) =
  (pending_tx n, pending_tx_session n, popped_tx n, checkpoints n) /\
  fork_db n0 = fork_db n /\ blog n0 = blog n.
Proof. eexists. split; [reflexivity|]. repeat split. Qed.
Lemma undo_session_Done n r old rest : undo_stack n = (r, old) :: rest -> exists n0, undo_session n = Done tt n0 /\
  chain n0 = restore old (chain n) /\ undo_stack n0 = rest /\ revision n0 = revision n - 1 /\
  (pending_tx n0, pending_tx_session n0, popped_tx n0, checkpoints n0) =
  (pending_tx n, pending_tx_session n, popped_tx n, checkpoints n) /\
  fork_db n0 = fork_db n /\ blog n0 = blog n.
Proof. intros E. unfold undo_session, change. rewrite E. eexists. split; [reflexivity|]. repeat split. Qed.

Lemma pushed_Done (m : NM T unit) n u n' : pushed m n = Done u n' -> exists n0, m n0 = Done tt n' /\
  chain n0 = chain n /\ undo_stack n0 = (revision n + 1, chain n) :: undo_stack n /\ revision n0 = revision n + 1 /\
  (pending_tx n0, pending_tx_session n0, popped_tx n0, checkpoints n0) =
  (pending_tx n, pending_tx_session n, popped_tx n, checkpoints n) /\
  fork_db n0 = fork_db n /\ blog n0 = blog n.
Proof.
  intros H. unfold pushed, in_session in H. destruct (start_session_Done n) as (n0 & E & F).
  unfold mbind, NM_bind in H. rewrite E in H. exists n0. split; [|exact F].
  destruct (m n0) as [[] n1|e n1|e]; [|by destruct (on_top _ n1)|done]. injection H as <- <-. done.
Qed.
Lemma pushed_Raised (m : NM T unit) n e n' : drops_sessions m -> pushed m n = Raised e n' ->
  tables (chain n') = tables (chain n) /\ waiting n' = waiting n /\ exists l, undo_stack n = undo_stack n' ++ l.
Proof.
  intros Hm H. unfold pushed, in_session in H. destruct (start_session_Done n) as (n0 & E & E1 & E2 & E3 & E4 & _).
  unfold mbind, NM_bind in H. rewrite E in H. specialize (Hm n0).
  destruct (m n0) as [[] n1|e1 n1|e1]; [done| |done]. destruct Hm as (W & l & L).
  unfold on_top in H. destruct (undo_stack n1) as [|[r old] rest] eqn:En; [done|]. rewrite E2 in L. injection L as <- <- L.
  rewrite Z.eqb_refl in H. destruct (undo_session_Done n1 _ _ _ En) as (n2 & U & U1 & U2 & U3 & U4 & _).
  rewrite U in H. injection H as <- <-. rewrite U1, tables_restore. split; [done|].
  unfold waiting in *. split; [|exists l; by rewrite U2].
  injection W as W1 W2 W3 W4 W5. injection E4 as F1 F2 F3 F4. injection U4 as G1 G2 G3 G4.
  assert (revision n2 = revision n) by lia. congruence.
Qed.

(** ** Replaying blocks *)
Inductive replayed (cps : list (Z * hash160)) : db -> list signed_block -> db -> Prop :=
  | replayed_nil s s' : tables s = tables s' -> replayed cps s [] s'
  | replayed_cons s s0 b k s1 bs s' : tables s = tables s0 ->
      Blocks.apply_block cps b k s0 = Ok (tt, s1) -> replayed cps s1 bs s' -> replayed cps s (b :: bs) s'.

Lemma replayed_app cps s bs s1 cs s2 : replayed cps s bs s1 -> replayed cps s1 cs s2 -> replayed cps s (bs ++ cs) s2.
Proof.
  induction 1 as [s s' E|s s0 b k t bs s' E H R IH]; intros H2.
  - destruct H2 as [t t' E2|t t0 b k t1 cs t' E2 H2 R2]; [apply replayed_nil; congruence|].
    apply (replayed_cons _ _ t0 b k t1); [congruence|done|done].
  - apply (replayed_cons _ _ s0 b k t); auto.
Qed.
Lemma replayed_head cps s bs s' : replayed cps s bs s' ->
  head_block_id (dgpo s') = default (head_block_id (dgpo s)) (block_id <$> last bs) /\
  (forall b, head bs = Some b -> previous b = head_block_id (dgpo s)).
Proof.
  induction 1 as [s s' E|s s0 b k s1 bs s' E H R [IH _]].
  - split; [|done]. apply head_tables in E. unfold head_view in E. simpl. congruence.
  - apply head_apply_block in H as [H Hp]. apply head_tables in E. unfold head_view in H, E. split.
    + rewrite IH. destruct bs as [|c bs]; [simpl; congruence|]. change (last (b :: c :: bs)) with (last (c :: bs)).
      destruct (last (c :: bs)) eqn:El; [done|]. by apply last_None in El.
    + intros c [= <-]. congruence.
Qed.

(** *** What stays of the fork database *)
Definition fork_items n := items (fork_db n).
Lemma keepsN_fork {A} (m : FDB A) : (forall d a d', m d = Ok (a, d') -> items d' = items d) ->
  keepsN fork_items (on_fork m).
Proof.
  intros Hm n. unfold on_part. destruct (m (fork_db n)) as [[a d]|] eqn:E; [|done]. by apply Hm in E.
Qed.
Lemma of_fork_Done {A} (f : fork_database -> res A) n a n' : of_fork f n = Done a n' ->
  f (fork_db n) = Ok a /\ n' = n.
Proof.
  intros (d & H & ->)%on_part_Done. apply bind_Ok in H as (x & d1 & H1 & H). apply gets_Ok in H1 as [-> ->].
  apply lift_Ok in H as [H ->]. split; [done|]. by destruct n.
Qed.
Lemma of_fork_Raised {A} (f : fork_database -> res A) n e n' : of_fork f n = Raised e n' -> n' = n.
Proof. by intros [_ ->]%on_part_Raised. Qed.
Lemma keepsN_of_fork {A X} (g : node T -> X) (f : fork_database -> res A) : keepsN g (of_fork f).
Proof.
  intros n. destruct (of_fork f n) eqn:E; [by apply of_fork_Done in E as [_ ->]|by apply of_fork_Raised in E as ->|done].
Qed.
Lemma items_fork_pop d u d' : fork_pop_block d = Ok (u, d') -> items d' = items d.
Proof. by intros (a & p & _ & _ & ->)%fork_pop_block_Ok. Qed.
Lemma items_set_max_size k d u d' : set_max_size k d = Ok (u, d') -> items d' = items d.
Proof.
  unfold set_max_size. cbv zeta. destruct (_head _); [|by intros [= _ <-]].
  intros H. by apply rbind_Ok in H as (? & _ & [= _ <-]).
Qed.
Lemma items_puts g : (forall d, items (g d) = items d) -> forall d u d', (puts g : FDB unit) d = Ok (u, d') -> items d' = items d.
Proof. intros Hg d u d' [= _ <-]. apply Hg. Qed.
End facts.
#[export] Hint Resolve keepsN_of_fork : keepsN.
#[export] Hint Extern 1 (keepsN fork_items (on_part fork_db fork_pop_block)) =>
  (apply keepsN_fork, items_fork_pop) : keepsN.
#[export] Hint Extern 1 (keepsN fork_items (on_part fork_db (set_max_size _))) =>
  (apply keepsN_fork, items_set_max_size) : keepsN.
#[export] Hint Extern 1 (keepsN fork_items (on_part fork_db _)) =>
  (apply keepsN_fork, items_puts; intros ?; reflexivity) : keepsN.

Section branches.
  Context {cfg : sophiatx_config} {ext : externals} {itp : interpreters} {cr : crypto}.
  Context {T : Type} {st : block_store T}.
  Implicit Types (n : node T) (s : db) (b : signed_block).

Lemma keepsN_in_session {X} (f : node T -> X) (m c : NM T unit) : keepsN f start_session -> keepsN f undo_session ->
  keepsN f m -> keepsN f c -> keepsN f (in_session m c).
Proof.
  intros Hs Hu Hm Hc n. unfold in_session. pose proof (keepsN_bind f start_session (fun _ => m) Hs (fun _ => Hm) n) as K.
  destruct ((start_session ;; m) n) as [u n1|e n1|e]; [|destruct (on_top (revision n + 1) n1); [|done]|done].
  - specialize (Hc n1). destruct (c n1); congruence || done.
  - pose proof (keepsN_bind f undo_session (fun _ => mthrow e : NM T unit) Hu (fun _ => keepsN_throw f e) n1) as K2.
    destruct ((undo_session ;; mthrow e : NM T unit) n1); congruence || done.
Qed.
Lemma keepsN_undo {X} (f : node T -> X) : (forall n s l r, f (n <| chain := s |> <| undo_stack := l |> <| revision := r |>) = f n) ->
  keepsN f undo_session.
Proof.
  intros Hf. apply keepsN_change. intros n. destruct (undo_stack n) as [|[r old] rest]; [done|].
  exact (Hf n (restore old (chain n)) rest (revision n - 1)).
Qed.

(** What switching forks does not change: the items, the pending transactions and
    the checkpoints. *)
Definition still n := (pending_tx n, pending_tx_session n, checkpoints n).
Lemma items_apply_block b skip : keepsN fork_items (apply_block b skip).
Proof.
  unfold apply_block, with_flags, _apply_block, settle_irreversible, log_and_trim, log_irreversible, commit.
  keepsN.
Qed.
Lemma still_apply_block b skip : keepsN still (apply_block b skip).
Proof.
  unfold apply_block, with_flags, _apply_block, settle_irreversible, log_and_trim, log_irreversible, commit.
  keepsN.
Qed.
Lemma keepsN_apply_item {X} (f : node T -> X) skip a : (forall b, keepsN f (apply_block b skip)) ->
  keepsN f start_session -> keepsN f undo_session -> keepsN f (apply_item skip a).
Proof.
  intros Hb Hs Hu. unfold apply_item, pushed. keepsN. by apply keepsN_in_session; [..|apply keepsN_ret].
Qed.
Lemma keepsN_start {X} (f : node T -> X) : (forall n l r, f (n <| undo_stack := l |> <| revision := r |>) = f n) ->
  keepsN f start_session.
Proof. intros Hf. apply keepsN_change. intros n. apply Hf. Qed.
Lemma items_apply_item skip a : keepsN fork_items (apply_item skip a).
Proof. apply keepsN_apply_item; [intros b; apply items_apply_block|by apply keepsN_start|by apply keepsN_undo]. Qed.
Lemma still_apply_item skip a : keepsN still (apply_item skip a).
Proof. apply keepsN_apply_item; [intros b; apply still_apply_block|by apply keepsN_start|by apply keepsN_undo]. Qed.

(** *** Popping *)
Lemma core_fetch h : keepsN core (fetch_block_by_id h).
Proof. unfold fetch_block_by_id. keepsN. Qed.
Lemma fork_fetch h : keepsN fork_db (fetch_block_by_id h).
Proof. unfold fetch_block_by_id. keepsN. Qed.
Lemma items_pop_block : keepsN fork_items pop_block.
Proof.
  unfold pop_block, reset_pending_session, fetch_block_by_id.
  assert (U : keepsN fork_items undo_session) by by apply keepsN_undo.
  keepsN; try done. intros n. destruct (pending_tx_session n); [|done].
  apply (keepsN_bind fork_items undo_session (fun _ => change _) U). intros _. by apply keepsN_change.
Qed.

Lemma pop_block_Done n u n' : pending_tx_session n = false -> pop_block n = Done u n' ->
  still n' = still n /\ fork_pop_block (fork_db n) = Ok (tt, fork_db n') /\ fork_items n' = fork_items n /\
  match undo_stack n with
  | [] => chain n' = chain n /\ undo_stack n' = []
  | (r, old) :: rest => tables (chain n') = tables old /\ undo_stack n' = rest
  end.
Proof.
  intros Hp H. pose proof (keepsN_Done fork_items _ _ _ _ items_pop_block H) as Hi. unfold pop_block in H.
  apply nbind_Done in H as ([] & n1 & H1 & H). unfold reset_pending_session in H1. rewrite Hp in H1. injection H1 as <-.
  apply nbind_Done in H as (h & n1 & H1 & H). apply reads_Done in H1 as [-> ->].
  apply nbind_Done in H as (b & n1 & H1 & H). pose proof (keepsN_Done core _ _ _ _ (core_fetch _) H1) as K.
  pose proof (keepsN_Done fork_db _ _ _ _ (fork_fetch _) H1) as Kf. clear H1.
  destruct b as [b|]; [|done]. apply nbind_Done in H as ([] & n2 & H2 & H). apply on_part_Done in H2 as (d & H2 & ->).
  rewrite Kf in H2. apply nbind_Done in H as ([] & n3 & H3 & H). apply change_Done in H as [_ ->].
  unfold core in K. injection K as K1 K2 K3 K4 K5 K6 K7.
  unfold undo_session in H3. apply change_Done in H3 as [_ ->]. cbn [upd undo_stack node_eta] in *. rewrite K2 in *.
  unfold still. destruct (undo_stack n) as [|[r old] rest]; cbn [upd chain undo_stack pending_tx pending_tx_session checkpoints fork_db];
    rewrite ?K1, ?K2, ?K4, ?K5, ?K7; repeat split; try done.
Qed.
Lemma pop_block_Raised n e n' : pending_tx_session n = false -> pop_block n = Raised e n' -> core n' = core n.
Proof.
  intros Hp H. unfold pop_block in H.
  apply nbind_Raised in H as [H|([] & n1 & H1 & H)]; unfold reset_pending_session in *; rewrite Hp in *; [done|].
  injection H1 as <-. apply nbind_Raised in H as [H|(h & n1 & H1 & H)]; [done|]. apply reads_Done in H1 as [-> ->].
  apply nbind_Raised in H as [H|(b & n1 & H1 & H)]; [by apply (keepsN_Raised core _ _ _ _ (core_fetch _)) in H|].
  apply (keepsN_Done core _ _ _ _ (core_fetch _)) in H1. destruct b as [b|]; [|by injection H as _ <-].
  apply nbind_Raised in H as [H|([] & n2 & H2 & H)]; [by apply on_part_Raised in H as [_ ->]|].
  apply nbind_Raised in H as [H|([] & n3 & H3 & H)]; done.
Qed.

(** [pop_until] stops at a state of the history whose head is the block asked for. *)
Definition past n s : Prop := s = chain n \/ exists r, (r, s) ∈ undo_stack n.
Lemma pop_until_Done fuel h n u n' : pending_tx_session n = false -> pop_until fuel h n = Done u n' ->
  still n' = still n /\ fork_items n' = fork_items n /\ head_block_id_of n' = h /\
  (exists s, past n s /\ tables (chain n') = tables s) /\
  exists l, undo_stack n = l ++ undo_stack n'.
Proof.
  revert n. induction fuel as [|fuel IH]; intros n Hp H; cbn [pop_until] in H;
    apply nbind_Done in H as (x & n1 & H1 & H); apply reads_Done in H1 as [-> ->];
    (case_bool_decide as E; [apply nret_Done in H as [_ ->]; repeat split; try done;
       [exists (chain n); by repeat split; left|by exists []]|]); [done|].
  apply nbind_Done in H as ([] & n1 & H1 & H). apply pop_block_Done in H1 as (S & _ & Hi & Hs); [|done].
  assert (Hp1 : pending_tx_session n1 = false) by (unfold still in S; by injection S as _ -> _).
  apply IH in H as (S' & Hi' & Hh & (s & Hs' & Et) & l & El); [|done].
  split; [congruence|]. split; [congruence|]. split; [done|].
  destruct (undo_stack n) as [|[r old] rest] eqn:Eu.
  - destruct Hs as [Hc Hu]. split; [|by exists l; rewrite <- El, Hu]. exists s. split; [|done].
    destruct Hs' as [->|[r Hr]]; [left; congruence|]. rewrite Hu in Hr. by apply not_elem_of_nil in Hr.
  - destruct Hs as [Hc Hu]. split; [|exists ((r, old) :: l); cbn [app]; by rewrite <- El, Hu].
    destruct Hs' as [->|[r' Hr]].
    + exists old. split; [|congruence]. right. exists r. rewrite Eu. by left.
    + exists s. split; [|done]. right. exists r'. rewrite Eu. right. by rewrite <- Hu.
Qed.

(** *** Applying the items of a branch *)
Definition block_at n a : option signed_block := item_data <$> (fork_items n !! a).
Lemma item_block_at n a b : item_block (fork_db n) a = Ok b <-> block_at n a = Some b.
Proof.
  unfold item_block, deref, block_at, fork_items. destruct (items (fork_db n) !! a) as [i|]; simpl;
    unfold mbind, res_bind; naive_solver.
Qed.
Lemma apply_item_Done skip a n u n' : apply_item skip a n = Done u n' -> exists b, block_at n a = Some b /\
  Blocks.apply_block (checkpoints n) b skip (chain n) = Ok (tt, chain n') /\ still n' = still n /\ fork_items n' = fork_items n.
Proof.
  intros H. pose proof (keepsN_Done still _ _ _ _ (still_apply_item skip a) H) as S.
  pose proof (keepsN_Done fork_items _ _ _ _ (items_apply_item skip a) H) as I. unfold apply_item in H.
  apply nbind_Done in H as (b & n1 & H1 & H). apply of_fork_Done in H1 as [H1 ->]. apply item_block_at in H1.
  exists b. split; [done|]. apply pushed_Done in H as (n0 & H & E1 & _ & _ & E4 & _). apply apply_block_Done in H as (H & _).
  rewrite E1 in H. injection E4 as _ _ _ E4. by rewrite E4 in H.
Qed.

Definition blocks_at n (l : list nat) : option (list signed_block) := mapM (block_at n) l.
Lemma blocks_at_ext n n' l : fork_items n' = fork_items n -> blocks_at n' l = blocks_at n l.
Proof. intros E. unfold blocks_at, block_at. by rewrite E. Qed.
Lemma apply_items_Done skip l n u n' : forM l (apply_item skip) n = Done u n' -> exists bs,
  blocks_at n l = Some bs /\ replayed (checkpoints n) (chain n) bs (chain n') /\ still n' = still n /\
  fork_items n' = fork_items n.
Proof.
  revert n. induction l as [|a l IH]; intros n H; cbn [forM] in H.
  - apply nret_Done in H as [_ ->]. exists []. repeat split; try done. by constructor.
  - apply nbind_Done in H as ([] & n1 & H1 & H). apply apply_item_Done in H1 as (b & Hb & Ha & S1 & I1).
    apply IH in H as (bs & Hbs & R & S2 & I2). rewrite (blocks_at_ext n n1 l I1) in Hbs.
    exists (b :: bs). unfold blocks_at in *. cbn [mapM mbind option_bind]. rewrite Hb. cbn. rewrite Hbs.
    split; [done|]. split; [|split; congruence]. apply (replayed_cons _ _ (chain n) b skip (chain n1)); [done|done|].
    unfold still in S1. injection S1 as _ _ S1. by rewrite <- S1.
Qed.

Lemma push_branch_Done skip todo old anc n u n' : push_branch skip todo old anc n = Done u n' -> exists bs,
  blocks_at n todo = Some bs /\ replayed (checkpoints n) (chain n) bs (chain n') /\ still n' = still n /\
  fork_items n' = fork_items n.
Proof.
  intros H. apply (apply_items_Done skip todo n u n'). revert n H. induction todo as [|a todo IH]; intros n H; [done|].
  cbn [push_branch] in H. apply nbind_Done in H as (r & n1 & H1 & H). unfold try in H1.
  destruct ((apply_item skip a ;; mret None) n) as [x n2|e n2|e] eqn:E; [|case_bool_decide|done].
  - injection H1 as <- <-. apply nbind_Done in E as ([] & n3 & E & E2). apply nret_Done in E2 as [-> ->].
    cbn [forM]. apply nbind_Done. exists tt, n3. split; [done|]. by apply IH.
  - done.
  - injection H1 as <- <-. apply nbind_Done in H as ([] & n3 & _ & H). done.
Qed.

(** *** The failed branch goes, the old one is applied again. *)
Lemma still_remove_items l : keepsN still (forM l remove_item : NM T unit).
Proof. unfold remove_item. keepsN. Qed.
Lemma items_remove_items l : keepsN fork_items (forM l remove_item : NM T unit).
Proof. unfold remove_item. keepsN. Qed.
Lemma restore_branch_Done skip bad old anc n u n' : pending_tx_session n = false ->
  restore_branch skip bad old anc n = Done u n' -> exists s bs, head_block_id (dgpo s) = anc /\
  blocks_at n (rev old) = Some bs /\ replayed (checkpoints n) s bs (chain n') /\ still n' = still n.
Proof.
  intros Hp H. unfold restore_branch in H. apply nbind_Done in H as ([] & n1 & H1 & H).
  pose proof (keepsN_Done still _ _ _ _ (still_remove_items bad) H1) as S1.
  pose proof (keepsN_Done fork_items _ _ _ _ (items_remove_items bad) H1) as I1. clear H1.
  apply nbind_Done in H as ([] & n2 & H2 & H). destruct (head old) as [front|]; [|done].
  assert (S2 : still n2 = still n1 /\ fork_items n2 = fork_items n1) by (by apply on_part_Done in H2 as (d & [= <-] & ->)).
  clear H2. destruct S2 as [S2 I2]. apply nbind_Done in H as ([] & n3 & H3 & H).
  assert (Hp2 : pending_tx_session n2 = false).
  { assert (E : still n2 = still n) by congruence. unfold still in E. by injection E as _ -> _. }
  apply pop_until_Done in H3 as (S3 & I3 & Hh & _); [|done].
  apply apply_items_Done in H as (bs & Hbs & R & S4 & I4). exists (chain n3), bs. split; [done|].
  assert (Ec : checkpoints n3 = checkpoints n).
  { assert (E : still n3 = still n) by congruence. unfold still in E. by injection E as _ _ ->. }
  rewrite (blocks_at_ext n n3) in Hbs by congruence. rewrite Ec in R. split; [done|]. split; [done|congruence].
Qed.

(** *** The head of the fork database while blocks are popped *)
Definition fork_head n := _head (fork_db n).
Lemma pop_block_fork n u n' a : pending_tx_session n = false -> fork_ok (fork_db n) -> fork_head n = Some a ->
  pop_block n = Done u n' -> exists p, fork_head n' = Some p /\ (p < a)%nat /\
  num_of (fork_db n') p = num_of (fork_db n) a - 1 /\ fork_ok (fork_db n').
Proof.
  intros Hp Hok Ha H. apply pop_block_Done in H as (_ & F & _ & _); [|done].
  pose proof (fork_pop_block_ok _ _ _ Hok F) as Hok'. apply fork_pop_block_Ok in F as (a' & p & Ha' & Hl & E).
  unfold fork_head in *. rewrite Ha in Ha'. injection Ha' as <-. exists p. rewrite E in *.
  destruct (lock_prev_num _ _ _ Hok Hl) as (Hlt & Hn & _). split; [done|]. split; [done|]. split; [exact Hn|done].
Qed.
Lemma num_of_items d d' a : items d' = items d -> num_of d' a = num_of d a.
Proof. intros E. unfold num_of. by rewrite E. Qed.
Lemma pop_until_fork fuel h n u n' a : pending_tx_session n = false -> fork_ok (fork_db n) -> fork_head n = Some a ->
  pop_until fuel h n = Done u n' -> exists c, fork_head n' = Some c /\ fork_ok (fork_db n') /\
  num_of (fork_db n) c <= num_of (fork_db n) a /\
  (head_block_id_of n <> h -> num_of (fork_db n) c < num_of (fork_db n) a).
Proof.
  revert n a. induction fuel as [|fuel IH]; intros n a Hp Hok Ha H; cbn [pop_until] in H;
    apply nbind_Done in H as (x & n1 & H1 & H); apply reads_Done in H1 as [-> ->];
    (case_bool_decide as E; [apply nret_Done in H as [_ ->]; exists a; split; [done|]; split; [done|]; split; [lia|done]|]); [done|].
  apply nbind_Done in H as ([] & n1 & H1 & H).
  destruct (pop_block_fork n tt n1 a Hp Hok Ha H1) as (p & Hp1 & _ & Hn & Hok1).
  apply pop_block_Done in H1 as (S & _ & Hi & _); [|done].
  assert (Hf : pending_tx_session n1 = false) by (unfold still in S; by injection S as _ -> _).
  destruct (IH n1 p Hf Hok1 Hp1 H) as (c & Hc & Hokc & Hle & _). exists c. split; [done|]. split; [done|].
  rewrite !(num_of_items (fork_db n) (fork_db n1)) in * by exact Hi. split; [lia|]. intros _. lia.
Qed.
(** The fuel is enough: a parent has a smaller address. *)
Lemma pop_until_enough fuel extra h n : pending_tx_session n = false -> fork_ok (fork_db n) ->
  (forall a, fork_head n = Some a -> (a < fuel)%nat) -> (0 < fuel)%nat ->
  pop_until (fuel + extra) h n = pop_until fuel h n.
Proof.
  revert n. induction fuel as [|fuel IH]; intros n Hp Hok Ha Hf; [lia|]. cbn [Nat.add pop_until].
  unfold mbind, NM_bind, reads. case_bool_decide; [done|].
  destruct (pop_block n) as [[] n1|e n1|e] eqn:E; [|done..].
  pose proof (pop_block_Done n tt n1 Hp E) as (S & F & Hi & _).
  assert (Hp1 : pending_tx_session n1 = false) by (unfold still in S; by injection S as _ -> _).
  apply fork_pop_block_Ok in F as (a & p & Ha' & Hl & E'). specialize (Ha a Ha').
  destruct (pop_block_fork n tt n1 a Hp Hok Ha' E) as (p' & Hp' & Hlt & _ & Hok1).
  apply IH; [done|done| |lia]. intros q Hq. rewrite Hq in Hp'. injection Hp' as ->. lia.
Qed.

Lemma fork_head_apply_block b skip : keepsN fork_head (apply_block b skip).
Proof.
  assert (S : forall k, keepsN fork_head (on_fork (set_max_size k) : NM T unit)).
  { intros k n. unfold on_part. destruct (set_max_size k (fork_db n)) as [[u d]|] eqn:E; [|done].
    unfold fork_head. simpl. unfold set_max_size in E. cbv zeta in E. cbn [upd _head] in E.
    destruct (_head (fork_db n)) eqn:Eh; [|by injection E as _ <-].
    apply rbind_Ok in E as (? & _ & [= _ <-]). done. }
  unfold apply_block, with_flags, _apply_block, settle_irreversible, log_and_trim, log_irreversible, commit.
  keepsN; apply S.
Qed.
Lemma fork_head_apply_items skip l : keepsN fork_head (forM l (apply_item skip)).
Proof.
  apply keepsN_forM. intros a.
  apply keepsN_apply_item; [intros b; apply fork_head_apply_block|by apply keepsN_start|by apply keepsN_undo].
Qed.
Lemma push_branch_apply skip todo old anc n u n' : push_branch skip todo old anc n = Done u n' ->
  forM todo (apply_item skip) n = Done u n'.
Proof.
  revert n. induction todo as [|a todo IH]; intros n H; [done|].
  cbn [push_branch] in H. apply nbind_Done in H as (r & n1 & H1 & H). unfold try in H1.
  destruct ((apply_item skip a ;; mret None) n) as [x n2|e n2|e] eqn:E; [|case_bool_decide|done].
  - injection H1 as <- <-. apply nbind_Done in E as ([] & n3 & E & E2). apply nret_Done in E2 as [-> ->].
    cbn [forM]. apply nbind_Done. exists tt, n3. split; [done|]. by apply IH.
  - done.
  - injection H1 as <- <-. by apply nbind_Done in H as ([] & n3 & _ & H).
Qed.

(** *** Switching forks *)
Lemma fork_at_head d a1 a2 l1 l2 : fork_at d a1 a2 l1 l2 -> head l1 = Some a1 /\ head l2 = Some a2.
Proof.
  intros (k1 & c1 & k2 & c2 & -> & -> & B1 & B2 & _). split; [by destruct B1|by destruct B2].
Qed.
(** A branch that was replayed ends with its first item. *)
Lemma branch_replay_head n l a i cps s bs s' : fork_ok (fork_db n) -> head l = Some a -> fork_items n !! a = Some i ->
  blocks_at n (rev l) = Some bs -> replayed cps s bs s' -> head_block_id (dgpo s') = id i.
Proof.
  intros Hok Hl Hi Hbs R. destruct (replayed_head _ _ _ _ R) as [-> _]. destruct l as [|x l]; [done|]. injection Hl as ->.
  cbn [rev] in Hbs. unfold blocks_at in Hbs. apply mapM_Some, Forall2_app_inv_l in Hbs as (cs & ds & _ & Hds & ->).
  inversion Hds as [|? y ? ? Hy Hnil]; subst. inversion Hnil; subst. rewrite last_snoc. unfold block_at in Hy.
  rewrite Hi in Hy. injection Hy as <-. by destruct (ok_items _ Hok a i Hi) as (_ & -> & _).
Qed.
Lemma switch_forks_Done skip h n u n' : pending_tx_session n = false -> fork_ok (fork_db n) ->
  switch_forks skip h n = Done u n' -> exists a1 l1 l2 c anc bs,
  find_id (fork_db n) (_index (fork_db n)) h = Some a1 /\
  fetch_branch_from (fork_db n) h (head_block_id_of n) = Ok (l1, l2) /\ last l2 = Some c /\
  past n anc /\ head_block_id (dgpo anc) = previous_of (fork_db n) c /\
  blocks_at n (rev l1) = Some bs /\ replayed (checkpoints n) anc bs (chain n') /\
  head_block_id_of n' = h /\ still n' = still n /\
  (forall a, fork_head n = Some a -> exists c', fork_head n' = Some c' /\
     (head_block_id_of n <> previous_of (fork_db n) c -> num_of (fork_db n) c' < num_of (fork_db n) a)).
Proof.
  intros Hp Hok H. unfold switch_forks in H. apply nbind_Done in H as (x & n1 & H1 & H). apply reads_Done in H1 as [-> ->].
  apply nbind_Done in H as ([l1 l2] & n1 & H1 & H). apply of_fork_Done in H1 as [Hf ->].
  destruct (proj1 (fetch_branch_from_spec _ _ _ _ _ Hok) Hf) as (a1 & a2 & F1 & F2 & Hat).
  apply nbind_Done in H as ([] & n1 & H1 & H). apply on_part_Done in H1 as (d & [= <-] & E1). cbn [fst snd] in *.
  assert (Q : chain n1 = chain n /\ undo_stack n1 = undo_stack n /\ still n1 = still n /\ fork_items n1 = fork_items n /\
    fork_head n1 = fork_head n /\ pending_tx_session n1 = false /\ fork_ok (fork_db n1) /\ checkpoints n1 = checkpoints n).
  { rewrite E1. split_and!; try done. destruct Hok as [O1 O2 O3 O4 O5]. by split. }
  clear E1. destruct Q as (Q1 & Q2 & Q3 & Q4 & Q5 & Q6 & Q7 & Q8).
  unfold finally in H. destruct (_ n1) as [u1 n5|e n5|e] eqn:E; [|by apply nbind_Done in H as (? & ? & _ & ?)|done].
  apply nbind_Done in H as ([] & n6 & H6 & H). apply on_part_Done in H6 as (d & [= <-] & ->). apply nret_Done in H as [_ ->].
  destruct (last l2) as [c|] eqn:El; [|done]. apply nbind_Done in E as (b & n2 & H2 & E). apply of_fork_Done in H2 as [Hb ->].
  apply item_block_at in Hb. apply nbind_Done in E as ([] & n3 & H3 & E).
  assert (Eb : previous b = previous_of (fork_db n) c).
  { unfold block_at in Hb. rewrite Q4 in Hb. unfold previous_of. fold (fork_items n).
    destruct (fork_items n !! c) as [i|]; [|done]. by injection Hb as <-. }
  pose proof H3 as H3'. apply pop_until_Done in H3 as (S3 & I3 & Hh & (anc & Hpast & Et) & _); [|done].
  pose proof (keepsN_Done fork_head _ _ _ _ (fork_head_apply_items skip (rev l1)) (push_branch_apply _ _ _ _ _ _ _ E)) as K.
  apply push_branch_Done in E as (bs & Hbs & R & S4 & I4).
  assert (Hc3 : checkpoints n3 = checkpoints n).
  { assert (X : still n3 = still n) by congruence. unfold still in X. by injection X as _ _ ->. }
  rewrite Hc3 in R. rewrite (blocks_at_ext n n3) in Hbs by congruence.
  exists a1, l1, l2, c, anc, bs. split; [done|]. split; [done|]. split; [done|].
  split; [unfold past in *; by rewrite Q1, Q2 in Hpast|].
  assert (Hanc : head_block_id (dgpo anc) = head_block_id_of n3).
  { apply head_tables in Et. unfold head_view in Et. unfold head_block_id_of. congruence. }
  split; [congruence|]. split; [done|].
  assert (R' : replayed (checkpoints n) anc bs (chain n5)).
  { apply (replayed_app _ _ [] (chain n3) bs); [by constructor|done]. }
  split; [exact R'|]. split; [|split; [unfold still in *; simpl; congruence|]].
  - destruct (fork_at_head _ _ _ _ _ Hat) as [Hl1 _]. apply find_id_Some in F1 as (_ & i & Hi & <-).
    unfold head_block_id_of. simpl.
    exact (branch_replay_head n l1 a1 i _ anc bs _ Hok Hl1 Hi Hbs R').
  - intros a Ha. rewrite <- Q5 in Ha.
    destruct (pop_until_fork _ _ _ _ _ _ Q6 Q7 Ha H3') as (c' & Hc' & _ & _ & Hlt).
    exists c'. split; [unfold fork_head in *; simpl; congruence|]. intros Hne.
    rewrite !(num_of_items (fork_db n) (fork_db n1)) in Hlt by exact Q4. apply Hlt. unfold head_block_id_of in *. congruence.
Qed.
End branches.
