(* ===== verification/Pending.v ===== *)
(** * Pending: the pending transactions of a node and what blocks do to them, what a
    switch of forks that fails leaves, and blocks that fail after their session is gone. *)
From S2P Require Import Prelude Safe Names Asset Version Config Authority Raw Operations Validate.
From S2P Require Import Objects State Frame Economics Votes Money Balance EvalWitness EvalAccount.
From S2P Require Import EvalTransfer EvalEscrow EvalVote EvalContent Evaluators Block SignState.
From S2P Require Import Transactions WitnessSchedule Periodic Hardforks Blocks Supply Genesis ForkDb.
From S2P Require Import BlockLog Node NodeFacts.
Local Open Scope Z_scope.
Local Open Scope list_scope.

Section pending.
  Context {cfg : sophiatx_config} {ext : externals} {itp : interpreters} {cr : crypto}.
  Context {T : Type} {st : block_store T}.
  Implicit Types (n : node T) (s : db) (b : signed_block) (t : signed_transaction).

(** [applied base ts s]: the transactions lead from [base] to [s], whatever the
    flags were. *)
Inductive applied (base : db) : list signed_transaction -> db -> Prop :=
  | applied_nil s : tables s = tables base -> applied base [] s
  | applied_snoc ts s1 s0 t s2 s : applied base ts s1 -> tables s0 = tables s1 ->
      _apply_transaction t s0 = Ok (tt, s2) -> tables s = tables s2 -> applied base (ts ++ [t]) s.
Lemma applied_tables base ts s s' : tables s' = tables s -> applied base ts s -> applied base ts s'.
Proof.
  intros E H. destruct H as [s E1|ts s1 s0 t s2 s H E1 Ht E2]; [apply applied_nil; congruence|].
  by apply (applied_snoc _ _ s1 s0 t s2); [..|congruence].
Qed.

(** The pending session holds the pending transactions applied to the head state. *)
Definition pending_ok n : Prop :=
  if pending_tx_session n
  then exists r base rest, undo_stack n = (r, base) :: rest /\ applied base (pending_tx n) (chain n)
  else pending_tx n = [].
Definition head_state n : db :=
  if pending_tx_session n then match undo_stack n with (_, base) :: _ => base | [] => chain n end else chain n.
(** The history below the pending session *)
Definition head_history n : list (Z * db) := if pending_tx_session n then tail (undo_stack n) else undo_stack n.

(** ** One transaction *)
Lemma squashed_apply_pending t n r base rest : undo_stack n = (r, base) :: rest ->
  match squashed (apply_pending t) n with
  | Done _ n' => _apply_transaction t (chain n) = Ok (tt, chain n') /\ undo_stack n' = undo_stack n /\
      pending_tx n' = pending_tx n ++ [t] /\ pending_tx_session n' = pending_tx_session n /\
      (popped_tx n', checkpoints n', fork_db n', blog n') = (popped_tx n, checkpoints n, fork_db n, blog n)
  | Raised e n' => _apply_transaction t (chain n) = Throw e /\
      tables (chain n') = tables (chain n) /\ undo_stack n' = undo_stack n /\
      pending_tx n' = pending_tx n /\ pending_tx_session n' = pending_tx_session n /\
      (popped_tx n', checkpoints n', fork_db n', blog n') = (popped_tx n, checkpoints n, fork_db n, blog n)
  | Broken _ => False
  end.
Proof.
  intros E. unfold squashed, in_session, apply_pending, mbind, NM_bind, on_part, start_session, change, on_top.
  cbn [upd chain undo_stack node_eta revision]. destruct (_apply_transaction t (chain n)) as [[[] s]|e].
  - unfold squash_session, change. cbn [upd undo_stack node_eta chain pending_tx pending_tx_session popped_tx
      checkpoints fork_db blog]. rewrite E. by cbn.
  - cbn [undo_stack]. rewrite Z.eqb_refl. unfold undo_session, change, mthrow, NM_throw. cbn. done.
Qed.

Lemma push_transaction_outcome t n : pending_ok n ->
  match _push_transaction t n with
  | Done _ n' => pending_ok n' /\ pending_tx n' = pending_tx n ++ [t] /\ tables (head_state n') = tables (head_state n) /\
      head_history n' = head_history n /\ pending_tx_session n' = true /\
      (exists s', _apply_transaction t (chain n) = Ok (tt, s') /\ chain n' = s') /\
      (popped_tx n', checkpoints n', fork_db n', blog n') = (popped_tx n, checkpoints n, fork_db n, blog n)
  | Raised e n' => pending_ok n' /\ pending_tx n' = pending_tx n /\ tables (head_state n') = tables (head_state n) /\
      head_history n' = head_history n /\ pending_tx_session n' = true /\
      (_apply_transaction t (chain n) = Throw e /\ tables (chain n') = tables (chain n)) /\
      (popped_tx n', checkpoints n', fork_db n', blog n') = (popped_tx n, checkpoints n, fork_db n, blog n)
  | Broken _ => False
  end.
Proof.
  intros Hok. unfold _push_transaction.
  assert (Q : exists n1 r base rest, whenM (negb (pending_tx_session n))
      (start_session ;; change (fun n => n <| pending_tx_session := true |>)) n = Done tt n1 /\
    undo_stack n1 = (r, base) :: rest /\ applied base (pending_tx n1) (chain n1) /\ pending_tx_session n1 = true /\
    chain n1 = chain n /\ tables base = tables (head_state n) /\ rest = head_history n /\ pending_tx n1 = pending_tx n /\
    (popped_tx n1, checkpoints n1, fork_db n1, blog n1) = (popped_tx n, checkpoints n, fork_db n, blog n)).
  { unfold pending_ok, head_state, head_history in *. destruct (pending_tx_session n) eqn:Ep.
    - destruct Hok as (r & base & rest & E & A). exists n, r, base, rest. rewrite E. split_and!; done.
    - destruct (start_session_Done n) as (n0 & E & E1 & E2 & _ & E4 & E5 & E6). cbn [negb whenM].
      unfold mbind, NM_bind. rewrite E. eexists _, (revision n + 1), (chain n), (undo_stack n). split; [reflexivity|].
      cbn [upd node_eta undo_stack pending_tx chain pending_tx_session popped_tx checkpoints fork_db blog].
      injection E4 as F1 F2 F3 F4. split_and!; try done; [|congruence..]. rewrite E1, F1, Hok. by apply applied_nil. }
  destruct Q as (n1 & r & base & rest & Q & E & A & P & Ec & Eb & Er & Ept & Eo).
  pose proof (squashed_apply_pending t n1 r base rest E) as S.
  unfold mbind at 1, NM_bind at 1, reads. unfold mbind at 1, NM_bind at 1. rewrite Q.
  rewrite Ec in S. destruct (squashed (apply_pending t) n1) as [[] n'|e n'|e]; [| |done].
  - destruct S as (S1 & S2 & S3 & S4 & S5). rewrite E in S2. rewrite P in S4. unfold pending_ok, head_state, head_history in *.
    rewrite S4, S2. split_and!; try done; [|congruence|eauto|congruence].
    exists r, base, rest. split; [done|]. rewrite S3. by apply (applied_snoc _ _ (chain n1) (chain n) t (chain n')); [|congruence|..].
  - destruct S as (S0 & S1 & S2 & S3 & S4 & S5). rewrite E in S2. rewrite P in S4. unfold pending_ok, head_state, head_history in *.
    rewrite S4, S2. split_and!; try done; [|congruence..].
    exists r, base, rest. split; [done|]. rewrite S3. apply (applied_tables _ _ (chain n1)); congruence || done.
Qed.

(** ** Flags are no part of the pending state *)
(** [n'] differs from [n] in members of the chain that are not in its tables. *)
Definition same_but_flags n n' : Prop := tables (chain n') = tables (chain n) /\ aside n' = aside n.
Lemma same_but_flags_ok n n' : same_but_flags n n' -> pending_ok n -> pending_ok n'.
Proof.
  intros [E A] H. unfold aside, waiting in A. injection A as A1 A2 A3 A4 A5 A6 A7 A8. unfold pending_ok in *.
  rewrite A4, A1, A3. destruct (pending_tx_session n); [|done].
  destruct H as (r & base & rest & H1 & H2). exists r, base, rest. split; [done|]. by apply (applied_tables _ _ (chain n)).
Qed.
Lemma same_but_flags_state n n' : same_but_flags n n' -> tables (head_state n') = tables (head_state n) /\
  head_history n' = head_history n /\ pending_tx n' = pending_tx n /\ pending_tx_session n' = pending_tx_session n /\
  popped_tx n' = popped_tx n /\ checkpoints n' = checkpoints n /\ fork_db n' = fork_db n /\ blog n' = blog n.
Proof.
  intros [E A]. unfold aside, waiting in A. injection A as A1 A2 A3 A4 A5 A6 A7 A8. unfold head_state, head_history.
  rewrite A4, A1. split_and!; try done. by destruct (pending_tx_session n), (undo_stack n) as [|[] ?].
Qed.
Lemma flags_same k n : same_but_flags n (n <| chain ::= fun s => s <| skip_flags := k |> |>).
Proof. by split. Qed.

(** What pushing transactions again keeps. *)
Definition keeps_head n n' : Prop := pending_ok n' /\ tables (head_state n') = tables (head_state n) /\
  head_history n' = head_history n /\
  (popped_tx n', checkpoints n', fork_db n', blog n') = (popped_tx n, checkpoints n, fork_db n, blog n).
Lemma keeps_head_refl n : pending_ok n -> keeps_head n n.
Proof. by split. Qed.
Lemma keeps_head_trans n1 n2 n3 : keeps_head n1 n2 -> keeps_head n2 n3 -> keeps_head n1 n3.
Proof. intros (A1 & A2 & A3 & A4) (B1 & B2 & B3 & B4). split_and!; congruence. Qed.

Lemma push_again_outcome t n : pending_ok n ->
  match push_again t n with
  | Done _ n' => keeps_head n n' /\ (pending_tx n' = pending_tx n \/ pending_tx n' = pending_tx n ++ [t])
  | Raised e n' => e = crash /\ keeps_head n n' /\ pending_tx n' = pending_tx n
  | Broken _ => False
  end.
Proof.
  intros Hok. unfold push_again, try, mbind, NM_bind, is_known_transaction, reads.
  pose proof (push_transaction_outcome t n Hok) as P. destruct (transactions (chain n) !! transaction_id t).
  - cbn [negb whenM mret NM_ret]. split; [by apply keeps_head_refl|by left].
  - cbn [negb whenM]. destruct (_push_transaction t n) as [[] n'|e n'|e]; [|case_bool_decide|done].
    + destruct P as (P1 & P2 & P3 & P4 & _ & _ & P7). split; [by split_and!|by right].
    + destruct P as (P1 & P2 & P3 & P4 & _ & _ & P7). split_and!; done.
    + destruct P as (P1 & P2 & P3 & P4 & _ & _ & P7). split; [by split_and!|by left].
Qed.
Lemma push_all_again l n : pending_ok n ->
  match forM l push_again n with
  | Done _ n' | Raised _ n' => keeps_head n n' /\ forall t, t ∈ pending_tx n' -> t ∈ pending_tx n \/ t ∈ l
  | Broken _ => False
  end.
Proof.
  revert n. induction l as [|t l IH]; intros n Hok; cbn [forM].
  - split; [by apply keeps_head_refl|auto].
  - pose proof (push_again_outcome t n Hok) as P. unfold mbind, NM_bind.
    destruct (push_again t n) as [[] n1|e n1|e]; [| |done].
    + destruct P as (P1 & P2). specialize (IH n1 (proj1 P1)). destruct (forM l push_again n1) as [[] n'|e n'|e]; [..|done];
        destruct IH as (I1 & I2); (split; [by eapply keeps_head_trans|]); intros x Hx; specialize (I2 x Hx);
        rewrite elem_of_cons; (destruct P2 as [E|E]; rewrite E in I2; [tauto|]);
        rewrite elem_of_app, list_elem_of_singleton in I2; tauto.
    + destruct P as (_ & P1 & P2). split; [done|]. intros x Hx. left. congruence.
Qed.

Lemma restore_pending_outcome pending n : pending_ok n -> pending_tx n = [] ->
  match restore_pending pending n with
  | Done _ n' | Raised _ n' => pending_ok n' /\ tables (head_state n') = tables (head_state n) /\
      head_history n' = head_history n /\
      (checkpoints n', fork_db n', blog n') = (checkpoints n, fork_db n, blog n) /\
      forall t, t ∈ pending_tx n' -> t ∈ popped_tx n \/ t ∈ pending
  | Broken _ => False
  end.
Proof.
  intros Hok Hnil. unfold restore_pending, mbind, NM_bind, reads.
  pose proof (push_all_again (popped_tx n) n Hok) as P. rewrite Hnil in P.
  assert (N : forall t : signed_transaction, t ∈ [] <-> False) by (intros t; apply elem_of_nil).
  destruct (forM (popped_tx n) push_again n) as [[] n1|e n1|e]; [| |done]; destruct P as ((P1 & P2 & P3 & P4) & P5).
  - unfold change. set (n2 := n1 <| popped_tx := [] |>).
    assert (Hok2 : pending_ok n2) by exact P1. pose proof (push_all_again pending n2 Hok2) as Q.
    injection P4 as F1 F2 F3 F4.
    destruct (forM pending push_again n2) as [[] n'|e n'|e]; [..|done];
      destruct Q as ((Q1 & Q2 & Q3 & Q4) & Q5); injection Q4 as G1 G2 G3 G4;
      (split_and!; [done|etransitivity; [exact Q2|exact P2]|etransitivity; [exact Q3|exact P3]|simpl in *; congruence|]);
      intros x Hx; specialize (Q5 x Hx); change (pending_tx n2) with (pending_tx n1) in Q5;
      (destruct Q5 as [Q5|Q5]; [specialize (P5 x Q5); rewrite N in P5; tauto|by right]).
  - injection P4 as F1 F2 F3 F4. split_and!; try done; [congruence|]. intros x Hx. specialize (P5 x Hx). rewrite N in P5. tauto.
Qed.

(** ** [push_transaction] *)
Lemma finally_outcome {A} (m : NM T A) (c : NM T unit) n : (forall n1, exists n2, c n1 = Done tt n2 /\ same_but_flags n1 n2) ->
  match m n with
  | Done a n1 => exists n2, finally m c n = Done a n2 /\ same_but_flags n1 n2
  | Raised e n1 => exists n2, finally m c n = Raised e n2 /\ same_but_flags n1 n2
  | Broken e => finally m c n = Broken e
  end.
Proof.
  intros Hc. unfold finally, mbind, NM_bind. destruct (m n) as [a n1|e n1|e]; [| |done];
    destruct (Hc n1) as (n2 & E & S); exists n2; by rewrite E.
Qed.
Lemma with_flags_pending {A} k (m : NM T A) n : exists n1, same_but_flags n n1 /\ skip_flags (chain n1) = k /\
  producing (chain n1) = producing (chain n) /\
  match m n1 with
  | Done a n2 => exists n', with_flags k m n = Done a n' /\ same_but_flags n2 n'
  | Raised e n2 => exists n', with_flags k m n = Raised e n' /\ same_but_flags n2 n'
  | Broken e => with_flags k m n = Broken e
  end.
Proof.
  exists (n <| chain ::= fun s => s <| skip_flags := k |> |>). split; [apply flags_same|]. split; [done|]. split; [done|].
  apply finally_outcome. intros n1. eexists. split; [reflexivity|]. apply flags_same.
Qed.
Lemma same_trans n1 n2 n3 : same_but_flags n1 n2 -> same_but_flags n2 n3 -> same_but_flags n1 n3.
Proof. intros [A1 A2] [B1 B2]. split; congruence. Qed.

Lemma push_transaction_spec t skip n : pending_ok n ->
  match push_transaction t skip n with
  | Done _ n' => pending_ok n' /\ pending_tx n' = pending_tx n ++ [t] /\ tables (head_state n') = tables (head_state n) /\
      head_history n' = head_history n /\ exists s0 s1, tables s0 = tables (chain n) /\ skip_flags s0 = skip /\
      producing s0 = true /\ _apply_transaction t s0 = Ok (tt, s1) /\ tables (chain n') = tables s1
  | Raised e n' => pending_ok n' /\ pending_tx n' = pending_tx n /\ tables (head_state n') = tables (head_state n) /\
      head_history n' = head_history n /\ tables (chain n') = tables (chain n)
  | Broken _ => False
  end.
Proof.
  intros Hok. unfold push_transaction.
  assert (Hp : forall p n1, exists n2, set_producing p n1 = Done tt n2 /\ same_but_flags n1 n2).
  { intros p n1. eexists. split; [reflexivity|]. by split. }
  set (body := mbind _ _). pose proof (finally_outcome body (set_producing false) n (Hp false)) as F.
  assert (B : match body n with
    | Done _ n' => pending_ok n' /\ pending_tx n' = pending_tx n ++ [t] /\ tables (head_state n') = tables (head_state n) /\
        head_history n' = head_history n /\ exists s0 s1, tables s0 = tables (chain n) /\ skip_flags s0 = skip /\
        producing s0 = true /\ _apply_transaction t s0 = Ok (tt, s1) /\ tables (chain n') = tables s1
    | Raised e n' => pending_ok n' /\ pending_tx n' = pending_tx n /\ tables (head_state n') = tables (head_state n) /\
        head_history n' = head_history n /\ tables (chain n') = tables (chain n)
    | Broken _ => False end).
  { unfold body, mbind, NM_bind. destruct (_ <=? _); [|by split_and!].
    unfold mret, NM_ret. destruct (Hp true n) as (n1 & E1 & S1). assert (Ep : producing (chain n1) = true) by (by injection E1 as <-).
    rewrite E1. destruct (with_flags_pending skip (_push_transaction t) n1) as (n2 & S2 & Hf & Hpr & W).
    pose proof (same_trans _ _ _ S1 S2) as S. destruct (same_but_flags_state _ _ S) as (T1 & T2 & T3 & _).
    pose proof (push_transaction_outcome t n2 (same_but_flags_ok _ _ S Hok)) as P.
    destruct (_push_transaction t n2) as [[] n3|e n3|e]; [| |done]; destruct W as (n4 & -> & S4);
      destruct (same_but_flags_state _ _ S4) as (U1 & U2 & U3 & _); destruct P as (P1 & P2 & P3 & P4 & _ & P5 & _).
    - destruct P5 as (s' & P5 & E5). split_and!; [by apply (same_but_flags_ok n3)|congruence..|].
      exists (chain n2), s'. split_and!; [apply S|done|congruence|done|]. rewrite <- E5. apply S4.
    - destruct P5 as [_ P5]. split_and!; [by apply (same_but_flags_ok n3)|congruence..|]. etransitivity; [apply S4|].
      etransitivity; [exact P5|apply S]. }
  destruct (body n) as [[] n1|e n1|e]; [| |done]; destruct F as (n2 & -> & S);
    destruct (same_but_flags_state _ _ S) as (U1 & U2 & U3 & _); destruct B as (B1 & B2 & B3 & B4 & B5).
  - destruct B5 as (s0 & s1 & V1 & V2 & V3 & V4 & V5). split_and!; [by apply (same_but_flags_ok n1)|congruence..|].
    exists s0, s1. split_and!; try done. etransitivity; [apply S|done].
  - split_and!; [by apply (same_but_flags_ok n1)|congruence..|]. etransitivity; [apply S|done].
Qed.

Lemma finally_cases {A} (m : NM T A) (c : NM T unit) n : finally m c n =
  match m n with
  | Done a n1 => match c n1 with Done _ n2 => Done a n2 | Raised e n2 => Raised e n2 | Broken e => Broken e end
  | Raised e n1 => match c n1 with Done _ n2 => Raised e n2 | Raised e n2 => Raised e n2 | Broken e => Broken e end
  | Broken e => Broken e
  end.
Proof. unfold finally, mbind, NM_bind, mret, NM_ret, mthrow, NM_throw. by destruct (m n). Qed.

(** ** Steps that keep a property of the node *)
Definition keepsP {A} (P : node T -> Prop) (m : NM T A) : Prop := forall n, P n ->
  match m n with Done _ n' | Raised _ n' => P n' | Broken _ => True end.
Section keepsP.
  Context (P : node T -> Prop).
Lemma keepsP_bind {A B} (m : NM T A) (k : A -> NM T B) : keepsP P m -> (forall a, keepsP P (k a)) -> keepsP P (mbind k m).
Proof.
  intros Hm Hk n Hn. specialize (Hm n Hn). unfold mbind, NM_bind. destruct (m n) as [a n1|e n1|e]; [|done..].
  by apply Hk.
Qed.
Lemma keepsP_forM {A} (l : list A) (k : A -> NM T unit) : (forall a, keepsP P (k a)) -> keepsP P (forM l k).
Proof. intros Hk. induction l as [|a l IH]; [by intros n|]. cbn [forM]. by apply keepsP_bind. Qed.
Lemma keepsP_try {A} (m : NM T A) h : keepsP P m -> (forall e, keepsP P (h e)) -> keepsP P (try m h).
Proof.
  intros Hm Hh n Hn. specialize (Hm n Hn). unfold try. destruct (m n) as [a n1|e n1|e]; [done| |done].
  case_bool_decide; [done|]. by apply Hh.
Qed.
Lemma keepsP_finally {A} (m : NM T A) c : keepsP P m -> keepsP P c -> keepsP P (finally m c).
Proof.
  intros Hm Hc n Hn. specialize (Hm n Hn). rewrite finally_cases.
  destruct (m n) as [a n1|e n1|e]; [| |done]; specialize (Hc n1 Hm); by destruct (c n1).
Qed.
End keepsP.
Definition idle n : Prop := pending_tx n = [] /\ pending_tx_session n = false.
Lemma idle_still {A} (m : NM T A) : keepsN still m -> keepsP idle m.
Proof.
  intros Hm n [H1 H2]. specialize (Hm n). destruct (m n) as [a n'|e n'|e]; [| |done]; unfold still in Hm;
    injection Hm as E1 E2 _; by split; congruence.
Qed.
Lemma idle_pop_block : keepsP idle pop_block.
Proof.
  intros n [H1 H2]. destruct (pop_block n) as [u n'|e n'|e] eqn:E; [| |done].
  - apply pop_block_Done in E as (S & _); [|done]. unfold still in S. injection S as E1 E2 _. by split; congruence.
  - apply pop_block_Raised in E; [|done]. unfold core in E. injection E as _ _ _ E1 E2 _ _. by split; congruence.
Qed.
Lemma idle_pop_until fuel h : keepsP idle (pop_until fuel h).
Proof.
  induction fuel as [|fuel IH]; cbn [pop_until]; (apply keepsP_bind; [by intros n|]); intros x; case_bool_decide; try by intros n.
  apply keepsP_bind; [apply idle_pop_block|]. by intros _.
Qed.
Lemma idle_apply_item skip a : keepsP idle (apply_item skip a).
Proof. apply idle_still, still_apply_item. Qed.
Lemma idle_restore skip bad old anc : keepsP idle (restore_branch skip bad old anc).
Proof.
  unfold restore_branch. apply keepsP_bind; [apply idle_still, still_remove_items|]. intros _.
  apply keepsP_bind; [destruct (head old); [by apply idle_still, keepsN_part|by intros n]|]. intros _.
  apply keepsP_bind; [intros n; apply idle_pop_until|]. intros _. apply keepsP_forM. apply idle_apply_item.
Qed.
Lemma idle_push_branch skip todo old anc : keepsP idle (push_branch skip todo old anc).
Proof.
  induction todo as [|a todo IH]; cbn [push_branch]; [by intros n|].
  apply keepsP_bind; [|intros [e|]; [|done]].
  - apply keepsP_try; [|by intros e n]. apply keepsP_bind; [apply idle_apply_item|by intros _ n].
  - apply keepsP_bind; [apply idle_restore|by intros _ n].
Qed.
Lemma idle_switch_forks skip h : keepsP idle (switch_forks skip h).
Proof.
  unfold switch_forks. apply keepsP_bind; [by intros n|]. intros x. apply keepsP_bind; [apply idle_still, keepsN_of_fork|].
  intros br. apply keepsP_bind; [by apply idle_still, keepsN_part|]. intros _.
  apply keepsP_finally; [|by apply idle_still, keepsN_part]. destruct (last (snd br)) as [c|]; [|by intros n].
  apply keepsP_bind; [apply idle_still, keepsN_of_fork|]. intros b. apply keepsP_bind; [intros n; apply idle_pop_until|].
  intros _. apply idle_push_branch.
Qed.
Lemma still_push_onto_head b skip : keepsN still (push_onto_head b skip).
Proof.
  unfold push_onto_head. apply keepsN_try.
  - by apply keepsN_in_session; [apply keepsN_start|apply keepsN_undo|apply still_apply_block|apply keepsN_ret].
  - intros e. keepsN.
Qed.
Lemma idle_push_block b : keepsP idle (_push_block b).
Proof.
  unfold _push_block. apply keepsP_bind; [by intros n|]. intros skip.
  assert (O : keepsP idle (push_onto_head b skip ;; mret false)).
  { apply keepsP_bind; [apply idle_still, still_push_onto_head|by intros _ n]. }
  destruct (negb _); [|exact O]. apply keepsP_bind; [by apply idle_still, keepsN_part|]. intros a.
  apply keepsP_bind; [apply idle_still, keepsN_of_fork|]. intros nb. apply keepsP_bind; [by intros n|]. intros h.
  destruct (negb _); [|exact O]. apply keepsP_bind; [by apply idle_still, keepsN_part|]. intros num.
  destruct (_ >? _); [|by intros n]. apply keepsP_bind; [apply idle_switch_forks|by intros _ n].
Qed.

(** ** [push_block]: the pending transactions make way and come back. *)
Definition cleared n n1 : Prop := tables (chain n1) = tables (head_state n) /\ undo_stack n1 = head_history n /\
  pending_tx n1 = [] /\ pending_tx_session n1 = false /\
  (popped_tx n1, checkpoints n1, fork_db n1, blog n1) = (popped_tx n, checkpoints n, fork_db n, blog n).
Lemma clear_pending_Done n : exists n1, clear_pending n = Done tt n1 /\ cleared n n1.
Proof.
  unfold clear_pending, mbind, NM_bind, change, reset_pending_session. cbn [upd pending_tx_session node_eta].
  unfold cleared, head_state, head_history. destruct (pending_tx_session n) eqn:Ep.
  - unfold mbind, NM_bind, undo_session, change. cbn [upd undo_stack node_eta].
    destruct (undo_stack n) as [|[r old] rest] eqn:E; eexists; (split; [reflexivity|]); cbn; rewrite ?E; by split_and!.
  - eexists. split; [reflexivity|]. cbn. by split_and!.
Qed.

Lemma without_pending_eq {A} (m : NM T A) n n1 : clear_pending n = Done tt n1 ->
  without_pending_transactions m n = finally m (restore_pending (pending_tx n)) n1.
Proof. intros E. unfold without_pending_transactions, mbind, NM_bind, reads. by rewrite E. Qed.
Lemma push_block_outcome b skip n :
  exists n1, cleared n n1 /\ skip_flags (chain n1) = skip /\
  match _push_block b n1 with
  | Broken e => push_block b skip n = Broken e
  | Done _ n2 | Raised _ n2 => match push_block b skip n with
      | Done _ n' | Raised _ n' => pending_ok n' /\ tables (head_state n') = tables (chain n2) /\
          head_history n' = undo_stack n2 /\ (checkpoints n', fork_db n', blog n') = (checkpoints n2, fork_db n2, blog n2) /\
          forall t, t ∈ pending_tx n' -> t ∈ popped_tx n2 \/ t ∈ pending_tx n
      | Broken _ => False
      end
  end.
Proof.
  unfold push_block.
  destruct (with_flags_pending skip (without_pending_transactions (_push_block b)) n) as (n0 & S0 & Hf & _ & W).
  destruct (same_but_flags_state _ _ S0) as (T1 & T2 & T3 & T4 & T5 & T6 & T7 & T8).
  destruct (clear_pending_Done n0) as (n1 & E1 & C1).
  assert (C : cleared n n1).
  { destruct C1 as (X1 & X2 & X3 & X4 & X5). unfold cleared. split_and!; congruence. }
  assert (Hf1 : skip_flags (chain n1) = skip).
  { unfold clear_pending, mbind, NM_bind, change, reset_pending_session in E1. cbn in E1.
    destruct (pending_tx_session n0); [|by injection E1 as <-]. unfold mbind, NM_bind, undo_session, change in E1. cbn in E1.
    by destruct (undo_stack n0) as [|[] ?]; injection E1 as <-. }
  exists n1. split; [done|]. split; [done|]. pose proof (idle_push_block b n1 (conj (proj1 (proj2 (proj2 C))) (proj1 (proj2 (proj2 (proj2 C)))))) as Hkeep.
  rewrite (without_pending_eq _ n0 n1 E1), T3, finally_cases in W. destruct (_push_block b n1) as [r n2|e n2|e]; [| |by rewrite W];
    destruct Hkeep as [K1 K2];
    (assert (Hok2 : pending_ok n2) by (unfold pending_ok; by rewrite K2));
    pose proof (restore_pending_outcome (pending_tx n) n2 Hok2 K1) as P;
    (assert (Hh : head_state n2 = chain n2 /\ head_history n2 = undo_stack n2)
       by (unfold head_state, head_history; by rewrite K2)); destruct Hh as [Hh1 Hh2]; rewrite Hh1, Hh2 in P;
    destruct (restore_pending (pending_tx n) n2) as [[] n3|e3 n3|e3]; [| |done| | |done];
    destruct W as (n' & -> & S); destruct (same_but_flags_state _ _ S) as (U1 & U2 & U3 & U4 & U5 & U6 & U7 & U8);
    destruct P as (P1 & P2 & P3 & P4 & P5);
    (split_and!; [by apply (same_but_flags_ok n3)|congruence..|]; intros t; rewrite U3; apply P5).
Qed.

(** ** A switch of forks that fails

    The tables a node can go back to: those of the chain, then those below the
    undo sessions, latest first. *)
Definition hist n : list db := map tables (chain n :: map snd (undo_stack n)).
Definition head_of s : hash160 := head_block_id (dgpo s).
Lemma hist_past n x : x ∈ hist n -> exists s, past n s /\ x = tables s.
Proof.
  unfold hist. intros (s & -> & Hs)%list_elem_of_fmap. exists s. split; [|done].
  apply elem_of_cons in Hs as [->|([r s'] & -> & Hin)%list_elem_of_fmap]; [by left|right; by exists r].
Qed.
Lemma hist_dropped n n' l : tables (chain n') = tables (chain n) -> undo_stack n = undo_stack n' ++ l ->
  exists d, hist n = hist n' ++ d.
Proof. intros E1 E2. exists (map tables (map snd l)). unfold hist. rewrite E2. cbn [map app]. by rewrite E1, !map_app. Qed.

Lemma pop_block_hist n u n' : pending_tx_session n = false -> pop_block n = Done u n' ->
  pending_tx_session n' = false /\ (hist n' = tail (hist n) \/ (undo_stack n = [] /\ hist n' = hist n)).
Proof.
  intros Hp H. apply pop_block_Done in H as (S & _ & _ & H); [|done]. split; [unfold still in S; by injection S as _ -> _|].
  unfold hist. destruct (undo_stack n) as [|[r old] rest]; destruct H as [E1 E2]; [right|left].
  - by rewrite E1, E2.
  - rewrite E2. cbn [map tail snd]. by rewrite E1.
Qed.
(** Popping stops at the first state whose head is the block asked for. *)
Lemma pop_until_hist fuel h n u n' : pending_tx_session n = false -> pop_until fuel h n = Done u n' ->
  exists k, hist n !! k = Some (tables (chain n')) /\ head_block_id_of n' = h /\
  forall j x, (j < k)%nat -> hist n !! j = Some x -> head_of x <> h.
Proof.
  revert n. induction fuel as [|fuel IH]; intros n Hp H; cbn [pop_until] in H;
    apply nbind_Done in H as (x & n1 & H1 & H); apply reads_Done in H1 as [-> ->];
    (case_bool_decide as E; [apply nret_Done in H as [_ ->]; exists 0%nat; split_and!; [done|done|lia]|]); [done|].
  apply nbind_Done in H as ([] & n1 & H1 & H). apply pop_block_hist in H1 as [Hp1 Hh]; [|done].
  apply IH in H as (k & Hk & Hn' & Hj); [|done]. destruct Hh as [Hh|[Hnil Hh]].
  - exists (S k). rewrite Hh in Hk. split; [by destruct (hist n)|]. split; [done|].
    intros [|j] x Hlt Hx; [by injection Hx as <-|]. apply (Hj j x); [lia|]. rewrite Hh. by destruct (hist n).
  - exists k. rewrite Hh in *. done.
Qed.
Lemma pop_until_Raised fuel h n e n' : pending_tx_session n = false -> pop_until fuel h n = Raised e n' ->
  tables (chain n') ∈ hist n.
Proof.
  revert n. induction fuel as [|fuel IH]; intros n Hp H; cbn [pop_until] in H;
    (apply nbind_Raised in H as [H|(x & n1 & H1 & H)]; [done|]); apply reads_Done in H1 as [-> ->];
    (case_bool_decide as E; [done|]); [injection H as _ <-; by left|].
  apply nbind_Raised in H as [H|([] & n1 & H1 & H)].
  - apply pop_block_Raised in H; [|done]. unfold core in H. injection H as H _ _ _ _ _ _. rewrite H. by left.
  - apply pop_block_hist in H1 as [Hp1 Hh]; [|done]. apply IH in H; [|done]. destruct Hh as [Hh|[_ Hh]]; rewrite Hh in H; [|done].
    unfold hist in *. by right.
Qed.

(** Applied items put the states they were applied on under the new ones. *)
Lemma apply_item_hist skip a n u n' : apply_item skip a n = Done u n' -> exists b d, block_at n a = Some b /\
  hist n' ++ d = tables (chain n') :: hist n /\ head_block_id_of n' = block_id b.
Proof.
  intros H. unfold apply_item in H. apply nbind_Done in H as (b & n1 & H1 & H). apply of_fork_Done in H1 as [H1 ->].
  apply item_block_at in H1. apply pushed_Done in H as (n0 & H & E1 & E2 & _). apply apply_block_Done in H as (H & _ & l & El).
  exists b, (map tables (map snd l)). split; [done|]. split.
  - unfold hist. rewrite E2 in El. cbn [map app]. f_equal. rewrite <- !map_app, <- El. done.
  - apply head_apply_block in H as [H _]. unfold head_view in H. by injection H as H _.
Qed.
Lemma apply_items_hist skip l n u n' : forM l (apply_item skip) n = Done u n' -> exists mids d,
  hist n' ++ d = mids ++ hist n /\ (mids = [] -> l = []) /\ (l = [] -> n' = n) /\
  forall x, x ∈ mids -> exists a b, a ∈ l /\ block_at n a = Some b /\ head_of x = block_id b.
Proof.
  revert n. induction l as [|a l IH]; intros n H; cbn [forM] in H.
  - apply nret_Done in H as [_ ->]. exists [], []. rewrite app_nil_r. split_and!; [done..|]. by intros x ?%not_elem_of_nil.
  - apply nbind_Done in H as ([] & n1 & H1 & H). pose proof (keepsN_Done fork_items _ _ _ _ (items_apply_item skip a) H1) as I.
    apply apply_item_hist in H1 as (b & d1 & Hb & Hd1 & Hh). apply IH in H as (mids & d & Hd & _ & _ & Hm).
    exists (mids ++ [tables (chain n1)]), (d ++ d1). rewrite <- app_assoc. cbn [app]. rewrite <- Hd1, !app_assoc, Hd.
    split; [done|]. split; [by destruct mids|]. split; [done|]. intros x [Hx| ->%list_elem_of_singleton]%elem_of_app.
    + destruct (Hm x Hx) as (a' & b' & Ha' & Hb' & E). exists a', b'. split; [by right|]. split; [|done].
      unfold block_at in *. by rewrite <- I.
    + exists a, b. split; [by left|]. by split.
Qed.
Lemma apply_item_Raised skip a n e n' : apply_item skip a n = Raised e n' ->
  tables (chain n') = tables (chain n) /\ exists l, undo_stack n = undo_stack n' ++ l.
Proof.
  intros H. unfold apply_item in H. apply nbind_Raised in H as [H|(b & n1 & H1 & H)].
  - apply of_fork_Raised in H as ->. split; [done|]. exists []. by rewrite app_nil_r.
  - apply of_fork_Done in H1 as [_ ->]. apply pushed_Raised in H as (E & _ & L); [done|apply apply_block_drops].
Qed.

(** Popping to the state that items were applied on ends there, when their blocks are others. *)
Lemma pop_back skip l n1 n2 n3 fuel u n4 : pending_tx_session n3 = false ->
  forM l (apply_item skip) n1 = Done tt n2 -> (exists d, hist n2 = hist n3 ++ d) ->
  pop_until fuel (head_block_id_of n1) n3 = Done u n4 ->
  (forall a b, a ∈ l -> block_at n1 a = Some b -> block_id b <> head_block_id_of n1) ->
  tables (chain n4) = tables (chain n1).
Proof.
  intros Hp Ha [d1 E1] Hpop Hne. apply apply_items_hist in Ha as (mids & d2 & E2 & _ & _ & Hm).
  apply pop_until_hist in Hpop as (k & Hk & Hh & Hj); [|done].
  assert (Hx : forall j x, hist n3 !! j = Some x -> (mids ++ hist n1) !! j = Some x).
  { intros j x H. rewrite <- E2, E1, <- app_assoc. by apply lookup_app_l_Some. }
  pose proof (Hx _ _ Hk) as Hk'.
  assert (Hlt : (k < length (hist n3))%nat) by (by eapply lookup_lt_Some).
  destruct (Nat.lt_trichotomy k (length mids)) as [Hc|[Hc|Hc]].
  - rewrite lookup_app_l in Hk' by done. apply list_elem_of_lookup_2, Hm in Hk' as (a & b & Hal & Hb & E).
    destruct (Hne a b Hal Hb). rewrite <- E. exact Hh.
  - subst k. rewrite lookup_app_r, Nat.sub_diag in Hk' by lia. by apply (inj Some) in Hk'.
  - destruct (lookup_lt_is_Some_2 (hist n3) (length mids)) as [x Hx']; [lia|].
    destruct (Hj (length mids) x Hc Hx'). specialize (Hx _ _ Hx'). rewrite lookup_app_r, Nat.sub_diag in Hx by lia.
    by apply (inj Some) in Hx as <-.
Qed.

(** *** What fails, and what is done then *)
Lemma push_branch_Raised skip todo old anc n e n' : push_branch skip todo old anc n = Raised e n' -> e <> crash ->
  exists good a bad n1 e0 n2, todo = good ++ a :: bad /\ forM good (apply_item skip) n = Done tt n1 /\
  apply_item skip a n1 = Raised e0 n2 /\
  ((restore_branch skip (a :: bad) old anc n2 = Done tt n' /\ e = e0) \/
   restore_branch skip (a :: bad) old anc n2 = Raised e n').
Proof.
  intros H He. revert n H. induction todo as [|a todo IH]; intros n H; [done|]. cbn [push_branch] in H.
  apply nbind_Raised in H as [H|(r & n1 & H1 & H)]; unfold try in *;
    destruct ((apply_item skip a ;; mret None) n) as [x n2|e2 n2|e2] eqn:E; try done.
  - case_bool_decide; [|done]. injection H as -> ->. congruence.
  - injection H1 as -> ->. apply nbind_Done in E as ([] & n3 & E & [-> ->]%nret_Done).
    apply IH in H as (good & a' & bad & n4 & e0 & n5 & -> & Hg & Hrest). exists (a :: good), a', bad, n4, e0, n5.
    split; [done|]. split; [|done]. cbn [forM]. apply nbind_Done. by exists tt, n3.
  - case_bool_decide; [done|]. injection H1 as <- <-. exists [], a, todo, n, e2, n2. split; [done|]. split; [done|].
    split; [apply nbind_Raised in E as [E|(? & ? & _ & E)]; done|].
    apply nbind_Raised in H as [H|([] & n3 & H1 & H)]; [by right|left]. by injection H as <- <-.
Qed.

(** *** What stays out of the index *)
Definition fork_index n := _index (fork_db n).
Definition avoids (x : nat) n : Prop := x ∉ fork_index n.
Lemma avoids_keeps {A} x (m : NM T A) : keepsN fork_index m -> keepsP (avoids x) m.
Proof.
  intros Hm n H. specialize (Hm n). unfold avoids in *. destruct (m n) as [a n'|e n'|e]; [by rewrite Hm..|done].
Qed.
Lemma avoids_part {A} x (m : FDB A) : (forall d a d', m d = Ok (a, d') -> forall y, y ∈ _index d' -> y ∈ _index d) ->
  keepsP (avoids x) (on_fork m).
Proof.
  intros Hm n H. unfold on_part. destruct (m (fork_db n)) as [[a d]|e] eqn:E; [|done].
  intros Hx. apply H. by apply (Hm _ _ _ E).
Qed.
Lemma index_set_max_size k d u d' : set_max_size k d = Ok (u, d') -> forall y, y ∈ _index d' -> y ∈ _index d.
Proof.
  unfold set_max_size. cbv zeta. destruct (_head _); [|by intros [= _ <-]].
  intros H. apply rbind_Ok in H as (? & _ & [= _ <-]). cbn. intros y [Hy _]%elem_of_filter_bool. exact Hy.
Qed.
Lemma avoids_apply_block x b skip : keepsP (avoids x) (apply_block b skip).
Proof.
  assert (C : forall A (m : NM T A), keepsN fork_index m -> keepsP (avoids x) m) by (intros; by apply avoids_keeps).
  unfold apply_block, with_flags, _apply_block, settle_irreversible, log_and_trim, log_irreversible, commit.
  repeat match goal with
    | |- keepsP _ (mbind _ _) => apply keepsP_bind; [|intros ?]
    | |- keepsP _ (finally _ _) => apply keepsP_finally
    | |- keepsP _ (forM _ _) => apply keepsP_forM; intros ?
    | |- keepsP _ (whenM ?x _) => destruct x; cbn [whenM]
    | |- keepsP _ (match ?x with _ => _ end) => destruct x
    | |- keepsP _ (on_fork (set_max_size _)) => apply avoids_part; intros ? ? ?; apply index_set_max_size
    | |- keepsP _ _ => solve [apply C; keepsN]
    end.
Qed.
Lemma keepsP_in_session P (m c : NM T unit) : keepsP P start_session -> keepsP P undo_session -> keepsP P m -> keepsP P c ->
  keepsP P (in_session m c).
Proof.
  intros Hs Hu Hm Hc n Hn. unfold in_session. pose proof (keepsP_bind P start_session (fun _ => m) Hs (fun _ => Hm) n Hn) as K.
  destruct ((start_session ;; m) n) as [u n1|e n1|e]; [by apply Hc| |done]. destruct (on_top _ n1); [|done].
  apply (keepsP_bind P undo_session (fun _ => mthrow e : NM T unit) Hu); [|done]. by intros _ n2.
Qed.
Lemma avoids_apply_item x skip a : keepsP (avoids x) (apply_item skip a).
Proof.
  unfold apply_item, pushed. apply keepsP_bind; [apply avoids_keeps, keepsN_of_fork|]. intros b.
  apply keepsP_in_session; [by apply avoids_keeps, keepsN_start|by apply avoids_keeps, keepsN_undo|apply avoids_apply_block|by intros n].
Qed.
Lemma avoids_pop_until x fuel h : keepsP (avoids x) (pop_until fuel h).
Proof.
  assert (U : keepsP (avoids x) undo_session) by (by apply avoids_keeps, keepsN_undo).
  induction fuel as [|fuel IH]; cbn [pop_until]; (apply keepsP_bind; [by intros n|]); intros y; case_bool_decide; try by intros n.
  apply keepsP_bind; [|done]. unfold pop_block. apply keepsP_bind.
  - intros n Hn. unfold reset_pending_session. destruct (pending_tx_session n); [|done].
    apply (keepsP_bind (avoids x) undo_session (fun _ => change _) U); [|done]. by intros _ n1.
  - intros _. apply keepsP_bind; [by intros n|]. intros z. apply keepsP_bind; [apply avoids_keeps; unfold fetch_block_by_id; keepsN|].
    intros [b|]; [|by intros n]. apply keepsP_bind.
    { apply avoids_part. by intros d v d' (p & q & _ & _ & ->)%fork_pop_block_Ok. }
    intros _. apply keepsP_bind; [done|]. by intros _ n.
Qed.
Lemma remove_item_avoids x n u n' : (forall i, fork_items n !! x = Some i -> id i = block_id (item_data i)) ->
  remove_item x n = Done u n' -> avoids x n'.
Proof.
  intros Hid H. unfold remove_item in H. apply nbind_Done in H as (b & n1 & H1 & H). apply of_fork_Done in H1 as [Hb ->].
  apply item_block_at in Hb. apply on_part_Done in H as (d & H & ->). apply puts_Ok in H as [_ ->].
  unfold avoids, fork_index. cbn. intros [_ Hx]%elem_of_filter_bool. unfold block_at in Hb. apply negb_true_iff in Hx.
  destruct (fork_items n !! x) as [i|] eqn:Ei; [|done]. injection Hb as <-.
  rewrite (proj2 (has_id_true (fork_db n) _ x)) in Hx; [done|]. exists i. split; [exact Ei|by apply Hid].
Qed.
Lemma remove_items_avoid l x n u n' : (forall y i, fork_items n !! y = Some i -> id i = block_id (item_data i)) ->
  forM l remove_item n = Done u n' -> x ∈ l -> avoids x n'.
Proof.
  revert n. induction l as [|a l IH]; intros n Hid H Hx; [by apply not_elem_of_nil in Hx|]. cbn [forM] in H.
  apply nbind_Done in H as ([] & n1 & H1 & H).
  assert (I : fork_items n1 = fork_items n).
  { refine (keepsN_Done fork_items _ _ _ _ _ H1). unfold remove_item. keepsN. }
  destruct (decide (x ∈ l)) as [Hl|Hl]; [apply (IH n1); [by rewrite I|done|done]|].
  apply elem_of_cons in Hx as [->|Hx]; [|done]. apply remove_item_avoids in H1; [|apply Hid].
  assert (K : keepsP (avoids a) (forM l remove_item : NM T unit)).
  { apply keepsP_forM. intros y. unfold remove_item. apply keepsP_bind; [apply avoids_keeps, keepsN_of_fork|]. intros b.
    apply avoids_part. intros d v d' [_ ->]%puts_Ok z. cbn. by intros [Hz _]%elem_of_filter_bool. }
  specialize (K n1 H1). by rewrite H in K.
Qed.

(** The old branch comes back on the state that the new one was tried on, and what was left
    of the new one is gone. *)
Lemma restore_branch_back skip good a bad old n n1 e0 n2 u n' : pending_tx_session n = false ->
  (forall y i, fork_items n !! y = Some i -> id i = block_id (item_data i)) ->
  (forall y b, y ∈ good -> block_at n y = Some b -> block_id b <> head_block_id_of n) ->
  forM good (apply_item skip) n = Done tt n1 -> apply_item skip a n1 = Raised e0 n2 ->
  restore_branch skip bad old (head_block_id_of n) n2 = Done u n' ->
  still n' = still n /\ (forall x, x ∈ bad -> x ∉ _index (fork_db n')) /\
  exists bs, blocks_at n (rev old) = Some bs /\ replayed (checkpoints n) (chain n) bs (chain n').
Proof.
  intros Hp Hid Hne Hg Ha H.
  pose proof (apply_items_Done _ _ _ _ _ Hg) as (_ & _ & _ & S1 & I1).
  pose proof (keepsN_Raised still _ _ _ _ (still_apply_item skip a) Ha) as S2.
  pose proof (keepsN_Raised fork_items _ _ _ _ (items_apply_item skip a) Ha) as I2.
  unfold restore_branch in H. apply nbind_Done in H as ([] & n3 & H3 & H).
  pose proof (fun x => remove_items_avoid bad x _ _ _ ltac:(rewrite I2, I1; exact Hid) H3) as Hav.
  pose proof (keepsN_Done fork_items _ _ _ _ (items_remove_items bad) H3) as I3.
  assert (K3 : core n3 = core n2) by (refine (keepsN_Done core _ _ _ _ _ H3); unfold remove_item; keepsN).
  apply nbind_Done in H as ([] & n4 & H4 & H). destruct (head old) as [front|]; [|done].
  apply on_part_Done in H4 as (d & H4 & E4). apply puts_Ok in H4 as [_ ->].
  assert (K4 : chain n4 = chain n2 /\ undo_stack n4 = undo_stack n2 /\ still n4 = still n /\ fork_items n4 = fork_items n /\
    fork_index n4 = fork_index n3).
  { rewrite E4. unfold core in K3. injection K3 as C1 C2 C3 C4 C5 C6 C7. unfold still in *.
    split; [exact C1|]. split; [exact C2|]. split; [cbn; congruence|]. split; [|done].
    transitivity (fork_items n3); [done|congruence]. }
  clear E4. destruct K4 as (C1 & C2 & S4 & I4 & X4).
  assert (Hp4 : pending_tx_session n4 = false) by (unfold still in S4; injection S4 as _ -> _; done).
  apply nbind_Done in H as ([] & n5 & H5 & H).
  assert (Et : tables (chain n5) = tables (chain n)).
  { refine (pop_back skip good n n1 n4 _ tt n5 Hp4 Hg _ H5 Hne).
    destruct (apply_item_Raised _ _ _ _ _ Ha) as [Et [l El]]. apply (hist_dropped n1 n4 l); congruence. }
  pose proof (pop_until_Done _ _ _ _ _ Hp4 H5) as (S5 & I5 & _).
  pose proof (apply_items_Done _ _ _ _ _ H) as (bs & Hbs & R & S6 & _).
  split; [congruence|]. split.
  - intros x Hx. assert (A4 : avoids x n4) by (unfold avoids; rewrite X4; by apply Hav).
    pose proof (avoids_pop_until x (S (length (items (fork_db n4)))) (head_block_id_of n) n4 A4) as A.
    unfold pop_to in H5. rewrite H5 in A.
    pose proof (keepsP_forM (avoids x) (rev old) (apply_item skip) (avoids_apply_item x skip) n5 A) as A'. by rewrite H in A'.
  - exists bs. assert (E5 : still n5 = still n) by congruence. unfold still in E5. injection E5 as _ _ Ec. rewrite Ec in R.
    split; [by rewrite <- (blocks_at_ext n n5) by congruence|].
    apply (replayed_app _ _ [] (chain n5) bs); [by constructor|exact R].
Qed.

(** The blocks of the new branch come after the common predecessor. *)
Lemma branch_ids_differ d a1 a2 l1 l2 c x i : fork_ok d -> fork_at d a1 a2 l1 l2 -> last l2 = Some c ->
  x ∈ l1 -> items d !! x = Some i -> block_id (item_data i) <> previous_of d c.
Proof.
  intros Hok (k1 & c1 & k2 & c2 & -> & -> & B1 & B2 & Ec & _) Hl Hx Hi E. rewrite last_snoc in Hl. injection Hl as <-.
  destruct (branch_valid _ _ _ _ B1) as [_ [j1 Hj1]].
  destruct (item_block_ok d c1 j1 Hok Hj1) as (_ & N1 & P1). destruct (item_block_ok d x i Hok Hi) as (_ & Nx & _).
  assert (Hle : num_of d c1 <= num_of d x).
  { apply elem_of_app in Hx as [Hx|Hx%list_elem_of_singleton]; [|subst; lia].
    destruct (branch_num d a1 k1 c1 Hok B1) as [_ Hb]. specialize (Hb x Hx). lia. }
  apply (f_equal num_from_id) in E. rewrite block_num_of_id, <- Ec, P1 in E.
  destruct (ok_items d Hok c1 j1 Hj1) as (Hn1 & _ & _ & Hge & _). rewrite Hn1 in Hge.
  unfold block_num in N1 at 1. unfold block_num in Hge. rewrite <- E, <- Nx in N1, Hge.
  assert (Hr : 0 <= num_of d x < 2^32) by (rewrite Nx; apply u32_range). unfold u32 in N1, Hge.
  destruct (Z.eq_dec (num_of d x + 1) (2^32)) as [Ez|Ez]; [rewrite Ez, Z.mod_same in Hge by done; lia|].
  rewrite Z.mod_small in N1 by lia. lia.
Qed.

(** ** A session that is gone before its block fails *)
Definition unbroken {A} (m : NM T A) : Prop := forall n e, m n <> Broken e.
Lemma unbroken_bind {A B} (m : NM T A) (k : A -> NM T B) : unbroken m -> (forall a, unbroken (k a)) -> unbroken (mbind k m).
Proof. intros Hm Hk n e. unfold mbind, NM_bind. specialize (Hm n). destruct (m n); [apply Hk|done|by intros [= ->]; apply (Hm e)]. Qed.
Lemma unbroken_part {S A} (proj : node T -> S) `{!Settable proj} (m : ST S A) : unbroken (on_part proj m).
Proof. intros n e. unfold on_part. by destruct (m (proj n)) as [[]|]. Qed.
Lemma unbroken_finally {A} (m : NM T A) c : unbroken m -> unbroken c -> unbroken (finally m c).
Proof.
  intros Hm Hc n e. rewrite finally_cases. specialize (Hm n).
  destruct (m n) as [a n1|e1 n1|e1]; [| |by destruct (Hm e1)]; specialize (Hc n1);
    by destruct (c n1) as [| |e2]; [| |destruct (Hc e2)].
Qed.
Lemma unbroken_forM {A} (l : list A) (k : A -> NM T unit) : (forall a, unbroken (k a)) -> unbroken (forM l k).
Proof. intros Hk. induction l as [|a l IH]; [by intros n e|]. cbn [forM]. by apply unbroken_bind. Qed.
Ltac unbroken := repeat match goal with
  | |- unbroken (mbind _ _) => apply unbroken_bind; [|intros ?]
  | |- unbroken (finally _ _) => apply unbroken_finally
  | |- unbroken (forM _ _) => apply unbroken_forM; intros ?
  | |- unbroken (whenM ?x _) => destruct x; cbn [whenM]
  | |- unbroken (match ?x with _ => _ end) => destruct x
  | |- unbroken (on_part _ _) => apply unbroken_part
  | |- unbroken (of_fork _) => apply unbroken_part
  | |- unbroken _ => solve [intros ? ?; done]
  end.
Lemma unbroken_apply_block b skip : unbroken (apply_block b skip).
Proof. unfold apply_block, with_flags, _apply_block, settle_irreversible, log_and_trim, log_irreversible, commit. unbroken. Qed.

(** What a block does before [update_last_irreversible_block] drops sessions *)
Definition until_irreversible b (skip : Z) : DB unit :=
  open_block b skip ;;
  forM (blk_transactions b) (fun t => apply_transaction t skip) ;;
  advance_block b (block_witness b).
Definition settled_sessions b s (l l' : list (Z * db)) : Prop := l' = l \/
  exists s1, until_irreversible b (skip_flags s) s = Ok (tt, s1) /\
    l' = rev (drop_committed (last_irreversible_block_num (dgpo s1)) (rev l)).

Lemma settle_sessions n : match settle_irreversible n with
  | Done _ n' | Raised _ n' => undo_stack n' = rev (drop_committed (last_irreversible_block_num (dgpo (chain n))) (rev (undo_stack n)))
  | Broken _ => True end.
Proof.
  pose proof (keepsN_log_and_trim (head_block_number (dgpo (chain n))) (last_irreversible_block_num (dgpo (chain n)))
    (n <| undo_stack ::= fun l => rev (drop_committed (last_irreversible_block_num (dgpo (chain n))) (rev l)) |>)) as K.
  unfold settle_irreversible, mbind, NM_bind, reads, commit, change.
  destruct (log_and_trim _ _ _); [| |done]; unfold core in K; by injection K as _ K _ _ _ _ _.
Qed.
Lemma _apply_block_sessions b n : match _apply_block b n with
  | Done _ n' | Raised _ n' => settled_sessions b (chain n) (undo_stack n) (undo_stack n')
  | Broken _ => True end.
Proof.
  unfold _apply_block. unfold mbind at 1, NM_bind at 1, reads. fold (until_irreversible b (skip_flags (chain n))).
  set (body := until_irreversible _ _). unfold mbind at 1, NM_bind at 1.
  destruct (on_chain body n) as [[] n1|e n1|e] eqn:E1; [|by apply on_chain_Raised in E1 as [_ ->]; left|done].
  apply on_chain_Done in E1 as [E1 A1]. apply aside_eq in A1 as (A1 & _). unfold mbind, NM_bind.
  pose proof (settle_sessions n1) as S. rewrite A1 in S.
  assert (R : forall n', undo_stack n' = rev (drop_committed (last_irreversible_block_num (dgpo (chain n1))) (rev (undo_stack n))) ->
    settled_sessions b (chain n) (undo_stack n) (undo_stack n')) by (intros n' E; right; by exists (chain n1)).
  destruct (settle_irreversible n1) as [[] n2|e n2|e]; [|by apply R|done].
  destruct (on_chain (close_block b) n2) as [[] n3|e n3|e] eqn:E3; [| |done].
  - apply on_chain_Done in E3 as [_ A3]. apply aside_eq in A3 as (A3 & _). apply R. congruence.
  - apply on_chain_Raised in E3 as [_ ->]. by apply R.
Qed.
Lemma apply_block_sessions b skip n e n' : apply_block b skip n = Raised e n' -> exists k,
  settled_sessions b ((chain n) <| skip_flags := k |>) (undo_stack n) (undo_stack n').
Proof.
  intros H. unfold apply_block in H. apply nbind_Raised in H as [H|(cps & n1 & H1 & H)]; [done|]. apply reads_Done in H1 as [-> ->].
  apply nbind_Raised in H as [H|(k & n1 & H1 & H)]; [apply on_chain_Raised in H as [_ ->]; exists 0; by left|].
  apply on_chain_Done in H1 as [H1 A1]. apply lift_Ok in H1 as [_ E1]. apply aside_eq in A1 as (A1 & _). exists k.
  destruct (with_flags_outcome k (_apply_block b) n1) as (m1 & M1 & M2 & M). apply aside_eq in M2 as (M2 & _).
  pose proof (_apply_block_sessions b m1) as S. rewrite M1, M2, A1, E1 in S.
  apply nbind_Raised in H as [H|([] & n2 & H2 & H)].
  - destruct (_apply_block b m1) as [? m2|? m2|] eqn:Em; [destruct M as (? & M & _); by rewrite M in H| |by rewrite M in H].
    destruct M as (n2' & M & _ & M4). rewrite M in H. injection H as -> <-. apply aside_eq in M4 as (-> & _). exact S.
  - destruct (_apply_block b m1) as [[] m2|? m2|] eqn:Em; [|destruct M as (? & M & _); by rewrite M in H2|by rewrite M in H2].
    destruct M as (n2' & M & _ & M4). rewrite M in H2. injection H2 as <-. apply aside_eq in M4 as (M4 & _). rewrite <- M4 in S.
    apply nbind_Raised in H as [H|(pr & n3 & H3 & H)]; [by apply on_chain_Raised in H as [_ ->]|].
    apply on_chain_Done in H3 as [_ A3]. apply aside_eq in A3 as (A3 & _). rewrite <- A3 in S. unfold whenM in H.
    destruct (_ || _); [|done]. by apply on_chain_Raised in H as [_ ->].
Qed.
(** A session is dropped only when the irreversible block number has reached its revision. *)
Lemma dropped_session k r s l : (forall rest, rev (drop_committed k (rev ((r, s) :: l))) <> (r, s) :: rest) -> r <= k.
Proof.
  intros H. destruct (Z.le_gt_cases r k) as [|Hk]; [done|exfalso]. cbn [rev] in H.
  assert (E : exists x, drop_committed k (rev l ++ [(r, s)]) = x ++ [(r, s)]).
  { clear H. induction (rev l) as [|[r' s'] l' [x E]]; cbn [drop_committed app].
    - exists []. by rewrite (proj2 (Z.leb_gt _ _) Hk).
    - destruct (r' <=? k); [by exists x|by exists ((r', s') :: l')]. }
  destruct E as [x E]. apply (H (rev x)). rewrite E. by rewrite rev_unit.
Qed.
Lemma pushed_Broken b skip n e : pushed (apply_block b skip) n = Broken e -> exists k s,
  until_irreversible b k ((chain n) <| skip_flags := k |>) = Ok (tt, s) /\
  revision n + 1 <= last_irreversible_block_num (dgpo s).
Proof.
  intros H. unfold pushed, in_session in H. destruct (start_session_Done n) as (n0 & E & E1 & E2 & _).
  unfold mbind, NM_bind in H. rewrite E in H.
  destruct (apply_block b skip n0) as [[] n1|e1 n1|e1] eqn:Ea; [done| |by destruct (unbroken_apply_block b skip n0 e1 Ea)].
  destruct (on_top (revision n + 1) n1) eqn:Et; [unfold undo_session, change, mthrow, NM_throw in H; done|].
  apply apply_block_sessions in Ea as (k & Hs). rewrite E1, E2 in Hs. unfold on_top in Et.
  destruct Hs as [Hs|(s & Hs & Hl)].
  - rewrite Hs, Z.eqb_refl in Et. done.
  - exists k, s. split; [exact Hs|]. apply (dropped_session _ _ (chain n) (undo_stack n)). intros rest Hr.
    rewrite Hl, Hr, Z.eqb_refl in Et. done.
Qed.
End pending.
