(* ===== verification/Examples.v ===== *)
(** * Examples: concrete instances of the parameters and concrete states, at which
    the theorems are applied. *)
From Stdlib Require Import String.
From S2P Require Import Prelude Safe Names Asset Version Config Authority Raw Operations Validate.
From S2P Require Import Objects State Frame Economics Votes Money Balance EvalWitness EvalAccount.
From S2P Require Import EvalTransfer EvalEscrow EvalVote EvalContent Evaluators Block SignState.
From S2P Require Import Transactions WitnessSchedule Periodic Hardforks Blocks Supply Genesis.
Local Open Scope Z_scope.
Local Open Scope list_scope.

(** Injective stand-ins for the hashes: pairs and lists are encoded as numbers. *)
Definition encode_Z {A} `{Countable A} (a : A) : Z := Zpos (encode a).
#[export] Instance example_crypto : crypto := {|
  sha224_header b := Hash160 0 (timestamp b) (Z.of_nat (length (blk_transactions b))) 0 7;
  sha256_header b := timestamp b;
  sha256_transaction t := expiration t;
  sha256_signed_transaction t := encode_Z (ref_block_num t, expiration t, signatures t);
  sha256_sig chain t := chain + expiration t;
  sha256_pair a b := encode_Z (a, b);
  ripemd160_digest d := Hash160 d 0 0 0 0;
  truncate_digest d := Hash160 d 1 0 0 0;
  recover_key sig _ _ := if sig <? 0 then Throw assert_exception else Ok sig;
  pack_transaction t := [expiration t];
  pack_size_operation _ := 100;
  pack_size_block b := 200 + 100 * Z.of_nat (length (blk_transactions b)) |}.
#[export] Instance example_externals : externals := {|
  ripemd160_hash bs := take 20 (bs ++ repeat 0 20) |}.
#[export] Instance example_interpreters : interpreters := fun _ => None.
#[export] Existing Instance mainnet.

Lemma encode_Z_inj {A} `{Countable A} (a b : A) : encode_Z a = encode_Z b -> a = b.
Proof. intros H1. by injection H1 as H2%(inj encode). Qed.

(** The live network with two more accounts. *)
Definition alice : account_name_type := Eval vm_compute in name_of "alice".
Definition bob : account_name_type := Eval vm_compute in name_of "bob".
Definition example_genesis : genesis_state_type :=
  let d := default_genesis in {|
  initial_public_key := initial_public_key d;
  initial_public_mining_key := initial_public_mining_key d;
  initial_balace := initial_balace d;
  initial_supply := initial_supply d;
  total_supply := total_supply d;
  max_witnesses := max_witnesses d;
  hardfork_req_witnesses := hardfork_req_witnesses d;
  max_voted_witnesses := max_voted_witnesses d;
  max_runner_witnesses := max_runner_witnesses d;
  max_account_witness_votes := max_account_witness_votes d;
  initial_witness_req_vesting_balance := initial_witness_req_vesting_balance d;
  final_witness_req_vesting_balance := final_witness_req_vesting_balance d;
  witness_vesting_increase_days := witness_vesting_increase_days d;
  block_interval := block_interval d;
  max_transaction_size := max_transaction_size d;
  max_block_size := max_block_size d;
  promotion_pool_percentage := promotion_pool_percentage d;
  mining_pool_percentage := mining_pool_percentage d;
  interest_pool_percentage := interest_pool_percentage d;
  burn_fee_percentage := burn_fee_percentage d;
  coinbase_years := coinbase_years d;
  min_acc_creation_fee := min_acc_creation_fee d;
  base_fee := base_fee d;
  base_fee_usd := base_fee_usd d;
  base_fee_eur := base_fee_eur d;
  base_fee_chf := base_fee_chf d;
  base_fee_cny := base_fee_cny d;
  base_fee_gbp := base_fee_gbp d;
  gen_symbol := gen_symbol d;
  limit_bandwidth_blocks := limit_bandwidth_blocks d;
  max_allowed_bandwidth := max_allowed_bandwidth d;
  max_allowed_ops := max_allowed_ops d;
  initial_chain_id := initial_chain_id d;
  genesis_time := genesis_time d;
  Config.is_private_net := false;
  initial_accounts := [InitialAccount alice 11 1000000000000; InitialAccount bob 12 1000000000000] |}.
Definition example_state : db :=
  match init_genesis example_genesis 5 empty_db with Ok (_, s) => s | Throw _ => empty_db end.

(** The first block: alice pays bob, vests coins and opens an escrow. *)
Definition sphtx (n : Z) : asset := Asset n SOPHIATX_SYMBOL_U64.
Definition example_transfer : operation := op_transfer {|
  tr_fee := sphtx 10000; tr_from := alice; tr_to := bob; tr_amount := sphtx 5000000; tr_memo := [] |}.
Definition example_vesting : operation := op_transfer_to_vesting {|
  tv_fee := sphtx 10000; tv_from := alice; tv_to := alice; tv_amount := sphtx 300000000000 |}.
Definition example_escrow : operation := op_escrow_transfer {|
  et_fee := sphtx 10000; et_from := alice; et_to := bob; et_agent := SOPHIATX_INIT_MINER_NAME;
  et_escrow_id := 1; et_sophiatx_amount := sphtx 2000000; et_escrow_fee := sphtx 1000;
  et_ratification_deadline := 1531512900; et_escrow_expiration := 1531513000; et_json_meta := [] |}.
Definition example_transaction (expires : Z) (ops : list operation) : signed_transaction :=
  SignedTransaction 0 0 expires ops [11].
Definition example_transactions : list signed_transaction :=
  [example_transaction 1531512900 [example_transfer; example_vesting];
   example_transaction 1531512901 [example_escrow]].
Definition example_block : signed_block :=
  let b := {| previous := null_hash; timestamp := 1531512803; blk_witness := bytes_of_string "initminer";
              transaction_merkle_root := null_hash; extensions := [ext_version SOPHIATX_BLOCKCHAIN_VERSION];
              witness_signature := 1; blk_transactions := example_transactions |} in
  b <| transaction_merkle_root := calculate_merkle_root b |>.
Definition example_state1 : db :=
  match apply_block [] example_block 0 example_state with Ok (_, s) => s | Throw _ => empty_db end.

Lemma example_state_Ok : init_genesis example_genesis 5 empty_db = Ok (tt, example_state).
Proof.
  unfold example_state. assert (H : is_ok (init_genesis example_genesis 5 empty_db) = true) by (vm_compute; reflexivity).
  by destruct (init_genesis _ _ _) as [[[] s]|].
Qed.
Lemma example_state1_Ok : apply_block [] example_block 0 example_state = Ok (tt, example_state1).
Proof.
  unfold example_state1. assert (H : is_ok (apply_block [] example_block 0 example_state) = true) by (vm_compute; reflexivity).
  by destruct (apply_block _ _ _ _) as [[[] s]|].
Qed.
Lemma example_sound : sound example_state.
Proof.
  apply sound_sound_upto. pose proof (init_genesis_upto _ _ _ _ example_state_Ok) as H.
  assert (E : SOPHIATX_TOTAL_SUPPLY - coinbase_rounding (SOPHIATX_TOTAL_SUPPLY - amount (current_supply (dgpo example_state)))
    = SOPHIATX_TOTAL_SUPPLY) by (vm_compute; reflexivity).
  rewrite <- E. apply H; vm_compute; intuition congruence.
Qed.
