(* ===== verification/NodeTheorems.v ===== *)
(** * Theorems about the fork database, the block log and the node. *)
From Stdlib Require Import String.
From S2P Require Import Prelude Safe Names Asset Version Config Authority Raw Operations Validate.
From S2P Require Import Objects State Frame Economics Votes Money Balance EvalWitness EvalAccount.
From S2P Require Import EvalTransfer EvalEscrow EvalVote EvalContent Evaluators Block SignState.
From S2P Require Import Transactions WitnessSchedule Periodic Hardforks Blocks Supply Genesis ForkDb.
From S2P Require Import BlockLog Node NodeFacts Pending Examples.
Local Open Scope Z_scope.
Local Open Scope list_scope.

(** ** The fork database *)

(** [fetch_branch_from] returns exactly the two branches that lead from the two
    blocks down to the first blocks with the same predecessor, no two blocks passed
    before sharing one; it throws only when a block is unknown or a link is cut. *)
Theorem fetch_branch_exact (cr : crypto) d h1 h2 l1 l2 : fork_ok d ->
  fetch_branch_from d h1 h2 = Ok (l1, l2) <->
  exists a1 a2, find_id d (_index d) h1 = Some a1 /\ find_id d (_index d) h2 = Some a2 /\ fork_at d a1 a2 l1 l2.
Proof. apply fetch_branch_from_spec. Qed.

(** Pushing a block keeps the tree well formed, and the head returned is an item
    of the greatest number: the new block when it is higher than the head, the old
    head otherwise. *)
Theorem push_block_longest (cr : crypto) d b a d' : fork_ok d -> head_highest d ->
  (_head d = None -> 1 <= block_num b /\ _index d = []) -> fork_push_block b d = Ok (a, d') ->
  fork_ok d' /\ head_highest d' /\ _head d' = Some a /\ fork_is_known_block d' (block_id b) = true /\
  (forall h hi, _head d = Some h -> items d !! h = Some hi ->
     if block_num b >? num hi then exists i, items d' !! a = Some i /\ item_data i = b else a = h).
Proof.
  intros Hok Hmax Hb H. assert (Hb1 : _head d = None -> 1 <= block_num b) by (intros E; apply (Hb E)).
  pose proof (fork_push_block_ok d b a d' Hok Hb1 H) as Hok'.
  destruct (fork_push_block_Ok d b a d' Hok Hb1 H) as (i & Hi & Hdat & Hid & Hnum & Hh & Ha & E).
  assert (Eit : items d' = items (stored d i)) by (by rewrite E). assert (Eix : _index d' = _index (stored d i)) by (by rewrite E).
  split; [done|]. split; [|split; [done|split]].
  - intros h hi x j Hh' Hhi Hx Hj. rewrite Hh in Hh'. injection Hh' as <-. rewrite Eit in *. rewrite Eix in Hx.
    assert (Hle : forall y yi, y ∈ _index d -> items d !! y = Some yi -> num yi <= num hi).
    { intros y yi Hy Hyi. destruct (_head d) as [h|] eqn:Eh.
      - destruct Ha as (hi0 & Hhi0 & Ha). pose proof (Hmax h hi0 y yi Eh Hhi0 Hy Hyi). destruct (_ >? _) eqn:G; bool_simpl; subst a.
        + rewrite stored_item in Hhi. injection Hhi as <-. lia.
        + rewrite (stored_old d i h hi0 Hhi0) in Hhi. injection Hhi as <-. done.
      - destruct (Hb eq_refl) as [_ Hnil]. rewrite Hnil in Hy. by apply not_elem_of_nil in Hy. }
    apply stored_index in Hx as [Hx|Hx].
    + destruct (ok_index d Hok x Hx) as [j' Hj']. rewrite (stored_old d i x j' Hj') in Hj. injection Hj as <-. by apply (Hle x).
    + subst x. rewrite stored_item in Hj. injection Hj as <-. destruct (_head d) as [h|] eqn:Eh.
      * destruct Ha as (hi0 & Hhi0 & Ha). destruct (_ >? _) eqn:G; bool_simpl; subst a.
        -- rewrite stored_item in Hhi. by injection Hhi as <-.
        -- rewrite (stored_old d i h hi0 Hhi0) in Hhi. injection Hhi as <-. lia.
      * subst a. rewrite stored_item in Hhi. by injection Hhi as <-.
  - unfold fork_is_known_block. destruct (stored_known d i) as (x & Hx & j & Hj & Ej).
    rewrite (find_id_ok d' (block_id b) x j); [done|done|by rewrite Eix|by rewrite Eit|congruence].
  - intros h hi Eh Hhi. rewrite Eh in Ha. destruct Ha as (hi0 & Hhi0 & ->). rewrite Hhi in Hhi0. injection Hhi0 as <-.
    destruct (_ >? _); [|done]. exists i. by rewrite Eit, stored_item.
Qed.

(** ** The block log *)
Section log.
  Context {cr : crypto} {pk : block_packing}.

(** C20: the two files are a list of blocks: reading by number finds the block at that
    place and nothing else, appending the next block adds it at the end, and a block
    of another number is refused before anything is written. *)
Theorem block_log_refines_list l bs : log_ok l bs ->
  (forall n, 0 <= n < 2^32 -> exists l',
     read_block_by_num n l = Ok (if n =? 0 then None else bs !! Z.to_nat (n - 1), l') /\ log_ok l' bs) /\
  (forall b, packable b -> file_len (bs ++ [b]) < 2^63 -> Z.of_nat (length bs) < 2^32 - 1 -> 1 <= block_num b ->
     if block_num b =? Z.of_nat (length bs) + 1
     then exists l', append b l = Ok (file_len bs, l') /\ log_ok l' (bs ++ [b])
     else append b l = Throw assert_exception).
Proof.
  intros Hok. split; [intros n; by apply read_block_by_num_spec|]. intros b H1 H2 H3 H4. by apply append_spec.
Qed.

(** Opening a log of two blocks or more builds an index that is missing, or ends
    differently from the block file, again from the block file; a right one is kept. *)
Theorem index_is_rebuilt l bs b : bs <> [] -> block_bytes l = block_file 0 (bs ++ [b]) -> numbered (bs ++ [b]) ->
  Forall packable (bs ++ [b]) -> file_len (bs ++ [b]) < 2^63 ->
  index_bytes l = [] \/ index_bytes l = index_of (starts 0 (bs ++ [b])) \/
  (exists q, read_last_u64 (index_bytes l) = Ok q /\ q <> file_len bs) ->
  exists l', log_open l = Ok (tt, l') /\ log_ok l' (bs ++ [b]).
Proof. apply log_open_spec. Qed.

(** The index of a log with a single block is not built again: the loop of
    [construct_index] ends before its first round, and the block cannot be read. *)
Theorem single_block_index_is_lost l b : block_bytes l = block_file 0 [b] -> index_bytes l = [] ->
  packable b -> file_len [b] < 2^63 -> block_num b = 1 ->
  exists l', log_open l = Ok (tt, l') /\ index_bytes l' = [] /\ log_head l' = Some b /\
  read_block_by_num 1 l' = Throw ios_failure.
Proof.
  intros Hb Hi Hp Hl Hn.
  assert (Hlen : (Z.of_nat (length (block_bytes l)) =? 0) = false).
  { apply Z.eqb_neq. rewrite Hb. change (file_len [b] <> 0). rewrite file_len_cons. pose proof (file_len_nonneg []). lia. }
  destruct l as [lh lid bytes ib bw iw]. cbn [block_bytes index_bytes] in Hb, Hi, Hlen. subst bytes ib.
  unfold log_open, mbind, ST_bind, puts, gets. cbn [upd block_bytes index_bytes]. rewrite Hlen. cbn [negb].
  rewrite (read_head_spec _ [] b) by done. cbn [upd length block_bytes index_bytes].
  change (Z.of_nat 0 =? 0) with true. cbn [negb].
  rewrite (construct_index_single _ b) by done. eexists. split; [done|]. split; [done|]. split; [done|].
  unfold read_block_by_num, get_block_pos_helper, check_index_read, mbind, ST_bind, puts, gets.
  cbn [upd log_head log_head_id index_bytes]. rewrite block_num_of_id, Hn. done.
Qed.
End log.

(** ** The node *)
Section node.
  Context {cfg : sophiatx_config} {ext : externals} {itp : interpreters} {cr : crypto}.
  Context {T : Type} {st : block_store T}.
  Implicit Types (n : node T) (s : db) (b : signed_block) (t : signed_transaction).

(** When a node has applied a block, its chain is what the application of the
    block to the state of the chain gives; the block follows the old head and is the
    new one; nothing waiting has changed and undo sessions are at most dropped. *)
Theorem node_applies_block b skip n u n' : Node.apply_block b skip n = Done u n' ->
  Blocks.apply_block (checkpoints n) b skip (chain n) = Ok (tt, chain n') /\
  head_block_id_of n' = block_id b /\ previous b = head_block_id_of n /\ waiting n' = waiting n /\
  exists l, undo_stack n = undo_stack n' ++ l.
Proof.
  intros H. apply apply_block_Done in H as (H & W & L). split; [done|].
  destruct (head_apply_block _ _ _ _ _ _ H) as [Hh Hp]. unfold head_view in Hh. injection Hh as Hh _. done.
Qed.

(** C7: [_pending_tx_session] is the result of applying [_pending_tx] to the head
    state: a transaction that is pushed is applied on top and queued, one that throws
    leaves no trace, and the head state below stays as it is. *)
Theorem pending_transactions_invariant t skip n : pending_ok n ->
  match push_transaction t skip n with
  | Done _ n' => pending_ok n' /\ pending_tx n' = pending_tx n ++ [t] /\ tables (head_state n') = tables (head_state n) /\
      head_history n' = head_history n /\ exists s0 s1, tables s0 = tables (chain n) /\ skip_flags s0 = skip /\
      producing s0 = true /\ _apply_transaction t s0 = Ok (tt, s1) /\ tables (chain n') = tables s1
  | Raised e n' => pending_ok n' /\ pending_tx n' = pending_tx n /\ tables (head_state n') = tables (head_state n) /\
      head_history n' = head_history n /\ tables (chain n') = tables (chain n)
  | Broken _ => False
  end.
Proof. apply push_transaction_spec. Qed.

(** A block is pushed on the clean head state, and afterwards the pending session
    holds pending transactions applied to the new head state: those pending before or
    taken from blocks popped on the way, each only as long as it still applies. *)
Theorem push_block_pending b skip n : exists n1, cleared n n1 /\ skip_flags (chain n1) = skip /\
  match _push_block b n1 with
  | Broken e => push_block b skip n = Broken e
  | Done _ n2 | Raised _ n2 => match push_block b skip n with
      | Done _ n' | Raised _ n' => pending_ok n' /\ tables (head_state n') = tables (chain n2) /\
          head_history n' = undo_stack n2 /\ (checkpoints n', fork_db n', blog n') = (checkpoints n2, fork_db n2, blog n2) /\
          forall t, t ∈ pending_tx n' -> t ∈ popped_tx n2 \/ t ∈ pending_tx n
      | Broken _ => False
      end
  end.
Proof. apply push_block_outcome. Qed.

(** C18: a block that does not apply on the head leaves no trace: the tables and all that is
    waiting are as before, of the history at most old sessions are gone, and the fork database no
    longer has the block.  There is one exception: the block failed after it had made itself
    irreversible, that is, the irreversible block number that its application computed had reached
    the revision of its own session, whose changes could then not be undone. *)
Theorem failed_block_leaves_no_trace b skip n :
  match push_onto_head b skip n with
  | Done _ _ => True
  | Raised e n' => tables (chain n') = tables (chain n) /\ waiting n' = waiting n /\
      (exists l, undo_stack n = undo_stack n' ++ l) /\
      (e <> crash -> find_id (fork_db n') (_index (fork_db n')) (block_id b) = None)
  | Broken e => exists k s, until_irreversible b k ((chain n) <| skip_flags := k |>) = Ok (tt, s) /\
      revision n + 1 <= last_irreversible_block_num (dgpo s)
  end.
Proof.
  unfold push_onto_head, try. destruct (pushed (Node.apply_block b skip) n) as [u n1|e1 n1|e1] eqn:E; [done| |by eapply pushed_Broken].
  apply (pushed_Raised _ _ _ _ (apply_block_drops b skip)) in E as (E1 & E2 & E3).
  case_bool_decide as Hc; [by split_and!|].
  unfold mbind, NM_bind, on_part, fork_remove, puts. cbn [mthrow NM_throw].
  split; [exact E1|]. split; [exact E2|]. split; [exact E3|]. intros _. cbn [upd fork_db node_eta].
  unfold find_id. cbn [upd _index fork_database_eta].
  destruct (List.find _ _) as [a|] eqn:F; [|done]. apply find_some in F as [Ha Hid].
  apply list_elem_of_In, elem_of_filter_bool in Ha as [_ Ha]. unfold has_id in *. cbn [upd items fork_database_eta] in Hid.
  by rewrite Hid in Ha.
Qed.

(** C6: after a switch the chain is the new branch replayed on a state of the history
    whose head is the common ancestor, and its head is the block switched to. *)
Theorem fork_switch_replays_branch skip h n u n' : pending_tx_session n = false -> fork_ok (fork_db n) ->
  switch_forks skip h n = Done u n' -> exists a1 l1 l2 c anc bs,
  find_id (fork_db n) (_index (fork_db n)) h = Some a1 /\
  fetch_branch_from (fork_db n) h (head_block_id_of n) = Ok (l1, l2) /\ last l2 = Some c /\
  past n anc /\ head_block_id (dgpo anc) = previous_of (fork_db n) c /\
  blocks_at n (rev l1) = Some bs /\ replayed (checkpoints n) anc bs (chain n') /\
  head_block_id_of n' = h /\ still n' = still n.
Proof.
  intros Hp Hok H. destruct (switch_forks_Done skip h n u n' Hp Hok H) as (a1 & l1 & l2 & c & anc & bs &
    H1 & H2 & H3 & H4 & H5 & H6 & H7 & H8 & H9 & _). exists a1, l1, l2, c, anc, bs. split_and!; done.
Qed.

(** A switch that throws does so while it pops or applies blocks. *)
Lemma switch_forks_Raised skip h n e n' l1 l2 c i : fetch_branch_from (fork_db n) h (head_block_id_of n) = Ok (l1, l2) ->
  last l2 = Some c -> fork_items n !! c = Some i -> switch_forks skip h n = Raised e n' ->
  let n0 := n <| fork_db ::= fun d => d <| held := l1 ++ l2 |> |> in let ancestor := previous_of (fork_db n) c in
  exists m, n' = m <| fork_db ::= fun d => d <| held := [] |> |> /\
    (pop_to ancestor n0 = Raised e m \/
     exists n1, pop_to ancestor n0 = Done tt n1 /\ push_branch skip (rev l1) l2 ancestor n1 = Raised e m).
Proof.
  intros Hf Hl Hi H. cbv zeta. set (n0 := n <| fork_db ::= _ |>). unfold switch_forks in H.
  apply nbind_Raised in H as [H|(x & n1 & H1 & H)]; [done|]. apply reads_Done in H1 as [-> ->].
  apply nbind_Raised in H as [H|(br & n1 & H1 & H)].
  { apply on_part_Raised in H as [H _]. unfold mbind, ST_bind, gets, lift in H. by rewrite Hf in H. }
  apply of_fork_Done in H1 as [Hf' ->]. rewrite Hf in Hf'. injection Hf' as <-. cbn [fst snd] in H.
  apply nbind_Raised in H as [H|([] & n1 & H1 & H)]; [by apply on_part_Raised in H as [H _]|].
  apply on_part_Done in H1 as (d & H1 & E1). apply puts_Ok in H1 as [_ ->]. change (n1 = n0) in E1. subst n1.
  rewrite finally_cases, Hl in H.
  assert (Hb : item_block (fork_db n0) c = Ok (item_data i)).
  { apply item_block_at. unfold block_at. change (fork_items n0) with (fork_items n). by rewrite Hi. }
  assert (Eb : previous (item_data i) = previous_of (fork_db n) c) by (unfold previous_of; fold (fork_items n); by rewrite Hi).
  unfold mbind at 1, NM_bind at 1, of_fork at 1, on_part at 1 in H. unfold mbind at 1, ST_bind at 1, gets at 1, lift at 1 in H.
  rewrite Hb in H. cbv beta iota in H. rewrite Eb in H.
  change (n0 <| fork_db := fork_db n0 |>) with n0 in H.
  match type of H with match ?x with _ => _ end = _ => destruct x as [u m|e1 m|e1] eqn:E end; [done| |done].
  assert (Em : e1 = e /\ n' = m <| fork_db ::= fun d => d <| held := [] |> |>) by (unfold on_part, puts in H; by injection H as -> <-).
  destruct Em as [-> ->]. exists m. split; [done|]. apply nbind_Raised in E as [E|([] & n1 & E1 & E2)]; [by left|right; by exists n1].
Qed.
(** C17: when a switch of forks throws, either popping to the common ancestor failed, and the
    chain is a state of the history, or a block of the new branch did not apply, on the
    common ancestor with the blocks before it replayed.  Then the old branch is restored: the
    chain is the old branch replayed on that same state of the ancestor, its head is the old
    one, nothing waiting has changed, and the block and those after it are no longer in the
    fork database; the exception is that of the block.  Only if restoring throws itself, its
    exception is the one seen. *)
Theorem failed_switch_restores_branch skip h n e n' l1 l2 : pending_tx_session n = false -> fork_ok (fork_db n) ->
  fetch_branch_from (fork_db n) h (head_block_id_of n) = Ok (l1, l2) ->
  switch_forks skip h n = Raised e n' -> e <> crash -> exists c, last l2 = Some c /\
  let ancestor := previous_of (fork_db n) c in
  let n0 := n <| fork_db ::= fun d => d <| held := l1 ++ l2 |> |> in
  ((exists m s, pop_to ancestor n0 = Raised e m /\ past n s /\ tables (chain n') = tables s) \/
   exists anc good a bad gb np n1 e0 n2, past n anc /\ head_block_id (dgpo anc) = ancestor /\
     pop_to ancestor n0 = Done tt np /\ rev l1 = good ++ a :: bad /\ forM good (apply_item skip) np = Done tt n1 /\
     blocks_at n good = Some gb /\ replayed (checkpoints n) anc gb (chain n1) /\ apply_item skip a n1 = Raised e0 n2 /\
     ((e = e0 /\ head_block_id_of n' = head_block_id_of n /\ still n' = still n /\
       (forall x, x ∈ a :: bad -> x ∉ _index (fork_db n')) /\
       exists ob, blocks_at n (rev l2) = Some ob /\ replayed (checkpoints n) anc ob (chain n')) \/
      exists m, restore_branch skip (a :: bad) l2 ancestor n2 = Raised e m)).
Proof.
  intros Hp Hok Hf H He. destruct (proj1 (fetch_branch_from_spec _ _ _ _ _ Hok) Hf) as (a1 & a2 & F1 & F2 & Hat).
  assert (Hc : exists c i, last l2 = Some c /\ fork_items n !! c = Some i).
  { destruct Hat as (k1 & c1 & k2 & c & _ & -> & _ & B & _). destruct (branch_valid _ _ _ _ B) as [_ [i Hi]].
    exists c, i. by rewrite last_snoc. }
  destruct Hc as (c & i & Hl & Hi). exists c. split; [done|]. cbv zeta. set (n0 := n <| fork_db ::= _ |>).
  destruct (switch_forks_Raised skip h n e n' l1 l2 c i Hf Hl Hi H) as (m & -> & [Hpop|(n1 & Hpop & Hpush)]).
  { left. apply (pop_until_Raised _ _ n0) in Hpop as Hpast; [|done]. apply hist_past in Hpast as (s & Hs & E).
    exists m, s. done. }
  right. pose proof (pop_until_Done _ _ n0 _ _ Hp Hpop) as (S1 & I1 & Hh & (anc & Hpast & Et) & _).
  assert (Hanc : head_block_id (dgpo anc) = head_block_id_of n1).
  { apply head_tables in Et. unfold head_view in Et. unfold head_block_id_of. congruence. }
  assert (Hp1 : pending_tx_session n1 = false) by (unfold still in S1; injection S1 as _ -> _; exact Hp).
  assert (Ic : fork_items n1 = fork_items n /\ checkpoints n1 = checkpoints n) by (unfold still in S1; by injection S1 as _ _ ->).
  destruct Ic as [In1 Cn1].
  destruct (push_branch_Raised _ _ _ _ _ _ _ Hpush He) as (good & a & bad & n2 & e0 & n3 & Hsplit & Hg & Ha & Hrest).
  pose proof (apply_items_Done _ _ _ _ _ Hg) as (gb & Hgb & R & _ & _).
  rewrite (blocks_at_ext n n1) in Hgb by done. rewrite Cn1 in R.
  exists anc, good, a, bad, gb, n1, n2, e0, n3. split; [exact Hpast|]. split; [congruence|]. do 4 (split; [done|]).
  split; [apply (replayed_app _ _ [] (chain n1) gb); [by constructor|done]|]. split; [done|].
  destruct Hrest as [[Hrest ->]|Hrest]; [left|right; by exists m]. split; [done|].
  rewrite <- Hh in Hrest.
  destruct (restore_branch_back skip good a (a :: bad) l2 n1 n2 e0 n3 tt m Hp1) as (Sm & Hav & ob & Hob & Ro); [| |done..|].
  - intros y j Hj. rewrite In1 in Hj. by destruct (ok_items _ Hok y j Hj) as (_ & ? & _).
  - intros y b Hy Hb. unfold block_at in Hb. rewrite In1 in Hb. destruct (fork_items n !! y) as [j|] eqn:Ej; [|done].
    injection Hb as <-. rewrite Hh. apply (branch_ids_differ _ a1 a2 l1 l2 c y j Hok Hat Hl); [|exact Ej].
    apply list_elem_of_In, in_rev. rewrite Hsplit. apply list_elem_of_In, elem_of_app. by left.
  - rewrite (blocks_at_ext n n1) in Hob by done. rewrite Cn1 in Ro.
    assert (Ro' : replayed (checkpoints n) anc ob (chain m)) by (apply (replayed_app _ _ [] (chain n1) ob); [by constructor|done]).
    split; [|split; [by etransitivity|split; [exact Hav|by exists ob]]].
    apply find_id_Some in F2 as (_ & i2 & Hi2 & <-).
    exact (branch_replay_head n l2 a2 i2 _ anc ob _ Hok (proj2 (fork_at_head _ _ _ _ _ Hat)) Hi2 Hob Ro').
Qed.

(** Popping blocks on a switch moves the head of the fork database down from the
    new head, and nothing moves it up again: after a switch that popped a block it
    has a smaller number than the block at the head of the chain. *)
Theorem fork_head_left_behind skip h n u n' a1 : pending_tx_session n = false -> fork_ok (fork_db n) ->
  fork_head n = Some a1 -> find_id (fork_db n) (_index (fork_db n)) h = Some a1 ->
  switch_forks skip h n = Done u n' -> head_block_id_of n' = h /\
  exists c', fork_head n' = Some c' /\
  (forall l1 l2 c, fetch_branch_from (fork_db n) h (head_block_id_of n) = Ok (l1, l2) -> last l2 = Some c ->
   head_block_id_of n <> previous_of (fork_db n) c -> num_of (fork_db n) c' < num_of (fork_db n) a1).
Proof.
  intros Hp Hok Ha Hf H. destruct (switch_forks_Done skip h n u n' Hp Hok H) as (a1' & l1 & l2 & c & anc & bs &
    H1 & H2 & H3 & H4 & H5 & H6 & H7 & H8 & H9 & H10). split; [done|].
  destruct (H10 a1 Ha) as (c' & Hc' & Hlt). exists c'. split; [done|]. intros m1 m2 c2 E1 E2. rewrite H2 in E1.
  injection E1 as <- <-. rewrite H3 in E2. injection E2 as <-. exact Hlt.
Qed.

(** The loop that pops blocks ends: a parent is older than its child, so that as
    many rounds as the fork database has items are enough, more change nothing. *)
Theorem popping_ends h n extra : pending_tx_session n = false -> fork_ok (fork_db n) ->
  pop_to h n = pop_until (S (length (items (fork_db n))) + extra) h n.
Proof.
  intros Hp Hok. unfold pop_to. symmetry. apply pop_until_enough; [done|done| |lia].
  intros a Ha. destruct (ok_head _ Hok a Ha) as [i Hi]. apply lookup_lt_Some in Hi. lia.
Qed.
End node.

(** ** Reindexing *)
Section reindex.
  Context {cfg : sophiatx_config} {ext : externals} {itp : interpreters} {cr : crypto} {sg : signer}.
  Context {T : Type} {st : block_store T} {fits : list signed_block -> Prop}.
  Context {stores : T -> list signed_block -> Prop} {position : list signed_block -> nat -> Z}.
  Context {laws : block_store_laws T fits stores position}.
  Implicit Types (n : node T) (s : db) (b : signed_block).

(** Without blocks in the fork database nothing is logged while blocks are applied. *)
Definition unlogged (t : T) n : Prop := blog n = t /\ _index (fork_db n) = [].
Lemma unlogged_keeps {A} t (m : NM T A) : keepsN (fun n => (blog n, _index (fork_db n))) m -> keepsP (unlogged t) m.
Proof.
  intros Hm n [H1 H2]. specialize (Hm n). destruct (m n) as [a n'|e n'|e]; [| |done]; injection Hm as E1 E2; split; congruence.
Qed.
Lemma unlogged_log_irreversible t k : keepsP (unlogged t) (log_irreversible k).
Proof.
  intros n [H1 H2]. unfold log_irreversible, of_fork, mbind at 1, NM_bind at 1, on_part.
  unfold fetch_block_on_main_branch_by_number, fork_fetch_block_by_number, mbind, ST_bind, gets. rewrite H2. cbn. by split.
Qed.
Lemma set_max_size_empty k d r d' : _index d = [] -> set_max_size k d = Ok (r, d') -> _index d' = [].
Proof.
  intros Hx H. unfold set_max_size in H. destruct (_head _) as [a|]; [|by injection H as _ <-].
  apply rbind_Ok in H as (i & _ & H). injection H as _ <-. cbn. by rewrite Hx.
Qed.
Lemma unlogged_set_max_size t k : keepsP (unlogged t) (on_fork (set_max_size k)).
Proof.
  intros n [H1 H2]. unfold on_part. destruct (set_max_size k (fork_db n)) as [[u d']|e] eqn:E; [|by split].
  split; [exact H1|]. by eapply set_max_size_empty.
Qed.
Lemma unlogged_apply_block t b skip : keepsP (unlogged t) (apply_block b skip).
Proof.
  assert (C : forall A (m : DB A), keepsP (unlogged t) (on_chain m)).
  { intros A m. apply unlogged_keeps. by apply keepsN_part. }
  assert (W : forall (f : node T -> node T), (forall n, (blog (f n), _index (fork_db (f n))) = (blog n, _index (fork_db n))) ->
    keepsP (unlogged t) (change f)).
  { intros f Hf. apply unlogged_keeps. by apply keepsN_change. }
  assert (R : forall A (f : node T -> A), keepsP (unlogged t) (reads f)) by (by intros A f n).
  unfold apply_block, with_flags, _apply_block, settle_irreversible, log_and_trim, commit.
  repeat match goal with
    | |- keepsP _ (on_fork _) => fail 1
    | |- keepsP _ (mbind _ _) => apply keepsP_bind; [|intros ?]
    | |- keepsP _ (finally _ _) => apply keepsP_finally
    | |- keepsP _ (forM _ _) => apply keepsP_forM; intros ?
    | |- keepsP _ (whenM ?x _) => destruct x; cbn [whenM]
    | |- keepsP _ (log_irreversible _) => apply unlogged_log_irreversible
    | |- keepsP _ (on_chain _) => apply C
    | |- keepsP _ (reads _) => apply R
    | |- keepsP _ (change _) => apply W; reflexivity
    | |- keepsP _ (mret _) => by intros n
    end.
  apply unlogged_set_max_size.
Qed.

(** The blocks from the [i]-th on, applied one after the other *)
Definition apply_all (bs : list signed_block) (s : db) : res db :=
  foldM (fun s b => r ← Blocks.apply_block [] b reindex_skip s; Ok (snd r)) s bs.

Lemma replay_Done bs m i b n u n' fuel : stores (blog n) bs -> checkpoints n = [] -> _index (fork_db n) = [] ->
  length bs = (i + S m)%nat -> bs !! i = Some b ->
  replay fuel (b, position bs (S i)) (Z.of_nat (length bs)) n = Done u n' ->
  apply_all (drop i bs) (chain n) = Ok (chain n') /\ stores (blog n') bs /\ checkpoints n' = [] /\ _index (fork_db n') = [].
Proof.
  revert i b n fuel. induction m as [|m IH]; intros i b n fuel Hs Hc Hx Hl Hi H.
  all: assert (Hn : block_num b = Z.of_nat i + 1) by (by apply (stores_numbered _ _ Hs)).
  all: assert (Step : forall n2, apply_block b reindex_skip n = Done tt n2 ->
    (r ← Blocks.apply_block [] b reindex_skip (chain n); Ok (snd r)) = Ok (chain n2) /\ stores (blog n2) bs /\
    checkpoints n2 = [] /\ _index (fork_db n2) = []).
  { intros n2 E. pose proof (unlogged_apply_block (blog n) b reindex_skip n (conj eq_refl Hx)) as U. rewrite E in U.
    destruct U as [U1 U2]. apply apply_block_Done in E as (E & W & _). rewrite Hc in E. rewrite E. unfold waiting in W.
    injection W as _ _ _ _ W. split_and!; try done; congruence. }
  2: { intros n2 E. pose proof (unlogged_apply_block (blog n) b reindex_skip n (conj eq_refl Hx)) as U. rewrite E in U.
    destruct U as [U1 U2]. apply apply_block_Done in E as (E & W & _). rewrite Hc in E. rewrite E. unfold waiting in W.
    injection W as _ _ _ _ W. split_and!; try done; congruence. }
  all: unfold apply_all; rewrite (drop_S _ _ _ Hi); cbn [foldM].
  - assert (E : block_num b = Z.of_nat (length bs)) by lia.
    assert (E2 : replay fuel (b, position bs (S i)) (Z.of_nat (length bs)) n = apply_block b reindex_skip n).
    { destruct fuel; cbn [replay fst]; by rewrite E, Z.eqb_refl. }
    rewrite E2 in H. destruct u. destruct (Step n' H) as (S1 & S2). rewrite S1. rewrite drop_ge by lia. done.
  - assert (E : (block_num b =? Z.of_nat (length bs)) = false) by (apply Z.eqb_neq; lia).
    destruct fuel as [|fuel]; cbn [replay fst snd] in H; rewrite E in H; cbn [negb] in H; [done|].
    apply nbind_Done in H as ([] & n1 & H1 & H). destruct (Step n1 H1) as (S1 & S2 & S3 & S4). rewrite S1.
    apply nbind_Done in H as (itr & n2 & H2 & H). apply on_part_Done in H2 as (t & H2 & ->).
    destruct (lookup_lt_is_Some_2 bs (S i)) as [b' Hb']; [lia|].
    destruct (stores_walk _ _ _ _ S2 Hb') as (t' & Ht & Hst). rewrite Ht in H2. injection H2 as <- <-.
    apply (IH (S i) b') in H; [exact H|exact Hst|exact S3|exact S4|lia|done].
Qed.

Lemma replay_enough bs m i b n fuel extra : stores (blog n) bs -> _index (fork_db n) = [] -> checkpoints n = [] ->
  length bs = (i + S m)%nat -> bs !! i = Some b -> (m <= fuel)%nat ->
  replay (fuel + extra) (b, position bs (S i)) (Z.of_nat (length bs)) n =
  replay fuel (b, position bs (S i)) (Z.of_nat (length bs)) n.
Proof.
  revert i b n fuel. induction m as [|m IH]; intros i b n fuel Hs Hx Hc Hl Hi Hf.
  all: assert (Hn : block_num b = Z.of_nat i + 1) by (by apply (stores_numbered _ _ Hs)).
  - assert (E : block_num b = Z.of_nat (length bs)) by lia.
    destruct fuel; destruct extra; cbn [replay fst Nat.add]; by rewrite E, Z.eqb_refl.
  - assert (E : (block_num b =? Z.of_nat (length bs)) = false) by (apply Z.eqb_neq; lia).
    destruct fuel as [|fuel]; [lia|]. cbn [replay fst snd Nat.add]. rewrite E. cbn [negb].
    pose proof (unlogged_apply_block (blog n) b reindex_skip n (conj eq_refl Hx)) as U.
    destruct (apply_block b reindex_skip n) as [[] n1|e n1|e] eqn:H1;
      unfold mbind at 1 3, NM_bind at 1 3; rewrite H1; [|done|done].
    apply apply_block_Done in H1 as (_ & W & _). unfold waiting in W. injection W as _ _ _ _ W.
    destruct U as [U1 U2]. rewrite <- U1 in Hs.
    destruct (lookup_lt_is_Some_2 bs (S i)) as [b' Hb']; [lia|].
    destruct (stores_walk _ _ _ _ Hs Hb') as (t' & Ht & Hst).
    unfold mbind, NM_bind, on_part. rewrite Ht. apply (IH (S i) b'); [done|done|by etrans|lia|done|lia].
Qed.

Lemma set_revision_Done r n n' : set_revision r n = Done tt n' -> n' = n <| revision := r |>.
Proof. unfold set_revision. by destruct (negb _); intros [=]. Qed.

(** C16: reindexing applies the logged blocks to the tables, all of them, one after the
    other and in their order; it keeps the log and roots the fork database at the last
    block. The loop over the log ends: more rounds than there are blocks change nothing. *)
Theorem reindex_replays bs n : stores (blog n) bs -> bs <> [] -> checkpoints n = [] ->
  (forall k n', reindex 0 n = Done k n' ->
    k = Z.of_nat (length bs) /\ apply_all bs (chain n) = Ok (chain n') /\ stores (blog n') bs /\
    revision n' = head_block_number (dgpo (chain n')) /\
    exists b a, last bs = Some b /\ fork_head n' = Some a /\ items (fork_db n') !! a = Some (new_item b)) /\
  (forall b n0 extra, on_fork fork_reset n = Done tt n0 -> bs !! O = Some b ->
    replay (length bs + extra) (b, position bs 1) (Z.of_nat (length bs)) n0 =
    replay (length bs) (b, position bs 1) (Z.of_nat (length bs)) n0).
Proof.
  intros Hs Hne Hc.
  assert (Hm : exists m, length bs = (0 + S m)%nat) by (destruct bs as [|b bs]; [done|by exists (length bs)]).
  destruct Hm as [m Hm]. destruct (last bs) as [b'|] eqn:Hl; [|by apply last_None in Hl].
  assert (Hn : block_num b' = Z.of_nat (length bs)).
  { rewrite last_lookup in Hl. apply (stores_numbered _ _ Hs) in Hl. rewrite Hm in *. simpl in *. lia. }
  split.
  - intros k n' H. unfold reindex in H. apply nbind_Done in H as ([] & n0 & H0 & H).
    apply on_part_Done in H0 as (d0 & H0 & ->). injection H0 as <-.
    apply nbind_Done in H as (lh & n1 & H1 & H). apply reads_Done in H1 as [-> ->].
    cbn [blog] in H. rewrite (stores_head _ _ Hs), Hl in H.
    apply nbind_Done in H as (itr & n1 & H1 & H). apply on_part_Done in H1 as (t & H1 & ->).
    destruct (lookup_lt_is_Some_2 bs O) as [b Hb]; [lia|].
    destruct (stores_walk _ _ _ _ Hs Hb) as (t' & Ht & Hst). rewrite position_first in Ht.
    pose proof (eq_trans (eq_sym H1) Ht) as E. injection E as -> ->.
    replace (if _ && _ then 0 else block_num b') with (Z.of_nat (length bs)) in H by (by rewrite Hn).
    apply nbind_Done in H as ([] & n2 & H2 & H).
    apply (replay_Done bs m O b) in H2 as (A1 & A2 & A3 & A4); [|done..].
    apply nbind_Done in H as (num & n3 & H3 & H). apply on_part_Done in H3 as (c3 & H3 & ->).
    injection H3 as <- <-.
    apply nbind_Done in H as ([] & n4 & H4 & H). apply set_revision_Done in H4 as ->.
    apply nbind_Done in H as (lh & n5 & H5 & H). apply reads_Done in H5 as [-> ->].
    cbn [blog chain] in H. rewrite (stores_head _ _ A2), Hl in H.
    replace (block_num b' =? 0) with false in H by (symmetry; apply Z.eqb_neq; lia).
    apply nbind_Done in H as ([] & n6 & H6 & H). injection H as <- <-.
    apply on_part_Done in H6 as (d & ->%start_block_Ok & ->). split_and!; [done|exact A1|exact A2|done|].
    exists b', (length (items (fork_db n2))). split_and!; [done|done|]. apply stored_item.
  - intros b n0 extra H0 Hb. apply on_part_Done in H0 as (d0 & H0 & ->). injection H0 as <-.
    apply (replay_enough bs m O b); [done..|lia].
Qed.
End reindex.

(** ** A node with two branches *)
Definition child_of (h : hash160) (t : Z) (ts : list signed_transaction) : signed_block :=
  let b := {| previous := h; timestamp := t; blk_witness := bytes_of_string "initminer";
              transaction_merkle_root := null_hash; extensions := []; witness_signature := 1; blk_transactions := ts |} in
  b <| transaction_merkle_root := calculate_merkle_root b |>.
Definition block_2 : signed_block := child_of (block_id example_block) 1531512806 [].
Definition block_2' : signed_block := child_of (block_id example_block) 1531512809 [].
Definition block_3' : signed_block := child_of (block_id block_2') 1531512812 [].

(** Blocks packed by the place in a table. *)
Definition example_table : list signed_block := [example_block; block_2].
#[export] Instance example_packing : block_packing := {|
  pack_block b := [Z.of_nat (length (filter (fun b' => timestamp b' < timestamp b) example_table))];
  unpack_block bytes := match bytes with
    | i :: rest => match example_table !! Z.to_nat i with Some b => Ok (b, rest) | None => Throw assert_exception end
    | [] => Throw assert_exception end |}.
Lemma example_packable : Forall packable example_table.
Proof. repeat apply Forall_cons_2; [..|by apply Forall_nil]; intros rest; reflexivity. Qed.
Definition empty_log : block_log := BlockLog None null_hash [] [] false false.
Definition example_node : node block_log :=
  Node block_log example_state [] 0 empty_fork_db empty_log [] false [] [].
Definition done_or {A} (n : node block_log) (o : outcome block_log A) : node block_log :=
  match o with Done _ n' => n' | _ => n end.
Definition node_1 := done_or example_node (push_block example_block 0 example_node).
Definition node_2 := done_or node_1 (push_block block_2 0 node_1).
Definition node_2' := done_or node_2 (push_block block_2' 0 node_2).
Definition node_3' := done_or node_2' (push_block block_3' 0 node_2').

Definition is_Done {A} (o : outcome block_log A) : bool := match o with Done _ _ => true | _ => false end.
Lemma is_Done_true {A} (o : outcome block_log A) : is_Done o = true -> exists u n', o = Done u n'.
Proof. destruct o as [u n'| |]; [|done..]. intros _. by exists u, n'. Qed.

Definition forked (d : fork_database) (b : signed_block) : fork_database :=
  match fork_push_block b d with Ok (_, d') => d' | Throw _ => d end.
Lemma forked_ok d b : fork_ok d -> 1 <= block_num b -> fork_ok (forked d b).
Proof.
  intros Hok Hb. unfold forked. destruct (fork_push_block b d) as [[a d']|] eqn:E; [|done].
  by eapply fork_push_block_ok.
Qed.
Definition fork_1 := forked empty_fork_db example_block.
Definition example_fork := forked (forked (forked fork_1 block_2) block_2') block_3'.
Lemma fork_1_ok : fork_ok fork_1.
Proof. apply (forked_ok empty_fork_db); [apply empty_fork_ok|]. vm_compute. discriminate. Qed.
Lemma example_fork_ok : fork_ok example_fork.
Proof. do 3 (apply forked_ok; [|by vm_compute]). apply fork_1_ok. Qed.
(** Block 3 of the other branch has come in and the chain is still on the first. *)
Definition forked_node := node_2' <| fork_db := example_fork |>.
Definition branch_ids (h1 h2 : hash160) := fetch_branch_from example_fork h1 h2.

Lemma fetch_branch_exact_witness : exists l1 l2, fork_at example_fork 3 1 l1 l2 /\ l1 = [3%nat; 2%nat] /\ l2 = [1%nat].
Proof.
  assert (E : fetch_branch_from example_fork (block_id block_3') (block_id block_2) = Ok ([3%nat; 2%nat], [1%nat])) by (vm_compute; reflexivity).
  apply (proj1 (fetch_branch_exact example_crypto _ _ _ _ _ example_fork_ok)) in E as (a1 & a2 & H1 & H2 & H).
  assert (F1 : find_id example_fork (_index example_fork) (block_id block_3') = Some 3%nat) by (vm_compute; reflexivity).
  assert (F2 : find_id example_fork (_index example_fork) (block_id block_2) = Some 1%nat) by (vm_compute; reflexivity).
  rewrite F1 in H1. rewrite F2 in H2. injection H1 as <-. injection H2 as <-. eauto.
Defined.

Lemma push_block_longest_witness : exists d', fork_push_block block_2 fork_1 = Ok (1%nat, d') /\ fork_ok d' /\ head_highest d'.
Proof.
  assert (Hh : head_highest fork_1).
  { intros h hi a i Hh Hhi Ha Hi. assert (Ei : _index fork_1 = [0%nat]) by (vm_compute; reflexivity).
    assert (Eh : _head fork_1 = Some 0%nat) by (vm_compute; reflexivity).
    rewrite Ei in Ha. apply list_elem_of_singleton in Ha as ->. rewrite Eh in Hh. injection Hh as <-.
    rewrite Hi in Hhi. injection Hhi as ->. lia. }
  eexists. assert (E : fork_push_block block_2 fork_1 = Ok (1%nat, forked fork_1 block_2)) by (vm_compute; reflexivity).
  split; [exact E|]. assert (Hn : _head fork_1 = None -> 1 <= block_num block_2 /\ _index fork_1 = []) by (vm_compute; discriminate).
  destruct (push_block_longest example_crypto _ _ _ _ fork_1_ok Hh Hn E) as (H1 & H2 & _). split; [exact H1|exact H2].
Defined.

Definition example_log : block_log :=
  BlockLog (Some block_2) (block_id block_2) (block_file 0 example_table) (index_of (starts 0 example_table)) false false.
Lemma example_log_ok : log_ok example_log example_table.
Proof.
  split_and!; try reflexivity; [|..|apply example_packable].
  - intros b [= <-]. reflexivity.
  - intros [|[|i]] b [= <-]; vm_compute; reflexivity.
Qed.
Lemma block_log_refines_list_witness : exists l', read_block_by_num 2 example_log = Ok (Some block_2, l').
Proof.
  destruct (block_log_refines_list example_log example_table example_log_ok) as [R _].
  destruct (R 2 ltac:(lia)) as (l' & E & _). exists l'. exact E.
Defined.
Definition without_index : block_log := BlockLog None null_hash (block_file 0 example_table) [] false false.
Lemma index_is_rebuilt_witness : exists l', log_open without_index = Ok (tt, l') /\ log_ok l' example_table.
Proof.
  apply (index_is_rebuilt without_index [example_block] block_2); [discriminate|reflexivity| |apply example_packable|reflexivity|by left].
  apply example_log_ok.
Defined.
Lemma single_block_index_is_lost_witness : exists l',
  log_open (BlockLog None null_hash (block_file 0 [example_block]) [] false false) = Ok (tt, l') /\ index_bytes l' = [].
Proof.
  destruct (single_block_index_is_lost (BlockLog None null_hash (block_file 0 [example_block]) [] false false) example_block)
    as (l' & H1 & H2 & _); [reflexivity|reflexivity|intros rest; reflexivity|reflexivity|vm_compute; reflexivity|].
  by exists l'.
Defined.

Lemma node_applies_block_witness : exists n', Node.apply_block example_block 0 example_node = Done tt n' /\
  head_block_id_of n' = block_id example_block.
Proof.
  destruct (is_Done_true (Node.apply_block example_block 0 example_node)) as ([] & n' & E); [vm_compute; reflexivity|].
  exists n'. split; [exact E|]. apply (node_applies_block _ _ _ _ _ E).
Defined.
Lemma pending_transactions_invariant_witness : exists n',
  push_transaction (example_transaction 1531512900 [example_transfer]) 0 example_node = Done tt n' /\
  pending_tx n' = [example_transaction 1531512900 [example_transfer]].
Proof.
  destruct (is_Done_true (push_transaction (example_transaction 1531512900 [example_transfer]) 0 example_node))
    as ([] & n' & E); [vm_compute; reflexivity|].
  pose proof (pending_transactions_invariant (example_transaction 1531512900 [example_transfer]) 0 example_node eq_refl) as C.
  rewrite E in C. exists n'. split; [exact E|]. apply C.
Defined.
Definition raised_with (e : exn) (o : outcome block_log unit) : bool :=
  match o with Raised e' _ => bool_decide (e' = e) | _ => false end.
Lemma raised_with_true e o : raised_with e o = true -> exists n', o = Raised e n'.
Proof. destruct o as [|e' n'|]; [done| |done]. intros ->%bool_decide_eq_true_1. by exists n'. Qed.
Lemma failed_block_leaves_no_trace_witness : exists n', push_onto_head block_3' 0 node_1 = Raised assert_exception n' /\
  tables (chain n') = tables (chain node_1).
Proof.
  destruct (raised_with_true assert_exception (push_onto_head block_3' 0 node_1)) as [n' E]; [vm_compute; reflexivity|].
  exists n'. split; [exact E|].
  pose proof (failed_block_leaves_no_trace block_3' 0 node_1) as C. rewrite E in C. exact (proj1 C).
Defined.
Lemma fork_switch_replays_branch_witness : exists n', switch_forks 0 (block_id block_3') forked_node = Done tt n' /\
  head_block_id_of n' = block_id block_3'.
Proof.
  destruct (is_Done_true (switch_forks 0 (block_id block_3') forked_node)) as ([] & n' & E); [vm_compute; reflexivity|].
  exists n'. split; [exact E|].
  destruct (fork_switch_replays_branch 0 _ forked_node _ _ ltac:(vm_compute; reflexivity) example_fork_ok E)
    as (a1 & l1 & l2 & c & anc & bs & _ & _ & _ & _ & _ & _ & _ & H & _). exact H.
Defined.
Lemma try_raised {A} (m : NM block_log A) h n e n' : m n = Raised e n' ->
  try m h n = if bool_decide (e = crash) then Raised e n' else h e n'.
Proof. intros E. unfold try. by rewrite E. Qed.
(** The other branch ends with a block of the time of its parent. *)
Definition bad_block : signed_block := child_of (block_id block_2') 1531512809 [].
Definition bad_fork := forked (forked (forked fork_1 block_2) block_2') bad_block.
Lemma bad_fork_ok : fork_ok bad_fork.
Proof. do 3 (apply forked_ok; [|by vm_compute]). apply fork_1_ok. Qed.
Definition bad_node := node_2' <| fork_db := bad_fork |>.
Definition bad_held := bad_node <| fork_db ::= fun d => d <| held := [3%nat; 2%nat] ++ [1%nat] |> |>.
Lemma failed_switch_restores_branch_witness : exists n', switch_forks 0 (block_id bad_block) bad_node = Raised assert_exception n' /\
  exists c, last [1%nat] = Some c /\ head_block_id_of n' = head_block_id_of bad_node.
Proof.
  destruct (raised_with_true assert_exception (switch_forks 0 (block_id bad_block) bad_node)) as [n' E]; [vm_compute; reflexivity|].
  exists n'. split; [exact E|].
  assert (F : fetch_branch_from (fork_db bad_node) (block_id bad_block) (head_block_id_of bad_node) = Ok ([3%nat; 2%nat], [1%nat]))
    by (vm_compute; reflexivity).
  destruct (failed_switch_restores_branch 0 _ bad_node assert_exception n' _ _ ltac:(vm_compute; reflexivity) bad_fork_ok F E
    ltac:(discriminate)) as (c & Hc & Hcases).
  exists c. split; [exact Hc|]. injection Hc as <-. cbv zeta in Hcases.
  destruct Hcases as [(m & s & Hpop & _)|(anc & good & a & bad & gb & np & n1 & e0 & n2 & _ & _ & Hpop & Hsplit & Hg & _ & _ & Ha & Hcase)].
  - assert (D : is_Done (pop_to (previous_of (fork_db bad_node) 1%nat) bad_held) = true) by (vm_compute; reflexivity).
    apply is_Done_true in D as (u & n1 & E1). fold bad_held in Hpop. rewrite Hpop in E1. discriminate E1.
  - destruct Hcase as [(_ & Hh & _)|(m & Hr)]; [exact Hh|exfalso]. fold bad_held in Hpop.
    destruct good as [|g good]; injection Hsplit as <- Hsplit.
    + assert (D : is_Done ((pop_to (previous_of (fork_db bad_node) 1%nat) ;; apply_item 0 2%nat) bad_held) = true) by (vm_compute; reflexivity).
      apply is_Done_true in D as (u & n3 & E1). apply nbind_Done in E1 as ([] & n4 & E1 & E2). rewrite Hpop in E1.
      injection E1 as <-. apply nret_Done in Hg as [_ ->]. rewrite Ha in E2. discriminate E2.
    + destruct good as [|g' good]; injection Hsplit as <- Hsplit; [subst bad|by destruct good].
      assert (D : is_Done ((pop_to (previous_of (fork_db bad_node) 1%nat) ;; forM [2%nat] (apply_item 0) ;;
        try (apply_item 0 3%nat) (fun _ => restore_branch 0 [3%nat] [1%nat] (previous_of (fork_db bad_node) 1%nat))) bad_held) = true)
        by (vm_compute; reflexivity).
      apply is_Done_true in D as (u & n3 & E1). apply nbind_Done in E1 as ([] & n4 & E1 & E2). rewrite Hpop in E1.
      injection E1 as <-. apply nbind_Done in E2 as ([] & n4 & E2 & E3). rewrite Hg in E2. injection E2 as <-.
      rewrite (try_raised _ _ _ _ _ Ha) in E3. destruct (bool_decide (e0 = crash)); [discriminate E3|]. rewrite Hr in E3. discriminate E3.
Defined.
Lemma fork_head_left_behind_witness : exists n' c', switch_forks 0 (block_id block_3') forked_node = Done tt n' /\
  head_block_id_of n' = block_id block_3' /\ fork_head n' = Some c' /\ num_of (fork_db forked_node) c' < 3.
Proof.
  destruct (is_Done_true (switch_forks 0 (block_id block_3') forked_node)) as ([] & n' & E); [vm_compute; reflexivity|].
  destruct (fork_head_left_behind 0 (block_id block_3') forked_node _ _ 3%nat ltac:(vm_compute; reflexivity) example_fork_ok ltac:(vm_compute; reflexivity)
    ltac:(vm_compute; reflexivity) E) as (H & c' & Hc & L).
  assert (F : fetch_branch_from (fork_db forked_node) (block_id block_3') (head_block_id_of forked_node) = Ok ([3%nat; 2%nat], [1%nat]))
    by (vm_compute; reflexivity).
  assert (N : head_block_id_of forked_node <> previous_of (fork_db forked_node) 1) by (vm_compute; discriminate).
  assert (Three : num_of (fork_db forked_node) 3 = 3) by (vm_compute; reflexivity).
  specialize (L _ _ 1%nat F eq_refl N). rewrite Three in L. exists n', c'. auto.
Defined.
Lemma popping_ends_witness : pop_to (block_id example_block) forked_node = pop_until 15 (block_id example_block) forked_node.
Proof.
  rewrite (popping_ends (block_id example_block) forked_node 10 ltac:(vm_compute; reflexivity) example_fork_ok). reflexivity.
Defined.
Definition node_with_log : node block_log := example_node <| blog := example_log |>.
Lemma reindex_replays_witness : exists n', reindex 0 node_with_log = Done 2 n' /\
  apply_all example_table example_state = Ok (chain n') /\ revision n' = head_block_number (dgpo (chain n')).
Proof.
  destruct (is_Done_true (reindex 0 node_with_log)) as (k & n' & E); [vm_compute; reflexivity|].
  destruct (reindex_replays example_table node_with_log example_log_ok ltac:(discriminate) eq_refl) as [R _].
  destruct (R k n' E) as (-> & H1 & _ & H2 & _). exists n'. split; [exact E|]. split; [exact H1|exact H2].
Defined.
