(* ===== verification/ChainPlugin.v ===== *)
(** * ChainPlugin: the write queue in front of the chain database
    ([plugins/chain/chain_plugin_full.cpp], times of [fc/time.hpp]).

    Blocks, transactions and requests to produce a block come from several threads.
    Each caller puts a pointer to a context of its own into a queue and waits for the
    promise in it; one thread takes the contexts out, performs them on the database
    and stores what happened in the context.  The contexts are the cells of a list
    that pointers index; [boost::lockfree::queue] is a parameter. *)
From S2P Require Import Prelude Safe Names Asset Version Config Authority Raw Operations Validate.
From S2P Require Import Objects State Frame Economics Votes Money Balance EvalWitness EvalAccount.
From S2P Require Import EvalTransfer EvalEscrow EvalVote EvalContent Evaluators Block SignState.
From S2P Require Import Transactions WitnessSchedule Periodic Hardforks Blocks Genesis ForkDb BlockLog Node.
Local Open Scope Z_scope.
Local Open Scope list_scope.

(** ** fc/time.hpp: time points count microseconds, [time_point_sec] 32-bit seconds *)
Definition time_point_sec_of (t : Z) : Z := u32 (Z.quot t 1000000).
Definition time_point_of_sec (s : Z) : Z := s * 1000000.
Definition milliseconds (m : Z) : Z := m * 1000.
Definition minutes (m : Z) : Z := 60 * m * 1000000.

(** ** boost::lockfree::queue *)
Class lockfree_queue (Q : Type) := LockfreeQueue {
  queue_empty : Q;
  queue_push : nat -> Q -> Q;
  queue_pop : Q -> option (nat * Q) }.
(** Its documented order: first in, first out. *)
Class lockfree_queue_laws (Q : Type) `{lockfree_queue Q} := LockfreeQueueLaws {
  queued : Q -> list nat;
  queued_empty : queued queue_empty = [];
  queued_push c q : queued (queue_push c q) = queued q ++ [c];
  queued_pop q : match queue_pop q with
                 | Some (c, q') => queued q = c :: queued q'
                 | None => queued q = []
                 end }.

Section chain_plugin.
  Context {cfg : sophiatx_config} {ext : externals} {itp : interpreters} {cr : crypto} {sg : signer}.
  Context {T : Type} {st : block_store T}.
  Context {Q : Type} `{!lockfree_queue Q}.

(** ** Requests and their contexts *)
Inductive write_request :=
  | push_block_request (b : signed_block)
  | push_transaction_request (t : signed_transaction)
  | generate_block_request (when : Z) (witness_owner : account_name_type) (key : private_key) (skip : Z).

Record write_context := WriteContext {
  req_ptr : write_request;
  ctx_skip : Z;
  success : bool;
  except : option exn;
  req_block : option signed_block;  (* of a generate_block_request *)
  promise_set : nat                 (* how often the promise was completed *) }.
#[export] Instance write_context_eta : Eta write_context := fun x =>
  WriteContext (req_ptr x) (ctx_skip x) (success x) (except x) (req_block x) (promise_set x).
Definition new_context (r : write_request) (skip : Z) : write_context :=
  WriteContext r skip true None None 0.

(** [write_request_visitor]: every exception ends up in the context. *)
Definition visit_result : Type := bool * option exn * option signed_block.
Definition visit (r : write_request) (skip : Z) : NM T visit_result :=
  match r with
  | push_block_request b =>
      try (result ← push_block b skip; mret (result, None, None)) (fun e => mret (false, Some e, None))
  | push_transaction_request t =>
      try (push_transaction t skip_nothing ;; mret (true, None, None)) (fun e => mret (false, Some e, None))
  | generate_block_request when owner key skip =>
      try (b ← generate_block when owner key skip; mret (true, None, Some b))
        (fun e => mret (false, Some e, None))
  end.

(** What the write thread stores in the context; [set_value] on the promise. *)
Definition answer (r : visit_result) (x : write_context) : write_context :=
  x <| success := fst (fst r) |> <| except := snd (fst r) |> <| req_block := snd r |>
    <| promise_set ::= S |>.

(** ** The write thread *)
Record writer := Writer {
  database : node T;
  write_queue : Q;
  contexts : list write_context;
  cxt : option nat;            (* the context taken, while the write lock is held *)
  is_syncing : bool;
  start : Z;                   (* a time_point_sec *)
  write_lock_hold_time : Z;    (* milliseconds *)
  running : bool }.
#[export] Instance writer_eta : Eta writer := fun w =>
  Writer (database w) (write_queue w) (contexts w) (cxt w) (is_syncing w) (start w)
    (write_lock_hold_time w) (running w).
Definition start_write_processing (n : node T) (hold now : Z) : writer :=
  Writer n queue_empty [] None true (time_point_sec_of now) hold true.

(** [cxt->success = cxt->req_ptr.visit( req_visitor ); cxt->prom_ptr.visit( prom_visitor );];
    [None] for undefined behaviour. *)
Definition process (c : nat) (w : writer) : option writer :=
  x ← contexts w !! c;
  match visit (req_ptr x) (ctx_skip x) (database w) with
  | Done r n => Some (w <| database := n |> <| contexts ::= <[c := answer r x]> |>)
  | Raised _ _ | Broken _ => None
  end.

Definition head_block_time_of (n : node T) : Z := time (dgpo (chain n)).
Definition leave_sync (now : Z) (w : writer) : writer :=
  if is_syncing w
     && (time_point_of_sec (start w) - time_point_of_sec (head_block_time_of (database w)) <? minutes 1)
  then w <| start := time_point_sec_of now |> <| is_syncing := false |>
  else w.
Definition hold_expired (now : Z) (w : writer) : bool :=
  negb (is_syncing w) && (write_lock_hold_time w >=? 0)
  && (now - time_point_of_sec (start w) >? milliseconds (write_lock_hold_time w)).
Definition take_next (w : writer) : writer :=
  match queue_pop (write_queue w) with
  | Some (c, q) => w <| write_queue := q |> <| cxt := Some c |>
  | None => w <| cxt := None |>
  end.

(** One turn of the outer loop up to the write lock, or one of the inner loop; [now]
    and [now'] are what the clock shows. *)
Definition writer_turn (now now' : Z) (w : writer) : option writer :=
  match cxt w with
  | None =>
      if negb (running w) then Some w
      else Some (take_next (if is_syncing w then w else w <| start := time_point_sec_of now |>))
  | Some c =>
      w ← process c w;
      let w := leave_sync now w in
      Some (if hold_expired now' w then w <| cxt := None |> else take_next w)
  end.

(** ** The callers *)
Definition submit (r : write_request) (skip : Z) (w : writer) : writer :=
  w <| write_queue ::= queue_push (length (contexts w)) |>
    <| contexts ::= fun l => l ++ [new_context r skip] |>.

Definition allow_future_time : Z := 5.
Definition check_time_in_block (b : signed_block) (now : Z) : res unit :=
  let max_accept_time := u64 (time_point_sec_of now + allow_future_time) in
  fc_assert (timestamp b <=? max_accept_time).
(** What [accept_block] submits and what it returns once the promise is set. *)
Definition accept_block (b : signed_block) (currently_syncing : bool) (skip now : Z) : res (write_request * Z) :=
  check_time_in_block b now ;;
  Ok (push_block_request b, if currently_syncing then Z.lor skip skip_validate_invariants else skip).
Definition accepted (x : write_context) : res bool :=
  match except x with Some e => Throw e | None => Ok (success x) end.
Definition accept_transaction (t : signed_transaction) : write_request * Z := (push_transaction_request t, 0).
Definition generate_request (when : Z) (owner : account_name_type) (key : private_key) (skip : Z)
    : write_request * Z := (generate_block_request when owner key skip, 0).
Definition generated (x : write_context) : res signed_block :=
  match except x with
  | Some e => Throw e
  | None =>
      fc_assert (success x) ;;
      match req_block x with Some b => Ok b | None => Throw crash end
  end.
(** Only while the plugin is initialized and not started. *)
Definition set_write_lock_hold_time (initialized : bool) (new_time : Z) (w : writer) : res (Z * writer) :=
  fc_assert initialized ;;
  Ok (write_lock_hold_time w, w <| write_lock_hold_time := new_time |>).
Definition stop_write_processing (w : writer) : writer := w <| running := false |>.

(** ** Runs: turns of the write thread and submissions in any order *)
Inductive event :=
  | Turn (now now' : Z)
  | Submit (r : write_request) (skip : Z).
Definition happens (e : event) (w : writer) : option writer :=
  match e with
  | Turn now now' => writer_turn now now' w
  | Submit r skip => Some (submit r skip w)
  end.
Fixpoint run (es : list event) (w : writer) : option writer :=
  match es with
  | [] => Some w
  | e :: es => w ← happens e w; run es w
  end.
Fixpoint submitted (es : list event) : list (write_request * Z) :=
  match es with
  | [] => []
  | Turn _ _ :: es => submitted es
  | Submit r skip :: es => (r, skip) :: submitted es
  end.
Fixpoint turns (es : list event) : nat :=
  match es with
  | [] => 0
  | Turn _ _ :: es => S (turns es)
  | Submit _ _ :: es => turns es
  end.

(** The specification: the requests one after another. *)
Fixpoint one_by_one (rs : list (write_request * Z)) (n : node T) : option (list visit_result * node T) :=
  match rs with
  | [] => Some ([], n)
  | (r, skip) :: rs =>
      match visit r skip n with
      | Done a n =>
          '(l, n) ← one_by_one rs n;
          Some (a :: l, n)
      | Raised _ _ | Broken _ => None
      end
  end.
End chain_plugin.

(** ** The queue serves its callers in order *)
Section service.
  Context {cfg : sophiatx_config} {ext : externals} {itp : interpreters} {cr : crypto} {sg : signer}.
  Context {T : Type} {st : block_store T}.
  Context {Q : Type} `{lockfree_queue_laws Q}.
  Implicit Types (n : node T) (w : writer (T := T) (Q := Q)) (rs : list (write_request * Z)).

Lemma one_by_one_length rs n l n' : one_by_one rs n = Some (l, n') -> length l = length rs.
Proof.
  revert n l. induction rs as [|[r skip] rs IH]; intros n l; cbn [one_by_one].
  { by intros [= <- _]. }
  destruct (visit r skip n) as [a n1| |]; [|done..]. destruct (one_by_one rs n1) as [[l1 n2]|] eqn:E; [|done].
  cbn. intros [= <- <-]. cbn. f_equal. by eapply IH.
Qed.

Lemma one_by_one_app rs rs' n l n1 : one_by_one rs n = Some (l, n1) ->
  one_by_one (rs ++ rs') n = '(l', n') ← one_by_one rs' n1; Some (l ++ l', n').
Proof.
  revert n l. induction rs as [|[r skip] rs IH]; intros n l; cbn [one_by_one app].
  { intros [= <- <-]. by destruct (one_by_one rs' n) as [[]|]. }
  destruct (visit r skip n) as [a n2| |]; [|done..]. destruct (one_by_one rs n2) as [[l1 n3]|] eqn:E; [|done].
  cbn. intros [= <- <-]. rewrite (IH _ _ E). by destruct (one_by_one rs' n3) as [[]|].
Qed.

(** The contexts of requests that were answered and of those that were not. *)
Definition answered (rs : list (write_request * Z)) (l : list visit_result) : list write_context :=
  zip_with (fun p r => answer r (new_context (fst p) (snd p))) rs l.
Definition waiting_contexts (rs : list (write_request * Z)) : list write_context :=
  map (fun p => new_context (fst p) (snd p)) rs.

Definition in_hand (c : option nat) : list nat := match c with Some c => [c] | None => [] end.

(** The first [k] of the submitted requests are answered; the pointers to the others
    are in the queue or with the write thread. *)
Definition served n (rs : list (write_request * Z)) (k : nat) w : Prop :=
  (k <= length rs)%nat /\
  in_hand (cxt w) ++ queued (write_queue w) = seq k (length rs - k) /\
  exists l, one_by_one (take k rs) n = Some (l, database w)
    /\ contexts w = answered (take k rs) l ++ waiting_contexts (drop k rs).

Lemma contexts_length n rs k w : served n rs k w -> length (contexts w) = length rs.
Proof.
  intros (Hk & _ & l & Hl & ->). unfold answered, waiting_contexts.
  rewrite length_app, length_map, length_zip_with, (one_by_one_length _ _ _ _ Hl), length_take, length_drop. lia.
Qed.

Lemma served_start n hold now : served n [] 0 (start_write_processing n hold now).
Proof.
  unfold served. cbn [start_write_processing cxt write_queue database contexts in_hand].
  rewrite queued_empty. split_and!; [done|done|]. by exists [].
Qed.

Lemma served_submit n rs k w r skip : served n rs k w -> served n (rs ++ [(r, skip)]) k (submit r skip w).
Proof.
  intros Hw. pose proof (contexts_length _ _ _ _ Hw) as Hlen. destruct Hw as (Hk & Hq & l & Hl & Hc).
  unfold served, submit. cbn [cxt write_queue database contexts upd write_context_eta].
  rewrite length_app. cbn [length]. split_and!; [lia| |].
  - rewrite queued_push, app_assoc, Hq, Hlen.
    replace (length rs + 1 - k)%nat with (S (length rs - k)) by lia.
    rewrite seq_S. do 2 f_equal. lia.
  - exists l. rewrite take_app_le, drop_app_le by lia. split; [done|].
    rewrite Hc, <- app_assoc. f_equal. unfold waiting_contexts. by rewrite map_app.
Qed.

(** Steps that do not touch the database keep the queue in order. *)
Lemma served_take_next n rs k w : served n rs k w -> cxt w = None -> served n rs k (take_next w).
Proof.
  intros (Hk & Hq & l & Hl & Hc) Hx. rewrite Hx in Hq. cbn [in_hand app] in Hq.
  unfold take_next. pose proof (queued_pop (write_queue w)) as Hp.
  destruct (queue_pop (write_queue w)) as [[c q]|]; unfold served; cbn [cxt write_queue database contexts upd];
    (split_and!; [done| |by exists l]); cbn [in_hand app]; congruence.
Qed.

Definition same_service w w' : Prop :=
  database w' = database w /\ write_queue w' = write_queue w /\ contexts w' = contexts w /\ cxt w' = cxt w.
Lemma same_served n rs k w w' : same_service w w' -> served n rs k w -> served n rs k w'.
Proof. intros (E1 & E2 & E3 & E4). unfold served. by rewrite E1, E2, E3, E4. Qed.
Lemma leave_sync_same now w : same_service w (leave_sync now w).
Proof. unfold leave_sync. by destruct (_ && _). Qed.

Lemma served_process n rs k w c w' : served n rs k w -> cxt w = Some c -> process c w = Some w' ->
  c = k /\ (k < length rs)%nat /\ served n rs (S k) (w' <| cxt := None |>) /\ queued (write_queue w') = seq (S k) (length rs - S k).
Proof.
  intros Hw Hx Hp. pose proof (contexts_length _ _ _ _ Hw) as Hlen. destruct Hw as (Hk & Hq & l & Hl & Hc).
  rewrite Hx in Hq. cbn [in_hand app] in Hq.
  assert (Hlt : (k < length rs)%nat).
  { destruct (Nat.eq_dec k (length rs)) as [->|]; [|lia]. by rewrite Nat.sub_diag in Hq. }
  destruct (length rs - k)%nat as [|m] eqn:Em; [lia|]. cbn [seq] in Hq. injection Hq as -> Hq.
  destruct (lookup_lt_is_Some_2 rs k Hlt) as [[r skip] Hr].
  pose proof (one_by_one_length _ _ _ _ Hl) as Hll. rewrite length_take in Hll.
  assert (Ha : length (answered (take k rs) l) = k).
  { unfold answered. rewrite length_zip_with, length_take. lia. }
  assert (Hd : drop k rs = (r, skip) :: drop (S k) rs) by (by apply drop_S).
  unfold process in Hp. rewrite Hc, lookup_app_r in Hp by lia. rewrite Ha, Nat.sub_diag, Hd in Hp. cbn in Hp.
  destruct (visit r skip (database w)) as [a n1| |] eqn:Hv; [|done..]. injection Hp as <-.
  cbn [cxt write_queue database contexts upd].
  assert (Hq' : queued (write_queue w) = seq (S k) (length rs - S k)) by (rewrite Hq; f_equal; lia).
  split_and!; [done|done| |done]. unfold served. cbn [cxt write_queue database contexts upd in_hand app].
  split_and!; [lia|done|]. exists (l ++ [a]).
  rewrite (take_S_r rs k (r, skip)) by done. rewrite (one_by_one_app _ _ _ _ _ Hl). cbn [one_by_one]. rewrite Hv. cbn.
  split; [done|]. rewrite Hc, Hd. unfold answered, waiting_contexts. cbn [map fst snd].
  rewrite insert_app_r_alt by (fold (answered (take k rs) l); lia).
  fold (answered (take k rs) l). rewrite Ha, Nat.sub_diag. cbn [insert list_insert].
  rewrite zip_with_app by (rewrite length_take; lia). rewrite <- app_assoc. done.
Qed.

(** A turn of the write thread: it takes a context, answers the one it holds, or finds
    nothing to do. *)
Lemma served_turn n rs k w now now' w' : served n rs k w -> writer_turn now now' w = Some w' ->
  match cxt w with
  | Some _ => served n rs (S k) w'
  | None => served n rs k w' /\ (cxt w' <> None \/ running w = false \/ k = length rs)
  end.
Proof.
  intros Hw. unfold writer_turn. destruct (cxt w) as [c|] eqn:Hx.
  - destruct (process c w) as [w1|] eqn:Hp; [|done]. cbn. intros [= <-].
    destruct (served_process _ _ _ _ _ _ Hw Hx Hp) as (-> & Hlt & Hs & Hq).
    assert (Hl : served n rs (S k) ((leave_sync now w1) <| cxt := None |>)).
    { apply (same_served _ _ _ (w1 <| cxt := None |>)); [|done].
      destruct (leave_sync_same now w1) as (E1 & E2 & E3 & _). by split_and!. }
    destruct (hold_expired now' (leave_sync now w1)); [done|].
    pose proof (served_take_next _ _ _ _ Hl eq_refl) as Ht.
    unfold take_next in *. cbn [write_queue upd] in Ht. destruct (queue_pop _) as [[c' q]|]; exact Ht.
  - destruct (running w) eqn:Hr; cbn [negb]; intros [= <-].
    + set (w1 := if is_syncing w then w else _).
      assert (H1 : same_service w w1) by (subst w1; by destruct (is_syncing w)).
      assert (Hs1 : served n rs k w1) by by apply (same_served _ _ _ w).
      destruct H1 as (_ & _ & _ & H1). rewrite Hx in H1. split; [by apply served_take_next|].
      destruct Hs1 as (Hk & Hq & _). rewrite H1 in Hq. cbn [in_hand app] in Hq.
      unfold take_next. pose proof (queued_pop (write_queue w1)) as Hp.
      destruct (queue_pop (write_queue w1)) as [[c q]|]; [by left|]. right; right.
      rewrite Hp in Hq. destruct (length rs - k)%nat eqn:E; [lia|done].
    + split; [done|]. by right; left.
Qed.

Lemma served_happens n rs k w e w' : served n rs k w -> happens e w = Some w' ->
  exists k', (k <= k')%nat /\ served n (rs ++ submitted [e]) k' w'.
Proof.
  intros Hw. destruct e as [now now'|r skip]; cbn [happens submitted]; rewrite ?app_nil_r.
  - intros Ht. pose proof (served_turn _ _ _ _ _ _ _ Hw Ht) as Hs.
    destruct (cxt w); [exists (S k)|exists k; destruct Hs]; split; (done || lia).
  - intros [= <-]. exists k. split; [done|]. by apply served_submit.
Qed.

Lemma served_run n es : forall rs k w w', served n rs k w -> run es w = Some w' ->
  exists k', (k <= k')%nat /\ served n (rs ++ submitted es) k' w'.
Proof.
  induction es as [|e es IH]; intros rs k w w' Hw; cbn [run submitted].
  { intros [= <-]. exists k. by rewrite app_nil_r. }
  destruct (happens e w) as [w1|] eqn:He; [|done]. cbn. intros Hr.
  destruct (served_happens _ _ _ _ _ _ Hw He) as (k1 & Hk1 & H1).
  destruct (IH _ _ _ _ H1 Hr) as (k2 & Hk2 & H2). exists k2. split; [lia|].
  rewrite <- app_assoc in H2. by destruct e.
Qed.

(** Progress: the contexts answered, counted twice, and the one in hand. *)
Definition progress (k : nat) (w : writer (T := T) (Q := Q)) : nat := 2 * k + length (in_hand (cxt w)).

Lemma progress_turn n rs k w now now' w' : served n rs k w -> running w = true -> (k < length rs)%nat ->
  writer_turn now now' w = Some w' ->
  exists k', (k <= k')%nat /\ served n rs k' w' /\ (progress k w < progress k' w')%nat.
Proof.
  intros Hw Hr Hk Ht. pose proof (served_turn _ _ _ _ _ _ _ Hw Ht) as Hs. unfold progress.
  destruct (cxt w) as [c|] eqn:Hx.
  - exists (S k). split_and!; [lia|done|]. cbn [in_hand length]. lia.
  - destruct Hs as [Hs [Hn|[Hn|Hn]]]; [|congruence|lia]. exists k. split_and!; [done..|].
    destruct (cxt w'); [cbn; lia|done].
Qed.

Lemma running_happens e w w' : happens e w = Some w' -> running w' = running w.
Proof.
  destruct e as [now now'|r skip]; cbn [happens]; [|by intros [= <-]].
  unfold writer_turn, take_next, leave_sync. destruct (cxt w) as [c|].
  - unfold process. destruct (contexts w !! c) as [x|]; [|done]. cbn.
    destruct (visit _ _ _); [|done..]. cbn. intros [= <-].
    repeat (case_match; cbn [running upd]; try done).
  - destruct (negb (running w)); [by intros [= <-]|]. intros [= <-].
    repeat (case_match; cbn [running upd]; try done).
Qed.

Lemma progress_run n es : forall rs k w w', served n rs k w -> running w = true -> run es w = Some w' ->
  exists k', served n (rs ++ submitted es) k' w' /\
    (length rs <= k' \/ progress k w + turns es <= progress k' w')%nat.
Proof.
  induction es as [|e es IH]; intros rs k w w' Hw Hrun; cbn [run turns].
  { intros [= <-]. exists k. rewrite app_nil_r. split; [done|lia]. }
  destruct (happens e w) as [w1|] eqn:He; [|done]. cbn [mbind option_bind]. intros Hr.
  pose proof (running_happens _ _ _ He) as Hrun1. rewrite Hrun in Hrun1.
  destruct e as [now now'|r skip]; cbn [happens submitted] in *.
  - destruct (Nat.lt_ge_cases k (length rs)) as [Hk|Hk].
    + destruct (progress_turn _ _ _ _ _ _ _ Hw Hrun Hk He) as (k1 & Hk1 & H1 & Hp).
      destruct (IH _ _ _ _ H1 Hrun1 Hr) as (k2 & H2 & Hc). exists k2. split; [done|]. lia.
    + destruct (served_run _ (Turn now now' :: es) _ _ _ w' Hw) as (k2 & Hk2 & H2).
      { cbn [run happens]. by rewrite He. }
      exists k2. split; [done|]. lia.
  - injection He as <-. destruct (IH _ _ _ _ (served_submit _ _ _ _ r skip Hw) Hrun1 Hr) as (k2 & H2 & Hc).
    exists k2. rewrite <- app_assoc in H2. split; [done|]. rewrite length_app in Hc. cbn [length] in Hc. 
    unfold progress in *. cbn [submit cxt upd] in Hc. lia.
Qed.

Lemma served_context n rs k w i x : served n rs k w -> contexts w !! i = Some x ->
  promise_set x = (if decide (i < k)%nat then 1%nat else 0%nat).
Proof.
  intros (Hk & _ & l & Hl & Hc). rewrite Hc. pose proof (one_by_one_length _ _ _ _ Hl) as Hll.
  assert (Ha : length (answered (take k rs) l) = k).
  { unfold answered. rewrite length_zip_with, Hll, length_take. lia. }
  intros [Hx|[Hge Hx]]%lookup_app_Some.
  - pose proof (lookup_lt_Some _ _ _ Hx). rewrite Ha in *. rewrite decide_True by done.
    unfold answered in Hx. apply lookup_zip_with_Some in Hx as (r & p & -> & _). done.
  - rewrite Ha in *. rewrite decide_False by lia. unfold waiting_contexts in Hx.
    rewrite list_lookup_fmap in Hx. by apply fmap_Some in Hx as (p & _ & ->).
Qed.

Lemma running_run es : forall w w', run es w = Some w' -> running w' = running w.
Proof.
  induction es as [|e es IH]; intros w w'; cbn [run]; [by intros [= <-]|].
  destruct (happens e w) as [w1|] eqn:He; [|done]. cbn [mbind option_bind]. intros Hr.
  by rewrite (IH _ _ Hr), (running_happens _ _ _ He).
Qed.

(** The write thread leaves the sync mode by the time of its own start: until then
    [start] is never set again. *)
Lemma syncing_start es : forall w w', run es w = Some w' -> is_syncing w' = true ->
  is_syncing w = true /\ start w' = start w.
Proof.
  induction es as [|e es IH]; intros w w'; cbn [run]; [by intros [= <-]|].
  destruct (happens e w) as [w1|] eqn:He; [|done]. cbn [mbind option_bind]. intros Hr Hs.
  destruct (IH _ _ Hr Hs) as [Hs1 ->]. clear IH Hr Hs.
  destruct e as [now now'|r skip]; cbn [happens] in He; [|by injection He as <-].
  unfold writer_turn in He. destruct (cxt w) as [c|].
  - unfold process in He. destruct (contexts w !! c) as [x|]; [|done]. cbn in He.
    destruct (visit _ _ _) as [r n1| |]; [|done..]. cbn in He. injection He as <-. revert Hs1.
    unfold take_next, leave_sync, hold_expired. cbn [is_syncing start upd].
    repeat (case_match; cbn [is_syncing start upd]; try done).
  - destruct (negb (running w)); [by injection He as <-|]. injection He as <-. revert Hs1.
    unfold take_next. repeat (case_match; cbn [is_syncing start upd]; try done).
Qed.

(** In live mode the time of holding the lock is counted from the beginning of a
    second: late in a second the lock goes after every request. *)
Lemma lock_given_up_late_in_second c now now' w w' :
  is_syncing w = false -> write_lock_hold_time w = 500 -> 0 <= now' ->
  start w <= now' / 1000000 -> 500000 < now' mod 1000000 -> cxt w = Some c ->
  writer_turn now now' w = Some w' -> cxt w' = None.
Proof.
  intros Hs Hh Hn Hst Hm Hc. unfold writer_turn. rewrite Hc.
  destruct (process c w) as [w1|] eqn:Hp; [|done]. cbn [mbind option_bind]. intros [= <-].
  unfold process in Hp. destruct (contexts w !! c) as [x|]; [|done]. cbn in Hp.
  destruct (visit _ _ _) as [r n1| |]; [|done..]. injection Hp as <-.
  unfold leave_sync. cbn [is_syncing upd]. rewrite Hs. cbn [andb].
  match goal with |- context [hold_expired now' ?v] => enough (hold_expired now' v = true) as -> by done end.
  unfold hold_expired. cbn [is_syncing write_lock_hold_time start upd]. rewrite Hh. cbn [negb andb].
  unfold time_point_of_sec, milliseconds. pose proof (Z.div_mod now' 1000000).
  change (500 >=? 0) with true. cbn [andb]. apply Z.gtb_lt. lia.
Qed.
End service.
