(* ===== verification/WitnessPlugin.v ===== *)
(** * WitnessPlugin: block production ([plugins/witness/witness_plugin.cpp]).

    A timer wakes the plugin a few times per second; when a slot of one of its
    witnesses has come, the key of the witness is at hand, enough witnesses take part
    and the clock is close to the time of the slot, the plugin asks the chain plugin
    for a block.  It also refuses transfers whose memo gives away a key.  Base58 and
    key derivation are parameters. *)
From stdpp Require Import strings.
From S2P Require Import Prelude Safe Names Asset Version Config Authority Raw Operations Validate.
From S2P Require Import Objects State Frame Economics Votes Money Balance EvalWitness EvalAccount.
From S2P Require Import EvalTransfer EvalEscrow EvalVote EvalContent Evaluators Block SignState.
From S2P Require Import Transactions WitnessSchedule Periodic Hardforks Blocks Genesis ForkDb BlockLog Node.
From S2P Require Import ChainPlugin.
Local Open Scope Z_scope.
Local Open Scope list_scope.

Definition BLOCK_PRODUCING_LAG_TIME : Z := 750.
Definition BLOCK_PRODUCTION_LOOP_SLEEP_TIME : Z := 200000.

Inductive block_production_condition :=
  | produced | not_synced | not_my_turn | not_time_yet | no_private_key | low_participation
  | lag | consecutive | wait_for_genesis | exception_producing_block.
#[export] Instance block_production_condition_eq_dec : EqDecision block_production_condition.
Proof. solve_decision. Defined.

(** ** Memos *)
(** [extended_private_key::from_base58( memo ).get_public_key()], [None] for the parse
    and assert exceptions that are caught, and
    [private_key::regenerate( sha256::hash( seed ) ).get_public_key()]. *)
Class key_derivation := KeyDerivation {
  extended_key_from_base58 : list Z -> option public_key_type;
  key_of_seed : list Z -> public_key_type }.

Section memo.
  Context {kd : key_derivation}.

Definition keys_of_memo (memo name : list Z) : list public_key_type :=
  match extended_key_from_base58 memo with Some k => [k] | None => [] end
  ++ [key_of_seed (name ++ bytes_of_string "owner"%string ++ memo);
      key_of_seed (name ++ bytes_of_string "active"%string ++ memo);
      key_of_seed (name ++ bytes_of_string "posting"%string ++ memo)].
Definition refuse_keys (found keys : list public_key_type) : res unit :=
  forM found (fun k => forM keys (fun key => sophiatx_assert (negb (k =? key)) plugin_exception)).
Definition check_memo (memo : list Z) (account : account_object) (auth : account_authority_object) : res unit :=
  n ← string_of_name (acc_name account);
  let keys := keys_of_memo memo n in
  refuse_keys (get_keys (owner_auth auth)) keys ;;
  refuse_keys (get_keys (active_auth auth)) keys ;;
  refuse_keys [memo_key account] keys.

(** [operation_visitor], [pre_operation] *)
Definition visit_operation (o : operation) : DB unit :=
  match o with
  | op_transfer o =>
      whenM (Z.of_nat (length (tr_memo o)) >? 0)
        (account ← get_account (tr_from o);
         auth ← get_account_auth (tr_from o);
         ⌈ check_memo (tr_memo o) account auth ⌉)
  | _ => mret tt
  end.
Definition pre_operation (o : operation) : DB unit :=
  producing ← is_producing;
  whenM producing (visit_operation o).
End memo.

(** ** The production loop *)
Section production.
  Context {cfg : sophiatx_config} {ext : externals} {itp : interpreters} {cr : crypto} {sg : signer}.
  Context {T : Type} {st : block_store T}.

Record witness_plugin := WitnessPlugin {
  _production_enabled : bool;
  _required_witness_participation : Z;
  _production_skip_flags : Z;
  _private_keys : gmap Z private_key;      (* by public key *)
  _witnesses : list account_name_type }.
#[export] Instance witness_plugin_eta : Eta witness_plugin := fun p =>
  WitnessPlugin (_production_enabled p) (_required_witness_participation p) (_production_skip_flags p)
    (_private_keys p) (_witnesses p).
Definition new_witness_plugin : witness_plugin :=
  WitnessPlugin false (33 * SOPHIATX_1_PERCENT) skip_nothing ∅ [].

(** The options; a key that does not parse is [None]. *)
Record witness_options := WitnessOptions {
  opt_witness : list account_name_type;
  opt_private_key : list (option private_key);
  opt_stale_production : bool;
  opt_required_participation : option Z }.
Definition add_key (keys : gmap Z private_key) (k : option private_key) : res (gmap Z private_key) :=
  match k with Some k => Ok (<[get_public_key k := k]> keys) | None => Throw assert_exception end.
(** The plugin, and whether it keeps the write lock without limit. *)
Definition plugin_initialize (o : witness_options) : res (witness_plugin * bool) :=
  keys ← foldM add_key ∅ (opt_private_key o);
  let p := new_witness_plugin <| _witnesses := opt_witness o |> <| _private_keys := keys |>
             <| _production_enabled := opt_stale_production o |> in
  let p := match opt_required_participation o with
           | Some n => p <| _required_witness_participation := u32 (SOPHIATX_1_PERCENT * n) |>
           | None => p
           end in
  Ok (p, match _witnesses p with [] => false | _ => negb (bool_decide (_private_keys p = ∅)) end).
(** [None] when no witness is configured: the loop is not started. *)
Definition plugin_startup (p : witness_plugin) : option witness_plugin :=
  match _witnesses p with
  | [] => None
  | _ => Some (if _production_enabled p
               then p <| _production_skip_flags ::= fun f => Z.lor f skip_undo_history_check |> else p)
  end.

(** Microseconds until the next round. *)
Definition time_to_sleep (now : Z) : Z :=
  let t := BLOCK_PRODUCTION_LOOP_SLEEP_TIME - Z.rem now BLOCK_PRODUCTION_LOOP_SLEEP_TIME in
  if t <? 50000 then t + BLOCK_PRODUCTION_LOOP_SLEEP_TIME else t.

Definition controls (p : witness_plugin) (w : account_name_type) : bool :=
  existsb (name_eqb w) (_witnesses p).

Inductive decision :=
  | Idle (c : block_production_condition)
  | Produce (scheduled_time : Z) (scheduled_witness : account_name_type) (key : private_key) (skip : Z).

Definition rounded (now_fine : Z) : Z := time_point_sec_of (now_fine + 500000).

(** [maybe_produce_block] up to the call of [generate_block]; [s] is the state it reads. *)
Definition wake_up (now : Z) (s : db) (p : witness_plugin) : option witness_plugin :=
  if _production_enabled p then Some p
  else if get_slot_time_in s 1 >=? now then Some (p <| _production_enabled := true |>)
  else None.
Definition decide_production (now_fine : Z) (s : db) (p : witness_plugin) : res (witness_plugin * decision) :=
  let now := rounded now_fine in
  match wake_up now s p with
  | None => Ok (p, Idle not_synced)
  | Some p =>
      let slot := get_slot_at_time_in s now in
      if slot =? 0 then Ok (p, Idle not_time_yet)
      else
        '(scheduled_witness, _) ← get_scheduled_witness slot s;
        if negb (controls p scheduled_witness) then Ok (p, Idle not_my_turn)
        else
          let scheduled_time := get_slot_time_in s slot in
          '(w, _) ← get_witness scheduled_witness s;
          match _private_keys p !! signing_key w with
          | None => Ok (p, Idle no_private_key)
          | Some key =>
              if witness_participation_rate s <? _required_witness_participation p
              then Ok (p, Idle low_participation)
              else if Z.abs (time_point_of_sec scheduled_time - time_point_of_sec now)
                      >? milliseconds BLOCK_PRODUCING_LAG_TIME
              then Ok (p, Idle lag)
              else Ok (p, Produce scheduled_time scheduled_witness key (_production_skip_flags p))
          end
  end.

(** [block_production_loop]: what the round did; an exception other than that for
    an unknown hardfork is logged.  [generate] is [chain_plugin::generate_block]. *)
Definition block_production_loop (genesis_time now now' : Z)
    (generate : Z -> account_name_type -> private_key -> Z -> NM T signed_block) (p : witness_plugin)
    : NM T (witness_plugin * block_production_condition * option signed_block) :=
  if now <? time_point_of_sec genesis_time then mret (p, wait_for_genesis, None)
  else
    s ← reads chain;
    try ('(p, d) ← on_chain ⌈ decide_production now' s p ⌉;
         match d with
         | Idle c => mret (p, c, None)
         | Produce when owner key skip =>
             b ← generate when owner key skip;
             mret (p, produced, Some b)
         end)
      (fun e => if bool_decide (e = unknown_hardfork_exception) then mthrow e
                else mret (default p (wake_up (rounded now') s p), exception_producing_block, None)).
End production.

(** ** When a block is produced *)
Section decisions.
  Context {cfg : sophiatx_config} {ext : externals} {itp : interpreters} {cr : crypto} {sg : signer}.
  Implicit Types (s : db) (p : witness_plugin).

(** The conditions for producing in the state [s] when the clock shows [now]. *)
Record may_produce now s p (when : Z) (owner : account_name_type) (key : private_key) : Prop := MayProduce {
  mp_awake : _production_enabled p = true \/ rounded now <= get_slot_time_in s 1;
  mp_slot : get_slot_at_time_in s (rounded now) <> 0;
  mp_scheduled : get_scheduled_witness (get_slot_at_time_in s (rounded now)) s = Ok (owner, s);
  mp_own : controls p owner = true;
  mp_key : exists w, get_witness owner s = Ok (w, s) /\ _private_keys p !! signing_key w = Some key;
  mp_participation : _required_witness_participation p <= witness_participation_rate s;
  mp_time : when = get_slot_time_in s (get_slot_at_time_in s (rounded now)) /\ when = rounded now }.

Lemma wake_up_Some now s p p' : wake_up now s p = Some p' <->
  p' = p <| _production_enabled := true |> /\ (_production_enabled p = true \/ now <= get_slot_time_in s 1).
Proof.
  unfold wake_up. destruct p as [en r f k w]. cbn [_production_enabled upd]. destruct en.
  - naive_solver.
  - destruct (Z.geb_spec (get_slot_time_in s 1) now); naive_solver lia.
Qed.

Lemma lag_seconds a b : (Z.abs (time_point_of_sec a - time_point_of_sec b) >? milliseconds BLOCK_PRODUCING_LAG_TIME) = false
  <-> a = b.
Proof.
  unfold time_point_of_sec, milliseconds, BLOCK_PRODUCING_LAG_TIME.
  rewrite Z.gtb_ltb, Z.ltb_ge. split; intros; lia.
Qed.

Lemma scheduled_pure n s a s' : get_scheduled_witness n s = Ok (a, s') -> s' = s.
Proof. unfold get_scheduled_witness. intros H. by minv. Qed.
Lemma get_witness_pure n s w s' : get_witness n s = Ok (w, s') -> s' = s.
Proof. unfold get_witness, get. intros H. minv. by case_match; minv. Qed.

Lemma decide_produce_iff now s p p' when owner key skip :
  decide_production now s p = Ok (p', Produce when owner key skip) <->
  may_produce now s p when owner key /\ p' = p <| _production_enabled := true |> /\ skip = _production_skip_flags p.
Proof.
  unfold decide_production. destruct (wake_up (rounded now) s p) as [p1|] eqn:Hw.
  2: { split; [done|]. intros [Hm _].
       assert (H : wake_up (rounded now) s p = Some (p <| _production_enabled := true |>)) by (by apply wake_up_Some; destruct Hm).
       congruence. }
  apply wake_up_Some in Hw as [-> Hawake]. cbv zeta.
  destruct (Z.eqb_spec (get_slot_at_time_in s (rounded now)) 0) as [E|E].
  { split; [done|]. intros [[] _]. congruence. }
  destruct (get_scheduled_witness _ s) as [[w s1]|] eqn:Hs; cbn [mbind res_bind].
  2: { split; [done|]. intros [[] _]. congruence. }
  pose proof (scheduled_pure _ _ _ _ Hs) as ->.
  change (controls (p <| _production_enabled := true |>) w) with (controls p w).
  destruct (controls p w) eqn:Hc; cbn [negb].
  2: { split; [done|]. intros [[] _]. congruence. }
  destruct (get_witness w s) as [[ow s1]|] eqn:Hg; cbn [mbind res_bind].
  2: { split; [done|]. intros [[? ? ? ? (? & ? & ?)] _]. congruence. }
  pose proof (get_witness_pure _ _ _ _ Hg) as ->. cbn [_private_keys upd].
  destruct (_private_keys p !! signing_key ow) as [k|] eqn:Hk.
  2: { split; [done|]. intros [[? ? Hs' ? (ow' & ? & ?)] _]. congruence. }
  cbn [_required_witness_participation upd]. destruct (Z.ltb_spec (witness_participation_rate s) (_required_witness_participation p)).
  { split; [done|]. intros [[] _]. lia. }
  destruct (Z.abs _ >? _) eqn:Hl.
  { split; [done|]. intros [[? ? ? ? ? ? [-> Ht]] _]. exfalso.
    apply lag_seconds in Ht. congruence. }
  apply lag_seconds in Hl. split.
  - intros [= <- <- <- <- <-]. split_and!; [|done|done]. split; try done. by eexists.
  - intros [[? ? Hs' ? (ow' & ? & ?) ? [-> _]] [-> ->]]. assert (owner = w) as -> by congruence. assert (ow' = ow) as -> by congruence. assert (key = k) as -> by congruence. done.
Qed.

(** ** The chain accepts what the plugin decides *)

(** The keys are filed under their public keys, as [plugin_initialize] does. *)
Definition keys_ok p : Prop := forall k key, _private_keys p !! k = Some key -> get_public_key key = k.
Lemma add_keys_ok l : forall keys keys', (forall k key, keys !! k = Some key -> get_public_key key = k) ->
  foldM add_key keys l = Ok keys' -> forall k key, keys' !! k = Some key -> get_public_key key = k.
Proof.
  induction l as [|[k|] l IH]; intros keys keys' Hk; cbn [foldM].
  - by intros [= <-].
  - cbn. intros H. eapply IH; [|exact H]. intros k' key'. destruct (decide (get_public_key k = k')) as [<-|Hne].
    + rewrite lookup_insert_eq. by intros [= <-].
    + rewrite lookup_insert_ne by done. apply Hk.
  - done.
Qed.
Lemma initialize_keys_ok o p b : plugin_initialize o = Ok (p, b) -> keys_ok p.
Proof.
  unfold plugin_initialize. intros H. apply rbind_Ok in H as (keys & Hk & H). injection H as <- _.
  intros k key Hl. eapply (add_keys_ok _ ∅ keys); [intros ?? E; by rewrite lookup_empty in E|exact Hk|].
  destruct (opt_required_participation o); exact Hl.
Qed.

Lemma may_produce_passes now s p when owner key skip str : keys_ok p -> may_produce now s p when owner key ->
  0 <= get_slot_at_time_in s when -> string_of_name owner = Ok str -> name_eqb (fixed_string str) owner = true ->
  check_production when owner key skip s = Ok (tt, s).
Proof.
  intros Hok [_ Hslot Hsch _ (w & Hw & Hk) _ [_ Hwhen]] Hpos Hstr Hname. rewrite <- Hwhen in Hslot, Hsch.
  unfold check_production, get_slot_at_time, gets. unfold mbind at 1, ST_bind. cbn.
  unfold mbind, ST_bind. rewrite (proj2 (Z.gtb_lt _ _)) by lia. cbn.
  rewrite Hsch. unfold lift. rewrite Hstr, Hname. cbn. rewrite Hw.
  destruct (negb _); cbn; [|done]. rewrite (Hok _ _ Hk), Z.eqb_refl. done.
Qed.
End decisions.

(** ** The timer *)
Lemma time_to_sleep_range now : 0 <= now -> 50000 <= time_to_sleep now < 250000.
Proof.
  intros Hn. unfold time_to_sleep, BLOCK_PRODUCTION_LOOP_SLEEP_TIME.
  pose proof (Z.rem_bound_pos now 200000). destruct (Z.ltb_spec (200000 - Z.rem now 200000) 50000); lia.
Qed.
(** The times the loop wakes up; round [i] takes [busy i]. *)
Fixpoint wakes (busy : nat -> Z) (t0 : Z) (n : nat) : Z :=
  match n with
  | O => t0
  | S n => let done := wakes busy t0 n + busy n in done + time_to_sleep done
  end.
Lemma wakes_step busy t0 n : 0 <= t0 -> (forall i, 0 <= busy i <= 750000) -> 0 <= wakes busy t0 n ->
  wakes busy t0 n + 50000 <= wakes busy t0 (S n) < wakes busy t0 n + 1000000.
Proof.
  intros Ht Hb Hn. cbn [wakes]. pose proof (Hb n). pose proof (time_to_sleep_range (wakes busy t0 n + busy n)). lia.
Qed.
Lemma wakes_within busy t0 a : 0 <= t0 <= a -> (forall i, 0 <= busy i <= 750000) ->
  exists n, a <= wakes busy t0 n < a + 1000000.
Proof.
  intros Ht Hb.
  assert (Hpos : forall n, 0 <= wakes busy t0 n).
  { induction n as [|n IH]; [cbn; lia|]. pose proof (wakes_step busy t0 n ltac:(lia) Hb IH). lia. }
  assert (Hgo : forall k, (exists n, a <= wakes busy t0 n < a + 1000000) \/ wakes busy t0 k < a /\ t0 + 50000 * Z.of_nat k <= wakes busy t0 k).
  { induction k as [|k [IH|[IH1 IH2]]]; [|by left|].
    - cbn [wakes]. destruct (Z.le_gt_cases a t0); [left; exists O; cbn; lia|right; lia].
    - pose proof (wakes_step busy t0 k ltac:(lia) Hb (Hpos k)).
      destruct (Z.le_gt_cases a (wakes busy t0 (S k))); [left; exists (S k); lia|right; lia]. }
  destruct (Hgo (Z.to_nat a)) as [?|[H1 H2]]; [done|]. lia.
Qed.
