(* ===== verification/P2pPlugin.v ===== *)
(** * P2pPlugin: what the chain answers to the network
    ([plugins/p2p/p2p_plugin.cpp], the [node_delegate] of the network code).

    A node that lags sends a synopsis of its chain, ids that thin out towards the past;
    the peer answers with the ids after the last one it has on its own chain.  Every
    request runs under a read lock, so that it sees one state of the node; what may
    change is the block log, which is read. *)
From S2P Require Import Prelude Safe Names Asset Version Config Authority Raw Operations Validate.
From S2P Require Import Objects State Frame Economics Votes Money Balance EvalWitness EvalAccount.
From S2P Require Import EvalTransfer EvalEscrow EvalVote EvalContent Evaluators Block SignState.
From S2P Require Import Transactions WitnessSchedule Periodic Hardforks Blocks Genesis ForkDb BlockLog Node.
From S2P Require Import ForkDb ChainPlugin NodeFacts.
Local Open Scope Z_scope.
Local Open Scope list_scope.

(** [fc::raw::unpack] of a stored transaction. *)
Class transaction_packing := TransactionPacking { unpack_transaction : list Z -> res signed_transaction }.

Inductive item_type := trx_message_type | block_message_type.
#[export] Instance item_type_eq_dec : EqDecision item_type.
Proof. solve_decision. Defined.
Record item_id := ItemId { id_type : item_type; item_hash : hash160 }.
Inductive item_message := block_message (b : signed_block) | trx_message (t : signed_transaction).

Section p2p.
  Context {cfg : sophiatx_config} {ext : externals} {itp : interpreters} {cr : crypto} {tp : transaction_packing}.
  Context {T : Type} {st : block_store T}.
  Implicit Types (n : node T).

Definition is_included_block (h : hash160) : NM T bool :=
  let block_num := num_from_id h in
  block_id_in_preferred_chain ← get_block_id_for_num block_num;
  mret (bool_decide (h = block_id_in_preferred_chain)).

Definition has_item (i : item_id) : NM T bool :=
  match id_type i with
  | block_message_type => is_known_block (item_hash i)
  | trx_message_type => is_known_transaction (item_hash i)
  end.

(** [handle_block]: what is handed to the write queue; [Ok None] once the plugin shuts down. *)
Record p2p_plugin := P2pPlugin { force_validate : bool; block_producer : bool; p2p_running : bool }.
Definition block_skip_flags (p : p2p_plugin) : Z :=
  if block_producer p || force_validate p then skip_nothing else skip_transaction_signatures.
Definition handle_block {sg : signer} (p : p2p_plugin) (b : signed_block) (sync_mode : bool) (now : Z)
    : res (option (write_request * Z)) :=
  if p2p_running p then r ← accept_block b sync_mode (block_skip_flags p) now; Ok (Some r) else Ok None.
Definition handle_transaction {sg : signer} (t : signed_transaction) : write_request * Z := accept_transaction t.
Definition set_block_production (producing_blocks : bool) (p : p2p_plugin) : p2p_plugin :=
  P2pPlugin (force_validate p) producing_blocks (p2p_running p).

Definition get_recent_transaction (h : hash160) : NM T signed_transaction :=
  o ← reads (fun n => transactions (chain n) !! h);
  match o with
  | Some o => match unpack_transaction (packed_trx o) with Ok t => mret t | Throw e => mthrow e end
  | None => mthrow assert_exception
  end.
Definition get_item (i : item_id) : NM T item_message :=
  match id_type i with
  | block_message_type =>
      opt_block ← fetch_block_by_id (item_hash i);
      match opt_block with
      | Some b => mret (block_message b)
      | None =>
          (* the message of the log line looks the number up *)
          _ ← get_block_id_for_num (num_from_id (item_hash i));
          mthrow assert_exception
      end
  | trx_message_type => t ← get_recent_transaction (item_hash i); mret (trx_message t)
  end.

Definition get_block_number (h : hash160) : Z := num_from_id h.
Definition get_block_time (h : hash160) : NM T Z :=
  opt_block ← fetch_block_by_id h;
  mret (match opt_block with Some b => timestamp b | None => 0 end).

(** ** Ids for a peer *)
Definition empty_synopsis (synopsis : list hash160) : bool :=
  match synopsis with
  | [] => true
  | [h] => bool_decide (h = null_hash)
  | _ => false
  end.
(** The loop over the reversed synopsis. *)
Fixpoint last_known_of (reversed : list hash160) : NM T hash160 :=
  match reversed with
  | [] => mthrow peer_is_on_an_unreachable_fork
  | h :: reversed =>
      if bool_decide (h = null_hash) then mret h
      else
        known ← is_known_block h;
        if (known : bool) then
          included ← is_included_block h;
          if (included : bool) then mret h else last_known_of reversed
        else last_known_of reversed
  end.
Definition last_known_block (synopsis : list hash160) : NM T hash160 :=
  if empty_synopsis synopsis then mret null_hash else last_known_of (rev synopsis).

(** [for( num = ...; num <= head && result.size() < limit; ++num ) if( num > 0 ) push_back]:
    every round but the first of number 0 adds an id. *)
Fixpoint list_ids (fuel : nat) (num head limit : Z) (result : list hash160) : NM T (list hash160) :=
  match fuel with
  | O => mthrow crash
  | S fuel =>
      if (num <=? head) && (Z.of_nat (length result) <? limit) then
        if num >? 0 then
          h ← get_block_id_for_num num;
          list_ids fuel (u32 (num + 1)) head limit (result ++ [h])
        else list_ids fuel (u32 (num + 1)) head limit result
      else mret result
  end.
Definition remaining_items (head : Z) (result : list hash160) : Z :=
  match last result with
  | Some h => if num_from_id h <? head then u32 (head - num_from_id h) else 0
  | None => 0
  end.
Definition get_block_ids (synopsis : list hash160) (limit : Z) : NM T (list hash160 * Z) :=
  head ← reads (fun n => head_block_number (dgpo (chain n)));
  if head =? 0 then mret ([], 0)
  else
    last_known ← last_known_block synopsis;
    result ← list_ids (Z.to_nat limit + 2) (num_from_id last_known) head limit [];
    mret (result, remaining_items head result).

(** ** The synopsis *)
Definition pick_id (non_fork_high : Z) (fork_history : list hash160) (k : Z) : NM T hash160 :=
  if k <=? non_fork_high then get_block_id_for_num k
  else match fork_history !! Z.to_nat (u32 (k - non_fork_high - 1)) with
       | Some h => mret h
       | None => mthrow crash
       end.
(** [low_block_num += (true_high_block_num - low_block_num + 2) / 2], all unsigned. *)
Definition next_low (low true_high : Z) : Z := u32 (low + u32 (true_high - low + 2) / 2).
(** The [do] loop: the distance to the end halves with every round. *)
Fixpoint synopsis_loop (fuel : nat) (low high true_high non_fork_high : Z) (fork_history synopsis : list hash160)
    : NM T (list hash160) :=
  match fuel with
  | O => mthrow crash
  | S fuel =>
      h ← pick_id non_fork_high fork_history low;
      let synopsis := synopsis ++ [h] in
      let low := next_low low true_high in
      if low <=? high then synopsis_loop fuel low high true_high non_fork_high fork_history synopsis
      else mret synopsis
  end.

(** Where a synopsis begins and ends: the first number, the last one on the main chain,
    the last one, and the ids of the fork after the common block. *)
Definition synopsis_range (reference_point : hash160) : NM T (option (Z * Z * Z * list hash160)) :=
  low ← reads (fun n => last_irreversible_block_num (dgpo (chain n)));
  if negb (bool_decide (reference_point = null_hash)) then
    included ← is_included_block reference_point;
    if (included : bool) then
      let high := num_from_id reference_point in
      mret (Some (if high <? low then high else low, high, high, []))
    else
      fork_history ← get_block_ids_on_fork reference_point;
      match last fork_history with
      | None => mthrow crash
      | Some last_non_fork_block =>
          let fork_history := rev (removelast fork_history) in
          let non_fork_high := if bool_decide (last_non_fork_block = null_hash) then 0
                               else num_from_id last_non_fork_block in
          let high := u32 (non_fork_high + Z.of_nat (length fork_history)) in
          if non_fork_high <? low then mthrow block_older_than_undo_history
          else mret (Some (low, non_fork_high, high, fork_history))
      end
  else
    high ← reads (fun n => head_block_number (dgpo (chain n)));
    mret (if high =? 0 then None else Some (low, high, high, [])).
Definition get_blockchain_synopsis (reference_point : hash160) (number_of_blocks_after : Z) : NM T (list hash160) :=
  range ← synopsis_range reference_point;
  match range with
  | None => mret []
  | Some (low, non_fork_high, high, fork_history) =>
      let low := if low =? 0 then 1 else low in
      synopsis_loop 33 low high (u32 (high + number_of_blocks_after)) non_fork_high fork_history []
  end.
End p2p.

(** ** The numbers of a synopsis *)
Fixpoint synopsis_numbers (fuel : nat) (low high true_high : Z) : option (list Z) :=
  match fuel with
  | O => None
  | S fuel =>
      let low' := next_low low true_high in
      if low' <=? high then l ← synopsis_numbers fuel low' high true_high; Some (low :: l)
      else Some [low]
  end.

(** The distance to the end of the chain at least halves from one number to the next. *)
Inductive thinning (true_high : Z) : list Z -> Prop :=
  | thinning_one x : thinning true_high [x]
  | thinning_cons x y l : x < y -> 2 * (true_high - y) < true_high - x ->
      thinning true_high (y :: l) -> thinning true_high (x :: y :: l).

Lemma next_low_val low T : 0 <= low <= T -> T < 2^32 - 2 ->
  next_low low T = low + (T - low + 2) / 2 /\ low < next_low low T <= T + 1 /\ 2 * (T - next_low low T) < T - low.
Proof.
  intros Hl HT. unfold next_low, u32. rewrite (Z.mod_small (T - low + 2)) by lia.
  pose proof (Z.div_mod (T - low + 2) 2). pose proof (Z.mod_pos_bound (T - low + 2) 2).
  rewrite Z.mod_small by lia. lia.
Qed.

Lemma synopsis_numbers_spec fuel : forall low high T, 0 <= low <= high -> high <= T -> T < 2^32 - 2 ->
  T - low + 1 < 2^(Z.of_nat fuel) ->
  exists l, synopsis_numbers fuel low high T = Some (low :: l) /\ thinning T (low :: l) /\
    Forall (fun k => low <= k <= high) (low :: l) /\ (length (low :: l) <= fuel)%nat /\
    (high = T -> last (low :: l) = Some high).
Proof.
  induction fuel as [|fuel IH]; intros low high T Hl HT Hm Hf.
  { change (2^Z.of_nat 0) with 1 in Hf. lia. }
  cbn [synopsis_numbers]. destruct (next_low_val low T) as (Ev & Hr & Hh); [lia|lia|].
  set (y := next_low low T) in *. clearbody y.
  destruct (Z.leb_spec y high) as [Hy|Hy].
  - destruct (IH y high T) as (l & -> & Ht & Hin & Hlen & Hlast); [lia|lia|lia| |].
    { rewrite Nat2Z.inj_succ, Z.pow_succ_r in Hf by lia. lia. }
    cbn [mbind option_bind]. exists (y :: l). split_and!; [done|by constructor; [lia|lia|]| |cbn in *; lia|done].
    constructor; [lia|]. eapply Forall_impl; [exact Hin|]. cbn. lia.
  - exists []. split_and!; [done|constructor|constructor; [lia|done]|cbn; lia|].
    intros ->. cbn. f_equal. pose proof (Z.div_mod (T - low + 2) 2). pose proof (Z.mod_pos_bound (T - low + 2) 2). lia.
Qed.

(** The ids of a list of numbers, in order. *)
Section collect.
  Context {cfg : sophiatx_config} {ext : externals} {itp : interpreters} {cr : crypto}.
  Context {T : Type} {st : block_store T}.
  Implicit Types (n : node T).

Fixpoint collect {A B} (f : A -> NM T B) (l : list A) (acc : list B) : NM T (list B) :=
  match l with
  | [] => mret acc
  | x :: l => y ← f x; collect f l (acc ++ [y])
  end.

Lemma collect_length {A B} (f : A -> NM T B) l acc n r n' :
  collect f l acc n = Done r n' -> length r = (length acc + length l)%nat.
Proof.
  revert acc n. induction l as [|x l IH]; intros acc n; cbn [collect length].
  { intros [= <- _]. lia. }
  intros H. apply nbind_Done in H as (y & n1 & _ & H). rewrite (IH _ _ H), length_app. cbn. lia.
Qed.

Lemma synopsis_loop_collect fuel high th nf fh : forall low l acc n, synopsis_numbers fuel low high th = Some l ->
  synopsis_loop fuel low high th nf fh acc n = collect (pick_id nf fh) l acc n.
Proof.
  induction fuel as [|fuel IH]; intros low l acc n; cbn [synopsis_numbers synopsis_loop]; [done|].
  destruct (next_low low th <=? high).
  - destruct (synopsis_numbers fuel _ high th) as [l'|] eqn:E; [|done]. cbn. intros [= <-]. cbn [collect].
    unfold mbind, NM_bind. destruct (pick_id nf fh low n); [|done..]. by apply IH.
  - intros [= <-]. cbn [collect]. done.
Qed.

Lemma list_ids_collect fuel : forall num head limit acc n, 0 < num -> head < 2^32 - 1 -> num <= head + 1 ->
  0 <= limit - Z.of_nat (length acc) < Z.of_nat fuel ->
  list_ids fuel num head limit acc n =
    collect get_block_id_for_num (seqZ num (Z.min (limit - Z.of_nat (length acc)) (head - num + 1))) acc n.
Proof.
  induction fuel as [|fuel IH]; intros num head limit acc n Hn Hh Hnh Hf; cbn [list_ids].
  - lia.
  - destruct (Z.leb_spec num head), (Z.ltb_spec (Z.of_nat (length acc)) limit); cbn [andb];
      try (rewrite seqZ_nil by lia; done).
    rewrite (proj2 (Z.gtb_lt num 0)) by lia. rewrite seqZ_cons by lia. cbn [collect].
    unfold mbind, NM_bind. destruct (get_block_id_for_num num n); [|done..].
    unfold u32. rewrite Z.mod_small by lia. rewrite IH by (rewrite ?length_app; cbn; lia).
    rewrite length_app. cbn [length]. f_equal. f_equal; lia.
Qed.
Context {tp : transaction_packing}.

(** The ids passed over from [n] to [n']: unknown ones and ones of other forks. *)
Inductive passed_over : list hash160 -> node T -> node T -> Prop :=
  | passed_none n : passed_over [] n n
  | passed_unknown h l n n1 n2 : is_known_block h n = Done false n1 -> passed_over l n1 n2 ->
      passed_over (h :: l) n n2
  | passed_fork h l n n1 n2 n3 : is_known_block h n = Done true n1 -> is_included_block h n1 = Done false n2 ->
      passed_over l n2 n3 -> passed_over (h :: l) n n3.

Lemma last_known_of_Done l : forall n h n', last_known_of l n = Done h n' ->
  exists newer older n1, l = newer ++ h :: older /\ passed_over newer n n1 /\
    (h = null_hash \/ exists n2, is_known_block h n1 = Done true n2 /\ is_included_block h n2 = Done true n').
Proof.
  induction l as [|h0 l IH]; intros n h n'; cbn [last_known_of]; [done|].
  destruct (bool_decide_reflect (h0 = null_hash)) as [->|Hne].
  { intros [= <- <-]. exists [], l, n. split_and!; [done|constructor|by left]. }
  intros H. apply nbind_Done in H as (known & n1 & Hk & H). destruct known.
  - apply nbind_Done in H as (inc & n2 & Hi & H). destruct inc.
    + injection H as <- <-. exists [], l, n. split_and!; [done|constructor|right; by exists n1].
    + destruct (IH _ _ _ H) as (newer & older & n3 & -> & Hp & Hc).
      exists (h0 :: newer), older, n3. split_and!; [done|by eapply passed_fork|done].
  - destruct (IH _ _ _ H) as (newer & older & n3 & -> & Hp & Hc).
    exists (h0 :: newer), older, n3. split_and!; [done|by eapply passed_unknown|done].
Qed.

Lemma list_ids_start fuel k head limit n r n' : 0 <= k <= head + 1 -> 0 < head < 2^32 - 1 -> 0 <= limit ->
  limit + 1 < Z.of_nat fuel -> list_ids fuel k head limit [] n = Done r n' ->
  collect get_block_id_for_num (seqZ (Z.max 1 k) (Z.min limit (head - Z.max 1 k + 1))) [] n = Done r n'.
Proof.
  intros Hk Hh Hl Hf H. destruct (Z.eq_dec k 0) as [->|].
  - destruct fuel as [|fuel]; [lia|]. cbn [list_ids length] in H.
    rewrite (proj2 (Z.leb_le 0 head)) in H by lia. cbn [andb] in H. change (Z.of_nat 0) with 0 in H.
    destruct (Z.ltb_spec 0 limit).
    + change (0 >? 0) with false in H. cbv iota in H. change (u32 (0 + 1)) with 1 in H.
      rewrite list_ids_collect in H by (cbn; lia). change (Z.max 1 0) with 1.
      cbn [length] in H. by rewrite Z.sub_0_r in H.
    + rewrite seqZ_nil by lia. exact H.
  - rewrite list_ids_collect in H by (cbn; lia). cbn [length] in H. rewrite Z.sub_0_r in H.
    by replace (Z.max 1 k) with k by lia.
Qed.
End collect.
