(* ===== verification/Gossip.v ===== *)
(** * Gossip: how items spread among the peers of a node ([net/node.cpp],
    [net/peer_connection.cpp], [net/peer_connection.hpp]).

    The part of the network node that works once a peer is in sync: the cache of
    messages, what peers told about items and what was told to them, the items that are
    wanted and requested, and the handlers of the messages about them.  Handlers run in
    one thread and are steps on the state; what they send is a list of messages.  The
    sets of connections and of new items are unordered in the code: their order here is
    the order of the map and of arrival.  Readers of blocks and the client (the
    [node_delegate], see P2pPlugin) are parameters. *)
From S2P Require Import Prelude Config ChainPlugin P2pPlugin.
Local Open Scope Z_scope.
Local Open Scope list_scope.

(** ** Data *)
Definition item_hash_t : Type := list Z.
Definition item_id : Type := Z * item_hash_t.
Definition trx_message_type : Z := 1000.
Definition block_message_type : Z := 1001.
Definition GRAPHENE_NET_MESSAGE_CACHE_DURATION_IN_BLOCKS : Z := 20.
Definition GRAPHENE_NET_MAX_INVENTORY_SIZE_IN_MINUTES : Z := 2.
Definition GRAPHENE_NET_MAX_ITEMS_PER_PEER_DURING_NORMAL_OPERATION : nat := 1.
Definition GRAPHENE_NET_MAX_TRX_PER_SECOND : Z := 1000.
Definition GRAPHENE_NET_DEFAULT_MAX_CONNECTIONS : nat := 200.
Definition GRAPHENE_NET_PRUNE_FAILED_IDS_MINUTES : Z := 15.

Record message := Message { msg_type : Z; msg_data : list Z }.
Section id.
  Context `{externals}.
(** The hash of the data; the type is not hashed. *)
Definition id_of (m : message) : item_hash_t := ripemd160_hash (msg_data m).
End id.

(** [blockchain_tied_message_cache::message_info] *)
Record message_info := MessageInfo {
  mi_hash : item_hash_t; mi_body : message; mi_clock : Z; mi_origin : Z; mi_contents_hash : item_hash_t }.
(** [prioritized_item_id] *)
Record prioritized_item_id := Prioritized { item : item_id; sequence_number : Z; heard_at : Z }.
#[export] Instance prioritized_eta : Eta prioritized_item_id := fun p => Prioritized (item p) (sequence_number p) (heard_at p).

(** The part of a [peer_connection] that is used here; [connected] is false for a connection
    that is being closed. *)
Record net_peer := NetPeer {
  connected : bool;
  they_have_requested_close : bool;
  inventory_peer_advertised_to_us : gmap item_id Z;
  inventory_advertised_to_peer : gmap item_id Z;
  items_requested_from_peer : gmap item_id Z;
  sync_items_requested_from_peer : gset item_hash_t;
  item_ids_requested_from_peer : option (list item_hash_t);
  peer_needs_sync_items_from_us : bool;
  inhibit_fetching_sync_blocks : bool;
  transaction_fetching_inhibited_until : Z;
  last_block_delegate_has_seen : item_hash_t;
  last_block_time_delegate_has_seen : Z;
  last_known_fork_block_number : Z;
  ids_of_items_to_get : list item_hash_t;
  number_of_unfetched_item_ids : Z;
  we_need_sync_items_from_peer : bool;
  ids_of_items_being_processed : gset item_hash_t }.
#[export] Instance net_peer_eta : Eta net_peer := fun p =>
  NetPeer (connected p) (they_have_requested_close p) (inventory_peer_advertised_to_us p) (inventory_advertised_to_peer p)
    (items_requested_from_peer p) (sync_items_requested_from_peer p) (item_ids_requested_from_peer p)
    (peer_needs_sync_items_from_us p) (inhibit_fetching_sync_blocks p) (transaction_fetching_inhibited_until p)
    (last_block_delegate_has_seen p) (last_block_time_delegate_has_seen p) (last_known_fork_block_number p)
    (ids_of_items_to_get p) (number_of_unfetched_item_ids p) (we_need_sync_items_from_peer p) (ids_of_items_being_processed p).

Record net_node := NetNode {
  peers : gmap Z net_peer;
  _items_to_fetch : list prioritized_item_id;
  _items_to_fetch_sequence_counter : Z;
  _new_inventory : list item_id;
  _recently_failed_items : gmap item_id Z;
  _message_cache : list message_info;
  block_clock : Z;
  _message_ids_currently_being_processed : gset item_hash_t;
  _most_recent_blocks_accepted : list item_hash_t;
  _hard_fork_block_numbers : list Z;
  fetch_items_triggered : bool; fetch_sync_items_triggered : bool; advertise_triggered : bool }.
#[export] Instance net_node_eta : Eta net_node := fun n =>
  NetNode (peers n) (_items_to_fetch n) (_items_to_fetch_sequence_counter n) (_new_inventory n) (_recently_failed_items n)
    (_message_cache n) (block_clock n) (_message_ids_currently_being_processed n) (_most_recent_blocks_accepted n)
    (_hard_fork_block_numbers n) (fetch_items_triggered n) (fetch_sync_items_triggered n) (advertise_triggered n).

(** What is sent to a peer. *)
Inductive wire :=
  | fetch_items_message (item_type : Z) (items_to_fetch : list item_hash_t)
  | item_ids_inventory_message (item_type : Z) (item_hashes_available : list item_hash_t)
  | item_not_available_message (requested_item : item_id)
  | the_message (m : message)
  | queued_item (item : item_id)
  | closing_connection_message
  | fetch_blockchain_item_ids_message (blockchain_synopsis : list item_hash_t)
  | blockchain_item_ids_inventory_message (item_type total_remaining_item_count : Z) (item_hashes_available : list item_hash_t).
Definition outgoing : Type := list (Z * wire).

(** [insert] of the unordered containers: what is there stays. *)
Definition emplace {V} (k : item_id) (v : V) (m : gmap item_id V) : gmap item_id V :=
  match m !! k with Some _ => m | None => <[k := v]> m end.
Definition has {V} (k : item_id) (m : gmap item_id V) : bool := match m !! k with Some _ => true | None => false end.

Definition active_connections (n : net_node) : list (Z * net_peer) := List.filter (fun kp => connected (snd kp)) (map_to_list (peers n)).
Definition at_peer (k : Z) (f : net_peer -> net_peer) (n : net_node) : net_node := n <| peers ::= alter f k |>.

(** ** blockchain_tied_message_cache *)
Definition block_accepted (n : net_node) : net_node :=
  let clock := u32 (block_clock n + 1) in
  n <| block_clock := clock |>
    <| _message_cache ::= fun c =>
         if clock >? GRAPHENE_NET_MESSAGE_CACHE_DURATION_IN_BLOCKS
         then List.filter (fun i => mi_clock i >=? clock - GRAPHENE_NET_MESSAGE_CACHE_DURATION_IN_BLOCKS) c else c |>.
Definition find_message (hash : item_hash_t) (c : list message_info) : option message :=
  mi_body <$> List.find (fun i => bool_decide (mi_hash i = hash)) c.
Definition cache_message (m : message) (hash : item_hash_t) (origin : Z) (contents : item_hash_t) (n : net_node) : net_node :=
  match find_message hash (_message_cache n) with
  | Some _ => n
  | None => n <| _message_cache ::= fun c => MessageInfo hash m (block_clock n) origin contents :: c |>
  end.
Definition get_message (hash : item_hash_t) (n : net_node) : res message :=
  match find_message hash (_message_cache n) with Some m => Ok m | None => Throw key_not_found_exception end.

(** ** The items to fetch *)
(** An unsigned difference cast to [signed]. *)
Definition i32 (z : Z) : Z := if u32 z <? 2^31 then u32 z else u32 z - 2^32.
(** Blocks first, then in the order they were heard of, by 32-bit counters that wrap around. *)
Definition fetched_before (a b : prioritized_item_id) : bool :=
  if fst (item a) =? fst (item b) then i32 (sequence_number b - sequence_number a) >? 0
  else fst (item a) >? fst (item b).
Fixpoint insert_prioritized (x : prioritized_item_id) (l : list prioritized_item_id) : list prioritized_item_id :=
  match l with
  | [] => [x]
  | y :: l' => if fetched_before x y then x :: l else y :: insert_prioritized x l'
  end.
Definition wanted_in (it : item_id) (l : list prioritized_item_id) : bool := existsb (fun x => bool_decide (item x = it)) l.
(** [_items_to_fetch.insert(prioritized_item_id(item, _items_to_fetch_sequence_counter++))] *)
Definition want (now : Z) (it : item_id) (n : net_node) : net_node :=
  let x := Prioritized it (_items_to_fetch_sequence_counter n) now in
  n <| _items_to_fetch ::= fun l => if wanted_in it l then l else insert_prioritized x l |>
    <| _items_to_fetch_sequence_counter ::= fun c => u32 (c + 1) |>.
Definition trigger_fetch_items_loop (n : net_node) : net_node := n <| fetch_items_triggered := true |>.

(** ** peer_connection.cpp *)
Definition busy (p : net_peer) : bool :=
  negb (bool_decide (items_requested_from_peer p = ∅)) || negb (bool_decide (sync_items_requested_from_peer p = ∅))
  || match item_ids_requested_from_peer p with Some _ => true | None => false end.
Definition idle (p : net_peer) : bool := negb (busy p).
Definition is_transaction_fetching_inhibited (now : Z) (p : net_peer) : bool := transaction_fetching_inhibited_until p >? now.
(** Items whose second is before that of two minutes ago. *)
Definition recent_items (now minutes : Z) (m : gmap item_id Z) : gmap item_id Z :=
  let oldest := time_point_sec_of (now - minutes * 60 * 1000000) in
  filter (fun kt => Is_true (snd kt >=? oldest)) m.
Definition clear_old_inventory (now : Z) (p : net_peer) : net_peer :=
  p <| inventory_advertised_to_peer ::= recent_items now GRAPHENE_NET_MAX_INVENTORY_SIZE_IN_MINUTES |>
    <| inventory_peer_advertised_to_us ::= recent_items now GRAPHENE_NET_MAX_INVENTORY_SIZE_IN_MINUTES |>.
Definition is_inventory_advertised_to_us_list_full_for_transactions (p : net_peer) : bool :=
  Z.of_nat (size (inventory_peer_advertised_to_us p)) >?
    GRAPHENE_NET_MAX_INVENTORY_SIZE_IN_MINUTES * GRAPHENE_NET_MAX_TRX_PER_SECOND * 60.
Section full.
  Context {cfg : sophiatx_config}.
Definition is_inventory_advertised_to_us_list_full (p : net_peer) : bool :=
  Z.of_nat (size (inventory_peer_advertised_to_us p)) >?
    GRAPHENE_NET_MAX_INVENTORY_SIZE_IN_MINUTES * GRAPHENE_NET_MAX_TRX_PER_SECOND * 60
    + (GRAPHENE_NET_MAX_INVENTORY_SIZE_IN_MINUTES + 1) * 60 / SOPHIATX_BLOCK_INTERVAL.
End full.

(** Hashes grouped by the type of the items, in the order of the types. *)
Fixpoint group_item (ty : Z) (h : item_hash_t) (l : list (Z * list item_hash_t)) : list (Z * list item_hash_t) :=
  match l with
  | [] => [(ty, [h])]
  | (ty', hs) :: l' =>
      if ty =? ty' then (ty', hs ++ [h]) :: l'
      else if ty <? ty' then (ty, [h]) :: l else (ty', hs) :: group_item ty h l'
  end.
Definition group_by_type (items : list item_id) : list (Z * list item_hash_t) :=
  foldl (fun l it => group_item (fst it) (snd it) l) [] items.

(** ** fetch_items_loop, one round *)
(** Peers with the items they will be asked for, those with few items first. *)
Definition plan : Type := list (Z * list item_id).
Fixpoint insert_by_count (e : Z * list item_id) (l : plan) : plan :=
  match l with
  | [] => [e]
  | x :: l' => if Nat.ltb (length (snd e)) (length (snd x)) then e :: l else x :: insert_by_count e l'
  end.
(** [modify] leaves an entry in place unless the next one has fewer items. *)
Definition reposition (before : plan) (e : Z * list item_id) (after : plan) : plan :=
  match after with
  | x :: _ => if Nat.ltb (length (snd x)) (length (snd e)) then insert_by_count e (before ++ after) else before ++ e :: after
  | [] => before ++ [e]
  end.
Definition can_provide (now : Z) (ps : gmap Z net_peer) (it : item_id) (e : Z * list item_id) : bool :=
  match ps !! fst e with
  | Some p =>
      Nat.ltb (length (snd e)) GRAPHENE_NET_MAX_ITEMS_PER_PEER_DURING_NORMAL_OPERATION
      && has it (inventory_peer_advertised_to_us p)
      && negb ((fst it =? trx_message_type) && is_transaction_fetching_inhibited now p)
  | None => false
  end.
(** The first peer that can: the entries before it, it, and those after it. *)
Fixpoint choose_peer (now : Z) (ps : gmap Z net_peer) (it : item_id) (l : plan) : option (plan * (Z * list item_id) * plan) :=
  match l with
  | [] => None
  | e :: l' =>
      if can_provide now ps it e then Some ([], e, l')
      else '(before, e', after) ← choose_peer now ps it l'; Some (e :: before, e', after)
  end.
Definition oldest_timestamp_to_fetch `{sophiatx_config} (now : Z) : Z :=
  now - u32 (SOPHIATX_BLOCK_INTERVAL * GRAPHENE_NET_MESSAGE_CACHE_DURATION_IN_BLOCKS) * 1000000.
Fixpoint assign_items `{sophiatx_config} (now : Z) (l : list prioritized_item_id) (ps : gmap Z net_peer) (pl : plan)
    : gmap Z net_peer * plan * list prioritized_item_id :=
  match l with
  | [] => (ps, pl, [])
  | x :: l =>
      if heard_at x <? oldest_timestamp_to_fetch now then assign_items now l ps pl
      else
        match choose_peer now ps (item x) pl with
        | Some (before, (k, items), after) =>
            assign_items now l (alter (fun p => p <| items_requested_from_peer ::= emplace (item x) now |>) k ps)
              (reposition before (k, items ++ [item x]) after)
        | None => let '(ps', pl', rest) := assign_items now l ps pl in (ps', pl', x :: rest)
        end
  end.
Definition initial_plan (n : net_node) : plan :=
  map (fun kp => (fst kp, [])) (List.filter (fun kp => idle (snd kp)) (active_connections n)).
Definition fetch_items `{sophiatx_config} (now : Z) (n : net_node) : net_node * outgoing :=
  let '(ps, pl, rest) := assign_items now (_items_to_fetch n) (peers n) (initial_plan n) in
  (n <| fetch_items_triggered := false |> <| peers := ps |> <| _items_to_fetch := rest |>,
   flat_map (fun e => map (fun g => (fst e, fetch_items_message (fst g) (snd g))) (group_by_type (snd e))) pl).

(** ** advertise_inventory_loop, one round *)
Definition is_news (p : net_peer) (it : item_id) : bool :=
  negb (has it (inventory_advertised_to_peer p)) && negb (has it (inventory_peer_advertised_to_us p)).
Definition advertise_to (now : Z) (inventory : list item_id) (p : net_peer) : net_peer * list item_id :=
  if peer_needs_sync_items_from_us p then (p, [])
  else
    let news := List.filter (is_news p) inventory in
    (p <| inventory_advertised_to_peer ::= fun m => foldl (fun m it => emplace it (time_point_sec_of now) m) m news |>, news).
Definition advertise_inventory (now : Z) (n : net_node) : net_node * outgoing :=
  let inventory := _new_inventory n in
  (n <| advertise_triggered := false |> <| _new_inventory := [] |>
     <| peers ::= fmap (fun p => if connected p then clear_old_inventory now (fst (advertise_to now inventory p)) else p) |>,
   flat_map (fun kp => map (fun g => (fst kp, item_ids_inventory_message (fst g) (snd g)))
     (group_by_type (snd (advertise_to now inventory (snd kp))))) (active_connections n)).

(** ** Handlers *)
Definition is_item_in_any_peers_inventory (it : item_id) (n : net_node) : bool :=
  existsb (fun kp => has it (inventory_peer_advertised_to_us (snd kp))) (active_connections n).

Section inventory.
  Context {cfg : sophiatx_config}.
(** The connections are scanned up to the first one the item was advertised to. *)
Definition we_advertised (it : item_id) (n : net_node) : bool :=
  existsb (fun kp => has it (inventory_advertised_to_peer (snd kp))) (active_connections n).
Definition we_requested (it : item_id) (n : net_node) : bool :=
  existsb (fun kp => has it (items_requested_from_peer (snd kp))) (active_connections n).
Definition list_full (item_type : Z) (p : net_peer) : bool :=
  ((item_type =? trx_message_type) && is_inventory_advertised_to_us_list_full_for_transactions p)
  || is_inventory_advertised_to_us_list_full p.
(** An item the peer has and that was not requested yet. *)
Definition consider_item (now : Z) (it : item_id) (n : net_node) : net_node :=
  if has it (_recently_failed_items n) then n
  else if wanted_in it (_items_to_fetch n) then
    n <| _items_to_fetch ::= map (fun x => if bool_decide (item x = it) then x <| heard_at := now |> else x) |>
  else trigger_fetch_items_loop (want now it n).
Fixpoint inventory_received (now : Z) (origin item_type : Z) (hashes : list item_hash_t) (n : net_node) : net_node :=
  match hashes with
  | [] => n
  | h :: hashes =>
      let it := (item_type, h) in
      if bool_decide (h ∈ _message_ids_currently_being_processed n) || bool_decide (it ∈ _new_inventory n)
         || we_advertised it n
      then inventory_received now origin item_type hashes n
      else
        match peers n !! origin with
        | None => n
        | Some p =>
            if list_full item_type p then n
            else
              let n := at_peer origin (fun p => p <| inventory_peer_advertised_to_us ::= emplace it (time_point_sec_of now) |>) n in
              inventory_received now origin item_type hashes (if we_requested it n then n else consider_item now it n)
        end
  end.
Definition on_item_ids_inventory_message (now origin item_type : Z) (hashes : list item_hash_t) (n : net_node) : net_node :=
  inventory_received now origin item_type hashes (at_peer origin (clear_old_inventory now) n).
End inventory.

(** [disconnect_from_peer]; the sockets and the database of addresses are left out. *)
Definition disconnect_from_peer (k : Z) (n : net_node) : net_node * outgoing :=
  (at_peer k (fun p => p <| connected := false |>) n,
   match peers n !! k with
   | Some p => if they_have_requested_close p then [] else [(k, closing_connection_message)]
   | None => []
   end).
Definition on_closing_connection_message (k : Z) (n : net_node) : net_node :=
  at_peer k (fun p => p <| they_have_requested_close := true |>) n.

Definition on_item_not_available_message (now origin : Z) (it : item_id) (n : net_node) : net_node * outgoing :=
  match peers n !! origin with
  | None => (n, [])
  | Some p =>
      if has it (items_requested_from_peer p) then
        let n := at_peer origin (fun p => p <| items_requested_from_peer ::= delete it |>
                                            <| inventory_peer_advertised_to_us ::= delete it |>) n in
        (trigger_fetch_items_loop (if is_item_in_any_peers_inventory it n then want now it n else n), [])
      else if bool_decide (snd it ∈ sync_items_requested_from_peer p) then
        let n := at_peer origin (fun p => p <| sync_items_requested_from_peer ::= fun s => s ∖ {[snd it]} |>) n in
        let '(n, out) := if peer_needs_sync_items_from_us p
                         then (at_peer origin (fun p => p <| inhibit_fetching_sync_blocks := true |>) n, [])
                         else disconnect_from_peer origin n in
        (n <| fetch_sync_items_triggered := true |>, out)
      else (n, [])
  end.

(** A connection is gone: what was requested from it is fetched from another peer. *)
Definition on_connection_closed (now k : Z) (n : net_node) : net_node :=
  match peers n !! k with
  | None => n
  | Some p =>
      let n := n <| peers ::= delete k |> in
      let n := if bool_decide (sync_items_requested_from_peer p = ∅) then n else n <| fetch_sync_items_triggered := true |> in
      if bool_decide (items_requested_from_peer p = ∅) then n
      else
        trigger_fetch_items_loop
          (foldl (fun n it => if is_item_in_any_peers_inventory it n then want now it n else n) n
             (map fst (map_to_list (items_requested_from_peer p))))
  end.
Definition prune_failed_items (now : Z) (n : net_node) : net_node :=
  n <| _recently_failed_items ::= recent_items now GRAPHENE_NET_PRUNE_FAILED_IDS_MINUTES |>.

(** ** Messages with contents *)
Record block_contents := BlockContents { bc_id : item_hash_t; bc_num : Z; bc_timestamp : Z }.
(** The number in the id of a block. *)
Class block_numbers := get_block_number : item_hash_t -> Z.
(** The client of the node, and the readers of what a message holds. *)
Class node_client := NodeClient {
  get_item : item_id -> res message;
  handle_message : message -> res item_hash_t;
  handle_block : message -> res (list item_hash_t);
  get_block_time : item_hash_t -> Z;
  get_blockchain_synopsis : item_hash_t -> Z -> res (list item_hash_t);
  read_block : message -> res block_contents }.

Section messages.
  Context {cfg : sophiatx_config} {ext : externals} {bn : block_numbers} {cl : node_client}.

(** A full [circular_buffer] loses its oldest element. *)
Definition push_recent (id : item_hash_t) (l : list item_hash_t) : list item_hash_t :=
  let l := l ++ [id] in drop (length l - GRAPHENE_NET_DEFAULT_MAX_CONNECTIONS) l.
Definition insert_new_inventory (it : item_id) (n : net_node) : net_node :=
  n <| _new_inventory ::= fun l => if bool_decide (it ∈ l) then l else l ++ [it] |>.
(** [contents] is the id of the block or the transaction. *)
Definition broadcast (m : message) (origin : Z) (contents : item_hash_t) (n : net_node) : net_node :=
  let n := if msg_type m =? block_message_type then n <| _most_recent_blocks_accepted ::= push_recent contents |> else n in
  insert_new_inventory (msg_type m, id_of m) (cache_message m (id_of m) origin contents n) <| advertise_triggered := true |>.

(** What is known about one requested hash: a message, or that there is none. *)
Definition find_item (item_type : Z) (h : item_hash_t) (n : net_node) : res (option message) :=
  match get_message h n with
  | Ok m => Ok (Some m)
  | Throw _ =>
      match get_item (item_type, h) with
      | Ok m => Ok (Some m)
      | Throw key_not_found_exception => Ok None
      | Throw e => Throw e
      end
  end.
Definition reply_to (item_type : Z) (h : item_hash_t) (m : option message) : res wire :=
  match m with
  | None => Ok (item_not_available_message (item_type, h))
  | Some m => if msg_type m =? block_message_type then b ← read_block m; Ok (queued_item (block_message_type, bc_id b))
              else Ok (the_message m)
  end.
Definition is_Some_b {A} (o : option A) : bool := match o with Some _ => true | None => false end.
Fixpoint mapR {A B} (f : A -> res B) (l : list A) : res (list B) :=
  match l with [] => Ok [] | x :: l => y ← f x; ys ← mapR f l; Ok (y :: ys) end.
Definition on_fetch_items_message (origin item_type : Z) (items_to_fetch : list item_hash_t) (n : net_node)
    : res (net_node * outgoing) :=
  found ← mapR (fun h => find_item item_type h n) items_to_fetch;
  n ← (match (if item_type =? block_message_type then List.last (List.filter is_Some_b found) None else None) with
       | Some m => b ← read_block m;
           Ok (at_peer origin (fun p => p <| last_block_delegate_has_seen := bc_id b |>
                                          <| last_block_time_delegate_has_seen := get_block_time (bc_id b) |>) n)
       | None => Ok n
       end);
  replies ← mapR (fun hm => reply_to item_type (fst hm) (snd hm)) (combine items_to_fetch found);
  Ok (n, map (fun w => (origin, w)) replies).

(** A transaction, or a message of a type the node does not know. *)
Definition process_ordinary_message (now origin : Z) (m : message) (n : net_node) : net_node * outgoing :=
  let it := (msg_type m, id_of m) in
  match peers n !! origin with
  | None => (n, [])
  | Some p =>
      if negb (has it (items_requested_from_peer p)) then disconnect_from_peer origin n
      else
        let n := at_peer origin (fun p => p <| items_requested_from_peer ::= delete it |>) n in
        let n := if idle (p <| items_requested_from_peer ::= delete it |>) then trigger_fetch_items_loop n else n in
        match handle_message m with
        | Throw _ => (n <| _recently_failed_items ::= emplace it (time_point_sec_of now) |>, [])
        | Ok contents => (broadcast m origin contents n, [])
        end
  end.

(** ** Blocks *)
Definition no_hash : item_hash_t := repeat 0 20.
(** [create_blockchain_synopsis_for_peer]: the synopsis of the client, continued by the ids
    that are known of the peer.  Every round at least halves the distance to the end. *)
Fixpoint complete_synopsis (fuel : nat) (ids : list item_hash_t) (first true_high low : Z) (synopsis : list item_hash_t)
    : res (list item_hash_t) :=
  match fuel with
  | O => Throw crash
  | S fuel =>
      synopsis ← (if low >=? first then match ids !! Z.to_nat (low - first) with Some h => Ok (synopsis ++ [h]) | None => Throw crash end
                  else Ok synopsis);
      let low := next_low low true_high in
      if low <=? true_high then complete_synopsis fuel ids first true_high low synopsis else Ok synopsis
  end.
Definition create_blockchain_synopsis_for_peer (p : net_peer) : res (list item_hash_t) :=
  let ids := ids_of_items_to_get p in
  let number_of_blocks_after_reference_point := u32 (Z.of_nat (length ids)) in
  synopsis ← get_blockchain_synopsis (last_block_delegate_has_seen p) number_of_blocks_after_reference_point;
  match ids with
  | [] => Ok synopsis
  | h :: _ =>
      let first := get_block_number h in
      let true_high := u32 (first + Z.of_nat (length ids) - 1) in
      complete_synopsis 33 ids first true_high (match synopsis with [] => 1 | s :: _ => get_block_number s end) synopsis
  end.
(** Any other exception ends the handler. *)
Definition fetch_next_batch_of_item_ids_from_peer (k : Z) (n : net_node) : net_node * outgoing :=
  match peers n !! k with
  | None => (n, [])
  | Some p =>
      match create_blockchain_synopsis_for_peer p with
      | Ok synopsis =>
          (at_peer k (fun p => p <| item_ids_requested_from_peer := Some synopsis |>) n, [(k, fetch_blockchain_item_ids_message synopsis)])
      | Throw block_older_than_undo_history => disconnect_from_peer k n
      | Throw _ => (n, [])
      end
  end.
Definition start_synchronizing_with_peer (k : Z) (n : net_node) : net_node * outgoing :=
  fetch_next_batch_of_item_ids_from_peer k
    (at_peer k (fun p => p <| ids_of_items_to_get := [] |> <| number_of_unfetched_item_ids := 0 |>
      <| we_need_sync_items_from_peer := true |> <| last_block_delegate_has_seen := no_hash |>
      <| last_block_time_delegate_has_seen := get_block_time no_hash |> <| inhibit_fetching_sync_blocks := false |>) n).
Definition is_hard_fork_block (block_number : Z) (n : net_node) : bool :=
  existsb (Z.eqb block_number) (_hard_fork_block_numbers n).
Definition get_next_known_hard_fork_block_number (block_number : Z) (n : net_node) : Z :=
  from_option id 0 (List.find (fun x => x >? block_number) (_hard_fork_block_numbers n)).
Definition too_old (block_number : Z) (n : net_node) (p : net_peer) : bool :=
  negb (last_known_fork_block_number p =? 0) &&
  (let next := get_next_known_hard_fork_block_number (last_known_fork_block_number p) n in
   negb (next =? 0) && (next <=? block_number)).
Definition disconnect_all (ks : list Z) (n : net_node) : net_node * outgoing :=
  foldl (fun '(n, out) k => let '(n, o) := disconnect_from_peer k n in (n, out ++ o)) (n, []) ks.

(** [block_accepted] by the client: peers that offered it have it, the others are told. *)
Definition accept_block (now origin : Z) (m : message) (b : block_contents) (n : net_node) : net_node * outgoing :=
  let it := (block_message_type, id_of m) in
  let n := n <| peers ::= fmap (fun p =>
    if connected p then
      clear_old_inventory now (if has it (inventory_peer_advertised_to_us p)
        then p <| last_block_delegate_has_seen := bc_id b |> <| last_block_time_delegate_has_seen := bc_timestamp b |> else p)
    else p) |> in
  let n := block_accepted (broadcast m origin (bc_id b) n) in
  if is_hard_fork_block (bc_num b) n
  then disconnect_all (map fst (List.filter (fun kp => too_old (bc_num b) n (snd kp)) (active_connections n))) n
  else (n, []).
(** The hash stays marked as being processed when the client throws. *)
Definition process_block_during_normal_operation (now origin : Z) (m : message) (b : block_contents) (n : net_node)
    : net_node * outgoing :=
  if bool_decide (bc_id b ∈ _most_recent_blocks_accepted n) then accept_block now origin m b n
  else
    let n := n <| _message_ids_currently_being_processed ::= fun s => {[id_of m]} ∪ s |> in
    match handle_block m with
    | Ok contained =>
        let n := n <| _message_ids_currently_being_processed ::= fun s => s ∖ {[id_of m]} |>
                   <| _most_recent_blocks_accepted ::= push_recent (bc_id b) |>
                   <| _items_to_fetch ::= List.filter (fun x =>
                        negb ((fst (item x) =? trx_message_type) && bool_decide (snd (item x) ∈ contained))) |> in
        accept_block now origin m b n
    | Throw unlinkable_block_exception => start_synchronizing_with_peer origin n
    | Throw _ =>
        disconnect_all (origin :: map fst (List.filter (fun kp =>
          negb (fst kp =? origin) && bool_decide (head (ids_of_items_to_get (snd kp)) = Some (bc_id b))) (active_connections n))) n
    end.
(** [process_block_message], of a block that was requested in normal operation. *)
Definition process_requested_block (now origin : Z) (m : message) (n : net_node) : res (net_node * outgoing) :=
  b ← read_block m;
  let it := (block_message_type, id_of m) in
  let '(n, out) := process_block_during_normal_operation now origin m b
    (at_peer origin (fun p => p <| items_requested_from_peer ::= delete it |>) n) in
  Ok (match peers n !! origin with
      | Some p => if idle p then trigger_fetch_items_loop n else n
      | None => n
      end, out).
End messages.

(** ** Steps *)
Definition new_peer (p : net_peer) : Prop :=
  connected p = true /\ items_requested_from_peer p = ∅ /\ inventory_peer_advertised_to_us p = ∅ /\ inventory_advertised_to_peer p = ∅ /\
  sync_items_requested_from_peer p = ∅ /\ ids_of_items_to_get p = [] /\ ids_of_items_being_processed p = ∅.
Definition is_active (k : Z) (n : net_node) : Prop := exists p, peers n !! k = Some p /\ connected p = true.

Section steps.
  Context {cfg : sophiatx_config} {ext : externals} {bn : block_numbers} {cl : node_client}.
(** What happens to a node while none of its closing connections is heard of. *)
Inductive gossip_step (n : net_node) : net_node -> Prop :=
| step_joined k p : peers n !! k = None -> new_peer p -> gossip_step n (n <| peers ::= <[k := p]> |>)
| step_inventory now k ty hs : is_active k n -> gossip_step n (on_item_ids_inventory_message now k ty hs n)
| step_fetch now : gossip_step n (fst (fetch_items now n))
| step_advertise now : gossip_step n (fst (advertise_inventory now n))
| step_not_available now k it : is_active k n -> gossip_step n (fst (on_item_not_available_message now k it n))
| step_ordinary now k m : is_active k n -> gossip_step n (fst (process_ordinary_message now k m n))
| step_block now k m n' out : is_active k n -> process_requested_block now k m n = Ok (n', out) -> gossip_step n n'
| step_requested k ty hs n' out : on_fetch_items_message k ty hs n = Ok (n', out) -> gossip_step n n'
| step_broadcast m k contents : gossip_step n (broadcast m k contents n)
| step_closing k : gossip_step n (on_closing_connection_message k n)
| step_disconnect k : gossip_step n (fst (disconnect_from_peer k n))
| step_closed now k : is_active k n -> gossip_step n (on_connection_closed now k n)
| step_prune now : gossip_step n (prune_failed_items now n).
End steps.

(** ** Who is asked for what *)
Definition requests (ps : gmap Z net_peer) (k : Z) (it : item_id) : Prop :=
  exists p, ps !! k = Some p /\ connected p = true /\ has it (items_requested_from_peer p) = true.
Record exclusive (ps : gmap Z net_peer) (l : list prioritized_item_id) : Prop := Exclusive {
  one_peer : forall it k1 k2, requests ps k1 it -> requests ps k2 it -> k1 = k2;
  one_item : forall k it1 it2, requests ps k it1 -> requests ps k it2 -> it1 = it2;
  not_wanted : forall it k, requests ps k it -> it ∉ map item l;
  wanted_once : NoDup (map item l) }.
(** No item is asked for twice, no peer for two items, and what was asked for is not
    waiting to be. *)
Definition requested_once (n : net_node) : Prop := exclusive (peers n) (_items_to_fetch n).

Lemma has_spec {V} (it : item_id) (m : gmap item_id V) : has it m = true <-> is_Some (m !! it).
Proof. unfold has. destruct (m !! it); split; eauto; [done|by intros []]. Qed.
Lemma has_emplace {V} (it it' : item_id) (v : V) m : has it' (emplace it v m) = bool_decide (it' = it) || has it' m.
Proof.
  unfold emplace, has. destruct (m !! it) eqn:E; case_bool_decide as Hd; subst; rewrite ?E, ?lookup_insert_eq, ?lookup_insert_ne by done; done.
Qed.
Lemma has_delete {V} (it it' : item_id) (m : gmap item_id V) : has it' (delete it m) = true -> has it' m = true /\ it' <> it.
Proof.
  unfold has. destruct (decide (it' = it)) as [->|Hne]; [by rewrite lookup_delete_eq|]. by rewrite lookup_delete_ne by done.
Qed.
Lemma wanted_in_spec it l : wanted_in it l = true <-> it ∈ map item l.
Proof.
  unfold wanted_in. rewrite existsb_exists, list_elem_of_In, in_map_iff. split.
  - intros (x & Hx & Hd). apply bool_decide_eq_true in Hd. by exists x.
  - intros (x & Hd & Hx). exists x. split; [done|]. by apply bool_decide_eq_true.
Qed.

(** Fewer requests and fewer wishes keep the invariant. *)
Lemma exclusive_weaken ps l ps' l' : exclusive ps l -> (forall k it, requests ps' k it -> requests ps k it) ->
  (forall it, it ∈ map item l' -> it ∈ map item l) -> NoDup (map item l') -> exclusive ps' l'.
Proof.
  intros [H1 H2 H3 H4] Hr Hw Hn. split; [| | |done].
  - intros it k1 k2 R1%Hr R2%Hr. by eapply H1.
  - intros k i1 i2 R1%Hr R2%Hr. by eapply H2.
  - intros it k R%Hr Hin%Hw. by eapply H3.
Qed.
Lemma exclusive_peers ps l ps' : exclusive ps l -> (forall k it, requests ps' k it -> requests ps k it) -> exclusive ps' l.
Proof. intros H Hr. eapply exclusive_weaken; [done|done|done|apply H]. Qed.

Lemma exclusive_same_items ps l l' : map item l' = map item l -> exclusive ps l -> exclusive ps l'.
Proof. intros E [H1 H2 H3 H4]. split; [done|done| |by rewrite E]. intros it k R. rewrite E. by eapply H3. Qed.

Lemma exclusive_filter ps f l : exclusive ps l -> exclusive ps (List.filter f l).
Proof.
  intros H. eapply exclusive_weaken; [exact H|done| |].
  - intros it. rewrite !list_elem_of_In, !in_map_iff. intros (x & <- & Hx). apply filter_In in Hx as [Hx _]. by exists x.
  - pose proof (wanted_once _ _ H) as Hn. clear H. induction l as [|x l IH]; [constructor|].
    cbn [map List.filter] in *. apply NoDup_cons in Hn as [Hx Hn]. destruct (f x); [|by apply IH]. cbn [map].
    constructor; [|by apply IH]. intros Hin. apply Hx. apply list_elem_of_In, in_map_iff in Hin as (y & Hy & Hin).
    apply filter_In in Hin as [Hin _]. apply list_elem_of_In, in_map_iff. by exists y.
Qed.

(** A change of a peer that neither connects it nor requests anything. *)
Definition tame (f : net_peer -> net_peer) : Prop := forall p, connected (f p) = true ->
  connected p = true /\ forall it, has it (items_requested_from_peer (f p)) = true -> has it (items_requested_from_peer p) = true.
Lemma requests_alter f k0 ps k it : tame f -> requests (alter f k0 ps) k it -> requests ps k it.
Proof.
  intros Hf (p & Hp & Hc & Hit). apply lookup_alter_Some in Hp as [(-> & p0 & Hp0 & ->)|[Hne Hp]]; [|by exists p].
  destruct (Hf p0 Hc) as [Hc0 Hi]. exists p0. auto.
Qed.
Lemma requests_fmap f ps k it : tame f -> requests (f <$> ps) k it -> requests ps k it.
Proof.
  intros Hf (p & Hp & Hc & Hit). apply lookup_fmap_Some in Hp as (p0 & <- & Hp0). destruct (Hf p0 Hc) as [Hc0 Hi].
  exists p0. auto.
Qed.
Lemma requests_delete ps k0 k it : requests (delete k0 ps) k it -> requests ps k it /\ k <> k0.
Proof. intros (p & [Hne Hp]%lookup_delete_Some & Hr). split; [by exists p|done]. Qed.
Lemma tame_same f : (forall p, connected (f p) = connected p) -> (forall p, items_requested_from_peer (f p) = items_requested_from_peer p) -> tame f.
Proof. intros Hc Hi p. rewrite Hc, Hi. done. Qed.
Lemma tame_delete it (f : net_peer -> net_peer) : tame f -> tame (fun p => (f p) <| items_requested_from_peer ::= delete it |>).
Proof. intros Hf p Hc. destruct (Hf p Hc) as [Hc0 Hi]. split; [done|]. intros it' [H _]%has_delete. by apply Hi. Qed.
Lemma exclusive_at f k n : tame f -> requested_once n -> requested_once (at_peer k f n).
Proof. intros Hf H. eapply exclusive_peers; [exact H|]. intros k' it. by apply requests_alter. Qed.

(** An item nobody was asked for is put on the list. *)
Lemma insert_prioritized_perm x l : insert_prioritized x l ≡ₚ x :: l.
Proof.
  induction l as [|y l IH]; [done|]. cbn [insert_prioritized]. destruct (fetched_before x y); [done|].
  rewrite IH. apply Permutation_swap.
Qed.
Lemma exclusive_want now it n : requested_once n -> (forall k, ~ requests (peers n) k it) -> requested_once (want now it n).
Proof.
  intros [H1 H2 H3 H4] Hno. unfold want, requested_once. cbn [peers _items_to_fetch upd net_node_eta].
  destruct (wanted_in it (_items_to_fetch n)) eqn:Ew; [by split|].
  set (x := Prioritized it _ now). pose proof (insert_prioritized_perm x (_items_to_fetch n)) as Hp.
  apply (Permutation_map item) in Hp. cbn [map] in Hp. change (item x) with it in Hp. split; [done|done| |].
  - intros it' k R Hin. rewrite Hp in Hin. apply elem_of_cons in Hin as [->|Hin]; [by eapply Hno|by eapply H3].
  - rewrite Hp. constructor; [|done]. intros Hin. apply wanted_in_spec in Hin. by rewrite Hin in Ew.
Qed.
Lemma exclusive_triggered n : requested_once n -> requested_once (trigger_fetch_items_loop n).
Proof. done. Qed.

(** ** The round that requests items *)
(** The plan holds what each of its peers is asked for: nothing yet, or one item. *)
Definition plan_ok (ps : gmap Z net_peer) (pl : plan) : Prop :=
  NoDup (map fst pl) /\ forall k items, (k, items) ∈ pl -> exists p, ps !! k = Some p /\ connected p = true /\
    forall it, has it (items_requested_from_peer p) = true <-> it ∈ items.
Lemma choose_peer_spec now ps it pl before e after : choose_peer now ps it pl = Some (before, e, after) ->
  pl = before ++ e :: after /\ can_provide now ps it e = true.
Proof.
  revert before e after. induction pl as [|x pl IH]; intros before e after; cbn [choose_peer]; [done|].
  destruct (can_provide now ps it x) eqn:Ex; [by intros [= <- <- <-]|].
  destruct (choose_peer now ps it pl) as [[[b e'] a]|]; [|done]. cbn. intros [= <- <- <-].
  destruct (IH b e' a eq_refl) as [-> Hc]. done.
Qed.
Lemma insert_by_count_perm e l : insert_by_count e l ≡ₚ e :: l.
Proof.
  induction l as [|y l IH]; [done|]. cbn [insert_by_count]. destruct (Nat.ltb _ _); [done|]. rewrite IH. apply Permutation_swap.
Qed.
Lemma reposition_perm before e after : reposition before e after ≡ₚ before ++ e :: after.
Proof.
  unfold reposition. destruct after as [|x after]; [done|]. destruct (Nat.ltb _ _); [|done].
  rewrite insert_by_count_perm. apply Permutation_middle.
Qed.
Lemma can_provide_spec now ps it k items : can_provide now ps it (k, items) = true ->
  items = [] /\ exists p, ps !! k = Some p /\ has it (inventory_peer_advertised_to_us p) = true.
Proof.
  unfold can_provide. cbn [fst snd]. destruct (ps !! k) as [p|]; [|done]. intros H. rewrite !andb_true_iff in H.
  destruct H as [[Hl Hi] _]. split; [|by exists p]. destruct items; [done|]. apply Nat.ltb_lt in Hl.
  unfold GRAPHENE_NET_MAX_ITEMS_PER_PEER_DURING_NORMAL_OPERATION in Hl. cbn in Hl. lia.
Qed.

(** The request of an item that nobody was asked for, from a peer that was asked for nothing. *)
Definition ask (now : Z) (it : item_id) (p : net_peer) : net_peer := p <| items_requested_from_peer ::= emplace it now |>.
Lemma requests_ask now it k ps k' it' : requests (alter (ask now it) k ps) k' it' ->
  requests ps k' it' \/ (k' = k /\ it' = it).
Proof.
  intros (p & Hp & Hc & Hit). apply lookup_alter_Some in Hp as [(-> & p0 & Hp0 & ->)|[Hne Hp]]; [|left; by exists p].
  unfold ask in Hit, Hc. cbn in Hit, Hc. rewrite has_emplace in Hit. apply orb_true_iff in Hit as [Hit|Hit].
  - apply bool_decide_eq_true in Hit. by right.
  - left. by exists p0.
Qed.
Lemma exclusive_ask now x k ps l : exclusive ps (x :: l) -> (forall it, ~ requests ps k it) ->
  exclusive (alter (ask now (item x)) k ps) l.
Proof.
  intros [H1 H2 H3 H4] Hk. cbn [map] in H4. apply NoDup_cons in H4 as [Hx H4].
  assert (Hno : forall k', ~ requests ps k' (item x)) by (intros k' R; apply (H3 _ _ R), elem_of_cons; by left).
  split; [| | |done].
  - intros it k1 k2 [R1|[-> ->]]%requests_ask [R2|[-> E2]]%requests_ask; [by eapply H1|subst; by destruct (Hno k1)|by destruct (Hno k2)|done].
  - intros k' i1 i2 [R1|[-> ->]]%requests_ask [R2|[E2 E3]]%requests_ask; subst; [by eapply H2|by destruct (Hk i1)|by destruct (Hk i2)|done].
  - intros it k' [R|[-> ->]]%requests_ask Hin; [|done]. apply (H3 _ _ R), elem_of_cons. by right.
Qed.
Lemma plan_ok_ask now it k ps before after : plan_ok ps (before ++ (k, []) :: after) ->
  plan_ok (alter (ask now it) k ps) (reposition before (k, [it]) after) /\ forall it', ~ requests ps k it'.
Proof.
  intros [Hn Hp]. split; [split|].
  - rewrite (Permutation_map fst (reposition_perm _ _ _)). by rewrite map_app in *.
  - intros k' items Hin. rewrite reposition_perm in Hin.
    assert (Hk : (k, []) ∈ before ++ (k, []) :: after) by (apply elem_of_app; right; apply elem_of_cons; by left).
    apply elem_of_app in Hin. rewrite elem_of_cons in Hin. destruct (decide (k' = k)) as [->|Hne].
    + destruct (Hp k [] Hk) as (p & Hps & Hc & Hi). exists (ask now it p).
      rewrite lookup_alter_eq, Hps. split; [done|]. split; [done|]. intros it'. cbn. rewrite has_emplace, orb_true_iff, bool_decide_eq_true, Hi.
      assert (items = [it]) as ->; [|set_solver].
      rewrite map_app, map_cons in Hn. apply NoDup_app in Hn as (_ & Hd & Hn). apply NoDup_cons in Hn as [Ha _]. cbn [fst] in *.
      assert (Hf : forall l, (k, items) ∈ l -> k ∈ map fst l).
      { intros l Hl. apply list_elem_of_In, in_map_iff. exists (k, items). split; [done|by apply list_elem_of_In]. }
      destruct Hin as [Hb|[[= ->]|Ha']]; [|done|by destruct Ha; apply Hf].
      exfalso. apply (Hd k); [by apply Hf|]. apply elem_of_cons. by left.
    + destruct (Hp k' items) as (p & Hps & Hc & Hi); [apply elem_of_app; rewrite elem_of_cons; destruct Hin as [?|[E|?]]; [by left|injection E as E _; done|by right; right]|].
      exists p. by rewrite lookup_alter_ne.
  - intros it' (p & Hps & Hc & Hit). destruct (Hp k []) as (p' & Hps' & _ & Hi); [apply elem_of_app; right; apply elem_of_cons; by left|].
    rewrite Hps in Hps'. injection Hps' as <-. apply Hi in Hit. by apply elem_of_nil in Hit.
Qed.

Section rounds.
  Context {cfg : sophiatx_config}.
Lemma assign_items_exclusive now l kept ps pl ps' pl' rest : assign_items now l ps pl = (ps', pl', rest) ->
  plan_ok ps pl -> exclusive ps (kept ++ l) -> exclusive ps' (kept ++ rest) /\ plan_ok ps' pl'.
Proof.
  revert kept ps pl ps' pl' rest. induction l as [|x l IH]; intros kept ps pl ps' pl' rest; cbn [assign_items].
  - intros [= <- <- <-]. done.
  - intros E Hpl Hex.
    assert (Hex' : exclusive ps (x :: kept ++ l)).
    { eapply exclusive_weaken; [exact Hex|done| |].
      - intros it. rewrite map_app. cbn [map]. rewrite map_app. set_solver.
      - pose proof (wanted_once _ _ Hex) as Hn. by rewrite <- (Permutation_map item (Permutation_middle kept l x)) in Hn. }
    assert (Hdrop : exclusive ps (kept ++ l)).
    { eapply exclusive_weaken; [exact Hex'|done| |]; cbn [map]; [set_solver|].
      pose proof (wanted_once _ _ Hex') as Hn. cbn [map] in Hn. by apply NoDup_cons in Hn as [_ Hn]. }
    destruct (heard_at x <? _); [by eapply IH|].
    destruct (choose_peer now ps (item x) pl) as [[[before [k items]] after]|] eqn:Ec.
    + apply choose_peer_spec in Ec as [-> Hc]. apply can_provide_spec in Hc as [-> _]. cbn [app] in E.
      destruct (plan_ok_ask now (item x) k ps before after Hpl) as [Hpl' Hno].
      eapply IH; [exact E|exact Hpl'|]. by apply exclusive_ask.
    + destruct (assign_items now l ps pl) as [[ps1 pl1] rest1] eqn:Ea. injection E as <- <- <-.
      change (kept ++ x :: rest1) with (kept ++ [x] ++ rest1). rewrite app_assoc. eapply IH; [exact Ea|done|]. by rewrite <- app_assoc.
Qed.

Lemma active_connections_spec k p n : (k, p) ∈ active_connections n <-> peers n !! k = Some p /\ connected p = true.
Proof.
  unfold active_connections. rewrite list_elem_of_In, filter_In, <- list_elem_of_In. by rewrite elem_of_map_to_list.
Qed.
Lemma NoDup_filter_fst {A} (f : Z * A -> bool) (l : list (Z * A)) : NoDup (map fst l) -> NoDup (map fst (List.filter f l)).
Proof.
  induction l as [|x l IH]; [done|]. cbn [map List.filter]. intros [Hx Hn]%NoDup_cons. destruct (f x); [|by apply IH].
  cbn [map]. constructor; [|by apply IH]. intros Hin. apply Hx. apply list_elem_of_In, in_map_iff in Hin as (y & Hy & Hin).
  apply list_elem_of_In, in_map_iff. exists y. split; [done|]. by apply filter_In in Hin as [Hin _].
Qed.
Lemma NoDup_active n : NoDup (map fst (active_connections n)).
Proof. apply NoDup_filter_fst. apply NoDup_fst_map_to_list. Qed.
Lemma initial_plan_ok n : plan_ok (peers n) (initial_plan n).
Proof.
  split.
  - unfold initial_plan. rewrite map_map. apply NoDup_filter_fst, NoDup_active.
  - intros k items Hin. unfold initial_plan in Hin. apply list_elem_of_In, in_map_iff in Hin as ([k' p] & [= -> <-] & Hin).
    apply filter_In in Hin as [Hin Hidle]. apply list_elem_of_In, active_connections_spec in Hin as [Hp Hc].
    exists p. split; [done|]. split; [done|]. intros it. cbn in Hidle. unfold idle, busy in Hidle.
    apply negb_true_iff, orb_false_iff in Hidle as [Hidle _]. apply orb_false_iff in Hidle as [Hidle _].
    apply negb_false_iff, bool_decide_eq_true in Hidle. rewrite Hidle. unfold has. rewrite lookup_empty. set_solver.
Qed.
Lemma fetch_items_exclusive now n : requested_once n -> requested_once (fst (fetch_items now n)).
Proof.
  intros H. unfold fetch_items. destruct (assign_items _ _ _ _) as [[ps pl] rest] eqn:E.
  by destruct (assign_items_exclusive now _ [] _ _ _ _ _ E (initial_plan_ok n) H).
Qed.
End rounds.

(** ** Every step keeps the requests apart *)
Definition same_requests (n n' : net_node) : Prop := peers n' = peers n /\ _items_to_fetch n' = _items_to_fetch n.
Lemma same_requests_once n n' : same_requests n n' -> requested_once n -> requested_once n'.
Proof. intros [Hp Hl]. unfold requested_once. by rewrite Hp, Hl. Qed.

Section keep.
  Context {cfg : sophiatx_config} {ext : externals} {bn : block_numbers} {cl : node_client}.

Lemma disconnect_once k n : requested_once n -> requested_once (fst (disconnect_from_peer k n)).
Proof. apply exclusive_at. intros p. done. Qed.
Lemma disconnect_all_once ks n : requested_once n -> requested_once (fst (disconnect_all ks n)).
Proof.
  unfold disconnect_all. generalize (@nil (Z * wire)). revert n. induction ks as [|k ks IH]; intros n out H; [done|].
  cbn [foldl]. destruct (disconnect_from_peer k n) as [n1 o] eqn:E. apply IH.
  change n1 with (fst (n1, o)). rewrite <- E. by apply disconnect_once.
Qed.
Lemma we_requested_spec it n : we_requested it n = false -> forall k, ~ requests (peers n) k it.
Proof.
  unfold we_requested. intros H k (p & Hp & Hc & Hit).
  assert (Hin : In (k, p) (active_connections n)) by (by apply list_elem_of_In, active_connections_spec).
  assert (Ht : existsb (fun kp => has it (items_requested_from_peer (snd kp))) (active_connections n) = true).
  { apply existsb_exists. by exists (k, p). }
  by rewrite Ht in H.
Qed.
Lemma consider_once now it n : requested_once n -> (forall k, ~ requests (peers n) k it) -> requested_once (consider_item now it n).
Proof.
  intros H Hno. unfold consider_item. destruct (has _ _); [done|]. destruct (wanted_in _ _); [|by apply exclusive_want].
  assert (E : map item (map (fun x => if bool_decide (item x = it) then x <| heard_at := now |> else x) (_items_to_fetch n)) = map item (_items_to_fetch n)).
  { rewrite map_map. apply map_ext. intros x. by case_bool_decide. }
  exact (exclusive_same_items _ _ _ E H).
Qed.
Lemma inventory_once now k ty hs n : requested_once n -> requested_once (inventory_received now k ty hs n).
Proof.
  revert n. induction hs as [|h hs IH]; intros n H; [done|]. cbn [inventory_received].
  destruct (_ || _); [by apply IH|]. destruct (peers n !! k) as [p|]; [|done]. destruct (list_full ty p); [done|].
  set (n1 := at_peer k _ n). assert (H1 : requested_once n1) by (apply exclusive_at; [by apply tame_same|done]).
  destruct (we_requested (ty, h) n1) eqn:E; apply IH; [done|]. apply consider_once; [done|]. by apply we_requested_spec.
Qed.

Lemma not_available_once now k it n : is_active k n -> requested_once n -> requested_once (fst (on_item_not_available_message now k it n)).
Proof.
  intros (p & Hp & Hc) H. unfold on_item_not_available_message. rewrite Hp. destruct (has it (items_requested_from_peer p)) eqn:Ei.
  - cbn [fst]. set (n1 := at_peer k _ n).
    assert (H1 : requested_once n1).
    { apply exclusive_at; [|done]. intros q Hq. split; [done|]. intros it' Hi. cbn in Hi. by apply has_delete in Hi as [Hi _]. }
    apply exclusive_triggered. destruct (is_item_in_any_peers_inventory it n1); [|done]. apply exclusive_want; [done|].
    intros k' R. destruct (decide (k' = k)) as [->|Hne].
    + destruct R as (q & Hq & _ & Hit). cbn in Hq. rewrite lookup_alter_eq, Hp in Hq. injection Hq as <-. cbn in Hit.
      by apply has_delete in Hit as [_ Hit].
    + destruct R as (q & Hq & Hqc & Hit). cbn in Hq. rewrite lookup_alter_ne in Hq by done. apply Hne.
      apply (one_peer _ _ H it k' k); [by exists q|by exists p].
  - destruct (bool_decide _); [|done]. set (n1 := at_peer k _ n).
    assert (H1 : requested_once n1) by (apply exclusive_at; [by apply tame_same|done]).
    destruct (peer_needs_sync_items_from_us p).
    + apply (exclusive_at (fun q => q <| inhibit_fetching_sync_blocks := true |>) k n1); [by apply tame_same|done].
    + by apply disconnect_once.
Qed.

Lemma closed_once now k n : is_active k n -> requested_once n -> requested_once (on_connection_closed now k n).
Proof.
  intros (p & Hp & Hc) H. unfold on_connection_closed. rewrite Hp.
  assert (Hd : requested_once (n <| peers ::= delete k |>)).
  { eapply exclusive_peers; [exact H|]. intros k' it R. by apply requests_delete in R as [R _]. }
  set (n1 := if bool_decide (sync_items_requested_from_peer p = ∅) then _ else _).
  assert (H1 : requested_once n1 /\ peers n1 = delete k (peers n)) by (unfold n1; by destruct (bool_decide _)).
  clearbody n1. destruct H1 as [H1 Hp1]. destruct (bool_decide _); [done|]. apply exclusive_triggered.
  assert (Hno : forall it, it ∈ map fst (map_to_list (items_requested_from_peer p)) -> forall k', ~ requests (delete k (peers n)) k' it).
  { intros it Hin k' R. apply requests_delete in R as [R Hne]. apply Hne. apply (one_peer _ _ H it k' k); [done|].
    exists p. split; [done|]. split; [done|]. apply list_elem_of_In, in_map_iff in Hin as ([it' t] & <- & Hin).
    apply list_elem_of_In, elem_of_map_to_list in Hin. apply has_spec. cbn. by exists t. }
  revert Hno. generalize (map fst (map_to_list (items_requested_from_peer p))) as its.
  intros its. revert n1 H1 Hp1. induction its as [|it its IH]; intros n1 H1 Hp1 Hno; [done|]. cbn [foldl].
  apply IH; [destruct (is_item_in_any_peers_inventory it n1); [|done]; apply exclusive_want; [done|];
    rewrite Hp1; apply Hno, elem_of_cons; by left|by destruct (is_item_in_any_peers_inventory it n1)|].
  intros it' Hin. apply Hno, elem_of_cons. by right.
Qed.

Lemma broadcast_same m k contents n : same_requests n (broadcast m k contents n).
Proof.
  unfold broadcast, insert_new_inventory, cache_message. destruct (msg_type m =? block_message_type);
    by destruct (find_message _ _).
Qed.
Lemma delete_request_once it k n : requested_once n ->
  requested_once (at_peer k (fun p => p <| items_requested_from_peer ::= delete it |>) n).
Proof. apply exclusive_at, (tame_delete it id). by apply tame_same. Qed.
Lemma ordinary_once now k m n : requested_once n -> requested_once (fst (process_ordinary_message now k m n)).
Proof.
  intros H. unfold process_ordinary_message. destruct (peers n !! k) as [p|]; [|done].
  destruct (negb _); [by apply disconnect_once|]. pose proof (delete_request_once (msg_type m, id_of m) k n H) as H1.
  destruct (idle _), (handle_message m); try exact H1; eapply same_requests_once; try apply broadcast_same; exact H1.
Qed.

Lemma accept_block_once now k m b n : requested_once n -> requested_once (fst (accept_block now k m b n)).
Proof.
  intros H. unfold accept_block. set (n1 := n <| peers ::= _ |>).
  assert (H1 : requested_once n1).
  { eapply exclusive_peers; [exact H|]. intros k' it. apply requests_fmap. intros p. destruct (connected p) eqn:Ec; [|by rewrite Ec].
    destruct (has _ _); cbn; done. }
  assert (H2 : requested_once (block_accepted (broadcast m k (bc_id b) n1))).
  { eapply same_requests_once; [|exact H1]. destruct (broadcast_same m k (bc_id b) n1) as [E1 E2]. split; [exact E1|exact E2]. }
  destruct (is_hard_fork_block _ _); [by apply disconnect_all_once|done].
Qed.
Lemma start_synchronizing_once k n : requested_once n -> requested_once (fst (start_synchronizing_with_peer k n)).
Proof.
  intros H. unfold start_synchronizing_with_peer. set (n1 := at_peer k _ n).
  assert (H1 : requested_once n1) by (apply exclusive_at; [by apply tame_same|done]).
  unfold fetch_next_batch_of_item_ids_from_peer. destruct (peers n1 !! k) as [p|]; [|exact H1].
  destruct (create_blockchain_synopsis_for_peer p) as [l|e].
  - apply exclusive_at; [by apply tame_same|done].
  - destruct e; try exact H1. by apply disconnect_once.
Qed.
Lemma block_once now k m n n' out : requested_once n -> process_requested_block now k m n = Ok (n', out) -> requested_once n'.
Proof.
  intros H E. unfold process_requested_block in E. apply rbind_Ok in E as (b & _ & E).
  destruct (process_block_during_normal_operation _ _ _ _ _) as [n1 o] eqn:Eb. injection E as <- _.
  assert (H1 : requested_once n1).
  { change n1 with (fst (n1, o)). rewrite <- Eb. pose proof (delete_request_once (block_message_type, id_of m) k n H) as Hd.
    unfold process_block_during_normal_operation. destruct (bool_decide _); [by apply accept_block_once|].
    destruct (handle_block m) as [contained|e].
    - apply accept_block_once. exact (exclusive_filter _ _ _ Hd).
    - destruct e; try by apply disconnect_all_once. by apply start_synchronizing_once. }
  destruct (peers n1 !! k) as [p|]; [|done]. by destruct (idle p).
Qed.

Lemma gossip_step_once n n' : gossip_step n n' -> requested_once n -> requested_once n'.
Proof.
  intros Hs H. destruct Hs as [k p Hk Hnew|now k ty hs _|now|now|now k it Ha|now k m _|now k m n' out _ E|k ty hs n' out E|m k c|k|k|now k Ha|now].
  - eapply exclusive_peers; [exact H|]. intros k' it (q & Hq & Hc & Hit). cbn in Hq.
    apply lookup_insert_Some in Hq as [[<- <-]|[_ Hq]]; [|by exists q]. destruct Hnew as (_ & Hr & _). rewrite Hr in Hit.
    unfold has in Hit. by rewrite lookup_empty in Hit.
  - apply inventory_once, exclusive_at; [by apply tame_same|done].
  - by apply fetch_items_exclusive.
  - eapply exclusive_peers; [exact H|]. intros k' it. apply requests_fmap. intros p. destruct (connected p) eqn:Ec; [|by rewrite Ec].
    unfold advertise_to. destruct (peer_needs_sync_items_from_us p); done.
  - by apply not_available_once.
  - by apply ordinary_once.
  - by eapply block_once.
  - unfold on_fetch_items_message in E. apply rbind_Ok in E as (found & _ & E). apply rbind_Ok in E as (n1 & En & E).
    apply rbind_Ok in E as (r & _ & E). injection E as <- _. destruct (if _ =? _ then _ else None).
    + apply rbind_Ok in En as (b & _ & En). injection En as <-. apply exclusive_at; [by apply tame_same|done].
    + by injection En as <-.
  - eapply same_requests_once; [apply broadcast_same|done].
  - apply exclusive_at; [by apply tame_same|done].
  - by apply disconnect_once.
  - by apply closed_once.
  - done.
Qed.
End keep.

(** ** The cache *)
(** What is cached was received in the last twenty blocks, each message once and under the
    hash of its data. *)
Record cache_ok `{externals} (n : net_node) : Prop := CacheOk {
  clock_range : 0 <= block_clock n < 2^32;
  recent_messages : forall i, i ∈ _message_cache n ->
    Z.max 0 (block_clock n - GRAPHENE_NET_MESSAGE_CACHE_DURATION_IN_BLOCKS) <= mi_clock i <= block_clock n /\ mi_hash i = id_of (mi_body i);
  cached_once : NoDup (map mi_hash (_message_cache n)) }.
Definition same_cache (n n' : net_node) : Prop := _message_cache n' = _message_cache n /\ block_clock n' = block_clock n.

Section cache.
  Context {cfg : sophiatx_config} {ext : externals} {bn : block_numbers} {cl : node_client}.
Lemma same_cache_ok n n' : same_cache n n' -> cache_ok n -> cache_ok n'.
Proof. intros [Hm Hc] [H1 H2 H3]. split; rewrite ?Hm, ?Hc; done. Qed.
Lemma same_cache_trans n1 n2 n3 : same_cache n1 n2 -> same_cache n2 n3 -> same_cache n1 n3.
Proof. intros [A B] [C D]. split; congruence. Qed.
Lemma find_message_None h c : find_message h c = None -> h ∉ map mi_hash c.
Proof.
  unfold find_message. destruct (List.find _ c) as [i|] eqn:E; [done|]. intros _ Hin.
  apply list_elem_of_In, in_map_iff in Hin as (i & <- & Hin). pose proof (find_none _ _ E i Hin) as Hf. cbn in Hf.
  by apply bool_decide_eq_false in Hf.
Qed.
Lemma cache_message_ok m k c n : cache_ok n -> cache_ok (cache_message m (id_of m) k c n).
Proof.
  intros [H1 H2 H3]. unfold cache_message. destruct (find_message _ _) eqn:E; [by split|]. split; cbn; [done| |].
  - intros i [->|Hi]%elem_of_cons; [cbn; split; [unfold GRAPHENE_NET_MESSAGE_CACHE_DURATION_IN_BLOCKS; lia|done]|by apply H2].
  - constructor; [by apply find_message_None|done].
Qed.
Lemma broadcast_ok m k c n : cache_ok n -> cache_ok (broadcast m k c n).
Proof.
  intros H. unfold broadcast, insert_new_inventory. set (n1 := if _ =? _ then _ else n).
  assert (H1 : cache_ok n1) by (unfold n1; destruct (_ =? _); [by apply (same_cache_ok n)|done]).
  eapply same_cache_ok; [|apply (cache_message_ok m k c n1 H1)]. split; cbn; unfold cache_message; by destruct (find_message _ _).
Qed.
Lemma block_accepted_ok n : cache_ok n -> block_clock n + 1 < 2^32 -> cache_ok (block_accepted n).
Proof.
  intros [H1 H2 H3] Hw. assert (Hu : u32 (block_clock n + 1) = block_clock n + 1) by (apply Z.mod_small; lia).
  unfold block_accepted. rewrite Hu. split; cbn; [lia| |].
  - intros i Hi. destruct (Z.gtb_spec (block_clock n + 1) GRAPHENE_NET_MESSAGE_CACHE_DURATION_IN_BLOCKS).
    + apply list_elem_of_In, filter_In in Hi as [Hi Hc]. apply list_elem_of_In, H2 in Hi as [Hr Hh]. apply Z.geb_le in Hc. split; [lia|done].
    + pose proof (H2 i Hi) as [Hr Hh]. split; [|done]. split; [|lia].
      unfold GRAPHENE_NET_MESSAGE_CACHE_DURATION_IN_BLOCKS in *. lia.
  - destruct (_ >? _); [|done]. induction (_message_cache n) as [|i c IH]; [constructor|]. cbn [map List.filter] in *.
    apply NoDup_cons in H3 as [Hi H3]. destruct (_ >=? _); [|apply IH; [intros j Hj; apply H2, elem_of_cons; by right|done]].
    cbn [map]. constructor; [|apply IH; [intros j Hj; apply H2, elem_of_cons; by right|done]].
    intros Hin. apply Hi. apply list_elem_of_In, in_map_iff in Hin as (j & Hj & Hin). apply filter_In in Hin as [Hin _].
    apply list_elem_of_In, in_map_iff. by exists j.
Qed.
Lemma disconnect_all_cache ks n : same_cache n (fst (disconnect_all ks n)).
Proof.
  unfold disconnect_all. generalize (@nil (Z * wire)). revert n. induction ks as [|k ks IH]; intros n out; [done|].
  cbn [foldl]. destruct (disconnect_from_peer k n) as [n1 o] eqn:E. eapply same_cache_trans; [|apply IH].
  unfold disconnect_from_peer in E. by injection E as <- _.
Qed.
Lemma inventory_cache now k ty hs n : same_cache n (inventory_received now k ty hs n).
Proof.
  revert n. induction hs as [|h hs IH]; intros n; [done|]. cbn [inventory_received].
  destruct (_ || _); [apply IH|]. destruct (peers n !! k); [|done]. destruct (list_full _ _); [done|].
  eapply same_cache_trans; [|apply IH]. destruct (we_requested _ _); [done|]. unfold consider_item.
  destruct (has _ _); [done|]. by destruct (wanted_in _ _).
Qed.
Lemma closed_cache now k n : same_cache n (on_connection_closed now k n).
Proof.
  unfold on_connection_closed. destruct (peers n !! k) as [p|]; [|done]. set (n1 := if bool_decide (sync_items_requested_from_peer p = ∅) then _ else _).
  assert (H1 : same_cache n n1) by (unfold n1; by destruct (bool_decide _)). clearbody n1. destruct (bool_decide _); [done|].
  eapply same_cache_trans; [exact H1|]. generalize (map fst (map_to_list (items_requested_from_peer p))). intros its.
  change (same_cache n1 (foldl (fun n it => if is_item_in_any_peers_inventory it n then want now it n else n) n1 its)).
  clear H1. revert n1. induction its as [|it its IH]; intros n1; [done|]. cbn [foldl].
  eapply same_cache_trans; [|apply IH]. by destruct (is_item_in_any_peers_inventory it n1).
Qed.
Lemma accept_block_ok now k m b n : cache_ok n -> block_clock n + 1 < 2^32 -> cache_ok (fst (accept_block now k m b n)).
Proof.
  intros H Hw. unfold accept_block. set (n1 := n <| peers ::= _ |>).
  assert (H1 : cache_ok (block_accepted (broadcast m k (bc_id b) n1))).
  { apply block_accepted_ok; [by apply broadcast_ok, (same_cache_ok n)|]. unfold broadcast, insert_new_inventory, cache_message.
    destruct (_ =? _), (find_message _ _); exact Hw. }
  destruct (is_hard_fork_block _ _); [|done]. eapply same_cache_ok; [apply disconnect_all_cache|done].
Qed.
Lemma block_cache now k m n n' out : cache_ok n -> block_clock n + 1 < 2^32 ->
  process_requested_block now k m n = Ok (n', out) -> cache_ok n'.
Proof.
  intros H Hw E. unfold process_requested_block in E. apply rbind_Ok in E as (b & _ & E).
  destruct (process_block_during_normal_operation _ _ _ _ _) as [n1 o] eqn:Eb. injection E as <- _.
  assert (H1 : cache_ok n1).
  { change n1 with (fst (n1, o)). rewrite <- Eb. unfold process_block_during_normal_operation.
    destruct (bool_decide _); [by apply accept_block_ok; [apply (same_cache_ok n)|]|].
    destruct (handle_block m) as [contained|e]; [by apply accept_block_ok; [apply (same_cache_ok n)|]|].
    destruct e; try (eapply same_cache_ok; [apply disconnect_all_cache|]; by apply (same_cache_ok n)).
    unfold start_synchronizing_with_peer, fetch_next_batch_of_item_ids_from_peer.
    destruct (peers _ !! k) as [p|]; [|by apply (same_cache_ok n)].
    destruct (create_blockchain_synopsis_for_peer p) as [l|e]; [by apply (same_cache_ok n)|]. destruct e; by apply (same_cache_ok n). }
  destruct (peers n1 !! k) as [p|]; [|done]. destruct (idle p); [by apply (same_cache_ok n1)|done].
Qed.
Lemma gossip_step_cache n n' : gossip_step n n' -> cache_ok n -> block_clock n + 1 < 2^32 -> cache_ok n'.
Proof.
  intros Hs H Hw. destruct Hs as [k p Hk Hnew|now k ty hs _|now|now|now k it Ha|now k m _|now k m n' out _ E|k ty hs n' out E|m k c|k|k|now k Ha|now];
    try (by apply (same_cache_ok n)).
  - apply (same_cache_ok n); [|done]. eapply same_cache_trans; [|apply inventory_cache]. done.
  - apply (same_cache_ok n); [|done]. unfold fetch_items. by destruct (assign_items _ _ _ _) as [[ps pl] rest].
  - apply (same_cache_ok n); [|done]. unfold on_item_not_available_message. destruct (peers n !! k) as [p|]; [|done].
    destruct (has _ _); [by destruct (is_item_in_any_peers_inventory _ _)|]. destruct (bool_decide _); [|done].
    by destruct (peer_needs_sync_items_from_us p).
  - unfold process_ordinary_message. destruct (peers n !! k) as [p|]; [|done].
    destruct (negb _); [by apply (same_cache_ok n)|]. destruct (idle _), (handle_message m); try (by apply (same_cache_ok n));
      apply broadcast_ok; by apply (same_cache_ok n).
  - by eapply block_cache.
  - unfold on_fetch_items_message in E. apply rbind_Ok in E as (found & _ & E). apply rbind_Ok in E as (n1 & En & E).
    apply rbind_Ok in E as (r & _ & E). injection E as <- _. destruct (if _ =? _ then _ else None).
    + apply rbind_Ok in En as (b & _ & En). injection En as <-. by apply (same_cache_ok n).
    + by injection En as <-.
  - by apply broadcast_ok.
  - apply (same_cache_ok n); [apply closed_cache|done].
Qed.
End cache.
