(* ===== verification/Sync.v ===== *)
(** * Sync: how a node catches up with its peers ([net/node.cpp]).

    Peers tell which blocks they have after the last one that both sides know; the node
    fetches the blocks from several peers at once, keeps those that arrive too early, and
    hands the others to the client in the order of the chain.  The state extends the one of
    Gossip by the blocks on their way.  The calls of the client that take a block run as tasks:
    they end in any order, and a call that has ended is no longer counted. *)
From S2P Require Import Prelude Config ChainPlugin P2pPlugin Gossip.
Local Open Scope Z_scope.
Local Open Scope list_scope.

(** ** Data *)
Definition GRAPHENE_NET_FUTURE_SYNC_BLOCKS_GRACE_PERIOD_SEC : Z := 60 * 60.
Definition GRAPHENE_NET_MIN_BLOCK_IDS_TO_PREFETCH : nat := Z.to_nat 10000.
(** The part of [node_configuration] that is used. *)
Class sync_limits := SyncLimits {
  maximum_number_of_blocks_to_handle_at_one_time : nat;
  maximum_number_of_sync_blocks_to_prefetch : nat;
  maximum_blocks_per_peer_during_syncing : nat }.
Definition default_limits : sync_limits := SyncLimits 200 (10 * 200) 200.

(** A [block_message] with what is read from it. *)
Definition block_message : Type := message * block_contents.
Definition block_id (b : block_message) : item_hash_t := bc_id (snd b).

Record sync_node := SyncNode {
  net : net_node;
  _active_sync_requests : gset item_hash_t;
  _received_sync_items : list block_message;
  _new_received_sync_items : list block_message;
  _handle_message_calls_in_progress : list block_message;
  backlog_scheduled : bool;
  _suspend_fetching_sync_blocks : bool;
  _total_number_of_unfetched_items : Z }.
#[export] Instance sync_node_eta : Eta sync_node := fun s =>
  SyncNode (net s) (_active_sync_requests s) (_received_sync_items s) (_new_received_sync_items s) (_handle_message_calls_in_progress s)
    (backlog_scheduled s) (_suspend_fetching_sync_blocks s) (_total_number_of_unfetched_items s).

(** What the node asks its client besides what Gossip needs. *)
Class sync_client := SyncClient {
  get_block_ids : list item_hash_t -> res (list item_hash_t * Z);
  has_item : item_id -> bool;
  get_blockchain_now : Z }.

Definition trigger_fetch_sync_items_loop (n : net_node) : net_node := n <| fetch_sync_items_triggered := true |>.
(** An operation on the connections. *)
Definition on_net (f : net_node -> net_node * outgoing) (s : sync_node) : sync_node * outgoing :=
  let '(n, out) := f (net s) in (s <| net := n |>, out).
Definition on_each (f : Z -> net_node -> net_node * outgoing) (ks : list Z) (n : net_node) : net_node * outgoing :=
  foldl (fun '(n, out) k => let '(n, o) := f k n in (n, out ++ o)) (n, []) ks.

(** ** fetch_sync_items_loop, one round *)
Definition holds (h : item_hash_t) (l : list block_message) : bool := existsb (fun b => bool_decide (block_id b = h)) l.
Definition have_already_received_sync_item (h : item_hash_t) (s : sync_node) : bool :=
  holds h (_received_sync_items s) || holds h (_new_received_sync_items s).

Section limits.
  Context {lim : sync_limits}.
(** The items to request from one peer, and all that were chosen in this round; the list
    ends with the item that reaches the limit. *)
Fixpoint choose_sync_items (s : sync_node) (ids : list item_hash_t) (count : nat) (chosen : gset item_hash_t)
    : list item_hash_t * gset item_hash_t :=
  match ids with
  | [] => ([], chosen)
  | h :: ids =>
      if negb (have_already_received_sync_item h s) && negb (bool_decide (h ∈ chosen)) && negb (bool_decide (h ∈ _active_sync_requests s))
      then if Nat.leb maximum_blocks_per_peer_during_syncing (S count) then ([h], {[h]} ∪ chosen)
           else let '(hs, chosen) := choose_sync_items s ids (S count) ({[h]} ∪ chosen) in (h :: hs, chosen)
      else choose_sync_items s ids count chosen
  end.
Fixpoint schedule_sync_requests (s : sync_node) (ps : list (Z * net_peer)) (chosen : gset item_hash_t) : list (Z * list item_hash_t) :=
  match ps with
  | [] => []
  | (k, p) :: ps =>
      if we_need_sync_items_from_peer p && idle p && negb (inhibit_fetching_sync_blocks p) then
        let '(hs, chosen) := choose_sync_items s (ids_of_items_to_get p) 0 chosen in
        match hs with
        | [] => schedule_sync_requests s ps chosen
        | _ => (k, hs) :: schedule_sync_requests s ps chosen
        end
      else schedule_sync_requests s ps chosen
  end.
Definition request_sync_items_from_peer (k : Z) (items_to_request : list item_hash_t) (s : sync_node) : sync_node * outgoing :=
  (s <| _active_sync_requests ::= union (list_to_set items_to_request) |>
     <| net ::= at_peer k (fun p => p <| sync_items_requested_from_peer ::= union (list_to_set items_to_request) |>) |>,
   [(k, fetch_items_message block_message_type items_to_request)]).
Definition send_sync_requests (l : list (Z * list item_hash_t)) (s : sync_node) : sync_node * outgoing :=
  foldl (fun '(s, out) r => let '(s, o) := request_sync_items_from_peer (fst r) (snd r) s in (s, out ++ o)) (s, []) l.
Definition fetch_sync_items (s : sync_node) : sync_node * outgoing :=
  let s := s <| net ::= fun n => n <| fetch_sync_items_triggered := false |> |> in
  if _suspend_fetching_sync_blocks s then (s, [])
  else send_sync_requests (schedule_sync_requests s (active_connections (net s)) ∅) s.
End limits.

(** ** Lists of blocks *)
Section lists.
  Context {lim : sync_limits} {cfg : sophiatx_config} {ext : externals} {bn : block_numbers} {cl : node_client} {sc : sync_client}.

(** A peer asks which blocks follow those that it has.  (The handshake, which ends with the
    first of these messages, is left out.) *)
Definition peer_needs_items (synopsis available : list item_hash_t) : bool :=
  match available with
  | [] => false
  | [h] => match synopsis with [] => true | _ => negb (bool_decide (h ∈ synopsis)) end
  | _ => true
  end.
Definition in_sync_and_unwanted (p : net_peer) (synopsis available : list item_hash_t) : bool :=
  match available with [] => false | _ => negb (peer_needs_items synopsis available) && inhibit_fetching_sync_blocks p end.
Definition on_fetch_blockchain_item_ids_message (k item_type : Z) (synopsis : list item_hash_t) (n : net_node) : res (net_node * outgoing) :=
  '(available, total_remaining) ← match get_block_ids synopsis with
                                  | Throw peer_is_on_an_unreachable_fork => Ok ([], 0)
                                  | r => r
                                  end;
  match peers n !! k with
  | None => Ok (n, [])
  | Some p =>
      let n := at_peer k (fun p => p <| peer_needs_sync_items_from_us := peer_needs_items synopsis available |>) n in
      let '(n, out) := match last synopsis with
                       | Some h => if negb (we_need_sync_items_from_peer p) && negb (has_item (item_type, h))
                                   then start_synchronizing_with_peer k n else (n, [])
                       | None => (n, [])
                       end in
      let out := out ++ [(k, blockchain_item_ids_inventory_message item_type total_remaining available)] in
      if in_sync_and_unwanted p synopsis available
      then let '(n, out') := disconnect_from_peer k n in Ok (n, out ++ out')
      else Ok (n, out)
  end.

Definition calculate_unsynced_block_count_from_all_peers (n : net_node) : Z :=
  foldl (fun m kp => Z.max m (u32 (u32 (Z.of_nat (length (ids_of_items_to_get (snd kp)))) + number_of_unfetched_item_ids (snd kp)))) 0
    (active_connections n).

(** A response is a list of consecutive blocks after one of those that were sent. *)
Fixpoint sequential_from (num : Z) (ids : list item_hash_t) : bool :=
  match ids with [] => true | h :: ids => (get_block_number h =? num) && sequential_from (u32 (num + 1)) ids end.
Definition valid_response (synopsis ids : list item_hash_t) : bool :=
  match ids with
  | [] => true
  | h :: rest => sequential_from (u32 (get_block_number h + 1)) rest &&
                 match synopsis with [] => get_block_number h =? 1 | _ => bool_decide (h ∈ synopsis) end
  end.
Definition up_to_date (item_type total_remaining : Z) (ids : list item_hash_t) (p : net_peer) : bool :=
  (total_remaining =? 0)
  && match ids with [] => true | [h] => has_item (item_type, h) | _ => false end
  && bool_decide (ids_of_items_to_get p = []) && (number_of_unfetched_item_ids p =? 0).
Definition seen_by_delegate (h : item_hash_t) (p : net_peer) : net_peer :=
  p <| last_block_delegate_has_seen := h |> <| last_block_time_delegate_has_seen := get_block_time h |>.
(** Blocks at the front that the client has. *)
Fixpoint drop_seen (item_type : Z) (received : list item_hash_t) (p : net_peer) : list item_hash_t * net_peer :=
  match received with
  | [] => ([], p)
  | h :: rest => if has_item (item_type, h) then drop_seen item_type rest (seen_by_delegate h p) else (received, p)
  end.
(** Ids at the back of the list (here reversed) up to one. *)
Fixpoint back_to (front : item_hash_t) (reversed : list item_hash_t) : list item_hash_t :=
  match reversed with
  | [] => []
  | h :: rest => if bool_decide (h = front) then reversed else back_to front rest
  end.
(** The list is continued with the new one, which begins with the last id of the list, or
    with an earlier one if the peer changed to another fork. *)
Definition continue_list (received : list item_hash_t) (p : net_peer) : list item_hash_t * net_peer :=
  match received with
  | [] => ([], p)
  | front :: rest =>
      match back_to front (rev (ids_of_items_to_get p)) with
      | [] => (rest, (seen_by_delegate front p) <| ids_of_items_to_get := [] |>)
      | _ :: kept => (received, p <| ids_of_items_to_get := rev kept |>)
      end
  end.
Definition is_first_item_for_other_peer (k : Z) (h : item_hash_t) (n : net_node) : bool :=
  existsb (fun kp => negb (fst kp =? k) && bool_decide (head (ids_of_items_to_get (snd kp)) = Some h)) (active_connections n).
Definition merge_list (k item_type : Z) (ids : list item_hash_t) (p : net_peer) (n : net_node) : net_peer :=
  let '(received, p) :=
    match ids, ids_of_items_to_get p with
    | h :: _, [] => if is_first_item_for_other_peer k h n then (ids, p) else drop_seen item_type ids p
    | _, _ => continue_list ids p
    end in
  p <| ids_of_items_to_get ::= fun l => l ++ received |>.
(** Times have 32 bits, like the product of the number of blocks and their interval. *)
Definition minimum_time_of_last_offered_block (p : net_peer) : Z :=
  u32 (last_block_time_delegate_has_seen p + u32 (number_of_unfetched_item_ids p * SOPHIATX_BLOCK_INTERVAL)).
Definition implausible_offer (p : net_peer) : bool :=
  minimum_time_of_last_offered_block p >? u32 (get_blockchain_now + GRAPHENE_NET_FUTURE_SYNC_BLOCKS_GRACE_PERIOD_SEC).

Definition fetch_ids_or_blocks (k total_remaining : Z) (p : net_peer) (n : net_node) : net_node * outgoing :=
  if negb (total_remaining =? 0) then
    if Nat.ltb GRAPHENE_NET_MIN_BLOCK_IDS_TO_PREFETCH (length (ids_of_items_to_get p)) then (trigger_fetch_sync_items_loop n, [])
    else fetch_next_batch_of_item_ids_from_peer k n
  else
    match ids_of_items_to_get p with
    | [] => fetch_next_batch_of_item_ids_from_peer k n
    | _ => (trigger_fetch_sync_items_loop n, [])
    end.
Definition on_blockchain_item_ids_inventory_message (k item_type total_remaining : Z) (ids : list item_hash_t) (s : sync_node)
    : sync_node * outgoing :=
  match peers (net s) !! k with
  | None => (s, [])
  | Some p =>
      match item_ids_requested_from_peer p with
      | None => (s, [])
      | Some synopsis =>
          if negb (valid_response synopsis ids) then on_net (disconnect_from_peer k) s
          else
            let p := p <| item_ids_requested_from_peer := None |> in
            if up_to_date item_type total_remaining ids p then
              let s := s <| net ::= at_peer k (fun _ => p <| we_need_sync_items_from_peer := false |>) |> in
              (s <| _total_number_of_unfetched_items := calculate_unsynced_block_count_from_all_peers (net s) |>, [])
            else
              let p := merge_list k item_type ids (p <| number_of_unfetched_item_ids := total_remaining |>) (net s) in
              let s := s <| net ::= at_peer k (fun _ => p) |> in
              if implausible_offer p then on_net (disconnect_from_peer k) s
              else
                let s := s <| _total_number_of_unfetched_items := calculate_unsynced_block_count_from_all_peers (net s) |> in
                on_net (fetch_ids_or_blocks k total_remaining p) s
      end
  end.

(** ** Blocks *)
(** [process_block_message], of a block that was not requested in normal operation. *)
Definition process_sync_block (k : Z) (m : message) (s : sync_node) : res (sync_node * outgoing) :=
  b ← read_block m;
  match peers (net s) !! k with
  | None => Ok (s, [])
  | Some p =>
      if bool_decide (bc_id b ∈ sync_items_requested_from_peer p) then
        let p := p <| sync_items_requested_from_peer ::= fun l => l ∖ {[bc_id b]} |> in
        let s := s <| net ::= at_peer k (fun _ => p) |>
                   <| _active_sync_requests ::= fun l => l ∖ {[bc_id b]} |>
                   <| _new_received_sync_items ::= cons (m, b) |>
                   <| backlog_scheduled := true |> in
        Ok (if idle p then
              if (number_of_unfetched_item_ids p >? 0) && Nat.ltb (length (ids_of_items_to_get p)) GRAPHENE_NET_MIN_BLOCK_IDS_TO_PREFETCH
              then on_net (fetch_next_batch_of_item_ids_from_peer k) s
              else (s <| net ::= trigger_fetch_sync_items_loop |>, [])
            else (s, []))
      else Ok (on_net (disconnect_from_peer k) s)
  end.

(** [process_backlog_of_sync_blocks].  A block may be handed to the client when it is the next
    one for some peer: then it is for all peers whose next block it is. *)
Definition is_next_of (h : item_hash_t) (p : net_peer) : bool := bool_decide (head (ids_of_items_to_get p) = Some h).
Definition next_for_some_peer (b : block_message) (n : net_node) : bool :=
  existsb (fun kp => is_next_of (block_id b) (snd kp)) (active_connections n).
Definition take_next (h : item_hash_t) (n : net_node) : net_node :=
  n <| peers ::= fmap (fun p =>
    if connected p && is_next_of h p then p <| ids_of_items_to_get ::= @tl _ |> <| ids_of_items_being_processed ::= union {[h]} |> else p) |>.
Definition list_is_done (p : net_peer) : bool :=
  bool_decide (ids_of_items_to_get p = []) && (number_of_unfetched_item_ids p =? 0) && bool_decide (ids_of_items_being_processed p = ∅).
(** The block is no longer processed for any peer but those left out, and the peers whose
    list ends with it. *)
Definition processed_for (h : item_hash_t) (left_out : net_peer -> bool) (f : net_peer -> net_peer) (n : net_node) : net_node * list Z :=
  let was p := negb (left_out p) && bool_decide (h ∈ ids_of_items_being_processed p) in
  let erase p := (f p) <| ids_of_items_being_processed ::= fun l => l ∖ {[h]} |> in
  (n <| peers ::= fmap (fun p => if connected p && was p then erase p else p) |>,
   map fst (List.filter (fun kp => was (snd kp) && list_is_done (erase (snd kp))) (active_connections n))).
Definition already_accepted (b : block_message) (s : sync_node) : sync_node * outgoing :=
  on_net (fun n => let '(n, ks) := processed_for (block_id b) (fun _ => false) id n in
                   on_each fetch_next_batch_of_item_ids_from_peer ks n) s.

(** One round of the loop: the first received block that can be processed, if there is one. *)
Fixpoint split_at_next (l : list block_message) (n : net_node) : option (list block_message * block_message * list block_message) :=
  match l with
  | [] => None
  | b :: l => if next_for_some_peer b n then Some ([], b, l)
              else '(before, b', after) ← split_at_next l n; Some (b :: before, b', after)
  end.
Definition backlog_round (s : sync_node) : sync_node * outgoing * bool :=
  let s := s <| _received_sync_items := rev (_new_received_sync_items s) ++ _received_sync_items s |> <| _new_received_sync_items := [] |> in
  match split_at_next (_received_sync_items s) (net s) with
  | None => (s, [], false)
  | Some (before, b, after) =>
      let s := s <| net ::= take_next (block_id b) |> in
      if bool_decide (block_id b ∈ _most_recent_blocks_accepted (net s)) then (already_accepted b s, false)
      else (s <| _received_sync_items := before ++ after |> <| _handle_message_calls_in_progress ::= fun l => l ++ [b] |>, [], true)
  end.
Definition too_many_calls (s : sync_node) : bool :=
  Nat.leb maximum_number_of_blocks_to_handle_at_one_time (length (_handle_message_calls_in_progress s)).
Fixpoint backlog_loop (fuel : nat) (s : sync_node) : res (sync_node * outgoing) :=
  match fuel with
  | O => Throw crash
  | S fuel =>
      let '(s, out, processed) := backlog_round s in
      if too_many_calls s then
        Ok (if Nat.leb maximum_number_of_sync_blocks_to_prefetch (length (_received_sync_items s))
            then s <| _suspend_fetching_sync_blocks := true |> else s, out)
      else if (processed : bool) then '(s, out') ← backlog_loop fuel s; Ok (s, out ++ out') else Ok (s, out)
  end.
(** Every round but the last takes a block from those received. *)
Definition backlog_fuel (s : sync_node) : nat := S (length (_received_sync_items s) + length (_new_received_sync_items s)).
Definition process_backlog_of_sync_blocks (s : sync_node) : res (sync_node * outgoing) :=
  let s := s <| backlog_scheduled := false |> in
  if too_many_calls s then Ok (s, [])
  else
    '(s, out) ← backlog_loop (backlog_fuel s) (s <| _suspend_fetching_sync_blocks := false |>);
    Ok (if _suspend_fetching_sync_blocks s then s else s <| net ::= trigger_fetch_sync_items_loop |>, out).

(** [send_sync_block_to_node_delegate], after the client has answered. *)
Definition up_to_us (p : net_peer) : bool :=
  bool_decide (ids_of_items_to_get p = []) && bool_decide (ids_of_items_being_processed p = ∅).
Definition accept_sync_block (b : block_message) (s : sync_node) : sync_node * outgoing :=
  let num := bc_num (snd b) in
  let s := s <| net ::= fun n => n <| _most_recent_blocks_accepted ::= push_recent (block_id b) |> |>
             <| _total_number_of_unfetched_items ::= fun c => u32 (c - 1) |> in
  on_net (fun n =>
    let outdated p := is_hard_fork_block num n && too_old num n p in
    let those P := map fst (List.filter (fun kp => P (snd kp)) (active_connections n)) in
    let restart p := negb (outdated p) && up_to_us p && negb (peer_needs_sync_items_from_us p) && negb (we_need_sync_items_from_peer p) in
    let '(n', done_) := processed_for (block_id b) outdated
      (fun p => p <| last_block_delegate_has_seen := block_id b |> <| last_block_time_delegate_has_seen := bc_timestamp (snd b) |>) n in
    let '(n', out1) := disconnect_all (those outdated) n' in
    let '(n', out2) := on_each fetch_next_batch_of_item_ids_from_peer done_ n' in
    let '(n', out3) := on_each start_synchronizing_with_peer (those restart) n' in
    (n', out1 ++ out2 ++ out3)) s.
Definition offered (b : block_message) (p : net_peer) : bool := bool_decide (block_id b ∈ ids_of_items_being_processed p).
Definition reject_sync_block (b : block_message) (e : exn) (s : sync_node) : sync_node * outgoing :=
  match e with
  | block_older_than_undo_history =>
      (s <| net ::= fun n => n <| peers ::= fmap (fun p => if connected p && offered b p then p <| inhibit_fetching_sync_blocks := true |> else p) |> |>, [])
  | _ => on_net (fun n => disconnect_all (map fst (List.filter (fun kp => offered b (snd kp)) (active_connections n))) n) s
  end.
Definition sync_call_returned (i : nat) (answer : res unit) (s : sync_node) : sync_node * outgoing :=
  match _handle_message_calls_in_progress s !! i with
  | None => (s, [])
  | Some b =>
      let s := s <| _handle_message_calls_in_progress ::= fun l => take i l ++ drop (S i) l |> in
      let '(s, out) := match answer with Ok _ => accept_sync_block b s | Throw e => reject_sync_block b e s end in
      (s <| backlog_scheduled := true |>, out)
  end.
End lists.

(** ** The ends of requests *)
(** [on_connection_closed]: what the peer was asked for may be asked for again. *)
Definition sync_connection_closed (now k : Z) (s : sync_node) : sync_node :=
  let requested := match peers (net s) !! k with Some p => sync_items_requested_from_peer p | None => ∅ end in
  s <| net ::= on_connection_closed now k |> <| _active_sync_requests ::= fun l => l ∖ requested |>.

(** ** Steps *)
Section steps.
  Context {lim : sync_limits} {cfg : sophiatx_config} {ext : externals} {bn : block_numbers}.
(** What happens to a node; its client may answer differently each time.  Gossip goes on in
    between, but the end of a connection is the step [sync_closed]. *)
Inductive sync_step (s : sync_node) : sync_node -> Prop :=
| sync_gossip (cl : node_client) n : gossip_step (net s) n ->
    (forall k, is_Some (peers (net s) !! k) -> is_Some (peers n !! k)) -> sync_step s (s <| net := n |>)
| sync_round : sync_step s (fst (fetch_sync_items s))
| sync_asked (cl : node_client) (sc : sync_client) k ty synopsis n out :
    on_fetch_blockchain_item_ids_message k ty synopsis (net s) = Ok (n, out) -> sync_step s (s <| net := n |>)
| sync_ids (cl : node_client) (sc : sync_client) k ty total ids :
    sync_step s (fst (on_blockchain_item_ids_inventory_message k ty total ids s))
| sync_block (cl : node_client) k m s' out : process_sync_block k m s = Ok (s', out) -> sync_step s s'
| sync_backlog (cl : node_client) s' out : process_backlog_of_sync_blocks s = Ok (s', out) -> sync_step s s'
| sync_returned (cl : node_client) i answer : sync_step s (fst (sync_call_returned i answer s))
| sync_closed now k : sync_step s (sync_connection_closed now k s).
End steps.
