(* ===== verification/SyncFacts.v ===== *)
(** * SyncFacts: what the steps of Gossip and Sync do to requests and lists of blocks *)
From stdpp Require Import relations.
From S2P Require Import Prelude Config ChainPlugin Gossip Sync.
Local Open Scope Z_scope.
Local Open Scope list_scope.

Section facts.
  Context {lim : sync_limits} {cfg : sophiatx_config} {ext : externals} {bn : block_numbers}.

(** ** Sequential lists *)
(** Consecutive blocks, by their 32-bit numbers. *)
Definition sequential (ids : list item_hash_t) : Prop :=
  match ids with [] => True | h :: rest => sequential_from (u32 (get_block_number h + 1)) rest = true end.
Lemma sequential_tail h ids : sequential (h :: ids) -> sequential ids.
Proof. destruct ids as [|h' ids]; [done|]. cbn. intros [<-%Z.eqb_eq H]%andb_true_iff. done. Qed.
Lemma sequential_cons h h' ids : sequential (h :: h' :: ids) <-> get_block_number h' = u32 (get_block_number h + 1) /\ sequential (h' :: ids).
Proof. cbn. rewrite andb_true_iff, Z.eqb_eq. split; [intros [-> H]|intros [E H]; rewrite <- E]; done. Qed.
Lemma sequential_suffix l ids : sequential (l ++ ids) -> sequential ids.
Proof. induction l as [|h l IH]; [done|]. intros H. by apply IH, (sequential_tail h). Qed.
Lemma sequential_app l h ids : sequential (l ++ [h]) -> sequential (h :: ids) -> sequential (l ++ h :: ids).
Proof.
  induction l as [|a l IH]; [done|]. intros H1 H2. pose proof (IH (sequential_tail _ _ H1) H2) as H3.
  destruct l as [|b l]; cbn [app] in *; apply sequential_cons; apply sequential_cons in H1 as [E _]; done.
Qed.
Lemma sequential_prefix l ids : sequential (l ++ ids) -> sequential l.
Proof.
  induction l as [|h l IH]; [done|]. intros H. pose proof (IH (sequential_tail _ _ H)) as H1.
  destruct l as [|b l]; [done|]. cbn [app] in *. apply sequential_cons in H as [E _]. by apply sequential_cons.
Qed.

(** ** Changes that request nothing *)
Definition calm_peer (p p' : net_peer) : Prop :=
  sync_items_requested_from_peer p' ⊆ sync_items_requested_from_peer p /\
  (sequential (ids_of_items_to_get p) -> sequential (ids_of_items_to_get p')).
Definition unasked (p : net_peer) : Prop := sync_items_requested_from_peer p = ∅ /\ sequential (ids_of_items_to_get p).
(** No request is made, and lists of consecutive blocks stay so. *)
Definition calm (n n' : net_node) : Prop := forall k p', peers n' !! k = Some p' ->
  unasked p' \/ exists p, peers n !! k = Some p /\ calm_peer p p'.

Lemma calm_peer_same p p' : sync_items_requested_from_peer p' = sync_items_requested_from_peer p ->
  ids_of_items_to_get p' = ids_of_items_to_get p -> calm_peer p p'.
Proof. intros E1 E2. split; rewrite ?E1, ?E2; done. Qed.
Lemma calm_peer_trans p1 p2 p3 : calm_peer p1 p2 -> calm_peer p2 p3 -> calm_peer p1 p3.
Proof. intros [A B] [C D]. split; [by etrans|auto]. Qed.
Lemma calm_same n n' : peers n' = peers n -> calm n n'.
Proof. intros E k p' Hp. right. rewrite E in Hp. exists p'. split; [done|]. by apply calm_peer_same. Qed.
Lemma calm_trans n1 n2 n3 : calm n1 n2 -> calm n2 n3 -> calm n1 n3.
Proof.
  intros A B k p3 H3. destruct (B k p3 H3) as [Hu|(p2 & H2 & C2)]; [by left|]. destruct (A k p2 H2) as [[U1 U2]|(p1 & H1 & C1)].
  - left. destruct C2 as [D1 D2]. split; [set_solver|auto].
  - right. exists p1. split; [done|]. by eapply calm_peer_trans.
Qed.
Lemma calm_refl n : calm n n.
Proof. by apply calm_same. Qed.
Lemma calm_at f k n : (forall p, peers n !! k = Some p -> calm_peer p (f p)) -> calm n (at_peer k f n).
Proof.
  intros Hf k' p' Hp. right. cbn in Hp. apply lookup_alter_Some in Hp as [(-> & p & Hp & ->)|[_ Hp]].
  - exists p. auto.
  - exists p'. split; [done|]. by apply calm_peer_same.
Qed.
Lemma calm_at_same f k n : (forall p, sync_items_requested_from_peer (f p) = sync_items_requested_from_peer p) ->
  (forall p, ids_of_items_to_get (f p) = ids_of_items_to_get p) -> calm n (at_peer k f n).
Proof. intros H1 H2. apply calm_at. intros p _. by apply calm_peer_same. Qed.
Lemma calm_fmap f n : (forall p, calm_peer p (f p)) -> calm n (n <| peers ::= fmap f |>).
Proof. intros Hf k p' Hp. right. cbn in Hp. apply lookup_fmap_Some in Hp as (p & <- & Hp). by exists p. Qed.
Lemma calm_eq_r n n1 n2 : calm n n1 -> peers n2 = peers n1 -> calm n n2.
Proof. intros H E. eapply calm_trans; [exact H|]. by apply calm_same. Qed.
Lemma calm_fold {A} (f : A -> net_node -> net_node * outgoing) l n out : (forall x n, calm n (fst (f x n))) ->
  calm n (fst (foldl (fun '(n, out) x => let '(n, o) := f x n in (n, out ++ o)) (n, out) l)).
Proof.
  intros Hf. revert n out. induction l as [|x l IH]; intros n out; [apply calm_refl|]. cbn [foldl].
  pose proof (Hf x n) as H. destruct (f x n) as [n1 o]. eapply calm_trans; [exact H|apply IH].
Qed.

(** ** Gossip requests no blocks of Sync *)
Lemma disconnect_calm k n : calm n (fst (disconnect_from_peer k n)).
Proof. by apply calm_at_same. Qed.
Lemma disconnect_all_calm ks n : calm n (fst (disconnect_all ks n)).
Proof. apply (calm_fold disconnect_from_peer). intros. apply disconnect_calm. Qed.
Section client.
  Context {cl : node_client}.
Lemma fetch_next_calm k n : calm n (fst (fetch_next_batch_of_item_ids_from_peer k n)).
Proof.
  unfold fetch_next_batch_of_item_ids_from_peer. destruct (peers n !! k) as [p|]; [|apply calm_refl].
  destruct (create_blockchain_synopsis_for_peer p) as [l|e]; [by apply calm_at_same|].
  destruct e; try apply calm_refl. apply disconnect_calm.
Qed.
Lemma start_calm k n : calm n (fst (start_synchronizing_with_peer k n)).
Proof. eapply calm_trans; [|apply fetch_next_calm]. apply calm_at. intros p _. by split. Qed.
Lemma accept_block_calm now k m b n : calm n (fst (accept_block now k m b n)).
Proof.
  unfold accept_block. set (n1 := n <| peers ::= _ |>).
  assert (H1 : calm n n1).
  { apply calm_fmap. intros p. apply calm_peer_same; by repeat case_match. }
  assert (H2 : calm n (block_accepted (broadcast m k (bc_id b) n1))).
  { eapply calm_eq_r; [exact H1|]. destruct (broadcast_same m k (bc_id b) n1) as [E1 _]. exact E1. }
  destruct (is_hard_fork_block _ _); [|exact H2]. eapply calm_trans; [exact H2|apply disconnect_all_calm].
Qed.
Lemma block_calm now k m n n' out : process_requested_block now k m n = Ok (n', out) -> calm n n'.
Proof.
  intros E. unfold process_requested_block in E. apply rbind_Ok in E as (b & _ & E).
  destruct (process_block_during_normal_operation _ _ _ _ _) as [n1 o] eqn:Eb. injection E as <- _.
  assert (H1 : calm n n1).
  { change n1 with (fst (n1, o)). rewrite <- Eb. set (n0 := at_peer k _ n).
    assert (H0 : calm n n0) by by apply calm_at_same. eapply calm_trans; [exact H0|]. clearbody n0.
    unfold process_block_during_normal_operation. destruct (bool_decide _); [apply accept_block_calm|].
    destruct (handle_block m) as [contained|e].
    - eapply calm_trans; [|apply accept_block_calm]. by apply calm_same.
    - destruct e; try (eapply calm_trans; [|apply disconnect_all_calm]; by apply calm_same).
      eapply calm_trans; [|apply start_calm]. by apply calm_same. }
  destruct (peers n1 !! k) as [p|]; [|done]. by destruct (idle p); [eapply calm_eq_r|].
Qed.
Lemma inventory_calm now k ty hs n : calm n (inventory_received now k ty hs n).
Proof.
  revert n. induction hs as [|h hs IH]; intros n; [apply calm_refl|]. cbn [inventory_received].
  destruct (_ || _); [apply IH|]. destruct (peers n !! k); [|apply calm_refl]. destruct (list_full _ _); [apply calm_refl|].
  eapply calm_trans; [|apply IH]. set (n1 := at_peer k _ n). assert (H1 : calm n n1) by by apply calm_at_same.
  destruct (we_requested _ _); [done|]. eapply calm_eq_r; [exact H1|]. unfold consider_item. destruct (has _ _); [done|].
  by destruct (wanted_in _ _).
Qed.
Lemma not_available_calm now k it n : calm n (fst (on_item_not_available_message now k it n)).
Proof.
  unfold on_item_not_available_message. destruct (peers n !! k) as [p|]; [|apply calm_refl]. destruct (has _ _).
  - set (n1 := at_peer k _ n). assert (H1 : calm n n1) by by apply calm_at_same.
    eapply calm_eq_r; [exact H1|]. by destruct (is_item_in_any_peers_inventory it n1).
  - destruct (bool_decide _); [|apply calm_refl]. set (n1 := at_peer k _ n).
    assert (H1 : calm n n1) by (apply calm_at; intros q _; split; [cbn; set_solver|done]).
    destruct (peer_needs_sync_items_from_us p).
    + cbn [fst]. eapply calm_trans; [exact H1|]. eapply calm_trans; [|by apply calm_same]. by apply calm_at_same.
    + cbn [fst]. eapply calm_trans; [exact H1|]. eapply calm_trans; [apply (disconnect_calm k n1)|by apply calm_same].
Qed.
Lemma ordinary_calm now k m n : calm n (fst (process_ordinary_message now k m n)).
Proof.
  unfold process_ordinary_message. destruct (peers n !! k) as [p|]; [|apply calm_refl].
  destruct (negb _); [apply disconnect_calm|]. set (n1 := at_peer k _ n). assert (H1 : calm n n1) by by apply calm_at_same.
  set (n2 := if idle _ then _ else _). assert (H2 : calm n n2) by (unfold n2; by destruct (idle _)).
  destruct (handle_message m); eapply calm_eq_r; [exact H2| |exact H2|done]. apply broadcast_same.
Qed.
Lemma closed_peers now k n : peers (on_connection_closed now k n) = delete k (peers n).
Proof.
  unfold on_connection_closed. destruct (peers n !! k) as [p|] eqn:Hp; [|by rewrite delete_id].
  set (n1 := if bool_decide (sync_items_requested_from_peer p = ∅) then _ else _).
  assert (H1 : peers n1 = delete k (peers n)) by (unfold n1; by destruct (bool_decide _)). clearbody n1.
  destruct (bool_decide _); [done|]. cbn. rewrite <- H1. clear H1.
  generalize (map fst (map_to_list (items_requested_from_peer p))). intros its.
  change (peers (foldl (fun n it => if is_item_in_any_peers_inventory it n then want now it n else n) n1 its) = peers n1).
  revert n1. induction its as [|it its IH]; intros n1; [done|]. cbn [foldl]. rewrite IH. by destruct (is_item_in_any_peers_inventory it n1).
Qed.
Lemma closed_calm now k n : calm n (on_connection_closed now k n).
Proof.
  intros k' p' Hp. rewrite closed_peers in Hp. apply lookup_delete_Some in Hp as [_ Hp]. right. exists p'. split; [done|].
  by apply calm_peer_same.
Qed.
Lemma assign_items_calm now l ps pl n : peers n = ps -> calm n (n <| peers := (assign_items now l ps pl).1.1 |>).
Proof.
  intros <-. enough (H : forall n1, calm n n1 -> calm n (n <| peers := (assign_items now l (peers n1) pl).1.1 |>)) by apply (H n (calm_refl n)).
  revert pl. induction l as [|x l IH]; intros pl n1 H1; cbn [assign_items]; [by eapply calm_eq_r|].
  destruct (heard_at x <? _); [by apply IH|].
  destruct (choose_peer now (peers n1) (item x) pl) as [[[before [k items]] after]|].
  - set (f := fun p => p <| items_requested_from_peer ::= _ |>). apply (IH _ (at_peer k f n1)).
    eapply calm_trans; [exact H1|by apply calm_at_same].
  - pose proof (IH pl n1 H1) as H. by destruct (assign_items now l (peers n1) pl) as [[ps1 pl1] rest1].
Qed.
Lemma fetch_items_calm now n : calm n (fst (fetch_items now n)).
Proof.
  unfold fetch_items. pose proof (assign_items_calm now (_items_to_fetch n) (peers n) (initial_plan n) n eq_refl) as H.
  destruct (assign_items _ _ _ _) as [[ps pl] rest]. by eapply calm_eq_r.
Qed.
Lemma gossip_calm n n' : gossip_step n n' -> calm n n'.
Proof.
  intros Hs. destruct Hs as [k p Hk Hnew|now k ty hs _|now|now|now k it Ha|now k m _|now k m n' out _ E|k ty hs n' out E|m k c|k|k|now k Ha|now].
  - intros k' p' Hp. cbn in Hp. apply lookup_insert_Some in Hp as [[<- <-]|[_ Hp]].
    + left. destruct Hnew as (_ & _ & _ & _ & E1 & E2 & _). split; [done|]. by rewrite E2.
    + right. exists p'. split; [done|]. by apply calm_peer_same.
  - unfold on_item_ids_inventory_message. eapply calm_trans; [|apply inventory_calm]. by apply calm_at_same.
  - apply fetch_items_calm.
  - unfold advertise_inventory. cbn [fst]. eapply calm_trans; [|apply calm_fmap]; [by apply calm_same|].
    intros p. apply calm_peer_same; unfold advertise_to; by repeat case_match.
  - apply not_available_calm.
  - apply ordinary_calm.
  - by eapply block_calm.
  - unfold on_fetch_items_message in E. apply rbind_Ok in E as (found & _ & E). apply rbind_Ok in E as (n1 & En & E).
    apply rbind_Ok in E as (r & _ & E). injection E as <- _. destruct (if _ =? _ then _ else None).
    + apply rbind_Ok in En as (b & _ & En). injection En as <-. by apply calm_at_same.
    + injection En as <-. apply calm_refl.
  - apply calm_same, broadcast_same.
  - by apply calm_at_same.
  - apply disconnect_calm.
  - apply closed_calm.
  - by apply calm_same.
Qed.
End client.

(** ** The steps of Sync *)
Lemma on_each_calm f ks n : (forall k n, calm n (fst (f k n))) -> calm n (fst (on_each f ks n)).
Proof. intros Hf. by apply (calm_fold f). Qed.
Lemma on_net_calm f s : calm (net s) (fst (f (net s))) -> calm (net s) (net (fst (on_net f s))).
Proof. unfold on_net. by destruct (f (net s)). Qed.
Lemma on_net_active f s : _active_sync_requests (fst (on_net f s)) = _active_sync_requests s.
Proof. unfold on_net. by destruct (f (net s)). Qed.
Section client.
  Context {cl : node_client} {sc : sync_client}.
Lemma asked_calm k ty synopsis n n' out : on_fetch_blockchain_item_ids_message k ty synopsis n = Ok (n', out) -> calm n n'.
Proof.
  intros E. unfold on_fetch_blockchain_item_ids_message in E. apply rbind_Ok in E as ([available total] & _ & E).
  destruct (peers n !! k) as [p|]; [|injection E as <- _; apply calm_refl]. set (n1 := at_peer k _ n) in E.
  assert (H1 : calm n n1) by by apply calm_at_same. clearbody n1.
  set (r := match last synopsis with Some _ => _ | None => _ end) in E. assert (H2 : calm n (fst r)).
  { eapply calm_trans; [exact H1|]. unfold r. destruct (last synopsis) as [h|]; [|apply calm_refl].
    destruct (_ && _); [apply start_calm|apply calm_refl]. }
  clearbody r. destruct r as [n2 o2]. destruct (in_sync_and_unwanted _ _ _).
  - injection E as <- _. eapply calm_trans; [exact H2|apply disconnect_calm].
  - by injection E as <- _.
Qed.

Lemma valid_response_sequential synopsis ids : valid_response synopsis ids = true -> sequential ids.
Proof. destruct ids as [|h ids]; [done|]. cbn. by intros [H _]%andb_true_iff. Qed.
Lemma drop_seen_spec ty ids p : exists l, ids = l ++ fst (drop_seen ty ids p) /\
  sync_items_requested_from_peer (snd (drop_seen ty ids p)) = sync_items_requested_from_peer p /\
  ids_of_items_to_get (snd (drop_seen ty ids p)) = ids_of_items_to_get p.
Proof.
  revert p. induction ids as [|h ids IH]; intros p; cbn [drop_seen]; [by exists []|].
  destruct (has_item (ty, h)); [|by exists []]. destruct (IH (seen_by_delegate h p)) as (l & E & H). exists (h :: l). by rewrite E at 1.
Qed.
Lemma back_to_spec front l : back_to front l = [] \/ exists pre kept, l = pre ++ front :: kept /\ back_to front l = front :: kept.
Proof.
  induction l as [|h l IH]; cbn [back_to]; [by left|]. destruct (bool_decide_reflect (h = front)) as [->|Hne].
  - right. by exists [], l.
  - destruct IH as [E|(pre & kept & -> & E)]; [by left|]. right. by exists (h :: pre), kept.
Qed.
Lemma continue_list_spec received p : sequential received -> sequential (ids_of_items_to_get p) ->
  let r := continue_list received p in
  sequential (ids_of_items_to_get (snd r) ++ fst r) /\ sync_items_requested_from_peer (snd r) = sync_items_requested_from_peer p.
Proof.
  intros Hr Hp. destruct received as [|front rest]; cbn [continue_list]; [by rewrite app_nil_r|].
  destruct (back_to_spec front (rev (ids_of_items_to_get p))) as [E|(pre & kept & El & E)]; rewrite E; cbn.
  - split; [by eapply sequential_tail|done].
  - split; [|done]. apply sequential_app; [|done].
    apply (sequential_prefix _ (rev pre)). apply (f_equal (@rev _)) in El. rewrite rev_involutive, rev_app_distr in El.
    cbn [rev] in El. by rewrite <- El.
Qed.
Lemma merge_list_calm k ty ids p n : sequential ids -> calm_peer p (merge_list k ty ids p n).
Proof.
  intros Hids. unfold merge_list.
  assert (Hc : forall r, (sync_items_requested_from_peer (snd r) = sync_items_requested_from_peer p) ->
    (sequential (ids_of_items_to_get p) -> sequential (ids_of_items_to_get (snd r) ++ fst r)) ->
    calm_peer p (let '(received, q) := r in q <| ids_of_items_to_get ::= fun l => l ++ received |>)).
  { intros [received q] E H. split; cbn in *; [by rewrite E|exact H]. }
  apply Hc; destruct ids as [|h ids]; try (intros; by apply continue_list_spec); try done.
  - destruct (ids_of_items_to_get p) eqn:Ep; [destruct (is_first_item_for_other_peer _ _ _); [done|by destruct (drop_seen_spec ty (h :: ids) p) as (l & _ & E & _)]|].
    unfold continue_list. rewrite Ep. by destruct (back_to _ _).
  - intros Hp. destruct (ids_of_items_to_get p) eqn:Ep; [|apply continue_list_spec; [done|by rewrite Ep]].
    destruct (is_first_item_for_other_peer _ _ _); cbn [fst snd]; [by rewrite Ep|].
    destruct (drop_seen_spec ty (h :: ids) p) as (l & El & _ & E). rewrite E, Ep. cbn [app]. rewrite El in Hids.
    by eapply sequential_suffix.
Qed.
Lemma calm_at_to k p p' n : peers n !! k = Some p -> calm_peer p p' -> calm n (at_peer k (fun _ => p') n).
Proof. intros Hp H. apply calm_at. intros q Hq. rewrite Hp in Hq. by injection Hq as <-. Qed.
Lemma fetch_ids_or_blocks_calm k total p n : calm n (fst (fetch_ids_or_blocks k total p n)).
Proof.
  unfold fetch_ids_or_blocks. destruct (negb _); [destruct (Nat.ltb _ _)|destruct (ids_of_items_to_get p)];
    try apply fetch_next_calm; by apply calm_same.
Qed.
Lemma ids_calm k ty total ids s : let s' := fst (on_blockchain_item_ids_inventory_message k ty total ids s) in
  calm (net s) (net s') /\ _active_sync_requests s' = _active_sync_requests s.
Proof.
  cbv zeta. unfold on_blockchain_item_ids_inventory_message. destruct (peers (net s) !! k) as [p|] eqn:Hp; [|split; [apply calm_refl|done]].
  destruct (item_ids_requested_from_peer p) as [synopsis|]; [|split; [apply calm_refl|done]].
  destruct (valid_response synopsis ids) eqn:Hv; cbn [negb]; [|split; [apply (disconnect_calm k (net s))|done]].
  apply valid_response_sequential in Hv. destruct (up_to_date _ _ _ _).
  - split; [|done]. cbn. apply (calm_at_to k p); [done|]. by apply calm_peer_same.
  - set (q := merge_list _ _ _ _ _). set (s1 := s <| net ::= _ |>).
    assert (H1 : calm (net s) (net s1)).
    { apply (calm_at_to k p); [done|]. eapply calm_peer_trans; [|by apply merge_list_calm]. by apply calm_peer_same. }
    assert (E1 : _active_sync_requests s1 = _active_sync_requests s) by done. clearbody s1. rewrite <- E1.
    destruct (implausible_offer q).
    + split; [|apply on_net_active]. eapply calm_trans; [exact H1|]. apply on_net_calm, disconnect_calm.
    + set (s2 := s1 <| _total_number_of_unfetched_items := _ |>). split; [|by rewrite (on_net_active _ s2)].
      eapply calm_trans; [exact H1|]. apply (on_net_calm _ s2), fetch_ids_or_blocks_calm.
Qed.

Lemma take_next_calm h n : calm n (take_next h n).
Proof.
  apply calm_fmap. intros p. destruct (connected p && is_next_of h p); [|by apply calm_peer_same].
  split; [done|]. cbn. destruct (ids_of_items_to_get p); [done|]. apply sequential_tail.
Qed.
Lemma processed_for_calm h left_out f n : (forall p, calm_peer p (f p)) -> calm n (fst (processed_for h left_out f n)).
Proof. intros Hf. apply calm_fmap. intros p. destruct (_ && _); [|by apply calm_peer_same]. destruct (Hf p) as [A B]. by split. Qed.
Lemma already_accepted_calm b s : calm (net s) (net (fst (already_accepted b s))).
Proof.
  apply on_net_calm. pose proof (processed_for_calm (block_id b) (fun _ => false) id (net s)) as H.
  destruct (processed_for _ _ _ _) as [n ks]. eapply calm_trans; [by apply H; intros; apply calm_peer_same|].
  apply on_each_calm, fetch_next_calm.
Qed.

(** A step that requests nothing and ends no request. *)
Definition quiet (s s' : sync_node) : Prop := calm (net s) (net s') /\ _active_sync_requests s' = _active_sync_requests s.
Lemma quiet_trans s1 s2 s3 : quiet s1 s2 -> quiet s2 s3 -> quiet s1 s3.
Proof. intros [A B] [C D]. split; [by eapply calm_trans|congruence]. Qed.
Lemma quiet_same s s' : net s' = net s -> _active_sync_requests s' = _active_sync_requests s -> quiet s s'.
Proof. intros E A. split; [rewrite E; apply calm_refl|done]. Qed.
Lemma quiet_on_net f s : calm (net s) (fst (f (net s))) -> quiet s (fst (on_net f s)).
Proof. intros H. split; [by apply on_net_calm|apply on_net_active]. Qed.

Lemma backlog_round_quiet s : quiet s (fst (fst (backlog_round s))).
Proof.
  unfold backlog_round. set (s1 := s <| _received_sync_items := _ |> <| _new_received_sync_items := _ |>).
  assert (H1 : quiet s s1) by by apply quiet_same. clearbody s1.
  destruct (split_at_next _ _) as [[[before b] after]|]; [|done]. set (s2 := s1 <| net ::= _ |>).
  assert (H2 : quiet s s2) by (eapply quiet_trans; [exact H1|]; split; [apply take_next_calm|done]). clearbody s2.
  destruct (bool_decide _); cbn [fst].
  - eapply quiet_trans; [exact H2|]. split; [apply already_accepted_calm|apply on_net_active].
  - eapply quiet_trans; [exact H2|]. by apply quiet_same.
Qed.
Lemma backlog_loop_quiet fuel s s' out : backlog_loop fuel s = Ok (s', out) -> quiet s s'.
Proof.
  revert s s' out. induction fuel as [|fuel IH]; intros s s' out; [done|]. cbn [backlog_loop].
  pose proof (backlog_round_quiet s) as H. destruct (backlog_round s) as [[s1 o1] processed]. cbn [fst] in H.
  destruct (too_many_calls s1).
  - intros [= <- _]. destruct (Nat.leb _ _); [|done]. eapply quiet_trans; [exact H|by apply quiet_same].
  - destruct processed; [|by intros [= <- _]]. intros ([s2 o2] & E & [= <- _])%rbind_Ok. eapply quiet_trans; [exact H|by eapply IH].
Qed.
Lemma backlog_quiet s s' out : process_backlog_of_sync_blocks s = Ok (s', out) -> quiet s s'.
Proof.
  unfold process_backlog_of_sync_blocks. destruct (too_many_calls _); [intros [= <- _]; by apply quiet_same|].
  intros ([s1 o1] & E%backlog_loop_quiet & [= <- _])%rbind_Ok.
  eapply quiet_trans; [eapply quiet_trans; [|exact E]; by apply quiet_same|]. destruct (_suspend_fetching_sync_blocks s1); [by apply quiet_same|].
  split; [by apply calm_same|done].
Qed.
Lemma accept_sync_block_quiet b s : quiet s (fst (accept_sync_block b s)).
Proof.
  unfold accept_sync_block. set (s1 := s <| net ::= _ |> <| _total_number_of_unfetched_items ::= _ |>).
  assert (H1 : quiet s s1) by (split; [by apply calm_same|done]). clearbody s1. eapply quiet_trans; [exact H1|].
  apply quiet_on_net. cbv zeta. set (outdated := fun p => _ && _). set (f := fun p => p <| last_block_delegate_has_seen := _ |> <| _ := _ |>).
  pose proof (processed_for_calm (block_id b) outdated f (net s1) ltac:(intros; by apply calm_peer_same)) as H2.
  destruct (processed_for _ _ _ _) as [n2 done_]. set (ks := map fst _). pose proof (disconnect_all_calm ks n2) as H3.
  destruct (disconnect_all ks n2) as [n3 o1].
  pose proof (on_each_calm fetch_next_batch_of_item_ids_from_peer done_ n3 (fetch_next_calm)) as H4.
  destruct (on_each _ done_ n3) as [n4 o2]. set (ks' := map fst _).
  pose proof (on_each_calm start_synchronizing_with_peer ks' n4 start_calm) as H5.
  destruct (on_each _ ks' n4) as [n5 o3]. cbn [fst] in *. do 3 (eapply calm_trans; [eassumption|]). done.
Qed.
Lemma reject_sync_block_quiet b e s : quiet s (fst (reject_sync_block b e s)).
Proof.
  unfold reject_sync_block. destruct e; try (apply quiet_on_net, disconnect_all_calm).
  split; [|done]. apply calm_fmap. intros p. apply calm_peer_same; by destruct (_ && _).
Qed.
Lemma returned_quiet i answer s : quiet s (fst (sync_call_returned i answer s)).
Proof.
  unfold sync_call_returned. destruct (_ !! i) as [b|]; [|by apply quiet_same]. set (s1 := s <| _handle_message_calls_in_progress ::= _ |>).
  assert (H1 : quiet s s1) by by apply quiet_same. clearbody s1. destruct answer as [[]|e].
  - pose proof (accept_sync_block_quiet b s1) as H. destruct (accept_sync_block b s1) as [s2 o]. eapply quiet_trans; [exact H1|].
    eapply quiet_trans; [exact H|]. by apply quiet_same.
  - pose proof (reject_sync_block_quiet b e s1) as H. destruct (reject_sync_block b e s1) as [s2 o]. eapply quiet_trans; [exact H1|].
    eapply quiet_trans; [exact H|]. by apply quiet_same.
Qed.
End client.

(** ** Requests *)
Definition asks (s : sync_node) (k : Z) (h : item_hash_t) : Prop :=
  exists p, peers (net s) !! k = Some p /\ h ∈ sync_items_requested_from_peer p.
(** Every block is requested from one peer, and known to be requested; the lists of the
    peers are sequential. *)
Record sync_ok (s : sync_node) : Prop := SyncOk {
  requests_are_active : forall k h, asks s k h -> h ∈ _active_sync_requests s;
  one_peer_per_block : forall h k1 k2, asks s k1 h -> asks s k2 h -> k1 = k2;
  lists_sequential : forall k p, peers (net s) !! k = Some p -> sequential (ids_of_items_to_get p) }.
(** A block that counts as requested, but that nobody was asked for. *)
Definition orphan (h : item_hash_t) (s : sync_node) : Prop := h ∈ _active_sync_requests s /\ forall k, ~ asks s k h.

Lemma calm_asks s s' k h : calm (net s) (net s') -> asks s' k h -> asks s k h.
Proof. intros Hc (p' & Hp & Hh). destruct (Hc k p' Hp) as [[E _]|(p & Hp' & [Hsub _])]; [set_solver|]. exists p. auto. Qed.
Lemma calm_lists s s' : calm (net s) (net s') -> (forall k p, peers (net s) !! k = Some p -> sequential (ids_of_items_to_get p)) ->
  forall k p, peers (net s') !! k = Some p -> sequential (ids_of_items_to_get p).
Proof. intros Hc H k p' Hp. destruct (Hc k p' Hp) as [[_ E]|(p & Hp' & [_ Hs])]; [done|]. by eapply Hs, H. Qed.
(** What is no longer active nobody is asked for. *)
Lemma calm_ok s s' : calm (net s) (net s') ->
  (forall k h, asks s' k h -> h ∈ _active_sync_requests s -> h ∈ _active_sync_requests s') -> sync_ok s -> sync_ok s'.
Proof.
  intros Hc Ha [H1 H2 H3]. split; [| |by eapply calm_lists].
  - intros k h H. apply (Ha k); [done|]. eapply H1, calm_asks; done.
  - intros h k1 k2 A1 A2. by eapply H2; eapply calm_asks.
Qed.
Lemma quiet_ok s s' : quiet s s' -> sync_ok s -> sync_ok s'.
Proof. intros [Hc E]. apply calm_ok; [done|intros k h _; by rewrite E]. Qed.
Lemma quiet_orphan h s s' : quiet s s' -> orphan h s -> orphan h s'.
Proof. intros [Hc E] [H1 H2]. split; [by rewrite E|]. intros k A. eapply H2, calm_asks; done. Qed.

(** Requests of blocks of which none is active. *)
Fixpoint fresh_requests (active : gset item_hash_t) (l : list (Z * list item_hash_t)) : Prop :=
  match l with
  | [] => True
  | (k, hs) :: l => (forall h, h ∈ hs -> h ∉ active) /\ fresh_requests (list_to_set hs ∪ active) l
  end.
Lemma choose_sync_items_spec s ids count chosen : let r := choose_sync_items s ids count chosen in
  (snd r = list_to_set (fst r) ∪ chosen) /\
  forall h, h ∈ fst r -> (h ∉ chosen) /\ (h ∉ _active_sync_requests s) /\ (have_already_received_sync_item h s = false) /\ (h ∈ ids).
Proof.
  revert count chosen. induction ids as [|a ids IH]; intros count chosen; cbn [choose_sync_items].
  - cbn. split; [set_solver|]. by intros h ?%elem_of_nil.
  - destruct (negb (have_already_received_sync_item a s) && _ && _) eqn:E.
    + apply andb_true_iff in E as [[E1 E2]%andb_true_iff E3]. apply negb_true_iff in E1.
      apply negb_true_iff, bool_decide_eq_false in E2, E3.
      destruct (Nat.leb _ _); [cbn; split; [set_solver|]; intros h ->%list_elem_of_singleton; split_and!; [done..|apply elem_of_cons; by left]|].
      destruct (IH (S count) ({[a]} ∪ chosen)) as [F1 F2]. destruct (choose_sync_items s ids (S count) _) as [hs chosen'].
      cbn [fst snd] in *. split; [set_solver|]. intros h [->|Hh]%elem_of_cons; [split_and!; [done..|apply elem_of_cons; by left]|].
      destruct (F2 h Hh) as (A & B & C & D). split_and!; [set_solver|done|done|apply elem_of_cons; by right].
    + destruct (IH count chosen) as [F1 F2]. split; [done|]. intros h Hh. destruct (F2 h Hh) as (A & B & C & D).
      split_and!; [done..|apply elem_of_cons; by right].
Qed.
Lemma schedule_fresh s ps chosen active : active ⊆ chosen ∪ _active_sync_requests s ->
  fresh_requests active (schedule_sync_requests s ps chosen).
Proof.
  revert chosen active. induction ps as [|[k p] ps IH]; intros chosen active Ha; cbn [schedule_sync_requests]; [done|].
  destruct (_ && _); [|by apply IH].
  destruct (choose_sync_items_spec s (ids_of_items_to_get p) 0 chosen) as [E1 E2].
  destruct (choose_sync_items s (ids_of_items_to_get p) 0 chosen) as [hs chosen']. cbn [fst snd] in *.
  assert (Hr : fresh_requests (list_to_set hs ∪ active) (schedule_sync_requests s ps chosen')) by (apply IH; set_solver).
  destruct hs as [|h hs]; [apply IH; set_solver|]. cbn [fresh_requests]. split; [|done].
  intros x Hx. destruct (E2 x Hx) as (A & B & _). set_solver.
Qed.
Lemma request_asks k hs s k' h : asks (fst (request_sync_items_from_peer k hs s)) k' h -> asks s k' h \/ (k' = k /\ h ∈ hs).
Proof.
  intros (p & Hp & Hh). cbn in Hp. apply lookup_alter_Some in Hp as [(-> & p0 & Hp & ->)|[_ Hp]].
  - cbn in Hh. apply elem_of_union in Hh as [Hh%elem_of_list_to_set|Hh]; [by right|]. left. by exists p0.
  - left. by exists p.
Qed.
Lemma request_lists k hs s : (forall k p, peers (net s) !! k = Some p -> sequential (ids_of_items_to_get p)) ->
  forall k' p, peers (net (fst (request_sync_items_from_peer k hs s))) !! k' = Some p -> sequential (ids_of_items_to_get p).
Proof.
  intros H k' p Hp. cbn in Hp. apply lookup_alter_Some in Hp as [(-> & p0 & Hp & ->)|[_ Hp]]; [exact (H _ _ Hp)|by eapply H].
Qed.
Lemma request_ok k hs s : (forall h, h ∈ hs -> h ∉ _active_sync_requests s) -> sync_ok s ->
  sync_ok (fst (request_sync_items_from_peer k hs s)).
Proof.
  intros Hf [H1 H2 H3]. split; [| |by apply request_lists].
  - intros k' h [A|[_ Hh]]%request_asks; cbn; apply elem_of_union; [right; by eapply H1|left; by apply elem_of_list_to_set].
  - intros h k1 k2 [A1|[-> B1]]%request_asks [A2|[-> B2]]%request_asks; [by eapply H2|..|done].
    + by destruct (Hf h B2); eapply H1.
    + by destruct (Hf h B1); eapply H1.
Qed.
Lemma send_requests_spec l s out : fresh_requests (_active_sync_requests s) l ->
  let s' := fst (foldl (fun '(s, out) r => let '(s, o) := request_sync_items_from_peer (fst r) (snd r) s in (s, out ++ o)) (s, out) l) in
  (sync_ok s -> sync_ok s') /\ (forall h, orphan h s -> orphan h s').
Proof.
  revert s out. induction l as [|[k hs] l IH]; intros s out Hf; [done|]. destruct Hf as [Hf Hl]. cbn [foldl fst snd].
  pose proof (request_ok k hs s Hf) as H. destruct (request_sync_items_from_peer k hs s) as [s1 o] eqn:E.
  assert (E1 : s1 = fst (request_sync_items_from_peer k hs s)) by (by rewrite E).
  destruct (IH s1 (out ++ o)) as [H1 H2]; [by rewrite E1|]. split; [intros Hok; by apply H1, H|].
  intros h [Ha Hno]. apply H2. split; [rewrite E1; cbn; set_solver|]. intros k' A. rewrite E1 in A.
  apply request_asks in A as [A|[-> Hh]]; [by eapply Hno|by apply (Hf h)].
Qed.
Lemma round_spec s : (sync_ok s -> sync_ok (fst (fetch_sync_items s))) /\ (forall h, orphan h s -> orphan h (fst (fetch_sync_items s))).
Proof.
  unfold fetch_sync_items. set (s1 := s <| net ::= _ |>).
  assert (H1 : quiet s s1) by (split; [by apply calm_same|done]). clearbody s1.
  destruct (_suspend_fetching_sync_blocks s1).
  - split; [by apply quiet_ok|intros h; by apply quiet_orphan].
  - destruct (send_requests_spec (schedule_sync_requests s1 (active_connections (net s1)) ∅) s1 []) as [A B];
      [apply schedule_fresh; set_solver|].
    split; [intros Hok; by apply A, (quiet_ok s)|intros h Ho; by apply B, (quiet_orphan h s)].
Qed.
Lemma send_requests_out l s out :
  snd (foldl (fun '(s, out) r => let '(s, o) := request_sync_items_from_peer (fst r) (snd r) s in (s, out ++ o)) (s, out) l) =
  out ++ map (fun r => (fst r, fetch_items_message block_message_type (snd r))) l.
Proof.
  revert s out. induction l as [|[k hs] l IH]; intros s out; cbn [foldl map]; [by rewrite app_nil_r|].
  destruct (request_sync_items_from_peer _ _ s) as [s1 o] eqn:E. rewrite IH. injection E as _ <-. by rewrite <- app_assoc.
Qed.
Lemma schedule_not_active s ps chosen k hs h : (k, hs) ∈ schedule_sync_requests s ps chosen -> h ∈ hs -> h ∉ _active_sync_requests s.
Proof.
  revert chosen. induction ps as [|[k' p] ps IH]; intros chosen; cbn [schedule_sync_requests]; [by intros ?%elem_of_nil|].
  destruct (_ && _); [|by apply IH]. destruct (choose_sync_items_spec s (ids_of_items_to_get p) 0 chosen) as [_ E2].
  destruct (choose_sync_items s (ids_of_items_to_get p) 0 chosen) as [l chosen']. cbn [fst] in *.
  destruct l as [|x l]; [by apply IH|]. intros [[= -> ->]|Hin]%elem_of_cons Hh; [by apply E2|by eapply IH].
Qed.
(** A round asks for no block that is active. *)
Lemma round_out s k w h : (k, w) ∈ snd (fetch_sync_items s) -> h ∈ _active_sync_requests s ->
  exists hs, w = fetch_items_message block_message_type hs /\ h ∉ hs.
Proof.
  unfold fetch_sync_items. set (s1 := s <| net ::= _ |>). assert (E : _active_sync_requests s1 = _active_sync_requests s) by done.
  clearbody s1. destruct (_suspend_fetching_sync_blocks s1); [by intros ?%elem_of_nil|].
  unfold send_sync_requests. rewrite send_requests_out. cbn [app]. intros Hin Ha.
  apply list_elem_of_In, in_map_iff in Hin as ([k' hs] & [= -> <-] & Hin). exists hs. split; [done|]. intros Hh.
  apply list_elem_of_In in Hin. eapply schedule_not_active; [exact Hin|exact Hh|by rewrite E].
Qed.

(** A block that arrives, and a connection that ends, free what they answer. *)
Lemma block_spec {cl : node_client} k m s s' out : process_sync_block k m s = Ok (s', out) ->
  quiet s s' \/ exists p h, peers (net s) !! k = Some p /\ h ∈ sync_items_requested_from_peer p /\
    _active_sync_requests s' = _active_sync_requests s ∖ {[h]} /\
    calm (at_peer k (fun _ => p <| sync_items_requested_from_peer ::= fun l => l ∖ {[h]} |>) (net s)) (net s').
Proof.
  intros (b & _ & E)%rbind_Ok. destruct (peers (net s) !! k) as [p|] eqn:Hp; [|injection E as <- _; left; by apply quiet_same].
  destruct (bool_decide_reflect (bc_id b ∈ sync_items_requested_from_peer p)) as [Hh|_].
  - right. exists p, (bc_id b). cbv zeta in E. set (p1 := p <| sync_items_requested_from_peer ::= _ |>) in *.
    set (s1 := s <| net ::= at_peer k (fun _ => p1) |> <| _active_sync_requests ::= _ |> <| _new_received_sync_items ::= _ |>
      <| backlog_scheduled := true |>) in E.
    change (at_peer k (fun _ => p1) (net s)) with (net s1). split; [done|]. split; [done|].
    change (_active_sync_requests s ∖ {[bc_id b]}) with (_active_sync_requests s1). clearbody s1.
    assert (Hq : quiet s1 s'); [|by destruct Hq].
    injection E as E. destruct (idle p1); [destruct (_ && _)|]; apply (f_equal fst) in E; cbn [fst] in E; subst s'.
    + apply quiet_on_net, fetch_next_calm.
    + split; [by apply calm_same|done].
    + by apply quiet_same.
  - left. assert (E' : on_net (disconnect_from_peer k) s = (s', out)) by congruence.
    change s' with (fst (s', out)). rewrite <- E'. apply quiet_on_net, disconnect_calm.
Qed.
Lemma freed_ok k p h s s' : sync_ok s -> peers (net s) !! k = Some p -> h ∈ sync_items_requested_from_peer p ->
  _active_sync_requests s' = _active_sync_requests s ∖ {[h]} ->
  calm (at_peer k (fun _ => p <| sync_items_requested_from_peer ::= fun l => l ∖ {[h]} |>) (net s)) (net s') -> sync_ok s'.
Proof.
  intros Hok Hp Hh Ea Hc. match type of Hc with calm (at_peer _ ?f _) _ => set (s1 := s <| net := at_peer k f (net s) |>) end.
  change (calm (net s1) (net s')) in Hc.
  assert (H1 : calm (net s) (net s1)) by (apply (calm_at_to k p); [done|split; [cbn; set_solver|done]]).
  eapply calm_ok; [by eapply calm_trans|..|exact Hok]. intros k' x A Hx. rewrite Ea. apply elem_of_difference. split; [done|].
  intros ->%elem_of_singleton. apply (calm_asks s1) in A; [|exact Hc]. assert (k' = k) as ->.
  { apply (one_peer_per_block s Hok h k' k); [by eapply calm_asks|by exists p]. }
  destruct A as (q & Hq & Hxq). cbn in Hq. rewrite lookup_alter_eq, Hp in Hq. injection Hq as <-. cbn in Hxq. set_solver.
Qed.
Lemma sync_closed_ok now k s : sync_ok s -> sync_ok (sync_connection_closed now k s).
Proof.
  intros Hok. eapply calm_ok; [apply closed_calm|..|exact Hok].
  intros k' h A Hh. cbn. apply elem_of_difference. split; [done|]. destruct (peers (net s) !! k) as [p|] eqn:Hp; [|set_solver].
  intros Hin. destruct A as (q & Hq & Hhq). cbn in Hq. rewrite closed_peers in Hq. apply lookup_delete_Some in Hq as [Hne Hq].
  apply Hne. apply (one_peer_per_block s Hok h); [by exists p|by exists q].
Qed.

Lemma sync_step_ok s s' : sync_step s s' -> sync_ok s -> sync_ok s'.
Proof.
  intros Hs Hok. destruct Hs as [cl n Hg _| |cl sc k ty synopsis n out E|cl sc k ty total ids|cl k m s' out E|cl s' out E|cl i answer|now k].
  - apply (quiet_ok s); [|done]. split; [by eapply gossip_calm|done].
  - by apply round_spec.
  - apply (quiet_ok s); [|done]. split; [by eapply asked_calm|done].
  - apply (quiet_ok s); [|done]. destruct (ids_calm k ty total ids s). by split.
  - apply block_spec in E as [Hq|(p & h & Hp & Hh & Ea & Hc)]; [by apply (quiet_ok s)|by eapply freed_ok].
  - apply (quiet_ok s); [by eapply backlog_quiet|done].
  - apply (quiet_ok s); [apply returned_quiet|done].
  - by apply sync_closed_ok.
Qed.
Lemma sync_step_orphan h s s' : sync_step s s' -> orphan h s -> orphan h s'.
Proof.
  intros Hs Ho. destruct Hs as [cl n Hg _| |cl sc k ty synopsis n out E|cl sc k ty total ids|cl k m s' out E|cl s' out E|cl i answer|now k].
  - apply (quiet_orphan h s); [|done]. split; [by eapply gossip_calm|done].
  - by apply round_spec.
  - apply (quiet_orphan h s); [|done]. split; [by eapply asked_calm|done].
  - apply (quiet_orphan h s); [|done]. destruct (ids_calm k ty total ids s). by split.
  - apply block_spec in E as [Hq|(p & x & Hp & Hx & Ea & Hc)]; [by apply (quiet_orphan h s)|].
    destruct Ho as [Ha Hno]. split.
    + rewrite Ea. apply elem_of_difference. split; [done|]. intros ->%elem_of_singleton. apply (Hno k). by exists p.
    + intros k' A. match type of Hc with calm (at_peer _ ?f _) _ => set (s1 := s <| net := at_peer k f (net s) |>) end.
  change (calm (net s1) (net s')) in Hc. apply (calm_asks s1) in A; [|exact Hc].
      apply (Hno k'). eapply calm_asks; [|exact A]. apply (calm_at_to k p); [done|split; [cbn; set_solver|done]].
  - apply (quiet_orphan h s); [by eapply backlog_quiet|done].
  - apply (quiet_orphan h s); [apply returned_quiet|done].
  - destruct Ho as [Ha Hno]. split.
    + cbn. apply elem_of_difference. split; [done|]. intros Hin. destruct (peers (net s) !! k) as [p|] eqn:Hp; [|set_solver].
      apply (Hno k). by exists p.
    + intros k' A. apply (Hno k'). apply (calm_asks s (sync_connection_closed now k s)); [apply closed_calm|exact A].
Qed.
Lemma start_ok s : (forall k p, peers (net s) !! k = Some p -> sync_items_requested_from_peer p = ∅ /\ ids_of_items_to_get p = []) -> sync_ok s.
Proof.
  intros Hs. assert (Hno : forall k h, ~ asks s k h) by (intros k h (p & Hp & Hh); destruct (Hs k p Hp) as [E _]; set_solver).
  split; [intros k h A; by destruct (Hno k h)|intros h k1 k2 A; by destruct (Hno k1 h)|].
  intros k p Hp. destruct (Hs k p Hp) as [_ E]. by rewrite E.
Qed.
Lemma sync_steps_ok s s' : rtc sync_step s s' -> sync_ok s -> sync_ok s'.
Proof. induction 1 as [s|s s1 s2 Hstep _ IH]; [done|]. intros Hok. by eapply IH, sync_step_ok. Qed.
Lemma sync_steps_orphan h s s' : rtc sync_step s s' -> orphan h s -> orphan h s'.
Proof. induction 1 as [s|s s1 s2 Hstep _ IH]; [done|]. intros Ho. by eapply IH, sync_step_orphan. Qed.
(** The answer that a block is not there leaves it an orphan. *)
Lemma not_available_orphan now k p h s : sync_ok s -> peers (net s) !! k = Some p -> h ∈ sync_items_requested_from_peer p ->
  has (block_message_type, h) (items_requested_from_peer p) = false ->
  orphan h (s <| net := fst (on_item_not_available_message now k (block_message_type, h) (net s)) |>).
Proof.
  intros Hok Hp Hh Hn. unfold on_item_not_available_message. rewrite Hp, Hn. cbn [snd]. rewrite bool_decide_true by done.
  set (n1 := at_peer k _ (net s)). set (s1 := s <| net := _ |>).
  assert (Hc : calm n1 (net s1)).
  { unfold s1. destruct (peer_needs_sync_items_from_us p); (eapply calm_trans; [|by apply calm_same]); [by apply calm_at_same|apply (disconnect_calm k n1)]. }
  split; [apply (requests_are_active s Hok k); by exists p|]. intros k' A. apply (calm_asks (s <| net := n1 |>)) in A; [|exact Hc].
  destruct A as (r & Hr & Hhr). cbn in Hr. unfold n1 in Hr. cbn in Hr. apply lookup_alter_Some in Hr as [(-> & r0 & Hr0 & ->)|[Hne Hr0]].
  - cbn in Hhr. set_solver.
  - apply Hne. symmetry. apply (one_peer_per_block s Hok h k' k); [by exists r|by exists p].
Qed.
End facts.
