(* ===== verification/AccountByKey.v ===== *)
(** * AccountByKey: which accounts a public key belongs to
    ([plugins/account_by_key/account_by_key_plugin.cpp]).

    The plugin keeps a table of pairs of a key and an account.  Before an operation
    that changes an authority it notes the keys of the account, afterwards it adds the
    new ones and removes those that are gone.  It hears of the operations through the
    notifications of [apply_operation]. *)
From S2P Require Import Prelude Safe Names Asset Version Config Authority Raw Operations Validate.
From S2P Require Import Objects State Frame Economics Votes Money Balance EvalWitness EvalAccount.
From S2P Require Import EvalTransfer EvalEscrow EvalVote EvalContent Evaluators.
Local Open Scope Z_scope.
Local Open Scope list_scope.

Section plugin.
  Context {cfg : sophiatx_config} {ext : externals} {itp : interpreters}.

(** [key_lookup_index] by key and account, and the cache of the plugin. *)
Record key_plugin := KeyPlugin { key_lookup : gset (Z * Z); cached_keys : gset Z }.
#[export] Instance key_plugin_eta : Eta key_plugin := fun p => KeyPlugin (key_lookup p) (cached_keys p).

Definition clear_cache (p : key_plugin) : key_plugin := p <| cached_keys := ∅ |>.
Definition keys_of_auth (a : account_authority_object) : list public_key_type :=
  get_keys (owner_auth a) ++ get_keys (active_auth a).
Definition cache_auths (a : account_authority_object) (p : key_plugin) : key_plugin :=
  p <| cached_keys ::= fun c => foldl (fun c k => {[ k ]} ∪ c) c (keys_of_auth a) |>.

(** The loop over the keys that were in the authority but are no longer. *)
Definition delete_cached_key (a : account_name_type) (p : key_plugin) : key_plugin :=
  KeyPlugin (foldl (fun l k => l ∖ {[ (k, data a) ]}) (key_lookup p) (elements (cached_keys p))) ∅.

Definition look_up_key (account : Z) (p : key_plugin) (key : public_key_type) : key_plugin :=
  if bool_decide (key ∈ cached_keys p) then p <| cached_keys ::= fun c => c ∖ {[ key ]} |>
  else if bool_decide ((key, account) ∈ key_lookup p) then p
  else p <| key_lookup ::= fun l => {[ (key, account) ]} ∪ l |>.
Definition update_key_lookup (a : account_authority_object) (p : key_plugin) : key_plugin :=
  let new_keys : gset Z := list_to_set (keys_of_auth a) in
  delete_cached_key (aa_account a) (foldl (look_up_key (data (aa_account a))) p (elements new_keys)).

Definition find_auth (s : db) (a : account_name_type) : option account_authority_object :=
  account_auths_ s !! data a.
Definition cache_account (s : db) (a : account_name_type) (p : key_plugin) : key_plugin :=
  let p := clear_cache p in
  match find_auth s a with Some auth => cache_auths auth p | None => p end.
Definition update_account_keys (s : db) (a : account_name_type) (p : key_plugin) : key_plugin :=
  match find_auth s a with Some auth => update_key_lookup auth p | None => p end.
Definition created_name (o : account_create_operation) : account_name_type :=
  fixed_string (make_random_fixed_string (ac_name_seed o)).

(** [pre_operation_visitor] and [post_operation_visitor] *)
Definition keys_before (op : operation) (s : db) (p : key_plugin) : key_plugin :=
  match op with
  | op_account_create _ => clear_cache p
  | op_account_update o => cache_account s (au_account o) p
  | op_recover_account o => cache_account s (ra_account_to_recover o) p
  | op_account_delete o => cache_account s (ad_account o) p
  | _ => p
  end.
Definition keys_after (op : operation) (s : db) (p : key_plugin) : key_plugin :=
  match op with
  | op_account_create o => update_account_keys s (created_name o) p
  | op_account_update o => update_account_keys s (au_account o) p
  | op_recover_account o => update_account_keys s (ra_account_to_recover o) p
  | op_account_delete o =>
      match find_auth s (ad_account o) with None => delete_cached_key (ad_account o) p | Some _ => p end
  | _ => p
  end.

(** [database::apply_operation] with its notifications. *)
Definition apply_notified (op : operation) (p : key_plugin) : DB key_plugin :=
  _ ← get_fee_payer op;
  before ← gets id;
  let p := keys_before op before p in
  _ ← process_operation_fee op;
  evaluate op ;;
  after ← gets id;
  mret (keys_after op after p).
End plugin.

(** ** What the loops compute *)
Lemma cache_auths_spec a p : cache_auths a p = p <| cached_keys ::= fun c => list_to_set (keys_of_auth a) ∪ c |>.
Proof.
  unfold cache_auths. destruct p as [l c]. cbn [upd key_plugin_eta key_lookup cached_keys]. f_equal.
  generalize (keys_of_auth a). intros ks. revert c. induction ks as [|k ks IH]; intros c; cbn [foldl list_to_set]; [set_solver|].
  rewrite IH. set_solver.
Qed.

Lemma delete_keys_spec (a : Z) (ks : list Z) (l : gset (Z * Z)) (x : Z * Z) :
  x ∈ foldl (fun l k => l ∖ {[ (k, a) ]}) l ks <-> x ∈ l /\ ~ (x.2 = a /\ x.1 ∈ ks).
Proof.
  revert l. induction ks as [|k ks IH]; intros l; cbn [foldl].
  - set_solver.
  - rewrite IH. destruct x as [k' a']. cbn. set_solver.
Qed.

Lemma look_up_keys_spec (a : Z) (ks : list Z) p : NoDup ks ->
  let p' := foldl (look_up_key a) p ks in
  (forall k, k ∈ cached_keys p' <-> k ∈ cached_keys p /\ k ∉ ks) /\
  (forall x : Z * Z, x ∈ key_lookup p' <-> x ∈ key_lookup p \/ x.2 = a /\ x.1 ∈ ks /\ x.1 ∉ cached_keys p).
Proof.
  intros Hnd. revert p. induction Hnd as [|k ks Hk Hnd IH]; intros p; cbn [foldl].
  { split; set_solver. }
  destruct (IH (look_up_key a p k)) as [IH1 IH2]. cbv zeta. split.
  - intros k'. rewrite IH1. unfold look_up_key.
    case_bool_decide; [cbn; set_solver|]. case_bool_decide; cbn; set_solver.
  - intros [k' a']. rewrite IH2. unfold look_up_key. cbn.
    case_bool_decide; [cbn; set_solver|]. case_bool_decide; cbn; set_solver.
Qed.

(** After [cache_account] the update replaces the keys of the account. *)
Lemma update_key_lookup_spec auth p (x : Z * Z) :
  x ∈ key_lookup (update_key_lookup auth p) <->
  (x.2 <> data (aa_account auth) /\ x ∈ key_lookup p) \/
  (x.2 = data (aa_account auth) /\
    ((x ∈ key_lookup p \/ x.1 ∈ keys_of_auth auth) /\ (x.1 ∈ cached_keys p -> x.1 ∈ keys_of_auth auth)
     /\ (x ∈ key_lookup p \/ x.1 ∉ cached_keys p))).
Proof.
  unfold update_key_lookup, delete_cached_key. cbn [key_lookup].
  destruct (look_up_keys_spec (data (aa_account auth)) (elements (list_to_set (keys_of_auth auth) : gset Z)) p) as [H1 H2];
    [apply NoDup_elements|].
  rewrite delete_keys_spec, elem_of_elements, H2, H1, !elem_of_elements, !elem_of_list_to_set.
  destruct x as [k a]. cbn. destruct (decide (a = data (aa_account auth))), (decide (k ∈ keys_of_auth auth)),
    (decide (k ∈ cached_keys p)); naive_solver.
Qed.

(** ** The table follows the authorities *)
Definition key_of (s : db) (k a : Z) : Prop :=
  exists auth, account_auths_ s !! a = Some auth /\ k ∈ keys_of_auth auth.
Definition lookup_exact (p : key_plugin) (s : db) : Prop :=
  forall k a, (k, a) ∈ key_lookup p <-> key_of s k a.
(** An authority object is filed under the name it carries. *)
Definition auths_named (s : db) : Prop :=
  forall a auth, account_auths_ s !! a = Some auth -> data (aa_account auth) = a.

(** From [s] to [s'] only the authorities of [a] change; the object carries its name. *)
Definition changes_auth (a : Z) (s s' : db) : Prop :=
  delete a (account_auths_ s') = delete a (account_auths_ s) /\
  forall auth', account_auths_ s' !! a = Some auth' -> data (aa_account auth') = a.

Lemma changes_auth_other a s s' b : changes_auth a s s' -> b <> a ->
  account_auths_ s' !! b = account_auths_ s !! b.
Proof.
  intros [Hd _] Hb. rewrite <- (lookup_delete_ne (account_auths_ s') a b), <- (lookup_delete_ne (account_auths_ s) a b) by done.
  by rewrite Hd.
Qed.
Lemma changes_auth_named a s s' : changes_auth a s s' -> auths_named s -> auths_named s'.
Proof.
  intros Hc Hn b auth Hb. destruct (decide (b = a)) as [->|Hne]; [by apply Hc|].
  rewrite (changes_auth_other _ _ _ _ Hc Hne) in Hb. by apply Hn.
Qed.

Lemma exact_after_update (a : account_name_type) p s s' :
  lookup_exact p s -> auths_named s -> changes_auth (data a) s s' -> account_auths_ s' !! data a <> None ->
  lookup_exact (update_account_keys s' a (cache_account s a p)) s'.
Proof.
  intros Hp Hn Hc Hs k b. unfold update_account_keys, find_auth.
  destruct (account_auths_ s' !! data a) as [auth'|] eqn:Ha'; [|done].
  pose proof (proj2 Hc _ Ha') as En. rewrite update_key_lookup_spec. cbn [fst snd]. rewrite En.
  assert (Hlook : key_lookup (cache_account s a p) = key_lookup p).
  { unfold cache_account. destruct (find_auth s a); [by rewrite cache_auths_spec|done]. }
  assert (Hcache : forall k, k ∈ cached_keys (cache_account s a p) <-> key_of s k (data a)).
  { intros k'. unfold cache_account, key_of, find_auth. destruct (account_auths_ s !! data a) as [auth|].
    - rewrite cache_auths_spec. cbn. rewrite elem_of_union, elem_of_list_to_set. set_solver.
    - cbn. set_solver. }
  rewrite Hlook, Hcache, (Hp k b).
  assert (Hafter : key_of s' k (data a) <-> k ∈ keys_of_auth auth').
  { unfold key_of. rewrite Ha'. split; [by intros (? & [= <-] & ?)|]. intros Hk. by exists auth'. }
  destruct (decide (b = data a)) as [->|Hne].
  - rewrite Hafter. assert (Hd : key_of s k (data a) \/ ~ key_of s k (data a)).
    { rewrite <- (Hp k (data a)). destruct (decide ((k, data a) ∈ key_lookup p)); tauto. }
    tauto.
  - unfold key_of. rewrite (changes_auth_other _ _ _ _ Hc Hne). tauto.
Qed.

(** ** What the evaluators do to the authorities *)
Definition changes_authorities (op : operation) : bool :=
  match op with
  | op_account_create _ | op_account_update _ | op_account_delete _ | op_recover_account _
  | op_reset_account _ => true
  | _ => false
  end.
(** The two the plugin does not follow. *)
Definition escapes_the_plugin (op : operation) : bool :=
  match op with op_account_delete _ | op_reset_account _ => true | _ => false end.

(** The authorities of the accounts other than [a], and the names of all. *)
Definition around (a : Z) (s : db) : gmap Z account_authority_object * gmap Z account_name_type :=
  (delete a (account_auths_ s), aa_account <$> account_auths_ s).

Lemma around_changes a s s' : auths_named s -> around a s' = around a s -> changes_auth a s s'.
Proof.
  intros Hn E. injection E as Ed En. split; [exact Ed|]. intros auth' Ha.
  apply (f_equal (lookup a)) in En. rewrite !lookup_fmap, Ha in En.
  destruct (account_auths_ s !! a) as [auth|] eqn:E'; [|done]. injection En as ->. by apply Hn.
Qed.
Lemma around_exists a s s' : around a s' = around a s ->
  account_auths_ s !! a <> None -> account_auths_ s' !! a <> None.
Proof.
  intros E Hs Hs'. injection E as _ En. apply (f_equal (lookup a)) in En.
  rewrite !lookup_fmap, Hs' in En. by destruct (account_auths_ s !! a).
Qed.

Lemma frames_around_modify a g : (forall auth auth', g auth = Ok auth' -> aa_account auth' = aa_account auth) ->
  frames (around a) (modify account_auths_ a g).
Proof.
  intros Hg s u s' H. apply modify_Ok in H as (v & v' & Hv & Hgv & ->). unfold around. cbn.
  rewrite delete_insert_eq, fmap_insert, (Hg _ _ Hgv), insert_id; [done|].
  by rewrite lookup_fmap, Hv.
Qed.

(** Calls before the one of interest that leave the authorities alone. *)
Lemma skip_framed {T A B} (f : db -> T) (m : DB A) (k : A -> DB B) s b s' :
  (mbind k m) s = Ok (b, s') -> frames f m -> exists a s1, f s1 = f s /\ k a s1 = Ok (b, s').
Proof. intros H Hm. apply bind_Ok in H as (a & s1 & H1 & H2). exists a, s1. split; [by eapply Hm|done]. Qed.
Ltac skip H := apply (skip_framed account_auths_) in H as (? & ? & ? & H); [|solve [frame]].

Section evaluators.
  Context {cfg : sophiatx_config} {ext : externals} {itp : interpreters}.

Lemma frames_auths_fee fee : frames account_auths_ (modify_econ (add_fee fee)).
Proof. frame. Qed.
Lemma frames_auths_pay_fee a fee : frames account_auths_ (pay_fee a fee).
Proof. apply frames_pay_fee; try apply _; try (intros; reflexivity). exact frames_auths_fee. Qed.
Hint Resolve frames_auths_pay_fee : frame.

Lemma frames_around_owner a auth : frames (around a) (update_owner_authority a auth).
Proof.
  unfold update_owner_authority.
  repeat match goal with
  | |- frames _ (modify account_auths_ _ _) =>
      apply frames_around_modify; intros ? ? E; injection E as <-; reflexivity
  | |- _ => frame_step
  end.
Qed.
Hint Resolve frames_around_owner frames_verify frames_authority_accounts : frame.
Lemma frames_around_update o : frames (around (data (au_account o))) (account_update_do_apply o).
Proof.
  unfold account_update_do_apply. cbv zeta.
  repeat match goal with
  | |- frames _ (modify account_auths_ _ _) =>
      apply frames_around_modify; intros ? ? E; injection E as <-; reflexivity
  | |- _ => frame_step
  end.
Qed.
Lemma frames_around_recover o : frames (around (data (ra_account_to_recover o))) (recover_account_do_apply o).
Proof. unfold recover_account_do_apply. frame. Qed.

(** Both find the authority object they change. *)
Lemma update_finds_authority o s s' : account_update_do_apply o s = Ok (tt, s') ->
  account_auths_ s !! data (au_account o) <> None.
Proof.
  unfold account_update_do_apply. intros H. apply bind_Ok in H as (? & s1 & H1 & H).
  apply bind_Ok in H as (? & s2 & H2 & H). apply bind_Ok in H as (auth & s3 & H3 & H). clear H.
  assert (E : account_auths_ s2 = account_auths_ s).
  { transitivity (account_auths_ s1); [refine (frames_run account_auths_ _ _ _ _ H2 _)|refine (frames_run account_auths_ _ _ _ _ H1 _)]; frame. }
  unfold get_account_auth in H3. apply get_Ok in H3 as [H3 _]. rewrite <- E. congruence.
Qed.
Lemma recover_finds_authority o s s' : recover_account_do_apply o s = Ok (tt, s') ->
  account_auths_ s !! data (ra_account_to_recover o) <> None.
Proof.
  unfold recover_account_do_apply. cbv zeta. set (n := data _). intros H.
  repeat skip H. apply bind_Ok in H as ([] & s2 & H & _). unfold update_owner_authority in H.
  repeat skip H. apply modify_Ok in H as (? & ? & H & _). congruence.
Qed.

(** The key of a new account is free and its authorities are filed under it. *)
Lemma account_create_authority o s s' : account_create_do_apply o s = Ok (tt, s') ->
  account_auths_ s !! data (created_name o) = None /\
  exists auth, aa_account auth = created_name o /\ account_auths_ s' = <[data (created_name o) := auth]> (account_auths_ s).
Proof.
  unfold account_create_do_apply. fold (created_name o). cbv zeta. intros H.
  repeat skip H. apply bind_Ok in H as (? & s2 & H & Hrest). apply insert_new_Ok in H as [Hnone ->].
  split; [congruence|]. eexists. split; [|etransitivity; [refine (frames_run account_auths_ _ _ _ _ Hrest _); frame|]].
  2:{ cbn. f_equal. congruence. }
  reflexivity.
Qed.

Lemma frames_auths_process_fee op : frames account_auths_ (process_operation_fee op).
Proof. apply frames_process_operation_fee; try apply _; try (intros; reflexivity). exact frames_auths_fee. Qed.
Lemma frames_auths_payer op : frames account_auths_ (get_fee_payer op).
Proof. unfold get_fee_payer. frame. Qed.

Ltac head_of t := lazymatch t with ?f _ => head_of f | _ => t end.
Lemma frames_auths_evaluate op : interpreters_keep account_auths_ -> changes_authorities op = false ->
  frames account_auths_ (evaluate op).
Proof.
  intros Hitp Hop. destruct op; try discriminate Hop; clear Hop; cbn [evaluate]; try apply frames_throw;
    try (by apply frames_custom_json; [..|apply Hitp]);
    try (by apply frames_custom_binary; [..|apply Hitp]);
    try match goal with |- frames _ ?m => let h := head_of m in unfold h end; frame.
  all: try (first [apply frames_vest | apply frames_proxy_loop | apply frames_clear_votes | apply frames_remove_sponsor];
    first [apply _ | intros; reflexivity]).
  all: unfold escrow_deduct, escrow_party_approves; frame.
Qed.

Lemma exact_auths p s s' : account_auths_ s' = account_auths_ s -> lookup_exact p s -> lookup_exact p s'.
Proof. intros E Hp k a. rewrite (Hp k a). unfold key_of. by rewrite E. Qed.
Lemma named_auths s s' : account_auths_ s' = account_auths_ s -> auths_named s -> auths_named s'.
Proof. intros E Hn a auth. rewrite E. apply Hn. Qed.
Lemma cache_account_auths s s' a p : account_auths_ s' = account_auths_ s ->
  cache_account s' a p = cache_account s a p.
Proof. intros E. unfold cache_account, find_auth. by rewrite E. Qed.

(** The three operations the plugin follows, after their evaluator. *)
Lemma followed_update op (a : account_name_type) p s s' :
  keys_before op s p = cache_account s a p -> (forall p', keys_after op s' p' = update_account_keys s' a p') ->
  lookup_exact p s -> auths_named s -> changes_auth (data a) s s' -> account_auths_ s' !! data a <> None ->
  lookup_exact (keys_after op s' (keys_before op s p)) s' /\ auths_named s'.
Proof.
  intros Hb Ha Hp Hn Hc Hs. rewrite Ha, Hb. split; [by apply exact_after_update|by eapply changes_auth_named].
Qed.

Lemma followed_evaluate op p s s' :
  interpreters_keep account_auths_ -> escapes_the_plugin op = false ->
  evaluate op s = Ok (tt, s') -> lookup_exact p s -> auths_named s ->
  lookup_exact (keys_after op s' (keys_before op s p)) s' /\ auths_named s'.
Proof.
  intros Hitp Hesc H Hp Hn. destruct (changes_authorities op) eqn:Hch.
  - destruct op; try discriminate Hch; try discriminate Hesc; cbn [evaluate] in H.
    + apply account_create_authority in H as (Hnone & auth & Hname & Hs').
      apply (followed_update _ (created_name o)); try done.
      * cbn [keys_before]. unfold cache_account, find_auth. by rewrite Hnone.
      * split; rewrite Hs'; [by rewrite delete_insert_eq|]. rewrite lookup_insert_eq. by intros ? [= <-]; rewrite Hname.
      * by rewrite Hs', lookup_insert_eq.
    + pose proof (frames_run _ _ _ _ _ H (frames_around_update o)) as E.
      apply (followed_update _ (au_account o)); try done; [by apply around_changes|].
      by eapply around_exists, update_finds_authority.
    + pose proof (frames_run _ _ _ _ _ H (frames_around_recover o)) as E.
      apply (followed_update _ (ra_account_to_recover o)); try done; [by apply around_changes|].
      by eapply around_exists, recover_finds_authority.
  - pose proof (frames_run _ _ _ _ _ H (frames_auths_evaluate op Hitp Hch)) as E.
    assert (Hk : keys_after op s' (keys_before op s p) = p) by (by destruct op).
    rewrite Hk. by split; [eapply exact_auths|eapply named_auths].
Qed.
End evaluators.

(** ** The key lookup *)
Section lookup.
  Context {cfg : sophiatx_config} {ext : externals} {itp : interpreters}.

Lemma keys_before_auths op s s' p : account_auths_ s' = account_auths_ s -> keys_before op s' p = keys_before op s p.
Proof. intros E. destruct op; try done; cbn [keys_before]; by apply cache_account_auths. Qed.

Lemma apply_notified_runs op p s p' s' : apply_notified op p s = Ok (p', s') ->
  exists s1, account_auths_ s1 = account_auths_ s /\ evaluate op s1 = Ok (tt, s') /\
    p' = keys_after op s' (keys_before op s1 p).
Proof.
  intros H. unfold apply_notified in H.
  apply (skip_framed account_auths_) in H as (payer & s1 & E1 & H); [|apply frames_auths_payer].
  apply bind_Ok in H as (before & ? & Hb & H). apply gets_Ok in Hb as [-> ->].
  apply (skip_framed account_auths_) in H as (fee & s2 & E2 & H); [|apply frames_auths_process_fee].
  apply bind_Ok in H as ([] & s3 & He & H). apply bind_Ok in H as (after & ? & Hb & H).
  apply gets_Ok in Hb as [-> ->]. injection H as <- <-.
  exists s2. split; [congruence|]. split; [done|]. by rewrite (keys_before_auths op s1 s2 p E2).
Qed.

Fixpoint apply_all_notified (ops : list operation) (p : key_plugin) : DB key_plugin :=
  match ops with
  | [] => mret p
  | op :: ops => p ← apply_notified op p; apply_all_notified ops p
  end.

(** Deleting an account replaces its authorities by the null key but keeps the object. *)
Lemma account_delete_authority o s s' : account_delete_do_apply o s = Ok (tt, s') ->
  exists auth, account_auths_ s' !! data (ad_account o) = Some auth /\
    owner_auth auth = key_authority null_key /\ active_auth auth = key_authority null_key.
Proof.
  unfold account_delete_do_apply. cbv zeta. intros H.
  repeat skip H. apply bind_Ok in H as ([] & s2 & H & Hrest). unfold update_owner_authority in H.
  repeat skip H. apply modify_Ok in H as (v & v' & _ & Hv & ->). injection Hv as <-.
  apply bind_Ok in Hrest as ([] & s3 & Hm & H).
  apply modify_Ok in H as (w & w' & Hw & Hw' & ->). injection Hw' as <-.
  match type of Hm with ?m ?x = _ => assert (E : account_auths_ s3 = account_auths_ x)
    by (refine (frames_run account_auths_ _ _ _ _ Hm _); frame) end.
  rewrite E in Hw. cbn in Hw. rewrite lookup_insert_eq in Hw. injection Hw as <-.
  eexists. split; [cbn; apply lookup_insert_eq|]. done.
Qed.
Lemma account_delete_not_followed o p s p' s' : apply_notified (op_account_delete o) p s = Ok (p', s') ->
  key_lookup p' = key_lookup p /\ exists auth, account_auths_ s' !! data (ad_account o) = Some auth /\
    keys_of_auth auth = [null_key; null_key].
Proof.
  intros H. apply apply_notified_runs in H as (s1 & E & He & ->). cbn [evaluate] in He.
  apply account_delete_authority in He as (auth & Hauth & Ho & Ha).
  split; [|exists auth; split; [done|]; unfold keys_of_auth; by rewrite Ho, Ha].
  cbn [keys_after keys_before]. unfold find_auth at 1. rewrite Hauth. unfold cache_account.
  destruct (find_auth s1 _); [by rewrite cache_auths_spec|done].
Qed.
End lookup.
