(* ===== verification/AccountHistory.v ===== *)
(** * AccountHistory: the operations that concern an account
    ([plugins/account_history/account_history_plugin.cpp],
    [chain/history_object.hpp], [chain/util/impacted.cpp]).

    The plugin hears of every operation before it is applied and of every virtual
    operation.  It stores the operation once and, for each account it concerns whose
    name is in a tracked range, an entry with the next sequence number of the account.
    Entries that are both old and far behind are removed. *)
From Stdlib Require Import String.
From S2P Require Import Prelude Safe Names Asset Version Config Authority Raw Operations Validate.
From S2P Require Import Objects State.
Local Open Scope Z_scope.
Local Open Scope list_scope.

Section history.
  Context {cfg : sophiatx_config} {ext : externals}.

(** ** impacted.cpp *)
Definition operation_get_impacted_accounts (op : operation) (impacted : name_set) : name_set :=
  match op with
  | op_account_create o =>
      name_insert (ac_creator o) (name_insert (fixed_string (make_random_fixed_string (ac_name_seed o))) impacted)
  | op_transfer o => name_insert (tr_to o) (name_insert (tr_from o) impacted)
  | op_escrow_transfer o => name_insert (et_agent o) (name_insert (et_to o) (name_insert (et_from o) impacted))
  | op_escrow_approve o => name_insert (ea_agent o) (name_insert (ea_to o) (name_insert (ea_from o) impacted))
  | op_escrow_dispute o => name_insert (ed_agent o) (name_insert (ed_to o) (name_insert (ed_from o) impacted))
  | op_escrow_release o => name_insert (er_agent o) (name_insert (er_to o) (name_insert (er_from o) impacted))
  | op_transfer_to_vesting o =>
      let impacted := name_insert (tv_from o) impacted in
      if negb (data (tv_to o) =? 0) && negb (name_eqb (tv_to o) (tv_from o))
      then name_insert (tv_to o) impacted else impacted
  | op_account_witness_vote o => name_insert (av_witness o) (name_insert (av_account o) impacted)
  | op_account_witness_proxy o => name_insert (ap_proxy o) (name_insert (ap_account o) impacted)
  | op_feed_publish o => name_insert (fp_publisher o) impacted
  | op_request_account_recovery o =>
      name_insert (rr_recovery_account o) (name_insert (rr_account_to_recover o) impacted)
  | op_recover_account o => name_insert (ra_account_to_recover o) impacted
  | op_change_recovery_account o => name_insert (cr_account_to_recover o) impacted
  | op_interest o => name_insert (io_owner o) impacted
  | op_fill_vesting_withdraw o => name_insert (fv_to_account o) (name_insert (fv_from_account o) impacted)
  | op_shutdown_witness o => name_insert (sw_owner o) impacted
  | op_producer_reward o => name_insert (pr_producer o) impacted
  | op_promotion_pool_withdraw o => name_insert (pw_to_account o) impacted
  | op_witness_update o => name_insert (wu_owner o) impacted
  | op_witness_stop o => name_insert (wt_owner o) impacted
  | op_sponsor_fees o =>
      name_insert (sf_sponsored o)
        (if negb (name_eqb (sf_sponsor o) (name_of "")) then name_insert (sf_sponsor o) impacted else impacted)
  | op_transfer_from_promotion_pool o =>
      name_insert (tp_transfer_to o) (name_insert SOPHIATX_INIT_MINER_NAME impacted)
  | op_application_create o => name_insert (pc_author o) impacted
  | op_application_update o => name_insert (pu_author o) impacted
  | op_application_delete o => name_insert (pd_author o) impacted
  | _ => get_required_owner_authorities op (get_required_active_authorities op impacted)
  end.

Definition transaction_get_impacted_accounts (ops : list operation) (result : name_set) : name_set :=
  fold_left (fun result op => operation_get_impacted_accounts op result) ops result.

(** ** What the plugin is told *)
Record operation_notification := OperationNotification {
  note_trx_id : hash160; note_block : Z; note_trx_in_block : Z; note_op_in_trx : Z;
  note_virtual_op : Z; note_op : operation; note_fee_payer : account_name_type }.

(** The place of the operation that is applied, kept by the database. *)
Record current_place := CurrentPlace {
  _current_trx_id : hash160; _current_block_num : Z; _current_trx_in_block : Z;
  _current_op_in_trx : Z; _current_virtual_op : Z }.
#[export] Instance current_place_eta : Eta current_place := fun c => CurrentPlace (_current_trx_id c)
  (_current_block_num c) (_current_trx_in_block c) (_current_op_in_trx c) (_current_virtual_op c).

Definition notify_pre_apply (c : current_place) (op : operation) (virtual_op : Z) (payer : account_name_type)
    : operation_notification :=
  OperationNotification (_current_trx_id c) (_current_block_num c) (_current_trx_in_block c)
    (_current_op_in_trx c) virtual_op op payer.
(** The notification of a virtual operation has the default name as its fee payer. *)
Definition notify_virtual (c : current_place) (op : operation) : current_place * operation_notification :=
  let c := c <| _current_virtual_op ::= fun v => u16 (v + 1) |> <| _current_trx_id := null_hash |> in
  (c, notify_pre_apply c op (_current_virtual_op c) (Name 0 0)).

(** ** history_object.hpp *)
(** [serialized_op] holds the packed operation; it is kept here as the operation. *)
Record operation_object := OperationObject {
  op_id : Z; op_trx_id : hash160; op_block : Z; op_trx_in_block : Z; op_op_in_trx : Z; op_virtual_op : Z;
  op_timestamp : Z; serialized_op : operation; op_fee_payer : account_name_type }.
Record account_history_object := AccountHistory {
  ah_id : Z; ah_account : account_name_type; ah_sequence : Z; ah_op : Z }.

(** The [by_account] index: the entries of each account by decreasing sequence. *)
Record history := History {
  operation_objects : gmap Z operation_object; next_operation_id : Z;
  by_account : gmap Z (list account_history_object); next_history_id : Z }.
#[export] Instance history_eta : Eta history := fun h =>
  History (operation_objects h) (next_operation_id h) (by_account h) (next_history_id h).

Definition entries_of (a : Z) (h : history) : list account_history_object := default [] (by_account h !! a).

Fixpoint index_insert (e : account_history_object) (l : list account_history_object)
    : option (list account_history_object) :=
  match l with
  | [] => Some [e]
  | x :: l' =>
      if ah_sequence e >? ah_sequence x then Some (e :: l)
      else if ah_sequence e =? ah_sequence x then None
      else cons x <$> index_insert e l'
  end.

Definition create_operation (note : operation_notification) (now : Z) : ST history Z := fun h =>
  let id := next_operation_id h in
  Ok (id, h <| next_operation_id := id + 1 |>
    <| operation_objects ::= <[id := OperationObject id (note_trx_id note) (note_block note)
         (u32 (note_trx_in_block note)) (note_op_in_trx note) (note_virtual_op note) now (note_op note)
         (note_fee_payer note)]> |>).

Definition create_entry (item : account_name_type) (sequence op : Z) : ST history unit := fun h =>
  match index_insert (AccountHistory (next_history_id h) item sequence op) (entries_of (data item) h) with
  | Some l => Ok (tt, h <| next_history_id ::= fun i => i + 1 |> <| by_account ::= <[data item := l]> |>)
  | None => Throw logic_error
  end.

Definition get_operation (id : Z) (h : history) : res operation_object :=
  match operation_objects h !! id with Some o => Ok o | None => Throw out_of_range end.

(** From the oldest entry on, while they are more than 30 behind and older than 30 days. *)
Fixpoint expired_entries (now sequence : Z) (h : history) (l : list account_history_object) : res (list Z) :=
  match l with
  | [] => Ok []
  | e :: l =>
      if u32 (sequence - ah_sequence e) >? 30 then
        o ← get_operation (ah_op e) h;
        if now - op_timestamp o >? 30 * 86400
        then ids ← expired_entries now sequence h l; Ok (ah_id e :: ids) else Ok []
      else Ok []
  end.

Definition clean_up (now : Z) (item : account_name_type) (sequence : Z) : ST history unit := fun h =>
  let l := entries_of (data item) h in
  to_remove ← expired_entries now sequence h (rev (List.filter (fun e => ah_sequence e >? 0) l));
  Ok (tt, h <| by_account ::= <[data item :=
    List.filter (fun e => negb (existsb (Z.eqb (ah_id e)) to_remove)) l]> |>).

(** [operation_visitor]: [new_obj] is the stored operation, once there is one. *)
Definition operation_visitor (note : operation_notification) (now : Z) (prune : bool) (new_obj : option Z)
    (item : account_name_type) : ST history (option Z) :=
  id ← match new_obj with Some id => mret id | None => create_operation note now end;
  newest ← gets (fun h => head (entries_of (data item) h));
  let sequence := match newest with Some e => u32 (ah_sequence e + 1) | None => 1 end in
  create_entry item sequence id ;;
  whenM prune (clean_up now item sequence) ;;
  mret (Some id).

(** ** The plugin *)
Definition struct_name (op : operation) : string :=
  match op with
  | op_transfer _ => "transfer_operation"
  | op_transfer_to_vesting _ => "transfer_to_vesting_operation"
  | op_withdraw_vesting _ => "withdraw_vesting_operation"
  | op_feed_publish _ => "feed_publish_operation"
  | op_account_create _ => "account_create_operation"
  | op_account_update _ => "account_update_operation"
  | op_account_delete _ => "account_delete_operation"
  | op_witness_update _ => "witness_update_operation"
  | op_witness_stop _ => "witness_stop_operation"
  | op_account_witness_vote _ => "account_witness_vote_operation"
  | op_account_witness_proxy _ => "account_witness_proxy_operation"
  | op_witness_set_properties _ => "witness_set_properties_operation"
  | op_custom _ => "custom_operation"
  | op_custom_json _ => "custom_json_operation"
  | op_custom_binary _ => "custom_binary_operation"
  | op_request_account_recovery _ => "request_account_recovery_operation"
  | op_recover_account _ => "recover_account_operation"
  | op_change_recovery_account _ => "change_recovery_account_operation"
  | op_escrow_transfer _ => "escrow_transfer_operation"
  | op_escrow_dispute _ => "escrow_dispute_operation"
  | op_escrow_release _ => "escrow_release_operation"
  | op_escrow_approve _ => "escrow_approve_operation"
  | op_reset_account _ => "reset_account_operation"
  | op_set_reset_account _ => "set_reset_account_operation"
  | op_application_create _ => "application_create_operation"
  | op_application_update _ => "application_update_operation"
  | op_application_delete _ => "application_delete_operation"
  | op_buy_application _ => "buy_application_operation"
  | op_cancel_application_buying _ => "cancel_application_buying_operation"
  | op_transfer_from_promotion_pool _ => "transfer_from_promotion_pool_operation"
  | op_sponsor_fees _ => "sponsor_fees_operation"
  | op_admin_witness_update _ => "admin_witness_update_operation"
  | op_interest _ => "interest_operation"
  | op_fill_vesting_withdraw _ => "fill_vesting_withdraw_operation"
  | op_shutdown_witness _ => "shutdown_witness_operation"
  | op_hardfork _ => "hardfork_operation"
  | op_producer_reward _ => "producer_reward_operation"
  | op_promotion_pool_withdraw _ => "promotion_pool_withdraw_operation"
  end.
Definition SOPHIATX_NAMESPACE_PREFIX : list Z := bytes_of_string "sophiatx::protocol::".
Definition get_typename (op : operation) : list Z := SOPHIATX_NAMESPACE_PREFIX ++ bytes_of_string (struct_name op).

Record history_plugin := HistoryPlugin {
  _tracked_accounts : list (account_name_type * account_name_type);
  _filter_content : bool; _blacklist : bool; _op_list : gset (list Z); _prune : bool }.

(** [flat_map::lower_bound]: what is before it and what is from it on. *)
Fixpoint lower_bound (item : account_name_type) (before l : list (account_name_type * account_name_type)) :=
  match l with
  | [] => (before, [])
  | r :: l' => if name_ltb (fst r) item then lower_bound item (before ++ [r]) l' else (before, l)
  end.
Definition range_of (item : account_name_type) (l : list (account_name_type * account_name_type))
    : option (account_name_type * account_name_type) :=
  match lower_bound item [] l with
  | (before, at_ :: _) =>
      if match before with [] => false | _ => negb (name_eqb (fst at_) item) end then last before else Some at_
  | (before, []) => last before
  end.
Definition name_leb (a b : account_name_type) : bool := data a <=? data b.
Definition is_tracked (p : history_plugin) (item : account_name_type) : bool :=
  match _tracked_accounts p with
  | [] => true
  | l => match range_of item l with
         | Some (lo, hi) => name_leb lo item && name_leb item hi
         | None => false
         end
  end.

(** [operation_visitor_filter] *)
Definition is_selected (p : history_plugin) (op : operation) : bool :=
  if _filter_content p then
    if bool_decide (get_typename op ∈ _op_list p) then negb (_blacklist p) else _blacklist p
  else true.

Definition impacted_by (note : operation_notification) : name_set :=
  name_insert (note_fee_payer note) (operation_get_impacted_accounts (note_op note) []).

Definition visit_item (p : history_plugin) (note : operation_notification) (now : Z) (new_obj : option Z)
    (item : account_name_type) : ST history (option Z) :=
  if is_tracked p item && is_selected p (note_op note)
  then operation_visitor note now (_prune p) new_obj item else mret new_obj.
Definition on_operation (p : history_plugin) (note : operation_notification) (now : Z) : ST history unit :=
  _ ← foldM (visit_item p note now) None (impacted_by note); mret tt.

(** ** plugin_initialize *)
(** [boost::split] at blanks, tabs and commas; empty names are skipped. *)
Fixpoint split_ops (word : list Z) (arg : list Z) : list (list Z) :=
  match arg with
  | [] => [word]
  | c :: arg =>
      if (c =? 32) || (c =? 9) || (c =? 44) then word :: split_ops [] arg else split_ops (word ++ [c]) arg
  end.
Definition load_ops (args : list (list Z)) : gset (list Z) :=
  list_to_set (map (app SOPHIATX_NAMESPACE_PREFIX)
    (List.filter (fun op => negb (bool_decide (op = []))) (flat_map (split_ops []) args))).

(** [flat_map::insert]: the first range with a lower bound is kept. *)
Fixpoint insert_range (r : account_name_type * account_name_type) (l : list (account_name_type * account_name_type)) :=
  match l with
  | [] => [r]
  | x :: l' => if name_ltb (fst r) (fst x) then r :: l
               else if name_ltb (fst x) (fst r) then x :: insert_range r l' else l
  end.
Record history_options := HistoryOptions {
  track_account_range : list (account_name_type * account_name_type);
  whitelist_ops : option (list (list Z)); blacklist_ops : option (list (list Z)); disable_pruning : bool }.
Definition plugin_initialize (o : history_options) : history_plugin :=
  let ranges := fold_left (fun l r => insert_range r l) (track_account_range o) [] in
  let prune := negb (disable_pruning o) in
  match whitelist_ops o, blacklist_ops o with
  | Some args, _ => HistoryPlugin ranges true false (load_ops args) prune
  | None, Some args => HistoryPlugin ranges true true (load_ops args) prune
  | None, None => HistoryPlugin ranges false false ∅ prune
  end.

End history.

(** ** Tracked ranges *)
(** The ranges do not intersect. *)
Inductive separate : list (account_name_type * account_name_type) -> Prop :=
  | separate_nil : separate []
  | separate_one r : data (fst r) <= data (snd r) -> separate [r]
  | separate_cons r x l : data (fst r) <= data (snd r) -> data (snd r) < data (fst x) ->
      separate (x :: l) -> separate (r :: x :: l).
Definition in_range (item : account_name_type) (r : account_name_type * account_name_type) : Prop :=
  data (fst r) <= data item <= data (snd r).

Lemma separate_above r l : separate (r :: l) -> Forall (fun x => data (snd r) < data (fst x)) l.
Proof.
  revert r. induction l as [|x l IH]; intros r H; [constructor|]. inversion H as [| |? ? ? H1 H2 H3]; subst.
  constructor; [done|]. specialize (IH x H3).
  assert (data (fst x) <= data (snd x)) by (inversion H3; done).
  eapply Forall_impl; [exact IH|]. cbn. lia.
Qed.
Lemma separate_tail r l : separate (r :: l) -> separate l.
Proof. inversion 1; subst; [constructor|done]. Qed.
Lemma separate_head r l : separate (r :: l) -> data (fst r) <= data (snd r).
Proof. by inversion 1. Qed.

Lemma lower_bound_before item b l : lower_bound item b l =
  (b ++ fst (lower_bound item [] l), snd (lower_bound item [] l)).
Proof.
  revert b. induction l as [|r l IH]; intros b; cbn [lower_bound].
  - by rewrite app_nil_r.
  - destruct (name_ltb _ _); [|by rewrite app_nil_r].
    rewrite IH, (IH ([] ++ [r])). cbn [fst snd app]. by rewrite <- app_assoc.
Qed.
(** What [lower_bound] splits off. *)
Lemma lower_bound_spec item l b a : lower_bound item [] l = (b, a) ->
  l = b ++ a /\ Forall (fun r => data (fst r) < data item) b /\
  match a with [] => True | r :: _ => data item <= data (fst r) end.
Proof.
  revert b a. induction l as [|r l IH]; intros b a H; cbn [lower_bound] in H.
  - by injection H as <- <-.
  - unfold name_ltb in H. destruct (Z.ltb_spec (data (fst r)) (data item)).
    + rewrite lower_bound_before in H. destruct (lower_bound item [] l) as [b' a'].
      cbn in H. injection H as <- <-. destruct (IH b' a' eq_refl) as (-> & Hb & Ha).
      split; [done|]. split; [by constructor|done].
    + injection H as <- <-. done.
Qed.
Lemma separate_app b a : separate (b ++ a) -> separate b /\ separate a /\
  Forall (fun r => Forall (fun x => data (snd r) < data (fst x)) a) b.
Proof.
  induction b as [|r b IH]; cbn [app]; intros H; [split_and!; [constructor|done|constructor]|].
  pose proof (separate_above _ _ H) as Hab. apply Forall_app in Hab as [Hb Ha].
  destruct (IH (separate_tail _ _ H)) as (H1 & H2 & H3). split_and!; [|done|by constructor].
  pose proof (separate_head _ _ H). destruct b as [|x b]; [by constructor|].
  apply Forall_cons_1 in Hb as [Hx _]. by constructor.
Qed.

(** For separate ranges the one that is looked at is the only one that can hold the name. *)
Lemma range_of_exact item l : separate l ->
  (exists r, range_of item l = Some r /\ in_range item r) <-> Exists (in_range item) l.
Proof.
  intros Hs. unfold range_of. destruct (lower_bound item [] l) as [b a] eqn:E.
  apply lower_bound_spec in E as (-> & Hb & Ha). apply separate_app in Hs as (Hsb & Hsa & Hba).
  assert (Hlast : forall r, last b = Some r -> Exists (in_range item) b -> in_range item r).
  { intros r Hr Hx. apply last_Some in Hr as [b' ->]. apply separate_app in Hsb as (_ & _ & Hb').
    apply Exists_app in Hx as [Hx|Hx]; [|by inversion Hx as [? ? ?|? ? Hn]; subst; [|inversion Hn]].
    apply Exists_exists in Hx as (x & Hx & Hin). rewrite Forall_forall in Hb'.
    specialize (Hb' x Hx). inversion Hb' as [|? ? Hlt]; subst. apply Forall_app in Hb as [_ Hb].
    inversion Hb as [|? ? Hr]; subst. unfold in_range in *. lia. }
  assert (Hin : forall r, last b = Some r -> in_range item r -> Exists (in_range item) b).
  { intros r Hr Hi. apply last_Some in Hr as [b' ->]. apply Exists_app. right. by constructor. }
  destruct a as [|at_ a].
  - rewrite app_nil_r. split; [intros (r & Hr & Hi); by eapply Hin|]. intros Hx.
    destruct (last b) as [r|] eqn:Er; [exists r; split; [done|by apply Hlast]|].
    apply last_None in Er as ->. inversion Hx.
  - assert (Habove : data (fst at_) <> data item -> ~ Exists (in_range item) (at_ :: a)).
    { intros Hne Hx. apply Exists_cons in Hx as [Hx|Hx]; [unfold in_range in Hx; lia|].
      apply Exists_exists in Hx as (x & Hx & Hi). pose proof (separate_above _ _ Hsa) as Hab.
      rewrite Forall_forall in Hab. specialize (Hab x Hx). pose proof (separate_head _ _ Hsa).
      unfold in_range in Hi. lia. }
    destruct (decide (data (fst at_) = data item)) as [He|Hne].
    + assert (name_eqb (fst at_) item = true) as -> by (by apply name_eqb_eq).
      assert (Hat : in_range item at_) by (pose proof (separate_head _ _ Hsa); unfold in_range; lia).
      split; [intros _; apply Exists_app; right; by constructor|]. intros _. exists at_. by destruct b.
    + assert (name_eqb (fst at_) item = false) as ->.
      { apply not_true_iff_false. by rewrite name_eqb_eq. }
      rewrite Exists_app. specialize (Habove Hne). split.
      * intros (r & Hr & Hi). destruct b as [|x b]; cbn [negb] in Hr.
        { injection Hr as <-. exfalso. apply Habove. by constructor. }
        left. by eapply Hin.
      * intros [Hx|Hx]; [|done]. destruct b as [|x b]; [inversion Hx|]. cbn [negb].
        destruct (last (x :: b)) as [r|] eqn:Er; [exists r; split; [done|by apply Hlast]|].
        by apply last_None in Er.
Qed.

(** Names are compared as numbers: the impacted accounts are listed once, in order. *)
Definition name_lt (a b : account_name_type) : Prop := data a < data b.
Lemma name_insert_spec k s x : x ∈ map data (name_insert k s) <-> x = data k \/ x ∈ map data s.
Proof.
  induction s as [|k' s IH]; cbn [name_insert map].
  - rewrite list_elem_of_singleton. set_solver.
  - unfold name_ltb. destruct (Z.ltb_spec (data k) (data k')); cbn [map]; [by rewrite !elem_of_cons|].
    destruct (Z.ltb_spec (data k') (data k)); cbn [map]; rewrite !elem_of_cons; [rewrite IH; tauto|].
    assert (data k = data k') by lia. naive_solver.
Qed.
Lemma name_insert_sorted k s : StronglySorted name_lt s -> StronglySorted name_lt (name_insert k s).
Proof.
  induction 1 as [|k' s Hs IH Hk]; cbn [name_insert]; [by repeat constructor|].
  unfold name_ltb. destruct (Z.ltb_spec (data k) (data k')).
  - constructor; [by constructor|]. constructor; [done|]. eapply Forall_impl; [exact Hk|].
    unfold name_lt. cbn. lia.
  - destruct (Z.ltb_spec (data k') (data k)); [|by constructor]. constructor; [done|].
    apply Forall_forall. intros x Hx. rewrite Forall_forall in Hk.
    assert (Hx' : data x ∈ map data (name_insert k s)) by (apply list_elem_of_fmap; by exists x).
    apply name_insert_spec in Hx' as [E|E]; [unfold name_lt; lia|].
    apply list_elem_of_fmap in E as (y & Ey & Hy). specialize (Hk y Hy). unfold name_lt in *. lia.
Qed.
Lemma sorted_names_NoDup s : StronglySorted name_lt s -> NoDup (map data s).
Proof.
  induction 1 as [|k s Hs IH Hk]; cbn [map]; constructor; [|done]. intros Hx.
  apply list_elem_of_fmap in Hx as (y & Ey & Hy). rewrite Forall_forall in Hk. specialize (Hk y Hy).
  unfold name_lt in Hk. lia.
Qed.

(** ** The entries of an account *)
Definition time_of (h : history) (e : account_history_object) : Z :=
  match operation_objects h !! ah_op e with Some o => op_timestamp o | None => 0 end.
Definition newer (h : history) (x y : account_history_object) : Prop :=
  ah_sequence y < ah_sequence x /\ ah_id y < ah_id x /\ time_of h y <= time_of h x.
Fixpoint consecutive (l : list account_history_object) : Prop :=
  match l with
  | x :: ((y :: _) as l') => ah_sequence x = ah_sequence y + 1 /\ consecutive l'
  | _ => True
  end.
Record entry_ok (a now : Z) (h : history) (e : account_history_object) : Prop := EntryOk {
  entry_sequence : 1 <= ah_sequence e < 2^32;
  entry_id : ah_id e < next_history_id h;
  entry_account : data (ah_account e) = a;
  entry_operation : exists o, operation_objects h !! ah_op e = Some o /\ op_timestamp o <= now }.
(** The entries of an account are numbered without gaps, newest first, and refer to
    operations that are stored and that did not happen after [now]. *)
Record entries_ok (a now : Z) (h : history) (l : list account_history_object) : Prop := EntriesOk {
  entries_newer : StronglySorted (newer h) l;
  entries_valid : Forall (entry_ok a now h) l;
  entries_consecutive : consecutive l }.
Record history_ok (now : Z) (h : history) : Prop := HistoryOk {
  accounts_ok : forall a, entries_ok a now h (entries_of a h);
  fresh_operations : forall id, next_operation_id h <= id -> operation_objects h !! id = None }.

Definition extends (h h1 : history) : Prop :=
  (forall id o, operation_objects h !! id = Some o -> operation_objects h1 !! id = Some o) /\
  next_history_id h <= next_history_id h1.

Lemma time_of_extends a now h h1 e : extends h h1 -> entry_ok a now h e -> time_of h1 e = time_of h e.
Proof. intros [Hx _] He. destruct (entry_operation _ _ _ _ He) as (o & Ho & _). unfold time_of. by rewrite Ho, (Hx _ _ Ho). Qed.
Lemma entry_ok_extends a now h h1 e : extends h h1 -> entry_ok a now h e -> entry_ok a now h1 e.
Proof.
  intros [Hx Hid] [H1 H2 H3 (o & H4 & H5)]. split; [done|lia|done|]. exists o. by split; [apply Hx|].
Qed.
Lemma entries_ok_extends a now h h1 l : extends h h1 -> entries_ok a now h l -> entries_ok a now h1 l.
Proof.
  intros Hx [Hs Hv Hc]. split; [|by eapply Forall_impl; [exact Hv|]; intros; eapply entry_ok_extends|done].
  clear Hc. induction Hs as [|e l Hs IH He]; constructor; apply Forall_cons_1 in Hv as [Hv1 Hv]; [by apply IH|].
  rewrite Forall_forall in *. intros y Hy. destruct (He y Hy) as (H1 & H2 & H3).
  split_and!; [done..|]. rewrite !(time_of_extends a now h h1); auto.
Qed.

(** What pruning keeps: whatever is at most 30 behind or at most 30 days old. *)
Definition is_kept (now sequence : Z) (h : history) (e : account_history_object) : bool :=
  (sequence - ah_sequence e <=? 30) || (now - time_of h e <=? 30 * 86400).

Lemma kept_newer now sequence h x y : newer h x y -> is_kept now sequence h y = true -> is_kept now sequence h x = true.
Proof. unfold newer, is_kept. rewrite !orb_true_iff, !Z.leb_le. lia. Qed.

Lemma expired_spec a now sequence h l : Forall (entry_ok a now h) l -> StronglySorted (fun x y => newer h y x) l ->
  Forall (fun e => ah_sequence e <= sequence) l -> sequence < 2^32 ->
  expired_entries now sequence h l = Ok (map ah_id (List.filter (fun e => negb (is_kept now sequence h e)) l)).
Proof.
  intros Hv Hs Hb Hlt. induction Hs as [|e l Hs IH He]; [done|].
  apply Forall_cons_1 in Hv as [Hve Hv]. apply Forall_cons_1 in Hb as [Hbe Hb]. specialize (IH Hv Hb).
  cbn [expired_entries List.filter].
  assert (Hrest : is_kept now sequence h e = true ->
    List.filter (fun e => negb (is_kept now sequence h e)) l = []).
  { intros Hk. clear IH Hs Hv Hb. induction He as [|x l Hx He IH]; [done|]. cbn [List.filter].
    by rewrite (kept_newer _ _ _ _ _ Hx Hk). }
  destruct (entry_operation _ _ _ _ Hve) as (o & Ho & _). unfold get_operation. rewrite Ho.
  destruct (entry_sequence _ _ _ _ Hve). unfold u32. rewrite Z.mod_small by lia.
  destruct (is_kept now sequence h e) eqn:Ek; cbn [negb].
  - rewrite (Hrest eq_refl). unfold is_kept, time_of in Ek. rewrite Ho in Ek.
    destruct (Z.gtb_spec (sequence - ah_sequence e) 30); [|done]. cbn.
    destruct (Z.gtb_spec (now - op_timestamp o) (30 * 86400)); [|done].
    apply orb_true_iff in Ek. rewrite !Z.leb_le in Ek. lia.
  - unfold is_kept, time_of in Ek. rewrite Ho in Ek. apply orb_false_iff in Ek as [E1 E2].
    rewrite Z.leb_gt in E1, E2. destruct (Z.gtb_spec (sequence - ah_sequence e) 30); [|lia].
    cbn. destruct (Z.gtb_spec (now - op_timestamp o) (30 * 86400)); [|lia]. by rewrite IH.
Qed.

Lemma StronglySorted_rev {A} (R : A -> A -> Prop) l : StronglySorted R l -> StronglySorted (fun x y => R y x) (rev l).
Proof.
  induction 1 as [|x l Hs IH Hx]; cbn [rev]; [constructor|]. apply StronglySorted_app_2; [|done|by repeat constructor].
  intros y z Hy Hz. apply list_elem_of_singleton in Hz as ->. rewrite Forall_forall in Hx. apply Hx.
  by apply list_elem_of_In, in_rev, list_elem_of_In in Hy.
Qed.
Lemma newer_same_id h l x y : StronglySorted (newer h) l -> x ∈ l -> y ∈ l -> ah_id x = ah_id y -> x = y.
Proof.
  induction 1 as [|e l Hs IH He]; intros Hx Hy E; [by apply not_elem_of_nil in Hx|].
  rewrite Forall_forall in He. apply elem_of_cons in Hx as [->|Hx], Hy as [->|Hy]; try done; [| |by apply IH].
  - destruct (He y Hy). lia.
  - destruct (He x Hx). lia.
Qed.

Lemma nothing_kept now sequence h x l : Forall (newer h x) l -> is_kept now sequence h x = false ->
  List.filter (is_kept now sequence h) l = [].
Proof.
  intros Hx Hk. induction Hx as [|y l Hy Hx IH]; [done|]. cbn [List.filter].
  destruct (is_kept now sequence h y) eqn:Ey; [|done].
  by rewrite (kept_newer _ _ _ _ _ Hy Ey) in Hk.
Qed.
Lemma kept_ok a now sequence h l : entries_ok a now h l ->
  entries_ok a now h (List.filter (is_kept now sequence h) l).
Proof.
  intros [Hs Hv Hc]. split.
  - clear Hv Hc. induction Hs as [|x l Hs IH Hx]; cbn [List.filter]; [constructor|].
    destruct (is_kept now sequence h x); [|done]. constructor; [done|].
    rewrite Forall_forall in *. intros y Hy. apply Hx, list_elem_of_In. by eapply filter_In, list_elem_of_In.
  - rewrite Forall_forall in *. intros y Hy. apply Hv, list_elem_of_In. by eapply filter_In, list_elem_of_In.
  - clear Hv. induction Hs as [|x l Hs IH Hx]; cbn [List.filter]; [done|].
    destruct (is_kept now sequence h x) eqn:Ex; [|by rewrite (nothing_kept _ _ _ _ _ Hx Ex)].
    destruct l as [|y l]; [done|]. destruct Hc as [Hxy Hc]. specialize (IH Hc). cbn [List.filter] in IH |- *.
    destruct (is_kept now sequence h y) eqn:Ey; [done|].
    inversion Hs as [|? ? _ Hy]; subst. by rewrite (nothing_kept _ _ _ _ _ Hy Ey).
Qed.

Lemma clean_up_spec now item sequence h : entries_ok (data item) now h (entries_of (data item) h) ->
  Forall (fun e => ah_sequence e <= sequence) (entries_of (data item) h) -> sequence < 2^32 ->
  clean_up now item sequence h = Ok (tt, h <| by_account ::=
    <[data item := List.filter (is_kept now sequence h) (entries_of (data item) h)]> |>).
Proof.
  intros [Hs Hv _] Hb Hlt. unfold clean_up. set (l := entries_of (data item) h) in *. clearbody l.
  assert (Hall : List.filter (fun e => ah_sequence e >? 0) l = l).
  { clear Hs Hb. induction Hv as [|e l He Hv IH]; [done|]. cbn [List.filter].
    destruct (entry_sequence _ _ _ _ He). destruct (Z.gtb_spec (ah_sequence e) 0); [|lia]. by rewrite IH. }
  rewrite Hall, (expired_spec (data item)).
  - cbn [mbind res_bind]. erewrite filter_ext_in; [reflexivity|]. intros e He. cbv beta. apply eq_true_iff_eq.
    rewrite negb_true_iff, <- not_true_iff_false, existsb_exists. split.
    + intros Hn. apply not_false_iff_true. intros Hk. apply Hn. exists (ah_id e). split; [|apply Z.eqb_refl].
      apply in_map, filter_In. split; [by apply in_rev in He|]. by rewrite Hk.
    + intros Hk (i & Hi & Hii). apply Z.eqb_eq in Hii. apply in_map_iff in Hi as (y & Hy & Hiny).
      apply filter_In in Hiny as [Hiny Hky]. apply in_rev in Hiny.
      assert (y = e) as -> by (eapply newer_same_id; [exact Hs|by apply list_elem_of_In..|congruence]).
      by rewrite Hk in Hky.
  - rewrite Forall_forall in *. intros e He. by apply Hv, list_elem_of_In, in_rev, list_elem_of_In.
  - by apply StronglySorted_rev.
  - rewrite Forall_forall in *. intros e He. by apply Hb, list_elem_of_In, in_rev, list_elem_of_In.
  - done.
Qed.

(** ** Recording an operation *)
Definition next_sequence (l : list account_history_object) : Z :=
  match head l with Some e => ah_sequence e + 1 | None => 1 end.
Definition stored (id : Z) (note : operation_notification) (now : Z) : operation_object :=
  OperationObject id (note_trx_id note) (note_block note) (u32 (note_trx_in_block note)) (note_op_in_trx note)
    (note_virtual_op note) now (note_op note) (note_fee_payer note).
(** The entries [l] of an account after the operation [id] is recorded for it. *)
Definition recorded (prune : bool) (now : Z) (item : account_name_type) (id : Z)
    (l : list account_history_object) (h' : history) : Prop :=
  exists e, ah_op e = id /\ ah_account e = item /\ ah_sequence e = next_sequence l /\
    entries_ok (data item) now h' (e :: l) /\
    entries_of (data item) h' =
      if prune then List.filter (is_kept now (next_sequence l) h') (e :: l) else e :: l.

Lemma sequences_below a now h l : entries_ok a now h l -> Forall (fun e => ah_sequence e < next_sequence l) l.
Proof.
  intros [Hs _ _]. destruct l as [|x l]; constructor; cbn [next_sequence head]; [lia|].
  inversion Hs as [|? ? _ Hx]; subst. eapply Forall_impl; [exact Hx|]. intros y (H & _). lia.
Qed.
Lemma index_insert_newest e l : Forall (fun x => ah_sequence x < ah_sequence e) l -> index_insert e l = Some (e :: l).
Proof.
  intros H. destruct l as [|x l]; [done|]. apply Forall_cons_1 in H as [H _]. cbn [index_insert].
  destruct (Z.gtb_spec (ah_sequence e) (ah_sequence x)); [done|lia].
Qed.

Lemma entries_of_insert a b l h : entries_of a (h <| by_account ::= <[b := l]> |>) =
  if decide (a = b) then l else entries_of a h.
Proof.
  unfold entries_of. cbn. destruct (decide (a = b)) as [->|Hne]; [by rewrite lookup_insert_eq|by rewrite lookup_insert_ne].
Qed.

(** The new entry heads the list of its account. *)
Lemma create_entry_spec now item id h : history_ok now h -> (exists o, operation_objects h !! id = Some o /\ op_timestamp o = now) ->
  let l := entries_of (data item) h in let e := AccountHistory (next_history_id h) item (next_sequence l) id in
  next_sequence l < 2^32 ->
  let h' := h <| next_history_id ::= fun i => i + 1 |> <| by_account ::= <[data item := e :: l]> |> in
  create_entry item (next_sequence l) id h = Ok (tt, h') /\ history_ok now h' /\ extends h h' /\
  entries_ok (data item) now h' (e :: l).
Proof.
  intros [Hacc Hfresh] (o & Ho & Hot) l e Hroom h'. pose proof (Hacc (data item)) as Hl. fold l in Hl.
  assert (Hext : extends h h') by (split; [done|cbn; lia]).
  pose proof (entries_ok_extends _ _ _ _ _ Hext Hl) as [Hs Hv Hc].
  assert (He : entries_ok (data item) now h' (e :: l)).
  { pose proof (sequences_below _ _ _ _ Hl) as Hb. rewrite Forall_forall in Hb.
    split; [constructor; [done|]|constructor; [|done]|].
    - rewrite Forall_forall in *. intros y Hy. split_and!; [by apply Hb| |].
      + destruct (entries_valid _ _ _ _ Hl) as [|]; [by apply not_elem_of_nil in Hy|].
        pose proof (entries_valid _ _ _ _ Hl) as Hv0. rewrite Forall_forall in Hv0. by destruct (Hv0 y Hy).
      + destruct (Hv y Hy) as [_ _ _ (o' & Ho' & Hle)]. unfold time_of. rewrite Ho'. cbn. rewrite Ho. lia.
    - split; [|cbn; lia|done|].
      + cbn [ah_sequence e]. split; [|done]. unfold next_sequence. destruct l as [|x l']; cbn; [lia|].
        apply Forall_cons_1 in Hv as [[] _]. lia.
      + exists o. split; [done|lia].
    - cbn. destruct l as [|x l']; [done|]. by split. }
  split_and!; [|split|done|done].
  - unfold create_entry. fold l. rewrite index_insert_newest; [done|]. cbn. by eapply sequences_below.
  - intros a. unfold h'. rewrite entries_of_insert. destruct (decide (a = data item)) as [->|Hne]; [exact He|].
    by apply (entries_ok_extends _ _ h).
  - exact Hfresh.
Qed.

Lemma create_operation_spec note now h : history_ok now h ->
  exists h', create_operation note now h = Ok (next_operation_id h, h') /\ history_ok now h' /\ extends h h' /\
    operation_objects h' !! next_operation_id h = Some (stored (next_operation_id h) note now) /\
    by_account h' = by_account h.
Proof.
  intros [Hacc Hfresh]. eexists. split; [reflexivity|].
  match goal with |- history_ok _ ?h' /\ _ => assert (Hext : extends h h') end.
  { split; [|cbn; lia]. intros id o Ho. cbn. rewrite lookup_insert_ne; [done|]. intros <-.
    by rewrite Hfresh in Ho. }
  split_and!; [split|done|cbn; apply lookup_insert_eq|done].
  - intros a. by apply (entries_ok_extends _ _ h), Hacc.
  - intros id Hid. cbn in *. rewrite lookup_insert_ne by lia. apply Hfresh. lia.
Qed.

Lemma extends_trans h1 h2 h3 : extends h1 h2 -> extends h2 h3 -> extends h1 h3.
Proof. intros [H1 H2] [H3 H4]. split; [auto|lia]. Qed.

Definition new_id (new_obj : option Z) (h : history) : Z := default (next_operation_id h) new_obj.

Lemma operation_visitor_spec note now prune new_obj item h :
  history_ok now h -> next_sequence (entries_of (data item) h) < 2^32 ->
  (forall id, new_obj = Some id -> operation_objects h !! id = Some (stored id note now)) ->
  let id := new_id new_obj h in
  exists h', operation_visitor note now prune new_obj item h = Ok (Some id, h') /\ history_ok now h' /\ extends h h' /\
    operation_objects h' !! id = Some (stored id note now) /\
    recorded prune now item id (entries_of (data item) h) h' /\
    (forall b, b <> data item -> entries_of b h' = entries_of b h).
Proof.
  intros Hh Hroom Hnew id. set (l := entries_of (data item) h) in *.
  assert (H1 : exists h1, match new_obj with Some id => mret id | None => create_operation note now end h = Ok (id, h1) /\
    history_ok now h1 /\ extends h h1 /\ operation_objects h1 !! id = Some (stored id note now) /\ by_account h1 = by_account h).
  { unfold id. destruct new_obj as [i|]; cbn [new_id default].
    - exists h. split_and!; [done|done|by split|by apply Hnew|done].
    - by apply create_operation_spec. }
  destruct H1 as (h1 & E1 & Hok1 & Hext1 & Hid1 & Hby1).
  assert (Hl1 : forall b, entries_of b h1 = entries_of b h) by (intros b; unfold entries_of; by rewrite Hby1).
  destruct (create_entry_spec now item id h1 Hok1) as (E2 & Hok2 & Hext2 & He);
    [by exists (stored id note now)|by rewrite Hl1|]. rewrite Hl1 in E2, He, Hok2, Hext2. fold l in E2, He, Hok2, Hext2.
  set (h2 := h1 <| next_history_id ::= _ |> <| by_account ::= _ |>) in E2, He, Hok2, Hext2.
  set (e := AccountHistory _ _ _ _) in *.
  assert (Hl2 : forall b, entries_of b h2 = if decide (b = data item) then e :: l else entries_of b h).
  { intros b. unfold h2. rewrite entries_of_insert. destruct (decide _); [done|]. apply (Hl1 b). }
  assert (Hseq : u32 (next_sequence l) = next_sequence l /\ 1 <= next_sequence l).
  { unfold u32. unfold next_sequence in *. pose proof (entries_valid _ _ _ _ (accounts_ok _ _ Hh (data item))) as Hv.
    fold l in Hv. destruct l as [|x l']; cbn in *; [done|]. apply Forall_cons_1 in Hv as [[] _].
    rewrite Z.mod_small; lia. }
  assert (Erun : operation_visitor note now prune new_obj item h =
    (whenM prune (clean_up now item (next_sequence l)) ;; mret (Some id)) h2).
  { unfold operation_visitor. unfold mbind at 1, ST_bind at 1. rewrite E1.
    unfold mbind at 1, ST_bind at 1, gets at 1. rewrite Hl1. fold l.
    assert (match head l with Some e => u32 (ah_sequence e + 1) | None => 1 end = next_sequence l) as ->.
    { unfold next_sequence in *. destruct (head l); [apply Hseq|done]. }
    unfold mbind at 1, ST_bind at 1. by rewrite E2. }
  rewrite Erun. unfold whenM. destruct prune.
  - unfold mbind, ST_bind. rewrite clean_up_spec; [|by rewrite Hl2, decide_True| |done].
    2:{ rewrite Hl2, decide_True by done. constructor; [cbn; lia|]. eapply Forall_impl; [by eapply sequences_below, Hh|].
        cbn. lia. }
    rewrite Hl2, decide_True by done. eexists. split; [reflexivity|]. set (h3 := h2 <| by_account ::= _ |>).
    assert (Hext3 : extends h2 h3) by (by split).
    split_and!.
    + split; [|exact (fresh_operations _ _ Hok2)]. intros b. apply (entries_ok_extends _ _ h2); [done|].
      unfold h3. rewrite entries_of_insert. destruct (decide _) as [->|]; [by apply kept_ok|apply (accounts_ok _ _ Hok2)].
    + eapply extends_trans; [done|]. by eapply extends_trans.
    + by apply Hext2.
    + exists e. split_and!; [done..|by eapply entries_ok_extends|]. unfold h3 at 1. by rewrite entries_of_insert, decide_True.
    + intros b Hb. unfold h3. by rewrite entries_of_insert, decide_False, Hl2, decide_False.
  - exists h2. split_and!; [done|done|by eapply extends_trans|by apply Hext2| |].
    + exists e. split_and!; [done..|]. by rewrite Hl2, decide_True.
    + intros b Hb. by rewrite Hl2, decide_False.
Qed.

Lemma recorded_extends prune now item id l h h1 : extends h h1 ->
  entries_of (data item) h1 = entries_of (data item) h -> recorded prune now item id l h -> recorded prune now item id l h1.
Proof.
  intros Hx El (e & H1 & H2 & H3 & Hok & Hl). exists e. split_and!; [done..|by eapply entries_ok_extends|].
  rewrite El, Hl. destruct prune; [|done]. apply filter_ext_in. intros x Hin. unfold is_kept.
  pose proof (entries_valid _ _ _ _ Hok) as Hv. rewrite Forall_forall in Hv.
  by rewrite (time_of_extends (data item) now h h1 x); [|done|apply Hv, list_elem_of_In].
Qed.

Section recording.
  Context {cfg : sophiatx_config} {ext : externals}.

Definition records (p : history_plugin) (note : operation_notification) (item : account_name_type) : bool :=
  is_tracked p item && is_selected p (note_op note).

Lemma visit_items_spec p note now items new_obj h :
  NoDup (map data items) -> history_ok now h ->
  (forall item, item ∈ items -> next_sequence (entries_of (data item) h) < 2^32) ->
  (forall id, new_obj = Some id -> operation_objects h !! id = Some (stored id note now)) ->
  exists new' h', foldM (visit_item p note now) new_obj items h = Ok (new', h') /\ history_ok now h' /\ extends h h' /\
    (forall item, item ∈ items -> records p note item = true ->
       operation_objects h' !! new_id new_obj h = Some (stored (new_id new_obj h) note now) /\
       recorded (_prune p) now item (new_id new_obj h) (entries_of (data item) h) h') /\
    (forall b, (forall item, item ∈ items -> records p note item = true -> data item <> b) ->
       entries_of b h' = entries_of b h).
Proof.
  revert new_obj h. induction items as [|item items IH]; intros new_obj h Hnd Hh Hroom Hnew; cbn [foldM].
  { exists new_obj, h. split_and!; [done..| |done]. intros ? Hin. by apply not_elem_of_nil in Hin. }
  cbn [map] in Hnd. apply NoDup_cons in Hnd as [Hni Hnd].
  assert (Hother : forall x, x ∈ items -> data x <> data item).
  { intros x Hx E. apply Hni. rewrite <- E. apply list_elem_of_fmap. by exists x. }
  unfold mbind, ST_bind. unfold visit_item at 1. fold (records p note item).
  destruct (records p note item) eqn:Er.
  - destruct (operation_visitor_spec note now (_prune p) new_obj item h Hh) as (h1 & E1 & Hok1 & Hx1 & Hid & Hrec & Hsame);
      [apply Hroom; by left|done|]. rewrite E1. set (id := new_id new_obj h) in *.
    destruct (IH (Some id) h1 Hnd Hok1) as (new' & h' & E' & Hok' & Hx' & Hrec' & Hsame').
    { intros x Hx. rewrite Hsame by auto. apply Hroom. by right. }
    { by intros ? [= <-]. }
    cbn [new_id default] in Hrec'. exists new', h'. split; [exact E'|].
    assert (Hitem : entries_of (data item) h' = entries_of (data item) h1) by (apply Hsame'; auto).
    split_and!; [done|by eapply extends_trans| |].
    + intros x Hx Hrx. apply elem_of_cons in Hx as [->|Hx].
      * split; [by apply Hx'|]. by eapply recorded_extends.
      * destruct (Hrec' x Hx Hrx) as [H1 H2]. split; [done|]. rewrite Hsame in H2; auto.
    + intros b Hb. rewrite Hsame'; [apply Hsame|].
      * intros ->. apply (Hb item); [by left|done..].
      * intros x Hx. apply Hb. by right.
  - unfold mret at 1, ST_ret at 1.
    destruct (IH new_obj h Hnd Hh) as (new' & h' & E' & Hok' & Hx' & Hrec' & Hsame');
      [intros x Hx; apply Hroom; by right|done|]. exists new', h'. split; [exact E'|]. split_and!; [done..| |].
    + intros x Hx Hrx. apply elem_of_cons in Hx as [->|Hx]; [congruence|by apply Hrec'].
    + intros b Hb. apply Hsame'. intros x Hx. apply Hb. by right.
Qed.

Lemma impacted_sorted op : StronglySorted name_lt (operation_get_impacted_accounts op []).
Proof.
  assert (H0 : StronglySorted name_lt []) by constructor.
  destruct op; cbn [operation_get_impacted_accounts get_required_owner_authorities get_required_active_authorities];
    repeat match goal with
    | |- StronglySorted _ (name_insert _ _) => apply name_insert_sorted
    | |- StronglySorted _ (match ?x with _ => _ end) => destruct x
    | |- StronglySorted _ (let x := _ in _) => cbv zeta
    | |- _ => done
    end.
Qed.
Lemma impacted_by_NoDup note : NoDup (map data (impacted_by note)).
Proof. apply sorted_names_NoDup, name_insert_sorted, impacted_sorted. Qed.
End recording.

(** ** The configured ranges *)
Definition apart (r x : account_name_type * account_name_type) : Prop :=
  data (snd r) < data (fst x) \/ data (snd x) < data (fst r).
Lemma insert_range_spec r l : separate l -> data (fst r) <= data (snd r) -> Forall (apart r) l ->
  separate (insert_range r l) /\ (forall x, x ∈ insert_range r l <-> x = r \/ x ∈ l).
Proof.
  intros Hs Hr Ha. induction l as [|x l IH]; cbn [insert_range].
  { split; [by constructor|]. intros x. by set_solver. }
  pose proof (separate_head _ _ Hs) as Hx. pose proof (separate_above _ _ Hs) as Hab.
  apply Forall_cons_1 in Ha as [Hrx Ha]. unfold apart in Hrx.
  destruct (IH (separate_tail _ _ Hs) Ha) as [IHs IHe].
  unfold name_ltb. destruct (Z.ltb_spec (data (fst r)) (data (fst x))).
  { split; [constructor; [done|lia|done]|]. intros y. by rewrite elem_of_cons. }
  destruct (Z.ltb_spec (data (fst x)) (data (fst r))); [|lia]. split.
  - assert (Hmin : Forall (fun y => data (snd x) < data (fst y)) (insert_range r l)).
    { apply Forall_forall. intros y Hy. apply IHe in Hy as [->|Hy]; [lia|].
      rewrite Forall_forall in Hab. by apply Hab. }
    destruct (insert_range r l) as [|y l']; [by constructor|]. apply Forall_cons_1 in Hmin as [Hy _].
    by constructor.
  - intros y. rewrite !elem_of_cons, IHe. tauto.
Qed.

Inductive disjoint_ranges : list (account_name_type * account_name_type) -> Prop :=
  | disjoint_nil : disjoint_ranges []
  | disjoint_snoc l r : disjoint_ranges l -> data (fst r) <= data (snd r) -> Forall (apart r) l ->
      disjoint_ranges (l ++ [r]).
Lemma load_ranges_spec l : disjoint_ranges l ->
  let s := fold_left (fun l r => insert_range r l) l [] in separate s /\ (forall x, x ∈ s <-> x ∈ l).
Proof.
  induction 1 as [|l r Hl [IHs IHe] Hr Ha]; cbv zeta; [by split; [constructor|]|].
  rewrite fold_left_app. cbn [fold_left].
  destruct (insert_range_spec r (fold_left (fun l r => insert_range r l) l [])) as [H1 H2]; [done..| |].
  { rewrite Forall_forall in *. intros x Hx. by apply Ha, IHe. }
  split; [done|]. intros x. rewrite H2, IHe, elem_of_app, list_elem_of_singleton. tauto.
Qed.

Lemma is_tracked_exact p item : separate (_tracked_accounts p) ->
  is_tracked p item = true <-> _tracked_accounts p = [] \/ Exists (in_range item) (_tracked_accounts p).
Proof.
  intros Hs. unfold is_tracked. rewrite <- (range_of_exact item _ Hs).
  destruct (_tracked_accounts p) as [|x l] eqn:El; [tauto|].
  destruct (range_of item (x :: l)) as [[lo hi]|].
  - unfold name_leb. rewrite andb_true_iff, !Z.leb_le. split.
    + intros H. right. by exists (lo, hi).
    + intros [?|(r & [= <-] & H)]; done.
  - split; [done|]. intros [?|(r & ? & _)]; done.
Qed.

(** The operation names in the arguments of an option. *)
Definition named_in (args : list (list Z)) (op : operation) : Prop :=
  bytes_of_string (struct_name op) ∈ flat_map (split_ops []) args.
Lemma load_ops_spec args op : get_typename op ∈ load_ops args <-> named_in args op.
Proof.
  unfold load_ops, named_in, get_typename. rewrite elem_of_list_to_set, list_elem_of_fmap. split.
  - intros (w & Hw & Hin). apply app_inv_head in Hw as ->. apply list_elem_of_In in Hin.
    apply filter_In in Hin as [Hin _]. by apply list_elem_of_In.
  - intros Hin. eexists. split; [done|]. apply list_elem_of_In, filter_In. split; [by apply list_elem_of_In|].
    by destruct op.
Qed.
