(* ===== verification/PluginState.v ===== *)
(** * PluginState: what the plugins that interpret custom operations share

    A plugin keeps tables of its own.  What it changed before it threw stays: the evaluator
    and the notification catch the exception, but open no session for the plugin.  Undefined
    behaviour ([crash]) is not caught by anything. *)
From Stdlib Require Import String.
From S2P Require Import Prelude Safe Names Asset Double AssetText Json.
Local Open Scope Z_scope.
Local Open Scope list_scope.

(** ** A state that outlives exceptions *)
Definition KST (S A : Type) : Type := S -> S * res A.
#[export] Instance KST_ret {S} : MRet (KST S) := fun A a s => (s, Ok a).
#[export] Instance KST_bind {S} : MBind (KST S) := fun A B f m s =>
  match m s with (s', Ok a) => f a s' | (s', Throw e) => (s', Throw e) end.
#[export] Instance KST_throw {S} : MThrow exn (KST S) := fun A e s => (s, Throw e).
Definition k_res {S A} (r : res A) : KST S A := fun s => (s, r).
Definition k_gets {S A} (f : S -> A) : KST S A := fun s => (s, Ok (f s)).
Definition k_puts {S} (f : S -> S) : KST S unit := fun s => (f s, Ok tt).

(** The caller goes on with the state that is left. *)
Definition swallowed {S} (m : KST S unit) (s : S) : res S :=
  match m s with (_, Throw crash) => Throw crash | (s', _) => Ok s' end.

(** One statement after the other. *)
Section steps.
  Context {S A B : Type}.
  Implicit Types (s : S) (f : A -> KST S B).
Lemma k_bind_ok (m : KST S A) f s s' a : m s = (s', Ok a) -> mbind f m s = f a s'.
Proof. intros E. unfold mbind, KST_bind. by rewrite E. Qed.
Lemma k_bind_throw (m : KST S A) f s s' e : m s = (s', Throw e) -> mbind f m s = (s', Throw e).
Proof. intros E. unfold mbind, KST_bind. by rewrite E. Qed.
Lemma k_bind_res (r : res A) f s a : r = Ok a -> mbind f (k_res r) s = f a s.
Proof. by intros ->. Qed.
Lemma k_bind_gets (g : S -> A) f s : mbind f (k_gets g) s = f (g s) s.
Proof. done. Qed.
Lemma k_bind_assert b (f : unit -> KST S B) s : b = true -> mbind f (fc_assert b) s = f tt s.
Proof. by intros ->. Qed.
End steps.

(** From [s] the program ends with a result in [Q] or throws in a state of [E]. *)
Definition wp {S A} (m : KST S A) (Q : A -> S -> Prop) (E : S -> Prop) (s : S) : Prop :=
  match m s with (s', Ok a) => Q a s' | (s', Throw _) => E s' end.

Section wp.
  Context {S : Type}.
  Implicit Types (s : S) (E : S -> Prop).

Lemma wp_bind {A B} (m : KST S A) (k : A -> KST S B) Q E s :
  wp m (fun a s' => wp (k a) Q E s') E s -> wp (mbind k m) Q E s.
Proof. unfold wp, mbind, KST_bind. by destruct (m s) as [s' [a|e]]. Qed.
Lemma wp_ret {A} (a : A) (Q : A -> S -> Prop) E s : Q a s -> wp (mret a) Q E s.
Proof. done. Qed.
Lemma wp_throw {A} (e : exn) (Q : A -> S -> Prop) E s : E s -> wp (mthrow e : KST S A) Q E s.
Proof. done. Qed.
Lemma wp_res {A} (r : res A) Q E s : (forall a, r = Ok a -> Q a s) -> E s -> wp (k_res r) Q E s.
Proof. unfold wp, k_res. destruct r; auto. Qed.
Lemma wp_gets {A} (f : S -> A) Q E s : Q (f s) s -> wp (k_gets f) Q E s.
Proof. done. Qed.
Lemma wp_puts f (Q : unit -> S -> Prop) E s : Q tt (f s) -> wp (k_puts f) Q E s.
Proof. done. Qed.
Lemma wp_assert b (Q : unit -> S -> Prop) E s : (b = true -> Q tt s) -> E s -> wp (fc_assert b) Q E s.
Proof. destruct b; cbn; auto. Qed.
Lemma wp_mono {A} (m : KST S A) (Q Q' : A -> S -> Prop) E E' s :
  wp m Q E s -> (forall a s', Q a s' -> Q' a s') -> (forall s', E s' -> E' s') -> wp m Q' E' s.
Proof. unfold wp. destruct (m s) as [s' [a|e]]; auto. Qed.
Lemma wp_forM {A} (l : list A) (f : A -> KST S unit) (I : S -> Prop) s :
  (forall x s, I s -> wp (f x) (fun _ => I) I s) -> I s -> wp (forM l f) (fun _ => I) I s.
Proof.
  intros Hf. revert s. induction l as [|x l IH]; intros s Hs; [exact Hs|]. cbn [forM]. apply wp_bind.
  eapply wp_mono; [by apply Hf| |done]. intros [] s' Hs'. by apply IH.
Qed.
Lemma wp_swallowed (m : KST S unit) Q E s s' :
  wp m (fun _ => Q) E s -> swallowed m s = Ok s' -> Q s' \/ E s'.
Proof.
  unfold wp, swallowed. destruct (m s) as [s1 [a|e]]; intros H.
  - intros [= <-]. by left.
  - destruct e; intros [= <-]; by right.
Qed.
End wp.
#[global] Arguments wp : simpl never.

(** The rules that follow the program; guards leave their condition as a hypothesis. *)
Ltac wp_step :=
  lazymatch goal with
  | |- wp (mbind _ _) _ _ _ => apply wp_bind
  | |- wp (mret _) _ _ _ => apply wp_ret
  | |- wp (mthrow _) _ _ _ => apply wp_throw
  | |- wp (k_res _) _ _ _ => apply wp_res; [intros ? ?|]
  | |- wp (k_gets _) _ _ _ => apply wp_gets
  | |- wp (k_puts _) _ _ _ => apply wp_puts
  | |- wp (fc_assert _) _ _ _ => apply wp_assert; [intros ?|]
  end.

(** ** The JSON of an operation *)
(** It is read up to its first null character. *)
Definition parse_json (json : list Z) : res variant :=
  let s := c_str json in
  match from_string (S (2 * length s)) s with Parsed v _ => Ok v | Failed e => Throw e | Endless => Throw crash end.
Definition key (s : string) : list Z := bytes_of_string s.
Definition string_at (k : string) (tmp : variant) : res (list Z) := v ← at_key (key k) tmp; as_string v.
Definition uint64_at (k : string) (tmp : variant) : res Z := v ← at_key (key k) tmp; as_uint64 v.
