(* ===== verification/Messages.v ===== *)
(** * Messages: what the multiparty messaging plugin puts into operations
    ([external_plugins/multiparty_messaging/multiparty_messaging_objects.hpp],
    [fc/src/crypto/aes.cpp], [fc/io/raw.hpp], [fc/reflect/variant.hpp]).

    A message is packed, encrypted and put, as hexadecimal text, into the JSON of a custom
    operation.  The ciphers of OpenSSL and the curve of libsecp256k1 are parameters. *)
From Stdlib Require Import String.
From S2P Require Import Prelude Safe Names Asset Double AssetText Json Config Raw KeyText PluginState.
Local Open Scope Z_scope.
Local Open Scope list_scope.

(** ** multiparty_messaging_objects.hpp *)
Definition encrypted_key : Type := list Z.
(** [std::map]: entries in ascending order of their keys. *)
Definition key_map : Type := list (public_key_type * encrypted_key).
Record group_op := GroupOp {
  version_ : Z; type_ : list Z; description : list Z; new_group_name : option account_name_type;
  user_list : option (list account_name_type); senders_pubkey : public_key_type; new_key : key_map }.
#[export] Instance group_op_eta : Eta group_op := fun g =>
  GroupOp (version_ g) (type_ g) (description g) (new_group_name g) (user_list g) (senders_pubkey g) (new_key g).
Definition default_group_op : group_op := GroupOp 1 [] [] None None null_key [].
(** The constructor: an empty list or name is left out. *)
Definition make_group_op (type : string) (name : account_name_type) (descr : list Z) (users : list account_name_type)
    (sender : public_key_type) : group_op :=
  GroupOp 1 (key type) descr (if name_size name =? 0 then None else Some name)
    (match users with [] => None | _ => Some users end) sender [].

Definition message_type_group_operation : Z := 0.
Definition message_type_message : Z := 1.
Record message_wrapper := MessageWrapper {
  wrapped_type : Z; message_data : option (list Z); operation_data : option group_op }.
Definition default_wrapper : message_wrapper := MessageWrapper message_type_group_operation None None.

Record group_meta := GroupMeta {
  gm_sender : option public_key_type; gm_recipient : option public_key_type; gm_iv : option (list Z); gm_data : list Z }.
#[export] Instance group_meta_eta : Eta group_meta := fun m => GroupMeta (gm_sender m) (gm_recipient m) (gm_iv m) (gm_data m).

(** ** std::map *)
Fixpoint map_find {V} (k : Z) (m : list (Z * V)) : option V :=
  match m with [] => None | (k', v) :: m => if k =? k' then Some v else map_find k m end.
(** [insert] keeps the value that is there. *)
Fixpoint map_insert {V} (k : Z) (v : V) (m : list (Z * V)) : list (Z * V) :=
  match m with
  | [] => [(k, v)]
  | (k', v') :: m' => if k <? k' then (k, v) :: m else if k =? k' then m else (k', v') :: map_insert k v m'
  end.
(** [m[k] = v] *)
Fixpoint map_assign {V} (k : Z) (v : V) (m : list (Z * V)) : list (Z * V) :=
  match m with
  | [] => [(k, v)]
  | (k', v') :: m' => if k <? k' then (k, v) :: m else if k =? k' then (k, v) :: m' else (k', v') :: map_assign k v m'
  end.

(** ** Packing *)
Definition pack_bool (b : bool) : list Z := [if b then 1 else 0].
Definition unpack_bool : stream bool :=
  b ← ds_get;
  fc_assert (Z.land b 0xfe =? 0) ;;
  mret (negb (b =? 0)).
Definition pack_optional {A} (pack : A -> list Z) (v : option A) : list Z :=
  match v with Some x => pack_bool true ++ pack x | None => pack_bool false end.
Definition unpack_optional {A} (m : stream A) : stream (option A) :=
  b ← unpack_bool;
  if (b : bool) then x ← m; mret (Some x) else mret None.

(** A name is packed as its text in plain base 64; one without a text cannot be packed. *)
Definition normalize_to_base64 (s : list Z) : list Z := map (fun c => if c =? 45 then 43 else if c =? 95 then 47 else c) s.
Definition pack_name (n : account_name_type) : res (list Z) := s ← string_of_name n; Ok (pack_string (normalize_to_base64 s)).
Definition unpack_name : stream account_name_type := s ← unpack_string; mret (fixed_string s).
Fixpoint pack_names (ns : list account_name_type) : res (list Z) :=
  match ns with [] => Ok [] | n :: ns => b ← pack_name n; r ← pack_names ns; Ok (b ++ r) end.
Definition SIZEOF_NAME : Z := 32.
Definition SIZEOF_KEY_AND_VECTOR : Z := 33 + 24.

Definition pack_key_map (m : key_map) : list Z :=
  pack_vector (fun kv => pack_public_key (fst kv) ++ pack_string (snd kv)) m.
Definition unpack_key_map : stream key_map :=
  kvs ← unpack_vector SIZEOF_KEY_AND_VECTOR (k ← unpack_public_key; v ← unpack_string; mret (k, v));
  mret (foldl (fun m kv => map_insert (fst kv) (snd kv) m) [] kvs).

Definition pack_optional_name (n : option account_name_type) : res (list Z) :=
  match n with Some n => b ← pack_name n; Ok (pack_bool true ++ b) | None => Ok (pack_bool false) end.
Definition pack_optional_names (l : option (list account_name_type)) : res (list Z) :=
  match l with
  | Some l => b ← pack_names l; Ok (pack_bool true ++ pack_unsigned_int (u32 (Z.of_nat (length l))) ++ b)
  | None => Ok (pack_bool false)
  end.
Definition pack_group_op (g : group_op) : res (list Z) :=
  name ← pack_optional_name (new_group_name g);
  users ← pack_optional_names (user_list g);
  Ok (pack_u32 (version_ g) ++ pack_string (type_ g) ++ name ++ pack_string (description g) ++ users
        ++ pack_public_key (senders_pubkey g) ++ pack_key_map (new_key g)).
Definition unpack_group_op : stream group_op :=
  version ← unpack_u32;
  type ← unpack_string;
  name ← unpack_optional unpack_name;
  descr ← unpack_string;
  users ← unpack_optional (unpack_vector SIZEOF_NAME unpack_name);
  sender ← unpack_public_key;
  keys ← unpack_key_map;
  mret (GroupOp version type descr name users sender keys).

Definition pack_wrapper (w : message_wrapper) : res (list Z) :=
  op ← match operation_data w with Some g => b ← pack_group_op g; Ok (pack_bool true ++ b) | None => Ok (pack_bool false) end;
  Ok (pack_u32 (wrapped_type w) ++ pack_optional pack_string (message_data w) ++ op).
Definition unpack_wrapper : stream message_wrapper :=
  type ← unpack_u32;
  data ← unpack_optional unpack_string;
  op ← unpack_optional unpack_group_op;
  mret (MessageWrapper type data op).

(** ** aes.cpp, elliptic_secp256k1.cpp *)
Class ciphers := {
  (** [EVP_aes_256_cbc] with its padding; a wrong padding is an error. *)
  evp_encrypt : list Z -> list Z -> list Z -> list Z;
  evp_decrypt : list Z -> list Z -> list Z -> option (list Z);
  (** The point of a public key multiplied by a number. *)
  tweak_mul : public_key_type -> list Z -> option public_key_type;
  pubkey_create : list Z -> option public_key_type;
  sha512_hash : list Z -> list Z }.
Class cipher_laws `{ciphers} : Prop := {
  evp_decrypts : forall k iv m, bytes m -> evp_decrypt k iv (evp_encrypt k iv m) = Some m;
  evp_bytes : forall k iv m, bytes m -> bytes (evp_encrypt k iv m);
  evp_size : forall k iv m, (length (evp_encrypt k iv m) <= length m + 16)%nat;
  (** Two parties compute the same point. *)
  tweak_commutes : forall a b pa pb, pubkey_create a = Some pa -> pubkey_create b = Some pb ->
    exists p, tweak_mul pb a = Some p /\ tweak_mul pa b = Some p;
  pubkey_range : forall a pa, pubkey_create a = Some pa -> 0 < pa < 256 ^ 33 }.

Definition empty_sha256 : list Z := repeat 0 32.
Section ciphers.
  Context `{ciphers}.

(** The initial value of the cipher has sixteen bytes. *)
Definition aes_encrypt (k iv plain : list Z) : list Z := evp_encrypt k (take 16 iv) plain.
Definition aes_decrypt (k iv cipher : list Z) : res (list Z) :=
  match evp_decrypt k (take 16 iv) cipher with Some m => Ok m | None => Throw fc_exception end.
(** With a 512-bit key: the first half is the key, the second the initial value. *)
Definition aes_encrypt_512 (k plain : list Z) : list Z := aes_encrypt (take 32 k) (drop 32 k) plain.
Definition aes_decrypt_512 (k cipher : list Z) : res (list Z) := aes_decrypt (take 32 k) (drop 32 k) cipher.
Definition sha256_of_data (d : list Z) : res (list Z) := if Nat.eqb (length d) 32 then Ok d else Throw fc_exception.
Definition get_public_key (secret : list Z) : res public_key_type :=
  fc_assert (negb (bool_decide (secret = empty_sha256))) ;;
  match pubkey_create secret with Some p => Ok p | None => Throw assert_exception end.
Definition get_shared_secret (secret : list Z) (other : public_key_type) : res (list Z) :=
  fc_assert (negb (bool_decide (secret = empty_sha256))) ;;
  fc_assert (negb (other =? null_key)) ;;
  match tweak_mul other secret with
  | Some p => Ok (sha512_hash (drop 1 (be_bytes 33 p)))
  | None => Throw assert_exception
  end.

Definition encode_message (message : message_wrapper) (iv k : list Z) : res (list Z) :=
  raw_msg ← pack_wrapper message; Ok (aes_encrypt k iv raw_msg).
Definition encode_message_512 (message : message_wrapper) (k : list Z) : res (list Z) :=
  raw_msg ← pack_wrapper message; Ok (aes_encrypt_512 k raw_msg).
Definition decode_message (message iv k : list Z) : res message_wrapper :=
  raw_msg ← aes_decrypt k iv message; unpack_from_vector raw_msg unpack_wrapper default_wrapper.
Definition decode_message_512 (message k : list Z) : res message_wrapper :=
  raw_msg ← aes_decrypt_512 k message; unpack_from_vector raw_msg unpack_wrapper default_wrapper.
End ciphers.

(** ** Variants *)
Section variants.
  Context `{externals}.
Definition key_to_variant (k : public_key_type) : variant := v_string (public_key_to_string (be_bytes 33 k)).
Definition key_from_variant (v : variant) : res public_key_type := s ← as_string v; d ← public_key_from_string s; Ok (be_value d).
Definition optional_entry {A} (name : string) (f : A -> variant) (x : option A) : list entry :=
  match x with Some x => [(key name, f x)] | None => [] end.
Definition optional_at {A} (name : string) (f : variant -> res A) (l : list entry) : res (option A) :=
  match find_entry (key name) l with
  | Some v => match v with v_null => Ok None | _ => x ← f v; Ok (Some x) end
  | None => Ok None
  end.

Definition group_meta_to_variant (m : group_meta) : variant :=
  v_object (optional_entry "sender" key_to_variant (gm_sender m) ++ optional_entry "recipient" key_to_variant (gm_recipient m)
    ++ optional_entry "iv" vector_to_variant (gm_iv m) ++ [(key "data", vector_to_variant (gm_data m))]).
Definition group_meta_from_variant (v : variant) : res group_meta :=
  l ← get_object v;
  sender ← optional_at "sender" key_from_variant l;
  recipient ← optional_at "recipient" key_from_variant l;
  iv ← optional_at "iv" sha256_from_variant l;
  data ← match find_entry (key "data") l with Some v => vector_from_variant v | None => Ok [] end;
  Ok (GroupMeta sender recipient iv data).

Definition name_to_variant (n : account_name_type) : res variant := s ← string_of_name n; Ok (v_string s).
Fixpoint names_to_variants (ns : list account_name_type) : res (list variant) :=
  match ns with [] => Ok [] | n :: ns => v ← name_to_variant n; r ← names_to_variants ns; Ok (v :: r) end.
Definition group_op_to_variant (g : group_op) : res variant :=
  name ← match new_group_name g with Some n => v ← name_to_variant n; Ok [(key "new_group_name", v)] | None => Ok [] end;
  users ← match user_list g with Some l => vs ← names_to_variants l; Ok [(key "user_list", v_array vs)] | None => Ok [] end;
  Ok (v_object ([(key "version", v_uint64 (version_ g)); (key "type", v_string (type_ g))] ++ name
    ++ [(key "description", v_string (description g))] ++ users
    ++ [(key "senders_pubkey", key_to_variant (senders_pubkey g));
        (key "new_key", v_array (map (fun kv => v_array [key_to_variant (fst kv); vector_to_variant (snd kv)]) (new_key g)))])).
(** [json::to_string<group_op>] *)
Definition group_op_to_json (g : group_op) : res (list Z) := v ← group_op_to_variant g; Ok (to_string stringify_large_ints_and_doubles v).
End variants.
