(* ===== verification/GroupMessaging.v ===== *)
(** * GroupMessaging: groups of accounts that exchange encrypted messages
    ([external_plugins/multiparty_messaging/multiparty_messaging_plugin.cpp] and [_api.cpp]).

    The API prepares what a client puts into custom JSON operations; the plugin interprets
    the operations on its tables of groups and messages.  A [modify] that violates a
    uniqueness constraint removes the object (see [Chainbase]) and throws. *)
From Stdlib Require Import String.
From S2P Require Import Prelude Safe Names Asset Double AssetText Json Version Config Authority Raw KeyText Operations PluginState Messages.
Local Open Scope Z_scope.
Local Open Scope list_scope.

Record group_object := Group {
  group_name : account_name_type; current_group_name : account_name_type; go_description : list Z;
  members : list account_name_type; admin : account_name_type; group_key : list Z; current_seq : Z }.
#[export] Instance group_eta : Eta group_object := fun g =>
  Group (group_name g) (current_group_name g) (go_description g) (members g) (admin g) (group_key g) (current_seq g).
Record message_object := Message {
  mo_sender : account_name_type; mo_recipients : list account_name_type; mo_data : list Z; system_message : bool }.
(** Groups by id; messages by the name of their group and their sequence number. *)
Record groups_db := GroupsDb {
  groups : gmap Z group_object; next_group_id : Z; messages : gmap (Z * Z) message_object }.
#[export] Instance groups_db_eta : Eta groups_db := fun d => GroupsDb (groups d) (next_group_id d) (messages d).

(** The accounts that are followed and the memo keys that are known, in ascending order of
    the public keys. *)
Record mpm_plugin := MpmPlugin {
  mpm_app_id : Z; mpm_accounts : list account_name_type; mpm_private_keys : list (public_key_type * list Z) }.

Definition group_where (P : group_object -> bool) (d : groups_db) : option (Z * group_object) :=
  head (List.filter (fun kg => P (snd kg)) (map_to_list (groups d))).
Definition called (name : account_name_type) (g : group_object) : bool := name_eqb (current_group_name g) name.
Definition named (name : account_name_type) (g : group_object) : bool := name_eqb (group_name g) name.
Definition find_group (name : account_name_type) : KST groups_db (option (Z * group_object)) := k_gets (group_where (called name)).
Definition is_None_b {A} (o : option A) : bool := match o with None => true | Some _ => false end.

(** Both names are unique. *)
Definition create_group_object (g : group_object) : KST groups_db Z := fun d =>
  if is_None_b (group_where (named (group_name g)) d) && is_None_b (group_where (called (current_group_name g)) d)
  then (d <| groups ::= <[next_group_id d := g]> |> <| next_group_id ::= Z.add 1 |>, Ok (next_group_id d))
  else (d, Throw logic_error).
Definition clashes (id : Z) (g : group_object) (d : groups_db) : bool :=
  existsb (fun kg => negb (fst kg =? id) && called (current_group_name g) (snd kg)) (map_to_list (groups d)).
Definition modify_group (id : Z) (f : group_object -> group_object) : KST groups_db unit := fun d =>
  match groups d !! id with
  | None => (d, Throw crash)
  | Some g => if clashes id (f g) d then (d <| groups ::= delete id |>, Throw logic_error)
              else (d <| groups ::= <[id := f g]> |>, Ok tt)
  end.
Definition get_group (id : Z) : KST groups_db group_object := fun d =>
  match groups d !! id with Some g => (d, Ok g) | None => (d, Throw crash) end.

Definition save_message (id : Z) (sender : account_name_type) (system : bool) (text : list Z) : KST groups_db unit :=
  go ← get_group id;
  let at_ := (data (group_name go), current_seq go) in
  there ← k_gets (fun d => messages d !! at_);
  match there with
  | Some _ => mthrow logic_error
  | None => k_puts (fun d => d <| messages ::= <[at_ := Message sender (members go) text system]> |>)
  end ;;
  modify_group id (fun g => g <| current_seq ::= fun n => u32 (n + 1) |>).

Section plugin.
  Context `{ciphers} `{externals}.

(** ** extract_key *)
Definition decrypt_key (secret : list Z) (other : public_key_type) (cipher : encrypted_key) : res (list Z) :=
  sc ← get_shared_secret secret other; d ← aes_decrypt_512 sc cipher; sha256_of_data d.
(** The first entry that is not for the group. *)
Fixpoint skip_null (m : key_map) : option (public_key_type * encrypted_key) :=
  match m with [] => None | (k, v) :: m => if k =? null_key then skip_null m else Some (k, v) end.
Fixpoint key_from_private_keys (pks : list (public_key_type * list Z)) (new_key_map : key_map) (sender_key : public_key_type)
    : option (res (list Z)) :=
  match pks with
  | [] => None
  | (pub, secret) :: pks =>
      match map_find pub new_key_map with
      | Some cipher => Some (decrypt_key secret sender_key cipher)
      | None =>
          if pub =? sender_key then
            match skip_null new_key_map with
            | Some (other, cipher) => Some (decrypt_key secret other cipher)
            | None => key_from_private_keys pks new_key_map sender_key
            end
          else key_from_private_keys pks new_key_map sender_key
      end
  end.
Definition extract_key (p : mpm_plugin) (new_key_map : key_map) (group_key iv : list Z) (sender_key : public_key_type) : res (list Z) :=
  match key_from_private_keys (mpm_private_keys p) new_key_map sender_key with
  | Some r => r
  | None =>
      match map_find null_key new_key_map with
      | Some cipher => d ← aes_decrypt group_key iv cipher; sha256_of_data d
      | None => Ok empty_sha256
      end
  end.

(** ** apply *)
Definition disband (id : Z) : KST groups_db unit :=
  modify_group id (fun go => go <| members := [] |> <| current_group_name := fixed_string [] |> <| group_key := empty_sha256 |>).
Definition update_group_object (id : Z) (g_op : group_op) (users : list account_name_type) (k : list Z) : KST groups_db unit :=
  modify_group id (fun go =>
    let go := go <| members := users |> in
    let go := match new_group_name g_op with Some n => go <| current_group_name := n |> | None => go end in
    let go := if bool_decide (k = empty_sha256) then go else go <| group_key := k |> in
    match description g_op with [] => go | descr => go <| go_description := descr |> end).
(** A list of users that is missing is read all the same. *)
Definition users_of (g_op : group_op) : res (list account_name_type) :=
  match user_list g_op with Some l => Ok l | None => Throw crash end.

Definition group_operation (p : mpm_plugin) (sender : account_name_type) (id : Z) (g_ob : group_object) (iv : list Z)
    (content : message_wrapper) : KST groups_db unit :=
  match operation_data content with
  | None => mthrow assert_exception
  | Some g_op =>
      fc_assert ((version_ g_op =? 1) && name_eqb sender (admin g_ob)) ;;
      new_key ← k_res (extract_key p (new_key g_op) (group_key g_ob) iv (senders_pubkey g_op));
      (if bool_decide (type_ g_op = key "disband") then disband id
       else if bool_decide (type_ g_op = key "update") then
         users ← k_res (users_of g_op);
         update_group_object id g_op users new_key
       else mthrow fc_exception) ;;
      text ← k_res (group_op_to_json g_op);
      save_message id sender true text
  end.
Definition group_content (p : mpm_plugin) (sender : account_name_type) (id : Z) (g_ob : group_object) (iv : list Z)
    (content : message_wrapper) : KST groups_db unit :=
  if wrapped_type content =? message_type_group_operation then group_operation p sender id g_ob iv content
  else if wrapped_type content =? message_type_message then
    match message_data content with
    | Some text => save_message id sender false text
    | None => mthrow crash
    end
  else mret tt.
Definition to_group (p : mpm_plugin) (sender : account_name_type) (cipher iv : list Z) (r : account_name_type) : KST groups_db unit :=
  g ← find_group r;
  match g with
  | None => mret tt
  | Some (id, g_ob) =>
      content ← k_res (decode_message cipher iv (group_key g_ob));
      group_content p sender id g_ob iv content
  end.

Definition new_group (p : mpm_plugin) (op_sender : account_name_type) (sender : public_key_type) (content : message_wrapper)
    : KST groups_db bool :=
  match operation_data content with
  | Some g_op =>
      fc_assert (wrapped_type content =? message_type_group_operation) ;;
      fc_assert ((version_ g_op =? 1) && bool_decide (type_ g_op = key "add")) ;;
      match new_group_name g_op with
      | None => mthrow assert_exception
      | Some name =>
          known ← find_group name;
          match known with
          | Some _ => mret false
          | None =>
              new_key ← k_res (extract_key p (new_key g_op) empty_sha256 empty_sha256 sender);
              fc_assert (negb (bool_decide (new_key = empty_sha256))) ;;
              users ← k_res (users_of g_op);
              id ← create_group_object (Group name name (description g_op) users op_sender new_key 0);
              text ← k_res (group_op_to_json g_op);
              save_message id op_sender true text ;;
              mret true
          end
      end
  | None => mthrow assert_exception
  end.
Definition private_key_of (p : mpm_plugin) (k : public_key_type) : option (list Z) := map_find k (mpm_private_keys p).
(** The secret of the two ends of the message, if one of the keys is known. *)
Definition common_secret (p : mpm_plugin) (sender recipient : public_key_type) : option (res (list Z)) :=
  match private_key_of p recipient with
  | Some secret => Some (get_shared_secret secret sender)
  | None => match private_key_of p sender with
            | Some secret => Some (get_shared_secret secret recipient)
            | None => None
            end
  end.
(** [return] ends the whole loop. *)
Fixpoint to_accounts (p : mpm_plugin) (op_sender : account_name_type) (sender recipient : public_key_type) (cipher : list Z)
    (involved_accounts : list account_name_type) : KST groups_db unit :=
  match involved_accounts with
  | [] => mret tt
  | r :: rest =>
      if existsb (name_eqb r) (mpm_accounts p) then
        match common_secret p sender recipient with
        | None => mret tt
        | Some secret =>
            shared_secret ← k_res secret;
            content ← k_res (decode_message_512 cipher shared_secret);
            go_on ← new_group p op_sender sender content;
            if (go_on : bool) then to_accounts p op_sender sender recipient cipher rest else mret tt
        end
      else to_accounts p op_sender sender recipient cipher rest
  end.

Definition mpm_apply (p : mpm_plugin) (op : custom_json_operation) : KST groups_db unit :=
  v ← k_res (parse_json (cj_json op));
  meta ← k_res (group_meta_from_variant v);
  match gm_iv meta with
  | Some iv => forM (cj_recipients op) (to_group p (cj_sender op) (gm_data meta) iv)
  | None =>
      match gm_sender meta, gm_recipient meta with
      | Some sender, Some recipient =>
          to_accounts p (cj_sender op) sender recipient (gm_data meta) (cj_recipients op ++ [cj_sender op])
      | _, _ => mret tt
      end
  end.
End plugin.
