(* ===== verification/GroupApi.v ===== *)
(** * GroupApi: the operations of a group as a client prepares them
    ([external_plugins/multiparty_messaging/multiparty_messaging_api.cpp]).

    What the program draws at random is an argument; the account behind a name, which the
    program asks another API for, is a parameter. *)
From Stdlib Require Import String.
From S2P Require Import Prelude Safe Names Asset Double AssetText Json Version Config Authority Raw KeyText Operations PluginState Messages GroupMessaging.
Local Open Scope Z_scope.
Local Open Scope list_scope.

(** ** std::sort, std::unique, std::merge and std::set_difference on names *)
Fixpoint insert_sorted (n : account_name_type) (l : list account_name_type) : list account_name_type :=
  match l with [] => [n] | m :: l' => if name_ltb n m then n :: l else m :: insert_sorted n l' end.
Definition sort_names (l : list account_name_type) : list account_name_type := foldl (fun l n => insert_sorted n l) [] l.
Fixpoint unique_names (l : list account_name_type) : list account_name_type :=
  match l with
  | n :: (m :: _) as l' => if name_eqb n m then n :: tl (unique_names l') else n :: unique_names l'
  | _ => l
  end.
Fixpoint merge_names (l : list account_name_type) : list account_name_type -> list account_name_type :=
  fix go m := match l, m with
              | [], _ => m
              | _, [] => l
              | a :: l', b :: m' => if name_ltb b a then b :: go m' else a :: merge_names l' m
              end.
Fixpoint difference_names (l : list account_name_type) : list account_name_type -> list account_name_type :=
  fix go m := match l, m with
              | [], _ => []
              | _, [] => l
              | a :: l', b :: m' =>
                  if name_ltb a b then a :: difference_names l' m
                  else if name_ltb b a then go m' else difference_names l' m'
              end.
(** All members, and those of them that are new. *)
Definition find_new_members (current adding : list account_name_type) : list account_name_type * list account_name_type :=
  let current_members := sort_names current in
  let all_members := merge_names current_members (sort_names adding) in
  (difference_names all_members current_members, all_members).

Definition payloads : Type := list (Z * group_meta).
Record api_account := ApiAccount { api_name : account_name_type; memo_key : public_key_type }.

Section api.
  Context `{ciphers} `{externals} `{sha256_function}.
  Context (get_account : account_name_type -> res api_account).
  Variable plugin : mpm_plugin.

Definition suggest_group_name (description secret : list Z) : account_name_type :=
  fixed_string (base64m_encode (take 20 (ripemd160_hash (description ++ to_hex secret)) ++ [0])).
Definition generate_random_key (secrets : list (list Z)) : list Z := sha256_hash (concat secrets).

Definition encode_and_pack (k iv : list Z) (op : group_op) : res group_meta :=
  d ← encode_message (MessageWrapper message_type_group_operation None (Some op)) iv k;
  Ok (GroupMeta None None (Some iv) d).
Definition encode_and_pack_512 (shared_secret : list Z) (op : group_op) : res group_meta :=
  d ← encode_message_512 (MessageWrapper message_type_group_operation None (Some op)) shared_secret;
  Ok (GroupMeta None None None d).

Definition own_key (memo : public_key_type) : res (list Z) :=
  match private_key_of plugin memo with Some k => Ok k | None => Throw assert_exception end.
(** By the current name first. *)
Definition group_of (name : account_name_type) (d : groups_db) : res group_object :=
  match group_where (called name) d with
  | Some (_, g) => Ok g
  | None => match group_where (named name) d with Some (_, g) => Ok g | None => Throw assert_exception end
  end.
Definition group_of_admin (name admin_name : account_name_type) (d : groups_db) : res group_object :=
  g ← group_of name d; fc_assert (name_eqb (admin g) admin_name) ;; Ok g.

(** The key of the group for one account, by the secret the two accounts share. *)
Definition invitation (secret : list Z) (from : public_key_type) (k : list Z) (op : group_op) (m : account_name_type)
    : res (account_name_type * group_meta) :=
  member ← get_account m;
  sc ← get_shared_secret secret (memo_key member);
  let op := op <| new_key := map_assign (memo_key member) (aes_encrypt_512 sc k) [] |> in
  meta ← encode_and_pack_512 sc op;
  Ok (api_name member, meta <| gm_sender := Some from |> <| gm_recipient := Some (memo_key member) |>).
Fixpoint invitations (secret : list Z) (from : public_key_type) (k : list Z) (op : group_op) (ms : list account_name_type)
    (ret : payloads) : res payloads :=
  match ms with
  | [] => Ok ret
  | m :: ms => r ← invitation secret from k op m;
               invitations secret from k op ms (map_assign (data (fst r)) (snd r) ret)
  end.

Definition create_group (admin_name : account_name_type) (description : list Z) (args_members : list account_name_type)
    (name_secret : list Z) (key_secrets : list (list Z)) : res (account_name_type * payloads) :=
  admin ← get_account admin_name;
  let group_name := suggest_group_name description name_secret in
  let group_key := generate_random_key key_secrets in
  secret ← own_key (memo_key admin);
  let members := unique_names (sort_names args_members) in
  let op := make_group_op "add" group_name description members (memo_key admin) in
  let op := op <| user_list ::= fmap (fun l => l ++ [api_name admin]) |> in
  ret ← invitations secret (memo_key admin) group_key op members [];
  Ok (group_name, ret).

(** Random values of an update: the secret of the name, the secrets of the new key and of
    the initial value. *)
Record update_secrets := UpdateSecrets { name_secret : list Z; key_secrets : list (list Z); iv_secrets : list (list Z) }.
Definition group_update (g : group_object) (r : update_secrets) (descr : list Z) (all_members : list account_name_type)
    (from : public_key_type) (keys : key_map) : res group_meta :=
  let op := make_group_op "update" (suggest_group_name (go_description g) (name_secret r)) descr all_members from in
  encode_and_pack (group_key g) (generate_random_key (iv_secrets r)) (op <| new_key := keys |>).
(** The new key under the old one. *)
Definition key_for_group (g : group_object) (r : update_secrets) : key_map :=
  map_assign null_key (aes_encrypt (group_key g) (generate_random_key (iv_secrets r)) (generate_random_key (key_secrets r))) [].

Definition add_group_participants (name admin_name : account_name_type) (new_members_ : list account_name_type) (check_members : bool)
    (r : update_secrets) (d : groups_db) : res payloads :=
  g_ob ← group_of_admin name admin_name d;
  admin ← get_account admin_name;
  secret ← own_key (memo_key admin);
  let '(new_members, all_members) :=
    if check_members then find_new_members (members g_ob) new_members_ else (new_members_, members g_ob ++ new_members_) in
  let op := make_group_op "add" (suggest_group_name (go_description g_ob) (name_secret r)) (go_description g_ob) all_members (memo_key admin) in
  ret ← invitations secret (memo_key admin) (generate_random_key (key_secrets r)) op new_members [];
  meta ← group_update g_ob r (go_description g_ob) all_members (memo_key admin) (key_for_group g_ob r);
  Ok (map_assign (data (current_group_name g_ob)) meta ret).

Fixpoint member_keys (secret k : list Z) (ms : list account_name_type) (m : key_map) : res key_map :=
  match ms with
  | [] => Ok m
  | n :: ms =>
      member ← get_account n;
      sc ← get_shared_secret secret (memo_key member);
      member_keys secret k ms (map_assign (memo_key member) (aes_encrypt_512 sc k) m)
  end.
(** The list of users that is sent is the one of all members. *)
Definition delete_group_participants (name admin_name : account_name_type) (deleted_members : list account_name_type)
    (r : update_secrets) (d : groups_db) : res payloads :=
  g_ob ← group_of_admin name admin_name d;
  admin ← get_account admin_name;
  secret ← own_key (memo_key admin);
  let all_members := unique_names (sort_names (members g_ob)) in
  let to_remove := unique_names (sort_names deleted_members) in
  let new_members := difference_names all_members to_remove in
  keys ← member_keys secret (generate_random_key (key_secrets r)) new_members [];
  meta ← group_update g_ob r (go_description g_ob) all_members (memo_key admin) keys;
  Ok (map_assign (data (current_group_name g_ob)) meta []).

Definition update_group (name admin_name : account_name_type) (descr : list Z) (r : update_secrets) (d : groups_db) : res payloads :=
  g_ob ← group_of_admin name admin_name d;
  admin ← get_account admin_name;
  _ ← own_key (memo_key admin);
  meta ← group_update g_ob r descr (members g_ob) (memo_key admin) (key_for_group g_ob r);
  Ok (map_assign (data (current_group_name g_ob)) meta []).

Definition disband_group (name admin_name : account_name_type) (iv_secrets : list (list Z)) (d : groups_db) : res payloads :=
  g_ob ← group_of_admin name admin_name d;
  admin ← get_account admin_name;
  _ ← own_key (memo_key admin);
  meta ← encode_and_pack (group_key g_ob) (generate_random_key iv_secrets)
    (make_group_op "disband" (group_name g_ob) [] [] (memo_key admin));
  Ok (map_assign (data (current_group_name g_ob)) meta []).

Definition send_group_message (name sender_name : account_name_type) (text : list Z) (iv_secrets : list (list Z)) (d : groups_db)
    : res payloads :=
  g_ob ← group_of name d;
  sender ← get_account sender_name;
  _ ← own_key (memo_key sender);
  let iv := generate_random_key iv_secrets in
  data_ ← encode_message (MessageWrapper message_type_message (Some text) None) iv (group_key g_ob);
  Ok (map_assign (data (current_group_name g_ob)) (GroupMeta None None (Some iv) data_) []).

(** What only reads the tables. *)
Definition get_group_name (current : account_name_type) (d : groups_db) : account_name_type :=
  match group_where (called current) d with Some (_, g) => group_name g | None => fixed_string [] end.
End api.
