(* ===== verification/MessageFacts.v ===== *)
(** * MessageFacts: messages survive packing, encryption and the JSON of an operation *)
From Stdlib Require Import String.
From S2P Require Import Prelude Safe Names Asset Double AssetText Json Config Raw KeyText PluginState Messages.
Local Open Scope Z_scope.
Local Open Scope list_scope.

(** ** JSON objects of plain strings *)
(** Characters that are printed as they are and do not look like brackets. *)
Definition safe_char (c : Z) : bool := (32 <=? c) && negb (bool_decide (c ∈ [34; 92; 91; 93; 123; 125])).
Definition safe (s : list Z) : Prop := Forall (fun c => safe_char c = true) s.
Definition no_bracket (c : Z) : Prop := 32 <= c /\ c <> 91 /\ c <> 93 /\ c <> 123 /\ c <> 125.
Lemma safe_char_spec c : safe_char c = true -> no_bracket c /\ c <> 34 /\ c <> 92.
Proof.
  unfold safe_char. rewrite andb_true_iff, negb_true_iff, bool_decide_eq_false, Z.leb_le. intros [H1 H2].
  unfold no_bracket. set_unfold. lia.
Qed.
Lemma safe_escape s : safe s -> flat_map escape_char s = s.
Proof.
  induction 1 as [|c s Hc Hs IH]; [done|]. cbn [flat_map]. rewrite IH. apply safe_char_spec in Hc as ((H1 & _) & H2 & H3).
  unfold escape_char. destruct (Z.eqb_spec c 8); [lia|]. destruct (Z.eqb_spec c 12); [lia|]. destruct (Z.eqb_spec c 10); [lia|].
  destruct (Z.eqb_spec c 13); [lia|]. destruct (Z.eqb_spec c 9); [lia|]. destruct (Z.eqb_spec c 92); [lia|].
  destruct (Z.eqb_spec c 34); [lia|]. destruct (Z.ltb_spec c 32); [lia|done].
Qed.
Lemma safe_printable s : safe s -> printable s.
Proof. intros Hs. eapply Forall_impl; [exact Hs|]. intros c ((H & _) & _)%safe_char_spec. by left. Qed.
Lemma no_bracket_depth d s t : Forall no_bracket s -> fst d < 100 -> snd d < 100 ->
  check_depth_from d (s ++ t) = check_depth_from d t.
Proof.
  intros Hs H1 H2. induction Hs as [|c s (_ & Ha & Hb & Hc & He) Hs IH]; [done|]. cbn [app check_depth_from].
  assert (E : brackets c d = d).
  { unfold brackets. destruct d as [o a]. destruct (Z.eqb_spec c 123); [done|]. destruct (Z.eqb_spec c 125); [done|].
    destruct (Z.eqb_spec c 91); [done|]. by destruct (Z.eqb_spec c 93). }
  rewrite E, (proj2 (Z.ltb_lt _ _) H1), (proj2 (Z.ltb_lt _ _) H2). exact IH.
Qed.

Definition string_entries (l : list (list Z * list Z)) : list entry := map (fun e => (fst e, v_string (snd e))) l.
Definition safe_entries (l : list (list Z * list Z)) : Prop := Forall (fun e => safe (fst e) /\ safe (snd e)) l.
Lemma safe_no_bracket s : safe s -> Forall no_bracket s.
Proof. intros Hs. eapply Forall_impl; [exact Hs|]. by intros c (H & _)%safe_char_spec. Qed.
Lemma escape_no_bracket s : safe s -> Forall no_bracket (escape_string s).
Proof.
  intros Hs. unfold escape_string. rewrite safe_escape by done. assert (no_bracket 34) by (unfold no_bracket; lia).
  repeat (apply Forall_cons; split; [done|]). apply Forall_app. split; [by apply safe_no_bracket|by apply Forall_singleton].
Qed.
Lemma entries_no_bracket f l : safe_entries l ->
  Forall no_bracket (separated (map (entry_text f) (string_entries l))).
Proof.
  intros Hl. assert (Hone : forall e, safe (fst e) /\ safe (snd e) -> Forall no_bracket (entry_text f (fst e, v_string (snd e)))).
  { intros e [H1 H2]. unfold entry_text. cbn [fst snd to_stream]. apply Forall_app. split; [by apply escape_no_bracket|].
    apply Forall_app. split; [repeat constructor; lia|by apply escape_no_bracket]. }
  destruct Hl as [|e l He Hl]; [constructor|]. cbn [string_entries map separated]. apply Forall_app. split; [by apply Hone|].
  induction Hl as [|e' l He' Hl IH]; cbn [flat_map map app]; [constructor|].
  apply Forall_cons. split; [unfold no_bracket; lia|]. apply Forall_app. split; [by apply Hone|exact IH].
Qed.
Lemma plain_strings f l : safe_entries l -> plain f (v_object (string_entries l)).
Proof.
  induction 1 as [|e l [H1 H2] Hl IH]; [done|]. cbn. split; [|exact IH]. split; by apply safe_printable.
Qed.
Lemma c_str_above s : Forall (fun c => 32 <= c) s -> c_str s = s.
Proof. induction 1 as [|c s Hc Hs IH]; [done|]. cbn. destruct (Z.eqb_spec c 0); [lia|]. by rewrite IH. Qed.

(** An object of strings reads back from its text. *)
Lemma string_object_reads_back f l : safe_entries l ->
  parse_json (to_string f (v_object (string_entries l))) = Ok (v_object (string_entries l)).
Proof.
  intros Hl. set (v := v_object _). pose proof (entries_no_bracket f l Hl) as Hb.
  assert (Et : to_string f v = 123 :: separated (map (entry_text f) (string_entries l)) ++ [125]) by done.
  assert (Hc : c_str (to_string f v) = to_string f v).
  { apply c_str_above. rewrite Et. apply Forall_cons. split; [lia|]. apply Forall_app. split; [|repeat constructor; lia].
    eapply Forall_impl; [exact Hb|]. by intros c (H & _). }
  unfold parse_json. rewrite Hc. unfold from_string.
  assert (Hd : check_string_depth (to_string f v) = true).
  { rewrite Et. unfold check_string_depth. cbn [check_depth_from brackets Z.eqb]. cbn. by rewrite no_bracket_depth. }
  rewrite Hd. pose proof (plain_reads_back f v (plain_strings f l Hl) [] (S (2 * length (to_string f v))) I ltac:(unfold to_string; lia)) as H.
  rewrite app_nil_r in H. unfold to_string in *. by rewrite H.
Qed.

(** ** The texts of bytes and keys are plain *)
Lemma forall_below (n : nat) (P : Z -> bool) : forallb (fun k => P (Z.of_nat k)) (seq 0 n) = true ->
  forall x, 0 <= x < Z.of_nat n -> P x = true.
Proof.
  intros H x Hx. pose proof (proj1 (forallb_forall _ _) H (Z.to_nat x) ltac:(apply in_seq; lia)) as E.
  cbv beta in E. by rewrite Z2Nat.id in E by lia.
Qed.
Lemma to_hex_safe d : bytes d -> safe (to_hex d).
Proof.
  assert (Hh : forall x, 0 <= x < 16 -> safe_char (hex_digit x) = true).
  { apply (forall_below 16 (fun x => safe_char (hex_digit x))). vm_compute. reflexivity. }
  intros Hd. unfold safe, to_hex. induction Hd as [|c d Hc Hd IH]; [constructor|]. cbn [flat_map app].
  repeat (apply Forall_cons; split); [| |exact IH].
  - apply Hh. rewrite Z.shiftr_div_pow2 by lia. split; [apply Z.div_pos; lia|apply Z.div_lt_upper_bound; lia].
  - apply Hh. change 0x0f with (Z.ones 4). rewrite Z.land_ones by lia. apply Z.mod_pos_bound. lia.
Qed.
Lemma to_base58_safe d : bytes d -> safe (to_base58 d).
Proof.
  intros Hd. destruct (leading_split 0 d) as (t & E & Ht).
  unfold to_base58. rewrite (EncodeBase58_text d t _ E Ht).
  assert (Hbt : Forall (fun d => 0 <= d < 256) t) by (unfold bytes in Hd; rewrite E in Hd; by apply Forall_app in Hd as [_ Hd]).
  pose proof (leading_none_normal 256 t Hbt Ht) as Hn. pose proof (value_nonneg 256 (rev t) ltac:(lia) (proj1 Hn)) as Hv.
  destruct (digits_of_spec 58 _ ltac:(lia) Hv) as [[Hn58 _] _].
  apply Forall_map, Forall_app. split; [|apply Forall_rev; eapply Forall_impl; [exact Hn58|]].
  - apply Forall_forall. intros x ->%list_elem_of_In%repeat_spec. vm_compute. reflexivity.
  - cbv beta. apply (forall_below 58 (fun x => safe_char (base58_char x))). vm_compute. reflexivity.
Qed.

(** ** Keys *)
Lemma be_bytes_length n v : length (be_bytes n v) = n.
Proof. revert v. induction n as [|n IH]; intros v; [done|]. cbn [be_bytes]. rewrite length_app, IH. cbn. lia. Qed.
Lemma be_bytes_bytes n v : bytes (be_bytes n v).
Proof.
  revert v. induction n as [|n IH]; intros v; [constructor|]. cbn [be_bytes]. apply Forall_app. split; [apply IH|].
  repeat constructor; apply Z.mod_pos_bound; lia.
Qed.
Lemma be_value_bytes n v : 0 <= v < 256 ^ Z.of_nat n -> be_value (be_bytes n v) = v.
Proof.
  revert v. induction n as [|n IH]; intros v Hv; [cbn in *; lia|]. rewrite Nat2Z.inj_succ, Z.pow_succ_r in Hv by lia.
  cbn [be_bytes]. unfold be_value in *. rewrite fold_left_app. rewrite IH.
  - cbn. pose proof (Z.div_mod v 256). lia.
  - split; [apply Z.div_pos; lia|apply Z.div_lt_upper_bound; lia].
Qed.
Definition key_range (k : public_key_type) : Prop := 0 <= k < 256 ^ 33.
Lemma unpacks_public_key k : key_range k -> unpacks unpack_public_key (pack_public_key k) k.
Proof.
  intros Hk. unfold unpack_public_key, pack_public_key. rewrite <- (be_value_bytes 33 k) at 2 by exact Hk.
  apply unpacks_map with (f := be_value). rewrite <- (be_bytes_length 33 k) at 1. apply unpacks_read.
Qed.

(** ** What is put into an operation reads back *)
Lemma find_entry_here k v l : c_str k = k -> find_entry k ((k, v) :: l) = Some v.
Proof. intros Hk. unfold find_entry. cbn [List.find]. unfold same_key at 1. cbn [fst]. by rewrite Hk, bool_decide_true. Qed.
Lemma find_entry_there k k' v l : k' <> c_str k -> find_entry k ((k', v) :: l) = find_entry k l.
Proof. intros Hk. unfold find_entry. cbn [List.find]. unfold same_key at 1. cbn [fst]. by rewrite bool_decide_false. Qed.
Record meta_ok (m : group_meta) : Prop := MetaOk {
  meta_sender : forall k, gm_sender m = Some k -> key_range k;
  meta_recipient : forall k, gm_recipient m = Some k -> key_range k;
  meta_iv : forall iv, gm_iv m = Some iv -> length iv = 32%nat /\ bytes iv;
  meta_data : bytes (gm_data m) }.

Section variants.
  Context `{ripemd160_laws}.
Lemma key_variant_reads_back k : key_range k -> key_from_variant (key_to_variant k) = Ok k.
Proof.
  intros Hk. unfold key_from_variant, key_to_variant. cbn [as_string mbind res_bind].
  pose proof (public_key_from_bytes (be_bytes 33 k) [] (be_bytes_length 33 k) (be_bytes_bytes 33 k) (Forall_nil_2 _)) as E.
  rewrite app_nil_r in E. unfold public_key_to_string. rewrite E. cbn [mbind res_bind]. by rewrite be_value_bytes.
Qed.
Lemma key_text_safe k : safe (public_key_to_string (be_bytes 33 k)).
Proof.
  apply Forall_app. split; [by repeat constructor|]. apply to_base58_safe, Forall_app. split; [apply be_bytes_bytes|apply pack_u32_bytes].
Qed.

(** The strings of a message. *)
Definition meta_strings (m : group_meta) : list (list Z * list Z) :=
  match gm_sender m with Some k => [(key "sender", public_key_to_string (be_bytes 33 k))] | None => [] end ++
  match gm_recipient m with Some k => [(key "recipient", public_key_to_string (be_bytes 33 k))] | None => [] end ++
  match gm_iv m with Some iv => [(key "iv", to_hex iv)] | None => [] end ++ [(key "data", to_hex (gm_data m))].
Lemma meta_strings_variant m : group_meta_to_variant m = v_object (string_entries (meta_strings m)).
Proof. by destruct m as [[] [] [] ?]. Qed.
Lemma meta_strings_safe m : meta_ok m -> safe_entries (meta_strings m).
Proof.
  intros [_ _ Hiv Hd]. assert (Hk : forall s, forallb safe_char (key s) = true -> safe (key s)).
  { intros s E. apply Forall_forall. intros x Hx%list_elem_of_In. by apply (proj1 (forallb_forall _ _) E). }
  unfold meta_strings. repeat (apply Forall_app; split).
  - destruct (gm_sender m); [|constructor]. apply Forall_singleton. split; [by apply Hk|apply key_text_safe].
  - destruct (gm_recipient m); [|constructor]. apply Forall_singleton. split; [by apply Hk|apply key_text_safe].
  - destruct (gm_iv m) as [iv|]; [|constructor]. apply Forall_singleton. split; [by apply Hk|]. by apply to_hex_safe, Hiv.
  - apply Forall_singleton. split; [by apply Hk|by apply to_hex_safe].
Qed.
Lemma sha256_variant_reads_back d : length d = 32%nat -> bytes d -> sha256_from_variant (vector_to_variant d) = Ok d.
Proof.
  intros Hl Hd. unfold sha256_from_variant. rewrite vector_variant_reads_back by done. cbn [mbind res_bind].
  by rewrite <- Hl, take_app_length.
Qed.
Ltac entry := repeat first [rewrite find_entry_here by done | rewrite find_entry_there by done].
Lemma group_meta_reads_back m : meta_ok m ->
  parse_json (to_string legacy_generator (group_meta_to_variant m)) = Ok (group_meta_to_variant m) /\
  group_meta_from_variant (group_meta_to_variant m) = Ok m.
Proof.
  intros Hm. split; [rewrite meta_strings_variant; by apply string_object_reads_back, meta_strings_safe|].
  destruct m as [sender recipient iv d]. destruct Hm as [Hs Hr Hiv Hd]. cbn in Hs, Hr, Hiv, Hd.
  unfold group_meta_from_variant, group_meta_to_variant. cbn [get_object mbind res_bind gm_sender gm_recipient gm_iv gm_data].
  unfold optional_at.
  destruct sender as [s|], recipient as [r|], iv as [iv|]; cbn [optional_entry app]; entry;
    unfold key_to_variant, vector_to_variant in *; try fold (key_to_variant s); try fold (key_to_variant r);
    try fold (vector_to_variant iv); fold (vector_to_variant d);
    rewrite ?key_variant_reads_back by auto; cbn [mbind res_bind];
    rewrite ?sha256_variant_reads_back by (by apply Hiv); cbn [mbind res_bind];
    rewrite ?vector_variant_reads_back by done; reflexivity.
Qed.
End variants.

(** ** Packing: what is unpacked from the bytes that were packed *)
Definition packs {A} (m : stream A) (bs : list Z) (x : A) : Prop := unpacks m bs x /\ bytes bs.
Lemma packs_bind {A B} (m : stream A) (f : A -> stream B) bs cs x y :
  packs m bs x -> packs (f x) cs y -> packs (x ← m; f x) (bs ++ cs) y.
Proof. intros [H1 B1] [H2 B2]. split; [by eapply unpacks_bind|by apply Forall_app]. Qed.
Lemma packs_ret {A} (x : A) : packs (mret x) [] x.
Proof. split; [apply unpacks_ret|constructor]. Qed.
Lemma packs_map {A B} (m : stream A) (f : A -> B) bs x : packs m bs x -> packs (x ← m; mret (f x)) bs (f x).
Proof. intros [H1 B1]. split; [by apply unpacks_map|done]. Qed.
Lemma packs_u32 v : 0 <= v < 2^32 -> packs unpack_u32 (pack_u32 v) v.
Proof. intros Hv. split; [by apply unpacks_u32|apply pack_u32_bytes]. Qed.
Lemma pack_varint_bytes n v : 0 <= v -> bytes (pack_varint_fuel n v).
Proof.
  revert v. induction n as [|n IH]; intros v Hv; [constructor|]. cbn [pack_varint_fuel].
  assert (Hb : 0 <= Z.land v 0x7f < 128) by (change 0x7f with (Z.ones 7); rewrite Z.land_ones by lia; by apply Z.mod_pos_bound).
  destruct (_ >? 0).
  - constructor; [|apply IH, Z.shiftr_nonneg; lia].
    assert (E : Z.lor (Z.land v 0x7f) 0x80 = Z.land v 0x7f + 0x80).
    { destruct (testbit_7 _ Hb) as (H0 & _). pose proof (Z.add_lor_land (Z.land v 0x7f) 0x80). lia. }
    rewrite E. lia.
  - repeat constructor; lia.
Qed.
Lemma packs_unsigned_int v : 0 <= v < 2^32 -> packs unpack_unsigned_int (pack_unsigned_int v) v.
Proof. intros Hv. split; [by apply unpacks_unsigned_int|apply pack_varint_bytes; lia]. Qed.
Lemma packs_bool b : packs unpack_bool (pack_bool b) b.
Proof. split; [by destruct b|]. destruct b; repeat constructor; lia. Qed.
Lemma packs_public_key k : key_range k -> packs unpack_public_key (pack_public_key k) k.
Proof. intros Hk. split; [by apply unpacks_public_key|apply be_bytes_bytes]. Qed.

Record short (s : list Z) : Prop := Short { short_length : Z.of_nat (length s) < MAX_ARRAY_ALLOC_SIZE; short_bytes : bytes s }.
Lemma packs_string s : short s -> packs unpack_string (pack_string s) s.
Proof.
  intros [Hl Hb]. split; [by apply unpacks_string|]. apply Forall_app. split; [|done]. apply pack_varint_bytes, u32_range.
Qed.
Lemma packs_optional {A} (m : stream A) (pack : A -> list Z) v :
  (forall x, v = Some x -> packs m (pack x) x) -> packs (unpack_optional m) (pack_optional pack v) v.
Proof.
  intros Hv. unfold unpack_optional, pack_optional. destruct v as [x|].
  - eapply packs_bind; [apply packs_bool|]. apply packs_map with (f := Some). by apply Hv.
  - rewrite <- (app_nil_r (pack_bool false)). eapply packs_bind; [apply packs_bool|apply packs_ret].
Qed.
(** A vector whose elements were packed one by one. *)
Lemma packs_vector_of {A} (m : stream A) sizeof xs bs : packs (repeat_unpack (length xs) m) bs xs -> 1 <= sizeof ->
  Z.of_nat (length xs) * sizeof < MAX_ARRAY_ALLOC_SIZE ->
  packs (unpack_vector sizeof m) (pack_unsigned_int (u32 (Z.of_nat (length xs))) ++ bs) xs.
Proof.
  intros Hxs Hs Hl. unfold unpack_vector. unfold MAX_ARRAY_ALLOC_SIZE in *.
  assert (0 <= Z.of_nat (length xs) < 2^32) by nia. unfold u32. rewrite Z.mod_small by lia.
  eapply packs_bind; [apply packs_unsigned_int; lia|]. rewrite (proj2 (Z.ltb_lt _ _)) by lia.
  rewrite Nat2Z.id. destruct Hxs as [Hu Hb]. split; [|done]. intros rest.
  unfold fc_assert, sophiatx_assert, mbind, ST_bind, mret, ST_ret. apply Hu.
Qed.

Definition text_wrapper (text : list Z) : message_wrapper := MessageWrapper message_type_message (Some text) None.
(** A message that can be packed and unpacked. *)
Definition transmits (w : message_wrapper) : Prop :=
  exists bs, pack_wrapper w = Ok bs /\ bs <> [] /\ packs unpack_wrapper bs w.
Lemma text_transmits text : short text -> transmits (text_wrapper text).
Proof.
  intros Ht. eexists. split; [reflexivity|]. split; [done|]. unfold unpack_wrapper.
  eapply packs_bind; [by apply packs_u32|]. eapply packs_bind.
  - apply (packs_optional unpack_string pack_string (Some text)). intros x [= <-]. by apply packs_string.
  - apply packs_map with (f := MessageWrapper message_type_message (Some text)).
    by apply (packs_optional unpack_group_op (fun _ => []) None).
Qed.

(** Names that have a text, and read back from it. *)
Definition readable (n : account_name_type) : Prop :=
  exists s, string_of_name n = Ok s /\ short (normalize_to_base64 s) /\ fixed_string (normalize_to_base64 s) = n.
Lemma packs_name n : readable n -> exists bs, pack_name n = Ok bs /\ packs unpack_name bs n.
Proof.
  intros (s & Es & Hs & En). unfold pack_name. rewrite Es. cbn [mbind res_bind]. eexists. split; [done|].
  unfold unpack_name. rewrite <- En. by apply packs_map with (f := fixed_string), packs_string.
Qed.
Lemma packs_names ns : Forall readable ns ->
  exists bs, pack_names ns = Ok bs /\ packs (repeat_unpack (length ns) unpack_name) bs ns.
Proof.
  induction 1 as [|n ns Hn Hns (bs & E & Hb)]; [exists []; split; [done|apply packs_ret]|].
  destruct (packs_name n Hn) as (b & En & Hu). cbn [pack_names]. rewrite En, E. cbn [mbind res_bind]. eexists. split; [done|].
  cbn [repeat_unpack length]. eapply packs_bind; [exact Hu|]. by apply packs_map with (f := fun xs => n :: xs).
Qed.

(** A map in ascending order is rebuilt entry by entry. *)
Definition ascending {V} (m : list (Z * V)) : Prop := StronglySorted (fun a b => fst a < fst b) m.
Lemma map_insert_last {V} k (v : V) m : Forall (fun kv => fst kv < k) m -> map_insert k v m = m ++ [(k, v)].
Proof.
  induction 1 as [|[k' v'] m Hk Hm IH]; [done|]. cbn [fst] in Hk. cbn [map_insert app].
  destruct (Z.ltb_spec k k'); [lia|]. destruct (Z.eqb_spec k k'); [lia|]. by rewrite IH.
Qed.
Lemma insert_ascending {V} (m acc : list (Z * V)) : ascending (acc ++ m) ->
  foldl (fun m kv => map_insert (fst kv) (snd kv) m) acc m = acc ++ m.
Proof.
  revert acc. induction m as [|[k v] m IH]; intros acc Hs; cbn [foldl fst snd]; [by rewrite app_nil_r|].
  rewrite map_insert_last.
  - rewrite IH by (by rewrite <- app_assoc). by rewrite <- app_assoc.
  - clear IH. induction acc as [|[k' v'] acc IH]; [constructor|]. apply StronglySorted_inv in Hs as [Hs Hf].
    constructor; [|by apply IH]. cbn. rewrite Forall_app in Hf. destruct Hf as [_ Hf]. by apply Forall_cons_1 in Hf as [? _].
Qed.
Record keys_ok (m : key_map) : Prop := KeysOk {
  keys_ascending : ascending m;
  keys_entries : Forall (fun kv => key_range (fst kv) /\ short (snd kv)) m;
  keys_size : Z.of_nat (length m) * SIZEOF_KEY_AND_VECTOR < MAX_ARRAY_ALLOC_SIZE }.
Lemma packs_key_map m : keys_ok m -> packs unpack_key_map (pack_key_map m) m.
Proof.
  intros [Ha He Hs]. unfold unpack_key_map, pack_key_map. rewrite <- (insert_ascending m [] Ha) at 2.
  apply packs_map with (f := foldl (fun m kv => map_insert (fst kv) (snd kv) m) []).
  apply packs_vector_of; [|by unfold SIZEOF_KEY_AND_VECTOR|done]. clear Ha Hs.
  induction He as [|[k v] m [Hk Hv] He IH]; [apply packs_ret|]. cbn [length repeat_unpack map concat fst snd] in *.
  eapply packs_bind; [|by apply packs_map with (f := fun xs => (k, v) :: xs)].
  eapply packs_bind; [by apply packs_public_key|]. by apply packs_map with (f := fun v => (k, v)), packs_string.
Qed.

Record op_ok (g : group_op) : Prop := OpOk {
  op_version : 0 <= version_ g < 2^32;
  op_type : short (type_ g);
  op_description : short (description g);
  op_name : forall n, new_group_name g = Some n -> readable n;
  op_users : forall l, user_list g = Some l -> Forall readable l /\ Z.of_nat (length l) * SIZEOF_NAME < MAX_ARRAY_ALLOC_SIZE;
  op_sender : key_range (senders_pubkey g);
  op_keys : keys_ok (new_key g) }.
Definition op_wrapper (g : group_op) : message_wrapper := MessageWrapper message_type_group_operation None (Some g).
Lemma packs_group_op g : op_ok g -> exists bs, pack_group_op g = Ok bs /\ packs unpack_group_op bs g.
Proof.
  intros [Hv Ht Hd Hn Hu Hs Hk]. destruct g as [version type descr name users sender keys]. cbn in *.
  assert (Hname : exists bn, pack_optional_name name = Ok bn /\ packs (unpack_optional unpack_name) bn name).
  { destruct name as [n|].
    - destruct (packs_name n (Hn n eq_refl)) as (b & E & Hb). cbn [pack_optional_name]. rewrite E. eexists. split; [done|].
      apply (packs_optional unpack_name (fun _ => b) (Some n)). by intros x [= <-].
    - eexists. split; [done|]. by apply (packs_optional unpack_name (fun _ => []) None). }
  assert (Husers : exists bu, pack_optional_names users = Ok bu /\ packs (unpack_optional (unpack_vector SIZEOF_NAME unpack_name)) bu users).
  { destruct users as [l|].
    - destruct (Hu l eq_refl) as [Hr Hl]. destruct (packs_names l Hr) as (b & E & Hb). cbn [pack_optional_names]. rewrite E. eexists. split; [done|].
      apply (packs_optional (unpack_vector SIZEOF_NAME unpack_name) (fun _ => pack_unsigned_int (u32 (Z.of_nat (length l))) ++ b) (Some l)).
      intros x [= <-]. by apply packs_vector_of.
    - eexists. split; [done|]. by apply (packs_optional (unpack_vector SIZEOF_NAME unpack_name) (fun _ => []) None). }
  destruct Hname as (bn & En & Hbn). destruct Husers as (bu & Eu & Hbu).
  unfold pack_group_op. cbn [new_group_name user_list]. rewrite En. cbn [mbind res_bind]. rewrite Eu. cbn [mbind res_bind].
  eexists. split; [done|]. unfold unpack_group_op.
  eapply packs_bind; [by apply packs_u32|]. eapply packs_bind; [by apply packs_string|].
  eapply packs_bind; [exact Hbn|]. eapply packs_bind; [by apply packs_string|].
  eapply packs_bind; [exact Hbu|]. eapply packs_bind; [by apply packs_public_key|].
  apply packs_map with (f := GroupOp version type descr name users sender). by apply packs_key_map.
Qed.
Lemma op_transmits g : op_ok g -> transmits (op_wrapper g).
Proof.
  intros Hg. destruct (packs_group_op g Hg) as (b & E & Hb). unfold transmits, pack_wrapper. cbn [operation_data op_wrapper message_data wrapped_type].
  rewrite E. cbn [mbind res_bind]. eexists. split; [done|]. split; [done|]. unfold unpack_wrapper.
  eapply packs_bind; [by apply packs_u32|].
  eapply packs_bind; [by apply (packs_optional unpack_string pack_string None)|].
  apply packs_map with (f := MessageWrapper message_type_group_operation None).
  apply (packs_optional unpack_group_op (fun _ => b) (Some g)). by intros x [= <-].
Qed.

(** ** Encryption *)
Section encryption.
  Context `{cipher_laws}.
Lemma aes_reads_back k iv m : bytes m -> aes_decrypt k iv (aes_encrypt k iv m) = Ok m.
Proof. intros Hm. unfold aes_decrypt, aes_encrypt. by rewrite evp_decrypts. Qed.
Lemma aes_512_reads_back k m : bytes m -> aes_decrypt_512 k (aes_encrypt_512 k m) = Ok m.
Proof. apply aes_reads_back. Qed.
(** A message is read by who has the key. *)
Lemma message_reads_back w iv k : transmits w ->
  exists c, encode_message w iv k = Ok c /\ decode_message c iv k = Ok w /\ bytes c.
Proof.
  intros (bs & E & Hne & Hu & Hb). unfold encode_message, decode_message. rewrite E. cbn [mbind res_bind]. eexists. split; [done|].
  rewrite aes_reads_back by done. cbn [mbind res_bind]. split; [by apply unpack_from_vector_packed|by apply evp_bytes].
Qed.
Lemma message_512_reads_back w k : transmits w ->
  exists c, encode_message_512 w k = Ok c /\ decode_message_512 c k = Ok w /\ bytes c.
Proof.
  intros (bs & E & Hne & Hu & Hb). unfold encode_message_512, decode_message_512. rewrite E. cbn [mbind res_bind]. eexists. split; [done|].
  rewrite aes_512_reads_back by done. cbn [mbind res_bind]. split; [by apply unpack_from_vector_packed|by apply evp_bytes].
Qed.
(** Both ends compute the same secret. *)
Lemma shared_secret_agrees a b pa pb : get_public_key a = Ok pa -> get_public_key b = Ok pb ->
  exists s, get_shared_secret a pb = Ok s /\ get_shared_secret b pa = Ok s.
Proof.
  unfold get_public_key, get_shared_secret. intros Ha Hb. apply rbind_Ok in Ha as ([] & Hna & Ha). apply rbind_Ok in Hb as ([] & Hnb & Hb).
  destruct (pubkey_create a) as [pa'|] eqn:Ea; [|done]. injection Ha as ->. destruct (pubkey_create b) as [pb'|] eqn:Eb; [|done]. injection Hb as ->.
  pose proof (pubkey_range a pa Ea). pose proof (pubkey_range b pb Eb). rewrite Hna, Hnb. cbn [mbind res_bind].
  unfold null_key. destruct (Z.eqb_spec pa 0); [lia|]. destruct (Z.eqb_spec pb 0); [lia|]. cbn [negb fc_assert sophiatx_assert].
  destruct (tweak_commutes a b pa pb Ea Eb) as (p & E1 & E2). exists (sha512_hash (drop 1 (be_bytes 33 p))).
  cbn [mbind res_bind mret res_ret]. by rewrite E1, E2.
Qed.
End encryption.
