(* ===== verification/GroupFacts.v ===== *)
(** * GroupFacts: the tables of groups, and what an operation does to them *)
From Stdlib Require Import String.
From S2P Require Import Prelude Safe Names Asset Double AssetText Json Version Config Authority Raw KeyText Operations PluginState Messages.
From S2P Require Import MessageFacts GroupMessaging GroupApi.
Local Open Scope Z_scope.
Local Open Scope list_scope.

(** ** Groups are found by their names *)
Record groups_ok (d : groups_db) : Prop := GroupsOk {
  ids_below_next : forall id g, groups d !! id = Some g -> id < next_group_id d;
  current_names_unique : forall i j g h, groups d !! i = Some g -> groups d !! j = Some h ->
    data (current_group_name g) = data (current_group_name h) -> i = j;
  names_unique : forall i j g h, groups d !! i = Some g -> groups d !! j = Some h ->
    data (group_name g) = data (group_name h) -> i = j }.

Lemma group_where_Some P d id g : group_where P d = Some (id, g) -> groups d !! id = Some g /\ P g = true.
Proof.
  unfold group_where. intros H. assert (Hin : (id, g) ∈ List.filter (fun kg => P (snd kg)) (map_to_list (groups d))).
  { destruct (List.filter _ _); [done|]. injection H as ->. apply list_elem_of_here. }
  apply list_elem_of_In, filter_In in Hin as [Hin HP]. split; [|done].
  by apply elem_of_map_to_list, list_elem_of_In.
Qed.
Lemma group_where_None P d : group_where P d = None <-> forall id g, groups d !! id = Some g -> P g = false.
Proof.
  unfold group_where. split.
  - intros H id g Hg. destruct (P g) eqn:E; [|done].
    assert (Hin : In (id, g) (List.filter (fun kg => P (snd kg)) (map_to_list (groups d)))).
    { apply filter_In. split; [|done]. by apply list_elem_of_In, elem_of_map_to_list. }
    by destruct (List.filter _ _).
  - intros H. destruct (List.filter _ _) as [|[id g] l] eqn:E; [done|].
    assert (Hin : In (id, g) (List.filter (fun kg => P (snd kg)) (map_to_list (groups d)))) by (rewrite E; by left).
    apply filter_In in Hin as [Hin HP]. apply list_elem_of_In, elem_of_map_to_list in Hin. cbn in HP. by rewrite (H id g Hin) in HP.
Qed.
Lemma called_group d name id g : groups_ok d -> groups d !! id = Some g -> data (current_group_name g) = data name ->
  group_where (called name) d = Some (id, g).
Proof.
  intros Hok Hg Hn. destruct (group_where (called name) d) as [[j h]|] eqn:E.
  - apply group_where_Some in E as [Hh Hc]. apply name_eqb_eq in Hc.
    assert (j = id) as -> by (eapply current_names_unique; [done..|congruence]). congruence.
  - rewrite group_where_None in E. specialize (E id g Hg). unfold called in E. by rewrite (proj2 (name_eqb_eq _ _) Hn) in E.
Qed.
Lemma clashes_spec id g d : clashes id g d = true <->
  exists j h, j <> id /\ groups d !! j = Some h /\ data (current_group_name h) = data (current_group_name g).
Proof.
  unfold clashes. rewrite existsb_exists. split.
  - intros ([j h] & Hin & Hc). apply list_elem_of_In, elem_of_map_to_list in Hin. apply andb_true_iff in Hc as [Hj Hc]. cbn in *.
    exists j, h. split_and!; [lia|done|by apply name_eqb_eq].
  - intros (j & h & Hj & Hh & Hc). exists (j, h). split; [by apply list_elem_of_In, elem_of_map_to_list|]. cbn.
    apply andb_true_iff. split; [lia|by apply name_eqb_eq].
Qed.
Lemma same_name_no_clash d id g g' : groups_ok d -> groups d !! id = Some g ->
  data (current_group_name g') = data (current_group_name g) -> clashes id g' d = false.
Proof.
  intros Hok Hg Hn. apply not_true_iff_false. rewrite clashes_spec. intros (j & h & Hj & Hh & Hc).
  apply Hj. eapply current_names_unique; [done..|congruence].
Qed.
Lemma clashes_messages id g d f : clashes id g (d <| messages ::= f |>) = clashes id g d.
Proof. done. Qed.

(** A message is stored under the sequence number of its group, which goes up. *)
Definition with_message (id : Z) (g : group_object) (sender : account_name_type) (system : bool) (text : list Z) (d : groups_db) : groups_db :=
  d <| messages ::= <[(data (group_name g), current_seq g) := Message sender (members g) text system]> |>
    <| groups ::= <[id := g <| current_seq ::= fun n => u32 (n + 1) |>]> |>.
Lemma save_message_spec d id g sender system text : groups_ok d -> groups d !! id = Some g ->
  messages d !! (data (group_name g), current_seq g) = None ->
  save_message id sender system text d = (with_message id g sender system text d, Ok tt).
Proof.
  intros Hok Hg Hm. unfold save_message, get_group, mbind, KST_bind, k_gets, k_puts. rewrite Hg, Hm. cbv beta iota.
  set (d1 := d <| messages ::= _ |>). unfold modify_group. assert (E : groups d1 = groups d) by done. rewrite E, Hg.
  assert (Ec : clashes id (g <| current_seq ::= fun n => u32 (n + 1) |>) d1 = clashes id (g <| current_seq ::= fun n => u32 (n + 1) |>) d) by done.
  by rewrite Ec, (same_name_no_clash d id g).
Qed.

(** ** Invitations *)
Lemma map_find_assign {V} x k (v : V) m : map_find x (map_assign k v m) = if x =? k then Some v else map_find x m.
Proof.
  induction m as [|[k' v'] m IH]; cbn [map_assign map_find]; [done|]. destruct (Z.ltb_spec k k'); cbn [map_find]; [done|].
  destruct (Z.eqb_spec k k') as [->|Hne]; cbn [map_find]; [by destruct (x =? k')|]. rewrite IH.
  destruct (Z.eqb_spec x k') as [->|]; [|done]. by destruct (Z.eqb_spec k' k); [lia|].
Qed.

Section invitations.
  Context {C : ciphers} {CL : cipher_laws} {X : externals} {RL : ripemd160_laws}.
  Context (get_account : account_name_type -> res api_account).

Lemma invitations_find secret from k op ms ret0 ret x meta : invitations get_account secret from k op ms ret0 = Ok ret ->
  map_find x ret = Some meta ->
  map_find x ret0 = Some meta \/ exists m n, m ∈ ms /\ invitation get_account secret from k op m = Ok (n, meta) /\ data n = x.
Proof.
  revert ret0. induction ms as [|m ms IH]; intros ret0; cbn [invitations]; [intros [= <-]; by left|].
  intros ([n meta'] & Hi & H)%rbind_Ok Hx. cbn [fst snd] in H. destruct (IH _ H Hx) as [Hf|(m' & n' & Hin & H1 & H2)].
  - rewrite map_find_assign in Hf. destruct (Z.eqb_spec x (data n)) as [->|]; [|by left]. injection Hf as ->.
    right. exists m, n. split; [apply list_elem_of_here|done].
  - right. exists m', n'. split; [by apply list_elem_of_further|done].
Qed.

(** The private keys of a plugin are those of its public keys. *)
Definition keys_sound (pks : list (public_key_type * list Z)) : Prop := Forall (fun pk => get_public_key (snd pk) = Ok (fst pk)) pks.
Lemma map_find_In {V} k (m : list (Z * V)) v : map_find k m = Some v -> (k, v) ∈ m.
Proof.
  induction m as [|[k' v'] m IH]; cbn [map_find]; [done|]. destruct (Z.eqb_spec k k') as [->|]; [intros [= ->]; apply list_elem_of_here|].
  intros H. by apply list_elem_of_further, IH.
Qed.
Lemma private_key_public p k secret : keys_sound (mpm_private_keys p) -> private_key_of p k = Some secret -> get_public_key secret = Ok k.
Proof. intros Hs H. apply map_find_In in H. by apply (proj1 (Forall_forall _ _) Hs) in H. Qed.

(** [from] invites [memo]: the two private keys, of which either node has one. *)
Section two_ends.
  Context (sk mk : list Z) (from memo : public_key_type) (sc k : list Z).
  Hypothesis Hsk : get_public_key sk = Ok from.
  Hypothesis Hmk : get_public_key mk = Ok memo.
  Hypothesis Hsc : get_shared_secret sk memo = Ok sc.
  Hypothesis Hk : length k = 32%nat.
  Hypothesis Hkb : bytes k.

Lemma secret_of_member secret : get_public_key secret = Ok memo -> get_shared_secret secret from = Ok sc.
Proof. intros H. destruct (shared_secret_agrees sk secret from memo Hsk H) as (s & E1 & E2). congruence. Qed.
Lemma secret_of_sender secret : get_public_key secret = Ok from -> get_shared_secret secret memo = Ok sc.
Proof.
  intros H. destruct (shared_secret_agrees secret mk from memo H Hmk) as (s & E1 & E2).
  rewrite (secret_of_member mk Hmk) in E2. congruence.
Qed.
Lemma memo_not_null : (memo =? null_key) = false.
Proof.
  unfold get_public_key in Hmk. apply rbind_Ok in Hmk as ([] & _ & H). destruct (pubkey_create mk) as [p|] eqn:E; [|done].
  injection H as ->. apply pubkey_range in E. unfold null_key. apply Z.eqb_neq. lia.
Qed.
Lemma common_secret_is p : keys_sound (mpm_private_keys p) -> private_key_of p memo <> None \/ private_key_of p from <> None ->
  common_secret p from memo = Some (Ok sc).
Proof.
  intros Hs Hor. unfold common_secret. destruct (private_key_of p memo) as [secret|] eqn:E.
  - f_equal. by eapply secret_of_member, private_key_public.
  - destruct (private_key_of p from) as [secret|] eqn:E'; [|by destruct Hor]. f_equal. by eapply secret_of_sender, private_key_public.
Qed.
Lemma key_extracted pks : keys_sound pks -> map_find memo pks <> None \/ map_find from pks <> None ->
  key_from_private_keys pks [(memo, aes_encrypt_512 sc k)] from = Some (Ok k).
Proof.
  induction 1 as [|[pub secret] pks Hp Hs IH]; intros Hor; cbn [key_from_private_keys map_find fst snd] in *; [by destruct Hor|].
  assert (Hdec : forall other, get_shared_secret secret other = Ok sc -> decrypt_key secret other (aes_encrypt_512 sc k) = Ok k).
  { intros other E. unfold decrypt_key. rewrite E. cbn [mbind res_bind]. rewrite aes_512_reads_back by done. cbn [mbind res_bind].
    unfold sha256_of_data. by rewrite Hk. }
  rewrite (Z.eqb_sym pub memo). destruct (Z.eqb_spec memo pub) as [<-|Hmp].
  - f_equal. by apply Hdec, secret_of_member.
  - rewrite (Z.eqb_sym pub from). destruct (Z.eqb_spec from pub) as [<-|Hfp].
    + cbn [skip_null]. rewrite memo_not_null. f_equal. by apply Hdec, secret_of_sender.
    + by apply IH.
Qed.
End two_ends.
End invitations.

(** ** Joining a group *)
Lemma readable_variants ns : Forall readable ns -> exists vs, names_to_variants ns = Ok vs.
Proof.
  induction 1 as [|n ns (s & Es & _) Hns (vs & E)]; [by exists []|]. cbn [names_to_variants]. unfold name_to_variant. rewrite Es, E.
  by eexists.
Qed.
Lemma group_op_has_json `{externals} g : op_ok g -> exists text, group_op_to_json g = Ok text.
Proof.
  intros [_ _ _ Hn Hu _ _]. unfold group_op_to_json, group_op_to_variant.
  destruct (new_group_name g) as [n|]; [destruct (Hn n eq_refl) as (s & Es & _); unfold name_to_variant at 1; rewrite Es|];
    cbn [mbind res_bind]; (destruct (user_list g) as [l|]; [destruct (readable_variants l) as (vs & E); [by apply Hu|rewrite E]|]);
    cbn [mbind res_bind]; by eexists.
Qed.

Section joining.
  Context {C : ciphers} {CL : cipher_laws} {X : externals} {RL : ripemd160_laws}.
(** The group as the invitation describes it, with the invitation as its first message. *)
Definition joined_group (op_sender name : account_name_type) (descr : list Z) (users : list account_name_type) (k : list Z) : group_object :=
  Group name name descr users op_sender k 0.
Definition joined (g : group_object) (text : list Z) (d : groups_db) : groups_db :=
  with_message (next_group_id d) g (admin g) true text (d <| groups ::= <[next_group_id d := g]> |> <| next_group_id ::= Z.add 1 |>).

Lemma groups_ok_create d g : groups_ok d -> group_where (called (current_group_name g)) d = None -> group_where (named (group_name g)) d = None ->
  groups_ok (d <| groups ::= <[next_group_id d := g]> |> <| next_group_id ::= Z.add 1 |>).
Proof.
  intros [Hb Hc Hn] Nc Nn. rewrite group_where_None in Nc, Nn.
  assert (Hcalled : forall j h, groups d !! j = Some h -> data (current_group_name h) <> data (current_group_name g)).
  { intros j h Hj E. specialize (Nc j h Hj). unfold called in Nc. apply name_eqb_eq in E. congruence. }
  assert (Hnamed : forall j h, groups d !! j = Some h -> data (group_name h) <> data (group_name g)).
  { intros j h Hj E. specialize (Nn j h Hj). unfold named in Nn. apply name_eqb_eq in E. congruence. }
  split; cbn.
  - intros id h [[<- _]|[_ Hh]]%lookup_insert_Some; [lia|]. apply Hb in Hh. lia.
  - intros i j a b [[<- <-]|[_ Ha]]%lookup_insert_Some [[<- <-]|[_ Hb']]%lookup_insert_Some E; [done| | |by eapply Hc].
    + by apply Hcalled in Hb'.
    + by apply Hcalled in Ha.
  - intros i j a b [[<- <-]|[_ Ha]]%lookup_insert_Some [[<- <-]|[_ Hb']]%lookup_insert_Some E; [done| | |by eapply Hn].
    + by apply Hnamed in Hb'.
    + by apply Hnamed in Ha.
Qed.

Context (q : mpm_plugin) (op_sender name : account_name_type) (from memo : public_key_type) (sk mk sc k : list Z).
Context (descr : list Z) (users : list account_name_type) (d : groups_db).
Hypothesis Hsk : get_public_key sk = Ok from.
Hypothesis Hmk : get_public_key mk = Ok memo.
Hypothesis Hsc : get_shared_secret sk memo = Ok sc.
Hypothesis Hk : length k = 32%nat.
Hypothesis Hkb : bytes k.
Hypothesis Hknz : k <> empty_sha256.
Hypothesis Hq : keys_sound (mpm_private_keys q).
Hypothesis Hends : private_key_of q memo <> None \/ private_key_of q from <> None.

Definition invite_op : group_op := GroupOp 1 (key "add") descr (Some name) (Some users) from [(memo, aes_encrypt_512 sc k)].
Lemma new_group_known id g : groups d !! id = Some g -> data (current_group_name g) = data name ->
  new_group q op_sender from (op_wrapper invite_op) d = (d, Ok false).
Proof.
  intros Hg Hn. unfold new_group, find_group. cbn [operation_data op_wrapper wrapped_type]. rewrite k_bind_assert by done.
  rewrite k_bind_assert by (cbn [version_ type_ invite_op]; by rewrite bool_decide_true). cbn [new_group_name invite_op]. rewrite k_bind_gets.
  destruct (group_where (called name) d) as [[j h]|] eqn:E; [done|]. rewrite group_where_None in E. specialize (E id g Hg).
  unfold called in E. by rewrite (proj2 (name_eqb_eq _ _) Hn) in E.
Qed.
Lemma new_group_joins : op_ok invite_op -> groups_ok d -> group_where (called name) d = None -> group_where (named name) d = None ->
  messages d !! (data name, 0) = None ->
  exists text, group_op_to_json invite_op = Ok text /\
    new_group q op_sender from (op_wrapper invite_op) d = (joined (joined_group op_sender name descr users k) text d, Ok true).
Proof.
  intros Hop Hok Hc Hn Hm. destruct (group_op_has_json invite_op Hop) as (text & Et). exists text. split; [done|].
  assert (Ex : extract_key q [(memo, aes_encrypt_512 sc k)] empty_sha256 empty_sha256 from = Ok k).
  { unfold extract_key. by rewrite (key_extracted sk mk from memo sc k). }
  pose proof (groups_ok_create d (joined_group op_sender name descr users k) Hok Hc Hn) as Hok'.
  unfold new_group, find_group. cbn [operation_data op_wrapper wrapped_type]. rewrite k_bind_assert by done.
  rewrite k_bind_assert by (cbn [version_ type_ invite_op]; by rewrite bool_decide_true). cbn [new_group_name invite_op].
  rewrite k_bind_gets, Hc. rewrite (k_bind_res _ _ _ k) by done. rewrite k_bind_assert by (by rewrite bool_decide_false).
  rewrite (k_bind_res _ _ _ users) by done.
  rewrite (k_bind_ok _ _ _ (d <| groups ::= <[next_group_id d := joined_group op_sender name descr users k]> |> <| next_group_id ::= Z.add 1 |>)
    (next_group_id d)) by (unfold create_group_object; cbn [group_name current_group_name]; by rewrite Hc, Hn).
  rewrite (k_bind_res _ _ _ text) by done.
  by erewrite k_bind_ok by (apply save_message_spec with (g := joined_group op_sender name descr users k); [done|cbn; by rewrite lookup_insert_eq|done]).
Qed.
End joining.
