(* ===== verification/GroupSafety.v ===== *)
(** * GroupSafety: the groups of a node stay consistent, and are their admins' *)
From Stdlib Require Import String.
From S2P Require Import Prelude Safe Names Asset Double AssetText Json Version Config Authority Raw KeyText Operations PluginState Messages.
From S2P Require Import MessageFacts GroupMessaging GroupApi GroupFacts.
Local Open Scope Z_scope.
Local Open Scope list_scope.

(** The same group, apart from the number of its messages. *)
Definition same_group (g g' : group_object) : Prop :=
  group_name g' = group_name g /\ current_group_name g' = current_group_name g /\ go_description g' = go_description g /\
  members g' = members g /\ admin g' = admin g /\ group_key g' = group_key g.
Lemma same_group_trans a b c : same_group a b -> same_group b c -> same_group a c.
Proof. unfold same_group. intros (?&?&?&?&?&?) (?&?&?&?&?&?). split_and!; congruence. Qed.

Lemma groups_ok_insert d id g g' : groups_ok d -> groups d !! id = Some g -> group_name g' = group_name g ->
  clashes id g' d = false -> groups_ok (d <| groups ::= <[id := g']> |>).
Proof.
  intros [Hb Hc Hn] Hg En Hcl. split; cbn.
  - intros j h [[<- _]|[_ Hh]]%lookup_insert_Some; [by eapply Hb|by eapply Hb].
  - assert (Hno : forall j h, j <> id -> groups d !! j = Some h -> data (current_group_name h) <> data (current_group_name g')).
    { intros j h Hj Hh E. apply not_true_iff_false in Hcl. apply Hcl, clashes_spec. by exists j, h. }
    intros i j a b [[<- <-]|[Hi Ha]]%lookup_insert_Some [[<- <-]|[Hj Hb']]%lookup_insert_Some E; [done| | |by eapply Hc].
    + by destruct (Hno j b).
    + by destruct (Hno i a).
  - intros i j a b [[<- <-]|[_ Ha]]%lookup_insert_Some [[<- <-]|[_ Hb']]%lookup_insert_Some E; [done| | |by eapply Hn].
    + eapply Hn; [done..|congruence].
    + eapply Hn; [done..|congruence].
Qed.
Lemma groups_ok_delete d id : groups_ok d -> groups_ok (d <| groups ::= delete id |>).
Proof.
  intros [Hb Hc Hn]. split; cbn.
  - intros j h [_ Hh]%lookup_delete_Some. by eapply Hb.
  - intros i j a b [_ Ha]%lookup_delete_Some [_ Hb']%lookup_delete_Some. by eapply Hc.
  - intros i j a b [_ Ha]%lookup_delete_Some [_ Hb']%lookup_delete_Some. by eapply Hn.
Qed.

Section safety.
  Context {C : ciphers} {X : externals}.
  Context (sender : account_name_type) (d0 : groups_db).

(** Since [d0] the sender has changed no group but its own. *)
Record own_groups_only (d : groups_db) : Prop := OwnGroupsOnly {
  still_ok : groups_ok d;
  others_kept : forall id g, groups d0 !! id = Some g ->
    (exists g', groups d !! id = Some g' /\ same_group g g') \/ data sender = data (admin g) }.
Local Abbreviation I := own_groups_only.

Lemma own_insert d id g g' : I d -> groups d !! id = Some g -> group_name g' = group_name g -> admin g' = admin g ->
  same_group g g' \/ data sender = data (admin g) -> clashes id g' d = false -> I (d <| groups ::= <[id := g']> |>).
Proof.
  intros [Hok Hk] Hg En Ea Hs Hcl. split; [by eapply groups_ok_insert|]. intros j h Hj. cbn.
  destruct (decide (j = id)) as [->|Hne].
  - destruct (Hk id h Hj) as [(g1 & H1 & Hsame)|]; [|by right]. assert (g1 = g) as -> by congruence. rewrite lookup_insert_eq.
    destruct Hs as [Hs|Hs]; [left; eexists; split; [done|by eapply same_group_trans]|].
    right. destruct Hsame as (_ & _ & _ & _ & E & _). congruence.
  - rewrite lookup_insert_ne by done. by apply Hk.
Qed.
Lemma own_delete d id g : I d -> groups d !! id = Some g -> data sender = data (admin g) -> I (d <| groups ::= delete id |>).
Proof.
  intros [Hok Hk] Hg Hs. split; [by apply groups_ok_delete|]. intros j h Hj. cbn.
  destruct (decide (j = id)) as [->|Hne]; [|rewrite lookup_delete_ne by done; by apply Hk].
  right. destruct (Hk id h Hj) as [(g1 & H1 & (_ & _ & _ & _ & E & _))|]; [|done]. congruence.
Qed.
Lemma own_messages d f : I d -> I (d <| messages ::= f |>).
Proof. intros [[Hb Hc Hn] Hk]. by split. Qed.

(** The admin may do anything to its group but rename it or give it away. *)
Lemma wp_modify_own d id g f : I d -> groups d !! id = Some g -> group_name (f g) = group_name g -> admin (f g) = admin g ->
  data sender = data (admin g) -> wp (modify_group id f) (fun _ d' => I d' /\ groups d' !! id = Some (f g)) I d.
Proof.
  intros Hd Hg En Ea Hs. unfold wp, modify_group. rewrite Hg. destruct (clashes id (f g) d) eqn:E.
  - by eapply own_delete.
  - split; [by eapply own_insert; [..|right|]|]. cbn. by rewrite lookup_insert_eq.
Qed.
Lemma wp_save_message d id who system text : I d -> wp (save_message id who system text) (fun _ => I) I d.
Proof.
  intros Hd. unfold save_message. apply wp_bind. unfold wp at 1, get_group. destruct (groups d !! id) as [g|] eqn:Hg; [|done].
  apply wp_bind, wp_gets, wp_bind. destruct (messages d !! _); [by apply wp_throw|]. apply wp_puts.
  set (d1 := d <| messages ::= _ |>). assert (Hd1 : I d1) by (by apply own_messages). assert (Hg1 : groups d1 !! id = Some g) by done.
  unfold wp, modify_group. rewrite Hg1, (same_name_no_clash d1 id g) by (done || apply Hd1).
  eapply own_insert; [done..|left; by split_and!|]. apply (same_name_no_clash d1 id g); [apply Hd1|done..].
Qed.

Lemma wp_group_operation p d id g iv content : I d -> groups d !! id = Some g ->
  wp (group_operation p sender id g iv content) (fun _ => I) I d.
Proof.
  intros Hd Hg. unfold group_operation. destruct (operation_data content) as [g_op|]; [|by apply wp_throw].
  apply wp_bind, wp_assert; [|done]. intros [_ Ha]%andb_true_iff. apply name_eqb_eq in Ha.
  apply wp_bind, wp_res; [|done]. intros k _. apply wp_bind.
  apply (wp_mono _ (fun _ => I) (fun _ d' => wp _ (fun _ => I) I d') I I).
  - destruct (bool_decide (type_ g_op = key "disband")).
    + eapply wp_mono; [by eapply wp_modify_own| |done]. by intros [] ? [? _].
    + destruct (bool_decide (type_ g_op = key "update")); [|by apply wp_throw].
      apply wp_bind, wp_res; [|done]. intros users _. eapply wp_mono; [eapply wp_modify_own; try done| |done].
      * by destruct (new_group_name g_op), (bool_decide _), (description g_op).
      * by destruct (new_group_name g_op), (bool_decide _), (description g_op).
      * by intros [] ? [? _].
  - intros [] d' Hd'. apply wp_bind, wp_res; [|done]. intros text _. by apply wp_save_message.
  - done.
Qed.
Lemma wp_to_group p cipher iv r d : I d -> wp (to_group p sender cipher iv r) (fun _ => I) I d.
Proof.
  intros Hd. unfold to_group, find_group. apply wp_bind, wp_gets. destruct (group_where _ d) as [[id g]|] eqn:E; [|done].
  apply group_where_Some in E as [Hg _]. apply wp_bind, wp_res; [|done]. intros content _. unfold group_content.
  destruct (wrapped_type content =? message_type_group_operation); [by apply wp_group_operation|].
  destruct (wrapped_type content =? message_type_message); [|by apply wp_ret].
  destruct (message_data content); [by apply wp_save_message|by apply wp_throw].
Qed.

Lemma wp_new_group p from content d : I d -> wp (new_group p sender from content) (fun _ => I) I d.
Proof.
  intros Hd. unfold new_group. destruct (operation_data content) as [g_op|]; [|by apply wp_throw].
  do 2 (apply wp_bind, wp_assert; [intros _|done]). destruct (new_group_name g_op) as [name|]; [|by apply wp_throw].
  apply wp_bind, wp_gets. destruct (group_where _ d) eqn:Ec; [by apply wp_ret|]. apply wp_bind, wp_res; [|done]. intros k _.
  apply wp_bind, wp_assert; [intros _|done]. apply wp_bind, wp_res; [|done]. intros users _. apply wp_bind.
  unfold wp at 1, create_group_object. cbn [group_name current_group_name]. rewrite Ec. cbn [is_None_b andb].
  destruct (group_where (named name) d) eqn:En; cbn [is_None_b]; [done|]. set (d1 := d <| groups ::= _ |> <| next_group_id ::= _ |>).
  assert (Hd1 : I d1).
  { destruct Hd as [Hok Hk]. split; [by apply groups_ok_create|]. intros id g Hg. cbn. destruct (Hk id g Hg) as [(g' & Hg' & Hs)|]; [|by right].
    left. exists g'. split; [|done]. rewrite lookup_insert_ne; [done|]. apply (ids_below_next d Hok) in Hg'. lia. }
  apply wp_bind, wp_res; [|done]. intros text _. apply wp_bind. eapply wp_mono; [by apply wp_save_message| |done]. by intros [] d' Hd'.
Qed.
Lemma wp_to_accounts p from memo cipher l d : I d -> wp (to_accounts p sender from memo cipher l) (fun _ => I) I d.
Proof.
  revert d. induction l as [|r l IH]; intros d Hd; cbn [to_accounts]; [done|]. destruct (existsb _ _); [|by apply IH].
  destruct (common_secret p from memo); [|done]. do 2 (apply wp_bind, wp_res; [intros ? _|done]). apply wp_bind.
  eapply wp_mono; [by apply wp_new_group| |done]. intros b d' Hd'. destruct b; [by apply IH|done].
Qed.
End safety.

Lemma mpm_apply_own `{ciphers} `{externals} p op d : groups_ok d ->
  wp (mpm_apply p op) (fun _ => own_groups_only (cj_sender op) d) (own_groups_only (cj_sender op) d) d.
Proof.
  intros Hok. assert (Hd : own_groups_only (cj_sender op) d d) by (split; [done|]; intros id g Hg; left; exists g; by split_and!).
  unfold mpm_apply. apply wp_bind, wp_res; [intros v _|done]. apply wp_bind, wp_res; [intros meta _|done]. destruct (gm_iv meta).
  - apply wp_forM; [|done]. intros r d' Hd'. by apply wp_to_group.
  - destruct (gm_sender meta), (gm_recipient meta); try done. by apply wp_to_accounts.
Qed.
