(* ===== verification/JsonRpc.v ===== *)
(** * JsonRpc: the calls of the API over JSON-RPC ([plugins/json_rpc/]).

    Plugins register their methods; a request is a JSON object, or an array of them, and the
    answer has a response for each.  Methods run in the monad [rpc] over the state of the
    node; what a thrown exception is caught as depends on its class.  The files that
    [log-json-rpc] writes are left out. *)
From Stdlib Require Import String.
From S2P Require Import Prelude AssetText Json PluginState State.
Local Open Scope Z_scope.
Local Open Scope list_scope.

(** ** Exceptions *)
Inductive exception_class :=
  | lock_exception | failed_assertion | parse_error | bad_cast | other_fc_exception
  | other_std_exception | unknown_exception.
(** [to_string] or [what], and the exception as a variant. *)
Record thrown := Thrown { class : exception_class; what : list Z; detail : variant }.
(** What the plugin throws itself; the texts hold the place in the source. *)
Inductive own_failure :=
  | asserted (message : string) (args : list (list Z))
  | unreadable (e : exn)
  | not_sent.
Class exception_texts := { own_text : own_failure -> list Z; own_detail : own_failure -> variant }.
Definition class_of (f : own_failure) : exception_class :=
  match f with
  | asserted _ _ => failed_assertion
  | unreadable assert_exception => failed_assertion
  | unreadable parse_error_exception => parse_error
  | unreadable bad_cast_exception => bad_cast
  | unreadable _ | not_sent => other_fc_exception
  end.
Definition throws `{exception_texts} (f : own_failure) : thrown := Thrown (class_of f) (own_text f) (own_detail f).

(** Double quotes are written as single ones. *)
Definition quoted_text (s : string) : list Z := map (fun c => if c =? 39 then 34 else c) (key s).

(** ** State and exceptions *)
Definition rpc (St A : Type) : Type := St -> (thrown + A) * St.
#[export] Instance rpc_ret {St} : MRet (rpc St) := fun A a s => (inr a, s).
#[export] Instance rpc_bind {St} : MBind (rpc St) := fun A B f m s =>
  match m s with (inr a, s) => f a s | (inl t, s) => (inl t, s) end.
Definition fails {St A} (t : thrown) : rpc St A := fun s => (inl t, s).
Definition reads `{exception_texts} {St A} (r : res A) : rpc St A :=
  match r with Ok a => mret a | Throw e => fails (throws (unreadable e)) end.

(** ** The registry *)
(** [boost::split] at dots. *)
Fixpoint split_dots (s : list Z) : list (list Z) :=
  match s with
  | [] => [[]]
  | c :: s =>
      if c =? 46 then [] :: split_dots s
      else match split_dots s with w :: ws => (c :: w) :: ws | [] => [[c]] end
  end.
Record api_method_signature := Signature { sig_args : variant; sig_ret : variant }.
Definition signature_to_variant (g : api_method_signature) : variant :=
  v_object [(key "args", sig_args g); (key "ret", sig_ret g)].
(** A method gets its arguments, the callback for notices and whether to lock. *)
Definition api_method (St : Type) : Type := variant -> (variant -> Z -> rpc St unit) -> bool -> rpc St variant.
(** The two methods of the plugin read the registry itself. *)
Inductive api_entry (St : Type) := own_get_methods | own_get_signature | registered (m : api_method St).
Arguments own_get_methods {St}. Arguments own_get_signature {St}. Arguments registered {St}.
Record json_rpc_plugin (St : Type) := JsonRpcPlugin {
  _registered_apis : gmap (list Z) (gmap (list Z) (api_entry St));
  _methods : list (list Z);
  _method_sigs : gmap (list Z) (gmap (list Z) api_method_signature);
  _next_id : Z }.
Arguments JsonRpcPlugin {St}. Arguments _registered_apis {St}. Arguments _methods {St}.
Arguments _method_sigs {St}. Arguments _next_id {St}.
#[export] Instance json_rpc_plugin_eta {St} : Eta (json_rpc_plugin St) := fun p =>
  JsonRpcPlugin (_registered_apis p) (_methods p) (_method_sigs p) (_next_id p).

Definition put2 {A} (api method : list Z) (a : A) (m : gmap (list Z) (gmap (list Z) A)) : gmap (list Z) (gmap (list Z) A) :=
  <[api := <[method := a]> (default ∅ (m !! api))]> m.
Definition get2 {A} (api method : list Z) (m : gmap (list Z) (gmap (list Z) A)) : option A :=
  methods ← m !! api; methods !! method.
Definition canonical_name (api method : list Z) : list Z := api ++ [46] ++ method.
Definition add_api_method {St} (api_name method_name : list Z) (api : api_entry St) (sig : api_method_signature) (p : json_rpc_plugin St)
    : json_rpc_plugin St :=
  p <| _registered_apis ::= put2 api_name method_name api |>
    <| _method_sigs ::= put2 api_name method_name sig |>
    <| _methods ::= fun l => l ++ [canonical_name api_name method_name] |>.
(** The plugin registers its own two methods, with the signatures of their argument and
    result types. *)
Definition initialize {St} (p : json_rpc_plugin St) : json_rpc_plugin St :=
  add_api_method (key "jsonrpc") (key "get_signature") own_get_signature
    (Signature (v_object [(key "method", v_string [])]) (signature_to_variant (Signature v_null v_null)))
    (add_api_method (key "jsonrpc") (key "get_methods") own_get_methods (Signature (v_object []) (v_array [])) p).
#[export] Instance names_dec : RelDecision (fun a b : list Z => lex_leb a b = true) := fun a b => decide (lex_leb a b = true).
Definition plugin_startup {St} (p : json_rpc_plugin St) : json_rpc_plugin St :=
  p <| _methods ::= merge_sort (fun a b => lex_leb a b = true) |>.
Definition generate_subscription_id {St} (p : json_rpc_plugin St) : Z * json_rpc_plugin St :=
  (_next_id p, p <| _next_id ::= fun i => u64 (i + 1) |>).

(** ** Requests and responses *)
Definition JSON_RPC_PARSE_ERROR : Z := -32700.
Definition JSON_RPC_INVALID_REQUEST : Z := -32600.
Definition JSON_RPC_METHOD_NOT_FOUND : Z := -32601.
Definition JSON_RPC_SERVER_ERROR : Z := -32000.
Definition JSON_RPC_NO_PARAMS : Z := -32001.
Definition JSON_RPC_PARSE_PARAMS_ERROR : Z := -32002.
Definition JSON_RPC_ERROR_DURING_CALL : Z := -32003.
Record json_rpc_error := JsonRpcError { code : Z; error_message : list Z; error_data : option variant }.
Record json_rpc_response := JsonRpcResponse { result : option variant; error : option json_rpc_error; id_ : variant }.
#[export] Instance json_rpc_response_eta : Eta json_rpc_response := fun r => JsonRpcResponse (result r) (error r) (id_ r).
Definition no_response : json_rpc_response := JsonRpcResponse None None v_null.

Definition error_to_variant (e : json_rpc_error) : variant :=
  v_object ([(key "code", v_int64 (code e)); (key "message", v_string (error_message e))]
            ++ match error_data e with Some d => [(key "data", d)] | None => [] end).
Definition response_to_variant (r : json_rpc_response) : variant :=
  v_object ([(key "jsonrpc", v_string (key "2.0"))]
            ++ match result r with Some v => [(key "result", v)] | None => [] end
            ++ match error r with Some e => [(key "error", error_to_variant e)] | None => [] end
            ++ [(key "id", id_ r)]).
Definition with_error (c : Z) (m : list Z) (d : option variant) (r : json_rpc_response) : json_rpc_response :=
  r <| error := Some (JsonRpcError c m d) |>.
Definition with_exception (c : Z) (t : thrown) (r : json_rpc_response) : json_rpc_response :=
  with_error c (what t) (Some (detail t)) r.

(** ** Calls *)
Section calls.
  Context {St : Type} `{exception_texts}.
  Variable p : json_rpc_plugin St.
(** The node that a light client asks, while it is connected. *)
  Variable remote : St -> option (list Z -> list Z -> variant -> rpc St variant).

Definition get_signature (method : list Z) : rpc St api_method_signature :=
  match split_dots method with
  | [api; m] =>
      match _method_sigs p !! api with
      | None => fails (throws (asserted "Method ${api}.${method} does not exist." [api; m]))
      | Some methods =>
          match methods !! m with
          | None => fails (throws (asserted "Method ${api}.${method} does not exist" [api; m]))
          | Some g => mret g
          end
      end
  | _ => fails (throws (asserted "Invalid method name" []))
  end.
(** The arguments of the own methods are read from the variant as their types are. *)
Definition get_signature_args (args : variant) : res (list Z) :=
  l ← get_object args; match find_entry (key "method") l with Some v => as_string v | None => Ok [] end.
Definition call_entry (e : api_entry St) (args : variant) (notify : variant -> Z -> rpc St unit) (lock : bool) : rpc St variant :=
  match e with
  | own_get_methods => reads (get_object args) ;; mret (v_array (map v_string (_methods p)))
  | own_get_signature => method ← reads (get_signature_args args); g ← get_signature method; mret (signature_to_variant g)
  | registered m => m args notify lock
  end.
Definition find_api_method (api method : list Z) : rpc St (api_entry St) :=
  match _registered_apis p !! api with
  | None => fails (throws (asserted "Could not find API ${api}" [api]))
  | Some methods =>
      match methods !! method with
      | None => fails (throws (asserted "Could not find method ${method}" [method]))
      | Some e => mret e
      end
  end.
Definition call_api_method (api_name method_name : list Z) (func_args : variant) (notify : variant -> Z -> rpc St unit) (lock : bool)
    : rpc St (option variant) := fun s =>
  match _registered_apis p !! api_name, remote s with
  | None, Some remote_call => (v ← remote_call api_name method_name func_args; mret (Some v)) s
  | _, _ => (e ← find_api_method api_name method_name; v ← call_entry e func_args notify lock; mret (Some v)) s
  end.
(** Other plugins call without a lock. *)
Definition plugin_call_api_method (api_name method_name : list Z) (func_args : variant) (notify : variant -> Z -> rpc St unit)
    : rpc St (option variant) := call_api_method api_name method_name func_args notify false.

(** API, method and arguments of a request. *)
Definition process_params (method : list Z) (request : list entry) : rpc St (list Z * list Z * variant) :=
  if bool_decide (method = key "call") then
    match find_entry (key "params") request with
    | None => fails (throws (asserted "request.contains( 'params' )" []))
    | Some params =>
        match params with
        | v_array [api; m] => api ← reads (as_string api); m ← reads (as_string m); mret (api, m, v_object [])
        | v_array [api; m; args] => api ← reads (as_string api); m ← reads (as_string m); mret (api, m, args)
        | _ => fails (throws (asserted "params should be {'api', 'method', 'args'" []))
        end
    end
  else
    match split_dots method with
    | [api; m] => mret (api, m, default (v_object []) (find_entry (key "params") request))
    | _ => fails (throws (asserted "method specification invalid. Should be api.method" []))
    end.

(** A notice that a method sends to the client. *)
Definition ws_notice (message : variant) (subscription : Z) : variant :=
  v_object [(key "method", v_string (key "notice")); (key "params", v_array [v_uint64 subscription; v_array [message]])].
Definition notify_client (callback : list Z -> rpc St unit) (message : variant) (subscription : Z) : rpc St unit := fun s =>
  match callback (to_string stringify_large_ints_and_doubles (ws_notice message subscription)) s with
  | (inl _, s) => (inl (throws not_sent), s)
  | r => r
  end.

(** The number or string that the response repeats. *)
Definition rpc_id (request : list entry) (response : json_rpc_response) : json_rpc_response :=
  match find_entry (key "id") request with
  | None => response
  | Some i =>
      match i with
      | v_int64 _ | v_uint64 _ | v_string _ => response <| id_ := i |>
      | _ => with_error JSON_RPC_INVALID_REQUEST (quoted_text "Only integer value or string is allowed for member 'id'") None response
      end
  end.
(** The response so far, and the exception that leaves the function. *)
Definition answer : Type := (json_rpc_response * option thrown)%type.
Definition call_answered (r : (thrown + option variant) * St) (response : json_rpc_response) : answer * St :=
  match r with
  | (inr v, s) => ((response <| result := v |>, None), s)
  | (inl t, s) =>
      (match class t with
       | lock_exception => (with_error JSON_RPC_ERROR_DURING_CALL (what t) None response, None)
       | failed_assertion => (with_exception JSON_RPC_ERROR_DURING_CALL t response, None)
       | _ => (response, Some t)
       end, s)
  end.
Definition call_method (callback : list Z -> rpc St unit) (request : list entry) (method : list Z) (response : json_rpc_response) (s : St)
    : answer * St :=
  match process_params method request s with
  | (inl t, s) =>
      match class t with
      | failed_assertion => ((with_exception JSON_RPC_PARSE_PARAMS_ERROR t response, None), s)
      | _ => ((response, Some t), s)
      end
  | (inr (api_name, method_name, func_args), s) =>
      call_answered (call_api_method api_name method_name func_args (notify_client callback) true s) response
  end.
Definition rpc_jsonrpc (callback : list Z -> rpc St unit) (request : list entry) (response : json_rpc_response) (s : St) : answer * St :=
  match find_entry (key "jsonrpc") request with
  | Some (v_string version) =>
      if bool_decide (version = key "2.0") then
        match find_entry (key "method") request with
        | Some (v_string method) =>
            if negb (bool_decide (method = key "call")) || contains (key "params") request then
              match call_method callback request method response s with
              | ((response, Some t), s) =>
                  match class t with
                  | failed_assertion => ((with_exception JSON_RPC_METHOD_NOT_FOUND t response, None), s)
                  | _ => ((response, Some t), s)
                  end
              | r => r
              end
            else ((with_error JSON_RPC_NO_PARAMS (quoted_text "A member 'params' does not exist") None response, None), s)
        | _ => ((with_error JSON_RPC_INVALID_REQUEST (quoted_text "A member 'method' does not exist") None response, None), s)
        end
      else ((with_error JSON_RPC_INVALID_REQUEST (quoted_text "jsonrpc value is not '2.0'") None response, None), s)
  | _ => ((with_error JSON_RPC_INVALID_REQUEST (quoted_text "jsonrpc value is not '2.0'") None response, None), s)
  end.
Definition server_error (t : thrown) (response : json_rpc_response) : json_rpc_response :=
  match class t with
  | lock_exception | other_std_exception =>
      with_error JSON_RPC_SERVER_ERROR (key "Unknown error - parsing rpc message failed") (Some (v_string (what t))) response
  | unknown_exception => with_error JSON_RPC_SERVER_ERROR (key "Unknown error - parsing rpc message failed") None response
  | _ => with_exception JSON_RPC_SERVER_ERROR t response
  end.
(** A message that is no object is the only one to reach the outer handlers. *)
Definition rpc_message (callback : list Z -> rpc St unit) (message : variant) (s : St) : json_rpc_response * St :=
  match get_object message with
  | Throw e => (with_exception JSON_RPC_PARSE_ERROR (throws (unreadable e)) no_response, s)
  | Ok request =>
      let response := rpc_id request no_response in
      match error response with
      | Some _ => (response, s)
      | None =>
          match rpc_jsonrpc callback request response s with
          | ((response, None), s) => (response, s)
          | ((response, Some t), s) => (server_error t response, s)
          end
      end
  end.
Fixpoint rpc_messages (callback : list Z -> rpc St unit) (messages : list variant) (s : St) : list json_rpc_response * St :=
  match messages with
  | [] => ([], s)
  | m :: ms =>
      let '(r, s) := rpc_message callback m s in
      let '(rs, s) := rpc_messages callback ms s in (r :: rs, s)
  end.
Definition response_text (r : json_rpc_response) : list Z := to_string stringify_large_ints_and_doubles (response_to_variant r).
Definition is_error (r : json_rpc_response) : bool := match error r with Some _ => true | None => false end.
(** The text of the answer and whether it has an error; nothing for a text on which the
    parser never ends.  Notices of methods go to the callback.  Two handlers catch what the
    parser throws, and differ in the text. *)
Definition call_with (callback : list Z -> rpc St unit) (fuel : nat) (message : list Z) (s : St) : option (list Z * bool * St) :=
  match from_string fuel message with
  | Endless => None
  | Failed e => Some (response_text (with_exception JSON_RPC_SERVER_ERROR (throws (unreadable e)) no_response), true, s)
  | Parsed (v_array []) _ => Some (response_text (with_error JSON_RPC_SERVER_ERROR (key "Array is invalid") None no_response), true, s)
  | Parsed (v_array messages) _ =>
      let '(responses, s) := rpc_messages callback messages s in
      Some (to_string stringify_large_ints_and_doubles (v_array (map response_to_variant responses)), existsb is_error responses, s)
  | Parsed v _ => let '(r, s) := rpc_message callback v s in Some (response_text r, is_error r, s)
  end.
(** The overload for HTTP drops notices. *)
Definition call (fuel : nat) (message : list Z) (s : St) : option (list Z * bool * St) := call_with (fun _ => mret tt) fuel message s.
Definition call_and_notify (callback : list Z -> rpc St unit) (fuel : nat) (message : list Z) (s : St) : option (list Z * St) :=
  match call_with callback fuel message s with Some (text, _, s) => Some (text, s) | None => None end.
End calls.
