(* ===== verification/TrackAndTrace.v ===== *)
(** * TrackAndTrace: the custody of items
    ([external_plugins/track_and_trace/track_and_trace_plugin.cpp]).

    Items are registered under a serial number, claimed with a key and handed over from one
    account to the next by JSON operations of one application.  The plugin interprets the
    operations: an exception is swallowed by the evaluator and what was changed before stays.
    The tables are keyed by the indices the interpreter looks into; the orders by holder,
    which only the API reads, are left out. *)
From Stdlib Require Import String.
From S2P Require Import Prelude Safe Names Asset Double AssetText Json Version Config Authority Raw Operations PluginState.
Local Open Scope Z_scope.
Local Open Scope list_scope.

(** ** track_and_trace_objects.hpp *)
Record possession_object := Possession {
  holder : account_name_type; new_holder : account_name_type; serial : account_name_type;
  po_meta : list Z; po_info : list Z; claim_key : list Z }.
#[export] Instance possession_eta : Eta possession_object := fun p =>
  Possession (holder p) (new_holder p) (serial p) (po_meta p) (po_info p) (claim_key p).
(** Possessions by serial number; the new holders by serial number and second of the change. *)
Record custody_db := CustodyDb {
  possessions : gmap Z possession_object;
  transfer_history : gmap (Z * Z) account_name_type }.
#[export] Instance custody_db_eta : Eta custody_db := fun d => CustodyDb (possessions d) (transfer_history d).

Definition no_holder : account_name_type := fixed_string [].
Definition modify_possession (serial : account_name_type) (f : possession_object -> possession_object) : KST custody_db unit :=
  k_puts (fun d => d <| possessions ::= alter f (data serial) |>).

(** ** tat_interpreter::apply *)
Definition register_item (serial : account_name_type) (tmp : variant) : KST custody_db unit :=
  meta ← k_res (string_at "meta" tmp);
  claim ← k_res (string_at "claimKey" tmp);
  known ← k_gets (fun d => possessions d !! data serial);
  match known with
  | Some _ => mthrow logic_error
  | None => k_puts (fun d => d <| possessions ::= <[data serial := Possession no_holder no_holder serial meta [] claim]> |>)
  end.
(** The holder is set before the new info is read. *)
Definition claim_item (sender serial : account_name_type) (item : possession_object) (tmp : variant) : KST custody_db unit :=
  claim ← k_res (string_at "claimKey" tmp);
  fc_assert (bool_decide (claim = claim_key item)) ;;
  modify_possession serial (fun po => po <| holder := sender |>) ;;
  info ← k_res (string_at "info" tmp);
  modify_possession serial (fun po => po <| po_info := info |>).
Definition update_info (sender serial : account_name_type) (item : possession_object) (tmp : variant) : KST custody_db unit :=
  fc_assert (name_eqb sender (holder item)) ;;
  info ← k_res (string_at "info" tmp);
  modify_possession serial (fun po => po <| po_info := info |>).
Definition handover_request (sender serial : account_name_type) (item : possession_object) (tmp : variant) : KST custody_db unit :=
  fc_assert (name_eqb sender (holder item)) ;;
  owner ← k_res (string_at "newOwner" tmp);
  modify_possession serial (fun po => po <| new_holder := fixed_string owner |>).
(** Only one change of an item is recorded in a second. *)
Definition handover_ack (now : Z) (sender serial : account_name_type) (item : possession_object) : KST custody_db unit :=
  fc_assert (name_eqb sender (new_holder item)) ;;
  modify_possession serial (fun po => po <| new_holder := no_holder |> <| holder := sender |>) ;;
  let date := u32 (now / 1000000) in
  recorded ← k_gets (fun d => transfer_history d !! (data serial, date));
  match recorded with
  | Some _ => mthrow logic_error
  | None => k_puts (fun d => d <| transfer_history ::= <[(data serial, date) := sender]> |>)
  end.
Definition handover_reject (sender serial : account_name_type) (item : possession_object) : KST custody_db unit :=
  fc_assert (name_eqb sender (new_holder item)) ;;
  modify_possession serial (fun po => po <| new_holder := no_holder |>).

(** An action that is not known does nothing. *)
Definition item_action (now : Z) (action : list Z) (sender serial : account_name_type) (item : possession_object) (tmp : variant)
    : KST custody_db unit :=
  if bool_decide (action = key "claim") then claim_item sender serial item tmp
  else if bool_decide (action = key "updateInfo") then update_info sender serial item tmp
  else if bool_decide (action = key "handoverRequest") then handover_request sender serial item tmp
  else if bool_decide (action = key "handoverAck") then handover_ack now sender serial item
  else if bool_decide (action = key "handoverReject") then handover_reject sender serial item
  else mret tt.
Definition tat_apply (now : Z) (op : custom_json_operation) : KST custody_db unit :=
  match cj_recipients op with
  | [] => mthrow assert_exception
  | serial :: _ =>
      fc_assert (negb (bool_decide (cj_json op = []))) ;;
      tmp ← k_res (parse_json (cj_json op));
      name ← k_res (string_of_name serial);
      text ← k_res (string_at "serial" tmp);
      fc_assert (bool_decide (name = text)) ;;
      action ← k_res (string_at "action" tmp);
      if bool_decide (action = key "register") then register_item serial tmp
      else
        item ← k_gets (fun d => possessions d !! data serial);
        match item with
        | None => mthrow assert_exception
        | Some item => item_action now action (cj_sender op) serial item tmp
        end
  end.
Definition tat_apply_binary (op : custom_binary_operation) : KST custody_db unit := mthrow assert_exception.

(** One operation and the clock when it is interpreted. *)
Definition interpreted (d : custody_db) (o : Z * custom_json_operation) : res custody_db := swallowed (tat_apply (fst o) (snd o)) d.
Definition run_custody (d : custody_db) (ops : list (Z * custom_json_operation)) : res custody_db := foldM interpreted d ops.

(** ** Custody as a state machine *)
(** The serial number an operation is about, its action and a text of its JSON. *)
Definition concerns (s : Z) (op : custom_json_operation) : Prop :=
  match cj_recipients op with n :: _ => data n = s | [] => False end.
#[export] Instance concerns_dec s op : Decision (concerns s op).
Proof. unfold concerns. destruct (cj_recipients op); apply _. Defined.
Definition says (k : string) (text : list Z) (op : custom_json_operation) : Prop :=
  exists tmp, parse_json (cj_json op) = Ok tmp /\ string_at k tmp = Ok text.
Definition acts (action : string) (op : custom_json_operation) : Prop := says "action" (key action) op.

(** What one operation can do to one item: the guards are about the sender, the key and
    the name in the operation. *)
Inductive custody_step (op : custom_json_operation) : option possession_object -> option possession_object -> Prop :=
| custody_same p : custody_step op p p
| custody_register s meta claim : acts "register" op ->
    custody_step op None (Some (Possession no_holder no_holder s meta [] claim))
| custody_claim p info : acts "claim" op -> says "claimKey" (claim_key p) op ->
    custody_step op (Some p) (Some (p <| holder := cj_sender op |> <| po_info := info |>))
| custody_info p info : acts "updateInfo" op -> data (cj_sender op) = data (holder p) ->
    custody_step op (Some p) (Some (p <| po_info := info |>))
| custody_offer p owner : acts "handoverRequest" op -> data (cj_sender op) = data (holder p) -> says "newOwner" owner op ->
    custody_step op (Some p) (Some (p <| new_holder := fixed_string owner |>))
| custody_accept p : acts "handoverAck" op -> data (cj_sender op) = data (new_holder p) ->
    custody_step op (Some p) (Some (p <| new_holder := no_holder |> <| holder := cj_sender op |>))
| custody_refuse p : acts "handoverReject" op -> data (cj_sender op) = data (new_holder p) ->
    custody_step op (Some p) (Some (p <| new_holder := no_holder |>)).
Record one_step (op : custom_json_operation) (d d' : custody_db) : Prop := OneStep {
  others_stay : forall s, ~ concerns s op -> possessions d' !! s = possessions d !! s;
  this_steps : forall s, concerns s op -> custody_step op (possessions d !! s) (possessions d' !! s);
  history_grows : forall k n, transfer_history d !! k = Some n -> transfer_history d' !! k = Some n }.

Lemma one_step_same op d : one_step op d d.
Proof. split; [done| |done]. intros. apply custody_same. Qed.

Section steps.
  Context (now : Z) (op : custom_json_operation) (n : account_name_type) (l : list account_name_type) (tmp : variant).
  Hypothesis Hr : cj_recipients op = n :: l.
  Hypothesis Htmp : parse_json (cj_json op) = Ok tmp.

Lemma concerned s : concerns s op -> s = data n.
Proof. unfold concerns. by rewrite Hr. Qed.
Lemma said k text : string_at k tmp = Ok text -> says k text op.
Proof. intros E. by exists tmp. Qed.
(** The item of the operation is replaced. *)
Lemma one_step_put d d' p : possessions d' = <[data n := p]> (possessions d) ->
  custody_step op (possessions d !! data n) (Some p) ->
  (forall k m, transfer_history d !! k = Some m -> transfer_history d' !! k = Some m) -> one_step op d d'.
Proof.
  intros Ep Hs Hh. split; [| |done].
  - intros s Hc. rewrite Ep, lookup_insert_ne; [done|]. intros <-. apply Hc. unfold concerns. by rewrite Hr.
  - intros s ->%concerned. by rewrite Ep, lookup_insert_eq.
Qed.
Lemma modify_put d p f : possessions d !! data n = Some p ->
  d <| possessions ::= alter f (data n) |> = d <| possessions ::= <[data n := f p]> |>.
Proof.
  intros Hp. destruct d as [ps h]. unfold upd. cbn in *. f_equal. apply map_eq. intros s.
  destruct (decide (s = data n)) as [->|Hne]; [by rewrite lookup_alter_eq, lookup_insert_eq, Hp|].
  by rewrite lookup_alter_ne, lookup_insert_ne.
Qed.

Lemma modify_twice d f g : d <| possessions ::= alter f (data n) |> <| possessions ::= alter g (data n) |> =
  d <| possessions ::= alter (fun p => g (f p)) (data n) |>.
Proof. destruct d as [ps h]. unfold upd. cbn. f_equal. apply map_eq. intros s. rewrite !lookup_alter. by repeat case_decide; destruct (ps !! _). Qed.

Lemma register_item_step d : acts "register" op -> wp (register_item n tmp) (fun _ => one_step op d) (one_step op d) d.
Proof.
  intros Ha. unfold register_item. repeat wp_step; try apply one_step_same. destruct (possessions d !! data n) eqn:E.
  - apply wp_throw, one_step_same.
  - apply wp_puts. eapply one_step_put; [done| |done]. rewrite E. by apply custody_register.
Qed.
Lemma item_action_step d p action : possessions d !! data n = Some p -> string_at "action" tmp = Ok action ->
  wp (item_action now action (cj_sender op) n p tmp) (fun _ => one_step op d) (one_step op d) d.
Proof.
  intros Hp Ha. unfold item_action, modify_possession.
  assert (Hput : forall f, custody_step op (Some p) (Some (f p)) -> one_step op d (d <| possessions ::= alter f (data n) |>)).
  { intros f Hf. rewrite (modify_put _ p) by done. eapply one_step_put; [done| |done]. by rewrite Hp. }
  assert (Hsame : one_step op d d) by apply one_step_same.
  repeat (case_bool_decide as Hact; [rewrite Hact in Ha; apply said in Ha|clear Hact]).
  - unfold claim_item, modify_possession. repeat wp_step; try done.
    + rewrite bool_decide_eq_true in *. subst. rewrite modify_twice. apply Hput. apply custody_claim; [done|by apply said].
    + rewrite bool_decide_eq_true in *. subst. apply Hput. apply (custody_claim op p (po_info p)); [done|by apply said].
  - unfold update_info, modify_possession. repeat wp_step; try done. apply Hput. apply custody_info; [done|by apply name_eqb_eq].
  - unfold handover_request, modify_possession. repeat wp_step; try done. apply Hput. apply custody_offer; [done|by apply name_eqb_eq|by apply said].
  - unfold handover_ack, modify_possession. repeat wp_step; try done. apply name_eqb_eq in H.
    set (d1 := d <| possessions ::= _ |>). assert (H1 : one_step op d d1) by (by apply Hput, custody_accept).
    destruct (transfer_history _ !! _) eqn:Eh; [by apply wp_throw|]. apply wp_puts. destruct H1 as [Ho Ht Hg]. split; [done..|].
    intros k m Hk. cbn. rewrite lookup_insert_ne; [by apply Hg|]. intros <-. apply Hg in Hk. congruence.
  - unfold handover_reject, modify_possession. repeat wp_step; try done. apply Hput. apply custody_refuse; [done|by apply name_eqb_eq].
  - by apply wp_ret.
Qed.
End steps.

Lemma tat_apply_step now op d : wp (tat_apply now op) (fun _ => one_step op d) (one_step op d) d.
Proof.
  pose proof (one_step_same op d) as Hsame. unfold tat_apply. destruct (cj_recipients op) as [|n l] eqn:Hr; [by apply wp_throw|].
  repeat (wp_step; try exact Hsame).
  match goal with |- context [bool_decide (?a = key _)] => destruct (bool_decide_reflect (a = key "register")) end.
  - subst. eapply register_item_step; [done|]. by eexists.
  - repeat wp_step. destruct (possessions d !! data n) eqn:E; [|by apply wp_throw]. by eapply item_action_step.
Qed.
Lemma interpreted_step d o d' : interpreted d o = Ok d' -> one_step (snd o) d d'.
Proof. intros H. by destruct (wp_swallowed _ _ _ _ _ (tat_apply_step (fst o) (snd o) d) H). Qed.
