(* ===== verification/CustomTokens.v ===== *)
(** * CustomTokens: tokens kept by a plugin
    ([external_plugins/custom_tokens/custom_tokens_plugin.cpp]).

    Accounts create, issue, transfer, burn and pause tokens by JSON operations of one
    application.  The plugin works on its own tables after the operation was applied.
    An exception it throws is caught where it was notified: what it changed before
    stays, so the error it saves is kept. *)
From Stdlib Require Import String.
From S2P Require Import Prelude Safe Names Asset Double AssetText Json Version Config Authority Raw Operations.
From S2P Require Import Validate Objects AccountHistory PluginState.
Local Open Scope Z_scope.
Local Open Scope list_scope.

(** ** custom_tokens_objects.hpp *)
Record custom_token_object := CustomToken {
  token_symbol : Z; owner_name : account_name_type; total_supply_ : Z; max_supply : Z; burned : Z; paused : bool }.
Record custom_token_account_object := CustomTokenAccount {
  cta_account : account_name_type; cta_symbol : Z; cta_amount : Z; cta_token_sequence : Z; cta_account_sequence : Z }.
Record custom_token_operation_object := CustomTokenOperation {
  cto_account : account_name_type; cto_symbol : Z; cto_block : Z; cto_serialized_op : operation; cto_trx_id : hash160;
  cto_timestamp : Z; cto_token_sequence : Z; cto_account_sequence : Z }.
(** Times are those of the system clock, in nanoseconds. *)
Record custom_token_error_object := CustomTokenError {
  cte_trx_id : hash160; cte_symbol : Z; cte_error : list Z; cte_time : Z; cte_token_sequence : Z }.
#[export] Instance custom_token_eta : Eta custom_token_object := fun t => CustomToken (token_symbol t) (owner_name t)
  (total_supply_ t) (max_supply t) (burned t) (paused t).
#[export] Instance custom_token_account_eta : Eta custom_token_account_object := fun a => CustomTokenAccount (cta_account a)
  (cta_symbol a) (cta_amount a) (cta_token_sequence a) (cta_account_sequence a).

(** The tables; the errors in the order of their times. *)
Record tokens_db := TokensDb {
  tokens : gmap Z custom_token_object;
  token_accounts : gmap (Z * Z) custom_token_account_object;
  token_operations : list custom_token_operation_object;
  token_errors : list custom_token_error_object }.
#[export] Instance tokens_db_eta : Eta tokens_db := fun d =>
  TokensDb (tokens d) (token_accounts d) (token_operations d) (token_errors d).

Abbreviation TM := (KST tokens_db).

Definition NONE_SYMBOL_SER : Z := Eval vm_compute in pack_symbol (bytes_of_string "NONE").

(** The greatest sequence number of the entries that are meant, plus one. *)
Definition next_of {A} (mine : A -> bool) (sequence : A -> Z) (l : list A) : Z :=
  u64 (foldr (fun x m => Z.max (sequence x) m) 0 (List.filter mine l) + 1).

Section plugin.
  Context {cfg : sophiatx_config} {lc : lexical_cast}.
  (** The application, the days errors are kept, the notification and the head block time;
      the clock when an error is created and when old ones are looked for. *)
  Variables (app_id_ cleanup_day_ : Z) (note : operation_notification) (head_time : Z) (created now : Z).

(** ** save_token_error *)
Fixpoint insert_by_time (e : custom_token_error_object) (l : list custom_token_error_object) :=
  match l with
  | [] => [e]
  | x :: l' => if cte_time e <? cte_time x then e :: l else x :: insert_by_time e l'
  end.
(** From the latest before [now] backwards; going back from the first one is undefined. *)
Fixpoint old_errors (l : list custom_token_error_object) : res (list hash160) :=
  match l with
  | [] => Throw crash
  | e :: l =>
      if now - cte_time e >? u32 (24 * cleanup_day_) * 3600 * 10^9
      then ids ← old_errors l; Ok (cte_trx_id e :: ids) else Ok []
  end.
Definition clean_up_errors : TM unit := fun d =>
  match rev (List.filter (fun e => cte_time e <? now) (token_errors d)) with
  | [] => (d, Ok tt)
  | l => match old_errors l with
         | Ok ids => (d <| token_errors ::=
             List.filter (fun e => negb (bool_decide (cte_trx_id e ∈ ids))) |>, Ok tt)
         | Throw e => (d, Throw e)
         end
  end.
Definition save_token_error (error : string) (symbol : Z) : TM unit :=
  exists_ ← k_gets (fun d => existsb (fun e => bool_decide (cte_trx_id e = note_trx_id note)) (token_errors d));
  if (exists_ : bool) then mthrow logic_error
  else
    k_puts (fun d => d <| token_errors ::= insert_by_time
      (CustomTokenError (note_trx_id note) symbol (bytes_of_string error) created
         (next_of (fun e => cte_symbol e =? symbol) cte_token_sequence (token_errors d))) |>) ;;
    if cleanup_day_ =? 0 then mret tt else clean_up_errors.
(** [FC_ASSERT( test, "${s}", ("s", save_token_error( .. )) )] *)
Definition assert_or_save (test : bool) (error : string) (symbol : Z) : TM unit :=
  if test then mret tt else save_token_error error symbol ;; mthrow assert_exception.

(** ** The tables of tokens *)
Definition find_token (symbol : Z) : TM (option custom_token_object) := k_gets (fun d => tokens d !! symbol).
Definition check_if_paused (symbol : Z) : TM unit :=
  t ← find_token symbol;
  assert_or_save (match t with Some _ => true | None => false end) "No such a token!" symbol ;;
  match t with
  | Some t => assert_or_save (negb (paused t)) "Can to do any action with token, because it is paused!" symbol
  | None => mret tt
  end.

Definition add_tokens (name : account_name_type) (symbol amount : Z) (d : tokens_db) : tokens_db :=
  match token_accounts d !! (symbol, data name) with
  | Some b => d <| token_accounts ::= <[(symbol, data name) := b <| cta_amount ::= fun x => u64 (x + amount) |>]> |>
  | None =>
      let all := map snd (map_to_list (token_accounts d)) in
      d <| token_accounts ::= <[(symbol, data name) := CustomTokenAccount name symbol amount
        (next_of (fun a => cta_symbol a =? symbol) cta_token_sequence all)
        (next_of (fun a => name_eqb (cta_account a) name) cta_account_sequence all)]> |>
  end.
Definition add_account_tokens (name : account_name_type) (symbol amount : Z) : TM unit := k_puts (add_tokens name symbol amount).
Definition remove_account_tokens (name : account_name_type) (symbol amount : Z) : TM unit :=
  b ← k_gets (fun d => token_accounts d !! (symbol, data name));
  assert_or_save (match b with Some _ => true | None => false end) "Account does not hold any of specified tokens!" symbol ;;
  match b with
  | Some b =>
      assert_or_save (cta_amount b >=? amount) "Account does not hold enought tokens!" symbol ;;
      k_puts (fun d => d <| token_accounts ::= <[(symbol, data name) := b <| cta_amount ::= fun x => u64 (x - amount) |>]> |>)
  | None => mret tt
  end.
Definition save_token_operation (account : account_name_type) (symbol : Z) : TM unit :=
  k_puts (fun d => d <| token_operations ::= fun l => CustomTokenOperation account symbol (note_block note)
    (note_op note) (note_trx_id note) head_time
    (next_of (fun o => cto_symbol o =? symbol) cto_token_sequence l)
    (next_of (fun o => name_eqb (cto_account o) account) cto_account_sequence l) :: l |>).
Definition modify_token (symbol : Z) (f : custom_token_object -> custom_token_object) : TM unit :=
  k_puts (fun d => d <| tokens ::= alter f symbol |>).

(** ** The actions *)
Definition symbol_at (k : string) (tmp : variant) : res Z :=
  v ← at_key (key k) tmp; s ← as_string v; symbol_from_string s.
Definition asset_at (k : string) (tmp : variant) : res asset :=
  v ← at_key (key k) tmp; s ← as_string v; asset_from_string s.

Definition create_token (from : account_name_type) (tmp : variant) : TM unit :=
  symbol ← k_res (symbol_at "token_symbol" tmp);
  assert_or_save (negb (symbol =? NONE_SYMBOL_SER)) "This token symbol can not be used!" symbol ;;
  token ← find_token symbol;
  assert_or_save (match token with None => true | Some _ => false end) "Token already exist!" symbol ;;
  total_supply ← k_res (uint64_at "total_supply" tmp);
  max ← k_res (l ← get_object tmp;
    if contains (key "max_supply") l then uint64_at "max_supply" tmp else Ok (2^64 - 1));
  k_puts (fun d => d <| tokens ::= <[symbol := CustomToken symbol from total_supply max 0 false]> |>) ;;
  add_account_tokens from symbol total_supply ;;
  save_token_operation from symbol.

Definition pause_token (from : account_name_type) (tmp : variant) : TM unit :=
  symbol ← k_res (symbol_at "token_symbol" tmp);
  token ← find_token symbol;
  match token with
  | None => mthrow crash
  | Some t =>
      if name_eqb (owner_name t) from then
        modify_token symbol (fun t => t <| paused ::= negb |>) ;;
        save_token_operation from symbol
      else mret tt
  end.

Definition transfer_token (from : account_name_type) (recipients : list account_name_type) (tmp : variant) : TM unit :=
  a ← k_res (asset_at "amount" tmp);
  check_if_paused (symbol a) ;;
  match recipients with
  | [] => assert_or_save false "There is no recipient for tokens!" (symbol a)
  | to :: _ =>
      remove_account_tokens from (symbol a) (u64 (amount a)) ;;
      add_account_tokens to (symbol a) (u64 (amount a)) ;;
      save_token_operation from (symbol a) ;;
      save_token_operation to (symbol a)
  end.

Definition burn_token (from : account_name_type) (tmp : variant) : TM unit :=
  a ← k_res (asset_at "amount" tmp);
  check_if_paused (symbol a) ;;
  remove_account_tokens from (symbol a) (u64 (amount a)) ;;
  save_token_operation from (symbol a) ;;
  token ← find_token (symbol a);
  match token with
  | Some _ => modify_token (symbol a) (fun t => t <| burned ::= fun b => u64 (b + amount a) |>)
  | None => mret tt
  end.

Definition issue_token (from : account_name_type) (tmp : variant) : TM unit :=
  symbol ← k_res (symbol_at "token_symbol" tmp);
  check_if_paused symbol ;;
  additional_amount ← k_res (uint64_at "additional_amount" tmp);
  token ← find_token symbol;
  assert_or_save (match token with Some _ => true | None => false end) "No such a token!" NONE_SYMBOL_SER ;;
  match token with
  | Some t =>
      if name_eqb (owner_name t) from && (max_supply t >? u64 (total_supply_ t + additional_amount)) then
        modify_token symbol (fun t => t <| total_supply_ ::= fun s => u64 (s + additional_amount) |>) ;;
        add_account_tokens from symbol additional_amount ;;
        save_token_operation from symbol
      else mret tt
  | None => mret tt
  end.

(** The action is compared with one name after the other. *)
Definition perform (from : account_name_type) (recipients : list account_name_type) (tmp : variant) : TM unit :=
  action ← k_res (v ← at_key (key "action") tmp; as_string v);
  if bool_decide (action = key "create_token") then create_token from tmp
  else if bool_decide (action = key "pause_token") then pause_token from tmp
  else if bool_decide (action = key "transfer_token") then transfer_token from recipients tmp
  else if bool_decide (action = key "burn_token") then burn_token from tmp
  else if bool_decide (action = key "issue_token") then issue_token from tmp
  else assert_or_save false "Unknown action for custom token!" NONE_SYMBOL_SER.

Definition post_operation_custom (op : custom_json_operation) : TM unit :=
  if cj_app_id op =? app_id_ then
    assert_or_save (negb (bool_decide (cj_json op = []))) "Empty action for custom token!" NONE_SYMBOL_SER ;;
    tmp ← k_res (parse_json (cj_json op));
    l ← k_res (get_object tmp);
    assert_or_save (contains (key "token_symbol") l) "Action field in json is missing!" NONE_SYMBOL_SER ;;
    perform (cj_sender op) (cj_recipients op) tmp
  else mret tt.
Definition post_operation : TM unit :=
  match note_op note with op_custom_json op => post_operation_custom op | _ => mret tt end.

(** [notify_post_apply_operation] catches what the plugin throws; undefined behaviour is not caught. *)
Definition notify_post_apply_operation (d : tokens_db) : res tokens_db :=
  match post_operation d with
  | (_, Throw crash) => Throw crash
  | (_, Throw plugin_exception) => Throw plugin_exception
  | (d', _) => Ok d'
  end.
End plugin.

(** ** The ledger *)
(** What the accounts hold of a token. *)
Definition held_in (symbol : Z) (a : custom_token_account_object) : Z :=
  if cta_symbol a =? symbol then cta_amount a else 0.
Definition held (symbol : Z) (d : tokens_db) : Z := map_sum (held_in symbol) (token_accounts d).
Record token_ok (t : custom_token_object) : Prop := TokenOk {
  supply_range : 0 <= total_supply_ t < 2^64; burned_range : 0 <= burned t < 2^64 }.
Record account_ok (d : tokens_db) (k : Z * Z) (a : custom_token_account_object) : Prop := AccountOk {
  account_key : k = (cta_symbol a, data (cta_account a));
  amount_range : 0 <= cta_amount a < 2^64;
  account_token : tokens d !! cta_symbol a <> None }.
Record tokens_ok (d : tokens_db) : Prop := TokensOk {
  all_tokens : forall s t, tokens d !! s = Some t -> token_ok t;
  all_accounts : forall k a, token_accounts d !! k = Some a -> account_ok d k a }.
(** Every token is where it should be: what was issued is held or was burned. *)
Definition accounted (d : tokens_db) : Prop :=
  forall s t, tokens d !! s = Some t -> held s d + burned t = total_supply_ t.
Definition ledger (d : tokens_db) : Prop := tokens_ok d /\ accounted d.

Definition same_ledger (d d' : tokens_db) : Prop := tokens d' = tokens d /\ token_accounts d' = token_accounts d.
Lemma tokens_ok_same d d' : same_ledger d d' -> tokens_ok d -> tokens_ok d'.
Proof.
  intros [Ht Ha] [H1 H2]. split.
  - intros s t. rewrite Ht. apply H1.
  - intros k a. rewrite Ha. intros Hk. destruct (H2 k a Hk) as [? ? ?]. split; [done..|]. by rewrite Ht.
Qed.
Lemma ledger_same d d' : same_ledger d d' -> ledger d -> ledger d'.
Proof.
  intros Hs [Hok H3]. split; [by eapply tokens_ok_same|]. destruct Hs as [Ht Ha]. intros s t.
  rewrite Ht. unfold held. rewrite Ha. apply H3.
Qed.

Section preservation.
  Context {cfg : sophiatx_config} {lc : lexical_cast}.
  Context (app_id_ cleanup_day_ : Z) (note : operation_notification) (head_time created now : Z).

Lemma save_token_error_same error symbol d :
  same_ledger d (fst (save_token_error cleanup_day_ note created now error symbol d)).
Proof.
  unfold save_token_error, mbind, KST_bind, k_gets. destruct (existsb _ _); [done|]. unfold k_puts.
  destruct (cleanup_day_ =? 0); [done|]. unfold clean_up_errors. destruct (rev _); [done|].
  by destruct (old_errors _ _ _).
Qed.
Lemma wp_assert_or_save b error symbol (Q : unit -> tokens_db -> Prop) (E : tokens_db -> Prop) d :
  (b = true -> Q tt d) -> (forall d', same_ledger d d' -> E d') ->
  wp (assert_or_save cleanup_day_ note created now b error symbol) Q E d.
Proof.
  intros HQ HE. unfold assert_or_save. destruct b; [by apply HQ|]. apply wp_bind.
  pose proof (save_token_error_same error symbol d) as Hs. unfold wp.
  destruct (save_token_error _ _ _ _ _ _ d) as [d' [[]|e]]; cbn in Hs; by apply HE.
Qed.

Lemma wp_check_if_paused symbol (Q : unit -> tokens_db -> Prop) (E : tokens_db -> Prop) d :
  (forall t, tokens d !! symbol = Some t -> paused t = false -> Q tt d) -> (forall d', same_ledger d d' -> E d') ->
  wp (check_if_paused cleanup_day_ note created now symbol) Q E d.
Proof.
  intros HQ HE. unfold check_if_paused. apply wp_bind. unfold wp, find_token, k_gets.
  change (wp (mbind (fun _ => match tokens d !! symbol with
    | Some t => assert_or_save cleanup_day_ note created now (negb (paused t)) "Can to do any action with token, because it is paused!" symbol
    | None => mret tt end) (assert_or_save cleanup_day_ note created now
    (match tokens d !! symbol with Some _ => true | None => false end) "No such a token!" symbol)) Q E d).
  apply wp_bind, wp_assert_or_save; [|done]. destruct (tokens d !! symbol) as [t|] eqn:Et; [|done]. intros _.
  apply wp_assert_or_save; [|done]. rewrite negb_true_iff. by apply HQ.
Qed.

Lemma wp_remove_account_tokens name symbol amount (Q : unit -> tokens_db -> Prop) (E : tokens_db -> Prop) d :
  (forall b, token_accounts d !! (symbol, data name) = Some b -> amount <= cta_amount b ->
     Q tt (d <| token_accounts ::= <[(symbol, data name) := b <| cta_amount ::= fun x => u64 (x - amount) |>]> |>)) ->
  (forall d', same_ledger d d' -> E d') ->
  wp (remove_account_tokens cleanup_day_ note created now name symbol amount) Q E d.
Proof.
  intros HQ HE. unfold remove_account_tokens. apply wp_bind. unfold wp at 1, k_gets.
  destruct (token_accounts d !! (symbol, data name)) as [b|] eqn:Eb.
  - apply wp_bind, wp_assert_or_save; [|done]. intros _. apply wp_bind, wp_assert_or_save; [|done].
    intros Hge. apply HQ; [done|]. destruct (Z.geb_spec (cta_amount b) amount); [lia|done].
  - apply wp_bind, wp_assert_or_save; done.
Qed.
End preservation.

(** ** Sums *)
Lemma held_in_range d k a s : tokens_ok d -> token_accounts d !! k = Some a -> 0 <= held_in s a < 2^64.
Proof.
  intros Hd Hk. destruct (all_accounts d Hd k a Hk) as [_ Ha _]. unfold held_in. destruct (_ =? _); lia.
Qed.
Lemma held_account d k a s : tokens_ok d -> token_accounts d !! k = Some a -> held_in s a <= held s d.
Proof.
  intros Hd Hk. apply (map_sum_lookup_le (held_in s) _ k a); [|done].
  intros k' a' Hk'. by apply (held_in_range d k').
Qed.
Lemma held_modify d k a a' s : token_accounts d !! k = Some a -> cta_symbol a' = cta_symbol a ->
  held s (d <| token_accounts ::= <[k := a']> |>) =
  held s d + (if cta_symbol a =? s then cta_amount a' - cta_amount a else 0).
Proof.
  intros Hk Hs. unfold held. cbn. rewrite (map_sum_insert _ _ _ a) by done. unfold held_in. rewrite Hs.
  destruct (_ =? _); lia.
Qed.
Lemma tokens_ok_insert d k a : tokens_ok d -> account_ok d k a -> tokens_ok (d <| token_accounts ::= <[k := a]> |>).
Proof.
  intros [H1 H2] Ha. split; [exact H1|]. intros k' a' Hk'. cbn in Hk'.
  apply lookup_insert_Some in Hk' as [[<- <-]|[_ Hk']]; [|apply H2 in Hk' as [? ? ?]; by split].
  destruct Ha as [? ? ?]. by split.
Qed.

Lemma add_tokens_ledger name symbol amount d : tokens_ok d -> tokens d !! symbol <> None -> 0 <= amount ->
  held symbol d + amount < 2^64 ->
  tokens (add_tokens name symbol amount d) = tokens d /\ tokens_ok (add_tokens name symbol amount d) /\
  forall s, held s (add_tokens name symbol amount d) = held s d + (if symbol =? s then amount else 0).
Proof.
  intros Hd Hsym Ha Hb. unfold add_tokens. destruct (token_accounts d !! (symbol, data name)) as [b|] eqn:Eb.
  - pose proof (all_accounts d Hd _ _ Eb) as [Ek Hr Ht]. injection Ek as Es En.
    pose proof (held_account d _ b symbol Hd Eb) as Hle. unfold held_in in Hle. rewrite <- Es, Z.eqb_refl in Hle.
    assert (Hu : u64 (cta_amount b + amount) = cta_amount b + amount) by (apply Z.mod_small; lia).
    split; [done|]. split.
    + apply tokens_ok_insert; [done|]. split; cbn; [congruence|rewrite Hu; lia|congruence].
    + intros s. rewrite (held_modify _ _ b) by done. cbn. rewrite Hu, <- Es. destruct (symbol =? s); lia.
  - split; [done|]. assert (Hheld0 : 0 <= held symbol d).
    { apply map_sum_nonneg. intros k a Hk. by apply (held_in_range d k). }
    split.
    + apply tokens_ok_insert; [done|]. split; cbn; [done|lia|done].
    + intros s. unfold held. cbn. rewrite map_sum_insert_new by done. unfold held_in at 1. cbn.
      destruct (symbol =? s); lia.
Qed.

Lemma remove_tokens_ledger d symbol n b amount : tokens_ok d -> token_accounts d !! (symbol, n) = Some b ->
  0 <= amount <= cta_amount b ->
  let d' := d <| token_accounts ::= <[(symbol, n) := b <| cta_amount ::= fun x => u64 (x - amount) |>]> |> in
  tokens_ok d' /\ forall s, held s d' = held s d - (if symbol =? s then amount else 0).
Proof.
  intros Hd Hb Ha d'. pose proof (all_accounts d Hd _ _ Hb) as [Ek Hr Ht]. injection Ek as Es En.
  assert (Hu : u64 (cta_amount b - amount) = cta_amount b - amount) by (apply Z.mod_small; lia).
  split.
  - apply tokens_ok_insert; [done|]. split; cbn; [congruence|rewrite Hu; lia|done].
  - intros s. unfold d'. rewrite (held_modify _ _ b) by done. cbn. rewrite Hu, <- Es. destruct (symbol =? s); lia.
Qed.

Lemma accounted_bound d s t : ledger d -> tokens d !! s = Some t -> 0 <= held s d /\ held s d + burned t < 2^64.
Proof.
  intros [Hd Ha] Ht. destruct (all_tokens d Hd s t Ht) as [H1 H2]. specialize (Ha s t Ht). split; [|lia].
  apply map_sum_nonneg. intros k a Hk. by apply (held_in_range d k).
Qed.
Lemma ledger_operations d f : ledger d -> ledger (d <| token_operations ::= f |>).
Proof. by apply ledger_same. Qed.

(** A token is replaced by one with other numbers. *)
Lemma ledger_token d symbol t t' : tokens_ok d -> tokens d !! symbol = Some t -> token_ok t' ->
  (forall s t, s <> symbol -> tokens d !! s = Some t -> held s d + burned t = total_supply_ t) ->
  held symbol d + burned t' = total_supply_ t' -> ledger (d <| tokens ::= <[symbol := t']> |>).
Proof.
  intros [H1 H2] Ht Ht' Hother Heq. split; [split|].
  - intros s u Hu. cbn in Hu. apply lookup_insert_Some in Hu as [[<- <-]|[_ Hu]]; [done|by eapply H1].
  - intros k a Hk. destruct (H2 k a Hk) as [? ? Hn]. split; [done..|]. cbn.
    destruct (decide (cta_symbol a = symbol)) as [->|Hne]; [by rewrite lookup_insert_eq|by rewrite lookup_insert_ne].
  - intros s u Hu. cbn in Hu. change (held s (d <| tokens ::= <[symbol := t']> |>)) with (held s d).
    apply lookup_insert_Some in Hu as [[<- <-]|[Hne Hu]]; [done|by apply Hother].
Qed.

(** ** The actions keep the ledger *)
Lemma asset_from_string_range `{lexical_cast} s a : asset_from_string s = Ok a -> 0 <= amount a <= SOPHIATX_MAX_SHARE_SUPPLY.
Proof.
  unfold asset_from_string. destruct (find_char 32 _); [|done]. intros E.
  apply rbind_Ok in E as ([] & _ & E).
  destruct (lexical_cast_double _) as [[x|]|]; [|done..]. destruct (double_mul _ _) as [y|]; [|done].
  apply rbind_Ok in E as (i & _ & E). apply rbind_Ok in E as ([] & H1 & E). apply rbind_Ok in E as ([] & H2 & E).
  apply rbind_Ok in E as (sym & _ & E). injection E as <-. cbn.
  unfold fc_assert in *. destruct (Z.geb_spec i 0); [|done]. destruct (Z.geb_spec SOPHIATX_MAX_SHARE_SUPPLY i); [|done]. lia.
Qed.
Lemma leading_digits_nonneg s : 0 <= number_of_digits (leading_digits s).
Proof.
  assert (H : forall ds x, Forall is_digit_char ds -> 0 <= x -> 0 <= foldl (fun n c => n * 10 + (c - 48)) x ds).
  { induction ds as [|c ds IH]; intros x Hd Hx; [done|]. apply Forall_cons_1 in Hd as [Hc Hd]. cbn [foldl].
    unfold is_digit_char in Hc. apply IH; [done|lia]. }
  apply H; [|done]. induction s as [|c s IH]; cbn [leading_digits]; [constructor|].
  destruct (_ && _) eqn:E; [|constructor]. constructor; [|done]. apply andb_true_iff in E as [E1 E2].
  unfold is_digit_char. lia.
Qed.
Lemma signed_text_nonneg s : 0 <= number_of_digits (snd (signed_text s)).
Proof.
  unfold signed_text. destruct (trim_left s) as [|c t]; [done|].
  assert (forall s, 0 <= number_of_digits (snd (false, leading_digits s))) by (intros; apply leading_digits_nonneg).
  destruct c as [|c|c]; try done. repeat (destruct c as [c|c|]; try done); cbn; apply leading_digits_nonneg.
Qed.
Lemma as_uint64_range v n : as_uint64 v = Ok n -> 0 <= n < 2^64.
Proof.
  destruct v as [|i|i|x|[]|s| |]; cbn; try done; try (by intros [= <-]; apply u64_range); try (by intros [= <-]).
  - unfold to_uint64. destruct (_ && _) eqn:E; [|done]. intros [= <-]. apply andb_true_iff in E as [E1 E2]. lia.
  - unfold stoull. pose proof (signed_text_nonneg s) as Hs. destruct (signed_text s) as [neg [|d ds]]; [done|]. cbn [snd] in Hs.
    destruct (Z.ltb_spec (number_of_digits (d :: ds)) (2^64)); [|done]. intros [= <-].
    destruct neg; [apply u64_range|done].
Qed.
Lemma asset_at_range `{lexical_cast} k v a : asset_at k v = Ok a -> 0 <= amount a <= SOPHIATX_MAX_SHARE_SUPPLY.
Proof.
  unfold asset_at. intros E. apply rbind_Ok in E as (x & _ & E). apply rbind_Ok in E as (s & _ & E).
  by eapply asset_from_string_range.
Qed.
Lemma uint64_at_range k v n : uint64_at k v = Ok n -> 0 <= n < 2^64.
Proof. unfold uint64_at. intros E. apply rbind_Ok in E as (x & _ & E). by eapply as_uint64_range. Qed.

Lemma modify_alter d symbol t f : tokens d !! symbol = Some t ->
  d <| tokens ::= alter f symbol |> = d <| tokens ::= <[symbol := f t]> |>.
Proof.
  intros Ht. destruct d as [ts a o e]. unfold upd. cbn in *. f_equal. apply map_eq. intros s.
  destruct (decide (s = symbol)) as [->|Hne]; [by rewrite lookup_alter_eq, lookup_insert_eq, Ht|].
  by rewrite lookup_alter_ne, lookup_insert_ne.
Qed.

(** ** What an operation does to the ledger *)
(** The changes of the tokens and the accounts by an operation of [from]. *)
Inductive token_step (from : account_name_type) (d d' : tokens_db) : Prop :=
| step_none : same_ledger d d' -> token_step from d d'
| step_create symbol total max : tokens d !! symbol = None -> 0 <= total < 2^64 ->
    same_ledger (add_tokens from symbol total
      (d <| tokens ::= <[symbol := CustomToken symbol from total max 0 false]> |>)) d' -> token_step from d d'
| step_pause symbol t : tokens d !! symbol = Some t -> data (owner_name t) = data from ->
    same_ledger (d <| tokens ::= <[symbol := t <| paused ::= negb |>]> |>) d' -> token_step from d d'
| step_transfer to symbol t b amount : tokens d !! symbol = Some t -> paused t = false ->
    token_accounts d !! (symbol, data from) = Some b -> 0 <= amount <= cta_amount b ->
    same_ledger (add_tokens to symbol amount
      (d <| token_accounts ::= <[(symbol, data from) := b <| cta_amount ::= fun x => u64 (x - amount) |>]> |>)) d' ->
    token_step from d d'
| step_burn symbol t b amount : tokens d !! symbol = Some t -> paused t = false ->
    token_accounts d !! (symbol, data from) = Some b -> 0 <= amount <= cta_amount b ->
    same_ledger (d <| token_accounts ::= <[(symbol, data from) := b <| cta_amount ::= fun x => u64 (x - amount) |>]> |>
                   <| tokens ::= <[symbol := t <| burned ::= fun x => u64 (x + amount) |>]> |>) d' -> token_step from d d'
| step_issue symbol t n : tokens d !! symbol = Some t -> paused t = false -> data (owner_name t) = data from -> 0 <= n < 2^64 ->
    u64 (total_supply_ t + n) < max_supply t ->
    same_ledger (add_tokens from symbol n
      (d <| tokens ::= <[symbol := t <| total_supply_ ::= fun x => u64 (x + n) |>]> |>)) d' -> token_step from d d'.

Section actions.
  Context {cfg : sophiatx_config} {lc : lexical_cast}.
  Context (app_id_ cleanup_day_ : Z) (note : operation_notification) (head_time created now : Z).
  Local Abbreviation steps from m d := (wp m (fun _ => token_step from d) (same_ledger d) d).

Lemma same_ledger_refl d : same_ledger d d. Proof. done. Qed.
Hint Resolve same_ledger_refl step_none : core.

Lemma steps_create from tmp d : steps from (create_token cleanup_day_ note head_time created now from tmp) d.
Proof.
  unfold create_token. apply wp_bind, wp_res; [|done]. intros symbol _.
  apply wp_bind, wp_assert_or_save; [intros _|done]. apply wp_bind. unfold wp at 1, find_token, k_gets.
  apply wp_bind, wp_assert_or_save; [|done]. destruct (tokens d !! symbol) as [t|] eqn:Et; [done|]. intros _.
  apply wp_bind, wp_res; [|done]. intros total Htot. apply uint64_at_range in Htot.
  apply wp_bind, wp_res; [|done]. intros max _. by eapply step_create.
Qed.
Lemma steps_pause from tmp d : steps from (pause_token note head_time from tmp) d.
Proof.
  unfold pause_token. apply wp_bind, wp_res; [|done]. intros symbol _. apply wp_bind.
  unfold wp at 1, find_token, k_gets. destruct (tokens d !! symbol) as [t|] eqn:Et; [|done].
  destruct (name_eqb _ _) eqn:En; [|by apply step_none]. apply name_eqb_eq in En.
  apply (step_pause from d _ symbol t); [done..|]. by rewrite <- (modify_alter d _ t).
Qed.
Lemma steps_transfer from recipients tmp d :
  steps from (transfer_token cleanup_day_ note head_time created now from recipients tmp) d.
Proof.
  unfold transfer_token. apply wp_bind, wp_res; [|done]. intros a Ha. apply asset_at_range in Ha.
  assert (Hu : u64 (amount a) = amount a) by (apply Z.mod_small; unfold SOPHIATX_MAX_SHARE_SUPPLY in *; lia).
  apply wp_bind, wp_check_if_paused; [|done]. intros t Ht Hp. destruct recipients as [|to rs]; [by apply wp_assert_or_save|].
  rewrite Hu. apply wp_bind, wp_remove_account_tokens; [|done]. intros b Hb Hle.
  apply (step_transfer from d _ to (symbol a) t b (amount a)); [done..|lia|done].
Qed.
Lemma steps_burn from tmp d : steps from (burn_token cleanup_day_ note head_time created now from tmp) d.
Proof.
  unfold burn_token. apply wp_bind, wp_res; [|done]. intros a Ha. apply asset_at_range in Ha.
  assert (Hu : u64 (amount a) = amount a) by (apply Z.mod_small; unfold SOPHIATX_MAX_SHARE_SUPPLY in *; lia).
  apply wp_bind, wp_check_if_paused; [|done]. intros t Ht Hp.
  rewrite Hu. apply wp_bind, wp_remove_account_tokens; [|done]. intros b Hb Hle.
  apply wp_bind. unfold wp at 1, save_token_operation, k_puts. apply wp_bind. unfold wp at 1, find_token, k_gets.
  cbn [tokens upd tokens_db_eta]. rewrite Ht. apply (step_burn from d _ (symbol a) t b (amount a)); [done..|lia|].
  unfold modify_token, k_puts. match goal with |- same_ledger _ (?x <| tokens ::= _ |>) => set (d2 := x) end.
  by rewrite (modify_alter d2 _ t).
Qed.
Lemma steps_issue from tmp d : steps from (issue_token cleanup_day_ note head_time created now from tmp) d.
Proof.
  unfold issue_token. apply wp_bind, wp_res; [|done]. intros symbol _. apply wp_bind, wp_check_if_paused; [|done].
  intros t Ht Hp. apply wp_bind, wp_res; [|done]. intros n Hn. apply uint64_at_range in Hn.
  apply wp_bind. unfold wp at 1, find_token, k_gets. rewrite Ht. apply wp_bind, wp_assert_or_save; [intros _|done].
  destruct (name_eqb _ _ && _) eqn:E; [|by apply step_none]. apply andb_true_iff in E as [En Em]. apply name_eqb_eq in En.
  apply (step_issue from d _ symbol t n); [done..|lia|]. unfold modify_token, k_puts. cbn [fst snd].
  by rewrite <- (modify_alter d _ t).
Qed.

Lemma steps_perform from recipients tmp d :
  steps from (perform cleanup_day_ note head_time created now from recipients tmp) d.
Proof.
  unfold perform. apply wp_bind, wp_res; [|done]. intros action _.
  destruct (bool_decide _); [apply steps_create|]. destruct (bool_decide _); [apply steps_pause|].
  destruct (bool_decide _); [apply steps_transfer|]. destruct (bool_decide _); [apply steps_burn|].
  destruct (bool_decide _); [apply steps_issue|]. by apply wp_assert_or_save.
Qed.

(** What the notification did is one step of its sender. *)
Lemma notify_steps d d' : notify_post_apply_operation app_id_ cleanup_day_ note head_time created now d = Ok d' ->
  same_ledger d d' \/
  exists op, note_op note = op_custom_json op /\ cj_app_id op = app_id_ /\ token_step (cj_sender op) d d'.
Proof.
  unfold notify_post_apply_operation, post_operation.
  assert (Hnone : same_ledger d d) by done.
  destruct (note_op note) eqn:Eop; try (intros [= <-]; by left).
  unfold post_operation_custom. destruct (Z.eqb_spec (cj_app_id o) app_id_) as [Ea|]; [|intros [= <-]; by left].
  intros E. right. exists o. split; [done|]. split; [done|]. revert E.
  match goal with |- context [match ?m d with _ => _ end] =>
    assert (Hw : wp m (fun _ => token_step (cj_sender o) d) (same_ledger d) d); [|revert Hw; unfold wp; destruct (m d) as [d1 [[]|e]]]
  end.
  - apply wp_bind, wp_assert_or_save; [intros _|done]. apply wp_bind, wp_res; [|done]. intros tmp _.
    apply wp_bind, wp_res; [|done]. intros l _. apply wp_bind, wp_assert_or_save; [intros _|done]. apply steps_perform.
  - by intros Hs [= <-].
  - intros Hs. destruct e; intros [= <-]; by apply step_none.
Qed.
End actions.

(** ** The steps keep the ledger *)
(** The owner of a token issued so much that its supply, of 64 bits, wrapped around. *)
Definition issue_wrapped (from : account_name_type) (d d' : tokens_db) : Prop :=
  exists symbol t n, tokens d !! symbol = Some t /\ paused t = false /\ data (owner_name t) = data from /\
    0 <= n < 2^64 /\ 2^64 <= total_supply_ t + n /\ total_supply_ t + n - 2^64 < max_supply t /\
    tokens d' !! symbol = Some (t <| total_supply_ := total_supply_ t + n - 2^64 |>).

Lemma held_nonneg d s : tokens_ok d -> 0 <= held s d.
Proof. intros Hd. apply map_sum_nonneg. intros k a Hk. by apply (held_in_range d k). Qed.

(** A token is put in place of the one, if any, of its symbol. *)
Lemma tokens_ok_put d symbol t' : tokens_ok d -> token_ok t' -> tokens_ok (d <| tokens ::= <[symbol := t']> |>).
Proof.
  intros [H1 H2] Ht'. split.
  - intros s u Hu. cbn in Hu. apply lookup_insert_Some in Hu as [[<- <-]|[_ Hu]]; [done|by eapply H1].
  - intros k a Hk. destruct (H2 k a Hk) as [? ? Hn]. split; [done..|]. cbn.
    destruct (decide (cta_symbol a = symbol)) as [->|Hne]; [by rewrite lookup_insert_eq|by rewrite lookup_insert_ne].
Qed.
Lemma held_of_no_token d s : tokens_ok d -> tokens d !! s = None -> held s d = 0.
Proof.
  intros Hd Hnone. unfold held. rewrite (map_sum_ext _ (fun _ => 0)); [apply map_sum_zero|]. intros k a Hk. unfold held_in.
  destruct (all_accounts d Hd k a Hk) as [_ _ Hn]. destruct (Z.eqb_spec (cta_symbol a) s) as [E|]; [|done]. by rewrite E in Hn.
Qed.

(** New tokens [n] of a symbol whose entry changes from nothing or [t] to [t'] go to one account. *)
Lemma ledger_grow d symbol t' name n : ledger d -> token_ok t' -> 0 <= n ->
  held symbol d + n + burned t' = total_supply_ t' ->
  ledger (add_tokens name symbol n (d <| tokens ::= <[symbol := t']> |>)).
Proof.
  intros [Hd Ha] Ht' Hn Heq. pose proof (tokens_ok_put d symbol t' Hd Ht') as Hd1. set (d1 := d <| tokens ::= _ |>) in *.
  pose proof (held_nonneg d symbol Hd). destruct Ht' as [Hs Hb].
  destruct (add_tokens_ledger name symbol n d1 Hd1) as (Et & Hok & Hh); [cbn; by rewrite lookup_insert_eq|lia| |].
  { change (held symbol d1) with (held symbol d). lia. }
  split; [done|]. intros s u Hus. rewrite Et in Hus. cbn in Hus. rewrite Hh. change (held s d1) with (held s d).
  apply lookup_insert_Some in Hus as [[<- <-]|[Hne Hus]]; [by rewrite Z.eqb_refl|].
  destruct (Z.eqb_spec symbol s); [done|]. rewrite Z.add_0_r. by apply Ha.
Qed.

Lemma ledger_move d symbol t from to b amount : ledger d -> tokens d !! symbol = Some t ->
  token_accounts d !! (symbol, from) = Some b -> 0 <= amount <= cta_amount b ->
  ledger (add_tokens to symbol amount
    (d <| token_accounts ::= <[(symbol, from) := b <| cta_amount ::= fun x => u64 (x - amount) |>]> |>)).
Proof.
  intros Hd Ht Hb Ha. destruct (remove_tokens_ledger d symbol from b amount (proj1 Hd) Hb Ha) as [Hok1 Hh1].
  pose proof (accounted_bound d symbol t Hd Ht) as Hbound. destruct (all_tokens d (proj1 Hd) _ _ Ht) as [_ Hburned].
  set (d1 := d <| token_accounts ::= _ |>) in *.
  destruct (add_tokens_ledger to symbol amount d1 Hok1) as (Et & Hok2 & Hh2).
  { unfold d1. cbn. by rewrite Ht. }
  { lia. }
  { rewrite Hh1, Z.eqb_refl. lia. }
  split; [done|]. intros s u Hus. rewrite Et in Hus. rewrite Hh2, Hh1. destruct (symbol =? s).
  - rewrite Z.sub_add. by apply Hd.
  - rewrite Z.sub_0_r, Z.add_0_r. by apply Hd.
Qed.

Lemma ledger_burn d symbol t from b amount : ledger d -> tokens d !! symbol = Some t ->
  token_accounts d !! (symbol, from) = Some b -> 0 <= amount <= cta_amount b ->
  ledger (d <| token_accounts ::= <[(symbol, from) := b <| cta_amount ::= fun x => u64 (x - amount) |>]> |>
            <| tokens ::= <[symbol := t <| burned ::= fun x => u64 (x + amount) |>]> |>).
Proof.
  intros Hd Ht Hb Ha. destruct (remove_tokens_ledger d symbol from b amount (proj1 Hd) Hb Ha) as [Hok1 Hh1].
  pose proof (proj2 Hd _ _ Ht) as Hacc. destruct (all_tokens d (proj1 Hd) _ _ Ht) as [Hsupply Hburned].
  assert (Hheld : amount <= held symbol d).
  { pose proof (held_account d _ b symbol (proj1 Hd) Hb) as Hba. unfold held_in in Hba.
    destruct (all_accounts d (proj1 Hd) _ _ Hb) as [Ek _ _]. injection Ek as Es _. rewrite <- Es, Z.eqb_refl in Hba. lia. }
  set (d1 := d <| token_accounts ::= _ |>) in *. eapply (ledger_token d1 symbol t); [done|done| | |].
  - split; cbn; [done|apply u64_range].
  - intros s u Hne Hus. rewrite Hh1. destruct (Z.eqb_spec symbol s); [done|]. rewrite Z.sub_0_r. by apply Hd.
  - rewrite Hh1, Z.eqb_refl. cbn. unfold u64. rewrite Z.mod_small by lia. lia.
Qed.

Lemma step_ledger from d d' : token_step from d d' -> ledger d -> ledger d' \/ issue_wrapped from d d'.
Proof.
  intros Hstep Hd. pose proof (proj1 Hd) as Hok.
  destruct Hstep as [Hs|s total max Hn Ht Hs|s t Ht _ Hs|to s t b a Ht _ Hb Ha Hs|s t b a Ht _ Hb Ha Hs|s t n Ht Hp Ho Hn Hm Hs].
  - left. by apply (ledger_same _ _ Hs).
  - left. apply (ledger_same _ _ Hs), ledger_grow; [done|by split; cbn|lia|]. cbn. rewrite (held_of_no_token d s) by done. lia.
  - left. apply (ledger_same _ _ Hs). destruct (all_tokens d Hok s t Ht). eapply ledger_token; [done..|by split| |by apply (proj2 Hd s t)].
    intros s' u _ Hu. by apply (proj2 Hd).
  - left. by apply (ledger_same _ _ Hs), (ledger_move d s t).
  - left. by apply (ledger_same _ _ Hs), ledger_burn.
  - destruct (all_tokens d Hok s t Ht) as [Hsup Hbur]. pose proof (proj2 Hd _ _ Ht) as Hacc.
    destruct (Z.lt_ge_cases (total_supply_ t + n) (2^64)) as [Hlt|Hge].
    + assert (Hu : u64 (total_supply_ t + n) = total_supply_ t + n) by (apply Z.mod_small; lia).
      left. apply (ledger_same _ _ Hs), ledger_grow; [done|split; cbn; [apply u64_range|done]|lia|]. cbn. rewrite Hu. lia.
    + assert (Hu : u64 (total_supply_ t + n) = total_supply_ t + n - 2^64).
      { unfold u64. symmetry. apply (Z.mod_unique _ _ 1); lia. }
      right. exists s, t, n. rewrite <- Hu. do 4 (split; [done|]). split; [lia|]. split; [done|].
      rewrite (proj1 Hs). unfold add_tokens. destruct (token_accounts _ !! _); cbn; by rewrite lookup_insert_eq.
Qed.

(** ** Balances *)
Definition balance_of (s n : Z) (d : tokens_db) : Z := from_option cta_amount 0 (token_accounts d !! (s, n)).

Lemma same_balance d d' s n : same_ledger d d' -> balance_of s n d' = balance_of s n d.
Proof. intros [_ Ha]. unfold balance_of. by rewrite Ha. Qed.
Lemma tokens_add name symbol amount d : tokens (add_tokens name symbol amount d) = tokens d.
Proof. unfold add_tokens. by destruct (token_accounts d !! _). Qed.
Lemma add_tokens_other name symbol amount s n d : (s, n) <> (symbol, data name) ->
  token_accounts (add_tokens name symbol amount d) !! (s, n) = token_accounts d !! (s, n).
Proof. intros Hne. unfold add_tokens. destruct (token_accounts d !! _); cbn; by rewrite lookup_insert_ne. Qed.
Lemma balance_add name symbol amount d : tokens_ok d -> 0 <= amount -> held symbol d + amount < 2^64 ->
  balance_of symbol (data name) (add_tokens name symbol amount d) = balance_of symbol (data name) d + amount.
Proof.
  intros Hd Ha Hb. unfold add_tokens, balance_of. destruct (token_accounts d !! (symbol, data name)) as [b|] eqn:Eb;
    cbn; rewrite lookup_insert_eq; cbn; [|lia].
  pose proof (all_accounts d Hd _ _ Eb) as [Ek Hr _]. injection Ek as Es _.
  pose proof (held_account d _ b symbol Hd Eb) as Hle. unfold held_in in Hle. rewrite <- Es, Z.eqb_refl in Hle.
  apply Z.mod_small. lia.
Qed.

Lemma step_only_sender_pays from d d' s n : token_step from d d' -> ledger d -> n <> data from ->
  balance_of s n d <= balance_of s n d'.
Proof.
  intros Hstep Hd Hn. pose proof (proj1 Hd) as Hok.
  destruct Hstep as [Hs|s' total max _ _ Hs|s' t _ _ Hs|to s' t b a Ht _ Hb Ha Hs|s' t b a _ _ _ _ Hs|s' t k _ _ _ _ _ Hs];
    rewrite (same_balance _ _ s n Hs); try done.
  - unfold balance_of. rewrite add_tokens_other by (intros [= _ ?]; done). done.
  - destruct (remove_tokens_ledger d s' (data from) b a Hok Hb Ha) as [Hok1 Hh1].
    pose proof (accounted_bound d s' t Hd Ht) as Hbound. destruct (all_tokens d Hok _ _ Ht) as [_ Hburned].
    set (d1 := d <| token_accounts ::= _ |>) in *.
    assert (H1 : balance_of s n d1 = balance_of s n d).
    { unfold balance_of, d1. cbn. rewrite lookup_insert_ne; [done|intros [= _ ?]; done]. }
    destruct (decide ((s, n) = (s', data to))) as [[= -> ->]|Hne].
    + rewrite balance_add; [lia|done|lia|]. rewrite Hh1, Z.eqb_refl. lia.
    + unfold balance_of in *. rewrite add_tokens_other by done. rewrite H1. done.
  - unfold balance_of. cbn. rewrite lookup_insert_ne; [done|intros [= _ ?]; done].
  - unfold balance_of. rewrite add_tokens_other by (intros [= _ ?]; done). done.
Qed.

Lemma step_paused from d d' s t : token_step from d d' -> tokens d !! s = Some t -> paused t = true ->
  (forall n, token_accounts d' !! (s, n) = token_accounts d !! (s, n)) /\
  exists t', tokens d' !! s = Some t' /\ total_supply_ t' = total_supply_ t /\ burned t' = burned t.
Proof.
  intros Hstep Ht Hp.
  destruct Hstep as [[Ht' Ha']|s' total max Hn _ [Ht' Ha']|s' u Hu _ [Ht' Ha']|to s' u b a Hu Hq Hb _ [Ht' Ha']
    |s' u b a Hu Hq Hb _ [Ht' Ha']|s' u k Hu Hq _ _ _ [Ht' Ha']]; rewrite Ha', Ht'; [by eauto| | | | |];
    try (assert (Hne : s <> s') by congruence).
  - split; [intros n; rewrite add_tokens_other by congruence; done|]. exists t. split; [|done].
    rewrite tokens_add. cbn. by rewrite lookup_insert_ne.
  - split; [done|]. cbn. destruct (decide (s = s')) as [->|Hne].
    + rewrite lookup_insert_eq. eexists. split; [done|]. assert (u = t) by congruence. by subst u.
    + rewrite lookup_insert_ne by done. eauto.
  - split; [|exists t; split; [|done]].
    + intros n. rewrite add_tokens_other by congruence. cbn. rewrite lookup_insert_ne by congruence. done.
    + by rewrite tokens_add.
  - split; [|exists t; split; [|done]].
    + intros n. cbn. rewrite lookup_insert_ne by congruence. done.
    + cbn. by rewrite lookup_insert_ne.
  - split; [intros n; rewrite add_tokens_other by congruence; done|]. exists t. split; [|done].
    rewrite tokens_add. cbn. by rewrite lookup_insert_ne.
Qed.
