(* ===== verification/PluginTheorems.v ===== *)
(** * PluginTheorems: what the write queue and block production guarantee. *)
From Stdlib Require Import String.
From S2P Require Import Prelude Safe Names Asset Version Config Authority Raw Operations Validate.
From S2P Require Import Objects State Frame Economics Votes Money Balance EvalWitness EvalAccount.
From S2P Require Import EvalTransfer EvalEscrow EvalVote EvalContent Evaluators Block SignState.
From S2P Require Import Transactions WitnessSchedule Periodic Hardforks Blocks Supply Genesis ForkDb.
From S2P Require Import BlockLog Node NodeFacts Examples NodeTheorems ChainPlugin WitnessPlugin P2pPlugin.
Local Open Scope Z_scope.
Local Open Scope list_scope.

(** ** The write queue *)
Section queue.
  Context {cfg : sophiatx_config} {ext : externals} {itp : interpreters} {cr : crypto} {sg : signer}.
  Context {T : Type} {st : block_store T} {Q : Type} `{lockfree_queue_laws Q}.
  Implicit Types (n : node T) (w : writer (T := T) (Q := Q)).

(** C9: the write queue refines the sequential application of the requests: however
    submissions and turns of the write thread interleave, there is a [k] such that the
    database is what performing the first [k] submitted requests one after another
    leaves, their contexts hold exactly what each of them returned or threw at its
    turn, with the promise completed once, and the contexts after them are untouched,
    their promises open. *)
Theorem write_queue_serves_in_order n hold now es w :
  run es (start_write_processing (Q := Q) n hold now) = Some w ->
  exists k l, (k <= length (submitted es))%nat /\
    one_by_one (take k (submitted es)) n = Some (l, database w) /\
    contexts w = answered (take k (submitted es)) l ++ waiting_contexts (drop k (submitted es)) /\
    (forall i x, contexts w !! i = Some x -> promise_set x = if decide (i < k)%nat then 1%nat else 0%nat).
Proof.
  intros Hr. destruct (served_run n es [] 0 _ _ (served_start n hold now) Hr) as (k & _ & Hs).
  cbn [app] in Hs. pose proof Hs as (Hk & _ & l & Hl & Hc). exists k, l.
  split_and!; [done..|]. intros i x. by apply (served_context n (submitted es)).
Qed.

(** C25: every caller gets its answer: once the write thread has had two turns for each
    request that was in the queue or in its hands, the promises of all of them are
    completed, whatever is submitted meanwhile and however the clock makes it give up
    and take the write lock again. *)
Theorem requests_are_answered n hold now es1 w1 es2 w2 i x :
  run es1 (start_write_processing (Q := Q) n hold now) = Some w1 -> run es2 w1 = Some w2 ->
  (2 * (length (in_hand (cxt w1)) + length (queued (write_queue w1))) <= turns es2)%nat ->
  (i < length (submitted es1))%nat -> contexts w2 !! i = Some x -> promise_set x = 1%nat.
Proof.
  intros H1 H2 Ht Hi Hx. destruct (served_run n es1 [] 0 _ _ (served_start n hold now) H1) as (k & _ & Hs).
  cbn [app] in Hs. pose proof (running_run _ _ _ H1) as Hrun. cbn in Hrun.
  destruct (progress_run n es2 _ _ _ _ Hs Hrun H2) as (k' & Hs' & Hp).
  rewrite (served_context _ _ _ _ _ _ Hs' Hx), decide_True; [done|].
  destruct Hs as (Hk & Hq & _). apply (f_equal length) in Hq. rewrite length_app, length_seq in Hq.
  unfold progress in Hp. assert (length (in_hand (cxt w2)) <= 1)%nat by (destruct (cxt w2); cbn; lia). lia.
Qed.
End queue.

(** ** Block production *)
Section production.
  Context {cfg : sophiatx_config} {ext : externals} {itp : interpreters} {cr : crypto} {sg : signer}.
  Implicit Types (s : db) (p : witness_plugin).

(** C10: the plugin decides to produce exactly when production is enabled or the next slot
    is not past, the clock, rounded to the second, shows the time of a slot, that slot is
    scheduled for a witness of this node whose signing key the node has, and enough
    witnesses take part; the block it asks for is that of the slot and the witness, with
    that key.  If the keys are filed under their public keys and the name of the
    witness reads back, the checks [generate_block] makes first all pass. *)
Theorem production_decision_exact now s p p' when owner key skip :
  (decide_production now s p = Ok (p', Produce when owner key skip) <->
   may_produce now s p when owner key /\ p' = p <| _production_enabled := true |> /\ skip = _production_skip_flags p) /\
  (forall str, may_produce now s p when owner key -> keys_ok p -> 0 <= get_slot_at_time_in s when ->
   string_of_name owner = Ok str -> name_eqb (fixed_string str) owner = true ->
   check_production when owner key skip s = Ok (tt, s)).
Proof.
  split; [apply decide_produce_iff|]. intros str Hm Hk Hs. by apply (may_produce_passes now s p).
Qed.

(** No witness signs two blocks for a slot: in a state whose head block has the time
    of a slot, the plugin does not produce as long as the clock, rounded to the second,
    has not passed that time. *)
Theorem one_block_per_slot now s p p' when owner key skip :
  0 < SOPHIATX_BLOCK_INTERVAL -> head_block_number (dgpo s) <> 0 ->
  0 <= time (dgpo s) -> slot_base s + SOPHIATX_BLOCK_INTERVAL < 2^32 -> rounded now <= time (dgpo s) ->
  decide_production now s p <> Ok (p', Produce when owner key skip).
Proof.
  intros Hi Hn Ht Hb Hr H. apply decide_produce_iff in H as [[_ Hs _ _ _ _ _] _]. apply Hs.
  rewrite slot_at_time_val by (done || apply u32_range).
  enough (rounded now < slot_base s + SOPHIATX_BLOCK_INTERVAL) as E by (by apply Z.ltb_lt in E as ->).
  unfold slot_base in *. destruct (Z.eqb_spec (head_block_number (dgpo s)) 0); [done|].
  pose proof (Z.mod_pos_bound (time (dgpo s)) SOPHIATX_BLOCK_INTERVAL Hi).
  pose proof (Z.div_mod (time (dgpo s)) SOPHIATX_BLOCK_INTERVAL). lia.
Qed.

(** A scheduled witness does not miss its slot: when slot [n] belongs to a witness of
    this node with its key at hand, participation suffices and production is enabled (or
    [n] is the next slot), and the loop started at least half a second before the slot
    and spends at most 750 ms per round, then some round wakes up in the window of the
    slot and decides to produce its block. *)
Theorem scheduled_witness_produces s p n owner w key busy t0 :
  0 < SOPHIATX_BLOCK_INTERVAL -> 0 <= time (dgpo s) -> 1 <= n ->
  slot_base s + n * SOPHIATX_BLOCK_INTERVAL < 2^32 ->
  _production_enabled p = true \/ n = 1 ->
  get_scheduled_witness n s = Ok (owner, s) -> controls p owner = true ->
  get_witness owner s = Ok (w, s) -> _private_keys p !! signing_key w = Some key ->
  _required_witness_participation p <= witness_participation_rate s ->
  0 <= t0 <= time_point_of_sec (get_slot_time_in s n) - 500000 -> (forall i, 0 <= busy i <= 750000) ->
  exists k, decide_production (wakes busy t0 k) s p =
    Ok (p <| _production_enabled := true |>, Produce (get_slot_time_in s n) owner key (_production_skip_flags p)).
Proof.
  intros Hi Ht Hn Hb Hen Hs Hc Hw Hk Hp Ht0 Hbusy.
  destruct (wakes_within busy t0 _ Ht0 Hbusy) as [k Hwin]. exists k.
  pose proof (slot_base_range s Hi Ht) as Hr. pose proof (slot_time_val s n Hi Ht Hn Hb) as Hv.
  assert (Hround : rounded (wakes busy t0 k) = get_slot_time_in s n).
  { unfold rounded, time_point_sec_of, time_point_of_sec in *. rewrite Z.quot_div_nonneg by lia.
    set (v := get_slot_time_in s n) in *. clearbody v.
    replace ((wakes busy t0 k + 500000) / 1000000) with v; [apply Z.mod_small; nia|].
    apply Z.div_unique with (wakes busy t0 k + 500000 - v * 1000000); lia. }
  assert (Hslot : get_slot_at_time_in s (get_slot_time_in s n) = n).
  { assert (SOPHIATX_BLOCK_INTERVAL <= n * SOPHIATX_BLOCK_INTERVAL) by nia.
    rewrite slot_at_time_val by nia. rewrite Hv, (proj2 (Z.ltb_ge _ _)) by lia.
    replace (slot_base s + n * SOPHIATX_BLOCK_INTERVAL - slot_base s) with (n * SOPHIATX_BLOCK_INTERVAL) by lia.
    apply Z.div_mul. lia. }
  apply decide_produce_iff. split_and!; [|done|done].
  split; rewrite ?Hround, ?Hslot; try done.
  - destruct Hen as [?| ->]; [by left|by right].
  - lia.
  - by exists w.
Qed.
End production.

(** ** Memos *)
Section memos.
  Context {kd : key_derivation}.

Lemma refuse_keys_spec found keys : refuse_keys found keys =
  if existsb (fun k => existsb (Z.eqb k) keys) found then Throw plugin_exception else Ok tt.
Proof.
  unfold refuse_keys. induction found as [|k found IH]; [done|]. cbn [forM existsb]. rewrite IH.
  assert (Hk : forM keys (fun key => sophiatx_assert (negb (k =? key)) plugin_exception)
    = if existsb (Z.eqb k) keys then Throw plugin_exception else Ok tt).
  { clear IH. induction keys as [|key keys IHk]; [done|]. cbn [forM existsb]. rewrite IHk.
    by destruct (k =? key). }
  rewrite Hk. by destruct (existsb (Z.eqb k) keys).
Qed.

(** While transactions are taken in, a transfer is refused exactly when a private key
    its memo gives away, as an extended key or as the password of the account, belongs
    to a key of the owner or active authority or to the memo key of the sender;
    operations of other types and empty memos always pass. *)
Theorem memo_keys_refused o account auth str s :
  producing s = true -> get_account (tr_from o) s = Ok (account, s) -> get_account_auth (tr_from o) s = Ok (auth, s) ->
  string_of_name (acc_name account) = Ok str ->
  pre_operation (op_transfer o) s =
    if existsb (fun k => existsb (Z.eqb k) (keys_of_memo (tr_memo o) str))
         (get_keys (owner_auth auth) ++ get_keys (active_auth auth) ++ [memo_key account])
       && (Z.of_nat (length (tr_memo o)) >? 0)
    then Throw plugin_exception else Ok (tt, s).
Proof.
  intros Hp Ha Hau Hn. unfold pre_operation, is_producing, gets, mbind at 1, ST_bind at 1. rewrite Hp.
  cbn [whenM visit_operation]. unfold whenM. destruct (_ >? 0); [|by rewrite andb_false_r]. rewrite andb_true_r.
  unfold mbind, ST_bind. rewrite Ha, Hau. unfold lift, check_memo. rewrite Hn. cbn [mbind res_bind].
  rewrite !refuse_keys_spec, !existsb_app. by repeat destruct (existsb (fun _ => _) _).
Qed.
End memos.

(** ** Synchronization *)
Section sync.
  Context {cfg : sophiatx_config} {ext : externals} {itp : interpreters} {cr : crypto} {tp : transaction_packing}.
  Context {T : Type} {st : block_store T}.
  Implicit Types (n : node T).

(** The synopsis of a chain: once the range is found, the loop ends and lists the
    ids of at most 33 blocks, numbers strictly ascending from the last irreversible
    block (or the first block) and never beyond the end of the range, the distance to
    the end halving with every step; without further blocks announced the last id is
    the reference point itself. *)
Theorem synopsis_thins_out h k n low nf high fh n1 :
  synopsis_range h n = Done (Some (low, nf, high, fh)) n1 ->
  0 <= low -> 1 <= high -> low <= high -> 0 <= k -> high + k < 2^32 - 2 ->
  exists l, get_blockchain_synopsis h k n = collect (pick_id nf fh) l [] n1 /\
    hd_error l = Some (if low =? 0 then 1 else low) /\ thinning (high + k) l /\
    Forall (fun x => 1 <= x <= high) l /\ (length l <= 33)%nat /\ (k = 0 -> last l = Some high).
Proof.
  intros Hr H0 H1 Hl Hk Hb. set (low' := if low =? 0 then 1 else low).
  assert (1 <= low' <= high) by (subst low'; destruct (Z.eqb_spec low 0); lia).
  destruct (synopsis_numbers_spec 33 low' high (high + k)) as (l & Hn & Ht & Hin & Hlen & Hlast); [lia..|].
  exists (low' :: l). split_and!; [|done|done| |done|intros ->; apply Hlast; lia].
  - unfold get_blockchain_synopsis. unfold mbind at 1, NM_bind at 1. rewrite Hr. fold low'.
    unfold u32. rewrite Z.mod_small by lia. by apply synopsis_loop_collect.
  - eapply Forall_impl; [exact Hin|]. cbn. lia.
Qed.

(** The answer to a synopsis starts at the newest id of it that this node has on its
    own chain (all newer ones are unknown here or belong to other forks) or at the first
    block when the peer has none, and lists the ids of that block and of the next ones,
    without a gap, up to the limit or the head, whichever comes first; with a limit above
    one a peer that is behind learns of at least one block after the common one. *)
Theorem ids_follow_last_known synopsis limit n ids rest n' :
  let head := head_block_number (dgpo (chain n)) in
  0 < head < 2^32 - 1 -> 0 <= limit -> get_block_ids synopsis limit n = Done (ids, rest) n' ->
  exists h n1, last_known_block synopsis n = Done h n1 /\ rest = remaining_items head ids /\
    (h = null_hash \/ exists newer older n2 n3, rev synopsis = newer ++ h :: older /\ passed_over newer n n2 /\
       is_known_block h n2 = Done true n3 /\ is_included_block h n3 = Done true n1) /\
    (0 <= num_from_id h <= head ->
     let start := Z.max 1 (num_from_id h) in
     collect get_block_id_for_num (seqZ start (Z.min limit (head - start + 1))) [] n1 = Done ids n' /\
     (1 < limit -> num_from_id h < head -> (1 < length ids)%nat \/ num_from_id h = 0 /\ (0 < length ids)%nat)).
Proof.
  cbv zeta. set (head := head_block_number (dgpo (chain n))). intros Hh Hl H. unfold get_block_ids in H.
  apply nbind_Done in H as (hd & n0 & H0 & H). apply reads_Done in H0 as [-> ->]. fold head in H.
  destruct (Z.eqb_spec head 0); [lia|]. apply nbind_Done in H as (h & n1 & Hk & H).
  apply nbind_Done in H as (r & n2 & Hi & H). injection H as <- <- <-.
  exists h, n1. split_and!; [done|done| |].
  - unfold last_known_block in Hk. destruct (empty_synopsis synopsis); [left; by injection Hk|].
    destruct (last_known_of_Done _ _ _ _ Hk) as (newer & older & n3 & E & Hp & [?|(n4 & ? & ?)]); [by left|].
    right. by exists newer, older, n3, n4.
  - intros Hn. assert (Hc : collect get_block_id_for_num
      (seqZ (Z.max 1 (num_from_id h)) (Z.min limit (head - Z.max 1 (num_from_id h) + 1))) [] n1 = Done r n2).
    { eapply list_ids_start; [..|exact Hi]; lia. }
    split; [exact Hc|]. intros Hl2 Hlt. apply collect_length in Hc. rewrite length_seqZ in Hc. cbn in Hc. lia.
Qed.
End sync.

(** ** Examples *)
#[export] Instance list_queue : lockfree_queue (list nat) := {|
  queue_empty := [];
  queue_push c q := q ++ [c];
  queue_pop q := match q with [] => None | c :: q => Some (c, q) end |}.
#[export] Instance list_queue_laws : lockfree_queue_laws (list nat).
Proof. refine {| queued q := q |}; [done|done|by intros [|c q]]. Defined.
#[export] Instance example_signer : signer := {|
  private_key := Z; get_public_key k := k; sign_compact _ d _ := d; pack_size_header := 100 |}.

(** A small chain: one witness, scheduled, and alice. *)
Definition miner : account_name_type := SOPHIATX_INIT_MINER_NAME.
Definition slot_time : Z := 1531512803.
Definition miner_object : witness_object := (default_witness 0) <| wit_owner := miner |> <| signing_key := 1 |>.
Definition alice_object : account_object := (default_account 0) <| acc_name := alice |> <| memo_key := 11 |>.
Definition alice_authority : account_authority_object :=
  AccountAuthority 0 alice (Authority 1 [] [(11, 1)]) (Authority 1 [] [(11, 1)]) 0.
Definition small_state : db :=
  empty_db <| dgpo ::= fun g => g <| time := 1531512800 |> <| recent_slots_filled := 2^128 - 1 |> |>
    <| wso ::= fun w => w <| current_shuffled_witnesses := [miner] |> <| num_scheduled_witnesses := 1 |> |>
    <| witnesses := {[ data miner := miner_object ]} |> <| producing := true |>
    <| accounts := {[ data alice := alice_object ]} |> <| account_auths_ := {[ data alice := alice_authority ]} |>.
Definition small_node : node block_log := example_node <| chain := small_state |>.

(** Two requests that the database refuses, a third that is not served. *)
Definition empty_transaction : signed_transaction := example_transaction 1531512900 [].
Definition example_events : list event :=
  [Submit (push_transaction_request empty_transaction) 0; Turn 1531512800000000 1531512800000000;
   Submit (push_transaction_request empty_transaction) 0; Turn 1531512800000000 1531512800900000;
   Turn 1531512801000000 1531512801000000; Submit (push_transaction_request empty_transaction) 0].
Definition example_start : writer (T := block_log) (Q := list nat) :=
  start_write_processing small_node 500 1531512800000000.
Definition is_run (o : option (writer (T := block_log) (Q := list nat))) : bool :=
  match o with Some _ => true | None => false end.
Lemma is_run_true o : is_run o = true -> exists w, o = Some w.
Proof. destruct o as [w|]; [by exists w|done]. Qed.

Lemma write_queue_serves_in_order_witness : exists w,
  run example_events example_start = Some w /\ exists k l,
    one_by_one (take k (submitted example_events)) small_node = Some (l, database w).
Proof.
  destruct (is_run_true (run example_events example_start)) as [w E]; [vm_compute; reflexivity|].
  exists w. split; [exact E|].
  destruct (write_queue_serves_in_order small_node 500 1531512800000000 example_events w E) as (k & l & _ & Hl & _).
  exists k, l. exact Hl.
Defined.

Definition served_events : list event :=
  [Turn 1531512800000000 1531512800000000; Turn 1531512800000000 1531512800900000].
Lemma requests_are_answered_witness : exists w x,
  run served_events (submit (push_transaction_request empty_transaction) 0 example_start) = Some w /\
  contexts w !! O = Some x /\ promise_set x = 1%nat.
Proof.
  destruct (is_run_true (run served_events (submit (push_transaction_request empty_transaction) 0 example_start)))
    as [w E]; [vm_compute; reflexivity|].
  destruct (served_run small_node served_events _ _ _ _
    (served_submit _ _ _ _ (push_transaction_request empty_transaction) 0 (served_start small_node 500 1531512800000000)) E)
    as (k & _ & Hs).
  apply contexts_length in Hs. destruct (lookup_lt_is_Some_2 (contexts w) O) as [x Hx]; [rewrite Hs; cbn; lia|].
  exists w, x. split; [exact E|]. split; [exact Hx|].
  refine (requests_are_answered small_node 500 1531512800000000 [Submit (push_transaction_request empty_transaction) 0]
    _ served_events w O x eq_refl E _ _ Hx); cbn; lia.
Defined.

Definition example_plugin : witness_plugin :=
  WitnessPlugin false 6700 skip_nothing {[ 1 := (1 : private_key) ]} [miner].

Lemma example_may_produce : may_produce (slot_time * 1000000 + 499999) small_state example_plugin slot_time miner 1.
Proof.
  split.
  - right. vm_compute. discriminate.
  - vm_compute. discriminate.
  - vm_compute. reflexivity.
  - vm_compute. reflexivity.
  - exists miner_object. split; vm_compute; reflexivity.
  - vm_compute. discriminate.
  - vm_compute. split; reflexivity.
Qed.
Lemma production_decision_exact_witness :
  decide_production (slot_time * 1000000 + 499999) small_state example_plugin =
    Ok (example_plugin <| _production_enabled := true |>, Produce slot_time miner 1 0) /\
  check_production slot_time miner (1 : private_key) 0 small_state = Ok (tt, small_state).
Proof.
  assert (Hk : keys_ok example_plugin) by (intros k key Hk; unfold example_plugin in Hk;
    cbn [_private_keys] in Hk; by apply lookup_singleton_Some in Hk as [<- <-]).
  assert (Hs : 0 <= get_slot_at_time_in small_state slot_time) by (vm_compute; discriminate).
  assert (Hn : string_of_name miner = Ok (bytes_of_string "initminer")) by (vm_compute; reflexivity).
  assert (He : name_eqb (fixed_string (bytes_of_string "initminer")) miner = true) by (vm_compute; reflexivity).
  destruct (production_decision_exact (slot_time * 1000000 + 499999) small_state example_plugin
    (example_plugin <| _production_enabled := true |>) slot_time miner 1 0) as [[_ H1] H2].
  exact (conj (H1 (conj example_may_produce (conj eq_refl eq_refl))) (H2 _ example_may_produce Hk Hs Hn He)).
Defined.

Definition produced_state : db := small_state <| dgpo ::= fun g => g <| head_block_number := 1 |> <| time := slot_time |> |>.
Lemma one_block_per_slot_witness :
  decide_production (slot_time * 1000000 + 400000) produced_state example_plugin <>
    Ok (example_plugin <| _production_enabled := true |>, Produce slot_time miner (1 : private_key) 0).
Proof. apply one_block_per_slot; vm_compute; (reflexivity || discriminate). Defined.

Lemma scheduled_witness_produces_witness : exists k,
  decide_production (wakes (fun _ => 700000) 1531512800000000 k) small_state example_plugin =
    Ok (example_plugin <| _production_enabled := true |>, Produce slot_time miner (1 : private_key) 0).
Proof.
  refine (scheduled_witness_produces small_state example_plugin 1 miner miner_object (1 : private_key) (fun _ => 700000)
    1531512800000000 _ _ _ _ (or_intror eq_refl) _ _ _ _ _ _ _).
  1, 4, 5, 6, 7, 8: vm_compute; reflexivity.
  1-2, 3: vm_compute; discriminate.
  - vm_compute. split; discriminate.
  - intros i. lia.
Defined.

#[export] Instance example_keys : key_derivation := {|
  extended_key_from_base58 s := match s with [] => None | c :: _ => Some (c - 37) end;
  key_of_seed s := - Z.of_nat (length s) |}.
(** The memo of the transfer is the extended private key of alice. *)
Definition leaking_transfer : transfer_operation := {|
  tr_fee := sphtx 10000; tr_from := alice; tr_to := bob; tr_amount := sphtx 5000000; tr_memo := [48] |}.
Lemma memo_keys_refused_witness : pre_operation (op_transfer leaking_transfer) small_state = Throw plugin_exception.
Proof.
  exact (memo_keys_refused leaking_transfer alice_object alice_authority (bytes_of_string "alice") small_state
    eq_refl eq_refl eq_refl eq_refl).
Defined.

(** A node with five blocks, the ids of which its summaries keep. *)
#[export] Instance example_transaction_packing : transaction_packing :=
  {| unpack_transaction _ := Throw assert_exception |}.
Definition id_of (k : Z) : hash160 := Hash160 (endian_reverse_u32 k) k 0 0 0.
Definition synced_node : node block_log :=
  small_node <| chain ::= fun s => s <| dgpo ::= fun g => g <| head_block_number := 5 |> <| last_irreversible_block_num := 2 |> |>
    <| block_summaries := list_to_map (map (fun k => (k, id_of k)) [1; 2; 3; 4; 5]) |> |>.

Lemma synopsis_thins_out_witness :
  get_blockchain_synopsis null_hash 0 synced_node = Done [id_of 2; id_of 4; id_of 5] synced_node /\
  exists l, get_blockchain_synopsis null_hash 0 synced_node = collect (pick_id 5 []) l [] synced_node
    /\ thinning 5 l /\ last l = Some 5.
Proof.
  split; [vm_compute; reflexivity|].
  destruct (synopsis_thins_out null_hash 0 synced_node 2 5 5 [] synced_node) as (l & H1 & _ & H2 & _ & _ & H3).
  1: vm_compute; reflexivity.
  1-5: lia.
  exists l. exact (conj H1 (conj H2 (H3 eq_refl))).
Defined.

Lemma ids_follow_last_known_witness :
  get_block_ids [null_hash; id_of 9] 3 synced_node = Done ([id_of 1; id_of 2; id_of 3], 2) synced_node /\
  exists h n1, last_known_block [null_hash; id_of 9] synced_node = Done h n1.
Proof.
  assert (E : get_block_ids [null_hash; id_of 9] 3 synced_node = Done ([id_of 1; id_of 2; id_of 3], 2) synced_node)
    by (vm_compute; reflexivity).
  split; [exact E|].
  assert (Hh : 0 < head_block_number (dgpo (chain synced_node)) < 2^32 - 1) by (split; reflexivity).
  destruct (ids_follow_last_known [null_hash; id_of 9] 3 synced_node _ _ _ Hh ltac:(lia) E) as (h & n1 & H & _).
  by exists h, n1.
Defined.
