(* ===== verification/HistoryTheorems.v ===== *)
(** * HistoryTheorems: what the key lookup and the account history promise. *)
From Stdlib Require Import String.
From S2P Require Import Prelude Safe Names Asset Version Config Authority Raw Operations Validate.
From S2P Require Import Objects State Frame Economics Votes Money Balance EvalWitness EvalAccount.
From S2P Require Import EvalTransfer EvalEscrow EvalVote EvalContent Evaluators Block SignState.
From S2P Require Import Transactions WitnessSchedule Periodic Hardforks Blocks Supply Genesis ForkDb.
From S2P Require Import BlockLog Node NodeFacts Examples NodeTheorems ChainPlugin WitnessPlugin P2pPlugin.
From S2P Require Import AccountByKey AccountHistory PluginTheorems.
Local Open Scope Z_scope.
Local Open Scope list_scope.

Section lookup.
  Context {cfg : sophiatx_config} {ext : externals} {itp : interpreters}.

(** C24: the key lookup is the index of the authorities: whatever operations are applied,
    other than the deletion and the reset of an account, a pair of a key and an account
    is in the table exactly when the key is in the owner or the active authority of the
    account, provided it was so before and every authority carried the name under
    which it is kept. The interpreters of custom operations leave the authorities alone. *)
Theorem key_lookup_exact ops p s p' s' :
  interpreters_keep account_auths_ -> forallb (fun op => negb (escapes_the_plugin op)) ops = true ->
  apply_all_notified ops p s = Ok (p', s') -> lookup_exact p s -> auths_named s ->
  lookup_exact p' s' /\ auths_named s'.
Proof.
  intros Hitp. revert p s. induction ops as [|op ops IH]; intros p s Hops H Hp Hn; cbn [apply_all_notified forallb] in *.
  - by injection H as <- <-.
  - apply andb_prop in Hops as [Hop Hops]. apply negb_true_iff in Hop.
    apply bind_Ok in H as (p1 & s1 & H1 & H). apply apply_notified_runs in H1 as (s0 & E & He & ->).
    destruct (followed_evaluate op p s0 s1 Hitp Hop He) as [Hp1 Hn1];
      [by eapply exact_auths|by eapply named_auths|by eapply IH].
Qed.

(** The deletion of an account leaves the lookup as it was although the authorities
    hold nothing but the null key any more: every key the account had is still listed. *)
Theorem deleted_keys_stay_listed o p s p' s' k :
  apply_notified (op_account_delete o) p s = Ok (p', s') -> lookup_exact p s -> auths_named s ->
  key_of s k (data (ad_account o)) -> k <> null_key ->
  (k, data (ad_account o)) ∈ key_lookup p' /\ ~ key_of s' k (data (ad_account o)).
Proof.
  intros H Hp Hn Hk Hnull. apply account_delete_not_followed in H as (-> & auth & Hauth & Hkeys).
  split; [by apply Hp|]. intros (auth' & Ha & Hin). rewrite Hauth in Ha. injection Ha as <-.
  rewrite Hkeys in Hin. set_solver.
Qed.

Implicit Types (p : history_plugin) (h : history).

(** Recording an operation never fails and does exactly this: each account it concerns
    whose name and operation are selected gets one entry with the next number, all of them
    refer to one stored copy of the operation, and with pruning the account keeps what is
    at most 30 entries behind the new one or at most 30 days old, without gaps; every
    other account keeps its entries. *)
Theorem operation_is_recorded p note now h :
  history_ok now h -> (forall a, next_sequence (entries_of a h) < 2^32) ->
  exists h', on_operation p note now h = Ok (tt, h') /\ history_ok now h' /\
    (forall item, item ∈ impacted_by note -> records p note item = true ->
       operation_objects h' !! next_operation_id h = Some (stored (next_operation_id h) note now) /\
       recorded (_prune p) now item (next_operation_id h) (entries_of (data item) h) h') /\
    (forall a, (forall item, item ∈ impacted_by note -> records p note item = true -> data item <> a) ->
       entries_of a h' = entries_of a h).
Proof.
  intros Hh Hroom.
  destruct (visit_items_spec p note now (impacted_by note) None h (impacted_by_NoDup note) Hh) as
    (new' & h' & E & Hok & _ & Hrec & Hsame); [intros; apply Hroom|done|].
  exists h'. split; [|done]. unfold on_operation. apply bind_Ok. by exists new', h'.
Qed.

(** The options select what they say: with ranges that do not overlap, given in any
    order, an account is tracked when there are no ranges or its name is in one of them,
    and an operation is recorded for it when it is named by the white list, or else is not
    named by the black list, or there is neither. *)
Theorem options_select o note item : disjoint_ranges (track_account_range o) ->
  records (plugin_initialize o) note item = true <->
  (track_account_range o = [] \/ Exists (in_range item) (track_account_range o)) /\
  match whitelist_ops o, blacklist_ops o with
  | Some args, _ => named_in args (note_op note)
  | None, Some args => ~ named_in args (note_op note)
  | None, None => True
  end.
Proof.
  intros Hd. destruct (load_ranges_spec _ Hd) as [Hs He]. unfold records. rewrite andb_true_iff.
  set (l := fold_left (fun l r => insert_range r l) (track_account_range o) []) in *.
  assert (Hl : _tracked_accounts (plugin_initialize o) = l).
  { unfold plugin_initialize. by destruct (whitelist_ops o), (blacklist_ops o). }
  rewrite is_tracked_exact by (by rewrite Hl). rewrite Hl.
  assert (Hnil : l = [] <-> track_account_range o = []).
  { split; intros E.
    - destruct (track_account_range o) as [|y l0]; [done|]. exfalso. apply (not_elem_of_nil y).
      rewrite <- E. apply He. by left.
    - destruct l as [|x l']; [done|]. exfalso. apply (not_elem_of_nil x). rewrite <- E. apply He. by left. }
  assert (Hex : Exists (in_range item) l <-> Exists (in_range item) (track_account_range o)).
  { rewrite !Exists_exists. by setoid_rewrite He. }
  rewrite Hnil, Hex. apply and_iff_compat_l. unfold is_selected, plugin_initialize.
  destruct (whitelist_ops o) as [args|], (blacklist_ops o) as [args'|]; cbn [_filter_content _op_list _blacklist];
    rewrite <- ?load_ops_spec; try case_bool_decide; naive_solver.
Qed.
End lookup.

(** ** Witnesses *)
Lemma is_ok_pair {A B} (r : res (A * B)) : is_ok r = true -> exists a b, r = Ok (a, b).
Proof. destruct r as [[a b]|e]; [by exists a, b|done]. Qed.

Definition rich_state : db :=
  small_state <| accounts := {[ data alice := alice_object <| balance := sphtx 1000000 |> ]} |>.
Definition alice_lookup : key_plugin := KeyPlugin {[ (11, data alice) ]} ∅.
Definition new_active_key : account_update_operation := {|
  au_fee := sphtx 0; au_account := alice; au_owner := None; au_active := Some (Authority 1 [] [(12, 1)]);
  au_memo_key := 11; au_json_metadata := [] |}.
Definition delete_alice : account_delete_operation := {| ad_fee := sphtx 0; ad_account := alice |}.

Lemma rich_auths : account_auths_ rich_state = {[ data alice := alice_authority ]}.
Proof. reflexivity. Qed.
Lemma rich_named : auths_named rich_state.
Proof. intros a auth H. rewrite rich_auths in H. apply lookup_singleton_Some in H as [<- <-]. reflexivity. Qed.
Lemma rich_key k a : key_of rich_state k a <-> k = 11 /\ a = data alice.
Proof.
  split.
  - intros (auth & H & Hk). rewrite rich_auths in H. apply lookup_singleton_Some in H as [<- <-].
    assert (E : keys_of_auth alice_authority = [11; 11]) by reflexivity. rewrite E in Hk. set_solver.
  - intros [-> ->]. exists alice_authority. split; [rewrite rich_auths; apply lookup_singleton_eq|].
    assert (E : keys_of_auth alice_authority = [11; 11]) by reflexivity. rewrite E. by left.
Qed.
Lemma rich_lookup : lookup_exact alice_lookup rich_state.
Proof. intros k a. rewrite rich_key. cbn [key_lookup alice_lookup]. set_solver. Qed.
Lemma no_interpreters {T} (f : db -> T) : interpreters_keep f.
Proof. intros app eval p s H. discriminate H. Qed.

Lemma key_lookup_exact_witness : exists p' s',
  apply_all_notified [op_account_update new_active_key] alice_lookup rich_state = Ok (p', s') /\ lookup_exact p' s'.
Proof.
  destruct (is_ok_pair (apply_all_notified [op_account_update new_active_key] alice_lookup rich_state))
    as (p' & s' & E); [vm_compute; reflexivity|].
  exists p', s'. split; [exact E|].
  exact (proj1 (key_lookup_exact [op_account_update new_active_key] _ _ _ _ (no_interpreters _) eq_refl E rich_lookup rich_named)).
Defined.

Lemma deleted_keys_stay_listed_witness : exists p' s',
  apply_notified (op_account_delete delete_alice) alice_lookup rich_state = Ok (p', s') /\
  (11, data alice) ∈ key_lookup p' /\ ~ key_of s' 11 (data alice).
Proof.
  destruct (is_ok_pair (apply_notified (op_account_delete delete_alice) alice_lookup rich_state))
    as (p' & s' & E); [vm_compute; reflexivity|].
  exists p', s'. split; [exact E|].
  refine (deleted_keys_stay_listed delete_alice _ _ _ _ 11 E rich_lookup rich_named _ _);
    [apply rich_key; split; reflexivity|discriminate].
Defined.

Definition history_example : history_options := {|
  track_account_range := [(bob, bob); (alice, alice)];
  whitelist_ops := Some [bytes_of_string "transfer_operation,custom_operation"]; blacklist_ops := None;
  disable_pruning := false |}.
Definition example_note : operation_notification := {|
  note_trx_id := null_hash; note_block := 7; note_trx_in_block := 0; note_op_in_trx := 0; note_virtual_op := 0;
  note_op := op_transfer leaking_transfer; note_fee_payer := alice |}.
Definition no_history : history := History ∅ 0 ∅ 0.
Lemma no_history_ok now : history_ok now no_history.
Proof.
  split; [|intros; apply lookup_empty]. intros a. assert (entries_of a no_history = []) as -> by reflexivity.
  by repeat constructor.
Qed.
Lemma history_example_disjoint : disjoint_ranges (track_account_range history_example).
Proof.
  apply (disjoint_snoc [(bob, bob)]); [apply (disjoint_snoc []); [constructor|vm_compute; discriminate|constructor]| |].
  - vm_compute. discriminate.
  - constructor; [|constructor]. left. vm_compute. reflexivity.
Qed.

Lemma options_select_witness :
  records (plugin_initialize history_example) example_note alice = true /\
  named_in [bytes_of_string "transfer_operation,custom_operation"] (op_transfer leaking_transfer).
Proof.
  assert (E : records (plugin_initialize history_example) example_note alice = true) by (vm_compute; reflexivity).
  split; [exact E|].
  exact (proj2 (proj1 (options_select history_example example_note alice history_example_disjoint) E)).
Defined.

Lemma operation_is_recorded_witness : exists h',
  on_operation (plugin_initialize history_example) example_note 1531512800 no_history = Ok (tt, h') /\
  recorded true 1531512800 alice 0 [] h'.
Proof.
  destruct (operation_is_recorded (plugin_initialize history_example) example_note 1531512800 no_history
    (no_history_ok _) (fun a => eq_refl)) as (h' & E & _ & Hrec & _).
  exists h'. split; [exact E|]. refine (proj2 (Hrec alice _ _)); [|vm_compute; reflexivity].
  left.
Defined.
