(* ===== verification/TextTheorems.v ===== *)
(** * TextTheorems: what is written as text is read back

    Assets, JSON values and keys survive printing and parsing; the JSON parser ends on every
    text without null characters and does not end on an array that starts with one; the
    readers of keys accept more texts than the one that is written. *)
From Stdlib Require Import String.
From S2P Require Import Prelude Safe Names Asset Double AssetText Json Config Raw KeyText.
Local Open Scope Z_scope.
Local Open Scope list_scope.

(** A conversion of decimal texts that rounds to the nearest double. *)
Definition nearest_lexical_cast : lexical_cast := {|
  lexical_cast_double := fun s =>
    let '(whole, fract) := split_at_dot s in
    finite <$> round_to_double false (number_of_digits (whole ++ fract)) (10 ^ Z.of_nat (length fract));
  trim_copy := fun s => rev (trim_left (rev (trim_left s))) |}.
Lemma split_at_dot_app whole fract : Forall is_digit_char whole -> split_at_dot (whole ++ [46] ++ fract) = (whole, fract).
Proof.
  induction 1 as [|c w Hc Hw IH]; [done|]. cbn [app split_at_dot] in *. unfold is_digit_char in Hc.
  destruct (Z.eqb_spec c 46); [lia|]. by rewrite IH.
Qed.
Lemma nearest_lexical_cast_laws : @lexical_cast_laws nearest_lexical_cast.
Proof.
  split.
  - intros whole fract r Hw Hf _ _ Hr. unfold lexical_cast_double, nearest_lexical_cast. by rewrite (split_at_dot_app whole fract Hw), Hr.
  - intros a s c Ha Hc. unfold trim_copy, nearest_lexical_cast. rewrite (trim_left_none (a :: _)) by done.
    rewrite app_comm_cons, rev_app_distr. cbn [rev app]. rewrite trim_left_none by done.
    cbn [rev]. by rewrite rev_app_distr, rev_involutive.
Qed.

(** The text of an asset reads back as the asset: for every amount the reader accepts
    ([0] to [10^15]) and every symbol of three to six plain characters, the two roundings
    to doubles on the way do not change the amount. *)
Theorem asset_text_roundtrip `{lexical_cast_laws} A cs :
  0 <= A <= SOPHIATX_MAX_SHARE_SUPPLY -> Forall symbol_char cs -> (3 <= length cs <= 6)%nat ->
  asset_from_string (asset_to_string (Asset A (pack_symbol cs))) = Ok (Asset A (pack_symbol cs)).
Proof.
  intros HA Hcs Hlen. destruct (asset_to_string_shape A cs HA Hcs Hlen) as (w & f & -> & Hw & Hwne & Hf & Hfl & Hv).
  assert (Hd : exists x y, round_to_double false A (10^6) = Some x /\ double_mul x SOPHIATX_SATOSHIS = Some y /\ double_round y = A).
  { destruct (Z.eq_dec A 0) as [->|]; [apply amount_through_double_0|apply amount_through_double; lia]. }
  destruct Hd as (x & y & Hx & Hy & Hr). by eapply asset_from_string_spec.
Qed.
Lemma asset_text_roundtrip_witness :
  @asset_from_string nearest_lexical_cast (asset_to_string (Asset 999999999999999 (pack_symbol (bytes_of_string "SPHTX"))))
    = Ok (Asset 999999999999999 (pack_symbol (bytes_of_string "SPHTX"))).
Proof.
  refine (@asset_text_roundtrip nearest_lexical_cast nearest_lexical_cast_laws 999999999999999 (bytes_of_string "SPHTX") _ _ _).
  - unfold SOPHIATX_MAX_SHARE_SUPPLY. lia.
  - repeat constructor.
  - cbn. lia.
Defined.


(** C34: reading a text without null characters ends: from some number of steps on, the
    result does not depend on the fuel, and it is a value or an exception.  Twice the length
    is enough. *)
Theorem json_parser_terminates s : no_nul s ->
  exists o, o <> Endless /\ forall fuel, (2 * length s < fuel)%nat -> from_string fuel s = o.
Proof.
  intros Hs. destruct (all_settle s Hs) as ((o & Ho & H) & _ & _). unfold from_string.
  destruct (check_string_depth s); [|exists (Failed assert_exception); done].
  exists o. split; [by intros ->|]. intros fuel Hf. apply H. lia.
Qed.
Lemma json_parser_terminates_witness :
  exists o, o <> Endless /\ forall fuel, (2 * length (bytes_of_string "[1,{") < fuel)%nat -> from_string fuel (bytes_of_string "[1,{") = o.
Proof. refine (json_parser_terminates (bytes_of_string "[1,{") _). repeat (constructor; [discriminate|]). constructor. Defined.

(** The parser never ends on an array that starts with a null character: however many
    steps it is given, neither [from_string] nor [is_valid] has a result.  Such a text can
    be the metadata of an operation. *)
Theorem json_nul_in_array_hangs fuel s :
  variant_from_stream fuel (91 :: 0 :: s) = Endless /\ is_valid fuel (91 :: 0 :: s) = Endless.
Proof.
  assert (H : variant_from_stream fuel (91 :: 0 :: s) = Endless).
  { destruct fuel as [|fuel]; [done|]. cbn. by rewrite array_loop_endless. }
  split; [done|]. unfold is_valid. by rewrite H.
Qed.

(** ** Keys *)
(** Bytes read back from their base-58 text, leading zeros included. *)
Theorem base58_roundtrip bs : bytes bs -> from_base58 (to_base58 bs) = Ok bs.
Proof. apply base58_reads_back. Qed.
Lemma base58_roundtrip_witness : from_base58 (to_base58 [0; 0; 255; 1; 128]) = Ok [0; 0; 255; 1; 128].
Proof. refine (base58_roundtrip [0; 0; 255; 1; 128] _). repeat (constructor; [lia|]). constructor. Defined.

Lemma to_base58_inj a b : bytes a -> bytes b -> to_base58 a = to_base58 b -> a = b.
Proof.
  intros Ha Hb E. pose proof (base58_reads_back a Ha) as H. rewrite E, base58_reads_back in H by done. by injection H.
Qed.
Lemma take_whole (l : list Z) r n : length l = n -> take n (l ++ r) = l.
Proof. intros <-. apply take_app_length. Qed.

(** Private keys, public keys and extended keys read back from their texts. *)
Theorem keys_read_back `{sha256_laws} `{ripemd160_laws} secret key extended :
  length secret = 32%nat -> bytes secret -> length key = 33%nat -> bytes key ->
  length extended = 78%nat -> bytes extended ->
  wif_to_key (key_to_wif secret) = Ok (Some secret) /\
  public_key_from_string (public_key_to_string key) = Ok key /\
  extended_key_from_string (extended_key_to_string extended) = Ok extended.
Proof.
  intros Hs Hsb Hk Hkb He Heb. split_and!.
  - unfold key_to_wif. rewrite wif_to_key_spec by (auto; lia). by rewrite take_whole.
  - pose proof (public_key_from_bytes key [] Hk Hkb (Forall_nil_2 _)) as E. by rewrite app_nil_r in E.
  - pose proof (extended_key_from_bytes extended [] He Heb (Forall_nil_2 _)) as E. by rewrite app_nil_r in E.
Qed.

(** Hashes that copy the start of the message. *)
Definition copied (n : nat) (d : list Z) : list Z := take n (map (fun x => x mod 256) d ++ repeat 0 n).
Lemma copied_bytes n d : bytes (copied n d).
Proof.
  apply Forall_take, Forall_app. split.
  - apply Forall_map, Forall_forall. intros x _. by apply Z.mod_pos_bound.
  - apply Forall_forall. intros x Hx%list_elem_of_In%repeat_spec. lia.
Qed.
Lemma copied_length n d : length (copied n d) = n.
Proof. unfold copied. rewrite length_take, length_app, repeat_length. lia. Qed.
Definition copied_sha256 : sha256_function := {| sha256_hash := copied 32 |}.
Lemma copied_sha256_laws : @sha256_laws copied_sha256.
Proof. split; intros d; [apply copied_length|apply copied_bytes]. Qed.
Definition copied_ripemd : externals := {| ripemd160_hash := copied 20 |}.
Lemma copied_ripemd_laws : @ripemd160_laws copied_ripemd.
Proof. split; intros d; [apply copied_length|apply copied_bytes]. Qed.
Lemma repeat_bytes x n : 0 <= x < 256 -> bytes (repeat x n).
Proof. intros Hx. apply Forall_forall. intros y Hy%list_elem_of_In%repeat_spec. by subst. Qed.
Lemma keys_read_back_witness :
  @wif_to_key copied_sha256 (@key_to_wif copied_sha256 (repeat 7 32)) = Ok (Some (repeat 7 32)) /\
  @public_key_from_string copied_ripemd (@public_key_to_string copied_ripemd (repeat 2 33)) = Ok (repeat 2 33) /\
  @extended_key_from_string copied_ripemd (@extended_key_to_string copied_ripemd (repeat 3 78)) = Ok (repeat 3 78).
Proof.
  refine (@keys_read_back copied_sha256 copied_sha256_laws copied_ripemd copied_ripemd_laws
    (repeat 7 32) (repeat 2 33) (repeat 3 78) eq_refl _ eq_refl _ eq_refl _); apply repeat_bytes; lia.
Defined.

(** The readers of keys accept other texts too.  The version byte of a private key is
    not looked at, neither are bytes beyond the thirty-two of the key; bytes after the check
    of a public key are ignored.  All these texts differ from the one that is written. *)
Theorem key_texts_are_not_unique `{sha256_laws} `{ripemd160_laws} version secret more key rest :
  0 <= version < 256 -> length secret = 32%nat -> bytes secret -> bytes more -> version <> 0x80 \/ more <> [] ->
  length key = 33%nat -> bytes key -> bytes rest -> rest <> [] ->
  (let text := to_base58 ((version :: secret ++ more) ++ take 4 (sha256_hash (version :: secret ++ more))) in
   wif_to_key text = Ok (Some secret) /\ text <> key_to_wif secret) /\
  (let text := SOPHIATX_ADDRESS_PREFIX ++ to_base58 (key ++ pack_u32 (key_check key) ++ rest) in
   public_key_from_string text = Ok key /\ text <> public_key_to_string key).
Proof.
  intros Hv Hs Hsb Hm Hdiff Hk Hkb Hr Hrne. cbv zeta. split; split.
  - rewrite wif_to_key_spec by (auto; by apply Forall_app). rewrite <- app_assoc. by rewrite take_whole.
  - intros E. apply to_base58_inj in E; cycle 1.
    { apply Forall_app. split; [constructor; [done|by apply Forall_app]|apply Forall_take, sha256_bytes]. }
    { constructor; [lia|]. apply Forall_app. split; [done|apply Forall_take, sha256_bytes]. }
    injection E as Ev Et. destruct Hdiff as [Hdiff|Hdiff]; [done|]. apply (f_equal length) in Et.
    rewrite !length_app, !length_take, !sha256_length in Et. destruct more; [done|]. cbn in Et. lia.
  - by apply public_key_from_bytes.
  - unfold public_key_to_string. intros E. apply app_inv_head, to_base58_inj in E; cycle 1.
    { apply Forall_app. split; [done|]. apply Forall_app. split; [apply pack_u32_bytes|done]. }
    { apply Forall_app. split; [done|apply pack_u32_bytes]. }
    apply app_inv_head in E. rewrite <- (app_nil_r (pack_u32 _)) in E at 2. by apply app_inv_head in E.
Qed.
Lemma key_texts_are_not_unique_witness :
  @wif_to_key copied_sha256 (to_base58 ((0 :: repeat 7 32 ++ [1]) ++ take 4 (copied 32 (0 :: repeat 7 32 ++ [1])))) = Ok (Some (repeat 7 32)) /\
  @public_key_from_string copied_ripemd
    (SOPHIATX_ADDRESS_PREFIX ++ to_base58 (repeat 2 33 ++ pack_u32 (@key_check copied_ripemd (repeat 2 33)) ++ [9])) = Ok (repeat 2 33).
Proof.
  destruct (@key_texts_are_not_unique copied_sha256 copied_sha256_laws copied_ripemd copied_ripemd_laws
    0 (repeat 7 32) [1] (repeat 2 33) [9]) as [[H1 _] [H2 _]].
  1: lia. 1: reflexivity. 1: apply repeat_bytes; lia. 1: constructor; [lia|constructor].
  1: left; discriminate. 1: reflexivity. 1: apply repeat_bytes; lia. 1: constructor; [lia|constructor]. 1: discriminate.
  split; [exact H1|exact H2].
Defined.

(** C35: exactly which texts the readers of keys accept, and the key they read. A private key is
    the first thirty-two bytes, completed with zeros, of what stands between a version byte, any, and
    four bytes that are the beginning of the SHA-256 of all before them, or of its SHA-256. A
    public key is read from the prefix and the digits of thirty-three bytes, the first four
    bytes of their RIPEMD-160 and anything more; an extended key from the check, seventy-eight bytes
    and anything more. Digits of no bytes stand for a key of zeros, if the check of it is zero. *)
Theorem key_readers_exact `{sha256_laws} `{ripemd160_laws} text :
  (forall secret, wif_to_key text = Ok (Some secret) <-> is_wif_text text secret) /\
  (forall key, public_key_from_string text = Ok key <-> is_key_text 33 (fun key check => key ++ check) text key) /\
  (forall key, extended_key_from_string text = Ok key <-> is_key_text 78 (fun key check => check ++ key) text key).
Proof.
  split_and!; intros k.
  - apply wif_to_key_exact.
  - apply key_of_string_exact; [intros; apply elem_of_app; by right| |apply public_reads_exactly].
    intros a c Hc E. by apply app_eq_nil in E as [_ E].
  - apply key_of_string_exact; [intros; apply elem_of_app; by left| |apply extended_reads_exactly].
    intros a c Hc E. by apply app_eq_nil in E as [E _].
Qed.
Definition short_wif : list Z := to_base58 ((1 :: [7; 7; 7]) ++ take 4 (copied 32 (1 :: [7; 7; 7]))).
Definition long_key : list Z := SOPHIATX_ADDRESS_PREFIX ++ to_base58 (repeat 2 33 ++ take 4 (copied 20 (repeat 2 33)) ++ [9]).
Lemma key_readers_exact_witness :
  @is_wif_text copied_sha256 short_wif ([7; 7; 7] ++ repeat 0 29) /\
  @is_key_text copied_ripemd 33 (fun key check => key ++ check) long_key (repeat 2 33) /\
  ~ @is_wif_text copied_sha256 (to_base58 [1; 7; 7; 7; 0; 0; 0; 0]) ([7; 7; 7] ++ repeat 0 29).
Proof.
  pose proof (@key_readers_exact copied_sha256 copied_sha256_laws copied_ripemd copied_ripemd_laws) as R.
  split; [|split].
  - apply (proj1 (R short_wif)). vm_compute. reflexivity.
  - apply (proj1 (proj2 (R long_key))). vm_compute. reflexivity.
  - intros Hw. apply (proj1 (R _)) in Hw. vm_compute in Hw. discriminate Hw.
Defined.
