(* ===== verification/TokenTheorems.v ===== *)
(** * TokenTheorems: what the custom tokens plugin guarantees, and where it does not

    The ledger of tokens and the safety of balances are invariants of every notification;
    issuing past 64 bits and pausing a token that does not exist are the two ways out. *)
From Stdlib Require Import String.
From S2P Require Import Prelude Safe Names Asset Double AssetText Json Version Config Authority Raw Operations.
From S2P Require Import Validate Objects AccountHistory PluginState CustomTokens Examples TextTheorems.
Local Open Scope Z_scope.
Local Open Scope list_scope.

(** ** Concrete operations of the application *)
#[local] Existing Instance nearest_lexical_cast.
Definition token_json (action : string) (rest : list entry) : list Z :=
  to_string legacy_generator (v_object
    ([(bytes_of_string "action", v_string (bytes_of_string action));
      (bytes_of_string "token_symbol", v_string (bytes_of_string "GOLD"))] ++ rest)).
Definition token_note (from : account_name_type) (recipients : list account_name_type) (json : list Z)
    : operation_notification :=
  OperationNotification (Hash160 1 0 0 0 0) 1 0 0 0
    (op_custom_json (CustomJson (Asset 0 SOPHIATX_SYMBOL_U64) from recipients 2 json)) from.
Definition GOLD : Z := Eval vm_compute in pack_symbol (bytes_of_string "GOLD").
Definition no_tokens : tokens_db := TokensDb ∅ ∅ [] [].
Definition gold_note : operation_notification := token_note alice []
  (token_json "create_token" [(bytes_of_string "total_supply", v_uint64 10); (bytes_of_string "max_supply", v_uint64 100)]).
Definition gold_transfer : operation_notification := token_note alice [bob]
  (token_json "transfer_token" [(bytes_of_string "amount", v_string (bytes_of_string "0.000010 GOLD"))]).
Definition notified (note : operation_notification) (d : tokens_db) : tokens_db :=
  match notify_post_apply_operation 2 30 note 100 0 0 d with Ok d' => d' | Throw _ => d end.
(** Alice has created ten units; and after she sent them to Bob. *)
Definition gold_db : tokens_db := Eval vm_compute in notified gold_note no_tokens.
Definition spent_db : tokens_db := Eval vm_compute in notified gold_transfer gold_db.

Lemma no_tokens_ledger : ledger no_tokens.
Proof. split; [split|]; intros ? ? H; cbn in H; by rewrite lookup_empty in H. Qed.

Lemma gold_created : notify_post_apply_operation 2 30 gold_note 100 0 0 no_tokens = Ok gold_db.
Proof. vm_compute. reflexivity. Qed.
Lemma gold_transferred : notify_post_apply_operation 2 30 gold_transfer 100 0 0 gold_db = Ok spent_db.
Proof. vm_compute. reflexivity. Qed.
Lemma gold_ledger : ledger gold_db.
Proof.
  destruct (notify_steps _ _ _ _ _ _ _ _ gold_created) as [Hs|(op & _ & _ & Hs)]; [by apply (ledger_same no_tokens)|].
  destruct (step_ledger _ _ _ Hs no_tokens_ledger) as [H|(s & t & n & Ht & _)]; [done|]. cbn in Ht. by rewrite lookup_empty in Ht.
Qed.

(** ** Theorems *)
(** C15: at every notification the tokens stay accounted: for every token, what the accounts
    hold and what was burned add up to the total supply, amounts are in 64 bits and every
    account holds a token that exists.  The tables start so.  There is one exception: the owner
    of a token issues so many units that its total supply wraps around at 64 bits, to a value
    that is still below the greatest supply, as the check of [issue_token] only asks. *)
Theorem tokens_accounted `{lexical_cast} app_id days note head_time created now d d' :
  ledger d -> notify_post_apply_operation app_id days note head_time created now d = Ok d' ->
  ledger no_tokens /\
  (ledger d' \/ exists op, note_op note = op_custom_json op /\ cj_app_id op = app_id /\ issue_wrapped (cj_sender op) d d').
Proof.
  intros Hd Hn. split; [apply no_tokens_ledger|].
  destruct (notify_steps _ _ _ _ _ _ _ _ Hn) as [Hs|(op & Ho & Ha & Hs)]; [left; by apply (ledger_same d)|].
  destruct (step_ledger _ _ _ Hs Hd) as [?|?]; [by left|right; by exists op].
Qed.
Lemma tokens_accounted_witness : ledger spent_db.
Proof.
  destruct (tokens_accounted 2 30 gold_transfer 100 0 0 gold_db spent_db gold_ledger gold_transferred)
    as [_ [Hl|(op & _ & _ & s & t & n & Ht & _ & _ & Hn & _ & _ & Ht')]]; [exact Hl|exfalso].
  change (tokens spent_db) with (tokens gold_db) in Ht'. rewrite Ht in Ht'. injection Ht' as Ht'.
  apply (f_equal total_supply_) in Ht'. cbn in Ht'. lia.
Defined.


Lemma check_passes `{lexical_cast} days note created now s d t : tokens d !! s = Some t -> paused t = false ->
  check_if_paused days note created now s d = (d, Ok tt).
Proof.
  intros Ht Hp. unfold check_if_paused, mbind, KST_bind, find_token, k_gets. by rewrite Ht, Hp.
Qed.
Lemma t_bind_ok {A B} (m : TM A) (k : A -> TM B) d d' a : m d = (d', Ok a) -> (mbind k m) d = k a d'.
Proof. intros E. unfold mbind, KST_bind. by rewrite E. Qed.

(** The check of [issue_token] can be passed with any amount that wraps the supply
    around: the supply shrinks, and the amount the owner gets is not bounded by the
    greatest supply. *)
Theorem issue_wraps_around `{lexical_cast} days note head_time created now from tmp d s t n :
  symbol_at "token_symbol" tmp = Ok s -> uint64_at "additional_amount" tmp = Ok n ->
  tokens d !! s = Some t -> paused t = false -> data (owner_name t) = data from ->
  0 <= total_supply_ t < 2^64 -> 2^64 <= total_supply_ t + n -> total_supply_ t + n - 2^64 < max_supply t ->
  exists d' t', issue_token days note head_time created now from tmp d = (d', Ok tt) /\
    tokens d' !! s = Some t' /\ total_supply_ t' = total_supply_ t + n - 2^64 /\ total_supply_ t' < total_supply_ t /\
    (token_accounts d !! (s, data from) = None -> balance_of s (data from) d' = n).
Proof.
  intros Hs Hn Ht Hp Ho Hr Hw Hm. pose proof (uint64_at_range _ _ _ Hn) as Hnr.
  assert (Hu : u64 (total_supply_ t + n) = total_supply_ t + n - 2^64).
  { unfold u64. symmetry. apply (Z.mod_unique _ _ 1); lia. }
  unfold issue_token. erewrite t_bind_ok by (unfold k_res; by rewrite Hs).
  erewrite t_bind_ok by (by eapply check_passes). erewrite t_bind_ok by (unfold k_res; by rewrite Hn).
  erewrite t_bind_ok by reflexivity. rewrite Ht. erewrite t_bind_ok by reflexivity.
  rewrite (proj2 (name_eqb_eq _ _) Ho), Hu. destruct (Z.gtb_spec (max_supply t) (total_supply_ t + n - 2^64)); [|lia].
  cbn [andb]. unfold modify_token, add_account_tokens, save_token_operation, k_puts, mbind, KST_bind.
  rewrite (modify_alter d s t) by done. set (d1 := d <| tokens ::= _ |>).
  eexists _, (t <| total_supply_ ::= fun x => u64 (x + n) |>). split; [reflexivity|]. split.
  { change (tokens (add_tokens from s n d1) !! s = Some (t <| total_supply_ ::= fun x => u64 (x + n) |>)).
    rewrite tokens_add. cbn. by rewrite lookup_insert_eq. }
  cbn. rewrite Hu. split; [done|]. split; [lia|]. intros Hnone.
  change (balance_of s (data from) (add_tokens from s n d1) = n). unfold add_tokens, balance_of.
  change (token_accounts d1) with (token_accounts d). rewrite Hnone. cbn. by rewrite lookup_insert_eq.
Qed.

(** All but six of the amounts of 64 bits, issued by Alice after she spent what she had. *)
Definition wrapping_issue : variant := v_object
  [(bytes_of_string "token_symbol", v_string (bytes_of_string "GOLD"));
   (bytes_of_string "additional_amount", v_uint64 (2^64 - 6))].
Definition gold_token : custom_token_object := CustomToken GOLD alice 10 100 0 false.
Definition fresh_db : tokens_db := Eval vm_compute in TokensDb {[GOLD := gold_token]}
  {[(GOLD, data bob) := CustomTokenAccount bob GOLD 10 1 1]} [] [].
Lemma issue_wraps_around_witness : exists d' t',
  issue_token 30 gold_note 100 0 0 alice wrapping_issue fresh_db = (d', Ok tt) /\
  tokens d' !! GOLD = Some t' /\ total_supply_ t' = 4 /\ balance_of GOLD (data alice) d' = 18446744073709551610 /\
  max_supply gold_token = 100.
Proof.
  destruct (issue_wraps_around 30 gold_note 100 0 0 alice wrapping_issue fresh_db GOLD gold_token (2^64 - 6))
    as (d' & t' & H1 & H2 & H3 & _ & H5).
  1-5: vm_compute; reflexivity.
  1-3: vm_compute; repeat split; discriminate.
  refine (ex_intro _ d' (ex_intro _ t' _)). split; [exact H1|]. split; [exact H2|]. split; [exact H3|].
  split; [apply H5; vm_compute; reflexivity|reflexivity].
Defined.

(** ** Pausing what does not exist *)
Lemma symbol_at_contains k v s : symbol_at k v = Ok s -> exists l, get_object v = Ok l /\ contains (key k) l = true.
Proof.
  unfold symbol_at, at_key. intros E. apply rbind_Ok in E as (x & E & _). apply rbind_Ok in E as (l & Hl & E).
  exists l. split; [done|]. unfold contains. by destruct (find_entry _ _).
Qed.

(** The action that pauses a token does not check that the token exists: the null
    pointer it gets for an unknown symbol is dereferenced, by a node that applies any
    operation of the application with such a text. *)
Theorem pausing_an_unknown_token_crashes `{lexical_cast} app_id days note head_time created now d op tmp s :
  note_op note = op_custom_json op -> cj_app_id op = app_id -> cj_json op <> [] -> parse_json (cj_json op) = Ok tmp ->
  (v ← at_key (key "action") tmp; as_string v) = Ok (key "pause_token") ->
  symbol_at "token_symbol" tmp = Ok s -> tokens d !! s = None ->
  notify_post_apply_operation app_id days note head_time created now d = Throw crash.
Proof.
  intros Hop Happ Hne Hparse Hact Hs Hnone. destruct (symbol_at_contains _ _ _ Hs) as (l & Hl & Hc).
  unfold notify_post_apply_operation, post_operation. rewrite Hop. unfold post_operation_custom.
  rewrite Happ, Z.eqb_refl, bool_decide_false by done. cbn [negb].
  erewrite t_bind_ok by reflexivity. erewrite t_bind_ok by (unfold k_res; by rewrite Hparse).
  erewrite t_bind_ok by (unfold k_res; by rewrite Hl). rewrite Hc. erewrite t_bind_ok by reflexivity.
  unfold perform. erewrite t_bind_ok by (unfold k_res; by rewrite Hact).
  rewrite bool_decide_false by (intros E; discriminate E). rewrite bool_decide_true by done.
  unfold pause_token. erewrite t_bind_ok by (unfold k_res; by rewrite Hs). erewrite t_bind_ok by reflexivity. by rewrite Hnone.
Qed.
Definition unknown_pause : operation_notification := token_note bob [] (token_json "pause_token" []).
Lemma pausing_an_unknown_token_crashes_witness :
  notify_post_apply_operation 2 30 unknown_pause 100 0 0 no_tokens = Throw crash.
Proof.
  refine (pausing_an_unknown_token_crashes 2 30 unknown_pause 100 0 0 no_tokens _ _ GOLD eq_refl eq_refl _ _ _ _ _).
  - discriminate.
  - vm_compute. reflexivity.
  - vm_compute. reflexivity.
  - vm_compute. reflexivity.
  - reflexivity.
Defined.
