(* ===== verification/CustodyTheorems.v ===== *)
(** * CustodyTheorems: items change hands only as their holders say, or by their key *)
From Stdlib Require Import String.
From S2P Require Import Prelude Safe Names Asset Double AssetText Json Version Config Authority Raw Operations PluginState TrackAndTrace Examples.
Local Open Scope Z_scope.
Local Open Scope list_scope.

(** ** Concrete operations on the item "item1" *)
Definition item1 : account_name_type := Eval vm_compute in name_of "item1".
Definition item_op (from : account_name_type) (action : string) (rest : list entry) : custom_json_operation :=
  CustomJson (Asset 0 SOPHIATX_SYMBOL_U64) from [item1] 100
    (to_string legacy_generator (v_object
      ([(key "serial", v_string (key "item1")); (key "action", v_string (key action))] ++ rest))).
Definition text_entry (k v : string) : entry := (key k, v_string (key v)).
Definition registering := item_op alice "register" [text_entry "meta" "a parcel"; text_entry "claimKey" "secret"].
Definition claiming := item_op alice "claim" [text_entry "claimKey" "secret"; text_entry "info" "here"].
Definition offering := item_op alice "handoverRequest" [text_entry "newOwner" "bob"].
Definition accepting := item_op bob "handoverAck" [].
Definition or_before (d : custody_db) (r : res custody_db) : custody_db := match r with Ok d' => d' | Throw _ => d end.
(** Alice has claimed the item; Bob has it. *)
Definition alice_holds : custody_db := Eval vm_compute in
  or_before (CustodyDb ∅ ∅) (run_custody (CustodyDb ∅ ∅) [(0, registering); (1000000, claiming)]).
Definition bob_holds : custody_db := Eval vm_compute in
  or_before alice_holds (run_custody alice_holds [(2000000, offering); (3000000, accepting)]).
Definition parcel (h n : account_name_type) : possession_object :=
  Possession h n item1 (key "a parcel") (key "here") (key "secret").

(** The interpreter refines the custody machine: whatever an operation says, and whether
    it is carried out, refused or fails half-way, it changes at most the item it is about,
    and that by one step of the machine whose guard the sender meets; recorded transfers
    are never changed. *)
Theorem custody_refines_machine now op d d' : swallowed (tat_apply now op) d = Ok d' -> one_step op d d'.
Proof. apply (interpreted_step d (now, op)). Qed.

Lemma custody_refines_machine_witness : exists d', swallowed (tat_apply 1000000 offering) alice_holds = Ok d' /\
  possessions alice_holds !! data item1 = Some (parcel alice no_holder) /\
  possessions d' !! data item1 = Some (parcel alice bob) /\ one_step offering alice_holds d'.
Proof.
  eexists. split; [vm_compute; reflexivity|]. split; [vm_compute; reflexivity|]. split; [vm_compute; reflexivity|].
  refine (custody_refines_machine 1000000 offering alice_holds _ _). vm_compute. reflexivity.
Defined.

(** ** The chain of custody *)
(** [h] offers item [s] to [n]; [n] takes it. *)
Definition offers (s h n : Z) (op : custom_json_operation) : Prop :=
  concerns s op /\ acts "handoverRequest" op /\ data (cj_sender op) = h /\
  exists owner, says "newOwner" owner op /\ data (fixed_string owner) = n.
Definition accepts (s n : Z) (op : custom_json_operation) : Prop :=
  concerns s op /\ acts "handoverAck" op /\ data (cj_sender op) = n.
(** Among the operations there are offers and acceptances in turn that lead from [h] to [h']. *)
Inductive passed_on (s : Z) : Z -> list custom_json_operation -> Z -> Prop :=
| passed_none h ops : passed_on s h ops h
| passed_by h n h' before offer between accept after :
    offers s h n offer -> accepts s n accept -> passed_on s n after h' ->
    passed_on s h (before ++ offer :: between ++ accept :: after) h'.

Lemma passed_on_more s h h' ops more : passed_on s h ops h' -> passed_on s h (ops ++ more) h'.
Proof.
  induction 1 as [h ops|h n h' b o m a l Ho Ha _ IH]; [constructor|].
  replace ((b ++ o :: m ++ a :: l) ++ more) with (b ++ o :: m ++ a :: (l ++ more)).
  - by eapply passed_by.
  - by rewrite <- !app_assoc; cbn; rewrite <- app_assoc.
Qed.
Lemma passed_on_step s h h1 n before offer between accept :
  passed_on s h before h1 -> offers s h1 n offer -> accepts s n accept ->
  passed_on s h (before ++ offer :: between ++ [accept]) n.
Proof.
  induction 1 as [h ops|h m h1 b o bt a l Ho Ha _ IH]; intros Ho' Ha'.
  - eapply passed_by; [done..|constructor].
  - replace ((b ++ o :: bt ++ a :: l) ++ offer :: between ++ [accept])
      with (b ++ o :: bt ++ a :: (l ++ offer :: between ++ [accept])).
    + eapply passed_by; [done..|by apply IH].
    + by rewrite <- !app_assoc; cbn; rewrite <- app_assoc.
Qed.

(** The item is held by someone it was passed on to, and a pending offer is the holder's. *)
Definition in_custody (s h : Z) (ops : list custom_json_operation) (d : custody_db) : Prop :=
  exists p, possessions d !! s = Some p /\ passed_on s h ops (data (holder p)) /\
    (data (new_holder p) = 0 \/
     exists before offer after, ops = before ++ offer :: after /\ passed_on s h before (data (holder p)) /\
       offers s (data (holder p)) (data (new_holder p)) offer).

Lemma in_custody_step s h ops op d d' : one_step op d d' -> data (cj_sender op) <> 0 ->
  (concerns s op -> ~ acts "claim" op) -> in_custody s h ops d -> in_custody s h (ops ++ [op]) d'.
Proof.
  intros [Ho Ht _] Hs Hc (p & Hp & Hpass & Hoff).
  assert (Hkeep : forall p', possessions d' !! s = Some p' -> data (holder p') = data (holder p) ->
    data (new_holder p') = data (new_holder p) \/ data (new_holder p') = 0 -> in_custody s h (ops ++ [op]) d').
  { intros p' Hp' Eh En. exists p'. rewrite Eh. split_and!; [done|by apply passed_on_more|].
    destruct En as [-> | ->]; [|by left]. destruct Hoff as [?|(b & o & a & -> & H1 & H2)]; [by left|right].
    exists b, o, (a ++ [op]). by rewrite <- app_assoc. }
  destruct (decide (concerns s op)) as [Hcon|Hcon].
  - specialize (Ht s Hcon). rewrite Hp in Ht. remember (Some p) as o1 eqn:E1. remember (possessions d' !! s) as o2 eqn:E2.
    destruct Ht as [o|serial meta claim _|q info Ha _|q info _ _|q owner Ha Hd Hsay|q Ha Hd|q _ _]; try discriminate E1;
      try (injection E1 as ->); subst.
    + by apply (Hkeep p); [..|left].
    + by destruct (Hc Hcon).
    + eapply Hkeep; [done|done|by left].
    + exists (p <| new_holder := fixed_string owner |>). split_and!; [done|by apply passed_on_more|]. right.
      exists ops, op, []. split_and!; [done..|]. split_and!; [done..|]. by exists owner.
    + exists (p <| new_holder := no_holder |> <| holder := cj_sender op |>). split_and!; [done| |by left]. cbn.
      destruct Hoff as [H0|(b & o & a & -> & H1 & H2)]; [congruence|]. rewrite <- app_assoc.
      apply (passed_on_step s h (data (holder p)) (data (cj_sender op)) b o a op); [done|by rewrite Hd|done].
    + eapply Hkeep; [done|done|by right].
  - rewrite <- (Ho s Hcon) in Hp. by apply (Hkeep p); [..|left].
Qed.

(** Without claims an item goes from holder to holder. *)
Lemma passed_on_without_claims s d d' ops p : run_custody d ops = Ok d' -> possessions d !! s = Some p ->
  data (new_holder p) = 0 ->
  (forall o, o ∈ ops -> data (cj_sender (snd o)) <> 0 /\ (concerns s (snd o) -> ~ acts "claim" (snd o))) ->
  exists p', possessions d' !! s = Some p' /\ passed_on s (data (holder p)) (map snd ops) (data (holder p')).
Proof.
  intros Hrun Hp Hn Hops.
  assert (H : in_custody s (data (holder p)) ([] ++ map snd ops) d').
  { assert (H0 : in_custody s (data (holder p)) [] d) by (exists p; split_and!; [done|constructor|by left]).
    clear Hp Hn. revert d H0 Hrun. generalize (@nil custom_json_operation) as done_. generalize (data (holder p)) as h.
    induction ops as [|[now op] ops IH]; intros h done_ d H0 Hrun; cbn [foldM map] in *.
    - injection Hrun as <-. by rewrite app_nil_r.
    - apply rbind_Ok in Hrun as (d1 & H1 & Hrun). destruct (Hops (now, op)) as [Hs Hc]; [by apply list_elem_of_here|].
      apply interpreted_step in H1. apply (in_custody_step s h done_) in H1; [|done..].
      specialize (IH ltac:(intros o Ho; by apply Hops, list_elem_of_further) h (done_ ++ [op]) d1 H1 Hrun).
      by rewrite <- app_assoc in IH. }
  destruct H as (p' & Hp' & Hpass & _). by exists p'.
Qed.

(** *** How a holder came by the item *)
Definition claims (s n : Z) (key : list Z) (op : custom_json_operation) : Prop :=
  concerns s op /\ acts "claim" op /\ data (cj_sender op) = n /\ says "claimKey" key op.
Definition holder_of (s : Z) (d : custody_db) : Z := from_option (fun p => data (holder p)) 0 (possessions d !! s).
Definition offered_to (s : Z) (d : custody_db) : Z := from_option (fun p => data (new_holder p)) 0 (possessions d !! s).
(** [op] is one of the operations, and found the item in the state [p]. *)
Definition found (s : Z) (d : custody_db) (ops : list (Z * custom_json_operation)) (op : custom_json_operation)
    (p : possession_object) (after : list (Z * custom_json_operation)) : Prop :=
  exists before now d1, ops = before ++ (now, op) :: after /\ run_custody d before = Ok d1 /\ possessions d1 !! s = Some p.
Definition came_by (s : Z) (d : custody_db) (ops : list (Z * custom_json_operation)) (h : Z) : Prop :=
  h = holder_of s d \/ exists op p after, found s d ops op p after /\
    (claims s h (claim_key p) op \/
     (offers s (data (holder p)) h op /\ exists now accept, (now, accept) ∈ after /\ accepts s h accept)).
Definition is_offered (s : Z) (d : custody_db) (ops : list (Z * custom_json_operation)) (n : Z) : Prop :=
  n = 0 \/ exists op p after, found s d ops op p after /\ offers s (data (holder p)) n op.

Lemma found_more s d ops op p after o : found s d ops op p after -> found s d (ops ++ [o]) op p (after ++ [o]).
Proof. intros (b & now & d1 & -> & H1 & H2). exists b, now, d1. by rewrite <- app_assoc. Qed.
Lemma came_by_more s d ops h o : came_by s d ops h -> came_by s d (ops ++ [o]) h.
Proof.
  intros [E|(op & p & after & Hf & H)]; [by left|right]. exists op, p, (after ++ [o]). split; [by apply found_more|].
  destruct H as [H|(H & now & a & Ha & Hacc)]; [by left|right]. split; [done|]. exists now, a. split; [|done].
  apply elem_of_app. by left.
Qed.
Lemma is_offered_more s d ops n o : is_offered s d ops n -> is_offered s d (ops ++ [o]) n.
Proof. intros [E|(op & p & after & Hf & H)]; [by left|right]. exists op, p, (after ++ [o]). split; [by apply found_more|done]. Qed.
Lemma run_custody_app d ops1 ops2 : run_custody d (ops1 ++ ops2) = (d1 ← run_custody d ops1; run_custody d1 ops2).
Proof.
  unfold run_custody. revert d. induction ops1 as [|x l IH]; intros d; cbn [foldM app]; [done|].
  destruct (interpreted d x) as [d1|]; [exact (IH d1)|done].
Qed.

(** What holds of the item after the operations so far *)
Definition custody_inv (s : Z) (d : custody_db) (ops : list (Z * custom_json_operation)) (d1 : custody_db) : Prop :=
  (forall p, possessions d !! s = Some p -> exists p', possessions d1 !! s = Some p' /\ claim_key p' = claim_key p) /\
  came_by s d ops (holder_of s d1) /\ is_offered s d ops (offered_to s d1).
Lemma custody_inv_step s d ops d1 now op d2 : run_custody d ops = Ok d1 -> interpreted d1 (now, op) = Ok d2 ->
  data (cj_sender op) <> 0 -> custody_inv s d ops d1 -> custody_inv s d (ops ++ [(now, op)]) d2.
Proof.
  intros Hrun Hint Hs (Hk & Hc & Hof). apply interpreted_step in Hint as [Ho Ht _]. cbn [snd] in *.
  apply (came_by_more s d ops _ (now, op)) in Hc as Hc'. apply (is_offered_more s d ops _ (now, op)) in Hof as Hof'.
  destruct (decide (concerns s op)) as [Hcon|Hcon].
  2: { unfold custody_inv, holder_of, offered_to in *. by rewrite (Ho s Hcon). }
  specialize (Ht s Hcon).
  assert (Hfound : forall p, possessions d1 !! s = Some p -> found s d (ops ++ [(now, op)]) op p []) by (intros p Hp; by exists ops, now, d1).
  unfold custody_inv, holder_of, offered_to in *.
  remember (possessions d1 !! s) as o1 eqn:E1. remember (possessions d2 !! s) as o2 eqn:E2.
  destruct Ht as [o|serial meta claim _|q info Ha Hsay|q info _ _|q owner Ha Hd Hsay|q Ha Hd|q _ _]; cbn [from_option] in *.
  - done.
  - split_and!; [|done|by left]. intros p Hp. by destruct (Hk p Hp) as (p' & ? & _).
  - split_and!; [intros p Hp; destruct (Hk p Hp) as (p' & [= ->] & E); by eexists| |done]. right.
    exists op, q, []. split; [by apply Hfound|]. by left.
  - split_and!; [intros p Hp; destruct (Hk p Hp) as (p' & [= ->] & E); by eexists|done..].
  - split_and!; [intros p Hp; destruct (Hk p Hp) as (p' & [= ->] & E); by eexists|done|]. right.
    exists op, q, []. split; [by apply Hfound|]. split_and!; [done..|]. by exists owner.
  - split_and!; [intros p Hp; destruct (Hk p Hp) as (p' & [= ->] & E); by eexists| |by left]. cbn [holder upd possession_eta].
    destruct Hof as [H0|(offer & p & after & Hf & H)]; [congruence|]. right. exists offer, p, (after ++ [(now, op)]).
    split; [by apply found_more|]. right. rewrite Hd. split; [done|]. exists now, op. split; [apply elem_of_app; right; by left|done].
  - split_and!; [intros p Hp; destruct (Hk p Hp) as (p' & [= ->] & E); by eexists|done|by left].
Qed.
Lemma custody_inv_run s d ops d' : run_custody d ops = Ok d' -> offered_to s d = 0 ->
  (forall o, o ∈ ops -> data (cj_sender (snd o)) <> 0) -> custody_inv s d ops d'.
Proof.
  intros Hrun Hn. revert d' Hrun. induction ops as [|[now op] ops IH] using rev_ind; intros d' Hrun Hops.
  - injection Hrun as <-. split_and!; [by eauto|by left|by left].
  - rewrite run_custody_app in Hrun. apply rbind_Ok in Hrun as (d1 & H1 & H2). cbn [foldM] in H2.
    apply rbind_Ok in H2 as (d2 & H2 & [= <-]). eapply custody_inv_step; [exact H1|exact H2| |].
    + apply (Hops (now, op)). apply elem_of_app. right. by left.
    + apply IH; [exact H1|]. intros o Ho. apply Hops, elem_of_app. by left.
Qed.

(** C32: every holder of an item came by it: through any operations of accounts, the one who
    holds it at the end held it at the start, or made a claim with the key that the item had at
    the time, or accepted an offer that was made to it by the one who held the item when it was
    offered; the key of an item never changes. (The offers of former holders stay open when
    somebody claims the item.) As long as nobody claims it, there are such offers and acceptances
    in turn that lead from the first holder to the last. This is for an item that nobody has been
    offered at the start, or that is not there yet. *)
Theorem custody_is_passed_on s d d' ops : run_custody d ops = Ok d' -> offered_to s d = 0 ->
  (forall o, o ∈ ops -> data (cj_sender (snd o)) <> 0) ->
  came_by s d ops (holder_of s d') /\
  forall p, possessions d !! s = Some p -> exists p', possessions d' !! s = Some p' /\ claim_key p' = claim_key p /\
    ((forall o, o ∈ ops -> concerns s (snd o) -> ~ acts "claim" (snd o)) ->
     passed_on s (data (holder p)) (map snd ops) (data (holder p'))).
Proof.
  intros Hrun Hn Hops. destruct (custody_inv_run s d ops d' Hrun Hn Hops) as (Hk & Hc & _). split; [done|].
  intros p Hp. destruct (Hk p Hp) as (p' & Hp' & E). exists p'. split; [done|]. split; [done|]. intros Hno.
  unfold offered_to in Hn. rewrite Hp in Hn.
  destruct (passed_on_without_claims s d d' ops p Hrun Hp Hn) as (p2 & Hp2 & H); [by eauto|].
  rewrite Hp' in Hp2. by injection Hp2 as <-.
Qed.

(** Alice registers and claims the item, offers it to Bob, and Bob accepts. *)
Definition item_story : list (Z * custom_json_operation) :=
  [(0, registering); (1000000, claiming); (2000000, offering); (3000000, accepting)].
Lemma custody_is_passed_on_witness : holder_of (data item1) bob_holds = data bob /\
  came_by (data item1) (CustodyDb ∅ ∅) item_story (data bob).
Proof.
  assert (E : run_custody (CustodyDb ∅ ∅) item_story = Ok bob_holds) by (vm_compute; reflexivity).
  assert (Hs : forall o, o ∈ item_story -> data (cj_sender (snd o)) <> 0).
  { intros o Ho. apply list_elem_of_In in Ho. cbn in Ho.
    destruct Ho as [<-|[<-|[<-|[<-|[]]]]]; vm_compute; discriminate. }
  destruct (custody_is_passed_on (data item1) (CustodyDb ∅ ∅) bob_holds item_story E eq_refl Hs) as [H _].
  assert (Eh : holder_of (data item1) bob_holds = data bob) by (vm_compute; reflexivity).
  split; [exact Eh|]. rewrite <- Eh. exact H.
Defined.

(** The custody machine has no guard against a second claim: who shows the key, which the
    first claim made public, takes the item from whoever holds it.  And of two handovers in
    the same second only the first is recorded, although both are carried out. *)
Section weaknesses.
  Context (now : Z) (op : custom_json_operation) (n : account_name_type) (l : list account_name_type) (tmp : variant) (p : possession_object).
  Context (name : list Z) (d : custody_db).
  Hypothesis Hr : cj_recipients op = n :: l.
  Hypothesis Hjson : cj_json op <> [].
  Hypothesis Htmp : parse_json (cj_json op) = Ok tmp.
  Hypothesis Hname : string_of_name n = Ok name.
  Hypothesis Hserial : string_at "serial" tmp = Ok name.
  Hypothesis Hp : possessions d !! data n = Some p.

Lemma tat_apply_action action : string_at "action" tmp = Ok action -> action <> key "register" ->
  tat_apply now op d = item_action now action (cj_sender op) n p tmp d.
Proof.
  intros Ha Hne. unfold tat_apply. rewrite Hr, bool_decide_false by done. cbn [negb fc_assert sophiatx_assert].
  unfold mbind at 1, KST_bind at 1, mret, KST_ret. cbv beta iota.
  unfold mbind at 1, KST_bind at 1, k_res at 1. rewrite Htmp. unfold mbind at 1, KST_bind at 1, k_res at 1. rewrite Hname.
  unfold mbind at 1, KST_bind at 1, k_res at 1. rewrite Hserial. rewrite bool_decide_true by done.
  unfold mbind at 1, KST_bind at 1. cbn [fc_assert sophiatx_assert]. unfold mret, KST_ret. cbv beta iota.
  unfold mbind at 1, KST_bind at 1, k_res at 1. rewrite Ha. rewrite bool_decide_false by done.
  unfold mbind at 1, KST_bind at 1, k_gets at 1. by rewrite Hp.
Qed.
Theorem a_known_key_takes_the_item info :
  string_at "action" tmp = Ok (key "claim") -> string_at "claimKey" tmp = Ok (claim_key p) -> string_at "info" tmp = Ok info ->
  interpreted d (now, op) =
    Ok (d <| possessions ::= <[data n := p <| holder := cj_sender op |> <| po_info := info |>]> |>).
Proof.
  intros Ha Hc Hi. unfold interpreted, swallowed. cbn [fst snd]. rewrite (tat_apply_action (key "claim")) by done.
  change (item_action now (key "claim") (cj_sender op) n p tmp) with (claim_item (cj_sender op) n p tmp).
  unfold claim_item, modify_possession, mbind, KST_bind, k_res, k_puts. rewrite Hc, Hi, bool_decide_true by done. cbv beta iota.
  cbn [fc_assert sophiatx_assert mret KST_ret]. rewrite modify_twice. by rewrite (modify_put n d p).
Qed.
Theorem second_handover_is_not_recorded other :
  string_at "action" tmp = Ok (key "handoverAck") -> data (cj_sender op) = data (new_holder p) ->
  transfer_history d !! (data n, u32 (now / 1000000)) = Some other ->
  exists d', interpreted d (now, op) = Ok d' /\ transfer_history d' = transfer_history d /\
    possessions d' !! data n = Some (p <| new_holder := no_holder |> <| holder := cj_sender op |>).
Proof.
  intros Ha Hs Ht. unfold interpreted, swallowed. cbn [fst snd]. rewrite (tat_apply_action (key "handoverAck")) by done.
  change (item_action now (key "handoverAck") (cj_sender op) n p tmp) with (handover_ack now (cj_sender op) n p).
  unfold handover_ack, modify_possession, mbind, KST_bind, k_puts, k_gets. apply name_eqb_eq in Hs as ->.
  cbn [fc_assert sophiatx_assert mret KST_ret].
  rewrite (modify_put n d p) by done. cbn. rewrite Ht. eexists. split_and!; [done..|]. cbn. by rewrite lookup_insert_eq.
Qed.
End weaknesses.
