(* ===== verification/GossipTheorems.v ===== *)
(** * GossipTheorems: items spread once, and only what was asked for is taken

    Invariants of the node under every step of Gossip, the round that advertises, and two
    places where the bookkeeping fails: blocks the client rejects and connections that are
    being closed. *)
From stdpp Require Import relations.
From S2P Require Import Prelude Config ChainPlugin Gossip Examples.
Local Open Scope Z_scope.
Local Open Scope list_scope.

(** ** Groups *)
Definition in_groups (ty : Z) (h : item_hash_t) (l : list (Z * list item_hash_t)) : Prop := exists hs, (ty, hs) ∈ l /\ h ∈ hs.
Lemma in_groups_cons ty h ty' hs l : in_groups ty h ((ty', hs) :: l) <-> (ty = ty' /\ h ∈ hs) \/ in_groups ty h l.
Proof.
  unfold in_groups. split.
  - intros (x & [[= -> ->]|Hin]%elem_of_cons & Hh); [by left|]. right. by exists x.
  - intros [[-> Hh]|(x & Hin & Hh)]; [exists hs|exists x]; rewrite elem_of_cons; auto.
Qed.
Lemma group_item_spec ty h ty' h' l : in_groups ty' h' (group_item ty h l) <-> (ty' = ty /\ h' = h) \/ in_groups ty' h' l.
Proof.
  induction l as [|[t hs] l IH]; cbn [group_item].
  - rewrite in_groups_cons, list_elem_of_singleton. done.
  - destruct (Z.eqb_spec ty t) as [->|Hne]; [|destruct (ty <? t)]; rewrite !in_groups_cons; rewrite ?elem_of_app, ?list_elem_of_singleton;
      [tauto|tauto|rewrite IH; tauto].
Qed.
Lemma group_by_type_spec items ty h : in_groups ty h (group_by_type items) <-> (ty, h) ∈ items.
Proof.
  unfold group_by_type.
  assert (H : forall l, in_groups ty h (foldl (fun l it => group_item (fst it) (snd it) l) l items) <-> in_groups ty h l \/ (ty, h) ∈ items).
  { induction items as [|[t x] items IH]; intros l; cbn [foldl]; [rewrite elem_of_nil; tauto|].
    rewrite IH, group_item_spec, elem_of_cons. cbn [fst snd]. split; [intros [[[-> ->]|?]|?]; auto|intros [?|[[= -> ->]|?]]; auto]. }
  rewrite H. split; [intros [(hs & Hin & _)|?]; [by apply elem_of_nil in Hin|done]|by right].
Qed.

(** ** The round that advertises *)
Definition told (k ty : Z) (h : item_hash_t) (out : outgoing) : Prop :=
  exists hs, (k, item_ids_inventory_message ty hs) ∈ out /\ h ∈ hs.
Lemma news_spec p inv it : it ∈ snd (advertise_to 0 inv p) <-> it ∈ inv /\ peer_needs_sync_items_from_us p = false /\ is_news p it = true.
Proof.
  unfold advertise_to. destruct (peer_needs_sync_items_from_us p); cbn [snd].
  - rewrite elem_of_nil. split; [done|by intros (_ & ? & _)].
  - rewrite list_elem_of_In, filter_In, <- list_elem_of_In. tauto.
Qed.
Lemma advertise_to_news now inv p : snd (advertise_to now inv p) = snd (advertise_to 0 inv p).
Proof. unfold advertise_to. by destruct (peer_needs_sync_items_from_us p). Qed.
Lemma told_spec now n k p ty h : peers n !! k = Some p -> connected p = true ->
  told k ty h (snd (advertise_inventory now n)) <-> (ty, h) ∈ snd (advertise_to 0 (_new_inventory n) p).
Proof.
  intros Hp Hc. rewrite <- group_by_type_spec. unfold advertise_inventory, told, in_groups. cbn [snd]. split.
  - intros (hs & Hin & Hh). exists hs. split; [|done]. apply list_elem_of_In, in_flat_map in Hin as ([k' p'] & Hin & Hg).
    apply list_elem_of_In, active_connections_spec in Hin as [Hp' _]. apply in_map_iff in Hg as ([t l] & E & Hg).
    cbn [fst snd] in *. injection E as -> -> ->. rewrite Hp in Hp'. injection Hp' as <-. apply list_elem_of_In.
    by rewrite advertise_to_news in Hg.
  - intros (hs & Hin & Hh). exists hs. split; [|done]. apply list_elem_of_In, in_flat_map. exists (k, p).
    split; [by apply list_elem_of_In, active_connections_spec|]. apply in_map_iff. exists (ty, hs). split; [done|].
    cbn [snd]. rewrite advertise_to_news. by apply list_elem_of_In.
Qed.

Lemma emplace_fold (v : Z) (its : list item_id) (it : item_id) (m : gmap item_id Z) : it ∈ its -> m !! it = None ->
  foldl (fun m it => emplace it v m) m its !! it = Some v.
Proof.
  assert (Hkeep : forall its (m : gmap item_id Z), m !! it = Some v -> foldl (fun m it => emplace it v m) m its !! it = Some v).
  { intros l. induction l as [|x l IH]; intros m' Hm; [done|]. cbn [foldl]. apply IH. unfold emplace. destruct (m' !! x) eqn:Ex; [done|].
    destruct (decide (x = it)) as [->|]; [by rewrite Hm in Ex|by rewrite lookup_insert_ne]. }
  revert m. induction its as [|x its IH]; intros m Hin Hm; [by apply elem_of_nil in Hin|]. cbn [foldl].
  destruct (decide (x = it)) as [->|Hne].
  - apply Hkeep. unfold emplace. by rewrite Hm, lookup_insert_eq.
  - apply elem_of_cons in Hin as [->|Hin]; [done|]. apply IH; [done|]. unfold emplace. destruct (m !! x); [done|].
    by rewrite lookup_insert_ne.
Qed.
Lemma seconds_grow now d : 0 <= d <= now -> now < 2^32 * 1000000 -> time_point_sec_of (now - d) <= time_point_sec_of now.
Proof.
  intros Hd Hn. unfold time_point_sec_of. rewrite !Z.quot_div_nonneg by lia.
  unfold u32. assert (0 <= now / 1000000 < 2^32) by (split; [apply Z.div_pos; lia|apply Z.div_lt_upper_bound; lia]).
  assert ((now - d) / 1000000 <= now / 1000000) by (apply Z.div_le_mono; lia).
  assert (0 <= (now - d) / 1000000) by (apply Z.div_pos; lia). rewrite !Z.mod_small by lia. lia.
Qed.
Lemma recent_now (now minutes : Z) (it : item_id) (m : gmap item_id Z) : 0 <= minutes * 60 * 1000000 <= now -> now < 2^32 * 1000000 ->
  m !! it = Some (time_point_sec_of now) -> recent_items now minutes m !! it = Some (time_point_sec_of now).
Proof.
  intros Hm Hn Hit. unfold recent_items. apply map_lookup_filter_Some. split; [done|]. cbn.
  pose proof (seconds_grow now (minutes * 60 * 1000000) Hm Hn). apply Is_true_true, Z.geb_le. lia.
Qed.

(** One round of advertising tells each peer in sync exactly the new items that it
    neither was told nor told itself, and remembers that it was told; the list of new items
    is empty afterwards. *)
Theorem news_are_told_once now n k p :
  120000000 <= now < 2^32 * 1000000 -> peers n !! k = Some p -> connected p = true ->
  let (n', out) := advertise_inventory now n in
  (forall ty h, told k ty h out <->
     (ty, h) ∈ _new_inventory n /\ peer_needs_sync_items_from_us p = false /\ is_news p (ty, h) = true) /\
  _new_inventory n' = [] /\
  exists p', peers n' !! k = Some p' /\ forall ty h, told k ty h out -> is_news p' (ty, h) = false.
Proof.
  intros Hnow Hp Hc. destruct (advertise_inventory now n) as [n' out] eqn:E.
  assert (En : n' = fst (advertise_inventory now n)) by (by rewrite E). assert (Eo : out = snd (advertise_inventory now n)) by (by rewrite E).
  assert (Htold : forall ty h, told k ty h out <-> (ty, h) ∈ _new_inventory n /\ peer_needs_sync_items_from_us p = false /\ is_news p (ty, h) = true).
  { intros ty h. rewrite Eo, (told_spec now n k p) by done. apply news_spec. }
  split; [exact Htold|]. split; [by rewrite En|].
  exists (clear_old_inventory now (fst (advertise_to now (_new_inventory n) p))). split.
  - rewrite En. cbn [advertise_inventory fst peers upd net_node_eta]. rewrite lookup_fmap, Hp. cbn [fmap option_fmap option_map]. by rewrite Hc.
  - intros ty h (Hin & Hs & Hnews)%Htold. unfold is_news, advertise_to. rewrite Hs. cbn.
    unfold is_news in Hnews. apply andb_true_iff in Hnews as [H1 H2]. unfold has at 1.
    rewrite (recent_now now _ (ty, h)); [done|unfold GRAPHENE_NET_MAX_INVENTORY_SIZE_IN_MINUTES; lia|lia|].
    apply emplace_fold.
    + apply list_elem_of_In, filter_In. split; [by apply list_elem_of_In|]. unfold is_news. by rewrite H1, H2.
    + apply eq_None_not_Some. intros Hsome%has_spec. by rewrite Hsome in H1.
Qed.

(** ** Concrete nodes *)
#[local] Existing Instance mainnet.
Definition quiet_peer : net_peer :=
  NetPeer true false ∅ ∅ ∅ ∅ None false false 0 [] 0 0 [] 0 false ∅.
Definition quiet_node (ps : list (Z * net_peer)) : net_node :=
  NetNode (list_to_map ps) [] 0 [] ∅ [] 0 ∅ [] [] false false false.
Definition some_item : item_id := (trx_message_type, [7]).
#[local] Instance first_block : block_numbers := fun _ => 1.
#[local] Instance refusing_client : node_client := {|
  get_item := fun _ => Throw key_not_found_exception;
  handle_message := fun m => Ok (msg_data m);
  handle_block := fun _ => Throw assert_exception;
  get_block_time := fun _ => 0;
  get_blockchain_synopsis := fun _ _ => Ok [];
  read_block := fun m => Ok (BlockContents (msg_data m) 1 100) |}.
Definition noon : Z := 10^15.
Definition two_peers : net_node := Eval vm_compute in (quiet_node [(1, quiet_peer); (2, quiet_peer)]) <| _new_inventory := [some_item] |>.

Lemma news_are_told_once_witness :
  let (n', out) := advertise_inventory noon two_peers in
  told 2 trx_message_type [7] out /\ _new_inventory n' = [].
Proof.
  assert (H1 : 120000000 <= noon < 2^32 * 1000000) by (vm_compute; split; [discriminate|reflexivity]).
  assert (H2 : peers two_peers !! 2 = Some quiet_peer) by (vm_compute; reflexivity).
  pose proof (news_are_told_once noon two_peers 2 quiet_peer H1 H2 eq_refl) as H.
  destruct (advertise_inventory noon two_peers) as [n' out]. destruct H as (H3 & H4 & _).
  split; [|exact H4]. apply H3. vm_compute. split; [|split; reflexivity]. constructor.
Defined.

(** ** Requests *)
Lemma no_requests_once n : _items_to_fetch n = [] -> (forall k p, peers n !! k = Some p -> items_requested_from_peer p = ∅) -> requested_once n.
Proof.
  intros Hl Hp. assert (Hno : forall k it, ~ requests (peers n) k it).
  { intros k it (p & Hk & _ & Hit). rewrite (Hp k p Hk) in Hit. unfold has in Hit. by rewrite lookup_empty in Hit. }
  split; [intros it k1 k2 R; by destruct (Hno k1 it)|intros k i1 i2 R; by destruct (Hno k i1)|intros it k R; by destruct (Hno k it)|].
  rewrite Hl. constructor.
Qed.

(** C11: whatever a node hears, as long as its connections are open, every item is requested
    from one peer at most, every peer owes one item at most, and an item that was requested
    is not waiting to be requested again. *)
Theorem items_are_requested_once `{sophiatx_config} `{externals} `{block_numbers} `{node_client} n n' :
  _items_to_fetch n = [] -> (forall k p, peers n !! k = Some p -> items_requested_from_peer p = ∅) ->
  rtc gossip_step n n' -> requested_once n'.
Proof.
  intros Hl Hp Hs. assert (Hr : requested_once n) by (by apply no_requests_once). clear Hl Hp.
  induction Hs as [n|n n1 n2 Hs _ IH]; [done|]. apply IH. by eapply gossip_step_once.
Qed.
Lemma items_are_requested_once_witness :
  let n1 := on_item_ids_inventory_message noon 1 trx_message_type [[7]] (quiet_node [(1, quiet_peer); (2, quiet_peer)]) in
  let n2 := on_item_ids_inventory_message noon 2 trx_message_type [[7]] n1 in
  requested_once (fst (fetch_items noon n2)) /\ map item (_items_to_fetch n2) = [some_item].
Proof.
  split; [|vm_compute; reflexivity].
  refine (items_are_requested_once (quiet_node [(1, quiet_peer); (2, quiet_peer)]) _ eq_refl _ _).
  - intros k p Hk. unfold quiet_node in Hk. cbn [peers] in Hk. apply elem_of_list_to_map_2 in Hk.
    apply elem_of_cons in Hk as [Hk|Hk]; [injection Hk as -> ->; reflexivity|].
    apply list_elem_of_singleton in Hk. injection Hk as -> ->. reflexivity.
  - eapply rtc_l; [apply (step_inventory _ noon 1 trx_message_type [[7]]); exists quiet_peer; split; vm_compute; reflexivity|].
    eapply rtc_l; [apply (step_inventory _ noon 2 trx_message_type [[7]]); eexists; split; [vm_compute; reflexivity|reflexivity]|].
    eapply rtc_l; [apply (step_fetch _ noon)|apply rtc_refl].
Defined.

(** The bookkeeping fails for a connection that is being closed: an item that was
    requested from it is requested from another peer that tells of it, and when the
    connection ends the item is put on the list again although it is on its way. *)
Theorem a_closing_peer_makes_an_item_wanted_twice : exists n,
  rtc gossip_step (quiet_node [(1, quiet_peer); (2, quiet_peer)]) n /\
  requests (peers n) 2 some_item /\
  map item (_items_to_fetch (on_connection_closed noon 1 n)) = [some_item].
Proof.
  set (n1 := on_item_ids_inventory_message noon 1 trx_message_type [[7]] (quiet_node [(1, quiet_peer); (2, quiet_peer)])).
  set (n2 := fst (fetch_items noon n1)). set (n3 := fst (disconnect_from_peer 1 n2)).
  set (n4 := on_item_ids_inventory_message noon 2 trx_message_type [[7]] n3).
  exists (fst (fetch_items noon n4)). split; [|split; [|by vm_compute]].
  - eapply rtc_l; [apply (step_inventory _ noon 1 trx_message_type [[7]]); by exists quiet_peer|].
    eapply rtc_l; [apply (step_fetch _ noon)|]. eapply rtc_l; [apply (step_disconnect _ 1)|].
    eapply rtc_l; [apply (step_inventory _ noon 2 trx_message_type [[7]]); eexists; split; [vm_compute; reflexivity|done]|].
    eapply rtc_l; [apply (step_fetch _ noon)|apply rtc_refl].
  - eexists. split; [vm_compute; reflexivity|]. split; vm_compute; reflexivity.
Qed.

(** ** The cache *)
(** C40: a message is offered from the cache during twenty blocks and no longer, always
    under the hash of its data, whatever the node hears; the clock of blocks has 32 bits. *)
Theorem cached_messages_are_recent `{sophiatx_config} `{externals} `{block_numbers} `{node_client} n n' :
  cache_ok n -> block_clock n + 1 < 2^32 -> gossip_step n n' -> cache_ok n'.
Proof. intros Hok Hw Hs. by eapply gossip_step_cache. Qed.
Lemma cached_messages_are_recent_witness : cache_ok (broadcast (Message trx_message_type [7]) 1 [7] two_peers).
Proof.
  refine (cached_messages_are_recent two_peers _ _ _ (step_broadcast _ (Message trx_message_type [7]) 1 [7])).
  - split; [vm_compute; split; [discriminate|reflexivity]| |constructor]. intros i Hi. by apply elem_of_nil in Hi.
  - vm_compute. reflexivity.
Defined.

(** ** What was not asked for *)
(** A transaction or an unknown message is handled only if it was requested from the
    peer that sent it, and once: otherwise nothing but the connection changes, which is
    closed. *)
Theorem only_requested_messages_are_handled `{externals} `{block_numbers} `{node_client} now k m n p :
  peers n !! k = Some p ->
  (has (msg_type m, id_of m) (items_requested_from_peer p) = false ->
   process_ordinary_message now k m n = disconnect_from_peer k n) /\
  (has (msg_type m, id_of m) (items_requested_from_peer p) = true ->
   let n1 := fst (process_ordinary_message now k m n) in
   process_ordinary_message now k m n1 = disconnect_from_peer k n1 /\
   match handle_message m with
   | Ok _ => (msg_type m, id_of m) ∈ _new_inventory n1 /\ is_Some (find_message (id_of m) (_message_cache n1))
   | Throw _ => has (msg_type m, id_of m) (_recently_failed_items n1) = true /\ _message_cache n1 = _message_cache n
   end).
Proof.
  intros Hp. set (it := (msg_type m, id_of m)). split.
  - intros Hno. unfold process_ordinary_message. cbv zeta. fold it. by rewrite Hp, Hno.
  - intros Hit n1.
    assert (E : peers n1 = alter (fun p => p <| items_requested_from_peer ::= delete it |>) k (peers n)).
    { unfold n1, process_ordinary_message. cbv zeta. fold it. rewrite Hp, Hit. cbn [negb].
      destruct (idle _), (handle_message m); try done; apply broadcast_same. }
    split.
    + unfold process_ordinary_message at 1. cbv zeta. fold it. rewrite E, lookup_alter_eq, Hp. cbn [fmap option_fmap option_map items_requested_from_peer upd net_peer_eta].
      destruct (has it (delete it (items_requested_from_peer p))) eqn:Ed; [by apply has_delete in Ed as [_ Ed]|]. by rewrite ?Ed.
    + unfold n1, process_ordinary_message. cbv zeta. fold it. rewrite Hp, Hit. cbn [negb].
      destruct (handle_message m) as [c|e].
      * unfold broadcast, insert_new_inventory. fold it.
        assert (Hcached : forall n, is_Some (find_message (id_of m) (_message_cache (cache_message m (id_of m) k c n)))).
        { intros n0. unfold cache_message. destruct (find_message (id_of m) (_message_cache n0)) eqn:Ef; [by rewrite Ef|].
          unfold find_message. cbn. by rewrite bool_decide_true. }
        destruct (idle _), (msg_type m =? block_message_type); cbn [fst]; (split; [|apply Hcached]); cbn;
          case_bool_decide; try done; apply elem_of_app; right; by apply list_elem_of_singleton.
      * destruct (idle _); cbn [fst]; (split; [|done]); cbn; rewrite has_emplace; by rewrite bool_decide_true.
Qed.
Lemma only_requested_messages_are_handled_witness :
  process_ordinary_message noon 1 (Message trx_message_type [7]) two_peers = disconnect_from_peer 1 two_peers.
Proof.
  assert (Hp : peers two_peers !! 1 = Some quiet_peer) by (vm_compute; reflexivity).
  refine (proj1 (only_requested_messages_are_handled noon 1 (Message trx_message_type [7]) two_peers quiet_peer Hp) _).
  vm_compute. reflexivity.
Defined.

(** ** Blocks that are rejected *)
(** The hash of a block the client rejects stays in the set of messages that are being
    processed: such a block is never asked for again, whoever offers it, even if it could
    not be linked only because blocks before it were missing. *)
Theorem rejected_blocks_are_ignored_for_ever `{sophiatx_config} `{externals} `{block_numbers} `{node_client} now k m b n e :
  handle_block m = Throw e -> bc_id b ∉ _most_recent_blocks_accepted n ->
  id_of m ∈ _message_ids_currently_being_processed (fst (process_block_during_normal_operation now k m b n)) /\
  forall n2 now2 k2, id_of m ∈ _message_ids_currently_being_processed n2 ->
    on_item_ids_inventory_message now2 k2 block_message_type [id_of m] n2 = at_peer k2 (clear_old_inventory now2) n2.
Proof.
  intros He Hb. split.
  - unfold process_block_during_normal_operation. rewrite bool_decide_false, He by done. set (n1 := n <| _message_ids_currently_being_processed ::= _ |>).
    assert (Hin : id_of m ∈ _message_ids_currently_being_processed n1) by (cbn; set_solver).
    assert (Hall : forall ks, _message_ids_currently_being_processed (fst (disconnect_all ks n1)) = _message_ids_currently_being_processed n1).
    { intros ks. unfold disconnect_all. generalize (@nil (Z * wire)). clearbody n1. revert n1 Hin. induction ks as [|k0 ks IH]; intros n1 Hin out; [done|].
      cbn [foldl]. destruct (disconnect_from_peer k0 n1) as [n2 o] eqn:E. unfold disconnect_from_peer in E. injection E as <- _. by rewrite IH. }
    destruct e; try (rewrite Hall; exact Hin).
    unfold start_synchronizing_with_peer, fetch_next_batch_of_item_ids_from_peer. destruct (peers _ !! k) as [p|]; [|exact Hin].
    destruct (create_blockchain_synopsis_for_peer p) as [l|e]; [exact Hin|].
    destruct e; exact Hin.
  - intros n2 now2 k2 Hin. unfold on_item_ids_inventory_message. cbn [inventory_received].
    by rewrite bool_decide_true by done.
Qed.
Lemma rejected_blocks_are_ignored_for_ever_witness :
  [9] ++ repeat 0 19 ∈ _message_ids_currently_being_processed
    (fst (process_block_during_normal_operation noon 1 (Message block_message_type [9]) (BlockContents [9] 1 100) two_peers)).
Proof.
  refine (proj1 (rejected_blocks_are_ignored_for_ever noon 1 (Message block_message_type [9]) (BlockContents [9] 1 100) two_peers
    assert_exception eq_refl _)).
  intros Hin. by apply elem_of_nil in Hin.
Defined.
