(* ===== verification/SyncTheorems.v ===== *)
(** * SyncTheorems: how a node catches up, and where it gets stuck

    Blocks are requested from one peer at a time and handed over in the order of the chain;
    the synopses that both sides of a connection make are one sequence.  A block that a peer
    turns out not to have is never asked for again, and a block that came in by another way
    stops the work on those after it. *)
From stdpp Require Import relations.
From S2P Require Import Prelude Config ChainPlugin P2pPlugin Gossip Sync SyncFacts GossipTheorems.
Local Open Scope Z_scope.
Local Open Scope list_scope.

(** ** Requests *)
(** C12: while a node catches up, whatever its peers send and in whatever order, a block is
    requested from one peer at a time and only if it is not known to be requested, and the
    blocks a peer is believed to have are consecutive. *)
Theorem sync_blocks_are_requested_once `{sync_limits} `{sophiatx_config} `{externals} `{block_numbers} s s' :
  (forall k p, peers (net s) !! k = Some p -> sync_items_requested_from_peer p = ∅ /\ ids_of_items_to_get p = []) ->
  rtc sync_step s s' -> sync_ok s'.
Proof.
  intros Hs Hr. by eapply sync_steps_ok, start_ok.
Qed.


(** ** The backlog *)
Section backlog.
  Context {lim : sync_limits} {ext : externals} {bn : block_numbers} {cl : node_client}.
Lemma split_at_next_spec l n : match split_at_next l n with
  | None => forall b, b ∈ l -> next_for_some_peer b n = false
  | Some (before, b, after) => l = before ++ b :: after
  end.
Proof.
  induction l as [|b l IH]; cbn [split_at_next]; [by intros b ?%elem_of_nil|]. destruct (next_for_some_peer b n) eqn:E; [done|].
  destruct (split_at_next l n) as [[[before b'] after]|]; cbn; [by rewrite IH|].
  intros x [->|Hx]%elem_of_cons; [done|by apply IH].
Qed.
(** The calls that were started, and the part of each list that they are for. *)
Definition handed_over (called : list block_message) (s s' : sync_node) : Prop :=
  _handle_message_calls_in_progress s' = _handle_message_calls_in_progress s ++ called /\
  (forall b, b ∈ called -> b ∈ _new_received_sync_items s ++ _received_sync_items s) /\
  forall k p, peers (net s) !! k = Some p -> exists p' l, peers (net s') !! k = Some p' /\
    ids_of_items_to_get p = l ++ ids_of_items_to_get p' /\ l `sublist_of` map block_id called.
Definition none_next (s : sync_node) : Prop := forall b, b ∈ _received_sync_items s -> next_for_some_peer b (net s) = false.
(** The loop stops at a block that is the next one for some peer and was accepted before: it
    is taken from the lists and treated as processed, and stays among those received. *)
Definition stopped_at (b : block_message) (s s' : sync_node) : Prop :=
  b ∈ _received_sync_items s /\ next_for_some_peer b (net s) = true /\
  block_id b ∈ _most_recent_blocks_accepted (net s) /\
  peers (net s') = peers (net (fst (already_accepted b (s <| net ::= take_next (block_id b) |>)))) /\
  _received_sync_items s' = _received_sync_items s /\
  _handle_message_calls_in_progress s' = _handle_message_calls_in_progress s.
(** How the loop can end, with no block called that was accepted before. *)
Definition backlog_end (called : list block_message) (s s' : sync_node) : Prop :=
  (forall b, b ∈ called -> block_id b ∉ _most_recent_blocks_accepted (net s)) /\
  ((handed_over called s s' /\ (too_many_calls s' = true \/ none_next s')) \/
   exists b s1, handed_over called s s1 /\ too_many_calls s1 = false /\
     b ∈ _new_received_sync_items s ++ _received_sync_items s /\ stopped_at b s1 s').

Lemma handed_over_nothing s s' : peers (net s') = peers (net s) ->
  _handle_message_calls_in_progress s' = _handle_message_calls_in_progress s -> handed_over [] s s'.
Proof.
  intros E1 E2. split_and!; [by rewrite app_nil_r|by intros b ?%elem_of_nil|]. intros k p Hp. exists p, []. by rewrite E1.
Qed.
Lemma handed_over_more b called s s1 s' : _handle_message_calls_in_progress s1 = _handle_message_calls_in_progress s ++ [b] ->
  net s1 = take_next (block_id b) (net s) ->
  (forall x, x ∈ b :: (_new_received_sync_items s1 ++ _received_sync_items s1) -> x ∈ _new_received_sync_items s ++ _received_sync_items s) ->
  handed_over called s1 s' -> handed_over (b :: called) s s'.
Proof.
  intros Ec En Hin (H1 & H2 & H3). split_and!.
  - by rewrite H1, Ec, <- app_assoc.
  - intros x [->|Hx]%elem_of_cons; apply Hin, elem_of_cons; [by left|right; by apply H2].
  - intros k p Hp. set (q := if connected p && is_next_of (block_id b) p
      then p <| ids_of_items_to_get ::= @tl _ |> <| ids_of_items_being_processed ::= union {[block_id b]} |> else p).
    destruct (H3 k q) as (p' & l & Hp' & El & Hl).
    { rewrite En. cbn. by rewrite lookup_fmap, Hp. }
    exists p'. unfold q in El. destruct (connected p && is_next_of (block_id b) p) eqn:E.
    + exists (block_id b :: l). split; [done|]. split; [|by constructor]. apply andb_true_iff in E as [_ E].
      apply bool_decide_eq_true in E. cbn in El. destruct (ids_of_items_to_get p) as [|h ids]; [done|]. cbn in *.
      injection E as ->. by rewrite El.
    + exists l. split; [done|]. split; [done|by constructor].
Qed.
Lemma split_at_next_next l n before b after : split_at_next l n = Some (before, b, after) -> next_for_some_peer b n = true.
Proof.
  revert before. induction l as [|x l IH]; intros before; cbn [split_at_next]; [done|]. destruct (next_for_some_peer x n) eqn:E.
  - intros [= _ <- _]. done.
  - destruct (split_at_next l n) as [[[l1 y] l2]|]; [|done]. intros [= _ -> ->]. by apply (IH l1).
Qed.
Lemma backlog_end_more b called s s1 s' : _handle_message_calls_in_progress s1 = _handle_message_calls_in_progress s ++ [b] ->
  net s1 = take_next (block_id b) (net s) -> block_id b ∉ _most_recent_blocks_accepted (net s) ->
  (forall x, x ∈ b :: (_new_received_sync_items s1 ++ _received_sync_items s1) -> x ∈ _new_received_sync_items s ++ _received_sync_items s) ->
  backlog_end called s1 s' -> backlog_end (b :: called) s s'.
Proof.
  intros Ec En Ha Hin [Hn H]. split.
  - intros x [->|Hx]%elem_of_cons; [done|]. specialize (Hn x Hx). by rewrite En in Hn.
  - destruct H as [[H1 H2]|(x & s2 & H1 & H2 & H3 & H4)].
    + left. split; [|done]. by eapply handed_over_more.
    + right. exists x, s2. split; [by eapply handed_over_more|]. split; [done|]. split; [|done].
      apply Hin, elem_of_cons. by right.
Qed.
Lemma backlog_nothing s s' : peers (net s') = peers (net s) ->
  _handle_message_calls_in_progress s' = _handle_message_calls_in_progress s ->
  too_many_calls s' = true \/ none_next s' -> backlog_end [] s s'.
Proof. intros E1 E2 He. split; [by intros b ?%elem_of_nil|]. left. split; [by apply handed_over_nothing|done]. Qed.

Lemma backlog_loop_works fuel s : too_many_calls s = false ->
  (length (_received_sync_items s) + length (_new_received_sync_items s) < fuel)%nat ->
  exists s' out called, backlog_loop fuel s = Ok (s', out) /\ backlog_end called s s'.
Proof.
  revert s. induction fuel as [|fuel IH]; intros s Ht Hf; [lia|]. cbn [backlog_loop]. unfold backlog_round.
  set (s1 := s <| _received_sync_items := _ |> <| _new_received_sync_items := _ |>).
  pose proof (split_at_next_spec (_received_sync_items s1) (net s1)) as Hsplit.
  assert (Er : _received_sync_items s1 = rev (_new_received_sync_items s) ++ _received_sync_items s) by done.
  destruct (split_at_next _ _) as [[[before b] after]|] eqn:Es; cycle 1.
  { replace (too_many_calls s1) with false by (symmetry; exact Ht). exists s1, [], [].
    split; [done|]. apply backlog_nothing; [done..|by right]. }
  assert (Hall : forall x, x ∈ before ++ b :: after -> x ∈ _new_received_sync_items s ++ _received_sync_items s).
  { intros x. rewrite <- Hsplit, Er, !elem_of_app. by rewrite !list_elem_of_In, <- in_rev. }
  assert (Hb : b ∈ before ++ b :: after) by (apply elem_of_app; right; apply elem_of_cons; by left).
  destruct (decide (block_id b ∈ _most_recent_blocks_accepted (net s))) as [Ha|Ha].
  - rewrite bool_decide_true by exact Ha.
    destruct (already_accepted b (s1 <| net ::= take_next (block_id b) |>)) as [s2 out] eqn:E2.
    assert (Hc : _received_sync_items s2 = _received_sync_items s1 /\
      _handle_message_calls_in_progress s2 = _handle_message_calls_in_progress s1).
    { revert E2. unfold already_accepted, on_net. destruct (let '(_, _) := processed_for _ _ _ _ in _). by intros [= <- _]. }
    replace (too_many_calls s2) with false by (unfold too_many_calls in *; rewrite (proj2 Hc); symmetry; exact Ht). exists s2, out, []. split; [done|]. split; [by intros x ?%elem_of_nil|]. right. exists b, s1.
    split; [by apply handed_over_nothing|]. split; [exact Ht|]. split; [by apply Hall|]. split; [by rewrite Hsplit|].
    split; [by eapply split_at_next_next|]. split; [exact Ha|]. by rewrite E2.
  - rewrite bool_decide_false by exact Ha.
    set (s2 := s1 <| net ::= _ |> <| _received_sync_items := _ |> <| _handle_message_calls_in_progress ::= _ |>).
    assert (Hmore : forall called s', backlog_end called s2 s' -> backlog_end (b :: called) s s').
    { intros called s'. apply backlog_end_more; [done|done|exact Ha|]. intros x Hx. apply Hall. cbn in Hx.
      rewrite elem_of_cons, elem_of_app in Hx. rewrite elem_of_app, elem_of_cons. tauto. }
    assert (Hlen : (length (_received_sync_items s2) + length (_new_received_sync_items s2) < fuel)%nat).
    { apply (f_equal length) in Hsplit. rewrite Er, !length_app, length_rev in Hsplit. cbn in *. rewrite length_app. lia. }
    destruct (too_many_calls s2) eqn:Et.
    + eexists _, [], [b]. split; [done|]. apply Hmore. apply backlog_nothing; [by destruct (Nat.leb _ _)..|left].
      by destruct (Nat.leb _ _).
    + destruct (IH s2 Et Hlen) as (s' & out & called & E & Hend). exists s', out, (b :: called). rewrite E.
      split; [done|]. by apply Hmore.
Qed.

(** C13: the backlog of received blocks is worked off: the loop ends, and hands blocks to the
    client one after the other until too many are being handled, none of those received is
    the next one for any peer, or the next one was accepted before, by another way: there
    it stops, leaving the block and all that may follow it among those received.  Every block
    it hands over was received and not accepted before, and for every peer the blocks taken
    from its list are handed over in the order of the list. *)
Theorem backlog_is_worked_off_in_order s :
  exists s' out called, process_backlog_of_sync_blocks s = Ok (s', out) /\ backlog_end called s s'.
Proof.
  unfold process_backlog_of_sync_blocks. set (s1 := s <| backlog_scheduled := false |>).
  destruct (too_many_calls s1) eqn:Et.
  - exists s1, [], []. split; [done|]. apply backlog_nothing; [done..|by left].
  - set (s2 := s1 <| _suspend_fetching_sync_blocks := false |>).
    destruct (backlog_loop_works (backlog_fuel s1) s2) as (s' & out & called & E & Hend); [done|unfold backlog_fuel, s2; cbn; lia|].
    rewrite E. cbn [mbind res_bind]. eexists _, _, called. split; [done|].
    by destruct (_suspend_fetching_sync_blocks s').
Qed.
End backlog.

(** ** The synopsis *)
Section synopsis.
  Context {bn : block_numbers} {cl : node_client}.
(** The numbers up to [high] are the beginning of those up to the end. *)
Lemma synopsis_numbers_split fuel low high T l : synopsis_numbers fuel low high T = Some l -> low <= high <= T -> T < 2^32 - 2 -> 0 <= low ->
  forall all, synopsis_numbers fuel low T T = Some all -> l = List.filter (fun x => x <=? high) all.
Proof.
  revert low l. induction fuel as [|fuel IH]; intros low l; cbn [synopsis_numbers]; [done|]. intros Hl Hr HT H0 all Hall.
  destruct (next_low_val low T) as (_ & Hn & _); [lia|done|]. set (y := next_low low T) in *. clearbody y.
  assert (Hgt : forall fuel low l, 0 <= low <= T -> synopsis_numbers fuel low T T = Some l -> high < low -> List.filter (fun x => x <=? high) l = []).
  { clear - HT. induction fuel as [|fuel IH]; intros low l Hlow; cbn [synopsis_numbers]; [done|]. intros Hs Hh.
    destruct (next_low_val low T) as (_ & Hn & _); [lia|done|]. set (y := next_low low T) in *. clearbody y.
    assert (El : (low <=? high) = false) by lia. destruct (Z.leb_spec y T).
    - destruct (synopsis_numbers fuel y T T) as [l'|] eqn:E; [|done]. injection Hs as <-. cbn. rewrite El. eapply IH; [|exact E|]; lia.
    - injection Hs as <-. cbn. by rewrite El. }
  assert (El : (low <=? high) = true) by lia. destruct (Z.leb_spec y T).
  - destruct (synopsis_numbers fuel y T T) as [rest|] eqn:E; [|done]. injection Hall as <-. cbn. rewrite El. destruct (Z.leb_spec y high).
    + destruct (synopsis_numbers fuel y high T) as [l'|] eqn:E'; [|done]. injection Hl as <-. f_equal. by apply (IH y); [|lia..|].
    + injection Hl as <-. f_equal. symmetry. eapply Hgt; [|exact E|]; lia.
  - injection Hall as <-. cbn. rewrite El. destruct (Z.leb_spec y high); [lia|]. by injection Hl as <-.
Qed.
Lemma sequential_lookup ids first i h : sequential ids -> get_block_number <$> head ids = Some first -> 0 <= first ->
  first + Z.of_nat (length ids) < 2^32 -> ids !! i = Some h -> get_block_number h = first + Z.of_nat i.
Proof.
  revert first i. induction ids as [|a ids IH]; intros first i Hs Ef H0 Hb Hi; [done|]. cbn in Ef. injection Ef as Ef.
  destruct i as [|i]; [injection Hi as <-; lia|]. cbn in Hi, Hb. destruct ids as [|b ids]; [done|].
  apply sequential_cons in Hs as [E Hs]. rewrite (IH (first + 1) i); [lia|done| |lia|cbn [length] in *; lia|done].
  cbn. f_equal. rewrite E, Ef. unfold u32. rewrite Z.mod_small; [done|]. cbn [length] in Hb. lia.
Qed.
Lemma complete_synopsis_spec fuel ids first T : sequential ids -> get_block_number <$> head ids = Some first -> 1 <= first ->
  T = first + Z.of_nat (length ids) - 1 -> T < 2^32 - 2 ->
  forall low acc nums, 0 <= low <= T -> synopsis_numbers fuel low T T = Some nums ->
  exists l, complete_synopsis fuel ids first T low acc = Ok (acc ++ l) /\ (forall h, h ∈ l -> h ∈ ids) /\
    map get_block_number l = List.filter (fun x => x >=? first) nums.
Proof.
  intros Hs Hf H1 ET HT. induction fuel as [|fuel IH]; intros low acc nums Hlow; cbn [synopsis_numbers complete_synopsis]; [done|].
  intros Hn. destruct (next_low_val low T) as (_ & Hy & _); [lia|done|]. set (y := next_low low T) in *. clearbody y.
  assert (Hstep : exists l, (if low >=? first then match ids !! Z.to_nat (low - first) with Some h => Ok (acc ++ [h]) | None => Throw crash end else Ok acc) = Ok (acc ++ l)
    /\ (forall h, h ∈ l -> h ∈ ids) /\ map get_block_number l = List.filter (fun x => x >=? first) [low]).
  { cbn [List.filter]. destruct (Z.geb_spec low first).
    - destruct (lookup_lt_is_Some_2 ids (Z.to_nat (low - first))) as [h Hh]; [lia|]. rewrite Hh. exists [h]. split; [done|]. split.
      + intros x ->%list_elem_of_singleton. by eapply list_elem_of_lookup_2.
      + cbn. f_equal. rewrite (sequential_lookup ids first _ h Hs Hf) by (done || lia). lia.
    - exists []. split; [by rewrite app_nil_r|]. split; [by intros h ?%elem_of_nil|done]. }
  destruct Hstep as (l & -> & Hin & El). cbn [mbind res_bind]. destruct (Z.leb_spec y T).
  - destruct (synopsis_numbers fuel y T T) as [rest|] eqn:E; [|done]. injection Hn as <-.
    destruct (IH y (acc ++ l) rest) as (l' & -> & Hin' & El'); [lia|done|]. exists (l ++ l'). rewrite app_assoc. split; [done|]. split.
    + intros h [Hh|Hh]%elem_of_app; auto.
    + rewrite map_app, El, El'. cbn [List.filter]. by destruct (low >=? first).
  - injection Hn as <-. by exists l.
Qed.
Lemma filter_split_at {A} (f g : A -> bool) (l : list A) : (forall x, x ∈ l -> g x = negb (f x)) ->
  (forall l1 x y l2, l = l1 ++ x :: y :: l2 -> f y = true -> f x = true) -> List.filter f l ++ List.filter g l = l.
Proof.
  induction l as [|a l IH]; intros Hg Hm; [done|]. cbn [List.filter].
  assert (IHl : List.filter f l ++ List.filter g l = l).
  { apply IH; [intros x Hx; apply Hg, elem_of_cons; by right|]. intros l1 x y l2 -> Hy. by apply (Hm (a :: l1) x y l2). }
  rewrite (Hg a) by (apply elem_of_cons; by left). destruct (f a) eqn:Ea; cbn [negb]; [by rewrite <- app_comm_cons, IHl|].
  assert (Hnone : List.filter f l = []).
  { destruct l as [|b l]; [done|]. assert (Hb : f b = false) by (destruct (f b) eqn:Eb; [by rewrite (Hm [] a b l) in Ea|done]).
    clear - Hb Hm Ea. revert a b Ea Hb Hm. induction l as [|c l IH]; intros a b Ea Hb Hm; cbn; rewrite Hb; [done|].
    destruct (f c) eqn:Ec; [by rewrite (Hm [a] b c l) in Hb|]. pose proof (IH b c Hb Ec) as H. cbn in H. rewrite Ec in H.
    apply H. intros l1 x y l2 E Hy. apply (Hm (a :: l1) x y l2); [by rewrite E|done]. }
  rewrite Hnone in *. cbn in *. by rewrite IHl.
Qed.
Lemma thinning_increases T l1 x y l2 : thinning T (l1 ++ x :: y :: l2) -> x < y.
Proof. induction l1 as [|a l1 IH]; cbn; intros H; inversion H; subst; [done|destruct l1; done|]. apply IH. by rewrite <- H1. Qed.

(** C14: the synopsis a node sends is one sequence although two programs make it: when the
    client lists the blocks of its chain up to the one before the first block that is known
    of the peer, thinning out as it does, then the network code goes on with the blocks it
    knows of the peer so that the whole thins out towards the past up to the last block
    that is known of it.  The loop ends and stays inside the list. *)
Theorem synopses_are_seamless p low synopsis first T :
  let ids := ids_of_items_to_get p in
  sequential ids -> get_block_number <$> head ids = Some first -> T = first + Z.of_nat (length ids) - 1 -> T < 2^32 - 2 ->
  0 <= low <= first - 1 ->
  get_blockchain_synopsis (last_block_delegate_has_seen p) (Z.of_nat (length ids)) = Ok synopsis ->
  synopsis_numbers 33 low (first - 1) T = Some (map get_block_number synopsis) ->
  exists l, create_blockchain_synopsis_for_peer p = Ok (synopsis ++ l) /\ (forall h, h ∈ l -> h ∈ ids) /\
    synopsis_numbers 33 low T T = Some (map get_block_number (synopsis ++ l)) /\
    thinning T (map get_block_number (synopsis ++ l)) /\ last (synopsis ++ l) = last ids.
Proof.
  intros ids Hs Hf ET HT Hlow Hg Hn. assert (Hlen : (0 < length ids)%nat) by (destruct ids; [done|cbn; lia]).
  destruct (synopsis_numbers_spec 33 low T T) as (nums & En & Ht & _ & _ & Hlast); [lia|lia|done|cbn; lia|].
  pose proof (synopsis_numbers_split 33 low (first - 1) T _ Hn ltac:(lia) HT ltac:(lia) _ En) as Esyn.
  destruct (complete_synopsis_spec 33 ids first T Hs Hf ltac:(lia) ET HT low synopsis _ ltac:(lia) En) as (l & Ec & Hin & El).
  assert (Eall : map get_block_number (synopsis ++ l) = low :: nums).
  { rewrite map_app, Esyn, El. apply filter_split_at; [intros x _; lia|]. intros l1 x y l2 E Hy.
    pose proof (thinning_increases T l1 x y l2 ltac:(by rewrite <- E)). lia. }
  exists l. split; [|split; [done|]; split; [by rewrite Eall|]; split; [by rewrite Eall|]].
  - unfold create_blockchain_synopsis_for_peer. fold ids.
    assert (Eu : u32 (Z.of_nat (length ids)) = Z.of_nat (length ids)) by (apply Z.mod_small; lia). rewrite Eu, Hg. cbn [mbind res_bind].
    destruct ids as [|h rest] eqn:Eids; [done|]. injection Hf as Hf.
    assert (ETu : u32 (get_block_number h + Z.of_nat (length (h :: rest)) - 1) = T) by (rewrite Hf; unfold u32; rewrite Z.mod_small; lia).
    rewrite ETu. destruct synopsis as [|a syn]; [cbn in Esyn; by rewrite (proj2 (Z.leb_le low (first - 1))) in Esyn by lia|].
    cbn [map] in Eall. assert (Ea : get_block_number a = low) by (cbn in Eall; by injection Eall). rewrite Ea, Hf. exact Ec.
  - assert (Hx : exists x, last (synopsis ++ l) = Some x /\ get_block_number x = T).
    { specialize (Hlast eq_refl). rewrite <- Eall in Hlast. change (last (get_block_number <$> (synopsis ++ l)) = Some T) in Hlast. rewrite fmap_last in Hlast.
      destruct (last (synopsis ++ l)) as [x|]; [|done]. exists x. split; [done|]. by injection Hlast. }
    destruct Hx as (x & Ex & HxT). rewrite Ex.
    assert (Hxl : x ∈ ids).
    { destruct l as [|b l' _] using rev_ind; [|rewrite app_assoc, last_snoc in Ex; injection Ex as ->; apply Hin, elem_of_app; right; by apply list_elem_of_singleton].
      exfalso. rewrite app_nil_r in Ex. assert (Hxs : x ∈ synopsis) by (by apply last_Some_elem_of).
      assert (Hxn : T ∈ map get_block_number synopsis) by (apply list_elem_of_In, in_map_iff; exists x; split; [done|by apply list_elem_of_In]).
      rewrite Esyn in Hxn. apply list_elem_of_In, filter_In in Hxn as [_ Hxn]. lia. }
    apply list_elem_of_lookup_1 in Hxl as [i Hi]. pose proof (sequential_lookup ids first i x Hs Hf ltac:(lia) ltac:(lia) Hi) as Hnum.
    rewrite last_lookup. rewrite <- Hi. f_equal. lia.
Qed.
End synopsis.

(** ** Concrete nodes *)
#[local] Existing Instance mainnet.
#[local] Instance one_hash : externals := {| ripemd160_hash := fun _ => [] |}.
(** Blocks whose ids are one byte, their number. *)
#[local] Instance numbered : block_numbers := fun h => List.hd 0 h.
#[local] Instance empty_client : node_client := {|
  get_item := fun _ => Throw key_not_found_exception;
  handle_message := fun m => Ok (msg_data m);
  handle_block := fun _ => Throw assert_exception;
  get_block_time := fun _ => 0;
  get_blockchain_synopsis := fun _ _ => Ok [];
  read_block := fun m => Ok (BlockContents (msg_data m) (List.hd 0 (msg_data m)) 100) |}.
#[local] Instance empty_chain : sync_client := {|
  get_block_ids := fun _ => Ok ([], 0); has_item := fun _ => false; get_blockchain_now := 1600000000 |}.
#[local] Existing Instance default_limits.
Definition catching_up (n : net_node) : sync_node := SyncNode n ∅ [] [] [] false false 0.
Definition asked_peer : net_peer := quiet_peer <| we_need_sync_items_from_peer := true |> <| item_ids_requested_from_peer := Some [] |>.
Definition two_asked : sync_node := catching_up (quiet_node [(1, asked_peer); (2, asked_peer)]).
Definition block_ids : list item_hash_t := [[1]; [2]; [3]].
(** Both peers have answered, and the blocks are requested. *)
Definition two_answered : sync_node :=
  fst (on_blockchain_item_ids_inventory_message 2 block_message_type 0 block_ids
    (fst (on_blockchain_item_ids_inventory_message 1 block_message_type 0 block_ids two_asked))).
Definition two_requested : sync_node := fst (fetch_sync_items two_answered).
Lemma two_asked_start k p : peers (net two_asked) !! k = Some p -> sync_items_requested_from_peer p = ∅ /\ ids_of_items_to_get p = [].
Proof.
  intros Hk. unfold two_asked, quiet_node in Hk. cbn [net catching_up peers] in Hk. apply elem_of_list_to_map_2 in Hk.
  apply elem_of_cons in Hk as [Hk|Hk]; [injection Hk as -> ->; split; reflexivity|].
  apply list_elem_of_singleton in Hk. injection Hk as -> ->. split; reflexivity.
Qed.
Lemma two_requested_steps : rtc sync_step two_asked two_requested.
Proof.
  eapply rtc_l; [apply (sync_ids _ _ _ 1 block_message_type 0 block_ids)|].
  eapply rtc_l; [apply (sync_ids _ _ _ 2 block_message_type 0 block_ids)|].
  eapply rtc_l; [apply sync_round|apply rtc_refl].
Qed.
Lemma sync_blocks_are_requested_once_witness : sync_ok two_requested /\
  (sync_items_requested_from_peer <$> peers (net two_requested) !! 2) = Some (list_to_set block_ids) /\
  (sync_items_requested_from_peer <$> peers (net two_requested) !! 1) = Some ∅.
Proof.
  split; [|split; vm_compute; reflexivity].
  exact (sync_blocks_are_requested_once two_asked two_requested two_asked_start two_requested_steps).
Defined.


Definition block (i : Z) : block_message := (Message block_message_type [i], BlockContents [i] i 100).
(** Three blocks of one peer, of which the last two arrived in the wrong order. *)
Definition sole_peer : net_peer := quiet_peer <| we_need_sync_items_from_peer := true |> <| ids_of_items_to_get := block_ids |>.
Definition received (l new : list Z) : sync_node :=
  (catching_up (quiet_node [(1, sole_peer)])) <| _received_sync_items := map block l |> <| _new_received_sync_items := map block new |>.
Example backlog_example : exists s', process_backlog_of_sync_blocks (received [3] [2; 1]) = Ok (s', []) /\
  map block_id (_handle_message_calls_in_progress s') = block_ids /\ _received_sync_items s' = [].
Proof. eexists. split; [vm_compute; reflexivity|]. split; vm_compute; reflexivity. Qed.

(** A block that was accepted by another way stops the backlog: the blocks that follow it
    were received and stay, nothing is being handled or scheduled, and nothing more is
    requested, so that the node waits for what it has. *)
Theorem accepted_block_stops_the_backlog : exists s',
  process_backlog_of_sync_blocks ((received [] [3; 2; 1]) <| net ::= fun n => n <| _most_recent_blocks_accepted := [[1]] |> |>) = Ok (s', []) /\
  (exists b, b ∈ _received_sync_items s' /\ next_for_some_peer b (net s') = true) /\
  too_many_calls s' = false /\ _handle_message_calls_in_progress s' = [] /\ backlog_scheduled s' = false /\
  _active_sync_requests s' = ∅ /\ snd (fetch_sync_items s') = [].
Proof.
  eexists. split; [vm_compute; reflexivity|]. split_and!; try (vm_compute; reflexivity).
  exists (block 2). split; [|vm_compute; reflexivity]. apply list_elem_of_In. vm_compute. right. by left.
Qed.

(** The product of the number of blocks and their interval has 32 bits: a peer that offers
    enough blocks is believed. *)
Theorem offers_wrap_around :
  let offer n := sole_peer <| number_of_unfetched_item_ids := n |> in
  implausible_offer (offer (10^9)) = true /\ exists n, 10^9 < n < 2^32 /\ implausible_offer (offer n) = false.
Proof.
  split; [vm_compute; reflexivity|]. exists 1431655766. split; [lia|]. vm_compute. reflexivity.
Qed.

(** The client lists the numbers 1, 5 and 7 of a chain of nine blocks, eight and nine are
    known of the peer. *)
#[local] Instance seven_blocks : node_client := {|
  get_item := fun _ => Throw key_not_found_exception;
  handle_message := fun m => Ok (msg_data m);
  handle_block := fun _ => Throw assert_exception;
  get_block_time := fun _ => 0;
  get_blockchain_synopsis := fun _ n => Ok (match synopsis_numbers 33 1 7 (7 + n) with Some l => map (fun x => [x]) l | None => [] end);
  read_block := fun m => Throw assert_exception |}.
Definition two_known : net_peer := sole_peer <| ids_of_items_to_get := [[8]; [9]] |>.
Lemma synopses_are_seamless_witness : exists l,
  create_blockchain_synopsis_for_peer two_known = Ok ([[1]; [6]] ++ l) /\ l = [[8]; [9]].
Proof.
  destruct (synopses_are_seamless two_known 1 [[1]; [6]] 8 9) as (l & H & _).
  all: try (vm_compute; reflexivity).
  - vm_compute. split; discriminate.
  - exists l. split; [exact H|]. vm_compute in H. injection H as <-. reflexivity.
Defined.
