(* ===== verification/RpcTheorems.v ===== *)
(** * RpcTheorems: what a client of the API can rely on

    Every request is answered, with its id and either a result or an error; the two ways to
    name a method are the same; the registry lists what can be called.  The answers to the
    requests of the unit tests ([tests/plugin_tests/json_rpc.cpp]) are those they expect. *)
From Stdlib Require Import String.
From S2P Require Import Prelude AssetText Json PluginState State JsonRpc.
Local Open Scope Z_scope.
Local Open Scope list_scope.

(** ** One request *)
(** The id that the response repeats. *)
Definition request_id (m : variant) : variant :=
  match m with
  | v_object l => match find_entry (key "id") l with
                  | Some (v_int64 i) => v_int64 i | Some (v_uint64 i) => v_uint64 i | Some (v_string s) => v_string s
                  | _ => v_null
                  end
  | _ => v_null
  end.
(** A response repeats the id and has either a result or an error. *)
Definition answers (m : variant) (r : json_rpc_response) : Prop :=
  id_ r = request_id m /\ (is_Some (result r) <-> error r = None).

Section requests.
  Context {St : Type} `{exception_texts}.
  Variable p : json_rpc_plugin St.
  Variable remote : St -> option (list Z -> list Z -> variant -> rpc St variant).

Lemma call_api_method_some api m args notify lock s v s' :
  call_api_method p remote api m args notify lock s = (inr v, s') -> is_Some v.
Proof.
  unfold call_api_method, mbind, rpc_bind. intros E.
  destruct (_registered_apis p !! api); [|destruct (remote s) as [f|]].
  2: { by destruct (f api m args s) as [[?|?] ?]; inversion E. }
  all: destruct (find_api_method p api m s) as [[?|e] s1]; [done|].
  all: by destruct (call_entry p e args notify lock s1) as [[?|?] ?]; inversion E.
Qed.

(** What [rpc_jsonrpc] makes of a response that has neither a result nor an error. *)
Definition answered (i : variant) (a : answer) : Prop :=
  id_ (fst a) = i /\
  match snd a with
  | Some _ => result (fst a) = None
  | None => is_Some (result (fst a)) <-> error (fst a) = None
  end.
Lemma answered_error i c m d t : answered i (with_error c m d (JsonRpcResponse None None i), t).
Proof. split; [done|]. destruct t; [done|]. cbn. split; [by intros []|done]. Qed.
Lemma call_method_answered cb l m i s : answered i (fst (call_method p remote cb l m (JsonRpcResponse None None i) s)).
Proof.
  unfold call_method. destruct (process_params m l s) as [[t|[[api meth] args]] s1].
  - by destruct (class t); try apply answered_error.
  - unfold call_answered. destruct (call_api_method _ _ _ _ _ _ _ s1) as [[t|v] s2] eqn:E.
    + by destruct (class t); try apply answered_error.
    + apply call_api_method_some in E as [x ->]. by split.
Qed.
Lemma rpc_jsonrpc_answered cb l i s : answered i (fst (rpc_jsonrpc p remote cb l (JsonRpcResponse None None i) s)).
Proof.
  unfold rpc_jsonrpc.
  destruct (find_entry (key "jsonrpc") l) as [[]|]; try apply answered_error.
  destruct (bool_decide _); [|apply answered_error].
  destruct (find_entry (key "method") l) as [[]|]; try apply answered_error.
  destruct (negb _ || _); [|apply answered_error].
  pose proof (call_method_answered cb l s1 i s) as Ha.
  destruct (call_method _ _ _ _ _ _ _) as [[r [t|]] s2]; [|done].
  destruct Ha as [Hi Hr]. cbn in Hi, Hr.
  destruct (class t); try by split. split; [done|]. cbn. rewrite Hr. split; [by intros []|done].
Qed.
Lemma rpc_message_answers cb m s : answers m (fst (rpc_message p remote cb m s)).
Proof.
  assert (Hw : forall i c x d m, request_id m = i -> answers m (with_error c x d (JsonRpcResponse None None i))).
  { intros i c x d m' <-. split; [done|]. cbn. split; [by intros []|done]. }
  unfold rpc_message. destruct m as [| | | | | |l|l]; cbn [get_object]; try by apply Hw.
  assert (Hd : forall i, request_id (v_object l) = i -> answers (v_object l)
    (fst (match rpc_jsonrpc p remote cb l (JsonRpcResponse None None i) s with
          | ((response, None), s) => (response, s) | ((response, Some t), s) => (server_error t response, s) end))).
  { intros i Ei. pose proof (rpc_jsonrpc_answered cb l i s) as Ha. destruct (rpc_jsonrpc _ _ _ _ _ _) as [[r [t|]] s2].
    all: destruct Ha as [Hi Hr]; cbn in Hi, Hr; unfold answers; rewrite Ei; cbn [fst].
    2: done.
    unfold server_error. destruct (class t); cbn; rewrite Hr; (split; [done|]); split; try done; by intros []. }
  unfold rpc_id. destruct (find_entry (key "id") l) as [[]|] eqn:E.
  all: first [refine (Hd _ _)|refine (Hw _ _ _ _ _ _)]; cbn [request_id]; by rewrite E.
Qed.
End requests.

(** ** Texts *)
Definition requests_of (v : variant) : list variant := match v with v_array l => l | _ => [v] end.
Definition answer_variant (v : variant) (rs : list json_rpc_response) : variant :=
  match v with v_array _ => v_array (map response_to_variant rs) | _ => from_option response_to_variant v_null (head rs) end.
Section texts.
  Context {St : Type} `{exception_texts}.
  Variable p : json_rpc_plugin St.
  Variable remote : St -> option (list Z -> list Z -> variant -> rpc St variant).

Lemma rpc_messages_answer cb ms : forall s, Forall2 answers ms (fst (rpc_messages p remote cb ms s)).
Proof.
  induction ms as [|m ms IH]; intros s; cbn; [done|].
  pose proof (rpc_message_answers p remote cb m s) as Hm. destruct (rpc_message p remote cb m s) as [r s1].
  specialize (IH s1). destruct (rpc_messages p remote cb ms s1) as [rs s2]. by constructor.
Qed.

(** C27: every text is answered, whatever the methods do: with one error when it is no JSON
    value or the empty array, and otherwise with a response for each request in their order,
    which has the id of the request and either a result or an error; the caller is told
    whether there is an error.  This is for texts without null characters, on which the parser
    ends after at most twice their length. *)
Theorem every_request_is_answered cb fuel message s : no_nul message -> (2 * length message < fuel)%nat ->
  exists text err s', call_with p remote cb fuel message s = Some (text, err, s') /\
    ((exists v rest rs, from_string fuel message = Parsed v rest /\ rs <> [] /\ Forall2 answers (requests_of v) rs /\
        text = to_string stringify_large_ints_and_doubles (answer_variant v rs) /\ err = existsb is_error rs)
     \/ (((exists rest, from_string fuel message = Parsed (v_array []) rest) \/ exists e, from_string fuel message = Failed e) /\
        err = true /\ exists e, text = response_text (JsonRpcResponse None (Some e) v_null))).
Proof.
  intros Hn Hf. destruct (all_settle message Hn) as ((o & Ho & Hs) & _ & _).
  assert (Hp : from_string fuel message <> Endless).
  { unfold from_string. destruct (check_string_depth message); [|done]. rewrite Hs by lia. by intros ->. }
  unfold call_with. destruct (from_string fuel message) as [v rest|e|] eqn:E; [|naive_solver..].
  assert (Hone : requests_of v = [v] -> exists text err s',
    (let '(r, s0) := rpc_message p remote cb v s in Some (response_text r, is_error r, s0)) = Some (text, err, s') /\
    exists rs, rs <> [] /\ Forall2 answers [v] rs /\ text = to_string stringify_large_ints_and_doubles (from_option response_to_variant v_null (head rs))
      /\ err = existsb is_error rs).
  { intros _. pose proof (rpc_message_answers p remote cb v s) as Hm. destruct (rpc_message p remote cb v s) as [r s1].
    exists (response_text r), (is_error r), s1. split; [done|]. exists [r]. cbn. rewrite orb_false_r.
    split_and!; try done. by constructor. }
  destruct v as [| | | | | |[|m ms]|l].
  7: { eexists _, _, _. split; [done|]. right. split; [left; by eexists|]. split; [done|]. by eexists. }
  7: { pose proof (rpc_messages_answer cb (m :: ms) s) as Hm. destruct (rpc_messages p remote cb (m :: ms) s) as [rs s1].
    eexists _, _, _. split; [done|]. left. exists (v_array (m :: ms)), rest, rs. split_and!; try done. intros ->. inversion Hm. }
  all: destruct (Hone eq_refl) as (text & err & s' & -> & rs & ?); exists text, err, s'; split; [done|]; left.
  all: eexists _, rest, rs; split; [done|]; naive_solver.
Qed.
End texts.

(** ** Which requests reach a method *)
Definition has_no_dot (s : list Z) : Prop := 46 ∉ s.
Lemma split_dots_plain s : has_no_dot s -> split_dots s = [s].
Proof.
  unfold has_no_dot. induction s as [|c s IH]; cbn; [done|]. intros [Hc Hs]%not_elem_of_cons.
  rewrite (proj2 (Z.eqb_neq c 46)) by done. by rewrite IH.
Qed.
Lemma split_dots_app a s : has_no_dot a -> split_dots (a ++ 46 :: s) = a :: split_dots s.
Proof.
  unfold has_no_dot. induction a as [|c a IH]; cbn; [done|]. intros [Hc Ha]%not_elem_of_cons.
  rewrite (proj2 (Z.eqb_neq c 46)) by done. by rewrite IH.
Qed.
Lemma split_dots_cons s w ws : split_dots s = w :: ws ->
  has_no_dot w /\ match ws with [] => s = w | _ => exists t, s = w ++ 46 :: t /\ split_dots t = ws end.
Proof.
  unfold has_no_dot. revert w ws. induction s as [|c s IH]; intros w ws; cbn.
  - intros [= <- <-]. by split; [apply not_elem_of_nil|].
  - destruct (c =? 46) eqn:Ec.
    + apply Z.eqb_eq in Ec as ->. intros [= <- <-]. split; [apply not_elem_of_nil|].
      destruct (split_dots s) eqn:Es; [|by exists s]. destruct s; cbn in Es; [done|destruct (z =? 46); [done|by destruct (split_dots s)]].
    + apply Z.eqb_neq in Ec. destruct (split_dots s) as [|w' ws'] eqn:Es.
      { destruct s; cbn in Es; [done|destruct (z =? 46); [done|by destruct (split_dots s)]]. }
      intros [= <- <-]. destruct (IH _ _ eq_refl) as [Hw Hrest]. split; [by apply not_elem_of_cons|].
      destruct ws' as [|w2 ws2]; [by rewrite Hrest|]. destruct Hrest as (t & -> & Ht). by exists t.
Qed.
Lemma split_dots_two s a b : split_dots s = [a; b] <-> s = canonical_name a b /\ has_no_dot a /\ has_no_dot b.
Proof.
  unfold canonical_name. split.
  - intros (Ha & t & -> & Ht)%split_dots_cons. apply split_dots_cons in Ht as [Hb ->]. done.
  - intros (-> & Ha & Hb). cbn. rewrite split_dots_app by done. by rewrite split_dots_plain.
Qed.

(** The requests that call a method: in version 2.0, with an id that is a number or a string
    if there is one, and the method named in one of the two ways. *)
Definition header (l : list entry) : Prop :=
  find_entry (key "jsonrpc") l = Some (v_string (key "2.0")) /\
  match find_entry (key "id") l with None | Some (v_int64 _) | Some (v_uint64 _) | Some (v_string _) => True | _ => False end.
Inductive requests_call : variant -> list Z -> list Z -> variant -> Prop :=
| named l api m : header l -> find_entry (key "method") l = Some (v_string (canonical_name api m)) -> has_no_dot api -> has_no_dot m ->
    requests_call (v_object l) api m (default (v_object []) (find_entry (key "params") l))
| called l a b api m : header l -> find_entry (key "method") l = Some (v_string (key "call")) ->
    find_entry (key "params") l = Some (v_array [a; b]) -> as_string a = Ok api -> as_string b = Ok m ->
    requests_call (v_object l) api m (v_object [])
| called_with l a b args api m : header l -> find_entry (key "method") l = Some (v_string (key "call")) ->
    find_entry (key "params") l = Some (v_array [a; b; args]) -> as_string a = Ok api -> as_string b = Ok m ->
    requests_call (v_object l) api m args.
Lemma call_is_no_name api m : canonical_name api m <> key "call".
Proof.
  unfold canonical_name. intros E. assert (H : 46 ∈ key "call") by (rewrite <- E; apply elem_of_app; right; by left).
  vm_compute in H. repeat (apply elem_of_cons in H as [H|H]; [done|]). by apply elem_of_nil in H.
Qed.

Section dispatch.
  Context {St : Type} `{exception_texts}.
  Variable p : json_rpc_plugin St.
  Variable remote : St -> option (list Z -> list Z -> variant -> rpc St variant).

(** The response to a call that has ended so. *)
Definition response_to_call (r : (thrown + option variant) * St) (response : json_rpc_response) : json_rpc_response * St :=
  (match fst r with
   | inr v => response <| result := v |>
   | inl t =>
       match class t with
       | lock_exception => with_error JSON_RPC_ERROR_DURING_CALL (what t) None response
       | failed_assertion => with_exception JSON_RPC_ERROR_DURING_CALL t response
       | _ => server_error t response
       end
   end, snd r).
Definition refused (c : Z) (s : St) (r : json_rpc_response * St) : Prop :=
  snd r = s /\ result (fst r) = None /\ (exists e, error (fst r) = Some e /\ code e = c).

Lemma process_params_call l method (s : St) :
  (exists t, process_params method l s = (inl t, s)) \/
  exists api m args, process_params method l s = (inr (api, m, args), s) /\
    (header l -> find_entry (key "method") l = Some (v_string method) -> requests_call (v_object l) api m args).
Proof.
  unfold process_params. destruct (bool_decide (method = key "call")) eqn:Ec.
  - apply bool_decide_eq_true in Ec as ->. destruct (find_entry (key "params") l) as [v|] eqn:Ev; [|by left; eexists].
    destruct v as [| | | | | |[|a [|b [|args [|]]]]|]; try by left; eexists.
    all: destruct (as_string a) as [api|] eqn:Ea; [|by left; eexists].
    all: destruct (as_string b) as [m|] eqn:Eb; [|by left; eexists]; right; eexists api, m, _; split; [done|]; intros Hh Hm.
    + by eapply called.
    + by eapply called_with.
  - destruct (split_dots method) as [|api [|m [|]]] eqn:Es; try by left; eexists.
    apply split_dots_two in Es as (-> & Ha & Hm). right. eexists api, m, _. split; [done|]. intros Hh Hf. by apply named.
Qed.
Lemma process_params_spec l method api m args (s : St) : requests_call (v_object l) api m args ->
  find_entry (key "method") l = Some (v_string method) -> process_params method l s = (inr (api, m, args), s).
Proof.
  intros Hr Hf. unfold process_params.
  inversion Hr as [? ? ? Hh Hm Ha Hb|? a b ? ? Hh Hm Hp Ha Hb|? a b ? ? ? Hh Hm Hp Ha Hb]; subst; rewrite Hm in Hf; injection Hf as <-.
  - rewrite bool_decide_eq_false_2 by apply call_is_no_name. by rewrite (proj2 (split_dots_two _ api m)).
  - by rewrite bool_decide_eq_true_2, Hp, Ha, Hb.
  - by rewrite bool_decide_eq_true_2, Hp, Ha, Hb.
Qed.

Lemma header_fields l : header l ->
  find_entry (key "jsonrpc") l = Some (v_string (key "2.0")) /\
  rpc_id l no_response = JsonRpcResponse None None (request_id (v_object l)).
Proof.
  intros [Hv Hi]. split; [done|]. unfold rpc_id. cbn [request_id].
  by destruct (find_entry (key "id") l) as [[]|].
Qed.
Lemma rpc_message_call cb m api meth args s : requests_call m api meth args ->
  rpc_message p remote cb m s =
  response_to_call (call_api_method p remote api meth args (notify_client cb) true s) (JsonRpcResponse None None (request_id m)).
Proof.
  intros Hr. assert (exists l method, m = v_object l /\ header l /\ find_entry (key "method") l = Some (v_string method) /\
    (method = key "call" -> contains (key "params") l = true)) as (l & method & -> & Hh & Hm & Hc).
  { inversion Hr as [l ? ? Hh Hm|l ? ? ? ? Hh Hm Hp|l ? ? ? ? ? Hh Hm Hp]; subst; eexists _, _; split_and!; try done.
    - by intros ?%call_is_no_name.
    - intros _. unfold contains. by rewrite Hp.
    - intros _. unfold contains. by rewrite Hp. }
  destruct (header_fields l Hh) as [Hv Hi]. unfold rpc_message. cbn [get_object]. rewrite Hi. cbn [error].
  unfold rpc_jsonrpc. rewrite Hv, bool_decide_eq_true_2, Hm by done.
  assert (negb (bool_decide (method = key "call")) || contains (key "params") l = true) as ->.
  { destruct (bool_decide (method = key "call")) eqn:E; [|done]. apply bool_decide_eq_true in E. by rewrite Hc. }
  unfold call_method. rewrite (process_params_spec l method api meth args s) by done. unfold call_answered, response_to_call.
  destruct (call_api_method _ _ _ _ _ _ _ s) as [[t|v] s1]; cbn; [|done]. by destruct (class t) eqn:Et; cbn; rewrite ?Et.
Qed.
Definition refusals : list Z :=
  [JSON_RPC_PARSE_ERROR; JSON_RPC_INVALID_REQUEST; JSON_RPC_NO_PARAMS; JSON_RPC_PARSE_PARAMS_ERROR; JSON_RPC_SERVER_ERROR].
Lemma rpc_message_refused cb m s : (forall api meth args, ~ requests_call m api meth args) ->
  exists c, c ∈ refusals /\ refused c s (rpc_message p remote cb m s).
Proof.
  intros Hno. assert (Hw : forall i c x d, c ∈ refusals -> exists c', c' ∈ refusals /\ refused c' s (with_error c x d (JsonRpcResponse None None i), s)).
  { intros i c x d Hc. exists c. split; [done|]. repeat split. by eexists. }
  assert (Hin : forall c, existsb (Z.eqb c) refusals = true -> c ∈ refusals).
  { intros c (x & Hx & ->%Z.eqb_eq)%existsb_exists. by apply list_elem_of_In. }
  unfold rpc_message. destruct m as [| | | | | |l|l]; cbn [get_object]; try by apply Hw, Hin.
  assert (Hid : (exists e, error (rpc_id l no_response) = Some e /\ rpc_id l no_response = JsonRpcResponse None (Some e) v_null /\ code e = JSON_RPC_INVALID_REQUEST) \/
    (exists i, rpc_id l no_response = JsonRpcResponse None None i /\
      match find_entry (key "id") l with None | Some (v_int64 _) | Some (v_uint64 _) | Some (v_string _) => True | _ => False end)).
  { unfold rpc_id. destruct (find_entry (key "id") l) as [[]|]; ((left; by eexists) || (right; by eexists)). }
  destruct Hid as [(e & Ee & -> & Hc)|(i & -> & Hi)]; cbn [error].
  { exists JSON_RPC_INVALID_REQUEST. split; [by apply Hin|]. repeat split. by exists e. }
  unfold rpc_jsonrpc.
  destruct (find_entry (key "jsonrpc") l) as [[]|] eqn:Ev; try by apply Hw, Hin.
  destruct (bool_decide (s0 = key "2.0")) eqn:E2; [|by apply Hw, Hin]. apply bool_decide_eq_true in E2 as ->.
  destruct (find_entry (key "method") l) as [[| | | | |method| |]|] eqn:Em; try by apply Hw, Hin.
  destruct (negb _ || _); [|by apply Hw, Hin].
  unfold call_method. destruct (process_params_call l method s) as [[t Et]|(api & meth & args & _ & Hcall)].
  - rewrite Et. unfold server_error. destruct (class t) eqn:Ec; cbn; rewrite ?Ec; by apply Hw, Hin.
  - exfalso. by eapply Hno, Hcall.
Qed.
Lemma unknown_method api meth args notify s : get2 api meth (_registered_apis p) = None ->
  is_Some (_registered_apis p !! api) \/ remote s = None ->
  exists f args', call_api_method p remote api meth args notify true s = (inl (throws (asserted f args')), s).
Proof.
  unfold get2, call_api_method, find_api_method. intros Hg Hr.
  destruct (_registered_apis p !! api) as [ms|] eqn:E.
  - cbn in Hg. rewrite Hg. by eexists _, _.
  - destruct Hr as [[? ?]|Hr]; [done|]. rewrite Hr. by eexists _, _.
Qed.

(** C28: a request reaches a method exactly when it is well-formed, and then the method it
    names is run once and decides the response; any other request is refused with one of five
    codes and leaves the node as it was.  A request for a method that does not exist is
    refused as an error during the call. *)
Theorem requests_are_dispatched cb m s :
  (forall api meth args, requests_call m api meth args ->
    rpc_message p remote cb m s =
      response_to_call (call_api_method p remote api meth args (notify_client cb) true s) (JsonRpcResponse None None (request_id m)) /\
    (get2 api meth (_registered_apis p) = None -> is_Some (_registered_apis p !! api) \/ remote s = None ->
      refused JSON_RPC_ERROR_DURING_CALL s (rpc_message p remote cb m s))) /\
  ((forall api meth args, ~ requests_call m api meth args) -> exists c, c ∈ refusals /\ refused c s (rpc_message p remote cb m s)).
Proof.
  split; [|apply rpc_message_refused]. intros api meth args Hr. rewrite (rpc_message_call cb m api meth args s Hr). split; [done|].
  intros Hg Hs. destruct (unknown_method api meth args (notify_client cb) s Hg Hs) as (f & args' & ->).
  repeat split. by eexists.
Qed.

(** The two ways to name a method are the same: two requests with the same id that call
    the same method with the same arguments have the same response and leave the node in the
    same state. *)
Theorem spellings_agree cb m m' api meth args s : requests_call m api meth args -> requests_call m' api meth args ->
  request_id m = request_id m' -> rpc_message p remote cb m s = rpc_message p remote cb m' s.
Proof.
  intros Hr Hr' Hid. by rewrite (rpc_message_call cb m api meth args s Hr), (rpc_message_call cb m' api meth args s Hr'), Hid.
Qed.
End dispatch.

(** ** The registry *)
Section registry.
  Context {St : Type} `{exception_texts}.
(** The plugin after its own registration, those of other plugins, and its start. *)
Inductive registry : json_rpc_plugin St -> Prop :=
| initialized next : registry (initialize (JsonRpcPlugin ∅ [] ∅ next))
| method_added api m e sig p : registry p -> registry (add_api_method api m e sig p)
| plugin_started p : registry p -> registry (plugin_startup p)
| subscribed p : registry p -> registry (snd (generate_subscription_id p)).

Lemma get2_put2 {A} api m (a : A) api' m' t :
  get2 api' m' (put2 api m a t) = if bool_decide (api = api' /\ m = m') then Some a else get2 api' m' t.
Proof.
  unfold get2, put2. destruct (decide (api = api')) as [<-|Hne].
  - rewrite lookup_insert_eq. cbn. destruct (decide (m = m')) as [<-|Hm].
    + by rewrite lookup_insert_eq, bool_decide_eq_true_2.
    + rewrite lookup_insert_ne, bool_decide_eq_false_2 by naive_solver.
      destruct (t !! api) as [ms|] eqn:E; cbn; [done|apply lookup_empty].
  - by rewrite lookup_insert_ne, bool_decide_eq_false_2 by naive_solver.
Qed.
Definition lists_all (p : json_rpc_plugin St) : Prop :=
  (forall name, name ∈ _methods p <-> exists api m, name = canonical_name api m /\ is_Some (get2 api m (_registered_apis p))) /\
  forall api m, is_Some (get2 api m (_registered_apis p)) <-> is_Some (get2 api m (_method_sigs p)).
Lemma nothing_listed next : lists_all (JsonRpcPlugin ∅ [] ∅ next).
Proof.
  split; cbn.
  - intros name. split; [by intros ?%elem_of_nil|]. intros (api & m & _ & [? E]). unfold get2 in E. by rewrite lookup_empty in E.
  - intros api m. unfold get2. rewrite !lookup_empty. split; by intros [? ?].
Qed.
Lemma add_lists_all api m e sig p : lists_all p -> lists_all (add_api_method api m e sig p).
Proof.
  intros [Hl Hs]. split; cbn.
  - intros name. rewrite elem_of_app, list_elem_of_singleton, Hl. split.
    + intros [(api' & m' & -> & Hg)| ->]; [exists api', m'|exists api, m]; (split; [done|]); rewrite get2_put2.
      * destruct (bool_decide _); [by eexists|done].
      * rewrite bool_decide_eq_true_2 by done. by eexists.
    + intros (api' & m' & -> & Hg). rewrite get2_put2 in Hg. case_bool_decide as E.
      * destruct E as [-> ->]. by right.
      * left. by exists api', m'.
  - intros api' m'. rewrite !get2_put2. destruct (bool_decide _); [|done]. by split; eexists.
Qed.
Lemma registry_lists_all p : registry p -> lists_all p.
Proof.
  induction 1 as [next|api m e sig p _ IH|p _ [Hl Hs]|p _ IH].
  - unfold initialize. by do 2 apply add_lists_all; apply nothing_listed.
  - by apply add_lists_all.
  - split; [|done]. intros name. cbn. by rewrite merge_sort_Permutation, Hl.
  - done.
Qed.

(** At any time the registry lists exactly the methods that a request can call, and for
    each of them whose name has no further dot the method that describes methods returns a
    signature. *)
Theorem listed_methods_can_be_called p : registry p ->
  (forall name, name ∈ _methods p <-> exists api m, name = canonical_name api m /\ is_Some (get2 api m (_registered_apis p))) /\
  forall api m (s : St), is_Some (get2 api m (_registered_apis p)) ->
    (exists e, find_api_method p api m s = (inr e, s)) /\
    (has_no_dot api -> has_no_dot m -> exists g, get_signature p (canonical_name api m) s = (inr g, s)).
Proof.
  intros Hr%registry_lists_all. destruct Hr as [Hl Hs]. split; [done|]. intros api m s Hg. split.
  - unfold find_api_method, get2 in *. destruct (_registered_apis p !! api) as [ms|]; [|by destruct Hg].
    destruct Hg as [e He]. cbn in He. rewrite He. by exists e.
  - intros Ha Hm. unfold get_signature. rewrite (proj2 (split_dots_two _ api m)) by done. apply Hs in Hg. unfold get2 in Hg.
    destruct (_method_sigs p !! api) as [ms|]; [|by destruct Hg]. destruct Hg as [g Hg]. cbn in Hg. rewrite Hg. by exists g.
Qed.
End registry.

(** ** The requests of the unit tests *)
#[local] Instance plain_texts : exception_texts := {| own_text := fun _ => []; own_detail := fun _ => v_null |}.
(** A method that counts its calls. *)
Definition counting : api_method Z := fun args _ _ n => (inr args, n + 1).
Definition test_plugin : json_rpc_plugin Z :=
  plugin_startup (add_api_method (key "database_api") (key "find_accounts") (registered counting) (Signature v_null v_null)
    (initialize (JsonRpcPlugin ∅ [] ∅ 0))).
Definition offline (s : Z) : option (list Z -> list Z -> variant -> rpc Z variant) := None.
Definition answer_to (request : string) : option (list Z * bool * Z) := call test_plugin offline 500 (quoted_text request) 0.
(** The answer, its codes in place of its text. *)
Definition codes (v : variant) : list Z :=
  map (fun r => from_option code 0 (error r)) (fst (rpc_messages test_plugin offline (fun _ => mret tt) (requests_of v) 0)).
Definition codes_of (request : string) : list Z :=
  match from_string 500 (quoted_text request) with
  | Parsed (v_array []) _ | Failed _ => [JSON_RPC_SERVER_ERROR] | Parsed v _ => codes v | Endless => []
  end.

Local Open Scope string_scope.
Definition unit_tests : list (string * list Z) :=
  [("{}", [JSON_RPC_INVALID_REQUEST]);
   ("[]", [JSON_RPC_SERVER_ERROR]);
   ("[1,2,3]", [JSON_RPC_PARSE_ERROR; JSON_RPC_PARSE_ERROR; JSON_RPC_PARSE_ERROR]);
   ("{'JSONRPC': '2.0', 'method': 'call', 'params': [], 'id': 1}", [JSON_RPC_INVALID_REQUEST]);
   ("{'jsonrpc': '1.0', 'method': 'call', 'params': [], 'id': 1}", [JSON_RPC_INVALID_REQUEST]);
   ("{'jsonrpc_': '2.0', 'method': 'call', 'params': [], 'id': 1}", [JSON_RPC_INVALID_REQUEST]);
   ("{'jsonrpc': '2', 'method': 'call', 'params': [], 'id': 1}", [JSON_RPC_INVALID_REQUEST]);
   ("{'jsonrpc': 2.0, 'method': 'call', 'params': [], 'id': 1}", [JSON_RPC_INVALID_REQUEST]);
   ("{'jsonrpc': true, 'method': 'call', 'params': [], 'id': 1}", [JSON_RPC_INVALID_REQUEST]);
   ("{'jsonrpc': null, 'method': 'call', 'params': [], 'id': 1}", [JSON_RPC_INVALID_REQUEST]);
   ("{'jsonrpc': {}, 'method': 'call', 'params': [], 'id': 1}", [JSON_RPC_INVALID_REQUEST]);
   ("{'jsonrpc': [], 'method': 'call', 'params': [], 'id': 1}", [JSON_RPC_INVALID_REQUEST]);
   ("{'jsonrpc': { 'jsonrpc':'2.0' }, 'method': 'call', 'params': [], 'id': 1}", [JSON_RPC_INVALID_REQUEST]);
   ("'jsonrpc' '2.0'", [JSON_RPC_PARSE_ERROR]);
   ("{'jsonrpc': '2.0', 'METHOD': 'call', 'params': [], 'id': 1}", [JSON_RPC_INVALID_REQUEST]);
   ("{'jsonrpc': '2.0', 'method_': 'call', 'params': [], 'id': 1}", [JSON_RPC_INVALID_REQUEST]);
   ("{'jsonrpc': '2.0', 'method': 'xyz', 'params': [], 'id': 1}", [JSON_RPC_PARSE_PARAMS_ERROR]);
   ("{'jsonrpc': '2.0', 'method': 123, 'params': [], 'id': 1}", [JSON_RPC_INVALID_REQUEST]);
   ("{'jsonrpc': '2.0', 'method': false, 'params': [], 'id': 1}", [JSON_RPC_INVALID_REQUEST]);
   ("{'jsonrpc': '2.0', 'method': null, 'params': [], 'id': 1}", [JSON_RPC_INVALID_REQUEST]);
   ("{'jsonrpc': '2.0', 'method': {}, 'params': [], 'id': 1}", [JSON_RPC_INVALID_REQUEST]);
   ("{'jsonrpc': '2.0', 'method': [], 'params': [], 'id': 1}", [JSON_RPC_INVALID_REQUEST]);
   ("{'jsonrpc': '2.0', 'method': 'call' }", [JSON_RPC_NO_PARAMS]);
   ("{'jsonrpc': '2.0', 'method': call, 'params':1, 'id': 1}", [JSON_RPC_SERVER_ERROR]);
   ("{'jsonrpc': '2.0', 'method': call, 'params':'abc', 'id': 1}", [JSON_RPC_SERVER_ERROR]);
   ("{'jsonrpc': '2.0', 'method': call, 'params':true, 'id': 1}", [JSON_RPC_SERVER_ERROR]);
   ("{'jsonrpc': '2.0', 'method': call, 'params':'true, 'id': 1}", [JSON_RPC_SERVER_ERROR]);
   ("{'jsonrpc': '2.0', 'method': call, 'params':'true', 'id': 1}", [JSON_RPC_SERVER_ERROR]);
   ("{'jsonrpc': '2.0', 'method': 'call', 'params': [], 'id': null}", [JSON_RPC_INVALID_REQUEST]);
   ("{'jsonrpc': '2.0', 'method': 'call', 'params': [], 'id': 5.4}", [JSON_RPC_INVALID_REQUEST]);
   ("", [JSON_RPC_SERVER_ERROR]);
   ("'", [JSON_RPC_SERVER_ERROR]);
   ("{", [JSON_RPC_SERVER_ERROR]);
   ("{abcde}", [JSON_RPC_SERVER_ERROR]);
   ("{ 'abcde' }", [JSON_RPC_SERVER_ERROR]);
   ("{'jsonrpc':, 'method': 'call', 'params': [], 'id': 1}", [JSON_RPC_SERVER_ERROR]);
   ("[{]", [JSON_RPC_SERVER_ERROR]);
   ("[{ 'jsonrpc': '2.0' },{ 'jsonrpc' }]", [JSON_RPC_SERVER_ERROR]);
   ("{'jsonrpc': '2.0' 'method' 'call'}", [JSON_RPC_SERVER_ERROR]);
   ("{'jsonrpc': '2.0', 'method': 'call}", [JSON_RPC_SERVER_ERROR]);
   ("{'jsonrpc': '2.0', method: call}", [JSON_RPC_SERVER_ERROR]);
   ("[{'jsonrpc': '2.0', 'method': 'call'}", [JSON_RPC_SERVER_ERROR]);
   ("{'jsonrpc': '2.0', 'method': 'call', 'params': ]}", [JSON_RPC_SERVER_ERROR]);
   ("{'jsonrpc': '2.0', 'method': 'call', 'params' []}", [JSON_RPC_SERVER_ERROR]);
   ("{'jsonrpc': '2.0', 'method': 'call', 'params' [5,]}", [JSON_RPC_SERVER_ERROR]);
   ("{'jsonrpc': '2.0', 'method': 'call', 'params':{'arg1'}}", [JSON_RPC_SERVER_ERROR]);
   ("{'jsonrpc': '2.0', 'method': 'call', 'params':{'arg1':}}", [JSON_RPC_SERVER_ERROR]);
   ("[ {'jsonrpc': '2.0', 'method': 'call', 'params':{}, ]", [JSON_RPC_SERVER_ERROR]);
   ("[ {'jsonrpc': '2.0', 'method': 'call', 'params':{} }, {'jsonrpc': '2.0', 'method' ]", [JSON_RPC_SERVER_ERROR]);
   ("{'jsonrpc': '2.0', 'method': 'a.b.c', 'params': ['a','b', {} ], 'id': 1}", [JSON_RPC_PARSE_PARAMS_ERROR]);
   ("{'jsonrpc': '2.0', 'method': 'a..c', 'params': ['a','b', {} ], 'id': 1}", [JSON_RPC_PARSE_PARAMS_ERROR]);
   ("{'jsonrpc': '2.0', 'method': 'fake_api.fake_method', 'params': ['a','b', {} ], 'id': 1}", [JSON_RPC_ERROR_DURING_CALL]);
   ("{'jsonrpc': '2.0', 'method': 'call', 'params': ['fake_api','fake_method', {} ], 'id': 1}", [JSON_RPC_ERROR_DURING_CALL]);
   ("{'jsonrpc': '2.0', 'method': 'call', 'params': {}, 'id': 1}", [JSON_RPC_PARSE_PARAMS_ERROR]);
   ("{'jsonrpc': '2.0', 'method': 'call', 'params': { 'fake_api':'database_api', 'fake_method':'get_dynamic_global_properties', 'fake_args':{} }, 'id': 1}", [JSON_RPC_PARSE_PARAMS_ERROR])]%list.
Local Close Scope string_scope.

(** The requests of the unit tests that fail have the codes that the tests expect, in
    particular those for methods that do not exist. *)
Theorem unit_tests_pass : Forall (fun t => codes_of (fst t) = snd t) unit_tests.
Proof. unfold unit_tests. repeat (constructor; [vm_compute; reflexivity|]). constructor. Qed.

(** ** The theorems at concrete requests *)
Definition test_message : list Z :=
  quoted_text "[{'jsonrpc': '2.0', 'method': 'database_api.find_accounts', 'params': {}, 'id': 17}, {'id': 'x'}, 2]".
Lemma every_request_is_answered_witness : exists text s',
  call_with test_plugin offline (fun _ => mret tt) 500 test_message 0 = Some (text, true, s') /\ s' = 1.
Proof.
  destruct (every_request_is_answered test_plugin offline (fun _ => mret tt) 500 test_message 0) as (text & err & s' & E & _).
  - repeat (constructor; [discriminate|]). constructor.
  - vm_compute. lia.
  - exists text, s'. assert (Hv : err = true /\ s' = 1) by (clear -E; vm_compute in E; injection E as _ <- <-; by split). destruct Hv as [-> ->].
    split; [exact E|reflexivity].
Defined.
Definition by_name : list entry :=
  [(key "jsonrpc", v_string (key "2.0")); (key "method", v_string (key "database_api.find_accounts")); (key "id", v_uint64 4)].
Definition by_call : list entry :=
  [(key "jsonrpc", v_string (key "2.0")); (key "method", v_string (key "call"));
   (key "params", v_array [v_string (key "database_api"); v_string (key "find_accounts")]); (key "id", v_uint64 4)].
Lemma spellings_agree_witness :
  rpc_message test_plugin offline (fun _ => mret tt) (v_object by_name) 0 = rpc_message test_plugin offline (fun _ => mret tt) (v_object by_call) 0 /\
  result (fst (rpc_message test_plugin offline (fun _ => mret tt) (v_object by_call) 0)) = Some (v_object []).
Proof.
  split; [|vm_compute; reflexivity].
  apply (spellings_agree test_plugin offline (fun _ => mret tt) _ _ (key "database_api") (key "find_accounts") (v_object [])).
  - refine (named by_name (key "database_api") (key "find_accounts") _ _ _ _);
      [split; [vm_compute; reflexivity|exact I]|vm_compute; reflexivity|..].
    all: apply (bool_decide_eq_true_1 _); vm_compute; reflexivity.
  - refine (called by_call (v_string (key "database_api")) (v_string (key "find_accounts")) _ _ _ _ _ _ _);
      [split; [vm_compute; reflexivity|exact I]|vm_compute; reflexivity..].
  - vm_compute. reflexivity.
Defined.
Lemma listed_methods_can_be_called_witness :
  _methods test_plugin = [key "database_api.find_accounts"; key "jsonrpc.get_methods"; key "jsonrpc.get_signature"] /\
  exists e, find_api_method test_plugin (key "jsonrpc") (key "get_methods") 0 = (inr e, 0).
Proof.
  split; [vm_compute; reflexivity|].
  refine (proj1 (proj2 (listed_methods_can_be_called test_plugin _) (key "jsonrpc") (key "get_methods") 0 _)).
  - apply plugin_started, method_added, initialized.
  - vm_compute. by eexists.
Defined.
