(* ===== verification/MessagingTheorems.v ===== *)
(** * MessagingTheorems: what members of a group can rely on, and what they cannot *)
From Stdlib Require Import String.
From S2P Require Import Prelude Safe Names Asset Double AssetText Json Version Config Authority Raw KeyText Operations PluginState Messages.
From S2P Require Import MessageFacts GroupMessaging GroupApi GroupFacts GroupSafety TextTheorems.
Local Open Scope Z_scope.
Local Open Scope list_scope.

(** The operation that carries a message. *)
Definition carrying (m : variant) (from : account_name_type) (to : list account_name_type) : custom_json_operation :=
  CustomJson (Asset 0 SOPHIATX_SYMBOL_U64) from to 2 (to_string legacy_generator m).

Section messaging.
  Context {C : ciphers} {CL : cipher_laws} {X : externals} {RL : ripemd160_laws} {SF : sha256_function} {SL : sha256_laws}.
  Context (get_account : account_name_type -> res api_account).

Lemma random_key_ok secrets : length (generate_random_key secrets) = 32%nat /\ bytes (generate_random_key secrets).
Proof. split; [apply sha256_length|apply sha256_bytes]. Qed.

(** An encrypted message to the group is decrypted with the key of the group. *)
Lemma to_group_reads p from to w iv c k d id g : transmits w -> length iv = 32%nat -> bytes iv ->
  encode_message w iv k = Ok c -> groups_ok d -> groups d !! id = Some g -> group_key g = k ->
  data to = data (current_group_name g) ->
  mpm_apply p (carrying (group_meta_to_variant (GroupMeta None None (Some iv) c)) from [to]) d = group_content p from id g iv w d.
Proof.
  intros Hw Hl Hb Hc Hok Hg Hk Hto. destruct (message_reads_back w iv k Hw) as (c' & E & Hdec & Hbytes).
  rewrite Hc in E. injection E as <-.
  assert (Hm : meta_ok (GroupMeta None None (Some iv) c)) by (split; [done|done|by intros ? [= <-]|done]).
  destruct (group_meta_reads_back _ Hm) as [Hp Hv]. unfold mpm_apply, carrying. cbn [cj_json cj_sender cj_recipients].
  unfold mbind at 1, KST_bind at 1, k_res at 1. rewrite Hp. unfold mbind at 1, KST_bind at 1, k_res at 1. rewrite Hv. cbn [gm_iv gm_data forM].
  unfold mbind at 1, KST_bind at 1, to_group, find_group. unfold mbind at 1, KST_bind at 1, k_gets.
  rewrite (called_group d to id g) by (done || by symmetry). unfold mbind at 1, KST_bind at 1, k_res at 1. subst k. rewrite Hdec.
  destruct (group_content _ _ _ _ _ _ _) as [d' [[]|e]]; done.
Qed.

(** C29: what a member sends to a group is what the others get: the payload that the API
    prepares from a text, put into the JSON of an operation, makes the plugin of every
    node that knows the group under the same name and key store exactly that text,
    with its sender and the members, under the next number of the group. *)
Theorem group_message_is_delivered plugin p name sender text ivs ds gs ret d id g meta :
  send_group_message get_account plugin name sender text ivs ds = Ok ret -> short text ->
  group_of name ds = Ok gs -> groups_ok d -> groups d !! id = Some g ->
  data (current_group_name g) = data (current_group_name gs) -> group_key g = group_key gs ->
  messages d !! (data (group_name g), current_seq g) = None ->
  map_find (data (current_group_name gs)) ret = Some meta ->
  swallowed (mpm_apply p (carrying (group_meta_to_variant meta) sender [current_group_name gs])) d =
    Ok (with_message id g sender false text d).
Proof.
  intros Hs Ht Hgs Hok Hg Hn Hk Hm Hr. unfold send_group_message in Hs. rewrite Hgs in Hs. cbn [mbind res_bind] in Hs.
  apply rbind_Ok in Hs as (a & _ & Hs). apply rbind_Ok in Hs as (k & _ & Hs). apply rbind_Ok in Hs as (c & Hc & Hs).
  injection Hs as <-. cbn [map_assign map_find] in Hr. rewrite Z.eqb_refl in Hr. injection Hr as <-.
  destruct (random_key_ok ivs) as [Hl Hb]. unfold swallowed.
  rewrite (to_group_reads p sender _ (text_wrapper text) _ c (group_key gs) d id g);
    [|by apply text_transmits|done..].
  unfold group_content. cbn [wrapped_type text_wrapper message_data]. change (message_type_message =? message_type_group_operation) with false.
  change (message_type_message =? message_type_message) with true. cbv beta iota. by rewrite (save_message_spec d id g).
Qed.

(** ** Invitations *)
(** The operation the API encrypts for one member. *)
Lemma invitation_spec sk from k op m n meta : get_public_key sk = Ok from -> op_ok op -> 
  invitation get_account sk from k op m = Ok (n, meta) -> exists member sc c,
  get_account m = Ok member /\ get_shared_secret sk (memo_key member) = Ok sc /\
  encode_message_512 (op_wrapper (op <| new_key := [(memo_key member, aes_encrypt_512 sc k)] |>)) sc = Ok c /\
  meta = GroupMeta (Some from) (Some (memo_key member)) None c.
Proof.
  intros Hsk Hop H. unfold invitation in H. apply rbind_Ok in H as (member & Em & H). apply rbind_Ok in H as (sc & Es & H).
  apply rbind_Ok in H as (meta' & He & H). injection H as _ <-. unfold encode_and_pack_512 in He. apply rbind_Ok in He as (c & Ec & He).
  injection He as <-. by exists member, sc, c.
Qed.

Section one_invitation.
  Context (q : mpm_plugin) (op_sender to name : account_name_type) (from memo : public_key_type) (sk mk sc k c : list Z).
  Context (descr : list Z) (users : list account_name_type) (d : groups_db).
  Hypothesis Hsk : get_public_key sk = Ok from.
  Hypothesis Hmk : get_public_key mk = Ok memo.
  Hypothesis Hsc : get_shared_secret sk memo = Ok sc.
  Hypothesis Hk : length k = 32%nat.
  Hypothesis Hkb : bytes k.
  Hypothesis Hknz : k <> empty_sha256.
  Hypothesis Hq : keys_sound (mpm_private_keys q).
  Hypothesis Hends : private_key_of q memo <> None \/ private_key_of q from <> None.
Let op := invite_op name from memo sc k descr users.
  Hypothesis Hop : op_ok op.
  Hypothesis Hc : encode_message_512 (op_wrapper op) sc = Ok c.
  Hypothesis Hok : groups_ok d.
  Hypothesis Hcalled : group_where (called name) d = None.
  Hypothesis Hnamed : group_where (named name) d = None.
  Hypothesis Hroom : messages d !! (data name, 0) = None.

Lemma invitation_decoded : decode_message_512 c sc = Ok (op_wrapper op) /\ bytes c.
Proof.
  destruct (message_512_reads_back (op_wrapper op) sc (op_transmits op Hop)) as (c' & E & H). rewrite Hc in E. by injection E as <-.
Qed.
Lemma to_accounts_joins : existsb (name_eqb to) (mpm_accounts q) || existsb (name_eqb op_sender) (mpm_accounts q) = true ->
  exists text, to_accounts q op_sender from memo c [to; op_sender] d = (joined (joined_group op_sender name descr users k) text d, Ok tt).
Proof.
  intros Hfollow. destruct invitation_decoded as [Hdec _].
  destruct (new_group_joins q op_sender name from memo sk mk sc k descr users d) as (text & _ & Hj); [done..|]. fold op in Hj.
  exists text. set (d' := joined _ text d) in *.
  assert (Hcs : common_secret q from memo = Some (Ok sc)) by (by apply (common_secret_is sk mk)).
  assert (Hagain : new_group q op_sender from (op_wrapper op) d' = (d', Ok false)).
  { apply new_group_known with (id := next_group_id d) (g := (joined_group op_sender name descr users k) <| current_seq ::= fun n => u32 (n + 1) |>); [|done].
    unfold d', joined, with_message. cbn. by rewrite lookup_insert_eq. }
  cbn [to_accounts]. destruct (existsb (name_eqb to) (mpm_accounts q)).
  - rewrite Hcs. rewrite (k_bind_res _ _ _ sc) by done. rewrite (k_bind_res _ _ _ _ Hdec). rewrite (k_bind_ok _ _ _ _ _ Hj).
    destruct (existsb (name_eqb op_sender) (mpm_accounts q)); [|done].
    rewrite (k_bind_res _ _ _ sc) by done. rewrite (k_bind_res _ _ _ _ Hdec). by rewrite (k_bind_ok _ _ _ _ _ Hagain).
  - cbn [orb] in Hfollow. rewrite Hfollow, Hcs. rewrite (k_bind_res _ _ _ sc) by done. rewrite (k_bind_res _ _ _ _ Hdec).
    by rewrite (k_bind_ok _ _ _ _ _ Hj).
Qed.
Lemma invitation_joins : key_range from -> existsb (name_eqb to) (mpm_accounts q) || existsb (name_eqb op_sender) (mpm_accounts q) = true ->
  exists text, mpm_apply q (carrying (group_meta_to_variant (GroupMeta (Some from) (Some memo) None c)) op_sender [to]) d =
    (joined (joined_group op_sender name descr users k) text d, Ok tt).
Proof.
  intros Hfrom Hfollow. destruct (to_accounts_joins Hfollow) as (text & Ht). exists text. destruct invitation_decoded as [_ Hb].
  assert (Hmemo : key_range memo).
  { destruct Hop as [_ _ _ _ _ _ [_ He _]]. by apply Forall_cons_1 in He as [[? _] _]. }
  assert (Hm : meta_ok (GroupMeta (Some from) (Some memo) None c)) by (split; cbn; [by intros ? [= <-]|by intros ? [= <-]|done|done]).
  destruct (group_meta_reads_back _ Hm) as [Hp Hv]. unfold mpm_apply, carrying. cbn [cj_json cj_sender cj_recipients].
  rewrite (k_bind_res _ _ _ _ Hp), (k_bind_res _ _ _ _ Hv). cbn [gm_iv gm_sender gm_recipient gm_data app]. exact Ht.
Qed.
End one_invitation.

(** Accounts whose memo key is somebody's. *)
Definition accounts_sound : Prop := forall n a, get_account n = Ok a -> exists k, get_public_key k = Ok (memo_key a).
Lemma public_key_range k p : get_public_key k = Ok p -> key_range p.
Proof.
  unfold get_public_key. intros H. apply rbind_Ok in H as ([] & _ & H). destruct (pubkey_create k) as [p'|] eqn:E; [|done].
  injection H as ->. apply pubkey_range in E. unfold key_range. lia.
Qed.
Lemma sort_names_perm l : sort_names l ≡ₚ l.
Proof.
  unfold sort_names. assert (H : forall l acc, foldl (fun l n => insert_sorted n l) acc l ≡ₚ acc ++ l).
  { clear l. assert (Hi : forall n l, insert_sorted n l ≡ₚ n :: l).
    { intros n l. induction l as [|m l IH]; [done|]. cbn [insert_sorted]. destruct (name_ltb n m); [done|]. rewrite IH. apply Permutation_swap. }
    induction l as [|n l IH]; intros acc; cbn [foldl]; [by rewrite app_nil_r|]. rewrite IH, Hi. by rewrite <- Permutation_middle. }
  apply (H l []).
Qed.
Lemma unique_names_sub l n : n ∈ unique_names l -> n ∈ l.
Proof.
  induction l as [|a l IH]; [done|]. cbn [unique_names]. destruct l as [|b l]; [done|]. destruct (name_eqb a b).
  - intros [->|H]%elem_of_cons; [apply list_elem_of_here|]. apply list_elem_of_further, IH.
    destruct (unique_names (b :: l)); [done|]. by apply list_elem_of_further.
  - intros [->|H]%elem_of_cons; [apply list_elem_of_here|]. by apply list_elem_of_further, IH.
Qed.
Lemma unique_names_length l : (length (unique_names l) <= length l)%nat.
Proof.
  induction l as [|a l IH]; [done|]. cbn [unique_names]. destruct l as [|b l]; [done|]. destruct (name_eqb a b); cbn [length] in *; [|lia].
  destruct (unique_names (b :: l)); cbn in *; lia.
Qed.

(** C30: everybody who is invited to a group gets the same group: whichever payload of
    [create_group] a node reads, of any member or of its own account if it is the
    admin's, it creates the group with the name, the members, the admin and the
    very key that the admin drew. *)
Theorem invited_members_share_the_key plugin admin_name descr ms ns ks gname ret a x meta q to d :
  create_group get_account plugin admin_name descr ms ns ks = Ok (gname, ret) -> map_find x ret = Some meta ->
  get_account admin_name = Ok a -> accounts_sound -> keys_sound (mpm_private_keys plugin) ->
  short descr -> readable gname -> name_size gname <> 0 -> Forall readable ms -> readable (api_name a) ->
  Z.of_nat (S (length ms)) * SIZEOF_NAME < MAX_ARRAY_ALLOC_SIZE -> generate_random_key ks <> empty_sha256 ->
  keys_sound (mpm_private_keys q) -> existsb (name_eqb to) (mpm_accounts q) || existsb (name_eqb admin_name) (mpm_accounts q) = true ->
  (forall k, gm_recipient meta = Some k -> private_key_of q k <> None \/ private_key_of q (memo_key a) <> None) ->
  groups_ok d -> group_where (called gname) d = None -> group_where (named gname) d = None -> messages d !! (data gname, 0) = None ->
  exists text, swallowed (mpm_apply q (carrying (group_meta_to_variant meta) admin_name [to])) d =
    Ok (joined (joined_group admin_name gname descr (unique_names (sort_names ms) ++ [api_name a]) (generate_random_key ks)) text d).
Proof.
  intros Hc Hx Ha Hacc Hpl Hd Hg Hgs Hms Hadm Hsize Hkey Hq Hfollow Hends Hok Hcalled Hnamed Hroom.
  unfold create_group in Hc. rewrite Ha in Hc. cbn [mbind res_bind] in Hc. apply rbind_Ok in Hc as (sk & Esk & Hc).
  apply rbind_Ok in Hc as (ret' & Hret & Hc). injection Hc as Egn ->. set (us := unique_names (sort_names ms)) in *.
  unfold own_key in Esk. destruct (private_key_of plugin (memo_key a)) as [sk'|] eqn:Ep; [|done]. injection Esk as ->.
  assert (Hsk : get_public_key sk = Ok (memo_key a)) by (by apply (private_key_public plugin)).
  destruct (invitations_find _ _ _ _ _ _ _ _ _ _ Hret Hx) as [Hf|(m & n & Hin & Hinv & _)]; [done|].
  set (op0 := (make_group_op _ _ _ _ _) <| user_list ::= _ |>) in Hinv.
  assert (Eop : op0 = GroupOp 1 (key "add") descr (Some gname) (Some (us ++ [api_name a])) (memo_key a) []).
  { unfold op0, make_group_op. rewrite Egn. destruct (Z.eqb_spec (name_size gname) 0); [done|]. clear - Hin.
    destruct us; [by apply elem_of_nil in Hin|done]. }
  clearbody op0. subst op0.
  assert (Hus : Forall readable (us ++ [api_name a])).
  { apply Forall_app. split; [|by apply Forall_singleton]. apply Forall_forall. intros y Hy%unique_names_sub. rewrite sort_names_perm in Hy.
    by apply (proj1 (Forall_forall _ _) Hms). }
  assert (Hlen : (length (us ++ [api_name a]) <= S (length ms))%nat).
  { rewrite length_app. cbn. pose proof (unique_names_length (sort_names ms)) as H.
    rewrite (Permutation_length (sort_names_perm ms)) in H. unfold us. lia. }
  assert (Hop : forall keys, keys_ok keys -> op_ok (GroupOp 1 (key "add") descr (Some gname) (Some (us ++ [api_name a])) (memo_key a) keys)).
  { intros keys Hk. split; cbn; [done|split; [done|by repeat constructor]|done|by intros ? [= <-]| |by eapply public_key_range|done].
    intros l [= <-]. split; [done|]. unfold SIZEOF_NAME in *. nia. }
  assert (Hk0 : keys_ok []) by (split; [constructor|constructor|done]).
  destruct (invitation_spec sk (memo_key a) _ _ m n meta Hsk (Hop [] Hk0) Hinv) as (member & sc & c & Em & Esc & Ec & ->).
  destruct (Hacc m member Em) as (mk & Hmk). destruct (random_key_ok ks) as [Hkl Hkb].
  destruct (invitation_joins q admin_name to gname (memo_key a) (memo_key member) sk mk sc (generate_random_key ks) c descr
    (us ++ [api_name a]) d) as (text & E); try done; [by apply Hends| |by eapply public_key_range|].
  - apply Hop. split; [by repeat constructor| |done].
    apply Forall_singleton. split; [by eapply public_key_range|]. cbn [snd]. unfold aes_encrypt_512, aes_encrypt. split; [|by apply evp_bytes].
    pose proof (evp_size (take 32 sc) (take 16 (drop 32 sc)) (generate_random_key ks)) as H. rewrite Hkl in H. unfold MAX_ARRAY_ALLOC_SIZE. lia.
  - exists text. unfold swallowed. by rewrite E.
Qed.

(** ** Who may change a group *)
(** C31: a group is its admin's: whatever an operation carries, the names of the groups of a
    node stay unique and its ids fresh, and every group of which the sender is not the
    admin keeps its names, its description, its members, its admin and its key. *)
Theorem groups_are_their_admins p op d d' id g : groups_ok d -> swallowed (mpm_apply p op) d = Ok d' -> groups d !! id = Some g ->
  groups_ok d' /\ (data (cj_sender op) <> data (admin g) -> exists g', groups d' !! id = Some g' /\ same_group g g').
Proof.
  intros Hok H Hg. destruct (wp_swallowed _ _ _ _ _ (mpm_apply_own p op d Hok) H) as [Hd|Hd];
    (split; [apply Hd|]; intros Hne; by destruct (others_kept _ _ _ Hd id g Hg)).
Qed.

(** ** Disbanding *)
(** The current name of a disbanded group is empty, and names are unique: when a node
    knows one disbanded group, disbanding a second one removes that group from the table,
    and no message records it. *)
Theorem second_disbanded_group_is_lost plugin p name admin_name ivs ds gs ret meta a d id g j ghost :
  disband_group get_account plugin name admin_name ivs ds = Ok ret -> group_of name ds = Ok gs ->
  get_account admin_name = Ok a -> keys_sound (mpm_private_keys plugin) -> readable (group_name gs) ->
  map_find (data (current_group_name gs)) ret = Some meta ->
  groups_ok d -> groups d !! id = Some g -> data (current_group_name g) = data (current_group_name gs) ->
  group_key g = group_key gs -> data (admin g) = data admin_name -> data (current_group_name g) <> data (fixed_string []) ->
  groups d !! j = Some ghost -> data (current_group_name ghost) = data (fixed_string []) ->
  swallowed (mpm_apply p (carrying (group_meta_to_variant meta) admin_name [current_group_name gs])) d =
    Ok (d <| groups ::= delete id |>).
Proof.
  intros Hr Hgs Ha Hpl Hread Hm Hok Hg Hn Hk Hadm Hne Hj Hghost. unfold disband_group, group_of_admin in Hr. rewrite Hgs in Hr.
  cbn [mbind res_bind] in Hr. apply rbind_Ok in Hr as (gs' & Hgs' & Hr). apply rbind_Ok in Hgs' as ([] & _ & Hgs'). injection Hgs' as <-.
  rewrite Ha in Hr. cbn [mbind res_bind] in Hr. apply rbind_Ok in Hr as (sk & Hsk & Hr). apply rbind_Ok in Hr as (meta' & He & Hr).
  injection Hr as <-. cbn [map_assign map_find] in Hm. rewrite Z.eqb_refl in Hm. injection Hm as <-.
  unfold encode_and_pack in He. apply rbind_Ok in He as (c & Hc & He). injection He as <-. destruct (random_key_ok ivs) as [Hl Hb].
  set (op := make_group_op "disband" _ _ _ _) in *.
  assert (Hop : op_ok op).
  { unfold own_key in Hsk. destruct (private_key_of plugin (memo_key a)) as [k|] eqn:E; [|done]. injection Hsk as ->.
    split; cbn; [done|split; [done|by repeat constructor]|split; [done|constructor]| |done| |].
    - intros n. destruct (_ =? 0); [done|]. by intros [= <-].
    - eapply public_key_range, (private_key_public plugin); done.
    - split; [constructor|constructor|done]. }
  unfold swallowed. rewrite (to_group_reads p admin_name _ (op_wrapper op) _ c (group_key gs) d id g);
    [|by apply op_transmits|done..].
  assert (Hx : extract_key p [] (group_key g) (generate_random_key ivs) (memo_key a) = Ok empty_sha256).
  { unfold extract_key. enough (E : key_from_private_keys (mpm_private_keys p) [] (memo_key a) = None) by (by rewrite E).
    induction (mpm_private_keys p) as [|[pub secret] l IH]; [done|]. cbn [key_from_private_keys map_find skip_null]. by destruct (pub =? memo_key a). }
  unfold group_content. cbn [wrapped_type op_wrapper]. change (message_type_group_operation =? message_type_group_operation) with true. cbv beta iota.
  unfold group_operation. cbn [operation_data op_wrapper].
  rewrite k_bind_assert by (apply andb_true_iff; split; [done|by apply name_eqb_eq]).
  rewrite (k_bind_res _ _ _ empty_sha256) by exact Hx. change (bool_decide (type_ op = key "disband")) with true. cbv beta iota.
  assert (Hdis : disband id d = (d <| groups ::= delete id |>, Throw logic_error)).
  { unfold disband, modify_group. rewrite Hg.
    assert (Hcl : clashes id (g <| members := [] |> <| current_group_name := fixed_string [] |> <| group_key := empty_sha256 |>) d = true).
    { apply clashes_spec. exists j, ghost. split_and!; [|done|by rewrite Hghost]. intros ->. congruence. }
    by rewrite Hcl. }
  by rewrite (k_bind_throw _ _ _ _ _ Hdis).
Qed.
End messaging.

(** ** Concrete ciphers *)
(** A cipher that does not encrypt, and points that are numbers. *)
Definition toy_number (a : list Z) : Z := be_value a mod 2 ^ 32.
Definition toy_ciphers : ciphers := {|
  evp_encrypt := fun _ _ m => m;
  evp_decrypt := fun _ _ m => Some m;
  tweak_mul := fun p a => Some (p * toy_number a mod 2 ^ 64);
  pubkey_create := fun a => if toy_number a =? 0 then None else Some (toy_number a);
  sha512_hash := copied 64 |}.
Lemma toy_cipher_laws : @cipher_laws toy_ciphers.
Proof.
  split; cbn [toy_ciphers evp_encrypt evp_decrypt tweak_mul pubkey_create]; try done.
  - intros k iv m. lia.
  - intros a b pa pb Ha Hb. destruct (toy_number a =? 0), (toy_number b =? 0); try done.
    injection Ha as <-. injection Hb as <-. eexists. split; [done|]. by rewrite Z.mul_comm.
  - intros a pa H. destruct (Z.eqb_spec (toy_number a) 0) as [|Hn]; [done|]. injection H as <-.
    unfold toy_number in *. pose proof (Z.mod_pos_bound (be_value a) (2 ^ 32) ltac:(lia)). lia.
Qed.
Definition toy_secret : list Z := repeat 0 31 ++ [7].
Definition toy_member_secret : list Z := repeat 0 31 ++ [9].
Definition toy_admin : account_name_type := fixed_string (key "boss").
Definition toy_member : account_name_type := fixed_string (key "anna").
(** Everybody but the admin has the memo key of the member. *)
Definition toy_get_account (n : account_name_type) : res api_account :=
  Ok (ApiAccount n (if name_eqb n toy_admin then 7 else 9)).
Definition toy_plugin : mpm_plugin := MpmPlugin 2 [toy_admin] [(7, toy_secret)].
Definition toy_member_plugin : mpm_plugin := MpmPlugin 2 [toy_member] [(9, toy_member_secret)].
Definition toy_name : account_name_type := fixed_string (key "TheGroup0001").
Definition toy_group : group_object := Group toy_name toy_name (key "ours") [toy_member; toy_admin] toy_admin (repeat 5 32) 3.
Definition toy_groups : groups_db := GroupsDb {[1 := toy_group]} 2 ∅.
Definition toy_ghost : group_object := Group (fixed_string (key "Old")) (fixed_string []) [] [] toy_admin empty_sha256 4.
Definition toy_groups_with_ghost : groups_db := GroupsDb {[0 := toy_ghost; 1 := toy_group]} 2 ∅.
Definition result_or {A} (a : A) (r : res A) : A := match r with Ok x => x | Throw _ => a end.
Definition found_or {A} (a : A) (o : option A) : A := match o with Some x => x | None => a end.
Definition no_meta : group_meta := GroupMeta None None None [].

Lemma bytes_check l : forallb (fun x => (0 <=? x) && (x <? 256)) l = true -> bytes l.
Proof. intros H. apply Forall_forall. intros x Hx%list_elem_of_In. rewrite forallb_forall in H. specialize (H x Hx). lia. Qed.
Lemma readable_check n s : string_of_name n = Ok s -> forallb (fun x => (0 <=? x) && (x <? 256)) (normalize_to_base64 s) = true ->
  Nat.leb (length (normalize_to_base64 s)) 64 = true -> fixed_string (normalize_to_base64 s) = n -> readable n.
Proof.
  intros Hs Hb%bytes_check Hl%Nat.leb_le Hn. exists s. split_and!; [done|split; [unfold Raw.MAX_ARRAY_ALLOC_SIZE; lia|done]|done].
Qed.
(** [groups_ok], decided on the entries. *)
Definition groups_check (d : groups_db) : bool :=
  let l := map_to_list (groups d) in
  forallb (fun a => (fst a <? next_group_id d) && forallb (fun b => (fst a =? fst b) ||
    negb (name_eqb (current_group_name (snd a)) (current_group_name (snd b))) && negb (name_eqb (group_name (snd a)) (group_name (snd b)))) l) l.
Lemma groups_ok_check d : groups_check d = true -> groups_ok d.
Proof.
  unfold groups_check. intros H. rewrite forallb_forall in H.
  assert (Hin : forall i g, groups d !! i = Some g -> In (i, g) (map_to_list (groups d))).
  { intros i g Hi. by apply list_elem_of_In, elem_of_map_to_list. }
  assert (Hpair : forall i j g h, groups d !! i = Some g -> groups d !! j = Some h ->
    i = j \/ data (current_group_name g) <> data (current_group_name h) /\ data (group_name g) <> data (group_name h)).
  { intros i j g h Hg%Hin Hh%Hin. apply H in Hg as [_ Hg]%andb_true_iff. rewrite forallb_forall in Hg. apply Hg in Hh. cbn [fst snd] in Hh.
    unfold name_eqb in Hh. lia. }
  split.
  - intros i g Hg%Hin. apply H in Hg as [Hg _]%andb_true_iff. cbn [fst] in Hg. lia.
  - intros i j g h Hg Hh E. by destruct (Hpair i j g h Hg Hh) as [|[]].
  - intros i j g h Hg Hh E. by destruct (Hpair i j g h Hg Hh) as [|[]].
Qed.

Definition toy_send : payloads :=
  result_or [] (@send_group_message toy_ciphers copied_sha256 toy_get_account toy_plugin toy_name toy_admin (key "hello") [[1; 2]] toy_groups).
Lemma group_message_is_delivered_witness :
  swallowed (@mpm_apply toy_ciphers copied_ripemd toy_member_plugin
    (carrying (@group_meta_to_variant copied_ripemd (found_or no_meta (map_find (data toy_name) toy_send))) toy_admin [toy_name])) toy_groups
  = Ok (with_message 1 toy_group toy_admin false (key "hello") toy_groups).
Proof.
  apply (@group_message_is_delivered toy_ciphers toy_cipher_laws copied_ripemd copied_ripemd_laws copied_sha256 copied_sha256_laws
    toy_get_account toy_plugin toy_member_plugin toy_name toy_admin (key "hello") [[1; 2]] toy_groups toy_group toy_send toy_groups 1 toy_group).
  - vm_compute. reflexivity.
  - split; [vm_compute; reflexivity|apply bytes_check; reflexivity].
  - vm_compute. reflexivity.
  - apply groups_ok_check. vm_compute. reflexivity.
  - reflexivity.
  - reflexivity.
  - reflexivity.
  - reflexivity.
  - vm_compute. reflexivity.
Defined.

Definition toy_create : account_name_type * payloads :=
  result_or (toy_name, []) (@create_group toy_ciphers copied_ripemd copied_sha256 toy_get_account toy_plugin toy_admin (key "ours")
    [toy_member] (repeat 200 32) [[4; 5]]).
Lemma toy_accounts_sound : @accounts_sound toy_ciphers toy_get_account.
Proof.
  intros n a [= <-]. cbn [memo_key]. destruct (name_eqb n toy_admin); [exists toy_secret|exists toy_member_secret]; vm_compute; reflexivity.
Qed.
Lemma invited_members_share_the_key_witness : exists text,
  swallowed (@mpm_apply toy_ciphers copied_ripemd toy_member_plugin
    (carrying (@group_meta_to_variant copied_ripemd (found_or no_meta (map_find (data toy_member) (snd toy_create)))) toy_admin [toy_member]))
    (GroupsDb ∅ 0 ∅) =
  Ok (joined (joined_group toy_admin (fst toy_create) (key "ours") [toy_member; toy_admin] (copied 32 [4; 5])) text (GroupsDb ∅ 0 ∅)).
Proof.
  apply (@invited_members_share_the_key toy_ciphers toy_cipher_laws copied_ripemd copied_ripemd_laws copied_sha256 copied_sha256_laws
    toy_get_account toy_plugin toy_admin (key "ours") [toy_member] (repeat 200 32) [[4; 5]] (fst toy_create) (snd toy_create)
    (ApiAccount toy_admin 7) (data toy_member)).
  - vm_compute. reflexivity.
  - vm_compute. reflexivity.
  - reflexivity.
  - apply toy_accounts_sound.
  - by repeat constructor.
  - split; [vm_compute; reflexivity|apply bytes_check; reflexivity].
  - eapply readable_check; vm_compute; reflexivity.
  - vm_compute. discriminate.
  - apply Forall_singleton. eapply readable_check; vm_compute; reflexivity.
  - eapply readable_check; vm_compute; reflexivity.
  - vm_compute. reflexivity.
  - vm_compute. discriminate.
  - by repeat constructor.
  - reflexivity.
  - intros k E. left. vm_compute in E. injection E as <-. vm_compute. discriminate.
  - apply groups_ok_check. vm_compute. reflexivity.
  - reflexivity.
  - reflexivity.
  - reflexivity.
Defined.

Definition toy_foreign : custom_json_operation :=
  carrying (@group_meta_to_variant copied_ripemd (found_or no_meta (map_find (data toy_name) toy_send))) toy_member [toy_name].
Definition toy_after : groups_db := result_or toy_groups (swallowed (@mpm_apply toy_ciphers copied_ripemd toy_member_plugin toy_foreign) toy_groups).
Lemma groups_are_their_admins_witness :
  groups_ok toy_after /\ exists g', groups toy_after !! 1 = Some g' /\ same_group toy_group g'.
Proof.
  destruct (@groups_are_their_admins toy_ciphers copied_ripemd toy_member_plugin toy_foreign toy_groups toy_after 1 toy_group) as [H1 H2].
  - apply groups_ok_check. vm_compute. reflexivity.
  - vm_compute. reflexivity.
  - reflexivity.
  - split; [exact H1|]. apply H2. vm_compute. discriminate.
Defined.

Definition toy_disband : payloads :=
  result_or [] (@disband_group toy_ciphers copied_sha256 toy_get_account toy_plugin toy_name toy_admin [[1; 2]] toy_groups).
Lemma second_disbanded_group_is_lost_witness :
  swallowed (@mpm_apply toy_ciphers copied_ripemd toy_member_plugin
    (carrying (@group_meta_to_variant copied_ripemd (found_or no_meta (map_find (data toy_name) toy_disband))) toy_admin [toy_name]))
    toy_groups_with_ghost = Ok (toy_groups_with_ghost <| groups ::= delete 1 |>).
Proof.
  apply (@second_disbanded_group_is_lost toy_ciphers toy_cipher_laws copied_ripemd copied_ripemd_laws copied_sha256 copied_sha256_laws
    toy_get_account toy_plugin toy_member_plugin toy_name toy_admin [[1; 2]] toy_groups toy_group toy_disband
    (found_or no_meta (map_find (data toy_name) toy_disband)) (ApiAccount toy_admin 7) toy_groups_with_ghost 1 toy_group 0 toy_ghost).
  - vm_compute. reflexivity.
  - vm_compute. reflexivity.
  - reflexivity.
  - by repeat constructor.
  - eapply readable_check; vm_compute; reflexivity.
  - vm_compute. reflexivity.
  - apply groups_ok_check. vm_compute. reflexivity.
  - reflexivity.
  - reflexivity.
  - reflexivity.
  - reflexivity.
  - vm_compute. discriminate.
  - reflexivity.
  - reflexivity.
Defined.
