(* ===== verification/EconomicsTheorems.v ===== *)
(** * Theorems about the reward pools, the supply record, the payment of vesting
    withdrawals and the loops over the accounts. *)
From S2P Require Import Prelude Safe Names Asset Version Config Authority Operations Objects.
From S2P Require Import State Frame Economics Votes Money Balance WitnessSchedule Periodic.
From S2P Require Import Examples.
Local Open Scope Z_scope.
Local Open Scope list_scope.

(** ** Returning checked operations *)
Lemma add_Ok a b : in_i64 a -> in_i64 b -> in_i64 (a + b) -> a +! b = Ok (a + b).
Proof. intros. by apply safe_add_Ok. Qed.
Lemma sub_Ok a b : in_i64 a -> in_i64 b -> in_i64 (a - b) -> a -! b = Ok (a - b).
Proof. intros. by apply safe_sub_Ok. Qed.
Ltac i64 := unfold in_i64, INT64_MIN, INT64_MAX in *; lia.

(** ** The window of supplies *)
Section window.
  Context {cfg : sophiatx_config}.
  Implicit Types (e : economic_model_object) (l : list Z).

Definition sum (l : list Z) : Z := foldr Z.add 0 l.
Lemma sum_app l1 l2 : sum (l1 ++ l2) = sum l1 + sum l2.
Proof. unfold sum. induction l1 as [|x l1 IH]; simpl; lia. Qed.
Lemma sum_bounds M l : Forall (fun x => 0 <= x <= M) l -> 0 <= sum l <= M * Z.of_nat (length l).
Proof. unfold sum. induction 1 as [|x l Hx _ IH]; simpl foldr; cbn [length]; nia. Qed.

(** The blocks [first], [first+1], ... recorded with the supplies of a list *)
Fixpoint record_all (first : Z) l e : res economic_model_object :=
  match l with [] => Ok e | x :: l => e ← record_block first x e; record_all (first + 1) l e end.
Lemma record_all_snoc first l x e e1 : record_all first l e = Ok e1 ->
  record_all first (l ++ [x]) e = record_block (first + Z.of_nat (length l)) x e1.
Proof.
  revert first e. induction l as [|y l IH]; intros first e H; cbn [record_all app length] in *.
  - injection H as <-. rewrite Z.add_0_r. by destruct (record_block _ _ _).
  - apply rbind_Ok in H as (e2 & H1 & H2). rewrite H1. cbn [mbind res_bind]. rewrite (IH _ _ H2). f_equal. lia.
Qed.

(** The last [SOPHIATX_INTEREST_BLOCKS] supplies *)
Definition window l : list Z := drop (length l - Z.to_nat SOPHIATX_INTEREST_BLOCKS) l.
Definition in_window l e : Prop :=
  accumulated_supply e = sum (window l) /\
  (forall i x, (length l - Z.to_nat SOPHIATX_INTEREST_BLOCKS <= i)%nat -> l !! i = Some x ->
     historic_supply e !! (Z.of_nat (S i) mod SOPHIATX_INTEREST_BLOCKS) = Some x) /\
  (Z.of_nat (length l) < SOPHIATX_INTEREST_BLOCKS -> default 0 (historic_supply e !! 0) = 0).

(** What leaves the window when a block is recorded *)
Definition leaving l : Z :=
  if (length l <? Z.to_nat SOPHIATX_INTEREST_BLOCKS)%nat then 0
  else default 0 (l !! (length l - Z.to_nat SOPHIATX_INTEREST_BLOCKS)%nat).
Lemma window_snoc l x : sum (window (l ++ [x])) = sum (window l) - leaving l + x.
Proof.
  unfold window, leaving. set (k := Z.to_nat SOPHIATX_INTEREST_BLOCKS). assert (0 < k)%nat by (unfold k, SOPHIATX_INTEREST_BLOCKS; lia). clearbody k.
  rewrite length_app. cbn [length]. destruct (Nat.ltb_spec (length l) k) as [Hl|Hl].
  - replace (length l + 1 - k)%nat with O by lia. replace (length l - k)%nat with O by lia.
    rewrite !drop_0, sum_app. simpl. lia.
  - destruct (lookup_lt_is_Some_2 l (length l - k)) as [y Hy]; [lia|]. rewrite Hy.
    rewrite (drop_S _ _ _ Hy), drop_app_le by lia. replace (length l + 1 - k)%nat with (S (length l - k)) by lia.
    rewrite sum_app. simpl. lia.
Qed.
Lemma window_bounds M l : 0 <= M -> Forall (fun x => 0 <= x <= M) l -> 0 <= sum (window l) <= M * SOPHIATX_INTEREST_BLOCKS.
Proof.
  intros HM Hl. assert (Hw : Forall (fun x => 0 <= x <= M) (window l)) by (by apply Forall_drop).
  apply sum_bounds in Hw. assert (Z.of_nat (length (window l)) <= SOPHIATX_INTEREST_BLOCKS); [|nia].
  unfold window. rewrite length_drop. unfold SOPHIATX_INTEREST_BLOCKS. lia.
Qed.
Lemma leaving_found l e : in_window l e -> Z.of_nat (length l) + 1 >= SOPHIATX_INTEREST_BLOCKS ->
  default 0 (historic_supply e !! ((Z.of_nat (length l) + 1) mod SOPHIATX_INTEREST_BLOCKS)) = leaving l.
Proof.
  unfold SOPHIATX_INTEREST_BLOCKS in *. intros (_ & Hh & H0) Hn. unfold leaving, SOPHIATX_INTEREST_BLOCKS.
  destruct (Nat.ltb_spec (length l) (Z.to_nat 2400)) as [Hl|Hl].
  - replace (Z.of_nat (length l) + 1) with 2400 by lia. apply H0. unfold SOPHIATX_INTEREST_BLOCKS. lia.
  - destruct (lookup_lt_is_Some_2 l (length l - Z.to_nat 2400)) as [y Hy]; [lia|]. rewrite Hy.
    apply Hh in Hy; [|done]. unfold SOPHIATX_INTEREST_BLOCKS in Hy.
    replace (Z.of_nat (length l) + 1) with (Z.of_nat (S (length l - Z.to_nat 2400)) + 1 * 2400) by lia.
    by rewrite Z.mod_add, Hy by lia.
Qed.

Lemma record_in_window M l x e : 0 <= M -> M * SOPHIATX_INTEREST_BLOCKS <= INT64_MAX ->
  Forall (fun x => 0 <= x <= M) (l ++ [x]) -> in_window l e ->
  exists e', record_block (Z.of_nat (length l) + 1) x e = Ok e' /\ in_window (l ++ [x]) e'.
Proof.
  intros HM Hmax Hall Hw. pose proof Hw as (Ha & Hh & H0). pose proof (window_snoc l x) as Hs.
  pose proof (window_bounds M (l ++ [x]) HM Hall) as Hb. apply Forall_app in Hall as [Hl [Hx _]%Forall_cons_1].
  pose proof (window_bounds M l HM Hl) as Hb'. set (n := Z.of_nat (length l) + 1) in *.
  assert (Hacc : (if n >=? SOPHIATX_INTEREST_BLOCKS
    then accumulated_supply e -! default 0 (historic_supply e !! (n mod SOPHIATX_INTEREST_BLOCKS))
    else Ok (accumulated_supply e)) = Ok (accumulated_supply e - leaving l)).
  { assert (Hlv : 0 <= leaving l <= M).
    { unfold leaving. destruct (_ <? _)%nat; [lia|]. destruct (l !! _) as [y|] eqn:E; simpl; [|lia].
      by apply (Forall_lookup_1 _ _ _ _ Hl E). }
    destruct (n >=? _) eqn:E; bool_simpl.
    - pose proof (leaving_found l e Hw) as L. fold n in L. rewrite L by lia. apply sub_Ok; unfold SOPHIATX_INTEREST_BLOCKS in *; i64.
    - unfold leaving. rewrite (proj2 (Nat.ltb_lt _ _)) by (unfold n, SOPHIATX_INTEREST_BLOCKS in *; lia). f_equal. lia. }
  unfold record_block. cbv zeta. rewrite Hacc. cbn [mbind res_bind]. rewrite Ha.
  rewrite add_Ok by (unfold SOPHIATX_INTEREST_BLOCKS in *; i64). eexists. split; [reflexivity|]. split_and!.
  - cbn. lia.
  - intros i y Hi Hy. cbn [upd historic_supply accumulated_supply economic_model_eta]. rewrite length_app in Hi. cbn [length] in Hi.
    unfold SOPHIATX_INTEREST_BLOCKS in *. destruct (decide (i = length l)) as [->|Hne].
    + rewrite lookup_app_r, Nat.sub_diag in Hy by done. injection Hy as <-.
      replace (Z.of_nat (S (length l))) with n by lia. apply lookup_insert_eq.
    + pose proof (lookup_lt_Some _ _ _ Hy) as Hlt. rewrite length_app in Hlt. cbn [length] in Hlt.
      rewrite lookup_app_l in Hy by lia. rewrite lookup_insert_ne; [apply Hh; [lia|done]|].
      intros E. assert ((n - Z.of_nat (S i)) mod 2400 = 0) by (rewrite Zminus_mod, E, Z.sub_diag; done).
      rewrite Z.mod_small in H by lia. lia.
  - intros Hlt. cbn [upd historic_supply economic_model_eta]. rewrite length_app in Hlt. cbn [length] in Hlt.
    unfold SOPHIATX_INTEREST_BLOCKS in *. rewrite lookup_insert_ne; [apply H0; lia|]. rewrite Z.mod_small by lia. lia.
Qed.

(** The accumulated supply is the sum of the supplies of the last 2400 blocks (of all
    blocks as long as there are fewer), however many blocks have been recorded; recording
    never fails while 2400 times the supply fits in 64 bits. *)
Theorem accumulated_supply_window M l e : 0 <= M -> M * SOPHIATX_INTEREST_BLOCKS <= INT64_MAX ->
  Forall (fun x => 0 <= x <= M) l -> accumulated_supply e = 0 -> historic_supply e = ∅ ->
  exists e', record_all 1 l e = Ok e' /\ accumulated_supply e' = sum (window l).
Proof.
  intros HM Hmax Hl Ha Hh. assert (H : exists e', record_all 1 l e = Ok e' /\ in_window l e').
  { induction l as [|x l IH] using rev_ind.
    - exists e. split; [done|]. split; [done|]. split; [done|]. intros _. by rewrite Hh.
    - destruct IH as (e1 & H1 & H2); [by apply Forall_app in Hl as [? _]|].
      rewrite (record_all_snoc _ _ _ _ _ H1), Z.add_comm. by apply (record_in_window M). }
  destruct H as (e' & H1 & H2 & _). by exists e'.
Qed.
End window.

(** ** Fees *)
Section fees.
  Context {cfg : sophiatx_config}.
  Implicit Types e : economic_model_object.

Lemma percent_of_Ok x pct : 0 <= x -> 0 <= pct <= SOPHIATX_100_PERCENT -> x * SOPHIATX_100_PERCENT <= INT64_MAX ->
  percent_of x pct = Ok (x * pct / SOPHIATX_100_PERCENT) /\ 0 <= x * pct / SOPHIATX_100_PERCENT <= x.
Proof.
  intros Hx Hp Hm. unfold SOPHIATX_100_PERCENT in *. assert (0 <= x * pct <= x * 10000) by nia.
  assert (0 <= x * pct / 10000 <= x) by (split; [apply Z.div_pos; lia|apply Z.div_le_upper_bound; lia]).
  split; [|done]. unfold percent_of, SOPHIATX_100_PERCENT.
  rewrite (proj2 (safe_mul_Ok x pct (x * pct) ltac:(i64) ltac:(i64))) by (split; [done|i64]). cbn [mbind res_bind].
  apply safe_div_Ok; [i64|i64|lia|]. rewrite Z.quot_div_nonneg by lia. split; [done|i64].
Qed.

(** A fee is split without loss: the burnt part and the mining and promotion parts of
    the rest are rounded down and the interest pool gets what is left, never less
    than nothing; adding a fee succeeds while the pools fit in 64 bits. *)
Theorem fee_split fee e : config_ok -> pools_nonneg e -> 0 <= fee -> fee * SOPHIATX_100_PERCENT <= INT64_MAX ->
  pools_total e + fee <= INT64_MAX ->
  let burn := fee * SOPHIATX_BURN_FEE_PERCENTAGE / SOPHIATX_100_PERCENT in
  let mining := (fee - burn) * SOPHIATX_MINING_POOL_PERCENTAGE / SOPHIATX_100_PERCENT in
  let promotion := (fee - burn) * SOPHIATX_PROMOTION_POOL_PERCENTAGE / SOPHIATX_100_PERCENT in
  0 <= fee - burn - mining - promotion /\
  add_fee fee e = Ok (e <| mining_pool_from_fees ::= Z.add mining |> <| promotion_pool ::= Z.add promotion |>
    <| burn_pool ::= Z.add burn |> <| interest_pool_from_fees ::= Z.add (fee - burn - mining - promotion) |>).
Proof.
  intros (_ & _ & _ & _ & _ & Hb & Hm & Hp & Hmp) (N1 & N2 & N3 & N4 & N5 & N6) Hf Hmax Ht burn mining promotion.
  unfold pools_total in Ht.
  destruct (percent_of_Ok fee SOPHIATX_BURN_FEE_PERCENTAGE) as [E1 B1]; [done..|]. fold burn in E1, B1.
  destruct (percent_of_Ok (fee - burn) SOPHIATX_MINING_POOL_PERCENTAGE) as [E2 B2];
    [lia|lia|unfold SOPHIATX_100_PERCENT in *; lia|]. fold mining in E2, B2.
  destruct (percent_of_Ok (fee - burn) SOPHIATX_PROMOTION_POOL_PERCENTAGE) as [E3 B3];
    [lia|lia|unfold SOPHIATX_100_PERCENT in *; lia|]. fold promotion in E3, B3.
  assert (Hrest : mining + promotion <= fee - burn).
  { unfold mining, promotion. unfold SOPHIATX_100_PERCENT in *. set (r := fee - burn) in *.
    pose proof (Z.mul_div_le (r * SOPHIATX_MINING_POOL_PERCENTAGE) 10000 ltac:(lia)).
    pose proof (Z.mul_div_le (r * SOPHIATX_PROMOTION_POOL_PERCENTAGE) 10000 ltac:(lia)).
    assert (r * SOPHIATX_MINING_POOL_PERCENTAGE + r * SOPHIATX_PROMOTION_POOL_PERCENTAGE <= r * 10000) by nia. lia. }
  split; [lia|]. clearbody burn mining promotion. clear Hmax. unfold add_fee. rewrite E1. cbn [mbind res_bind].
  rewrite sub_Ok by i64. cbn [mbind res_bind]. rewrite E2. cbn [mbind res_bind]. rewrite E3. cbn [mbind res_bind].
  repeat (rewrite ?add_Ok, ?sub_Ok by i64; cbn [mbind res_bind]).
  f_equal. destruct e; cbn. f_equal; lia.
Qed.
End fees.

(** ** Vesting withdrawals *)
Section withdrawals.
  Context {cfg : sophiatx_config}.
  Implicit Types a : account_object.

(** What a withdrawal does to the account it comes from, once and several times *)
Definition withdraw_once a : res account_object := n ← withdrawal_amount a; withdraw_from_vesting n a.
Fixpoint withdraw_times (n : nat) a : res account_object :=
  match n with O => Ok a | S n => a ← withdraw_times n a; withdraw_once a end.
Definition paid (n : Z) a : account_object :=
  a <| vesting_shares ::= fun x => x <| amount ::= fun v => v - n |> |>
    <| balance ::= fun x => x <| amount ::= fun b => b + n |> |> <| withdrawn ::= fun w => w + n |>.
Definition postponed (n : Z) a : account_object :=
  a <| next_vesting_withdrawal ::= fun t => t + n * SOPHIATX_VESTING_WITHDRAW_INTERVAL_SECONDS |>.
Definition finished a : account_object :=
  a <| vesting_withdraw_rate ::= fun x => x <| amount := 0 |> |> <| next_vesting_withdrawal := time_point_sec_maximum |>.

(** An account whose withdrawal is under way *)
Record withdrawing a : Prop := {
  wd_rate : 0 < amount (vesting_withdraw_rate a) <= INT64_MAX;
  wd_multiple : withdrawn a mod amount (vesting_withdraw_rate a) = 0;
  wd_left : 0 <= withdrawn a < to_withdraw a;
  wd_covered : to_withdraw a - withdrawn a <= amount (vesting_shares a) <= INT64_MAX;
  wd_balance : 0 <= amount (balance a) /\ amount (balance a) + (to_withdraw a - withdrawn a) <= INT64_MAX;
  wd_total : to_withdraw a <= INT64_MAX;
  wd_time : 0 <= next_vesting_withdrawal a /\ next_vesting_withdrawal a + SOPHIATX_VESTING_WITHDRAW_INTERVAL_SECONDS < 2^32 }.

Lemma withdrawal_amount_Ok a : withdrawing a ->
  withdrawal_amount a = Ok (Z.min (to_withdraw a - withdrawn a) (amount (vesting_withdraw_rate a))).
Proof.
  intros [H1 H2 H3 H4 H5 H6 H7]. unfold withdrawal_amount. rewrite sub_Ok by i64. cbn [mbind res_bind].
  set (R := amount (vesting_withdraw_rate a)) in *. set (W := to_withdraw a) in *. set (w := withdrawn a) in *.
  destruct (_ <? _) eqn:E; bool_simpl; [|f_equal; lia].
  assert (Em : safe_mod W R = Ok (W - w)); [|rewrite Em; cbn [mbind res_bind]; f_equal; lia].
  unfold safe_mod. rewrite (proj2 (Z.eqb_neq R 0)) by lia.
  replace (W =? INT64_MIN) with false by (symmetry; apply Z.eqb_neq; i64). cbn [andb].
  rewrite Z.rem_mod_nonneg by lia. f_equal. symmetry. apply (Z.mod_unique_pos W R (w / R)); [lia|].
  pose proof (Z.div_mod w R ltac:(lia)). lia.
Qed.
Lemma withdraw_once_Ok a : withdrawing a ->
  let n := Z.min (to_withdraw a - withdrawn a) (amount (vesting_withdraw_rate a)) in
  withdraw_once a = Ok (if withdrawn a + n =? to_withdraw a then finished (paid n a) else postponed 1 (paid n a)).
Proof.
  intros Hw n. unfold withdraw_once. rewrite (withdrawal_amount_Ok a Hw). cbn [mbind res_bind]. fold n.
  assert (Hn : n = Z.min (to_withdraw a - withdrawn a) (amount (vesting_withdraw_rate a))) by done. clearbody n.
  destruct Hw as [H1 H2 H3 H4 H5 H6 H7]. unfold withdraw_from_vesting, paid, postponed, finished. destruct a. cbn in *.
  rewrite sub_Ok by i64. cbn [mbind res_bind]. rewrite add_Ok by i64. cbn [mbind res_bind].
  rewrite add_Ok by i64. cbn [mbind res_bind]. f_equal.
  destruct (_ =? to_withdraw) eqn:E; bool_simpl.
  - rewrite (proj2 (Z.geb_le _ _)) by lia. reflexivity.
  - rewrite (proj2 (Z.eqb_neq _ 0)) by lia. rewrite Z.geb_leb, (proj2 (Z.leb_gt _ _)) by lia. cbn [orb].
    f_equal. unfold u32, SOPHIATX_VESTING_WITHDRAW_INTERVAL_SECONDS in *. apply Z.mod_small. lia.
Qed.

Lemma paid_0 a : postponed 0 (paid (0 * amount (vesting_withdraw_rate a)) a) = a.
Proof. destruct a as [???????????? [] [] []]. unfold postponed, paid. cbn. f_equal; first [lia | f_equal; lia]. Qed.
Lemma paid_withdrawing a i : withdrawing a -> 0 <= i ->
  i * amount (vesting_withdraw_rate a) < to_withdraw a - withdrawn a ->
  next_vesting_withdrawal a + (i + 1) * SOPHIATX_VESTING_WITHDRAW_INTERVAL_SECONDS < 2^32 ->
  withdrawing (postponed i (paid (i * amount (vesting_withdraw_rate a)) a)).
Proof.
  intros [H1 H2 H3 H4 H5 H6 H7] Hi Hl Ht. unfold postponed, paid.
  assert (0 <= i * amount (vesting_withdraw_rate a)) by nia.
  destruct a. cbn in *. set (R := amount vesting_withdraw_rate) in *. unfold SOPHIATX_VESTING_WITHDRAW_INTERVAL_SECONDS in *.
  split; cbn; fold R; unfold SOPHIATX_VESTING_WITHDRAW_INTERVAL_SECONDS; try lia. by rewrite Z.mod_add by lia.
Qed.
Lemma paid_next a i (n := amount (vesting_withdraw_rate a)) :
  postponed 1 (paid n (postponed i (paid (i * n) a))) = postponed (i + 1) (paid ((i + 1) * n) a).
Proof.
  subst n. unfold postponed, paid. destruct a as [???????????? [] [] []]. cbn. unfold SOPHIATX_VESTING_WITHDRAW_INTERVAL_SECONDS.
  f_equal; first [lia | f_equal; lia].
Qed.

Lemma withdraw_once_paid a i (r := amount (vesting_withdraw_rate a)) :
  withdrawing (postponed i (paid (i * r) a)) ->
  withdraw_once (postponed i (paid (i * r) a)) =
  Ok (if (i + 1) * r <? to_withdraw a - withdrawn a then postponed (i + 1) (paid ((i + 1) * r) a)
      else finished (paid (to_withdraw a - withdrawn a) a)).
Proof.
  intros Hw. rewrite (withdraw_once_Ok _ Hw).
  change (vesting_withdraw_rate (postponed i (paid (i * r) a))) with (vesting_withdraw_rate a).
  change (withdrawn (postponed i (paid (i * r) a))) with (withdrawn a + i * r).
  change (to_withdraw (postponed i (paid (i * r) a))) with (to_withdraw a). fold r.
  destruct (_ <? _) eqn:E; bool_simpl.
  - rewrite Z.min_r by lia. rewrite (proj2 (Z.eqb_neq _ _)) by lia. f_equal. apply paid_next.
  - rewrite Z.min_l by lia. rewrite (proj2 (Z.eqb_eq _ _)) by lia. f_equal. clearbody r.
    unfold finished, postponed, paid. destruct a as [???????????? [] [] []]. cbn in *. f_equal; first [lia | f_equal; lia].
Qed.

(** C37: a vesting withdrawal pays its rate once per interval and the rest at last: after
    [i] payments [i] times the rate has moved from the vesting shares to the balance,
    and after the last one exactly what was asked for, when the withdrawal is over. *)
Theorem withdrawal_pays_out a : withdrawing a ->
  let rate := amount (vesting_withdraw_rate a) in
  let left := to_withdraw a - withdrawn a in
  let rounds := (left + rate - 1) / rate in
  next_vesting_withdrawal a + rounds * SOPHIATX_VESTING_WITHDRAW_INTERVAL_SECONDS < 2^32 ->
  (forall i : nat, Z.of_nat i < rounds ->
     withdraw_times i a = Ok (postponed (Z.of_nat i) (paid (Z.of_nat i * rate) a))) /\
  withdraw_times (Z.to_nat rounds) a = Ok (finished (paid left a)).
Proof.
  intros Hw rate left rounds Ht. pose proof Hw as [[Hr _] _ Hl _ _ _ _]. fold rate in Hr.
  assert (Hk : rate * (rounds - 1) < left <= rate * rounds).
  { pose proof (Z.div_mod (left + rate - 1) rate ltac:(lia)). pose proof (Z.mod_pos_bound (left + rate - 1) rate Hr).
    fold rounds in H. lia. }
  assert (Step : forall i : nat, Z.of_nat i < rounds ->
    withdraw_times i a = Ok (postponed (Z.of_nat i) (paid (Z.of_nat i * rate) a)) /\
    withdrawing (postponed (Z.of_nat i) (paid (Z.of_nat i * rate) a))).
  { induction i as [|i IH]; intros Hi.
    - pose proof (paid_0 a) as E. fold rate in E. change (Z.of_nat 0) with 0. rewrite E. by split.
    - destruct IH as [H1 H2]; [lia|]. split; [|apply paid_withdrawing; [done|lia|fold rate left; nia|];
        unfold SOPHIATX_VESTING_WITHDRAW_INTERVAL_SECONDS in *; lia].
      cbn [withdraw_times]. rewrite H1. cbn [mbind res_bind].
      pose proof (withdraw_once_paid a (Z.of_nat i) H2) as E. cbv zeta in E. fold rate left in E. rewrite E,  (proj2 (Z.ltb_lt _ _)) by nia. by replace (Z.of_nat (S i)) with (Z.of_nat i + 1) by lia. }
  split; [intros i Hi; by apply Step|]. assert (1 <= rounds) by nia.
  destruct (Step (Z.to_nat (rounds - 1))) as [H1 H2]; [lia|].
  replace (Z.to_nat rounds) with (S (Z.to_nat (rounds - 1))) by lia. cbn [withdraw_times]. rewrite H1. cbn [mbind res_bind].
  pose proof (withdraw_once_paid a _ H2) as E. cbv zeta in E. fold rate left in E. rewrite E, (proj2 (Z.ltb_ge _ _)) by nia. done.
Qed.
End withdrawals.

(** ** The loops over the accounts end *)
Section loops.
  Context {cfg : sophiatx_config}.
  Implicit Types (s : db) (a : account_object).

(** *** Withdrawals: every step uses up one that is due. *)
Lemma withdrawals_due_nonneg now a : 0 <= withdrawals_due now a.
Proof.
  unfold withdrawals_due, SOPHIATX_VESTING_WITHDRAW_INTERVAL_SECONDS. destruct (_ <=? _) eqn:E; bool_simpl; [|lia].
  pose proof (Z.div_pos (now - next_vesting_withdrawal a) (60 * 60 * 24)). lia.
Qed.
Lemma withdrawals_due_step now n a a' : 0 <= next_vesting_withdrawal a <= now ->
  now + SOPHIATX_VESTING_WITHDRAW_INTERVAL_SECONDS < 2^32 - 1 -> withdraw_from_vesting n a = Ok a' ->
  withdrawals_due now a' <= withdrawals_due now a - 1 /\ 0 <= next_vesting_withdrawal a'.
Proof.
  intros Hn Hnow H. pose proof (withdrawals_due_nonneg now a) as H0. unfold withdrawals_due in *.
  rewrite (proj2 (Z.leb_le (next_vesting_withdrawal a) now)) in * by lia.
  unfold withdraw_from_vesting, SOPHIATX_VESTING_WITHDRAW_INTERVAL_SECONDS in *. minv.
  pose proof (Z.div_pos (now - next_vesting_withdrawal a) (60 * 60 * 24) ltac:(lia) ltac:(lia)).
  destruct (_ || _); cbn.
  - rewrite (proj2 (Z.leb_gt time_point_sec_maximum now)) by (unfold time_point_sec_maximum; lia).
    unfold time_point_sec_maximum. lia.
  - replace (u32 (next_vesting_withdrawal a + 60 * 60 * 24)) with (next_vesting_withdrawal a + 60 * 60 * 24)
      by (unfold u32; rewrite Z.mod_small; lia).
    split; [|lia]. destruct (_ <=? _) eqn:E; bool_simpl; [|lia].
    replace (now - (next_vesting_withdrawal a + 60 * 60 * 24)) with (now - next_vesting_withdrawal a + -1 * (60 * 60 * 24)) by lia.
    rewrite Z.div_add by lia. lia.
Qed.
Lemma withdraw_step_Ok k s u s' : withdraw_step k s = Ok (u, s') -> exists a n a',
  accounts s !! k = Some a /\ withdraw_from_vesting n a = Ok a' /\ accounts s' = <[k:=a']> (accounts s) /\
  time (dgpo s') = time (dgpo s).
Proof.
  intros H. unfold withdraw_step in H. apply bind_Ok in H as (a & s1 & H1 & H). apply get_Ok in H1 as [Ha ->].
  apply bind_Ok in H as (n & s1 & H1 & H). apply lift_Ok in H1 as [Hn ->].
  apply bind_Ok in H as (u1 & s1 & H1 & H). apply modify_Ok in H1 as (v & v' & Hv & Hf & ->).
  rewrite Ha in Hv. injection Hv as <-. exists a, n, v'. split; [done|]. split; [done|].
  apply bind_Ok in H as (u2 & s2 & H1 & H). apply modify_gpo_Ok in H1 as (g & Hg & ->).
  apply rbind_Ok in Hg as (t & _ & Hg). injection Hg as <-.
  apply bind_Ok in H as (name & s3 & H1 & H). apply lift_Ok in H1 as [_ ->].
  pose proof (frames_run accounts _ _ _ _ H ltac:(frame)) as Fa. pose proof (frames_run dgpo _ _ _ _ H ltac:(frame)) as Ft.
  by rewrite Fa, Ft.
Qed.

Definition due s : Z := map_sum (withdrawals_due (time (dgpo s))) (accounts s).
Definition times_fit s : Prop := time (dgpo s) + SOPHIATX_VESTING_WITHDRAW_INTERVAL_SECONDS < 2^32 - 1 /\
  map_Forall (fun _ a => 0 <= next_vesting_withdrawal a) (accounts s).
Lemma withdraw_step_due k s u s' a : times_fit s -> accounts s !! k = Some a ->
  next_vesting_withdrawal a <= time (dgpo s) -> withdraw_step k s = Ok (u, s') -> due s' < due s /\ times_fit s'.
Proof.
  intros [Ht Hall] Ha Hn H. destruct (withdraw_step_Ok _ _ _ _ H) as (a2 & n & a' & Ha2 & Hw & Hacc & Htime).
  rewrite Ha in Ha2. injection Ha2 as <-. pose proof (Hall k a Ha) as H0. cbn in H0.
  destruct (withdrawals_due_step (time (dgpo s)) n a a') as [Hd Hp]; [lia|done|done|].
  unfold due, times_fit. rewrite Hacc, Htime, (map_sum_insert _ _ _ _ _ Ha). split; [lia|]. split; [done|].
  apply map_Forall_insert_2; [done|done].
Qed.
Lemma withdrawals_loop_unfold f k s : withdrawals_loop f (Some k) s =
  match accounts s !! k with
  | None => Throw out_of_range
  | Some a => if next_vesting_withdrawal a <=? time (dgpo s)
      then match f with
           | O => Throw crash
           | S f => match withdraw_step k s with
                    | Ok (_, s') => withdrawals_loop f (next_withdrawal a s) s' | Throw e => Throw e end
           end
      else Ok (tt, s)
  end.
Proof.
  destruct f as [|f]; cbn [withdrawals_loop]; unfold mbind, ST_bind, get, head_block_time, gets;
    (destruct (accounts s !! k) as [a|]; [|done]); (destruct (_ <=? _); [|done]); [done|].
  by destruct (withdraw_step k s) as [[[] s']|e].
Qed.
Lemma withdrawals_loop_enough fuel extra current s : times_fit s -> due s <= Z.of_nat fuel ->
  withdrawals_loop (fuel + extra) current s = withdrawals_loop fuel current s.
Proof.
  revert current s. induction fuel as [|fuel IH]; intros [k|] s Hs Hd; [| |..|done]; [|by destruct extra|].
  all: rewrite !withdrawals_loop_unfold; (destruct (accounts s !! k) as [a|] eqn:Ha; [|done]);
    (destruct (_ <=? _) eqn:E; bool_simpl; [|done]).
  - assert (1 <= withdrawals_due (time (dgpo s)) a).
    { unfold withdrawals_due. rewrite (proj2 (Z.leb_le _ _)) by done. unfold SOPHIATX_VESTING_WITHDRAW_INTERVAL_SECONDS.
      pose proof (Z.div_pos (time (dgpo s) - next_vesting_withdrawal a) (60 * 60 * 24)). lia. }
    pose proof (map_sum_lookup_le (withdrawals_due (time (dgpo s))) (accounts s) k a
      (fun _ _ _ => withdrawals_due_nonneg _ _) Ha). unfold due in Hd. lia.
  - cbn [Nat.add]. destruct (withdraw_step k s) as [[u s']|e] eqn:Es; [|done].
    destruct (withdraw_step_due _ _ _ _ _ Hs Ha E Es). apply IH; [done|lia].
Qed.
Lemma process_withdrawals_enough s extra : times_fit s ->
  process_vesting_withdrawals s = withdrawals_loop (withdrawals_fuel s + extra) (first_withdrawal s) s.
Proof.
  intros Hs. unfold process_vesting_withdrawals, mbind, ST_bind, gets. symmetry.
  apply withdrawals_loop_enough; [done|]. unfold withdrawals_fuel. fold (due s). lia.
Qed.

(** *** Interests: every round goes on to an account with a greater id. *)
Abbreviation acc_ids := (viewed acc_id).
Lemma ids_pay_interest k i : frames acc_ids (pay_interest k i).
Proof.
  unfold pay_interest. repeat (first [apply viewed_adjust_proxied; done | frame_step]).
  apply viewed_modify. intros x x' Hx. unfold credit_interest in Hx. minv. done.
Qed.

Definition remaining (id : Z) s : Z := map_sum (fun i => if id <=? i then 1 else 0) (acc_ids s).
Lemma remaining_size id s : remaining id s <= Z.of_nat (base.size (accounts s)).
Proof.
  unfold remaining. rewrite <- (map_size_fmap acc_id). fold (viewed acc_id s). generalize (viewed acc_id s). intros m.
  induction m as [|k i m Hk IH] using map_ind; [done|]. rewrite map_sum_insert_new, map_size_insert_None by done.
  destruct (_ <=? _); lia.
Qed.
Lemma account_ref_found id s k a : account_ref_with_id id s = Some (k, a) -> accounts s !! k = Some a /\ acc_id a = id.
Proof.
  intros H. apply find_some in H as [Hin H]. apply list_elem_of_In, elem_of_map_to_list in Hin. cbn in H. by bool_simpl.
Qed.
Lemma remaining_step id id' s k a : id < id' -> account_ref_with_id id s = Some (k, a) -> remaining id' s < remaining id s.
Proof.
  intros Hlt [Ha Hid]%account_ref_found. assert (Hi : acc_ids s !! k = Some id) by (unfold viewed; by rewrite lookup_fmap, Ha, <- Hid).
  unfold remaining. rewrite <- (insert_delete_id _ _ _ Hi). rewrite !map_sum_insert_new by apply lookup_delete_eq.
  rewrite (proj2 (Z.leb_le id id)), (proj2 (Z.leb_gt id' id)) by lia.
  pose proof (map_sum_le (fun i => if id' <=? i then 1 else 0) (fun i => if id <=? i then 1 else 0) (delete k (acc_ids s))) as Hle.
  enough (map_sum (fun i => if id' <=? i then 1 else 0) (delete k (acc_ids s)) <=
    map_sum (fun i => if id <=? i then 1 else 0) (delete k (acc_ids s))) by lia. apply Hle.
  intros k' i _. destruct (id' <=? i) eqn:E1, (id <=? i) eqn:E2; bool_simpl; lia.
Qed.
Lemma interests_loop_enough fuel extra id inc s :
  map_Forall (fun _ i => 0 <= i < 2^64 - SOPHIATX_INTEREST_BLOCKS) (acc_ids s) -> remaining id s <= Z.of_nat fuel ->
  interests_loop (fuel + extra) id inc s = interests_loop fuel id inc s.
Proof.
  revert id inc s. induction fuel as [|fuel IH]; intros id inc s Hall Hr.
  all: pose proof (remaining_step id (u64 (id + SOPHIATX_INTEREST_BLOCKS)) s) as Hstep.
  all: assert (Hsmall : forall k a, account_ref_with_id id s = Some (k, a) -> u64 (id + SOPHIATX_INTEREST_BLOCKS) = id + SOPHIATX_INTEREST_BLOCKS).
  1, 3: intros k a [Ha Hid]%account_ref_found; assert (Hi : acc_ids s !! k = Some id) by (unfold viewed; by rewrite lookup_fmap, Ha, <- Hid);
    apply Hall in Hi; apply (u_small 64); unfold SOPHIATX_INTEREST_BLOCKS in *; cbn in Hi; lia.
  - assert (Hno : account_ref_with_id id s = None).
    { destruct (account_ref_with_id id s) as [[k a]|] eqn:E; [|done]. rewrite (Hsmall _ _ eq_refl) in Hstep.
      specialize (Hstep k a ltac:(unfold SOPHIATX_INTEREST_BLOCKS; lia) eq_refl).
      assert (0 <= remaining (id + SOPHIATX_INTEREST_BLOCKS) s); [|lia].
      apply map_sum_nonneg. intros k' i _. destruct (_ <=? _); lia. }
    destruct extra; [done|]. cbn [interests_loop Nat.add]. unfold mbind, ST_bind, gets. by rewrite Hno.
  - cbn [interests_loop Nat.add]. unfold mbind at 1 3, ST_bind at 1 3, gets.
    destruct (account_ref_with_id id s) as [[k a]|] eqn:E; [|done]. unfold mbind, ST_bind.
    destruct (pay_interest k inc s) as [[inc' s']|e] eqn:Ep; [|done].
    pose proof (ids_pay_interest k inc _ _ _ Ep) as Hids. apply IH; [by rewrite Hids|].
    rewrite (Hsmall _ _ eq_refl) in *. unfold remaining. rewrite Hids. fold (remaining (id + SOPHIATX_INTEREST_BLOCKS) s).
    specialize (Hstep k a ltac:(unfold SOPHIATX_INTEREST_BLOCKS; lia) eq_refl). lia.
Qed.

(** The two loops over the accounts end: interests visit every account at most once,
    withdrawals use up one due payment per round, so that the rounds the definitions
    allow are enough and more change nothing. *)
Theorem account_loops_end s extra : times_fit s ->
  map_Forall (fun _ a => 0 <= acc_id a < 2^64 - SOPHIATX_INTEREST_BLOCKS) (accounts s) ->
  process_vesting_withdrawals s = withdrawals_loop (withdrawals_fuel s + extra) (first_withdrawal s) s /\
  process_interests s = (block_no ← head_block_num;
    supply_increase ← interests_loop (base.size (accounts s) + extra) (block_no mod SOPHIATX_INTEREST_BLOCKS) 0;
    adjust_supply (Asset supply_increase SOPHIATX_SYMBOL)) s.
Proof.
  intros Hs Hids. split; [by apply process_withdrawals_enough|].
  unfold process_interests, mbind, ST_bind, head_block_num, gets. rewrite interests_loop_enough; [done|..].
  - intros k i Hi. unfold viewed in Hi. rewrite lookup_fmap in Hi. destruct (accounts s !! k) as [a|] eqn:Ha; [|done].
    injection Hi as <-. by apply (Hids k).
  - apply remaining_size.
Qed.
End loops.

(** ** Concrete instances *)
Definition no_record : economic_model_object := (econ example_state) <| historic_supply := ∅ |> <| accumulated_supply := 0 |>.
Lemma accumulated_supply_window_witness : exists e', record_all 1 [5; 6; 7] no_record = Ok e' /\ accumulated_supply e' = 18.
Proof.
  destruct (accumulated_supply_window 7 [5; 6; 7] no_record) as (e' & H1 & H2);
    [lia|vm_compute; discriminate|repeat constructor; lia|reflexivity|reflexivity|]. exists e'. split; [exact H1|exact H2].
Defined.
Lemma fee_split_witness : exists e', add_fee 10000 (econ example_state) = Ok e'.
Proof.
  eexists. apply (fee_split 10000 (econ example_state)); [exact mainnet_ok|vm_compute; intuition discriminate|lia|
    vm_compute; discriminate|vm_compute; discriminate].
Defined.
Definition withdrawing_account : account_object :=
  (default_account 7) <| vesting_shares := Asset 1000 VESTS_SYMBOL |> <| vesting_withdraw_rate := Asset 300 VESTS_SYMBOL |>
    <| to_withdraw := 1000 |> <| next_vesting_withdrawal := 1531512900 |>.
Lemma withdrawal_pays_out_witness : exists a, withdraw_times 4 withdrawing_account = Ok a /\ amount (balance a) = 1000.
Proof.
  assert (Hw : withdrawing withdrawing_account) by (split; vm_compute; intuition congruence).
  destruct (withdrawal_pays_out withdrawing_account Hw) as [_ H]; [vm_compute; reflexivity|].
  eexists. split; [exact H|]. vm_compute. reflexivity.
Defined.
Lemma account_loops_end_witness : process_vesting_withdrawals example_state1 =
  withdrawals_loop (withdrawals_fuel example_state1 + 10) (first_withdrawal example_state1) example_state1.
Proof.
  refine (proj1 (account_loops_end example_state1 10 _ _)).
  - split; [vm_compute; reflexivity|]. refine (bool_decide_eq_true_1 _ _). vm_compute. reflexivity.
  - refine (bool_decide_eq_true_1 _ _). vm_compute. reflexivity.
Defined.
