(* ===== verification/EscrowTheorems.v ===== *)
(** * Theorems about escrows: the handlers implement a state machine, and what the
    state machine pays out. *)
From S2P Require Import Prelude Safe Names Asset Version Config Authority Raw Operations Validate.
From S2P Require Import Objects State Frame Economics Votes Money Balance EvalTransfer EvalEscrow.
From S2P Require Import Examples.
Local Open Scope Z_scope.
Local Open Scope list_scope.

(** ** The state machine *)
(** Payments to accounts, in their order *)
Abbreviation payments := (list (Z * Z)).

(** All of an escrow goes back to the payer. *)
Definition refund (e : escrow_object) : payments :=
  [(data (esc_from e), amount (sophiatx_balance e)); (data (esc_from e), amount (pending_fee e))].

(** The steps of an escrow at a time: who makes them ([None] for the chain itself),
    what is paid out and what becomes of the escrow *)
Inductive escrow_step (now : Z) (e : escrow_object) : option Z -> payments -> option escrow_object -> Prop :=
  | step_to_approves : now <= ratification_deadline e -> to_approved e = false -> agent_approved e = false ->
      escrow_step now e (Some (data (esc_to e))) [] (Some (e <| to_approved := true |>))
  | step_agent_approves : now <= ratification_deadline e -> to_approved e = false -> agent_approved e = false ->
      escrow_step now e (Some (data (esc_agent e))) [] (Some (e <| agent_approved := true |>))
  | step_ratified (last_one : account_name_type) : now <= ratification_deadline e ->
      to_approved e = false /\ agent_approved e = true /\ last_one = esc_to e \/
      to_approved e = true /\ agent_approved e = false /\ last_one = esc_agent e ->
      escrow_step now e (Some (data last_one)) [(data (esc_agent e), amount (pending_fee e))]
        (Some (e <| to_approved := true |> <| agent_approved := true |>
                 <| pending_fee ::= fun f => f <| amount := 0 |> |>))
  | step_rejected (by_whom : account_name_type) : now <= ratification_deadline e ->
      to_approved e = false /\ by_whom = esc_to e \/ agent_approved e = false /\ by_whom = esc_agent e ->
      escrow_step now e (Some (data by_whom)) (refund e) None
  | step_expired : ratification_deadline e <= now -> is_approved e = false ->
      escrow_step now e None (refund e) None
  | step_disputed (party : account_name_type) : now < escrow_expiration e -> is_approved e = true -> disputed e = false ->
      party = esc_from e \/ party = esc_to e ->
      escrow_step now e (Some (data party)) [] (Some (e <| disputed := true |>))
  | step_released who receiver n : is_approved e = true -> 0 < n <= amount (sophiatx_balance e) ->
      (receiver = data (esc_from e) \/ receiver = data (esc_to e)) ->
      (if disputed e then who = data (esc_agent e)
       else (who = data (esc_from e) \/ who = data (esc_to e)) /\
         (now < escrow_expiration e ->
          receiver = (if who =? data (esc_from e) then data (esc_to e) else data (esc_from e)))) ->
      escrow_step now e (Some who) [(receiver, n)]
        (if amount (sophiatx_balance e) =? n then None
         else Some (e <| sophiatx_balance ::= fun b => b <| amount ::= fun x => x - n |> |>)).

(** ** What a run of the state machine pays out *)
Inductive escrow_run (e : escrow_object) : payments -> option escrow_object -> Prop :=
  | run_start : escrow_run e [] (Some e)
  | run_step p e1 now who q after : escrow_run e p (Some e1) -> escrow_step now e1 who q after -> escrow_run e (p ++ q) after.

Definition total (p : payments) : Z := foldr (fun x t => snd x + t) 0 p.
Lemma total_app p q : total (p ++ q) = total p + total q.
Proof. unfold total. induction p as [|x p IH]; simpl; lia. Qed.

(** What does not change in the life of an escrow *)
Definition parties (e : escrow_object) := (esc_from e, esc_to e, esc_agent e, escrow_expiration e, ratification_deadline e).
Definition to_parties (e : escrow_object) (p : payments) : Prop :=
  Forall (fun x => 0 < snd x /\ (fst x = data (esc_from e) \/ fst x = data (esc_to e))) p.
(** A living escrow [e1] that began as [e] and has paid out [p] *)
Definition living e p e1 : Prop := parties e1 = parties e /\ (disputed e1 = true -> is_approved e1 = true) /\
  if is_approved e1
  then exists q, p = (data (esc_agent e), amount (pending_fee e)) :: q /\ to_parties e q /\ amount (pending_fee e1) = 0 /\
    total q + amount (sophiatx_balance e1) = amount (sophiatx_balance e) /\ 0 < amount (sophiatx_balance e1)
  else p = [] /\ amount (sophiatx_balance e1) = amount (sophiatx_balance e) /\ amount (pending_fee e1) = amount (pending_fee e).
Definition closed e p : Prop :=
  p = refund e \/
  exists q, p = (data (esc_agent e), amount (pending_fee e)) :: q /\ to_parties e q /\ total q = amount (sophiatx_balance e).


Lemma living_step e p e1 now who q after : 0 < amount (sophiatx_balance e) -> living e p e1 -> escrow_step now e1 who q after ->
  match after with Some e2 => living e (p ++ q) e2 | None => closed e (p ++ q) end.
Proof.
  intros Hpos (Hp & Hd & Hl) Hs. unfold parties in Hp. injection Hp as P1 P2 P3 P4 P5. unfold living, closed, refund, is_approved in *.
  destruct Hs as [? E1 E2|? E1 E2|? ? H|? ? H|? E1|? ? E1 E2 ?|who rec n E1 Hn Hrec Hwho];
    unfold parties, is_approved in *; cbn -[refund]; rewrite ?P1, ?P2, ?P3, ?P4, ?P5.
  - rewrite E1, E2 in *. cbn in *. destruct Hl as (-> & ? & ?). split_and!; try done.
  - rewrite E1, E2 in *. cbn in *. destruct Hl as (-> & ? & ?). split_and!; try done.
  - assert (Ha : to_approved e1 && agent_approved e1 = false) by (destruct H as [(-> & -> & _)|(-> & -> & _)]; done).
    rewrite Ha in *. destruct Hl as (-> & H1 & H2). split_and!; [done|done|].
    exists []. rewrite H2. split_and!; [done|by apply Forall_nil|done|cbn; lia|lia].
  - assert (Ha : to_approved e1 && agent_approved e1 = false) by (destruct H as [[-> _]|[-> _]]; [done|apply andb_false_r]).
    rewrite Ha in Hl. destruct Hl as (-> & H1 & H2). left. unfold refund. by rewrite P1, H1, H2.
  - rewrite E1 in Hl. destruct Hl as (-> & H1 & H2). left. unfold refund. by rewrite P1, H1, H2.
  - rewrite E1 in Hl |- *. destruct Hl as (q & -> & H1 & H2 & H3 & H4). split_and!; [done|done|].
    exists q. rewrite app_nil_r. split_and!; done.
  - rewrite E1 in Hl. destruct Hl as (q & -> & H1 & H2 & H3 & H4).
    assert (Hq : to_parties e (q ++ [(rec, n)])).
    { apply Forall_app. split; [done|]. apply Forall_singleton. cbn. rewrite P1, P2 in Hrec. split; [lia|done]. }
    assert (Ht : total (q ++ [(rec, n)]) = total q + n) by (rewrite total_app; cbn; lia).
    destruct (_ =? n) eqn:En; [apply Z.eqb_eq in En|apply Z.eqb_neq in En].
    + right. exists (q ++ [(rec, n)]). split_and!; [done|done|lia].
    + unfold is_approved. cbn. rewrite E1. split_and!; [by rewrite ?P1, ?P2, ?P3, ?P4, ?P5|done|].
      exists (q ++ [(rec, n)]). split_and!; [done|done|done|lia|lia].
Qed.

Lemma run_pays_out e p after : to_approved e = false -> agent_approved e = false -> disputed e = false ->
  0 < amount (sophiatx_balance e) -> escrow_run e p after ->
  match after with Some e1 => living e p e1 | None => closed e p end.
Proof.
  intros E1 E2 E3 Hpos Hr. induction Hr as [|p e1 now who q after Hr IH Hs].
  - unfold living, is_approved. rewrite E1, E2, E3. split_and!; done.
  - by apply (living_step e p e1 now who q after).
Qed.
Lemma living_total e p e1 : living e p e1 -> total p + esc_held e1 = esc_held e.
Proof.
  intros (_ & _ & H). unfold esc_held. destruct (is_approved e1).
  - destruct H as (q & -> & _ & H1 & H2 & _). cbn. fold (total q). lia.
  - destruct H as (-> & H1 & H2). cbn. lia.
Qed.
Lemma closed_total e p : closed e p -> total p = esc_held e.
Proof. unfold esc_held, refund. intros [->|(q & -> & _ & H)]; cbn; [lia|]. fold (total q). lia. Qed.

(** ** The handlers *)
Section handlers.
  Context {cfg : sophiatx_config}.
  Implicit Types (s : db) (e : escrow_object).

(** The liquid coins of the accounts, and payments to them *)
Abbreviation liquid := (viewed acc_liquid).
Definition credit (m : gmap Z Z) (p : payments) : gmap Z Z := fold_left (fun m x => alter (Z.add (snd x)) (fst x) m) p m.

Lemma modify_balance_liquid k d c s u s' : modify_balance k d c s = Ok (u, s') ->
  liquid s' = credit (liquid s) [(k, amount d)].
Proof.
  intros H. unfold modify_balance in H. apply bind_Ok in H as (u1 & s1 & H1 & H). apply assert_Ok in H1 as (_ & _ & ->).
  apply bind_Ok in H as (num & s1 & H1 & H). apply gets_Ok in H1 as [-> ->].
  apply bind_Ok in H as (u2 & s1 & H1 & H). apply modify_Ok in H1 as (a & a' & Ha & Hf & ->).
  rewrite (viewed_adjust_proxied acc_liquid _ _ ltac:(done) _ _ _ H). unfold viewed. cbn [upd accounts db_eta credit fold_left fst snd].
  rewrite fmap_insert. rewrite <- (insert_id _ _ _ Ha) at 2. rewrite fmap_insert, alter_insert_eq. f_equal.
  assert (acc_liquid a' = amount d + acc_liquid a) as ->; [|done].
  apply rbind_Ok in Hf as (b & Hb & Hf). apply safe_add_val in Hb. apply rbind_Ok in Hf as (r & Hr & Hf).
  apply rbind_Ok in Hf as (u3 & _ & Hf). injection Hf as <-. apply update_considered_holding_money in Hr as [Hr _].
  unfold acc_liquid. rewrite Hr. cbn. lia.
Qed.
Lemma adjust_balance_name_liquid n d s u s' : adjust_balance_name n d s = Ok (u, s') ->
  liquid s' = credit (liquid s) [(data n, amount d)].
Proof.
  unfold adjust_balance_name. intros H. apply bind_Ok in H as (acc & s1 & H1 & H). apply get_Ok in H1 as [_ ->].
  by eapply modify_balance_liquid.
Qed.

(** One step of the escrow [k] in the state *)
Definition escrow_effect (k : Z * Z) (who : option Z) (pay : payments) s s' : Prop := exists e after,
  escrows s !! k = Some e /\ escrow_step (time (dgpo s)) e who pay after /\
  escrows s' = partial_alter (fun _ => after) k (escrows s) /\ liquid s' = credit (liquid s) pay.
Definition escrow_wf (k : Z * Z) e : Prop :=
  fst k = data (esc_from e) /\ data (esc_from e) <> data (esc_agent e) /\ data (esc_to e) <> data (esc_agent e) /\
  0 < amount (sophiatx_balance e).

#[export] Instance escrow_wf_dec k e : Decision (escrow_wf k e).
Proof. unfold escrow_wf. apply _. Defined.

Lemma party_approves_Ok k who party reject ap set s u s' e : escrow_party_approves k who party reject ap set s = Ok (u, s') ->
  escrows s !! k = Some e ->
  if name_eqb who party
  then ap e = false /\ s' = if (reject : bool) then s else s <| escrows ::= <[k := set e]> |>
  else s' = s.
Proof.
  unfold escrow_party_approves. intros H He. destruct (name_eqb who party); [|by apply ret_Ok in H as [= _ ->]].
  apply bind_Ok in H as (e1 & s1 & H1 & H). apply get_Ok in H1 as [H1 ->]. rewrite He in H1. injection H1 as <-.
  apply bind_Ok in H as (u1 & s1 & H1 & H). apply assert_Ok in H1 as (H1 & _ & ->).
  split; [by destruct (ap e)|]. destruct reject; cbn in H; [by apply ret_Ok in H as [= _ ->]|].
  apply modify_Ok in H as (v & v' & Hv & [= <-] & ->). rewrite He in Hv. by injection Hv as <-.
Qed.
Lemma not_private_Ok s u s' : not_private s = Ok (u, s') -> s' = s.
Proof. unfold not_private, is_private_net. intros H. by minv. Qed.

Lemma refund_effect k who s s1 s2 u1 u2 e n : escrows s !! k = Some e -> data n = data (esc_from e) ->
  adjust_balance_name n (sophiatx_balance e) s = Ok (u1, s1) -> adjust_balance_name n (pending_fee e) s1 = Ok (u2, s2) ->
  escrow_step (time (dgpo s)) e who (refund e) None -> escrow_effect k who (refund e) s (s2 <| escrows ::= delete k |>).
Proof.
  intros He Hn H1 H2 Hs. exists e. eexists. split; [done|]. split; [exact Hs|]. split.
  - cbn [upd escrows db_eta].
    by rewrite (frames_adjust_balance_name escrows _ _ _ _ _ H2), (frames_adjust_balance_name escrows _ _ _ _ _ H1).
  - change (liquid (s2 <| escrows ::= delete k |>)) with (liquid s2).
    rewrite (adjust_balance_name_liquid _ _ _ _ _ H2), (adjust_balance_name_liquid _ _ _ _ _ H1). by rewrite Hn.
Qed.

Lemma approve_who o : escrow_approve_validate o = Ok tt ->
  data (ea_who o) = data (ea_to o) \/ data (ea_who o) = data (ea_agent o).
Proof.
  unfold escrow_approve_validate. intros H. minv.
  match goal with H : _ || _ = true |- _ => apply orb_true_iff in H as [H|H]; apply name_eqb_eq in H; auto end.
Qed.
Lemma approve_effect o s u s' (k := (data (ea_from o), ea_escrow_id o)) : escrow_approve_validate o = Ok tt ->
  (forall e, escrows s !! k = Some e -> escrow_wf k e) ->
  escrow_approve_do_apply o s = Ok (u, s') -> exists pay, escrow_effect k (Some (data (ea_who o))) pay s s'.
Proof.
  intros Hv Hwf H. apply approve_who in Hv.
  unfold escrow_approve_do_apply in H. fold k in H. cbv zeta in H.
  apply bind_Ok in H as (v1 & s1 & H1 & H). apply not_private_Ok in H1 as ->.
  apply bind_Ok in H as (e & s1 & H1 & H). apply get_Ok in H1 as [He ->]. destruct (Hwf e He) as (W1 & W2 & W3 & W4). cbn in W1.
  apply bind_Ok in H as (v2 & s1 & H1 & H). apply assert_Ok in H1 as (Hto%name_eqb_eq & _ & ->).
  apply bind_Ok in H as (v3 & s1 & H1 & H). apply assert_Ok in H1 as (Hag%name_eqb_eq & _ & ->).
  apply bind_Ok in H as (now & s1 & H1 & H). apply gets_Ok in H1 as [-> ->].
  apply bind_Ok in H as (v4 & s1 & H1 & H). apply assert_Ok in H1 as (Hdl & _ & ->). apply Z.geb_le in Hdl.
  apply bind_Ok in H as (v5 & s1 & P1 & H). apply bind_Ok in H as (v6 & s2 & P2 & H).
  assert (Hs2 : exists e2 (w : account_name_type), data (ea_who o) = data w /\
    s2 = (if negb (ea_approve o) then s else s <| escrows ::= <[k := e2]> |>) /\
    (to_approved e = false /\ w = esc_to e /\ e2 = e <| to_approved := true |> \/
     agent_approved e = false /\ w = esc_agent e /\ e2 = e <| agent_approved := true |>)).
  { pose proof (party_approves_Ok _ _ _ _ _ _ _ _ _ e P1 He) as Q1. destruct (name_eqb (ea_who o) (ea_to o)) eqn:N1.
    - destruct Q1 as [Q1 ->]. apply name_eqb_eq in N1. unfold escrow_party_approves in P2.
      assert (N2 : name_eqb (ea_who o) (ea_agent o) = false).
      { destruct (name_eqb (ea_who o) (ea_agent o)) eqn:N2; [|done]. apply name_eqb_eq in N2. congruence. }
      rewrite N2 in P2. apply ret_Ok in P2 as [= _ ->]. eexists _, (esc_to e). split; [congruence|]. split; [done|]. by left.
    - subst s1. destruct Hv as [Hv|Hv]; [by rewrite (proj2 (name_eqb_eq _ _) Hv) in N1|].
      pose proof (party_approves_Ok _ _ _ _ _ _ _ _ _ e P2 He) as Q2. rewrite (proj2 (name_eqb_eq _ _) Hv) in Q2.
      destruct Q2 as [Q2 ->]. eexists _, (esc_agent e). split; [congruence|]. split; [done|]. by right. }
  clear P1 P2. destruct Hs2 as (e2 & w & -> & -> & Hw). apply bind_Ok in H as (e3 & s3 & H1 & H). apply get_Ok in H1 as [He3 ->].
  destruct (negb (ea_approve o)).
  - rewrite He in He3. injection He3 as <-. apply bind_Ok in H as ([] & s3 & A1 & H). apply bind_Ok in H as ([] & s4 & A2 & H).
    unfold remove in H. apply puts_Ok in H as [_ ->]. exists (refund e). apply (refund_effect k _ s s3 s4 tt tt e (ea_from o)); [done|congruence|done|done|].
    apply step_rejected; [done|]. destruct Hw as [(W & -> & _)|(W & -> & _)]; auto.
  - cbn [upd escrows db_eta] in He3. rewrite lookup_insert_eq in He3. injection He3 as <-.
    destruct (to_approved e2 && agent_approved e2) eqn:Hap.
    + apply bind_Ok in H as ([] & s3 & A1 & H). apply modify_Ok in H as (x & x' & Hx & [= <-] & ->).
      pose proof (frames_adjust_balance_name escrows _ _ _ _ _ A1) as F. cbn [upd escrows db_eta] in F.
      rewrite F, lookup_insert_eq in Hx. injection Hx as <-. apply adjust_balance_name_liquid in A1.
      eexists _, e, _. split; [done|]. split; [apply (step_ratified _ e w Hdl)|split].
      * apply andb_true_iff in Hap as [A B]. destruct e. destruct Hw as [(W & -> & ->)|(W & -> & ->)]; cbn in *; auto.
      * cbn [upd escrows db_eta]. rewrite F, insert_insert_eq. unfold insert, map_insert. f_equal.
        apply andb_true_iff in Hap as [A B]. destruct e. destruct Hw as [(W & -> & ->)|(W & -> & ->)]; cbn in *; by subst.
      * change (liquid (upd escrows _ s3)) with (liquid s3). rewrite A1, <- Hag.
        destruct Hw as [(W & -> & ->)|(W & -> & ->)]; done.
    + apply ret_Ok in H as [= _ ->]. exists [], e, (Some e2). split; [done|]. split; [|by split].
      apply andb_false_iff in Hap. destruct e. destruct Hw as [(W & -> & ->)|(W & -> & ->)]; cbn in *; subst.
      * apply step_to_approves; cbn; [done|done|]. by destruct Hap.
      * apply step_agent_approves; cbn; [done| |done]. by destruct Hap.
Qed.

Lemma dispute_effect o s u s' (k := (data (ed_from o), ed_escrow_id o)) : escrow_dispute_validate o = Ok tt ->
  (forall e, escrows s !! k = Some e -> escrow_wf k e) ->
  escrow_dispute_do_apply o s = Ok (u, s') -> exists pay, escrow_effect k (Some (data (ed_who o))) pay s s'.
Proof.
  intros Hv Hwf H. unfold escrow_dispute_do_apply in H. fold k in H. cbv zeta in H.
  apply bind_Ok in H as (v1 & s1 & H1 & H). apply not_private_Ok in H1 as ->.
  apply bind_Ok in H as (acc & s1 & H1 & H). apply get_Ok in H1 as [_ ->].
  apply bind_Ok in H as (e & s1 & H1 & H). apply get_Ok in H1 as [He ->]. destruct (Hwf e He) as (W1 & _). cbn in W1.
  apply bind_Ok in H as (now & s1 & H1 & H). apply gets_Ok in H1 as [-> ->].
  apply bind_Ok in H as (v2 & s1 & H1 & H). apply assert_Ok in H1 as (Hnow & _ & ->). apply Z.ltb_lt in Hnow.
  apply bind_Ok in H as (v3 & s1 & H1 & H). apply assert_Ok in H1 as (Hap & _ & ->).
  apply bind_Ok in H as (v4 & s1 & H1 & H). apply assert_Ok in H1 as (Hd%negb_true_iff & _ & ->).
  apply bind_Ok in H as (v5 & s1 & H1 & H). apply assert_Ok in H1 as (Hto%name_eqb_eq & _ & ->).
  apply bind_Ok in H as (v6 & s1 & H1 & H). apply assert_Ok in H1 as (_ & _ & ->).
  apply modify_Ok in H as (x & x' & Hx & [= <-] & ->). rewrite He in Hx. injection Hx as <-.
  assert (Hw : exists w, data (ed_who o) = data w /\ (w = esc_from e \/ w = esc_to e)).
  { unfold escrow_dispute_validate in Hv. minv. match goal with H : _ || _ = true |- _ => apply orb_true_iff in H as [H|H]; apply name_eqb_eq in H end.
    - exists (esc_from e). split; [congruence|auto].
    - exists (esc_to e). split; [congruence|auto]. }
  destruct Hw as (w & -> & Hw). eexists _, e, _. split; [done|]. split; [by apply (step_disputed _ e w)|]. by split.
Qed.

Lemma release_check_step e who receiver now u : escrow_release_check e who receiver now = Ok u ->
  (data receiver = data (esc_from e) \/ data receiver = data (esc_to e)) ->
  if disputed e then data who = data (esc_agent e)
  else (data who = data (esc_from e) \/ data who = data (esc_to e)) /\
    (now < escrow_expiration e -> data receiver = if data who =? data (esc_from e) then data (esc_to e) else data (esc_from e)).
Proof.
  unfold escrow_release_check, fc_assert. intros H Hr. destruct (disputed e).
  - apply rassert_Ok in H as [H%name_eqb_eq _]. done.
  - apply rbind_Ok in H as (v & H1 & H). apply rassert_Ok in H1 as [H1 _]. apply orb_true_iff in H1.
    rewrite !name_eqb_eq in H1. split; [done|]. intros Hnow. rewrite (proj2 (Z.gtb_lt _ _)) in H by lia. cbn [whenM] in H.
    change (data who =? data (esc_from e)) with (name_eqb who (esc_from e)). destruct (name_eqb who (esc_from e)) eqn:N.
    + by apply rassert_Ok in H as [H%name_eqb_eq _].
    + destruct H1 as [H1|H1]; [by rewrite (proj2 (name_eqb_eq _ _) H1) in N|]. rewrite (proj2 (name_eqb_eq _ _) H1) in H.
      by apply rassert_Ok in H as [H%name_eqb_eq _].
Qed.
Lemma escrow_deduct_Ok k d s u s' e : escrows s !! k = Some e -> escrow_deduct k d s = Ok (u, s') ->
  escrows s' = partial_alter (fun _ => if amount (sophiatx_balance e) =? amount d then None
    else Some (e <| sophiatx_balance ::= fun b => b <| amount ::= fun x => x - amount d |> |>)) k (escrows s) /\
  liquid s' = liquid s.
Proof.
  intros He H. unfold escrow_deduct in H. apply bind_Ok in H as (v1 & s1 & H1 & H).
  apply modify_Ok in H1 as (x & x' & Hx & Hf & ->). rewrite He in Hx. injection Hx as <-.
  apply rbind_Ok in Hf as (b & Hb & Hf). injection Hf as <-. apply asset_sub_amount in Hb as [Hb Hsym].
  apply bind_Ok in H as (e1 & s1 & H1 & H). apply get_Ok in H1 as [H1 ->]. cbn [upd escrows db_eta] in H1.
  rewrite lookup_insert_eq in H1. injection H1 as <-. cbn [upd sophiatx_balance escrow_eta] in H.
  destruct (amount (sophiatx_balance e) =? amount d) eqn:E; bool_simpl.
  - rewrite (proj2 (Z.eqb_eq (amount b) 0)) in H by lia. cbn [whenM] in H. unfold remove in H. apply puts_Ok in H as [_ ->].
    split; [|done]. cbn [upd escrows db_eta]. by rewrite delete_insert_eq.
  - rewrite (proj2 (Z.eqb_neq (amount b) 0)) in H by lia. cbn [whenM] in H. apply ret_Ok in H as [= _ ->].
    split; [|done]. cbn [upd escrows db_eta]. unfold insert, map_insert. f_equal. f_equal.
    destruct e as [? ? ? ? ? ? ? [] ? ? ? ?], b. cbn in *. by subst.
Qed.
Lemma release_effect o s u s' (k := (data (er_from o), er_escrow_id o)) : escrow_release_validate o = Ok tt ->
  (forall e, escrows s !! k = Some e -> escrow_wf k e) ->
  escrow_release_do_apply o s = Ok (u, s') -> exists pay, escrow_effect k (Some (data (er_who o))) pay s s'.
Proof.
  intros Hv Hwf H. unfold escrow_release_do_apply in H. fold k in H. cbv zeta in H.
  apply bind_Ok in H as (v1 & s1 & H1 & H). apply not_private_Ok in H1 as ->.
  apply bind_Ok in H as (acc & s1 & H1 & H). apply get_Ok in H1 as [_ ->].
  apply bind_Ok in H as (e & s1 & H1 & H). apply get_Ok in H1 as [He ->]. destruct (Hwf e He) as (W1 & _). cbn in W1.
  apply bind_Ok in H as (ge & s1 & H1 & H). apply lift_Ok in H1 as [Hge ->].
  apply bind_Ok in H as (v2 & s1 & H1 & H). apply assert_Ok in H1 as (-> & _ & ->).
  apply bind_Ok in H as (v3 & s1 & H1 & H). apply assert_Ok in H1 as (Hto%name_eqb_eq & _ & ->).
  apply bind_Ok in H as (v4 & s1 & H1 & H). apply assert_Ok in H1 as (_ & _ & ->).
  apply bind_Ok in H as (v5 & s1 & H1 & H). apply assert_Ok in H1 as (Hr & _ & ->).
  apply bind_Ok in H as (v6 & s1 & H1 & H). apply assert_Ok in H1 as (Hap & _ & ->).
  apply bind_Ok in H as (now & s1 & H1 & H). apply gets_Ok in H1 as [-> ->].
  apply bind_Ok in H as (v7 & s1 & H1 & H). apply lift_Ok in H1 as [Hc ->].
  apply bind_Ok in H as (v8 & s1 & A1 & H).
  assert (Hn : 0 < amount (er_sophiatx_amount o)).
  { unfold escrow_release_validate in Hv. minv. match goal with H : (_ >? _) = true |- _ => apply Z.gtb_lt in H; lia end. }
  assert (Hb : amount (er_sophiatx_amount o) <= amount (sophiatx_balance e)).
  { unfold asset_geb, asset_cmp in Hge. minv. match goal with H : (_ >=? _) = true |- _ => apply Z.geb_le in H; lia end. }
  pose proof (frames_adjust_balance_name escrows _ _ _ _ _ A1) as F. rewrite <- F in He.
  destruct (escrow_deduct_Ok _ _ _ _ _ _ He H) as [D1 D2]. rewrite F in He, D1.
  eexists _, e, _. split; [done|]. split; [|split; [exact D1|by rewrite D2, (adjust_balance_name_liquid _ _ _ _ _ A1)]].
  apply orb_true_iff in Hr. rewrite !name_eqb_eq in Hr. apply release_check_step in Hc; [|done].
  by apply (step_released _ e (data (er_who o)) (data (er_receiver o))).
Qed.

(** The refunds of the escrows that were not ratified in time *)
Lemma refund_escrow_effect k s u s' e : escrows s !! k = Some e -> ratification_deadline e <= time (dgpo s) ->
  is_approved e = false -> refund_escrow k s = Ok (u, s') ->
  escrow_effect k None (refund e) s s' /\ time (dgpo s') = time (dgpo s) /\ escrows s' = delete k (escrows s).
Proof.
  intros He Hd Ha H. unfold refund_escrow in H. apply bind_Ok in H as (e1 & s1 & H1 & H). apply get_Ok in H1 as [H1 ->].
  rewrite He in H1. injection H1 as <-. apply bind_Ok in H as (v1 & s1 & A1 & H). apply bind_Ok in H as (v2 & s2 & A2 & H).
  unfold remove in H. apply puts_Ok in H as [_ ->]. split; [|split].
  - eapply refund_effect; [done|reflexivity|exact A1|exact A2|]. by apply step_expired.
  - cbn [upd dgpo db_eta]. by rewrite (frames_adjust_balance_name dgpo _ _ _ _ _ A2), (frames_adjust_balance_name dgpo _ _ _ _ _ A1).
  - cbn [upd escrows db_eta]. by rewrite (frames_adjust_balance_name escrows _ _ _ _ _ A2), (frames_adjust_balance_name escrows _ _ _ _ _ A1).
Qed.
Definition refunds (l : list (Z * Z * escrow_object)) : payments := concat (map (fun ke => refund (snd ke)) l).
Lemma credit_app m p q : credit m (p ++ q) = credit (credit m p) q.
Proof. apply fold_left_app. Qed.
Lemma refund_all l s u s' : forM l (fun ke => refund_escrow (fst ke)) s = Ok (u, s') -> NoDup l.*1 ->
  (forall k e, (k, e) ∈ l -> escrows s !! k = Some e /\ ratification_deadline e <= time (dgpo s) /\ is_approved e = false) ->
  rtc (fun s1 s2 => exists k pay, escrow_effect k None pay s1 s2) s s' /\ liquid s' = credit (liquid s) (refunds l) /\
  forall k, escrows s' !! k = if decide (k ∈ l.*1) then None else escrows s !! k.
Proof.
  intros H Hnd. revert s H. induction l as [|[k e] l IH]; intros s H Hl.
  { apply ret_Ok, (f_equal snd) in H. cbn in H. subst s'. done. }
  cbn [forM fst] in H. apply bind_Ok in H as (v & s1 & H1 & H). destruct (Hl k e) as (He & Hd & Ha); [by left|].
  destruct (refund_escrow_effect k s v s1 e He Hd Ha H1) as (Heff & Ht & Hesc). apply NoDup_cons in Hnd as [Hk Hnd].
  destruct (IH Hnd s1 H) as (R & Hliq & Hrest).
  { intros k2 e2 Hin. destruct (Hl k2 e2) as (He2 & Hd2 & Ha2); [by right|]. rewrite Ht, Hesc. split; [|done].
    rewrite lookup_delete_ne; [done|]. intros <-. apply Hk. by apply (list_elem_of_fmap_2 fst) in Hin. }
  split; [eapply rtc_l; [by exists k, (refund e)|done]|]. split.
  - destruct Heff as (_ & _ & _ & _ & _ & Hl1). rewrite Hliq, Hl1. symmetry. apply credit_app.
  - intros k2. rewrite Hrest, Hesc. cbn [fmap list_fmap fst]. destruct (decide (k2 ∈ l.*1)) as [Hin|Hin].
    + rewrite decide_True; [done|]. by right.
    + destruct (decide (k = k2)) as [<-|Hne]; [rewrite lookup_delete_eq, decide_True; [done|by left]|].
      rewrite lookup_delete_ne by done. rewrite decide_False; [done|]. by intros [->|?]%elem_of_cons.
Qed.
Lemma unratified_spec s : NoDup (unratified_escrows (time (dgpo s)) s).*1 /\
  forall k e, (k, e) ∈ unratified_escrows (time (dgpo s)) s ->
    escrows s !! k = Some e /\ ratification_deadline e <= time (dgpo s) /\ is_approved e = false.
Proof.
  unfold unratified_escrows. split; [eapply sublist_NoDup; [|apply fmap_sublist, sublist_filter]; apply index_by_NoDup|].
  intros k e. rewrite list_elem_of_filter, index_by_elem. cbn. intros [Hc He].
  apply andb_true_iff in Hc as [Hc1%negb_true_iff Hc2%Z.leb_le]. done.
Qed.
Lemma expire_refunds s u s' (l := unratified_escrows (time (dgpo s)) s) : expire_escrow_ratification s = Ok (u, s') ->
  rtc (fun s1 s2 => exists k pay, escrow_effect k None pay s1 s2) s s' /\ liquid s' = credit (liquid s) (refunds l) /\
  forall k, escrows s' !! k = if decide (k ∈ l.*1) then None else escrows s !! k.
Proof.
  intros H. unfold expire_escrow_ratification in H. apply bind_Ok in H as (now & s1 & H1 & H). apply gets_Ok in H1 as [-> ->].
  apply bind_Ok in H as (x & s1 & H1 & H). apply gets_Ok in H1 as [-> ->].
  destruct (unratified_spec s) as [Hnd Hl]. by apply (refund_all _ s u).
Qed.

(** Where an escrow comes from *)
Ltac peel_frames H :=
  repeat lazymatch type of H with mbind _ _ _ = Ok _ =>
    let x := fresh "x" in let s1 := fresh "s1" in let Hx := fresh "Hx" in
    apply bind_Ok in H as (x & s1 & Hx & H);
    pose proof (frames_run escrows _ _ _ _ Hx ltac:(frame));
    try pose proof (frames_run (viewed acc_liquid) _ _ _ _ Hx ltac:(frame)); cbv beta zeta in H
  end.
Lemma escrow_transfer_opens o s u s' (k := (data (et_from o), et_escrow_id o)) : config_ok -> escrow_transfer_validate o = Ok tt ->
  escrow_transfer_do_apply o s = Ok (u, s') -> exists e, escrows s !! k = None /\ escrows s' = <[k := e]> (escrows s) /\
  escrow_wf k e /\ to_approved e = false /\ agent_approved e = false /\ disputed e = false /\
  liquid s' = credit (liquid s) [(data (et_from o), - esc_held e)].
Proof.
  intros Hcfg Hv H. assert (Hval : data (et_from o) <> data (et_agent o) /\ data (et_to o) <> data (et_agent o) /\
    0 < amount (et_sophiatx_amount o) /\ symbol (et_escrow_fee o) = SOPHIATX_SYMBOL).
  { unfold escrow_transfer_validate in Hv. minv. destruct Hcfg as [-> _]. bool_simpl. unfold name_eqb in *. bool_simpl. done. }
  destruct Hval as (V1 & V2 & V3 & V4). unfold escrow_transfer_do_apply in H. rewrite V4, Z.eqb_refl in H.
  peel_frames H. apply insert_new_Ok in H as [Hnew ->].
  match goal with H : adjust_balance _ _ _ = _ |- _ => apply modify_balance_liquid in H as Hadj end.
  assert (Hneg : amount x9 = - (amount (et_sophiatx_amount o) + amount (et_escrow_fee o))).
  { apply lift_Ok in Hx6 as [Hx6 _], Hx9 as [Hx9 _]. apply asset_add_amount in Hx6 as [Hx6 _].
    apply asset_neg_amount in Hx9 as [Hx9 _]. lia. }
  assert (He : escrows s12 = escrows s) by congruence. rewrite Hneg in Hadj.
  eexists. split; [by rewrite He in Hnew|]. split; [cbn [upd escrows db_eta]; by rewrite He|].
  split; [by split_and!|]. split_and!; [done..|].
  change (liquid s12 = credit (liquid s) [(data (et_from o), - (amount (et_sophiatx_amount o) + amount (et_escrow_fee o)))]).
  transitivity (liquid s11); [done|]. rewrite Hadj. f_equal. congruence.
Qed.

Lemma escrow_effect_wf k who pay s s' : (forall k e, escrows s !! k = Some e -> escrow_wf k e) -> escrow_effect k who pay s s' ->
  forall k e, escrows s' !! k = Some e -> escrow_wf k e.
Proof.
  intros Hwf (e & after & He & Hs & Hesc & _) k2 e2 He2. rewrite Hesc in He2.
  destruct (decide (k = k2)) as [<-|Hne]; [|rewrite lookup_partial_alter_ne in He2 by done; by apply Hwf].
  rewrite lookup_partial_alter_eq in He2. destruct (Hwf _ _ He) as (W1 & W2 & W3 & W4). subst after.
  destruct e. inversion Hs; subst; cbn in *; try by split_and!.
  destruct (_ =? n) eqn:E; [done|]. apply Z.eqb_neq in E.
  match goal with H : Some _ = Some _ |- _ => injection H as <- end. split_and!; cbn; try done. lia.
Qed.

(** C4: the escrow operations are steps of the state machine: an accepted approval, dispute
    or release makes one step of the escrow it names, made by the account whose
    authority the operation requires; no other escrow changes and the liquid coins change
    by the payments of the step and by nothing else. A transfer to an escrow opens a
    fresh one with the coins of the payer. At the end of a block the chain only makes
    steps of its own, the expirations. The assumption on the escrows lasts. *)
Theorem escrow_operations_step s s' u : (forall k e, escrows s !! k = Some e -> escrow_wf k e) ->
  (forall o, escrow_approve_validate o = Ok tt -> escrow_approve_do_apply o s = Ok (u, s') ->
     exists pay, escrow_effect (data (ea_from o), ea_escrow_id o) (Some (data (ea_who o))) pay s s') /\
  (forall o, escrow_dispute_validate o = Ok tt -> escrow_dispute_do_apply o s = Ok (u, s') ->
     exists pay, escrow_effect (data (ed_from o), ed_escrow_id o) (Some (data (ed_who o))) pay s s') /\
  (forall o, escrow_release_validate o = Ok tt -> escrow_release_do_apply o s = Ok (u, s') ->
     exists pay, escrow_effect (data (er_from o), er_escrow_id o) (Some (data (er_who o))) pay s s') /\
  (forall o, config_ok -> escrow_transfer_validate o = Ok tt -> escrow_transfer_do_apply o s = Ok (u, s') ->
     exists e, escrows s !! (data (et_from o), et_escrow_id o) = None /\
     escrows s' = <[(data (et_from o), et_escrow_id o) := e]> (escrows s) /\ escrow_wf (data (et_from o), et_escrow_id o) e /\
     to_approved e = false /\ agent_approved e = false /\ disputed e = false /\
     liquid s' = credit (liquid s) [(data (et_from o), - esc_held e)]) /\
  (expire_escrow_ratification s = Ok (u, s') -> rtc (fun s1 s2 => exists k pay, escrow_effect k None pay s1 s2) s s') /\
  (forall k who pay, escrow_effect k who pay s s' -> forall k e, escrows s' !! k = Some e -> escrow_wf k e).
Proof.
  intros Hwf. split_and!; [intros o Hv|intros o Hv|intros o Hv|intros o; apply escrow_transfer_opens|by intros []%expire_refunds|
    intros k who pay; by apply escrow_effect_wf].
  - apply approve_effect; auto.
  - apply dispute_effect; auto.
  - apply release_effect; auto.
Qed.
End handlers.

(** ** The life of an escrow in the chain *)
Section life.
  Context {cfg : sophiatx_config}.

(** The liquid coins of the accounts *)
Abbreviation liquid := (viewed acc_liquid).
Implicit Types (s : db) (e : escrow_object).

(** What happens on the chain: the handlers of accepted escrow operations, the expirations at
    the end of a block, and everything else, which leaves the escrows as they are. *)
Inductive escrow_action :=
  | act_transfer (o : escrow_transfer_operation)
  | act_approve (o : escrow_approve_operation)
  | act_dispute (o : escrow_dispute_operation)
  | act_release (o : escrow_release_operation)
  | act_expire
  | act_other.
Definition performs (a : escrow_action) s s' : Prop :=
  match a with
  | act_transfer o => escrow_transfer_validate o = Ok tt /\ escrow_transfer_do_apply o s = Ok (tt, s')
  | act_approve o => escrow_approve_validate o = Ok tt /\ escrow_approve_do_apply o s = Ok (tt, s')
  | act_dispute o => escrow_dispute_validate o = Ok tt /\ escrow_dispute_do_apply o s = Ok (tt, s')
  | act_release o => escrow_release_validate o = Ok tt /\ escrow_release_do_apply o s = Ok (tt, s')
  | act_expire => expire_escrow_ratification s = Ok (tt, s')
  | act_other => escrows s' = escrows s
  end.
Definition opens (k : Z * Z) (a : escrow_action) : Prop :=
  match a with act_transfer o => (data (et_from o), et_escrow_id o) = k | _ => False end.
(** [pays k a s s' q]: of the coins that the action [a] pays out, [q] are those of the escrow
    [k]. An operation pays for the escrow it names, an expiration what it refunds. *)
Definition pays_for (k named : Z * Z) s s' (q : payments) : Prop :=
  if decide (named = k) then liquid s' = credit (liquid s) q else q = [].
Definition pays (k : Z * Z) (a : escrow_action) s s' (q : payments) : Prop :=
  match a with
  | act_approve o => pays_for k (data (ea_from o), ea_escrow_id o) s s' q
  | act_dispute o => pays_for k (data (ed_from o), ed_escrow_id o) s s' q
  | act_release o => pays_for k (data (er_from o), er_escrow_id o) s s' q
  | act_expire => let l := unratified_escrows (time (dgpo s)) s in
      liquid s' = credit (liquid s) (refunds l) /\
      ((exists e, (k, e) ∈ l /\ q = refund e) \/ ((forall e, (k, e) ∉ l) /\ q = []))
  | act_transfer _ | act_other => q = []
  end.

(** The actions led from one state to the other; and doing so they paid out [p] for [k]. *)
Inductive performed s : list escrow_action -> db -> Prop :=
  | performed_nil : performed s [] s
  | performed_snoc l s1 a s2 : performed s l s1 -> performs a s1 s2 -> performed s (l ++ [a]) s2.
Inductive paid_out (k : Z * Z) s : list escrow_action -> payments -> db -> Prop :=
  | paid_nil : paid_out k s [] [] s
  | paid_snoc l p s1 a q s2 : paid_out k s l p s1 -> performs a s1 s2 -> pays k a s1 s2 q ->
      paid_out k s (l ++ [a]) (p ++ q) s2.

Definition all_wf s : Prop := forall k e, escrows s !! k = Some e -> escrow_wf k e.
(** What an action does for the escrow [k] is a step of the state machine or nothing. *)
Definition advances (k : Z * Z) s s' (q : payments) : Prop :=
  forall e p, escrow_run e p (escrows s !! k) -> escrow_run e (p ++ q) (escrows s' !! k).
Lemma advances_nothing k s s' : escrows s' !! k = escrows s !! k -> advances k s s' [].
Proof. intros E e p. by rewrite app_nil_r, E. Qed.
Lemma effect_advances k named who q s s' : escrow_effect named who q s s' ->
  exists q', pays_for k named s s' q' /\ advances k s s' q'.
Proof.
  intros (e & after & He & Hs & Hesc & Hl). unfold pays_for. destruct (decide (named = k)) as [->|Hne].
  - exists q. split; [done|]. intros e0 p Hr. rewrite He in Hr. rewrite Hesc, lookup_partial_alter_eq. by eapply run_step.
  - exists []. split; [done|]. apply advances_nothing. by rewrite Hesc, lookup_partial_alter_ne.
Qed.
Lemma expire_advances k s s' : expire_escrow_ratification s = Ok (tt, s') ->
  exists q, pays k act_expire s s' q /\ advances k s s' q.
Proof.
  intros H. apply expire_refunds in H as (_ & Hl & Hesc). specialize (Hesc k). destruct (unratified_spec s) as [_ Hu].
  cbn [pays]. set (l := unratified_escrows _ _) in *. destruct (decide (k ∈ l.*1)) as [Hin|Hin].
  - apply list_elem_of_fmap in Hin as ([k' e] & -> & Hin). destruct (Hu _ _ Hin) as (He & Hd & Ha). cbn [fst] in *.
    exists (refund e). split; [split; [done|left; by exists e]|]. intros e0 p Hr. rewrite Hesc. rewrite He in Hr.
    eapply run_step; [exact Hr|by apply (step_expired (time (dgpo s)))].
  - exists []. split; [|by apply advances_nothing]. split; [done|right]. split; [|done]. intros e He. apply Hin.
    by apply (list_elem_of_fmap_2 fst) in He.
Qed.
Lemma action_advances k a s s' : config_ok -> all_wf s -> performs a s s' -> ~ opens k a ->
  all_wf s' /\ exists q, pays k a s s' q /\ advances k s s' q.
Proof.
  intros Hcfg Hwf H Hno. destruct a as [o|o|o|o| |]; cbn [performs opens pays] in *.
  - destruct H as [Hv H]. destruct (escrow_transfer_opens o s tt s' Hcfg Hv H) as (e & _ & Hesc & He & _). split.
    + intros k2 e2. rewrite Hesc. intros [[<- <-]|[_ Hk]]%lookup_insert_Some; [done|by apply Hwf].
    + exists []. split; [done|]. apply advances_nothing. rewrite Hesc. by apply lookup_insert_ne.
  - destruct H as [Hv H]. apply approve_effect in H as [q H]; [|done|auto].
    split; [exact (escrow_effect_wf _ _ _ _ _ Hwf H)|by eapply effect_advances].
  - destruct H as [Hv H]. apply dispute_effect in H as [q H]; [|done|auto].
    split; [exact (escrow_effect_wf _ _ _ _ _ Hwf H)|by eapply effect_advances].
  - destruct H as [Hv H]. apply release_effect in H as [q H]; [|done|auto].
    split; [exact (escrow_effect_wf _ _ _ _ _ Hwf H)|by eapply effect_advances].
  - split; [|by apply expire_advances]. apply expire_refunds in H as (_ & _ & Hesc). intros k2 e2 He. rewrite Hesc in He.
    destruct (decide _); [done|by apply Hwf].
  - split; [intros k2 e2; rewrite H; apply Hwf|]. exists []. split; [done|]. apply advances_nothing. by rewrite H.
Qed.

(** C19: an escrow pays out what was put into it and nothing else. From the transfer that opens
    it on, through any accepted escrow operations, expirations and other changes, and as long as
    its number is not used for another escrow: until it is ratified it pays nothing; refused or
    expired it gives everything back to the payer; ratified it pays the agent exactly the
    fee, and the rest, when the escrow is gone all of it, goes to the two parties only. *)
Theorem escrow_pays_out o s0 s acts s' (k := (data (et_from o), et_escrow_id o)) : config_ok -> all_wf s0 ->
  performs (act_transfer o) s0 s -> performed s acts s' -> Forall (fun a => ~ opens k a) acts ->
  exists e p, escrows s !! k = Some e /\ liquid s = credit (liquid s0) [(data (et_from o), - esc_held e)] /\
  paid_out k s acts p s' /\
  match escrows s' !! k with
  | Some e1 => living e p e1 /\ total p + esc_held e1 = esc_held e
  | None => closed e p /\ total p = esc_held e
  end.
Proof.
  intros Hcfg Hwf [Hv H] Hp Hno. assert (Hwf1 : all_wf s).
  { destruct (escrow_transfer_opens o s0 tt s Hcfg Hv H) as (e & _ & Hesc & He & _). intros k2 e2. rewrite Hesc.
    intros [[<- <-]|[_ Hk]]%lookup_insert_Some; [done|by apply Hwf]. }
  destruct (escrow_transfer_opens o s0 tt s Hcfg Hv H) as (e & _ & Hesc & (_ & _ & _ & W) & E1 & E2 & E3 & Hl).
  assert (He : escrows s !! k = Some e) by (rewrite Hesc; apply lookup_insert_eq).
  assert (G : all_wf s' /\ exists p, paid_out k s acts p s' /\ escrow_run e p (escrows s' !! k)).
  { induction Hp as [|l s1 a s2 _ IH Ha]; [split; [done|]; exists []; split; [apply paid_nil|rewrite He; apply run_start]|].
    apply Forall_app in Hno as [Hno Hna]. apply Forall_inv in Hna. destruct (IH Hno) as (Hwf2 & p & Hpaid & Hr).
    destruct (action_advances k a s1 s2 Hcfg Hwf2 Ha Hna) as (Hwf3 & q & Hq & Hadv). split; [done|].
    exists (p ++ q). split; [by eapply paid_snoc|by apply Hadv]. }
  destruct G as (_ & p & Hpaid & Hr). exists e, p. split; [done|]. split; [done|]. split; [done|].
  pose proof (run_pays_out e p _ E1 E2 E3 W Hr) as R.
  destruct (escrows s' !! k); (split; [done|]); [by apply living_total|by apply closed_total].
Qed.
End life.

(** ** Concrete instances *)
Definition example_escrow_key : Z * Z := (data alice, 1).
Definition example_approval : escrow_approve_operation := {|
  ea_fee := sphtx 10000; ea_from := alice; ea_to := bob; ea_agent := SOPHIATX_INIT_MINER_NAME;
  ea_who := bob; ea_escrow_id := 1; ea_approve := true |}.
Definition example_opening : escrow_transfer_operation := {|
  et_fee := sphtx 10000; et_from := alice; et_to := bob; et_agent := SOPHIATX_INIT_MINER_NAME;
  et_escrow_id := 7; et_sophiatx_amount := sphtx 2000; et_escrow_fee := sphtx 10;
  et_ratification_deadline := 1531512900; et_escrow_expiration := 1531513000; et_json_meta := [] |}.
(** Alice opens an escrow, Bob and the agent approve it, and Alice releases the coins. *)
Definition approval_by (who : account_name_type) : escrow_approve_operation := {|
  ea_fee := sphtx 10000; ea_from := alice; ea_to := bob; ea_agent := SOPHIATX_INIT_MINER_NAME;
  ea_who := who; ea_escrow_id := 7; ea_approve := true |}.
Definition example_release : escrow_release_operation := {|
  er_fee := sphtx 10000; er_from := alice; er_to := bob; er_agent := SOPHIATX_INIT_MINER_NAME;
  er_who := alice; er_receiver := bob; er_escrow_id := 7; er_sophiatx_amount := sphtx 2000 |}.
Definition result_of {A} (m : DB A) s : db := match m s with Ok (_, s') => s' | Throw _ => s end.
Lemma result_of_Ok (m : DB unit) s : is_ok (m s) = true -> m s = Ok (tt, result_of m s).
Proof. unfold result_of. by destruct (m s) as [[[] s']|]. Qed.
Definition opened := result_of (escrow_transfer_do_apply example_opening) example_state1.
Definition bob_approved := result_of (escrow_approve_do_apply (approval_by bob)) opened.
Definition ratified := result_of (escrow_approve_do_apply (approval_by SOPHIATX_INIT_MINER_NAME)) bob_approved.
Definition released := result_of (escrow_release_do_apply example_release) ratified.
Lemma example_all_wf : all_wf example_state1.
Proof.
  assert (Hwf : map_Forall escrow_wf (escrows example_state1)); [|exact Hwf].
  refine (bool_decide_eq_true_1 _ _). vm_compute. reflexivity.
Qed.
Lemma escrow_pays_out_witness : exists p, escrows released !! (data alice, 7) = None /\ total p = 2010 /\
  paid_out (data alice, 7) opened
    [act_approve (approval_by bob); act_approve (approval_by SOPHIATX_INIT_MINER_NAME); act_release example_release] p released.
Proof.
  assert (Ho : performs (act_transfer example_opening) example_state1 opened).
  { split; [vm_compute; reflexivity|]. apply result_of_Ok. vm_compute. reflexivity. }
  assert (Hp : performed opened
    [act_approve (approval_by bob); act_approve (approval_by SOPHIATX_INIT_MINER_NAME); act_release example_release] released).
  { apply (performed_snoc _ [_; _] ratified); [apply (performed_snoc _ [_] bob_approved); [apply (performed_snoc _ [] opened);
      [apply performed_nil|]|]|]; (split; [vm_compute; reflexivity|apply result_of_Ok; vm_compute; reflexivity]). }
  destruct (escrow_pays_out example_opening example_state1 opened _ released mainnet_ok example_all_wf Ho Hp) as (e & p & He & _ & Hpaid & Hm).
  { repeat apply Forall_cons_2; [intros []..|apply Forall_nil_2]. }
  change (data (et_from example_opening), et_escrow_id example_opening) with (data alice, 7) in *.
  assert (Hnone : escrows released !! (data alice, 7) = None) by (vm_compute; reflexivity).
  assert (Hheld : esc_held <$> escrows opened !! (data alice, 7) = Some 2010) by (vm_compute; reflexivity).
  exists p. split; [exact Hnone|]. split; [|exact Hpaid]. rewrite Hnone in Hm. rewrite He in Hheld. injection Hheld as Hheld.
  rewrite <- Hheld. apply Hm.
Defined.
Lemma escrow_operations_step_witness : exists s', escrow_approve_do_apply example_approval example_state1 = Ok (tt, s') /\
  exists pay, escrow_effect example_escrow_key (Some (data bob)) pay example_state1 s'.
Proof.
  assert (E : is_ok (escrow_approve_do_apply example_approval example_state1) = true) by (vm_compute; reflexivity).
  assert (Hwf : forall k e, escrows example_state1 !! k = Some e -> escrow_wf k e).
  { assert (Hwf : map_Forall escrow_wf (escrows example_state1)); [|exact Hwf].
    refine (bool_decide_eq_true_1 _ _). vm_compute. reflexivity. }
  destruct (escrow_approve_do_apply example_approval example_state1) as [[[] s']|] eqn:H; [|discriminate E].
  exists s'. split; [exact eq_refl|].
  destruct (escrow_operations_step example_state1 s' tt Hwf) as [C _].
  refine (C example_approval _ H). vm_compute. reflexivity.
Defined.
