(* ===== verification/ConsensusTheorems.v ===== *)
(** * Theorems about slots, the witness schedule, version majorities, irreversible
    blocks, participation and hardforks. *)
From Stdlib Require Import String.
From S2P Require Import Prelude Safe Names Asset Version Config Authority Raw Operations Validate.
From S2P Require Import Objects State Frame Economics Votes Money Balance EvalWitness EvalAccount.
From S2P Require Import EvalTransfer EvalEscrow EvalVote EvalContent Evaluators Block SignState.
From S2P Require Import Transactions WitnessSchedule Periodic Hardforks Blocks Supply Genesis Examples.
Local Open Scope Z_scope.
Local Open Scope list_scope.

Section slots.
  Context {cfg : sophiatx_config}.

(** Slot numbers and slot times form a Galois connection: a time is in slot [n]
    or later exactly when it is not before the time of slot [n], and the time of a
    slot is in that slot, as long as the times fit in 32 bits. *)
Theorem slot_time_galois s n when : 0 < SOPHIATX_BLOCK_INTERVAL -> 0 <= time (dgpo s) -> 1 <= n ->
  slot_base s + n * SOPHIATX_BLOCK_INTERVAL < 2^32 -> 0 <= when < 2^32 ->
  (n <= get_slot_at_time_in s when <-> get_slot_time_in s n <= when) /\
  get_slot_at_time_in s (get_slot_time_in s n) = n.
Proof.
  intros Hi Ht Hn Hb Hw. pose proof (slot_base_range s Hi Ht) as Hr.
  assert (slot_base s + SOPHIATX_BLOCK_INTERVAL < 2^32) by nia.
  rewrite (slot_time_val s n) by lia. set (b := slot_base s) in *. set (i := SOPHIATX_BLOCK_INTERVAL) in *. split.
  - rewrite slot_at_time_val by lia. fold b i. destruct (_ <? _) eqn:E; bool_simpl; [split; nia|].
    replace n with (n * i / i) at 1 by (apply Z.div_mul; lia). split; intros H0.
    + rewrite Z.div_mul in H0 by lia. assert (n * i <= when - b); [|lia].
      apply Z.le_trans with (i * ((when - b) / i)); [nia|]. by apply Z.mul_div_le.
    + apply Z.div_le_mono; lia.
  - assert (i <= n * i) by nia. rewrite slot_at_time_val by lia. fold b i.
    rewrite (proj2 (Z.ltb_ge _ _)) by lia.
    replace (b + n * i - b) with (n * i) by lia. apply Z.div_mul. lia.
Qed.
End slots.

(** The shuffle of a schedule permutes its first [n] places and leaves the
    places after them as they are. *)
Theorem shuffle_permutes {A} n now (l : list A) : 0 <= n < 2^32 -> n <= Z.of_nat (length l) ->
  shuffle n now l ≡ₚ l /\ take (Z.to_nat n) (shuffle n now l) ≡ₚ take (Z.to_nat n) l /\
  drop (Z.to_nat n) (shuffle n now l) = drop (Z.to_nat n) l.
Proof.
  intros Hn Hl. unfold shuffle. set (sh := shuffle_from _ _ _ l).
  assert (P : sh ≡ₚ l) by apply shuffle_from_Permutation.
  assert (D : drop (Z.to_nat n) sh = drop (Z.to_nat n) l).
  { apply list_eq. intros i. rewrite !lookup_drop. apply shuffle_from_lookup_ge; lia. }
  split; [done|]. split; [|done].
  apply (Permutation_app_inv_r (drop (Z.to_nat n) l)). by rewrite <- D at 1; rewrite !take_drop.
Qed.

(** The majority version after a round is the highest version that the required
    number of scheduled witnesses run or exceed; with too few witnesses the old
    version stays. *)
Theorem majority_version_highest required (ws : list witness_object) old :
  0 < required -> Z.of_nat (length ws) < 2^32 ->
  let running p := Z.of_nat (length (filter (fun w => p (running_version w) = true) ws)) in
  if Z.of_nat (length ws) <? required then majority_of required ws old = old
  else exists v, majority_of required ws old = v /\ (exists w, w ∈ ws /\ running_version w = v) /\
    required <= running (fun k => k >=? v) /\ running (fun k => k >? v) < required.
Proof.
  intros Hr Hl running. unfold majority_of. set (ks := map running_version ws).
  assert (Hk : length ks = length ws) by apply length_map.
  destruct (tally_spec Z.gtb gtb_trans gtb_total ks) as [[Ts Tf] Tc]; [lia|].
  assert (Tf' : Forall (fun kn : Z * Z => 0 < snd kn) (tally Z.gtb ks)).
  { eapply Forall_impl; [exact Tf|]. simpl. lia. }
  assert (Hh : forall p, hits p ks = running p).
  { intros p. rewrite hits_filter. unfold running, ks. f_equal. clear. induction ws as [|w ws IH]; [done|].
    cbn [map]. rewrite !filter_cons. destruct (decide _); simpl; by rewrite IH. }
  pose proof (majority_from_spec 0 required _ old Ts Tf' Hr) as S. rewrite Z.add_0_l, Tc in S.
  assert (Hall : hits (fun _ : Z => true) ks = Z.of_nat (length ws)).
  { rewrite <- Hk. clear. induction ks as [|k ks IH]; [done|]. cbn [hits foldr length].
    change (foldr _ 0 ks) with (hits (fun _ : Z => true) ks). rewrite IH. lia. }
  rewrite Hall in S. destruct (_ <? required); [done|].
  destruct S as (v & n & Hin & -> & H1 & H2). rewrite Z.add_0_l, Tc, Hh in H1, H2. exists v. split; [done|].
  split; [|done].
  assert (0 < running (fun k => k >=? v) - running (fun k => k >? v)) by lia.
  destruct (decide (Exists (fun w => running_version w = v) ws)) as [He|He].
  - apply Exists_exists in He as (w & Hw & <-). eauto.
  - exfalso. apply not_Exists_Forall in He; [|intros w; apply _].
    assert (running (fun k => k >=? v) = running (fun k => k >? v)); [|lia]. unfold running. f_equal. f_equal.
    clear -He. induction He as [|w ws Hw He IH]; [done|]. simpl in Hw. rewrite !filter_cons, IH.
    destruct (decide _) as [E|E], (decide _) as [E'|E']; try done;
      rewrite Z.geb_leb, Z.leb_le in E; rewrite Z.gtb_ltb, Z.ltb_lt in E'; lia.
Qed.

(** ** Hardfork votes *)
Lemma cnt_single m v n : StronglySorted (fun x y : hf_vote * Z => hf_vote_ltb (fst x) (fst y) = true) m ->
  (v, n) ∈ m -> cnt (fun k => bool_decide (k = v)) m = n.
Proof.
  induction m as [|[k x] m IH]; [by intros _ ?%not_elem_of_nil|]. intros Hs Hin.
  inversion Hs as [|? ? Hs' Hlt]. subst. cbn [cnt foldr fst snd]. fold (cnt (fun k => bool_decide (k = v)) m).
  rewrite Forall_forall in Hlt. apply elem_of_cons in Hin as [[= <- <-]|Hin].
  - rewrite bool_decide_eq_true_2 by done. rewrite cnt_none; [lia|]. apply Forall_forall. intros y Hy.
    apply bool_decide_eq_false_2. intros E. specialize (Hlt y Hy). simpl in Hlt. by rewrite E, hf_vote_ltb_irrefl in Hlt.
  - rewrite (IH Hs' Hin). rewrite bool_decide_eq_false_2; [lia|]. intros ->.
    specialize (Hlt _ Hin). simpl in Hlt. by rewrite hf_vote_ltb_irrefl in Hlt.
Qed.
Lemma cnt_elem {K} (P : K -> bool) (m : list (K * Z)) : Forall (fun kn => 0 < snd kn) m -> 0 < cnt P m ->
  exists k n, (k, n) ∈ m /\ P k = true.
Proof.
  induction 1 as [|[k n] m Hn Hm IH]; cbn [cnt foldr fst snd]; [lia|]. fold (cnt P m).
  destruct (P k) eqn:E; [intros _; exists k, n; by split; [left|]|]. intros H.
  destruct (IH H) as (k' & n' & Hin & Hk). exists k', n'. by split; [right|].
Qed.

(** A hardfork is scheduled only when the required number of scheduled
    witnesses vote for the same version and time, and one is scheduled whenever
    some version and time has that many votes. *)
Theorem hardfork_vote_quorum required (ws : list witness_object) : 0 < required -> Z.of_nat (length ws) < 2^32 ->
  let for_ v := Z.of_nat (length (filter (fun w => (hardfork_version_vote_ w, hardfork_time_vote w) = v) ws)) in
  match find_hardfork required ws with
  | Some v => required <= for_ v
  | None => forall v, for_ v < required
  end.
Proof.
  intros Hr Hl for_. unfold find_hardfork. set (vote w := (hardfork_version_vote_ w, hardfork_time_vote w)).
  set (ks := map vote ws).
  destruct (tally_spec hf_vote_ltb hf_vote_ltb_trans hf_vote_ltb_total ks) as [[Ts Tf] Tc];
    [by unfold ks; rewrite length_map|].
  assert (Hc : forall v, cnt (fun k => bool_decide (k = v)) (tally hf_vote_ltb ks) = for_ v).
  { intros v. rewrite Tc. unfold for_, ks. clear. induction ws as [|w ws IH]; [done|]. cbn [map hits foldr].
    fold (hits (fun k => bool_decide (k = v)) (map vote ws)). rewrite IH, filter_cons. unfold vote.
    case_bool_decide; destruct (decide _); try done; simpl; lia. }
  destruct (List.find _ _) as [[v n]|] eqn:E; simpl.
  - apply find_some in E as [Hin Hn]. simpl in Hn. bool_simpl. apply list_elem_of_In in Hin.
    rewrite <- Hc, (cnt_single _ v n) by done. done.
  - intros v. destruct (Z_lt_ge_dec (for_ v) required) as [|Hge]; [done|exfalso].
    destruct (cnt_elem (fun k => bool_decide (k = v)) (tally hf_vote_ltb ks)) as (k & n & Hin & Hk).
    { eapply Forall_impl; [exact Tf|]. intros x Hx. apply Hx. }
    { rewrite Hc. lia. }
    apply bool_decide_eq_true in Hk. subst k. pose proof (cnt_single _ v n Ts Hin) as Hn. rewrite Hc in Hn.
    apply list_elem_of_In in Hin. apply (find_none _ _ E) in Hin. simpl in Hin. bool_simpl. lia.
Qed.




(** ** Irreversible blocks *)
Lemma sort_by_sorted {A} (key : A -> list Z) (l : list A) : StronglySorted (le_by key) (sort_by key l).
Proof.
  apply StronglySorted_merge_sort.
  - intros x y z. unfold le_by. apply lex_leb_trans.
  - intros x y. unfold le_by. apply lex_leb_total.
Qed.
Lemma sorted_drop {A} (R : A -> A -> Prop) (l : list A) i x : (forall x, R x x) -> StronglySorted R l ->
  l !! i = Some x -> Forall (R x) (drop i l).
Proof.
  intros Hr Hs. revert i. induction Hs as [|y l Hs IH Hy]; intros i Hi; [by destruct i|].
  destruct i as [|i]; simpl in *; [injection Hi as <-; by constructor|by apply IH].
Qed.
Lemma filter_all {A} (P : A -> Prop) `{forall x, Decision (P x)} l : Forall P l -> filter P l = l.
Proof. induction 1 as [|x l Hx Hl IH]; [done|]. by rewrite filter_cons_True, IH. Qed.
Definition confirming (n : Z) (ws : list (Z * witness_object)) : nat :=
  length (filter (fun kw => n <= last_confirmed_block_num (snd kw)) ws).

Lemma confirmed_quorum ws n : Forall (fun kw => 0 <= last_confirmed_block_num (snd kw) < 2^32) ws ->
  confirmed_by_threshold ws = Ok n ->
  Z.of_nat (length ws) - irreversible_offset (Z.of_nat (length ws)) <= Z.of_nat (confirming n ws).
Proof.
  intros Hf H. unfold confirmed_by_threshold in H. apply rbind_Ok in H as (kw & Hk & [= <-]).
  set (off := irreversible_offset _) in *. unfold vector_at in Hk. destruct (off <? 0) eqn:E; [done|]. bool_simpl.
  destruct (sort_by confirmed_of ws !! Z.to_nat off) as [x|] eqn:Ex; [|done]. injection Hk as ->.
  assert (P : sort_by confirmed_of ws ≡ₚ ws) by apply merge_sort_Permutation.
  assert (Hx : 0 <= last_confirmed_block_num (snd kw) < 2^32).
  { rewrite Forall_forall in Hf. apply Hf. rewrite <- P. by eapply list_elem_of_lookup_2. }
  unfold u32. rewrite Z.mod_small by done.
  pose proof (sorted_drop (le_by confirmed_of) _ _ kw (fun x => lex_leb_refl _) (sort_by_sorted _ _) Ex) as D.
  unfold confirming. rewrite <- P, <- (take_drop (Z.to_nat off) (sort_by confirmed_of ws)), filter_app, length_app.
  assert (Hall : filter (fun kw' : Z * witness_object => last_confirmed_block_num (snd kw) <= last_confirmed_block_num (snd kw'))
    (drop (Z.to_nat off) (sort_by confirmed_of ws)) = drop (Z.to_nat off) (sort_by confirmed_of ws)).
  { apply filter_all. eapply Forall_impl; [exact D|]. intros y Hy. unfold le_by, confirmed_of in Hy. simpl in Hy |- *.
    destruct (_ <? _) eqn:E1; bool_simpl; [lia|]. destruct (_ <? last_confirmed_block_num (snd kw)) eqn:E2; bool_simpl; [done|lia]. }
  rewrite Hall, length_app, length_take. lia.
Qed.

Lemma scheduled_witnesses_from s ws s' : scheduled_witnesses s = Ok (ws, s') ->
  s' = s /\ Forall (fun kw => exists k, witnesses s !! k = Some (snd kw)) ws.
Proof.
  intros H. unfold scheduled_witnesses in H. apply bind_Ok in H as (names & s1 & Hn & H).
  assert (s1 = s) as -> by (refine (frames_run id _ _ _ _ Hn _); unfold scheduled_names; frame). clear Hn.
  enough (G : forall acc ws, Forall (fun kw : Z * witness_object => exists k, witnesses s !! k = Some (snd kw)) acc ->
    foldM (fun acc n => w ← get_witness n; mret (acc ++ [(data n, w)])) acc names s = Ok (ws, s') ->
    s' = s /\ Forall (fun kw => exists k, witnesses s !! k = Some (snd kw)) ws) by (by apply (G [])).
  clear H ws. induction names as [|n names IH]; intros acc ws Hacc H; cbn [foldM] in H.
  - apply ret_Ok, pair_eq in H as [-> ->]. done.
  - apply bind_Ok in H as (acc' & s1 & H1 & H). apply bind_Ok in H1 as (w & s2 & Hw & H1).
    apply get_Ok in Hw as [Hw ->]. apply ret_Ok, pair_eq in H1 as [-> ->]. apply (IH _ ws) in H; [done|].
    apply Forall_app. split; [done|]. constructor; [|constructor]. eauto.
Qed.

(** C21: what makes a block irreversible.  Before block SOPHIATX_START_MINER_VOTING_BLOCK no
    witness is asked: the irreversible block is the one SOPHIATX_MAX_WITNESSES below the
    head, as soon as there is one, whatever it was.  From that block on the irreversible block
    number never decreases, and it is raised only to a block that at least three quarters
    of the scheduled witnesses have confirmed with a block of their own. *)
Theorem irreversible_block_quorum `{cfg : sophiatx_config} s u s' :
  map_Forall (fun _ w => 0 <= last_confirmed_block_num w < 2^32) (witnesses s) ->
  update_last_irreversible_block s = Ok (u, s') ->
  let head := head_block_number (dgpo s) in
  let lib := last_irreversible_block_num (dgpo s) in
  let lib' := last_irreversible_block_num (dgpo s') in
  (head < SOPHIATX_START_MINER_VOTING_BLOCK ->
     lib' = if decide (SOPHIATX_MAX_WITNESSES < head) then u32 (head - SOPHIATX_MAX_WITNESSES) else lib) /\
  (SOPHIATX_START_MINER_VOTING_BLOCK <= head -> lib <= lib' /\
     (lib < lib' -> exists ws, scheduled_witnesses s = Ok (ws, s) /\
        3 * Z.of_nat (length ws) <= 4 * Z.of_nat (confirming lib' ws))).
Proof.
  intros Hw H. unfold update_last_irreversible_block in H.
  apply bind_Ok in H as (head & s1 & H1 & H). apply gets_Ok in H1 as [-> ->]. cbv zeta.
  destruct (Z.ltb_spec (head_block_number (dgpo s)) SOPHIATX_START_MINER_VOTING_BLOCK) as [Hh|Hh].
  { split; [intros _|lia]. apply modify_gpo_Ok in H as (g & [= <-] & ->). cbn [dgpo upd].
    case_decide; destruct (Z.gtb_spec (head_block_number (dgpo s)) SOPHIATX_MAX_WITNESSES); [done|lia|lia|done]. }
  split; [lia|intros _]. apply bind_Ok in H as (ws & s1 & H1 & H).
  destruct (scheduled_witnesses_from _ _ _ H1) as [-> Hws].
  apply bind_Ok in H as (n & s1 & H2 & H). apply lift_Ok in H2 as [H2 ->].
  apply bind_Ok in H as (g & s1 & H3 & H). apply gets_Ok in H3 as [-> ->]. unfold whenM in H.
  destruct (n >? _) eqn:E; bool_simpl.
  - apply modify_gpo_Ok in H as (g & [= <-] & ->). cbv zeta. simpl. split; [lia|]. intros _.
    exists ws. split; [done|]. apply confirmed_quorum in H2.
    + unfold irreversible_offset in H2. change (SOPHIATX_100_PERCENT - SOPHIATX_IRREVERSIBLE_THRESHOLD) with 2500 in H2.
      change SOPHIATX_100_PERCENT with 10000 in H2.
      pose proof (Z.mul_div_le (2500 * Z.of_nat (length ws)) 10000 ltac:(lia)). simpl. lia.
    + eapply Forall_impl; [exact Hws|]. intros kw [k Hk]. exact (Hw _ _ Hk).
  - apply ret_Ok, (f_equal snd) in H. cbn [snd] in H. subst s'. split; [lia|]. lia.
Qed.

(** ** Participation: the bits of the last 128 slots and their count *)
Fixpoint popcount (n : nat) (x : Z) : Z :=
  match n with O => 0 | S n => Z.b2z (Z.testbit x (Z.of_nat n)) + popcount n x end.
Lemma popcount_range n x : 0 <= popcount n x <= Z.of_nat n.
Proof. induction n as [|n IH]; cbn [popcount]; [lia|]. destruct (Z.testbit x _); simpl Z.b2z; lia. Qed.
Lemma popcount_ext n x y : (forall i, 0 <= i < Z.of_nat n -> Z.testbit x i = Z.testbit y i) -> popcount n x = popcount n y.
Proof.
  induction n as [|n IH]; intros H; cbn [popcount]; [done|]. rewrite IH by (intros i Hi; apply H; lia).
  rewrite H by lia. done.
Qed.
Lemma popcount_shift n x y b : Z.testbit y 0 = b -> (forall i, 0 <= i < Z.of_nat n -> Z.testbit y (i + 1) = Z.testbit x i) ->
  popcount (S n) y = popcount n x + Z.b2z b.
Proof.
  intros H0. induction n as [|n IH]; intros H; [cbn [popcount]; change (Z.of_nat 0) with 0; rewrite H0; lia|].
  change (popcount (S (S n)) y) with (Z.b2z (Z.testbit y (Z.of_nat (S n))) + popcount (S n) y).
  rewrite IH by (intros i Hi; apply H; lia). cbn [popcount].
  replace (Z.of_nat (S n)) with (Z.of_nat n + 1) by lia. rewrite H by lia. lia.
Qed.

Lemma shift_bits slots filled count i : 0 <= i < 128 -> 
  Z.testbit (fst (shift_participation filled (slots, count))) i =
  if i =? 0 then filled else Z.testbit slots (i - 1).
Proof.
  intros Hi. cbn [shift_participation fst]. unfold u128. rewrite Z.mod_pow2_bits_low by lia.
  replace (if filled then 1 else 0) with (Z.b2z filled) by (by destruct filled).
  assert (E : Z.shiftl slots 1 mod 2^128 = 2 * (slots mod 2^127)).
  { rewrite Z.shiftl_mul_pow2 by lia. rewrite Z.mul_comm. change (2^128) with (2^1 * 2^127). by rewrite Z.mul_mod_distr_l by lia. }
  rewrite E. destruct (i =? 0) eqn:E0; bool_simpl.
  - subst i. rewrite Z.testbit_0_r. done.
  - replace i with (Z.succ (i - 1)) at 1 by lia. rewrite Z.testbit_succ_r by lia. apply Z.mod_pow2_bits_low. lia.
Qed.

Definition participation_ok (c : Z * Z) : Prop := 0 <= fst c < 2^128 /\ snd c = popcount 128 (fst c).
Lemma shift_participation_ok filled c : participation_ok c -> participation_ok (shift_participation filled c).
Proof.
  destruct c as [slots count]. intros [Hs Hc]. cbn [fst snd] in *. split; [apply u128_range|].
  assert (P : popcount 128 (fst (shift_participation filled (slots, count))) = popcount 127 slots + Z.b2z filled).
  { apply popcount_shift; [by rewrite shift_bits|]. intros i Hi. rewrite shift_bits by lia.
    rewrite (proj2 (Z.eqb_neq _ _)) by lia. f_equal. lia. }
  rewrite P. cbn [shift_participation snd]. pose proof (popcount_range 127 slots).
  assert (Hc' : count = Z.b2z (Z.testbit slots 127) + popcount 127 slots) by exact Hc.
  replace (count - (if Z.testbit slots 127 then 1 else 0)) with (popcount 127 slots) by (destruct (Z.testbit slots 127); cbn [Z.b2z] in Hc'; lia).
  unfold u8. rewrite (Z.mod_small (popcount 127 slots)) by lia. destruct filled; cbn [Z.b2z]; rewrite Z.mod_small; lia.
Qed.

Lemma participation_bits missed c i : 0 <= missed -> 0 <= i < 128 ->
  Z.testbit (fst (participation missed c)) i =
  if i <? missed then false else if i =? missed then true else Z.testbit (fst c) (i - missed - 1).
Proof.
  intros Hm. unfold participation. destruct (Z_of_nat_complete missed Hm) as [n ->]. rewrite Nat2Z.id. clear Hm.
  revert i. induction n as [|n IH]; intros i Hi; [|rewrite Nat.iter_succ].
  - destruct c as [slots count]. change (Nat.iter 0 (shift_participation false) ?x) with x. rewrite shift_bits by done. rewrite (proj2 (Z.ltb_ge i (Z.of_nat 0))) by lia.
    change (Z.of_nat 0) with 0. rewrite Z.sub_0_r. done.
  - destruct (Nat.iter n _ _) as [slots count] eqn:E. rewrite shift_bits by done. cbn [fst] in IH.
    destruct (i =? 0) eqn:E0; bool_simpl.
    + rewrite (proj2 (Z.ltb_lt i _)) by lia. done.
    + rewrite IH by lia. replace (i - Z.of_nat (S n) - 1) with (i - 1 - Z.of_nat n - 1) by lia.
      destruct (i - 1 <? Z.of_nat n) eqn:E1, (i <? Z.of_nat (S n)) eqn:E2; bool_simpl; try done; try lia.
      destruct (i - 1 =? Z.of_nat n) eqn:E3, (i =? Z.of_nat (S n)) eqn:E4; bool_simpl; done || lia.
Qed.

(** The slot bitmap records the last 128 slots: a block after [missed] missed
    slots shifts [missed] zeros and a one in, and [participation_count] stays the
    number of ones, whatever the wrap-around of its eight bits. *)
Theorem participation_counts_slots `{cfg : sophiatx_config, cr : crypto} b missed hf g : 0 <= missed ->
  participation_ok (recent_slots_filled g, participation_count g) ->
  let g' := advance_globals b missed hf g in
  participation_ok (recent_slots_filled g', participation_count g') /\
  (forall i, 0 <= i < 128 -> Z.testbit (recent_slots_filled g') i =
     if i <? missed then false else if i =? missed then true
     else Z.testbit (recent_slots_filled g) (i - missed - 1)).
Proof.
  intros Hm Hok g'.
  assert (E : (recent_slots_filled g', participation_count g') =
    participation missed (recent_slots_filled g, participation_count g)).
  { unfold g', advance_globals. destruct (participation _ _). by destruct (private_net _). }
  split.
  - rewrite E. unfold participation. generalize (Z.to_nat missed). intros n.
    induction n as [|n IH]; [|rewrite Nat.iter_succ]; by apply shift_participation_ok.
  - intros i Hi. rewrite (f_equal fst E : recent_slots_filled g' = _). by apply participation_bits.
Qed.

(** ** Hardforks *)
Section hardforks.
  Context {cfg : sophiatx_config}.

(** A hardfork is due: the witnesses agreed on a newer version and its time has come. *)
Definition hardfork_due (s : db) : bool :=
  match array_at hardfork_versions (last_hardfork (hpo s)) with
  | Ok v => (v <? next_hardfork (hpo s)) && (next_hardfork_time (hpo s) <=? time (dgpo s))
  | Throw _ => false
  end.

Lemma process_hardforks_loop_spec fuel s u s' : hardforks_ok s ->
  process_hardforks_loop fuel s = Ok (u, s') ->
  hardforks_ok s' /\ last_hardfork (hpo s) <= last_hardfork (hpo s') <= SOPHIATX_NUM_HARDFORKS /\
  hardfork_due s' = false /\ dgpo s' = dgpo s.
Proof.
  revert s. induction fuel as [|fuel IH]; intros s Hok H; cbn [process_hardforks_loop] in H;
    apply bind_Ok in H as (h & s1 & H1 & H); apply gets_Ok in H1 as [-> ->];
    apply bind_Ok in H as (now & s1 & H1 & H); apply gets_Ok in H1 as [-> ->];
    apply bind_Ok in H as (v & s1 & H1 & H); apply lift_Ok in H1 as [H1 ->];
    (destruct (_ && _) eqn:E; [destruct (_ <? SOPHIATX_NUM_HARDFORKS) eqn:E2; [|by apply throw_Ok in H]|]).
  1: by apply throw_Ok in H.
  2: { apply bind_Ok in H as ([] & s1 & Ha & H).
       destruct (apply_hardfork_spec _ _ _ _ Hok Ha) as (_ & _ & L & _ & D & Hok1).
       destruct (IH s1 Hok1 H) as (G1 & G2 & G3 & G4). split; [done|]. split; [lia|]. split; [done|]. congruence. }
  all: apply ret_Ok, (f_equal snd) in H; cbn [snd] in H; subst s'; split; [done|];
    (split; [destruct Hok as [? _]; lia|]); split; [|done]; unfold hardfork_due; by rewrite H1.
Qed.

(** The fuel left is the number of hardforks left. *)
Lemma process_hardforks_loop_enough fuel extra s : hardforks_ok s ->
  SOPHIATX_NUM_HARDFORKS - last_hardfork (hpo s) <= Z.of_nat fuel ->
  process_hardforks_loop (fuel + extra) s = process_hardforks_loop fuel s.
Proof.
  revert s. induction fuel as [|fuel IH]; intros s Hok Hf.
  - destruct extra as [|extra]; [done|]. cbn [Nat.add process_hardforks_loop].
    unfold head_block_time, mbind, ST_bind, gets, lift. cbn beta iota.
    destruct (array_at _ _) as [v|]; [|done].
    destruct (_ && _); [|done]. destruct (_ <? SOPHIATX_NUM_HARDFORKS) eqn:E; [|done]. bool_simpl. lia.
  - cbn [Nat.add process_hardforks_loop]. unfold head_block_time, mbind, ST_bind, gets, lift. cbn beta iota.
    destruct (array_at _ _) as [v|]; [|done].
    destruct (_ && _); [|done]. destruct (_ <? SOPHIATX_NUM_HARDFORKS); [|done].
    destruct (apply_hardfork _ s) as [[[] s1]|] eqn:Ea; [|done].
    destruct (apply_hardfork_spec _ _ _ _ Hok Ea) as (_ & _ & L & _ & _ & Hok1). apply IH; [done|lia].
Qed.

(** C36: hardforks are applied one after the other and each once: the list of
    processed hardforks stays the times of hardforks 0 to [last_hardfork] and the
    current version the one of [last_hardfork]; after [process_hardforks] none is
    due, and its loop never stops for lack of rounds. *)
Theorem hardforks_in_order s : hardforks_ok s ->
  (forall u s', process_hardforks s = Ok (u, s') ->
     hardforks_ok s' /\ last_hardfork (hpo s) <= last_hardfork (hpo s') <= SOPHIATX_NUM_HARDFORKS /\
     hardfork_due s' = false) /\
  (forall extra, process_hardforks s =
     process_hardforks_loop (Z.to_nat (SOPHIATX_NUM_HARDFORKS - last_hardfork (hpo s)) + extra) s).
Proof.
  intros Hok. split.
  - intros u s' H. unfold process_hardforks in H. apply bind_Ok in H as (h & s1 & H1 & H).
    apply gets_Ok in H1 as [-> ->]. apply process_hardforks_loop_spec in H as (? & ? & ? & _); done.
  - intros extra. unfold process_hardforks, mbind, ST_bind, gets. symmetry.
    apply process_hardforks_loop_enough; [done|lia].
Qed.
End hardforks.


(** ** Applications of the theorems *)
Definition example_witnesses : list witness_object := map snd (map_to_list (witnesses example_state1)).

Lemma slot_time_galois_witness :
  (2 <= get_slot_at_time_in example_state1 1531512810 <-> get_slot_time_in example_state1 2 <= 1531512810) /\
  get_slot_at_time_in example_state1 (get_slot_time_in example_state1 2) = 2.
Proof. apply (slot_time_galois example_state1 2 1531512810); vm_compute; intuition congruence. Defined.
Lemma shuffle_permutes_witness : shuffle 4 1531512803 [1; 2; 3; 4; 5] ≡ₚ [1; 2; 3; 4; 5].
Proof. apply (shuffle_permutes 4 1531512803 [1; 2; 3; 4; 5]); vm_compute; intuition congruence. Defined.
Lemma majority_version_highest_witness : exists v, majority_of 1 example_witnesses 0 = v /\
  exists w, w ∈ example_witnesses /\ running_version w = v.
Proof.
  pose proof (majority_version_highest 1 example_witnesses 0 ltac:(lia) ltac:(vm_compute; reflexivity)) as H.
  cbv zeta in H. assert (E : (Z.of_nat (length example_witnesses) <? 1) = false) by (vm_compute; reflexivity).
  rewrite E in H. destruct H as (v & H1 & H2 & _). exists v. auto.
Defined.
Lemma hardfork_vote_quorum_witness : exists v, find_hardfork 1 example_witnesses = Some v.
Proof.
  pose proof (hardfork_vote_quorum 1 example_witnesses ltac:(lia) ltac:(vm_compute; reflexivity)) as H.
  cbv zeta in H. destruct (find_hardfork 1 example_witnesses) as [v|] eqn:E; [exists v; reflexivity|].
  assert (E' : match find_hardfork 1 example_witnesses with Some _ => true | None => false end = true) by (vm_compute; reflexivity).
  rewrite E in E'. discriminate E'.
Defined.
Definition example_late_state : db := example_state1 <| dgpo ::= fun g => g <| head_block_number := 864000 |> |>.
Lemma irreversible_block_quorum_witness : exists s',
  update_last_irreversible_block example_late_state = Ok (tt, s') /\
  last_irreversible_block_num (dgpo example_late_state) <= last_irreversible_block_num (dgpo s').
Proof.
  assert (H : is_ok (update_last_irreversible_block example_late_state) = true) by (vm_compute; reflexivity).
  assert (W : map_Forall (fun _ w => 0 <= last_confirmed_block_num w < 2^32) (witnesses example_late_state)).
  { refine (bool_decide_eq_true_1 _ _). vm_compute. reflexivity. }
  assert (L : SOPHIATX_START_MINER_VOTING_BLOCK <= head_block_number (dgpo example_late_state)) by (vm_compute; discriminate).
  pose proof (fun s' => irreversible_block_quorum example_late_state tt s' W) as C. cbv zeta in C.
  revert C H. generalize (update_last_irreversible_block example_late_state). intros [[[] s']|] C H; [|discriminate H].
  exists s'. split; [reflexivity|]. exact (proj1 (proj2 (C s' eq_refl) L)).
Defined.
Lemma participation_counts_slots_witness :
  participation_ok (recent_slots_filled (advance_globals example_block 3 true (dgpo example_state)),
                    participation_count (advance_globals example_block 3 true (dgpo example_state))).
Proof.
  pose proof (participation_counts_slots example_block 3 true (dgpo example_state) ltac:(lia)
    ltac:(vm_compute; repeat split; discriminate)) as C. exact (proj1 C).
Defined.
Lemma example_hardforks_ok : hardforks_ok example_state1.
Proof. vm_compute. repeat split; discriminate. Qed.
Lemma hardforks_in_order_witness : exists s', process_hardforks example_state1 = Ok (tt, s') /\ hardfork_due s' = false.
Proof.
  assert (H : is_ok (process_hardforks example_state1) = true) by (vm_compute; reflexivity).
  pose proof (proj1 (hardforks_in_order example_state1 example_hardforks_ok)) as C.
  revert C H. generalize (process_hardforks example_state1). intros [[[] s']|] C H; [|discriminate H].
  exists s'. split; [reflexivity|]. exact (proj2 (proj2 (C tt s' eq_refl))).
Defined.
