(* ===== verification/ProtocolTheorems.v ===== *)
(** * Theorems of the protocol library: names, symbols, versions, text, packing,
    block ids, the Merkle tree and the signature check. *)
From Stdlib Require Import String.
From S2P Require Import Prelude Safe Names Asset Version Config Authority Utf8 Raw Operations Objects.
From S2P Require Import State Block SignState Transactions Examples.
Local Open Scope Z_scope.
Local Open Scope list_scope.

(** [is_valid_account_name] accepts exactly the strings of 3 to 16 characters
    that are dot-separated labels of the grammar of authority.hpp: a letter,
    then letters, digits or hyphens, then a letter or digit, at least three in all. *)
Theorem is_valid_account_name_grammar name :
  is_valid_account_name name = true <->
  SOPHIATX_MIN_ACCOUNT_NAME_LENGTH <= Z.of_nat (length name) <= SOPHIATX_MAX_ACCOUNT_NAME_LENGTH /\
  valid_domain name.
Proof.
  unfold is_valid_account_name, SOPHIATX_MIN_ACCOUNT_NAME_LENGTH, SOPHIATX_MAX_ACCOUNT_NAME_LENGTH.
  destruct (_ <? 3) eqn:E1; bool_simpl; [split; [done|lia]|].
  destruct (16 <? _) eqn:E2; bool_simpl; [split; [done|lia]|].
  rewrite (label_loop_spec (length name) [] name) by lia. split; [|tauto]. intros H. split; [lia|done].
Qed.

(** [is_utf8] accepts a byte string exactly when it is the concatenation of
    the RFC 3629 encodings of a sequence of Unicode scalar values. *)
Theorem is_utf8_rfc3629 str : Forall byte str ->
  is_utf8 str = true <-> exists cps, Forall scalar cps /\ str = concat (map utf8_encode cps).
Proof.
  intros Hb. unfold is_utf8. split.
  - destruct (find_invalid _ str) eqn:E; [|done]. intros _. by eapply find_invalid_sound.
  - intros (cps & Hc & ->). by rewrite find_invalid_complete.
Qed.
Definition is_utf8_example : list Z := [104; 0xc3; 0xa9; 0xe2; 0x82; 0xac; 0xf0; 0x9f; 0x98; 0x80].
Lemma is_utf8_rfc3629_witness :
  Forall byte is_utf8_example /\ is_utf8 is_utf8_example = true /\
  exists cps, Forall scalar cps /\ is_utf8_example = concat (map utf8_encode cps).
Proof.
  assert (H : Forall byte is_utf8_example) by (repeat constructor; unfold byte; lia).
  split; [exact H|]. split; [vm_compute; reflexivity|].
  apply (is_utf8_rfc3629 is_utf8_example H). vm_compute. reflexivity.
Defined.

(** An asset symbol of three to six ASCII characters is packed into 64 bits
    and read back unchanged; any other length is refused. *)
Theorem symbol_roundtrip cs : Forall valid_char cs ->
  symbol_from_string cs = (if decide (3 <= length cs <= 6)%nat then Ok (pack_symbol cs) else Throw assert_exception) /\
  ((3 <= length cs <= 6)%nat -> symbol_to_string (pack_symbol cs) = cs).
Proof.
  intros Hcs. unfold symbol_from_string, fc_assert, sophiatx_assert, symbol_to_string. split.
  - destruct (decide _); destruct (_ && _) eqn:E; try done.
    + apply andb_false_iff in E as [?|?]; bool_simpl; lia.
    + bool_simpl. lia.
  - intros ?. apply symbol_to_string_pack; [done|lia|lia].
Qed.
Lemma symbol_roundtrip_witness : Forall valid_char (bytes_of_string "SPHTX") /\
  symbol_from_string (bytes_of_string "SPHTX") = Ok SOPHIATX_SYMBOL_U64 /\
  symbol_to_string SOPHIATX_SYMBOL_U64 = bytes_of_string "SPHTX".
Proof.
  assert (H : Forall valid_char (bytes_of_string "SPHTX")) by (repeat constructor; unfold valid_char; vm_compute; intuition congruence).
  split; [exact H|]. destruct (symbol_roundtrip _ H) as [H1 H2].
  split; [rewrite H1; reflexivity|apply H2; simpl; lia].
Defined.

(** The three parts of a version are read back from its 32-bit number, and
    versions are ordered as their (major, hardfork, revision) triples. *)
Theorem version_roundtrip m h r m' h' r' :
  0 <= m < 256 -> 0 <= h < 256 -> 0 <= r < 65536 -> 0 <= m' < 256 -> 0 <= h' < 256 -> 0 <= r' < 65536 ->
  version_major (version m h r) = m /\ version_minor (version m h r) = h /\ version_rev (version m h r) = r /\
  hardfork_of_version (version m h r) = hardfork_version m h /\
  (version m h r < version m' h' r' <-> m < m' \/ (m = m' /\ (h < h' \/ (h = h' /\ r < r')))).
Proof.
  intros. unfold hardfork_version, version_major, version_minor, version_rev, hardfork_of_version.
  rewrite !version_val by lia. change 0xFF000000 with (Z.shiftl (Z.ones 8) 24).
  change 0x00FF0000 with (Z.shiftl (Z.ones 8) 16). rewrite !land_mask_shift by lia.
  change 0x0000FFFF with (Z.ones 16). rewrite Z.land_ones by lia.
  assert (E : m * 2 ^ 24 + h * 2 ^ 16 + r = (m * 256 + h) * 2 ^ 16 + r) by lia.
  split; [|split; [|split; [|split]]].
  - replace (m * 2 ^ 24 + h * 2 ^ 16 + r) with (m * 2^24 + (h * 2 ^ 16 + r)) by lia.
    rewrite Z.div_add_l, (Z.div_small (_ + r)) by lia. rewrite Z.add_0_r. by apply Z.mod_small.
  - rewrite E, Z.div_add_l, (Z.div_small r), Z.add_0_r by lia. rewrite Z.add_comm, Z.mod_add by lia.
    by apply Z.mod_small.
  - rewrite E, Z.add_comm, Z.mod_add by lia. by apply Z.mod_small.
  - change 0xFFFF0000 with (Z.shiftl (Z.ones 16) 16). rewrite Z.add_0_r.
    assert (L : forall a, Z.land a (Z.shiftl (Z.ones 16) 16) = Z.shiftl (Z.shiftr (Z.land a (Z.shiftl (Z.ones 16) 16)) 16) 16).
    { intros a. apply Z.bits_inj'. intros n Hn. rewrite Z.land_spec. destruct (Z.lt_ge_cases n 16).
      - rewrite !Z.shiftl_spec_low by lia. apply andb_false_r.
      - rewrite !Z.shiftl_spec_high, Z.shiftr_spec, Z.land_spec, Z.shiftl_spec_high by lia.
        replace (n - 16 + 16) with n by lia. done. }
    rewrite L, land_mask_shift, Z.shiftl_mul_pow2 by lia.
    rewrite E, Z.div_add_l, (Z.div_small r), Z.add_0_r by lia. rewrite Z.mod_small by lia. lia.
  - lia.
Qed.
Lemma version_roundtrip_witness : version_minor (version 1 2 0) = 2 /\ version 1 1 65535 < version 1 2 0.
Proof.
  destruct (version_roundtrip 1 1 65535 1 2 0 ltac:(lia) ltac:(lia) ltac:(lia) ltac:(lia) ltac:(lia) ltac:(lia)) as (_ & _ & _ & _ & H).
  split; [vm_compute; reflexivity|]. apply H. lia.
Defined.

(** Packing is left-inverse to unpacking for the values that operations carry
    in byte vectors: prices, and vectors of strings ([unpack_from_vector] of what
    [pack_to_vector] gave is the value). *)
Theorem packing_roundtrip p ss : asset_wf (base p) -> asset_wf (quote p) ->
  Forall (fun s => Z.of_nat (length s) < MAX_ARRAY_ALLOC_SIZE) ss ->
  Z.of_nat (length ss) * 32 < MAX_ARRAY_ALLOC_SIZE ->
  unpack_from_vector (pack_price p) unpack_price null_price = Ok p /\
  unpack_from_vector (pack_vector pack_string ss) (unpack_vector 32 unpack_string) [] = Ok ss.
Proof.
  intros Hb Hq Hs Hl. split.
  - apply unpack_from_vector_packed; [by apply unpacks_price|]. unfold pack_price, pack_asset, pack_i64. cbn [le_bytes app]. discriminate.
  - destruct ss as [|s ss]; [reflexivity|]. apply unpack_from_vector_packed.
    + apply unpacks_vector; [|lia|done]. eapply Forall_impl; [exact Hs|]. intros x Hx. by apply unpacks_string.
    + unfold pack_vector, pack_unsigned_int. cbn [pack_varint_fuel]. by destruct (_ >? 0).
Qed.
Lemma packing_roundtrip_witness :
  unpack_from_vector (pack_price (Price (Asset (-5) SBD1_SYMBOL) (Asset 7 SOPHIATX_SYMBOL_U64))) unpack_price null_price
    = Ok (Price (Asset (-5) SBD1_SYMBOL) (Asset 7 SOPHIATX_SYMBOL_U64)) /\
  unpack_from_vector (pack_vector pack_string [[1; 2]; []]) (unpack_vector 32 unpack_string) [] = Ok [[1; 2]; []].
Proof.
  apply (packing_roundtrip (Price (Asset (-5) SBD1_SYMBOL) (Asset 7 SOPHIATX_SYMBOL_U64)) [[1; 2]; []]).
  - unfold asset_wf, INT64_MIN, INT64_MAX, SBD1_SYMBOL. simpl. lia.
  - unfold asset_wf, INT64_MIN, INT64_MAX, SOPHIATX_SYMBOL_U64. simpl. lia.
  - repeat constructor; unfold MAX_ARRAY_ALLOC_SIZE; simpl; lia.
  - unfold MAX_ARRAY_ALLOC_SIZE. simpl. lia.
Defined.

(** A block id carries its block number: reading the first word of the id
    back gives the number of the block, one above the number in [previous]. *)
Theorem block_id_number (cr : crypto) (b : signed_block) :
  num_from_id (block_id b) = block_num b /\ block_num b = u32 (num_from_id (previous b) + 1).
Proof. split; [|done]. unfold num_from_id, block_id. simpl. apply endian_reverse_involutive, u32_range. Qed.

(** Two blocks with as many transactions and the same Merkle root have the
    same transaction digests, when the hashes of the tree do not collide. *)
Theorem merkle_root_binding (cr : crypto) (b b' : signed_block)
  (Hpair : forall x y z t, sha256_pair x y = sha256_pair z t -> x = z /\ y = t)
  (Hroot : forall x y, ripemd160_digest x = ripemd160_digest y -> x = y) :
  length (blk_transactions b) = length (blk_transactions b') ->
  calculate_merkle_root b = calculate_merkle_root b' ->
  map merkle_digest (blk_transactions b) = map merkle_digest (blk_transactions b').
Proof.
  intros Hl H. unfold calculate_merkle_root in H.
  destruct (blk_transactions b) as [|t ts], (blk_transactions b') as [|t' ts']; try done.
  apply Hroot in H. unfold merkle_fold in H.
  set (l := map merkle_digest (t :: ts)) in *. set (l' := map merkle_digest (t' :: ts')) in *.
  assert (Hl' : length l = length l') by (unfold l, l'; by rewrite !length_map).
  rewrite <- Hl' in H. apply (merkle_loop_inj (length l)); [done|done|].
  pose proof (merkle_loop_single (length l) l) as S. pose proof (merkle_loop_single (length l) l') as S'.
  rewrite <- Hl' in S'. specialize (S ltac:(unfold l; simpl; lia)). specialize (S' ltac:(unfold l; simpl; lia)).
  destruct (merkle_loop _ l) as [|x [|]]; try done. destruct (merkle_loop _ l') as [|x' [|]]; try done.
  simpl in H. by subst.
Qed.
Definition example_block_resigned : signed_block := example_block <| witness_signature := 2 |>.
Lemma merkle_root_binding_witness :
  calculate_merkle_root example_block = calculate_merkle_root example_block_resigned /\
  map merkle_digest (blk_transactions example_block) = map merkle_digest (blk_transactions example_block_resigned).
Proof.
  assert (H : calculate_merkle_root example_block = calculate_merkle_root example_block_resigned) by (vm_compute; reflexivity).
  split; [exact H|]. apply (merkle_root_binding example_crypto); [| |reflexivity|exact H].
  - intros x y z t E. apply encode_Z_inj in E. injection E. auto.
  - intros x y E. injection E. auto.
Defined.

(** C5: when [verify_authority] accepts a transaction, every authority it demands is
    backed: the given keys, directly or through authorized accounts, reach the
    threshold of each required authority; an account whose active authority is
    required is authorized by its active or its owner authority, one whose owner
    authority is required by its owner authority. *)
Theorem verify_authority_sound (ops : list operation) (sigs : list public_key_type)
    (get_active get_owner : authority_getter) (max : Z) active owner other :
  (forall id auth, get_active id = Ok auth -> weights_ok auth) ->
  (forall id auth, get_owner id = Ok auth -> weights_ok auth) ->
  foldM (fun '(active, owner, other) op =>
    other' ← get_required_authorities op other;
    Ok (get_required_active_authorities op active, get_required_owner_authorities op owner, other'))
    ([], [], []) ops = Ok (active, owner, other) ->
  Forall weights_ok other ->
  verify_authority ops sigs get_active get_owner max = Ok tt ->
  Forall (authorized sigs get_active) other /\
  Forall (fun name => exists id, string_of_name name = Ok id /\
    (approves get_active sigs id \/
     exists auth, get_owner id = Ok auth /\ authorized sigs get_active auth)) active /\
  Forall (fun name => exists id auth, string_of_name name = Ok id /\ get_owner id = Ok auth /\
    authorized sigs get_active auth) owner.
Proof.
  intros Ha Ho Hreq Hw H. unfold verify_authority in H. apply rbind_Ok in H as ([u s'] & H & _).
  unfold verify_authority_state in H. apply bind_Ok in H as (r & s0 & H0 & H). apply lift_Ok in H0 as [H0 ->].
  rewrite Hreq in H0. injection H0 as <-. cbv beta iota zeta in H.
  pose proof (init_sign_state_ok get_active sigs) as S0.
  apply bind_Ok in H as ([] & s1 & H1 & H). apply bind_Ok in H as ([] & s2 & H2 & H).
  apply bind_Ok in H as ([] & s3 & H3 & _).
  apply (check_loop get_active sigs (authorized sigs get_active)) in H1 as [S1 R1]; [|done|].
  2:{ intros auth s t Hs Hin Hc. eapply check_then_assert; [done|done| |exact Hc].
      rewrite Forall_forall in Hw. by apply Hw. }
  apply (check_loop get_active sigs (fun name => exists id, string_of_name name = Ok id /\
    (approves get_active sigs id \/ exists auth, get_owner id = Ok auth /\ authorized sigs get_active auth)))
    in H2 as [S2 R2]; [|done|].
  2:{ intros name s t Hs _ Hc. apply bind_Ok in Hc as (id & sx & Hid & Hc). apply lift_Ok in Hid as [Hid ->].
      apply bind_Ok in Hc as (ok & sy & Hok & Hc).
      apply (check_authority_of_sound get_active sigs Ha) in Hok as [Sy Hy]; [|done]. destruct ok.
      - apply ret_Ok, (f_equal snd) in Hc. cbn [snd] in Hc. subst t. split; [done|]. exists id. auto.
      - apply bind_Ok in Hc as (auth & sz & Hau & Hc). apply lift_Ok in Hau as [Hau ->].
        apply (check_then_assert get_active sigs Ha) in Hc as [Sz Hz]; [|done|by apply (Ho id)].
        split; [done|]. exists id. eauto. }
  apply (check_loop get_active sigs (fun name => exists id auth, string_of_name name = Ok id /\
    get_owner id = Ok auth /\ authorized sigs get_active auth)) in H3 as [S3 R3]; [|done|].
  2:{ intros name s t Hs _ Hc. apply bind_Ok in Hc as (id & sx & Hid & Hc). apply lift_Ok in Hid as [Hid ->].
      apply bind_Ok in Hc as (auth & sz & Hau & Hc). apply lift_Ok in Hau as [Hau ->].
      apply (check_then_assert get_active sigs Ha) in Hc as [Sz Hz]; [|done|by apply (Ho id)]. eauto 6. }
  done.
Qed.
Definition getter_weights_ok (sel : account_authority_object -> authority) (s : db) : bool :=
  bool_decide (map_Forall (fun _ a => Forall (fun kw => 0 <= snd kw) (key_auths (sel a)) /\
                                      Forall (fun aw => 0 <= snd aw) (account_auths (sel a)))
    (account_auths_ s)).
Lemma auth_getter_ok sel s : getter_weights_ok sel s = true ->
  forall id auth, auth_getter sel s id = Ok auth -> weights_ok auth.
Proof.
  intros H%bool_decide_eq_true id auth. unfold auth_getter. destruct (_ !! _) as [a|] eqn:E; [|done].
  intros [= <-]. exact (H _ _ E).
Qed.
Lemma verify_authority_sound_witness :
  verify_authority [example_transfer] [11] (auth_getter active_auth example_state) (auth_getter owner_auth example_state) 2 = Ok tt /\
  exists id, string_of_name alice = Ok id /\ approves (auth_getter active_auth example_state) [11] id.
Proof.
  assert (H : verify_authority [example_transfer] [11] (auth_getter active_auth example_state) (auth_getter owner_auth example_state) 2 = Ok tt)
    by (vm_compute; reflexivity).
  split; [exact H|].
  destruct (verify_authority_sound [example_transfer] [11] (auth_getter active_auth example_state) (auth_getter owner_auth example_state) 2
    [alice] [] []) as (_ & R & _).
  - apply auth_getter_ok. vm_compute. reflexivity.
  - apply auth_getter_ok. vm_compute. reflexivity.
  - vm_compute. reflexivity.
  - constructor.
  - exact H.
  - apply Forall_cons in R as [(id & Hid & R) _]. exists id. split; [exact Hid|].
    destruct R as [R|(auth & Hau & Hz)]; [exact R|]. intros _. exists auth. split; [|exact Hz].
    rewrite <- Hau. vm_compute in Hid. injection Hid as <-. vm_compute. reflexivity.
Defined.
