(* ===== verification/SupplyTheorems.v ===== *)
(** * Theorems about the supply of coins: operations, blocks, chains and the
    invariant check of the program. *)
From Stdlib Require Import String.
From S2P Require Import Prelude Safe Names Asset Version Config Authority Raw Operations Validate.
From S2P Require Import Objects State Frame Economics Votes Money Balance EvalWitness EvalAccount.
From S2P Require Import EvalTransfer EvalEscrow EvalVote EvalContent Evaluators Block SignState.
From S2P Require Import Transactions WitnessSchedule Periodic Hardforks Blocks Supply Genesis.
From S2P Require Import Examples.
Local Open Scope Z_scope.
Local Open Scope list_scope.

Lemma example_interpreters_sound : interpreters_sound (itp := example_interpreters).
Proof. repeat split; intros app eval p s [=]. Qed.

(** C1: a valid operation that is accepted leaves the state sound: the recorded
    supply is the sum of balances, vesting shares and escrows, the recorded vesting
    total is the sum of vesting shares, and supply and pools add up to the total
    supply.  This holds for every operation type, fee included. *)
Theorem operation_conserves_supply `{sophiatx_config, externals, interpreters} op s u s' :
  SOPHIATX_SYMBOL = SOPHIATX_SYMBOL_U64 -> interpreters_sound -> operation_validate op = Ok tt ->
  apply_operation op s = Ok (u, s') -> sound s -> sound s'.
Proof. apply apply_operation_sound. Qed.
Lemma operation_conserves_supply_witness :
  exists s', apply_operation example_vesting example_state = Ok (tt, s') /\ sound s'.
Proof.
  assert (H : is_ok (apply_operation example_vesting example_state) = true) by (vm_compute; reflexivity).
  destruct (apply_operation example_vesting example_state) as [[[] s]|] eqn:E; [|discriminate H].
  exists s. split; [reflexivity|].
  apply (operation_conserves_supply example_vesting example_state tt s); [reflexivity| |reflexivity|exact E|].
  - exact example_interpreters_sound.
  - exact example_sound.
Defined.

Section blocks.
  Context {cfg : sophiatx_config} {ext : externals} {itp : interpreters} {cr : crypto}.

Lemma validate_invariants_state s u s' : validate_invariants s = Ok (u, s') -> s' = s.
Proof.
  intros H. destruct (private_net (dgpo s)) eqn:E; [|by apply validate_invariants_sound in H as [-> _]].
  unfold validate_invariants in H. apply bind_Ok in H as (p & s1 & H1 & H). apply gets_Ok in H1 as [-> ->].
  rewrite E in H. by apply ret_Ok, (f_equal snd) in H.
Qed.

(** An applied block: its effect under its flags, then the check. *)
Lemma apply_block_inv cps b skip s u s' : apply_block cps b skip s = Ok (u, s') ->
  exists skip' s1, checkpoint_flags cps b skip = Ok skip' /\
    _apply_block b (s <| skip_flags := skip' |>) = Ok (tt, s1) /\
    s' = s1 <| skip_flags := skip_flags s |> /\
    (skips skip' skip_validate_invariants = false -> validate_invariants s' = Ok (tt, s')).
Proof.
  intros H. unfold apply_block in H.
  apply bind_Ok in H as (skip' & s1 & Hsk & H). apply lift_Ok in Hsk as [Hsk ->].
  apply bind_Ok in H as ([] & s1 & Hb & H). unfold with_skip_flags in Hb.
  apply bind_Ok in Hb as (old & s2 & Ho & Hb). apply gets_Ok in Ho as [-> ->].
  apply bind_Ok in Hb as ([] & s2 & Hp & Hb). apply puts_Ok in Hp as [_ ->].
  apply bind_Ok in Hb as ([] & s2 & Hb2 & Hb). apply bind_Ok in Hb as ([] & s3 & Hp & Hb).
  apply puts_Ok in Hp as [_ ->]. apply ret_Ok, (f_equal snd) in Hb. cbn [snd] in Hb. subst s1.
  exists skip', s2. split; [done|]. split; [done|].
  apply bind_Ok in H as (pr & s3 & Hpr & H). apply gets_Ok in Hpr as [-> ->].
  unfold whenM in H. destruct (_ || _) eqn:E.
  - pose proof (validate_invariants_state _ _ _ H) as ->. split; [done|]. by destruct u.
  - apply ret_Ok, (f_equal snd) in H. cbn [snd] in H. split; [done|].
    apply orb_false_iff in E as [_ E]. apply negb_false_iff in E. congruence.
Qed.

(** ** A block whose invariants are checked burns nothing. *)
Lemma checked_block_sound b skip s u s' : config_ok -> interpreters_sound ->
  skips skip skip_validate = false -> skips skip skip_validate_invariants = false ->
  apply_block [] b skip s = Ok (u, s') -> private_net (dgpo s') = false -> sound s -> sound s'.
Proof.
  intros Hc Hi Hv Hk H Hp Hs. apply apply_block_inv in H as (skip' & s1 & [= <-] & Hb & -> & Hinv).
  pose proof (proj1 (sound_sound_upto _) Hs) as Hs0.
  destruct (fun H => apply_block_burns _ b (s <| skip_flags := skip |>) _ _ Hc Hi H Hb Hs0)
    as (burned & _ & _ & Hf & He); [done|].
  specialize (Hinv Hk). apply validate_invariants_sound in Hinv as (_ & Hok & _); [|done]. by split.
Qed.

(** C2: a block that is applied with validation and invariant checks on, whatever
    transactions it holds, takes a sound state to a sound state: every coin that
    is created or destroyed is matched by the pools, and fees, interest, rewards,
    vesting withdrawals and escrow refunds of the block are all accounted for. *)
Theorem block_conserves_supply b s u s' : config_ok -> interpreters_sound ->
  apply_block [] b skip_nothing s = Ok (u, s') -> private_net (dgpo s') = false -> sound s -> sound s'.
Proof. intros Hc Hi. by apply checked_block_sound. Qed.

(** Without the invariant check a block never creates coins: supply and pools
    together may only shrink, by the coins it takes from the null account. *)
Theorem block_never_mints b s u s' : config_ok -> interpreters_sound ->
  skips (skip_flags s) skip_validate = false -> _apply_block b s = Ok (u, s') -> sound s ->
  exists burned, 0 <= burned /\ imbalance s' = (0, 0, SOPHIATX_TOTAL_SUPPLY - burned) /\ fees_paid s'.
Proof.
  intros Hc Hi Hk Hb Hs%sound_sound_upto. apply (apply_block_burns _ _ _ _ _ Hc Hi Hk Hb) in Hs as (burned & ? & ? & ? & _). eauto.
Qed.


(** Coins sent to the null account are taken out of the supply and given to no
    pool, so after [clear_null_account_balance] has found any, the third equation
    fails and [validate_invariants] throws: the block cannot be applied. *)
Theorem clearing_null_account_fails_the_check s u s' : supply_ok s -> 0 < null_coins s ->
  private_net (dgpo s') = false -> clear_null_account_balance s = Ok (u, s') ->
  ~ supply_ok s' /\ is_ok (validate_invariants s') = false.
Proof.
  intros Hs Hn Hp H. assert (G : ~ supply_ok s').
  { rewrite supply_ok_imbalance in *. apply clear_null_spec in H. unfold imbalance in *. rewrite H, Hs.
    intros [=]. lia. }
  split; [exact G|]. destruct (validate_invariants s') as [[u' s2]|] eqn:E; [|done].
  by apply validate_invariants_sound in E as (_ & ? & _).
Qed.

(** The state that [init_genesis] builds is sound except for what rounding the
    pool percentages loses, at most two units and nothing when the percentages
    divide the coinbase supply. *)
Theorem genesis_supply g chain u s : init_genesis g chain empty_db = Ok (u, s) ->
  0 <= SOPHIATX_MINING_POOL_PERCENTAGE -> 0 <= SOPHIATX_INTEREST_POOL_PERCENTAGE ->
  0 <= SOPHIATX_PROMOTION_POOL_PERCENTAGE ->
  SOPHIATX_MINING_POOL_PERCENTAGE + SOPHIATX_INTEREST_POOL_PERCENTAGE + SOPHIATX_PROMOTION_POOL_PERCENTAGE
    = SOPHIATX_100_PERCENT ->
  0 <= amount (current_supply (dgpo s)) <= SOPHIATX_TOTAL_SUPPLY -> SOPHIATX_TOTAL_SUPPLY <= INT64_MAX ->
  exists lost, 0 <= lost <= 2 /\ sound_upto (SOPHIATX_TOTAL_SUPPLY - lost) s /\
    ((SOPHIATX_100_PERCENT | SOPHIATX_TOTAL_SUPPLY - amount (current_supply (dgpo s))) -> lost = 0 /\ sound s).
Proof.
  intros H P1 P2 P3 P4 Hs Ht.
  pose proof (init_genesis_upto _ _ _ _ H P1 P2 P3 P4 Hs Ht) as Hu.
  destruct (coinbase_rounding_bounds (SOPHIATX_TOTAL_SUPPLY - amount (current_supply (dgpo s)))) as [Hb Hd]; [lia|done..|].
  eexists. split; [exact Hb|]. split; [exact Hu|]. intros Hdiv. specialize (Hd Hdiv). split; [exact Hd|].
  apply sound_sound_upto. by rewrite Hd, Z.sub_0_r in Hu.
Qed.

(** A chain of blocks, each applied with flags of its own that leave the
    validation of its transactions on. *)
Inductive chain_run (s0 : db) : list (signed_block * Z) -> db -> Prop :=
  | run_nil : chain_run s0 [] s0
  | run_snoc bs s b skip s' : chain_run s0 bs s -> skips skip skip_validate = false ->
      apply_block [] b skip s = Ok (tt, s') -> chain_run s0 (bs ++ [(b, skip)]) s'.

(** What the blocks of a chain find missing they leave missing; a checked block
    can only be applied when nothing is. *)
Lemma chain_burns d s0 bs s : config_ok -> interpreters_sound -> sound_upto d s0 -> chain_run s0 bs s ->
  exists burned, 0 <= burned /\ sound_upto (d - burned) s /\
    (forall b skip, last bs = Some (b, skip) -> skips skip skip_validate_invariants = false ->
      private_net (dgpo s) = false -> sound s).
Proof.
  intros Hc Hi Hs. induction 1 as [|bs s b skip s' Hr (burned & Hb & Hs1 & _) Hv H].
  { exists 0. rewrite Z.sub_0_r. done. }
  apply apply_block_inv in H as (skip' & s1 & [= <-] & Hbl & -> & Hinv).
  destruct (fun H => apply_block_burns _ b (s <| skip_flags := skip |>) _ _ Hc Hi H Hbl Hs1)
    as (more & Hm & Hs2); [done|].
  exists (burned + more). split; [lia|].
  assert (G : sound_upto (d - (burned + more)) (s1 <| skip_flags := skip_flags s |>)).
  { replace (d - (burned + more)) with (d - burned - more) by lia. exact Hs2. }
  split; [exact G|]. intros b' k Hl Hk Hp. rewrite last_snoc in Hl. injection Hl as <- <-.
  specialize (Hinv Hk). apply validate_invariants_sound in Hinv as (_ & Hok & _); [|done].
  destruct G as (_ & Hf & He). by split.
Qed.

(** C3: on the chain that starts with the state [init_genesis] builds, no sequence of
    blocks, with whatever other flags each is applied, ever creates a coin: once
    genesis has handed out the initial supply and filled the pools from the rest,
    balances, vesting shares and escrows always sum to the recorded supply, supply
    and pools together never exceed the total supply, and what is missing from it is
    the rounding of genesis (at most two units, none when the percentages divide the
    coinbase) and coins burnt at the null account.  After a block that was applied
    with the invariant check on, on a public network, nothing at all is missing. *)
Theorem chain_supply g chain u s0 bs s : config_ok -> interpreters_sound ->
  0 <= SOPHIATX_INTEREST_POOL_PERCENTAGE ->
  SOPHIATX_MINING_POOL_PERCENTAGE + SOPHIATX_INTEREST_POOL_PERCENTAGE + SOPHIATX_PROMOTION_POOL_PERCENTAGE
    = SOPHIATX_100_PERCENT -> SOPHIATX_TOTAL_SUPPLY <= INT64_MAX ->
  init_genesis g chain empty_db = Ok (u, s0) ->
  0 <= amount (current_supply (dgpo s0)) <= SOPHIATX_TOTAL_SUPPLY -> chain_run s0 bs s ->
  exists lost burned, 0 <= lost <= 2 /\ 0 <= burned /\ fees_paid s /\
    imbalance s = (0, 0, SOPHIATX_TOTAL_SUPPLY - (lost + burned)) /\
    (0 <= pools_total (econ s) -> amount (current_supply (dgpo s)) <= SOPHIATX_TOTAL_SUPPLY) /\
    ((SOPHIATX_100_PERCENT | SOPHIATX_TOTAL_SUPPLY - amount (current_supply (dgpo s0))) ->
       lost = 0 /\ (bs = [] -> sound s)) /\
    (forall b skip, last bs = Some (b, skip) -> skips skip skip_validate_invariants = false ->
       private_net (dgpo s) = false -> sound s).
Proof.
  intros Hc Hi P2 P4 Ht Hg Ha Hr. assert (Hc' := Hc). destruct Hc' as (_ & _ & _ & _ & _ & _ & P1 & P3 & _).
  pose proof (init_genesis_upto _ _ _ _ Hg P1 P2 P3 P4 Ha Ht) as Hu.
  destruct (coinbase_rounding_bounds (SOPHIATX_TOTAL_SUPPLY - amount (current_supply (dgpo s0)))) as [Hb Hd]; [lia|done..|].
  set (lost := coinbase_rounding _) in *.
  destruct (chain_burns _ _ _ _ Hc Hi Hu Hr) as (burned & Hn & Hs & Hlast).
  exists lost, burned. split; [exact Hb|]. split; [exact Hn|].
  pose proof Hs as (Him & Hf & _). split; [exact Hf|].
  replace (SOPHIATX_TOTAL_SUPPLY - (lost + burned)) with (SOPHIATX_TOTAL_SUPPLY - lost - burned) by lia.
  split; [exact Him|]. split; [intros Hp; injection Him as _ _ Him; unfold money_of in Him; simpl in Him; lia|].
  split; [|exact Hlast]. intros Hdiv. specialize (Hd Hdiv). split; [exact Hd|]. intros ->.
  inversion Hr; [subst|by destruct bs]. apply sound_sound_upto. by rewrite Hd, Z.sub_0_r in Hu.
Qed.
End blocks.

(** ** Applications to the example chain *)
Lemma block_conserves_supply_witness : sound example_state1.
Proof.
  apply (block_conserves_supply example_block example_state tt).
  - exact mainnet_ok.
  - exact example_interpreters_sound.
  - exact example_state1_Ok.
  - vm_compute. reflexivity.
  - exact example_sound.
Defined.
Lemma chain_supply_witness : chain_run example_state [(example_block, skip_nothing)] example_state1 /\
  sound example_state1 /\ amount (current_supply (dgpo example_state1)) <= SOPHIATX_TOTAL_SUPPLY.
Proof.
  assert (Hr : chain_run example_state [(example_block, skip_nothing)] example_state1).
  { apply (run_snoc _ [] example_state); [apply run_nil|reflexivity|exact example_state1_Ok]. }
  split; [exact Hr|].
  destruct (chain_supply example_genesis 5 tt example_state [(example_block, skip_nothing)] example_state1)
    as (lost & burned & _ & _ & _ & _ & Hp & _ & Hl).
  - exact mainnet_ok.
  - exact example_interpreters_sound.
  - vm_compute. congruence.
  - reflexivity.
  - vm_compute. congruence.
  - exact example_state_Ok.
  - vm_compute. split; congruence.
  - exact Hr.
  - split; [apply (Hl example_block skip_nothing); [reflexivity|reflexivity|vm_compute; reflexivity]|].
    apply Hp. vm_compute. discriminate.
Defined.
Lemma block_never_mints_witness : exists s' burned, _apply_block example_block example_state = Ok (tt, s') /\
  0 <= burned /\ imbalance s' = (0, 0, SOPHIATX_TOTAL_SUPPLY - burned).
Proof.
  assert (H : is_ok (_apply_block example_block example_state) = true) by (vm_compute; reflexivity).
  destruct (_apply_block example_block example_state) as [[[] s]|] eqn:E; [|discriminate H].
  destruct (block_never_mints example_block example_state tt s) as (burned & H1 & H2 & _).
  - exact mainnet_ok.
  - exact example_interpreters_sound.
  - vm_compute. reflexivity.
  - exact E.
  - exact example_sound.
  - exists s, burned. auto.
Defined.

(** A transfer to the null account. *)
Definition example_burn : operation := op_transfer {|
  tr_fee := sphtx 10000; tr_from := alice; tr_to := SOPHIATX_NULL_ACCOUNT; tr_amount := sphtx 5; tr_memo := [] |}.
Definition example_burnt : db :=
  match apply_operation example_burn example_state with Ok (_, s) => s | Throw _ => empty_db end.
#[local] Instance coin_dec a : Decision (coin a).
Proof. unfold coin. apply _. Defined.
#[local] Instance escrow_coins_dec e : Decision (escrow_coins e).
Proof. unfold escrow_coins. apply _. Defined.

Lemma clearing_null_account_fails_the_check_witness :
  null_coins example_burnt = 5 /\ exists s, clear_null_account_balance example_burnt = Ok (tt, s) /\
  is_ok (validate_invariants s) = false.
Proof.
  split; [vm_compute; reflexivity|].
  assert (H : is_ok (clear_null_account_balance example_burnt) = true) by (vm_compute; reflexivity).
  assert (P : match clear_null_account_balance example_burnt with
              | Ok (_, s) => private_net (dgpo s) = false | Throw _ => False end) by (vm_compute; reflexivity).
  destruct (clear_null_account_balance example_burnt) as [[[] s]|] eqn:E; [|discriminate H].
  exists s. split; [reflexivity|].
  apply (clearing_null_account_fails_the_check example_burnt tt s); [| |exact P|exact E].
  - unfold supply_ok. vm_compute. intuition congruence.
  - vm_compute. reflexivity.
Defined.
Lemma genesis_supply_witness : sound example_state.
Proof.
  destruct (genesis_supply _ _ _ _ example_state_Ok) as (lost & _ & _ & H);
    [vm_compute; congruence..| |vm_compute; congruence|]; [vm_compute; split; congruence|].
  apply H. exists 14800000000. vm_compute. reflexivity.
Defined.
