(* ===== verification/UndoTheorems.v ===== *)
(** * Theorems about the undo history of the object tables: sessions refine a stack
    of snapshots. *)
From stdpp Require Import gmap.
From S2P Require Import Prelude Chainbase.
Local Open Scope Z_scope.
Local Open Scope list_scope.

(** Successful changes of a table, in any order. *)
Inductive table_step {V K} `{EqDecision K} (keys : V -> list K) : generic_index V -> generic_index V -> Prop :=
  | step_create c i i' id : emplace keys c i = (i', Ok id) -> table_step keys i i'
  | step_modify f i i' id v : _indices i !! id = Some v -> keys (f v) = keys v ->
      modify keys id f i = (i', Ok tt) -> table_step keys i i'
  | step_remove i i' id : remove id i = (i', Ok tt) -> table_step keys i i'.

Section undo.
  Context {V K : Type} `{EqDecision K} (keys : V -> list K).
  Implicit Types i : generic_index V.

Lemma table_step_ok i i' : index_ok keys i -> table_step keys i i' ->
  index_ok keys i' /\ snd (abstract i') = snd (abstract i).
Proof.
  intros Hok Hs. destruct Hs as [c i i' id H|f i i' id v Hv Hk H|i i' id H].
  - destruct (fits keys (_next_id i) (c (_next_id i)) (_indices i)) eqn:E.
    + destruct (emplace_refines keys c i Hok E) as (i1 & H1 & G1 & G2). rewrite H1 in H. injection H as <- <-.
      by rewrite G2.
    + by rewrite (emplace_refused keys c i Hok E) in H.
  - destruct (modify_refines keys id f i v Hok Hv Hk) as (i1 & H1 & G1 & G2). rewrite H1 in H. injection H as <-.
    by rewrite G2.
  - destruct (_indices i !! id) as [v|] eqn:E; [|unfold remove in H; by rewrite E in H].
    destruct (remove_refines keys id i v Hok E) as (i1 & H1 & G1 & G2). rewrite H1 in H. injection H as <-.
    by rewrite G2.
Qed.
Lemma table_steps_ok i i' : rtc (table_step keys) i i' -> index_ok keys i ->
  index_ok keys i' /\ snd (abstract i') = snd (abstract i).
Proof.
  induction 1 as [i|i i1 i' Hs _ IH]; intros Hok; [done|].
  apply (table_step_ok _ _ Hok) in Hs as [Hok1 E]. rewrite <- E. by apply IH.
Qed.

(** C8: undoing a session restores the table and the next id exactly as they were
    when the session was started, whatever objects were created, changed and
    removed in between, and leaves the sessions below as they were. *)
Theorem undo_restores i i' : index_ok keys i -> rtc (table_step keys) (start_undo_session i) i' ->
  exists i'', undo keys i' = (i'', Ok tt) /\ index_ok keys i'' /\
    _indices i'' = _indices i /\ _next_id i'' = _next_id i /\ abstract i'' = abstract i.
Proof.
  intros Hok Hr. destruct (start_refines keys i Hok) as [Hs Ha].
  apply table_steps_ok in Hr as [Hok' E]; [|done]. rewrite Ha in E.
  destruct (undo_refines keys i' _ _ _ Hok' E) as (i'' & H & Hok'' & A). exists i''.
  split; [done|]. split; [done|]. pose proof A as A'. unfold abstract in A'. injection A' as E1 E2 _.
  split; [done|]. split; [done|]. by rewrite A.
Qed.

(** Squashing keeps the table and forgets exactly the latest snapshot: undoing
    the squashed session leads to where undoing the two sessions one after the
    other leads, through all sixteen cases of the merge table. *)
Theorem squash_then_undo i s1 s2 snaps : index_ok keys i -> snd (abstract i) = s1 :: s2 :: snaps ->
  _indices (squash i) = _indices i /\ _revision (squash i) = _revision i - 1 /\
  exists i1 i2 i', undo keys i = (i1, Ok tt) /\ undo keys i1 = (i2, Ok tt) /\
    undo keys (squash i) = (i', Ok tt) /\ abstract i' = abstract i2 /\ abstract i2 = (s2.1, s2.2, snaps).
Proof.
  intros Hok Ha. destruct s1 as [t1 n1], s2 as [t2 n2].
  destruct (squash_refines keys i _ _ _ Hok Ha) as (Hsq & Asq & Hrev).
  destruct (undo_refines keys i _ _ _ Hok Ha) as (i1 & H1 & Hok1 & A1).
  destruct (undo_refines keys i1 t2 n2 snaps) as (i2 & H2 & Hok2 & A2); [done|by rewrite A1|].
  destruct (undo_refines keys (squash i) t2 n2 snaps) as (i3 & H3 & Hok3 & A3); [done|by rewrite Asq|].
  unfold abstract in Asq. injection Asq as E1 E2 _. split; [done|]. split; [done|].
  exists i1, i2, i3. split; [done|]. split; [done|]. split; [done|]. rewrite A2, A3. done.
Qed.

(** Committing a revision drops snapshots of the oldest sessions only; the
    table, the next id, the revision and every remaining snapshot are unchanged. *)
Theorem commit_keeps_recent r i : index_ok keys i -> exists old,
  index_ok keys (commit r i) /\ snd (abstract i) = snd (abstract (commit r i)) ++ old /\
  _indices (commit r i) = _indices i /\ _next_id (commit r i) = _next_id i /\
  _revision (commit r i) = _revision i.
Proof. apply commit_refines. Qed.

(** [undo_all] terminates with no session left, at the state before the oldest
    session, and a session around a call that throws leaves no trace. *)
Theorem unwinding i : index_ok keys i ->
  (exists i', undo_all keys i = (i', Ok tt) /\ index_ok keys i' /\
    abstract i' = (default (_indices i, _next_id i) (last (snd (abstract i))), [])) /\
  (forall A (body : generic_index V -> generic_index V * res A) i' e,
    body (start_undo_session i) = (i', Throw e) -> rtc (table_step keys) (start_undo_session i) i' ->
    exists i'', with_session keys body i = (i'', Throw e) /\ abstract i'' = abstract i).
Proof.
  intros Hok. split; [by apply undo_all_refines|]. intros A body i' e Hb Hr.
  destruct (start_refines keys i Hok) as [Hs Ha]. apply table_steps_ok in Hr as [Hok' E]; [|done].
  rewrite Ha in E. destruct (with_session_refines keys body i i' e Hok Hb Hok' E) as (i'' & H & _ & G). eauto.
Qed.
End undo.

(** ** A table of named values: the name is the unique key. *)
Definition example_keys (v : Z * Z) : list Z := [fst v].
Definition example_index : generic_index (Z * Z) := GenericIndex [] 0 0 ∅.
Lemma example_index_ok : index_ok example_keys example_index.
Proof. split; [by intros ? ? ? ? H|]. split; [by intros ? ? H|done]. Qed.
Definition with_two : generic_index (Z * Z) :=
  fst (emplace example_keys (fun _ => (11, 200)) (fst (emplace example_keys (fun _ => (10, 100)) example_index))).
Lemma with_two_ok : index_ok example_keys with_two.
Proof.
  eapply (table_steps_ok example_keys example_index); [|exact example_index_ok].
  eapply rtc_l; [by apply (step_create _ (fun _ => (10, 100)) _ _ 0)|].
  apply rtc_once. by apply (step_create _ (fun _ => (11, 200)) _ _ 1).
Qed.

Definition session_steps : generic_index (Z * Z) :=
  fst (remove 0 (fst (modify example_keys 1 (fun v => (fst v, 201)) (start_undo_session with_two)))).
Lemma session_steps_run : rtc (table_step example_keys) (start_undo_session with_two) session_steps.
Proof.
  eapply rtc_l; [by apply (step_modify _ (fun v => (fst v, 201)) _ _ 1 (11, 200))|].
  apply rtc_once. by apply (step_remove _ _ _ 0).
Qed.
Lemma undo_restores_witness : exists i, undo example_keys session_steps = (i, Ok tt) /\ _indices i = _indices with_two.
Proof.
  destruct (undo_restores example_keys with_two session_steps with_two_ok session_steps_run) as (i & H1 & _ & H2 & _).
  exists i. split; [exact H1|exact H2].
Defined.

Definition two_sessions : generic_index (Z * Z) :=
  fst (emplace example_keys (fun _ => (10, 300)) (start_undo_session session_steps)).
Lemma two_sessions_ok : index_ok example_keys two_sessions.
Proof.
  destruct (start_refines example_keys with_two with_two_ok) as [H1 _].
  destruct (table_steps_ok example_keys _ _ session_steps_run H1) as [H2 _].
  destruct (start_refines example_keys session_steps H2) as [H3 _].
  eapply (table_steps_ok example_keys); [|exact H3]. apply rtc_once. by apply (step_create _ (fun _ => (10, 300)) _ _ 2).
Qed.
Lemma squash_then_undo_witness : exists i1 i2 i', undo example_keys two_sessions = (i1, Ok tt) /\
  undo example_keys i1 = (i2, Ok tt) /\ undo example_keys (squash two_sessions) = (i', Ok tt) /\ abstract i' = abstract i2.
Proof.
  destruct (snd (abstract two_sessions)) as [|s1 [|s2 snaps]] eqn:E; [vm_compute in E; discriminate E..|].
  destruct (squash_then_undo example_keys two_sessions s1 s2 snaps two_sessions_ok E)
    as (_ & _ & i1 & i2 & i' & H1 & H2 & H3 & H4 & _).
  exists i1, i2, i'. auto.
Defined.
Lemma commit_keeps_recent_witness : exists old, length old = 1%nat /\
  snd (abstract two_sessions) = snd (abstract (commit 1 two_sessions)) ++ old.
Proof.
  destruct (commit_keeps_recent example_keys 1 two_sessions two_sessions_ok) as (old & _ & H & _).
  exists old. split; [|exact H]. apply (f_equal length) in H. rewrite length_app in H.
  assert (E1 : length (snd (abstract two_sessions)) = 2%nat) by (vm_compute; reflexivity).
  assert (E2 : length (snd (abstract (commit 1 two_sessions))) = 1%nat) by (vm_compute; reflexivity).
  rewrite E1, E2 in H. lia.
Defined.
Lemma unwinding_witness : exists i, undo_all example_keys two_sessions = (i, Ok tt) /\
  abstract i = (_indices with_two, _next_id with_two, []).
Proof.
  destruct (unwinding example_keys two_sessions two_sessions_ok) as [(i & H1 & _ & H2) _].
  exists i. split; [exact H1|]. rewrite H2. vm_compute. reflexivity.
Defined.

(** A change that breaks a unique key erases the object and notes its old value,
    so the session can no longer be undone: [undo] looks for the erased object and
    dereferences the end of the index. *)
Theorem failed_modify_breaks_undo : exists (i i' : generic_index (Z * Z)),
  index_ok example_keys i /\
  modify example_keys 1 (fun v => (10, snd v)) (start_undo_session i) = (i', Throw logic_error) /\
  _indices i' !! 1 = None /\ snd (undo example_keys i') = Throw crash.
Proof. exists with_two. eexists. split; [exact with_two_ok|]. split; [reflexivity|]. split; reflexivity. Qed.
